(* ===== verification/_CoqProject ===== *)
-Q . S2P
Prelude.v
JsString.v
JsNum.v
JsValue.v
Json.v
Identity.v
Expression.v
Sql.v
Effects.v
Constants.v
Effective.v
Decision.v
JsDate.v
ConnectorTypes.v
Jsonb.v
RuleSchema.v
Cache.v
Findings.v
FindingsCorrect.v
FindingsSpec.v
Snapshots.v
Resolver.v
Presentation.v
Cvss.v
OsvParse.v
Osv.v
Schema.v
Catalog.v
CatalogCorrect.v
CatalogSpec.v
Freshness.v
FreshnessSpec.v
Scorer.v
Contributor.v
Intelligence.v
Evaluation.v
EvaluationCorrect.v
EvaluationSpec.v
Ingestion.v
IngestionCorrect.v
Violations.v
ViolationsCorrect.v
ViolationsSpec.v
Tenancy.v
Rbac.v
Members.v
Tokens.v
AccessCorrect.v
AccessSpec.v
CheckService.v
Proxies.v
RuntimeTokens.v
ProxySpec.v
Webhook.v
Policies.v
PolicyCorrect.v
PolicyRefine.v
PolicySpec.v
Provision.v
ProvisionCorrect.v
ProvisionSpec.v
AuthClaims.v
TokenHook.v
TokenHookSpec.v
Usage.v
UsageCorrect.v
Ticks.v
IngestionSpec.v
CheckSpec.v
CheckRecords.v
UsageSpec.v
TokenSpec.v
Streams.v
StreamSpec.v
Registry.v
Gateway.v
Preview.v
PreviewSpec.v
Guidance.v
IngestQueue.v
