(* ===== verification/Prelude.v ===== *)
(** * depCustoms: verification of the control plane

    depCustoms is a gate between package managers and the registries they install
    from.  Proxies ask the control plane, the TypeScript service under
    src/services/api/src, whether a version of a package may be served; the control
    plane gathers what its connectors know of the version, evaluates the tenant's
    policy on it, answers, and records why.  The rest of the service manages what that
    decision depends on: tenants, members, roles, projects, tokens, proxies, policies,
    and shows what was decided.

    This library models that service.  Paths below are relative to
    src/services/api/src unless they start with src/.

    ** How the code is read

    - A JavaScript value is a [jsval] (JsValue.v): objects as association lists in
      insertion order with distinct keys, numbers as IEEE binary64 (JsNum.v), strings
      as Latin-1 code units (JsString.v), dates as milliseconds (JsDate.v).  JSON text
      and JSON columns are Json.v and Jsonb.v.
    - A database table is the list of its rows in storage order (Sql.v).  What
      [ORDER BY] does with equal keys is the class [SqlOrder].  The unique indexes
      and check constraints the modelled code can meet are part of the writes, which
      throw when one is broken.
    - A handler is a state monad with errors (Effects.v): it keeps the writes made
      before a throw, and only [transaction] rolls them back.  The clock and random
      identifiers are oracles of the class [Env], indexed by the readings made so far;
      a theorem that needs a monotone clock or fresh identifiers says so.
    - What one function of the source does is one definition of its name; a query, a
      row built in place or the body of a loop is a definition of its own, named after
      the variable it fills.
    - Functions of other programs and packages are parameters: a class where many
      definitions share them ([Semver], [AuthService], [Formats], [Jose],
      [TextDriver]), an argument elsewhere.

    ** The parts

    Policy: Expression.v (policy/expression.ts) evaluates conditions; Effective.v
    (policy/effective.ts) loads the rules in force for a project;
    Resolver.v (policy/resolver.ts) builds the fields; Decision.v (evaluation in
    connect/check-service.ts) folds rules into a verdict.

    Connectors: ConnectorTypes.v states the interface every connector implements
    (class [PackageIntelligenceConnector]) and the laws the dispatcher relies on
    (class [LawfulConnector]); Osv.v with OsvParse.v and Cvss.v, Contributor.v with
    Scorer.v, and Intelligence.v implement it; Registry.v makes them one type;
    Presentation.v, Cache.v (connectors/cache.ts) and Snapshots.v serve them all.

    Catalogue: Identity.v (features/packages/identity.ts), Schema.v, Catalog.v with
    CatalogCorrect.v and CatalogSpec.v (catalog-references.ts,
    catalog-classification.ts), Freshness.v and FreshnessSpec.v.

    The check: CheckService.v ([handleCheck], connect/check-service.ts) calls
    Evaluation.v (connectors, deadlines, late fetches), Decision.v, Findings.v
    (features/security/project-findings.ts) and Violations.v (recording); Ingestion.v
    (features/contributors/ingestion-service.ts) stores contributor facts; Gateway.v
    puts check, registry and ingestion together; IngestQueue.v is the queue in front
    of the ingestion.  Their invariants are in the files ...Correct.v, their
    guarantees in ...Spec.v; CheckSpec.v and CheckRecords.v speak of the whole check.

    Access: Tenancy.v (tables), Rbac.v (middleware/rbac.ts, http/guards.ts), Members.v,
    Tokens.v, with AccessCorrect.v, AccessSpec.v, TokenSpec.v; Proxies.v,
    RuntimeTokens.v and ProxySpec.v (features/proxies, features/internal-proxy-auth,
    connect/proxy-auth.ts); AuthClaims.v (auth/auth-claims.ts, auth/jwt-verifier.ts,
    middleware/auth.ts), Webhook.v and TokenHook.v with TokenHookSpec.v
    (features/internal-auth-hook, routes/internal.ts): the claims of a user's token,
    from the tables to the routes.

    Policy management: Policies.v with PolicyCorrect.v, PolicyRefine.v, PolicySpec.v
    (features/policies, features/rules, features/policy-assignments): versions of
    policies and rules; RuleSchema.v (features/rules/shared.ts): what a rule may be;
    Provision.v with ProvisionCorrect.v and ProvisionSpec.v
    (bootstrap/tenant-provisioning.ts): the first policies of a tenant; Preview.v and
    PreviewSpec.v (features/policy-preview, previewPackageDecision of
    features/mcp/services/package-guidance-service.ts): what a policy would decide.

    Guidance: Guidance.v (features/mcp/services: project-access.ts,
    package-guidance-service.ts, suggest-allowed-versions-service.ts,
    preview-dependency-change-service.ts, explain-package-decision-service.ts): what
    agents are told of versions of a package, and what they promise.

    Reporting: Usage.v with UsageCorrect.v and UsageSpec.v (connect/
    record-usage-service.ts, features/packages/usage-aggregation.ts): the events
    proxies report and the counters over them; Streams.v and StreamSpec.v
    (sse/subscription-manager.ts, features/sse): the live streams of the dashboard.

    ** What is shown

    - The gate: the verdict is its specification and always exists for the rules the
      API accepts ([verdict_spec], [accepted_rules_decided]); conditions mean their grammar
      ([grammar_semantics]); the rules in force are exactly those the tables
      prescribe ([effective_rules_spec]); an allowed request has a token in force of
      a tenant the proxy serves, an ecosystem of its plan, and passes every rule
      ([allowed_requests_pass]); the records of a check explain its answer
      ([answer_explained_by_records], [violations_recorded]).
    - What is known of a package: CVSS scores are the exact ones rounded once
      ([cvss_v3_score_exact]); thresholds see the parsed advisories
      ([osv_threshold_rule]); the contributor score is bounded and monotone; facts of
      releases say where they stand in the history and only get better; a late
      fetch still arrives ([late_fetch_arrives]); the cache reads back what was
      written; findings refine a set of open findings with gapless histories.
    - Who may do what: tenants are isolated, roles never escalate, revoked tokens and
      proxies are refused whatever happens in between, runtime tokens stand for their
      proxy, streams show their caller nothing else, the sign-in hook is
      authenticated and its claims tell the truth.
    - What policies become: requests on policies refine amendments of a book of
      statutes ([policy_requests_refine]) and keep what the loader relies on
      ([policy_tables_sound]); a new tenant is protected at once
      ([new_tenant_gate], [copied_policies_decide_alike]); previews agree with the
      gate on the fields they show ([project_preview_is_verdict],
      [package_preview_is_verdict]), which are not the gate's fields; the version
      suggested to an agent is the best one they allow ([suggested_version_allowed]).
    - What is counted and queued: usage is attributed and counted exactly, rebuilding
      agrees with recording; the latest version follows the newest observation; the
      ingest queue is a queue and empties.

    Theorems whose doc comment starts with a claim number are the properties the
    library is built for; the others are lemmas, or record a behaviour that surprises.

    ** Bounds and fuel

    The parser of Json.v has twice the length of its text as fuel and never runs out
    ([value_fuel]); a template is rendered with its length (Expression.v), each step
    consuming a character; an integer of b bits is printed with b + 1 digits at most,
    a double with 17, the number that always reads back (JsNum.v).  The drain loop of
    IngestQueue.v has the concurrency limit, the number of its iterations.  Every
    other function of the model is structurally recursive.  Numbers that the code
    computes with as JavaScript numbers are binary64; counts and times are integers,
    which stay below 2^53, and the counters of tables are unbounded.

    ** What is not modelled

    - Strings beyond Latin-1; local date formats; own properties named toString or
      valueOf; message bodies other than at the types their schemas give them.
    - Concurrency within one handler: awaits of a group run in order, transactions are
      atomic.  Interleavings that matter are modelled as steps: late fetches, streams,
      the ingest queue, rotations of tokens, deliveries of webhooks.
    - Foreign keys, format checks of columns, creation and update times of rows, logs,
      timings.
    - HTTP clients, the verification and signing of tokens, hashes, random bytes, base
      64, the authentication service, the validation library's formats: parameters.
    - The routes and MCP tools that only list rows, request decoding and rate limits
      (connect/gateway-routes.ts), the probes and configuration of a bundled
      installation (bootstrap/bundled-bootstrap-init.ts, status-service.ts), generated
      wire types, table declarations, the dashboard: they query and render what the
      modelled code decides and stores. *)

From stdpp Require Export base list strings sorting sets gmap.
From Stdlib Require Export ZArith Lia.

(** ** Notation scope of the development *)

Declare Scope depcustoms_scope.
Delimit Scope depcustoms_scope with dep.

(** ** Hint databases *)

Create HintDb depdb discriminated.

(** ** Results of code that may throw

    [Ok a] is a normal return; [Throw m] is a thrown JavaScript error, [m] its
    message (the class name alone for the engine's own [TypeError]). *)

Inductive res (A : Type) : Type :=
| Ok (a : A)
| Throw (msg : string).
Arguments Ok {A} a.
Arguments Throw {A} msg.

#[export] Instance res_ret : MRet res := fun A a => Ok a.
#[export] Instance res_bind : MBind res := fun A B f x =>
  match x with
  | Ok a => f a
  | Throw m => Throw m
  end.
#[export] Instance res_fmap : FMap res := fun A B f x =>
  match x with
  | Ok a => Ok (f a)
  | Throw m => Throw m
  end.

Notation "'let!' x ':=' e 'in' k" := (mbind (M := res) (fun x => k) e)
  (at level 10, x pattern, e at level 150, k at level 200,
   format "'let!'  x  ':='  e  'in' '//' k").

Definition is_ok {A} (x : res A) : bool :=
  match x with Ok _ => true | Throw _ => false end.

(** The engine's own type error. *)
Definition type_error {A} : res A := Throw "TypeError".

Lemma res_bind_ok {A B} (x : res A) (f : A -> res B) b :
  (x ≫= f) = Ok b <-> exists a, x = Ok a /\ f a = Ok b.
Proof. destruct x; cbn; naive_solver. Qed.

Lemma res_fmap_ok {A B} (f : A -> B) (x : res A) b :
  (f <$> x) = Ok b <-> exists a, x = Ok a /\ b = f a.
Proof. destruct x; cbn; naive_solver. Qed.

Lemma is_ok_spec {A} (x : res A) : is_ok x = true <-> exists a, x = Ok a.
Proof. destruct x; cbn; naive_solver. Qed.

(** Inverts every successful bind and map among the hypotheses. *)
Ltac res_inv :=
  repeat match goal with
  | H : (_ ≫= _) = Ok _ |- _ => apply res_bind_ok in H as (? & ? & ?)
  | H : (_ <$> _) = Ok _ |- _ => apply res_fmap_ok in H as (? & ? & ?)
  | H : Ok _ = Ok _ |- _ => injection H as H
  | H : Throw _ = Ok _ |- _ => discriminate H
  | H : type_error = Ok _ |- _ => discriminate H
  end; simplify_eq/=.

(** Case analysis on the innermost [if] or [match] of the goal or hypotheses. *)
Ltac case_all := repeat (case_match; simplify_eq/=); try done.

(** ** [map] in the result monad, in order, stopping at the first error *)

Section map_res.
Context {A B : Type} (f : A -> res B).

Fixpoint map_res (l : list A) : res (list B) :=
  match l with
  | [] => Ok []
  | x :: l => let! y := f x in let! ys := map_res l in Ok (y :: ys)
  end.
End map_res.

Lemma map_res_ok_forall2 {A B} (f : A -> res B) l ys :
  map_res f l = Ok ys -> Forall2 (fun x y => f x = Ok y) l ys.
Proof. revert ys; induction l; cbn; intros; res_inv; auto using Forall2. Qed.

Lemma map_res_elem_of {A B} (f : A -> res B) l ys y :
  map_res f l = Ok ys -> y ∈ ys <-> exists x, x ∈ l /\ f x = Ok y.
Proof.
  intros H. apply map_res_ok_forall2 in H. induction H as [|x z l ys Hz H IH]; [set_solver|].
  rewrite elem_of_cons, IH. split.
  - intros [->|(w & Hw & Hy)]; [|exists w]; set_solver.
  - intros (w & [->|Hw]%elem_of_cons & Hy); [left; congruence|right; eauto].
Qed.

Lemma map_res_ok_elem {A B} (f : A -> res B) l ys x :
  map_res f l = Ok ys -> x ∈ l -> exists y, f x = Ok y.
Proof.
  intros H. apply map_res_ok_forall2 in H. induction H; [set_solver|].
  intros [->|?]%elem_of_cons; eauto.
Qed.

Lemma map_res_total {A B} (f : A -> res B) l :
  (forall x, x ∈ l -> is_ok (f x) = true) -> is_ok (map_res f l) = true.
Proof.
  intros H. induction l as [|x l IH]; cbn; [done|].
  assert (Hx := H x ltac:(set_solver)). destruct (f x); [cbn|done].
  destruct (map_res f l); [done|]. apply IH. set_solver.
Qed.

Lemma map_res_pure {A B} (f : A -> B) (l : list A) :
  map_res (fun x => Ok (f x)) l = Ok (List.map f l).
Proof. induction l as [|x l IH]; cbn; [done|]. by rewrite IH. Qed.

(** ** [map] with partial results, all or nothing *)

Section map_option.
Context {A B : Type} (f : A -> option B).

Fixpoint map_option (l : list A) : option (list B) :=
  match l with
  | [] => Some []
  | x :: l => y ← f x; ys ← map_option l; Some (y :: ys)
  end.
End map_option.

Lemma map_option_Forall2 {A B} (f : A -> option B) l ys : map_option f l = Some ys -> Forall2 (fun x y => f x = Some y) l ys.
Proof.
  revert ys. induction l as [|x l IH]; intros ys Hm; cbn in Hm; [by simplify_eq|].
  destruct (f x) eqn:E; [|done]. cbn in Hm. destruct (map_option f l); [|done]. cbn in Hm. simplify_eq. auto.
Qed.

(** ** [Array.prototype.every] and [some] over a predicate that may throw

    Both stop at the first element that decides the result, so an element
    after it is not evaluated and cannot throw. *)

Section every_some.
Context {A : Type} (f : A -> res bool).

Fixpoint every_res (l : list A) : res bool :=
  match l with
  | [] => Ok true
  | x :: l => let! b := f x in if (b : bool) then every_res l else Ok false
  end.

Fixpoint some_res (l : list A) : res bool :=
  match l with
  | [] => Ok false
  | x :: l => let! b := f x in if (b : bool) then Ok true else some_res l
  end.
End every_some.

Lemma every_res_pure {A} (f : A -> bool) l : every_res (fun x => Ok (f x)) l = Ok (List.forallb f l).
Proof. induction l as [|x l IH]; cbn; [done|]. by destruct (f x). Qed.

Lemma some_res_pure {A} (f : A -> bool) l : some_res (fun x => Ok (f x)) l = Ok (List.existsb f l).
Proof. induction l as [|x l IH]; cbn; [done|]. by destruct (f x). Qed.

(** When every element evaluates, the short-circuiting scans agree with the
    full evaluation. *)
Lemma every_res_map {A B} (f : A -> res bool) (g : A -> res B) (r : B -> bool) l ys :
  (forall x y, x ∈ l -> g x = Ok y -> f x = Ok (r y)) ->
  map_res g l = Ok ys -> every_res f l = Ok (forallb r ys).
Proof.
  revert ys; induction l as [|x l IH]; cbn; intros ys Hg Hm; res_inv; [done|].
  rewrite (Hg x _ ltac:(set_solver) ltac:(eassumption)); cbn.
  destruct (r _); cbn; [|done]. apply IH; [|done]. set_solver.
Qed.

Lemma some_res_map {A B} (f : A -> res bool) (g : A -> res B) (r : B -> bool) l ys :
  (forall x y, x ∈ l -> g x = Ok y -> f x = Ok (r y)) ->
  map_res g l = Ok ys -> some_res f l = Ok (existsb r ys).
Proof.
  revert ys; induction l as [|x l IH]; cbn; intros ys Hg Hm; res_inv; [done|].
  rewrite (Hg x _ ltac:(set_solver) ltac:(eassumption)); cbn.
  destruct (r _); cbn; [done|]. apply IH; [|done]. set_solver.
Qed.

(** ** [Array.prototype.sort]: a stable sort by a boolean "not after" order

    ECMAScript fixes the result of [sort] for a consistent comparator: the
    stable sorted permutation, computed here by insertion. *)

Section js_sort.
Context {A : Type} (le : A -> A -> bool).

Fixpoint insert_sorted (x : A) (l : list A) : list A :=
  match l with
  | [] => [x]
  | y :: l' => if le x y then x :: y :: l' else y :: insert_sorted x l'
  end.

Definition js_sort (l : list A) : list A := foldr insert_sorted [] l.

Lemma insert_sorted_perm x l : insert_sorted x l ≡ₚ x :: l.
Proof.
  induction l as [|y l IH]; cbn; [done|].
  destruct (le x y); [done|]. rewrite IH. apply perm_swap.
Qed.

Lemma js_sort_perm l : js_sort l ≡ₚ l.
Proof. induction l as [|x l IH]; cbn; [done|]. by rewrite insert_sorted_perm, IH. Qed.

Lemma js_sort_elem_of x l : x ∈ js_sort l <-> x ∈ l.
Proof. by rewrite js_sort_perm. Qed.

Context (le_total : forall x y, le x y = true \/ le y x = true)
        (le_trans : forall x y z, le x y = true -> le y z = true -> le x z = true).

Lemma insert_sorted_sorted x l :
  StronglySorted (fun a b => le a b = true) l ->
  StronglySorted (fun a b => le a b = true) (insert_sorted x l).
Proof using le_total le_trans.
  induction 1 as [|y l Hs IH Hy]; cbn; [repeat constructor|].
  destruct (le x y) eqn:E.
  - constructor; [by constructor|]. constructor; [done|].
    eapply Forall_impl; [exact Hy|]; cbn; eauto.
  - constructor; [done|]. rewrite insert_sorted_perm. constructor; [|done].
    destruct (le_total x y); congruence.
Qed.

Lemma js_sort_sorted l : StronglySorted (fun a b => le a b = true) (js_sort l).
Proof using le_total le_trans.
  induction l as [|x l IH]; cbn; [constructor|]. by apply insert_sorted_sorted.
Qed.

(** Stability: elements of one equivalence class keep their order. *)
Lemma insert_sorted_filter (P : A -> bool) x l :
  (forall y, P y = true -> P x = true -> le x y = true) ->
  List.filter P (insert_sorted x l) = List.filter P (x :: l).
Proof.
  intros HP. induction l as [|y l IH]; [done|].
  cbn [insert_sorted]. destruct (le x y) eqn:E; [done|].
  cbn [List.filter] in *. destruct (P y) eqn:Hy.
  - destruct (P x) eqn:Hx; [rewrite HP in E; done|]. by rewrite IH.
  - rewrite IH. by destruct (P x).
Qed.

Lemma js_sort_stable (P : A -> bool) l :
  (forall x y, P x = true -> P y = true -> le x y = true) ->
  List.filter P (js_sort l) = List.filter P l.
Proof.
  intros HP. induction l as [|x l IH]; [done|].
  change (js_sort (x :: l)) with (insert_sorted x (js_sort l)).
  rewrite insert_sorted_filter by auto.
  cbn [List.filter]. by rewrite IH.
Qed.
End js_sort.

Lemma js_sort_length {A} (le : A -> A -> bool) l : length (js_sort le l) = length l.
Proof. by rewrite js_sort_perm. Qed.

#[export] Hint Resolve js_sort_perm js_sort_sorted : depdb.

(** ** Search helpers: [Array.prototype.find] and keyed lookups *)

Definition js_find {A} (p : A -> bool) (l : list A) : option A := List.find p l.

Lemma js_find_some {A} (p : A -> bool) l x :
  js_find p l = Some x -> x ∈ l /\ p x = true.
Proof. intros H. apply List.find_some in H as [H ?]. by rewrite list_elem_of_In. Qed.

Lemma js_find_none {A} (p : A -> bool) l x :
  js_find p l = None -> x ∈ l -> p x = false.
Proof. intros H Hx. apply list_elem_of_In in Hx. by eapply List.find_none. Qed.

Lemma forallb_elem_of {A} (p : A -> bool) l :
  forallb p l = true <-> forall x, x ∈ l -> p x = true.
Proof. rewrite forallb_forall. by setoid_rewrite list_elem_of_In. Qed.

Lemma existsb_elem_of {A} (p : A -> bool) l :
  existsb p l = true <-> exists x, x ∈ l /\ p x = true.
Proof. rewrite existsb_exists. by setoid_rewrite list_elem_of_In. Qed.

Lemma existsb_perm {A} (p : A -> bool) l k : l ≡ₚ k -> existsb p l = existsb p k.
Proof.
  induction 1; cbn; try congruence.
  by rewrite !orb_assoc, (orb_comm (p y)).
Qed.

Lemma existsb_eqb k keys : existsb (String.eqb k) keys = true <-> k ∈ keys.
Proof.
  rewrite existsb_elem_of. split; [by intros (x & Hx & ->%String.eqb_eq)|].
  intros Hk. exists k. by rewrite String.eqb_refl.
Qed.

Lemma elem_of_filter_b {A} (p : A -> bool) l x :
  x ∈ List.filter p l <-> x ∈ l /\ p x = true.
Proof. rewrite !list_elem_of_In. apply filter_In. Qed.

Lemma head_filter {A} (q : A -> bool) l x : head (List.filter q l) = Some x -> x ∈ l /\ q x = true.
Proof. intros Hx. apply elem_of_filter_b. destruct (List.filter q l); [done|]. injection Hx as ->. apply list_elem_of_here. Qed.

Lemma head_filter_app {A} (q : A -> bool) l k x : head (List.filter q l) = Some x -> head (List.filter q (l ++ k)) = Some x.
Proof. intros Hx. rewrite List.filter_app. by destruct (List.filter q l). Qed.

Lemma head_filter_exists {A} (q : A -> bool) l x : x ∈ l -> q x = true -> exists y, head (List.filter q l) = Some y.
Proof.
  intros Hx Hq. assert (Hf : x ∈ List.filter q l) by (by apply elem_of_filter_b).
  destruct (List.filter q l) as [|y k]; [by apply not_elem_of_nil in Hf|by exists y].
Qed.

Lemma filter_b_nil {A} (p : A -> bool) l :
  List.filter p l = [] <-> existsb p l = false.
Proof. induction l as [|x l IH]; cbn; [done|]. destruct (p x); naive_solver. Qed.

Lemma filter_b_perm {A} (p : A -> bool) l k :
  l ≡ₚ k -> List.filter p l ≡ₚ List.filter p k.
Proof.
  induction 1 as [|x l k _ IH|x y l|]; cbn.
  - done.
  - destruct (p x); by rewrite IH.
  - destruct (p x), (p y); try done. apply perm_swap.
  - by etrans.
Qed.

(** ** Nullish coalescing, [a ?? b], on optional values *)

Definition coalesce {A} (o : option A) (d : A) : A := default d o.
Notation "a ?? b" := (coalesce a b) (at level 48, right associativity) : depcustoms_scope.

(** Equality of optional strings as SQL's [IS NOT DISTINCT FROM]. *)
Definition not_distinct (a b : option string) : bool := bool_decide (a = b).

Lemma not_distinct_spec a b : not_distinct a b = true <-> a = b.
Proof. apply bool_decide_eq_true. Qed.

Create Rewrite HintDb depdb.
#[export] Hint Rewrite @every_res_pure @some_res_pure @map_res_pure : depdb.

(** ** [new Set(values)], spread back into an array: first occurrences in order *)

Definition set_of {A} `{EqDecision A} (l : list A) : list A :=
  foldl (fun acc x => if decide (x ∈ acc) then acc else acc ++ [x]) [] l.

Lemma set_of_go {A} `{EqDecision A} (l acc : list A) x :
  x ∈ foldl (fun acc x => if decide (x ∈ acc) then acc else acc ++ [x]) acc l <-> x ∈ acc \/ x ∈ l.
Proof.
  revert acc; induction l as [|y l IH]; intros acc; cbn; [set_solver|].
  rewrite IH. case_decide; set_solver.
Qed.

Lemma elem_of_set_of {A} `{EqDecision A} (l : list A) x : x ∈ set_of l <-> x ∈ l.
Proof. unfold set_of. rewrite set_of_go. set_solver. Qed.

Lemma NoDup_set_of_go {A} `{EqDecision A} (l acc : list A) :
  NoDup acc -> NoDup (foldl (fun acc x => if decide (x ∈ acc) then acc else acc ++ [x]) acc l).
Proof.
  revert acc; induction l as [|y l IH]; intros acc H; cbn; [done|].
  apply IH. case_decide; [done|]. apply NoDup_app. split_and!; [done| |by apply NoDup_singleton].
  intros z Hz. by intros ->%list_elem_of_singleton.
Qed.

Lemma NoDup_set_of {A} `{EqDecision A} (l : list A) : NoDup (set_of l).
Proof. apply NoDup_set_of_go, NoDup_nil_2. Qed.

(** ** Lists related element by element *)

Lemma Forall2_elem_of_r {A B} (R : A -> B -> Prop) l k y :
  Forall2 R l k -> y ∈ k -> exists x, x ∈ l /\ R x y.
Proof. intros H. induction H; [set_solver|]. intros [->|Hy]%elem_of_cons; [|destruct IHForall2 as (?&?&?)]; set_solver. Qed.

Lemma Forall2_elem_of_l {A B} (R : A -> B -> Prop) l k x :
  Forall2 R l k -> x ∈ l -> exists y, y ∈ k /\ R x y.
Proof. intros H%Forall2_flip Hx. by apply (Forall2_elem_of_r _ _ _ _ H). Qed.

Lemma NoDup_map_filter {R T} (g : R -> T) (p : R -> bool) l : NoDup (map g l) -> NoDup (map g (List.filter p l)).
Proof.
  induction l as [|x l IH]; [done|]. cbn. intros [Hx Hn]%NoDup_cons. destruct (p x); [|auto].
  cbn. apply NoDup_cons. split; [|auto]. intros Hc. apply Hx.
  apply list_elem_of_fmap in Hc as (y & -> & Hy). apply elem_of_filter_b in Hy as [Hy _].
  by apply list_elem_of_fmap_2.
Qed.

Lemma NoDup_map_inj {A B} (f : A -> B) l x y : NoDup (map f l) -> x ∈ l -> y ∈ l -> f x = f y -> x = y.
Proof.
  induction l as [|z l IH]; [by intros _ ?%not_elem_of_nil|]. cbn. intros [Hz Hl]%NoDup_cons Hx Hy He.
  apply elem_of_cons in Hx as [->|Hx]; apply elem_of_cons in Hy as [->|Hy]; [done| | |by apply IH].
  - exfalso. apply Hz. rewrite He. by apply list_elem_of_fmap_2.
  - exfalso. apply Hz. rewrite <- He. by apply list_elem_of_fmap_2.
Qed.

Lemma Forall2_impl_elem {A B} (R S : A -> B -> Prop) l k :
  Forall2 R l k -> (forall x y, x ∈ l -> y ∈ k -> R x y -> S x y) -> Forall2 S l k.
Proof.
  induction 1 as [|x y l k Hr _ IH]; intros Hs; constructor.
  - apply Hs; [apply list_elem_of_here..|done].
  - apply IH. intros; apply Hs; [by apply list_elem_of_further..|done].
Qed.

Lemma Forall2_both {A B} (R S : A -> B -> Prop) l k :
  Forall2 R l k -> Forall2 S l k -> Forall2 (fun x y => R x y /\ S x y) l k.
Proof. intros H. induction H; intros HS; inversion HS; subst; constructor; auto. Qed.

Lemma existsb_none {A} (p : A -> bool) l : existsb p l = false <-> forall x, x ∈ l -> p x = false.
Proof. rewrite <- not_true_iff_false, existsb_elem_of. setoid_rewrite <- not_true_iff_false. naive_solver. Qed.

(** ** Sublists *)

Lemma filter_b_sublist {A} (p : A -> bool) l : List.filter p l `sublist_of` l.
Proof. induction l as [|x l IH]; cbn; [done|]. destruct (p x); by constructor. Qed.

Lemma map_sublist {A B} (f : A -> B) l k : l `sublist_of` k -> map f l `sublist_of` map f k.
Proof. induction 1; cbn; by constructor. Qed.

Lemma sublist_Forall {A} (P : A -> Prop) l k : k `sublist_of` l -> Forall P l -> Forall P k.
Proof. intros Hkl. rewrite !Forall_forall. intros Hl x Hx. apply Hl. eapply elem_of_submseteq; [exact Hx|]. by apply sublist_submseteq. Qed.

(** Truthiness of a nullable string. *)
Definition present (o : option string) : option string :=
  s ← o; if String.eqb s EmptyString then None else Some s.

Lemma present_some o s : present o = Some s <-> o = Some s /\ s <> EmptyString.
Proof.
  unfold present. destruct o as [t|]; cbn; [|naive_solver].
  destruct (String.eqb_spec t EmptyString); naive_solver.
Qed.

(** ** JavaScript Maps with string keys *)

(** [m.set(k, v)]: keeps the place of a key it has. *)
Fixpoint map_set {A} (k : string) (v : A) (m : list (string * A)) : list (string * A) :=
  match m with
  | [] => [(k, v)]
  | (j, w) :: m => if String.eqb k j then (j, v) :: m else (j, w) :: map_set k v m
  end.

Fixpoint map_get {A} (k : string) (m : list (string * A)) : option A :=
  match m with
  | [] => None
  | (j, w) :: m => if String.eqb k j then Some w else map_get k m
  end.

(** [for (const [k, v] of entries) m.set(k, v)], and [new Map(entries)]. *)
Definition map_sets {A} (entries m : list (string * A)) : list (string * A) :=
  foldl (fun m e => map_set e.1 e.2 m) m entries.
Definition map_entries {A} (entries : list (string * A)) : list (string * A) := map_sets entries [].

Lemma map_get_set {A} k (v : A) m j : map_get j (map_set k v m) = if String.eqb j k then Some v else map_get j m.
Proof.
  induction m as [|[i w] m IH]; cbn; [done|]. destruct (String.eqb_spec k i) as [->|Hne]; cbn.
  - by destruct (String.eqb j i).
  - rewrite IH. destruct (String.eqb_spec j i) as [->|]; [|done].
    by rewrite (proj2 (String.eqb_neq i k)).
Qed.

Lemma map_get_elem {A} k (v : A) m : map_get k m = Some v -> (k, v) ∈ m.
Proof.
  induction m as [|[i w] m IH]; cbn; [done|]. destruct (String.eqb_spec k i) as [->|Hne].
  - intros [= ->]. apply list_elem_of_here.
  - intros Hg. by apply list_elem_of_further, IH.
Qed.

Lemma map_get_NoDup {A} k (v : A) m : NoDup m.*1 -> (k, v) ∈ m -> map_get k m = Some v.
Proof.
  induction m as [|[i w] m IH]; cbn; [by intros _ ?%not_elem_of_nil|].
  intros [Hi Hm]%NoDup_cons [[= -> ->]|Hin]%elem_of_cons; [by rewrite String.eqb_refl|].
  destruct (String.eqb_spec k i) as [->|Hne]; [|auto].
  exfalso. apply Hi. apply list_elem_of_fmap. by exists (i, v).
Qed.

Lemma map_set_keys {A} k (v : A) m j : j ∈ (map_set k v m).*1 <-> j = k \/ j ∈ m.*1.
Proof.
  induction m as [|[i w] m IH]; cbn; [set_solver|]. destruct (String.eqb_spec k i) as [->|Hne]; cbn; set_solver.
Qed.

Lemma map_set_NoDup {A} k (v : A) m : NoDup m.*1 -> NoDup (map_set k v m).*1.
Proof.
  induction m as [|[i w] m IH]; cbn; [intros _; apply NoDup_singleton|].
  intros [Hi Hm]%NoDup_cons. destruct (String.eqb_spec k i) as [->|Hne]; cbn; apply NoDup_cons; [done|].
  split; [|auto]. rewrite map_set_keys. naive_solver.
Qed.

(** A lookup after setting: the last entry of the key, else the old value. *)
Lemma map_get_sets {A} (entries m : list (string * A)) k v :
  map_get k (map_sets entries m) = Some v ->
  (k, v) ∈ entries \/ ((k ∉ (entries.*1)) /\ map_get k m = Some v).
Proof.
  unfold map_sets. revert m. induction entries as [|[j w] es IH]; intros m; cbn.
  - intros Hg. right. split; [apply not_elem_of_nil|done].
  - intros Hg. destruct (IH _ Hg) as [Hin|[Hj Hm]]; [left; by apply list_elem_of_further|].
    rewrite map_get_set in Hm. destruct (String.eqb_spec k j) as [->|Hne].
    + injection Hm as ->. left. apply list_elem_of_here.
    + right. split; [|done]. rewrite not_elem_of_cons. done.
Qed.

Lemma map_get_sets_has {A} (entries m : list (string * A)) k :
  k ∈ entries.*1 \/ is_Some (map_get k m) -> is_Some (map_get k (map_sets entries m)).
Proof.
  unfold map_sets. revert m. induction entries as [|[j w] es IH]; intros m; cbn.
  - intros [Hk|Hm]; [by apply not_elem_of_nil in Hk|done].
  - intros Hk. apply IH. rewrite map_get_set. destruct (String.eqb_spec k j) as [->|Hne]; [eauto|].
    destruct Hk as [[->|Hk]%elem_of_cons|Hm]; [done|by left|by right].
Qed.

Lemma map_sets_NoDup {A} (entries m : list (string * A)) : NoDup m.*1 -> NoDup (map_sets entries m).*1.
Proof.
  unfold map_sets. revert m. induction entries as [|e es IH]; intros m Hm; cbn; [done|]. by apply IH, map_set_NoDup.
Qed.

Lemma map_entries_NoDup {A} (entries : list (string * A)) : NoDup (map_entries entries).*1.
Proof. apply map_sets_NoDup, NoDup_nil_2. Qed.

Lemma map_entries_elem {A} (entries : list (string * A)) k v : (k, v) ∈ map_entries entries -> (k, v) ∈ entries.
Proof.
  intros Hin. apply map_get_NoDup in Hin; [|apply map_entries_NoDup].
  apply map_get_sets in Hin as [Hin|[_ Hin]]; done.
Qed.

Lemma map_entries_has {A} (entries : list (string * A)) k :
  k ∈ entries.*1 -> exists v, (k, v) ∈ map_entries entries.
Proof.
  intros Hk. destruct (map_get_sets_has entries [] k) as [v Hv]; [by left|].
  exists v. by apply map_get_elem.
Qed.
