(* ===== verification/JsString.v ===== *)
(** * JavaScript strings

    The operations of [String.prototype] the program uses.  A JavaScript string
    is a sequence of UTF-16 code units; here it is a [string] whose characters
    are the code units below 256 (Latin-1), the range in which every operation
    used by the program stays. *)

From S2P Require Import Prelude.

#[global] Arguments Ascii.eqb : simpl never.

Definition code (c : Ascii.ascii) : N := Ascii.N_of_ascii c.

(** The quote character, which a literal of this development never holds. *)
Definition quote : Ascii.ascii := Ascii.ascii_of_N 34.

(** ** Case and white space *)

(** WhiteSpace and LineTerminator code points below 256. *)
Definition is_ws (c : Ascii.ascii) : bool :=
  let n := code c in
  ((9 <=? n) && (n <=? 13) || (n =? 32) || (n =? 160))%N.

(** Simple lower-case mapping of Latin-1: A-Z and the accented capitals
    U+00C0-U+00DE except the multiplication sign U+00D7. *)
Definition lower_char (c : Ascii.ascii) : Ascii.ascii :=
  let n := code c in
  if ((65 <=? n) && (n <=? 90) || (192 <=? n) && (n <=? 222) && negb (n =? 215))%N
  then Ascii.ascii_of_N (n + 32) else c.

Fixpoint map_string (f : Ascii.ascii -> Ascii.ascii) (s : string) : string :=
  match s with
  | EmptyString => EmptyString
  | String c s => String (f c) (map_string f s)
  end.

Definition toLowerCase (s : string) : string := map_string lower_char s.

Fixpoint trimStart (s : string) : string :=
  match s with
  | EmptyString => EmptyString
  | String c s' => if is_ws c then trimStart s' else s
  end.

Fixpoint trimEnd (s : string) : string :=
  match s with
  | EmptyString => EmptyString
  | String c s' =>
      match trimEnd s' with
      | EmptyString => if is_ws c then EmptyString else String c EmptyString
      | t => String c t
      end
  end.

Definition trim (s : string) : string := trimEnd (trimStart s).

(** ** Search *)

Fixpoint startsWith (s p : string) {struct p} : bool :=
  match p with
  | EmptyString => true
  | String a p' =>
      match s with
      | EmptyString => false
      | String b s' => Ascii.eqb a b && startsWith s' p'
      end
  end.

Fixpoint includes (s p : string) : bool :=
  startsWith s p ||
  match s with
  | EmptyString => false
  | String _ s' => includes s' p
  end.

Fixpoint endsWith (s p : string) : bool :=
  String.eqb s p ||
  match s with
  | EmptyString => false
  | String _ s' => endsWith s' p
  end.

(** Position of the first and of the last occurrence of a character. *)
Fixpoint indexOf (c : Ascii.ascii) (s : string) : option nat :=
  match s with
  | EmptyString => None
  | String a s' => if Ascii.eqb a c then Some 0 else S <$> indexOf c s'
  end.

Fixpoint lastIndexOf (c : Ascii.ascii) (s : string) : option nat :=
  match s with
  | EmptyString => None
  | String a s' =>
      match lastIndexOf c s' with
      | Some i => Some (S i)
      | None => if Ascii.eqb a c then Some 0 else None
      end
  end.

(** [s.slice(i)] and [s.slice(0, i)] for [i] at most the length. *)
Fixpoint drop_str (i : nat) (s : string) : string :=
  match i, s with
  | 0, _ => s
  | S _, EmptyString => EmptyString
  | S i, String _ s' => drop_str i s'
  end.

Fixpoint take_str (i : nat) (s : string) : string :=
  match i, s with
  | 0, _ | S _, EmptyString => EmptyString
  | S i, String c s' => String c (take_str i s')
  end.

(** [s.split(sep)] for a one-character separator: never empty. *)
Fixpoint split (sep : Ascii.ascii) (s : string) : list string :=
  match s with
  | EmptyString => [EmptyString]
  | String c s' =>
      if Ascii.eqb c sep then EmptyString :: split sep s'
      else match split sep s' with
           | [] => [String c EmptyString]
           | w :: ws => String c w :: ws
           end
  end.

Fixpoint join (sep : string) (l : list string) : string :=
  match l with
  | [] => EmptyString
  | [s] => s
  | s :: l => s +:+ sep +:+ join sep l
  end.

(** Code-unit order, the order of [<] on strings and of the default sort. *)
Fixpoint str_ltb (a b : string) : bool :=
  match a, b with
  | _, EmptyString => false
  | EmptyString, String _ _ => true
  | String x a', String y b' =>
      ((code x <? code y) || (code x =? code y))%N &&
      ((code x <? code y)%N || str_ltb a' b')
  end.

Definition str_leb (a b : string) : bool := negb (str_ltb b a).

(** Truthiness of a string. *)
Definition nonempty (s : string) : bool := negb (String.eqb s EmptyString).

(** ** Lemmas *)

Lemma app_cons c s t : String c s +:+ t = String c (s +:+ t).
Proof. done. Qed.

Lemma app_empty_l s : EmptyString +:+ s = s.
Proof. done. Qed.

Lemma app_empty_r s : s +:+ EmptyString = s.
Proof. induction s as [|c s IH]; [done|]. by rewrite app_cons, IH. Qed.

Lemma app_assoc_str s t u : (s +:+ t) +:+ u = s +:+ (t +:+ u).
Proof. induction s as [|c s IH]; [done|]. by rewrite !app_cons, IH. Qed.

Lemma startsWith_app s t : startsWith (s +:+ t) s = true.
Proof. induction s as [|c s IH]; [by destruct t|]. rewrite app_cons. cbn. by rewrite Ascii.eqb_refl. Qed.

Lemma startsWith_spec s p : startsWith s p = true <-> exists t, s = p +:+ t.
Proof.
  split; [|intros [t ->]; apply startsWith_app].
  revert s; induction p as [|a p IH]; intros s H; [by exists s|]. cbn in H.
  destruct s as [|b s]; [done|]. apply andb_prop in H as [H1 H2].
  apply Ascii.eqb_eq in H1 as ->. destruct (IH s H2) as [t ->]. by exists t.
Qed.

Lemma code_lower c :
  code (lower_char c) =
  let n := code c in
  if ((65 <=? n) && (n <=? 90) || (192 <=? n) && (n <=? 222) && negb (n =? 215))%N
  then (n + 32)%N else n.
Proof. by destruct c as [[] [] [] [] [] [] [] []]. Qed.

Lemma lower_char_idem c : lower_char (lower_char c) = lower_char c.
Proof. by destruct c as [[] [] [] [] [] [] [] []]. Qed.

Lemma is_ws_lower c : is_ws (lower_char c) = is_ws c.
Proof. by destruct c as [[] [] [] [] [] [] [] []]. Qed.

Lemma map_string_map f g s : map_string f (map_string g s) = map_string (fun c => f (g c)) s.
Proof. induction s as [|c s IH]; cbn; [done|]. by rewrite IH. Qed.

Lemma map_string_ext f g s : (forall c, f c = g c) -> map_string f s = map_string g s.
Proof. intros H. induction s as [|c s IH]; cbn; [done|]. by rewrite IH, H. Qed.

Lemma toLowerCase_idem s : toLowerCase (toLowerCase s) = toLowerCase s.
Proof. unfold toLowerCase. rewrite map_string_map. apply map_string_ext, lower_char_idem. Qed.

Lemma trimStart_lower s : trimStart (toLowerCase s) = toLowerCase (trimStart s).
Proof.
  unfold toLowerCase. induction s as [|c s IH]; cbn; [done|].
  rewrite is_ws_lower. by destruct (is_ws c).
Qed.

Lemma trimEnd_lower s : trimEnd (toLowerCase s) = toLowerCase (trimEnd s).
Proof.
  unfold toLowerCase. induction s as [|c s IH]; cbn; [done|]. rewrite IH, is_ws_lower.
  destruct (trimEnd s); cbn; [by destruct (is_ws c)|done].
Qed.

Lemma trim_lower s : trim (toLowerCase s) = toLowerCase (trim s).
Proof. unfold trim. by rewrite trimStart_lower, trimEnd_lower. Qed.

(** A string that starts with no white space keeps its first character under
    [trimEnd] unless it becomes empty. *)
Lemma trimEnd_cons c s :
  is_ws c = false -> trimEnd (String c s) = String c (trimEnd s).
Proof. intros H. cbn. rewrite H. by destruct (trimEnd s). Qed.

Lemma trimStart_trimEnd s : trimStart s = s -> trimStart (trimEnd s) = trimEnd s.
Proof.
  destruct s as [|c s]; [done|]. intros H. cbn in H.
  destruct (is_ws c) eqn:E; [|rewrite trimEnd_cons by done; cbn; by rewrite E].
  exfalso. assert (Hl : (String.length (trimStart s) <= String.length s)%nat).
  { clear. induction s as [|d s IH]; cbn; [done|]. destruct (is_ws d); cbn; lia. }
  rewrite H in Hl. cbn in Hl. lia.
Qed.

Lemma trimStart_idem s : trimStart (trimStart s) = trimStart s.
Proof. induction s as [|c s IH]; cbn; [done|]. destruct (is_ws c) eqn:E; [done|]. cbn. by rewrite E. Qed.

Lemma trimEnd_idem s : trimEnd (trimEnd s) = trimEnd s.
Proof.
  induction s as [|c s IH]; cbn; [done|].
  destruct (trimEnd s) as [|d t] eqn:E.
  - destruct (is_ws c) eqn:W; cbn; [done|]. by rewrite W.
  - change (trimEnd (String c (String d t))) with
      (match trimEnd (String d t) with
       | EmptyString => if is_ws c then EmptyString else String c EmptyString
       | t => String c t end).
    by rewrite IH.
Qed.

Lemma trim_idem s : trim (trim s) = trim s.
Proof.
  unfold trim. rewrite trimStart_trimEnd by apply trimStart_idem. apply trimEnd_idem.
Qed.

Definition no_char (c : Ascii.ascii) (s : string) : bool :=
  match indexOf c s with Some _ => false | None => true end.

Lemma no_char_cons c d s : no_char c (String d s) = negb (Ascii.eqb d c) && no_char c s.
Proof. unfold no_char. cbn. destruct (Ascii.eqb d c); [done|]. by destruct (indexOf c s). Qed.

Lemma no_char_app c a b : no_char c (a +:+ b) = no_char c a && no_char c b.
Proof.
  induction a as [|d a IH]; [by rewrite app_empty_l|].
  by rewrite app_cons, !no_char_cons, IH, andb_assoc.
Qed.

Lemma split_not_nil sep s : split sep s <> [].
Proof. destruct s as [|c s]; cbn; [done|]. case_all. Qed.

Lemma split_no_char c a : no_char c a = true -> split c a = [a].
Proof.
  induction a as [|d a IH]; [done|]. rewrite no_char_cons. cbn [split].
  intros [Hd Ha]%andb_true_iff. apply negb_true_iff in Hd. by rewrite Hd, IH.
Qed.

Lemma split_segment c a s :
  no_char c a = true -> split c (a +:+ String c s) = a :: split c s.
Proof.
  induction a as [|d a IH].
  - rewrite app_empty_l. cbn. by rewrite Ascii.eqb_refl.
  - rewrite no_char_cons, app_cons. cbn [split].
    intros [Hd Ha]%andb_true_iff. apply negb_true_iff in Hd. by rewrite Hd, IH.
Qed.

(** Splitting undoes joining when no part holds the separator. *)
Lemma split_join c l :
  l <> [] -> Forall (fun s => no_char c s = true) l ->
  split c (join (String c EmptyString) l) = l.
Proof.
  intros Hne H. induction H as [|a l Ha Hl IH]; [done|].
  destruct l as [|b l]; cbn [join].
  - by apply split_no_char.
  - rewrite app_cons, app_empty_l, split_segment by done. f_equal. by apply IH.
Qed.

Lemma join_split sep s : join (String sep EmptyString) (split sep s) = s.
Proof.
  induction s as [|c s IH]; [done|]. cbn [split].
  destruct (Ascii.eqb c sep) eqn:E.
  - apply Ascii.eqb_eq in E as ->.
    destruct (split sep s) as [|w ws] eqn:Hs; [by destruct (split_not_nil sep s)|].
    change (join _ (EmptyString :: w :: ws))
      with (String sep (join (String sep EmptyString) (w :: ws))). by rewrite IH.
  - destruct (split sep s) as [|w ws] eqn:Hs; [by destruct (split_not_nil sep s)|].
    rewrite <- IH. by destruct ws.
Qed.

Lemma indexOf_app c s t :
  indexOf c s = None -> indexOf c (s +:+ String c t) = Some (String.length s).
Proof.
  induction s as [|a s IH]; intros H; [rewrite app_empty_l; cbn; by rewrite Ascii.eqb_refl|].
  rewrite app_cons. cbn in *.
  destruct (Ascii.eqb a c); [done|]. destruct (indexOf c s); [done|].
  by rewrite IH.
Qed.

Lemma lastIndexOf_none c s : lastIndexOf c s = None <-> indexOf c s = None.
Proof.
  induction s as [|a s IH]; cbn; [done|].
  destruct (lastIndexOf c s), (indexOf c s), (Ascii.eqb a c); cbn; naive_solver.
Qed.

Lemma lastIndexOf_app c s t :
  indexOf c t = None -> lastIndexOf c (s +:+ String c t) = Some (String.length s).
Proof.
  intros H%lastIndexOf_none. induction s as [|a s IH].
  - rewrite app_empty_l. cbn. by rewrite H, Ascii.eqb_refl.
  - rewrite app_cons. cbn. by rewrite IH.
Qed.

Lemma take_str_app s t : take_str (String.length s) (s +:+ t) = s.
Proof. induction s as [|c s IH]; [by destruct t|]. rewrite app_cons. cbn. by rewrite IH. Qed.

Lemma drop_str_app s t : drop_str (String.length s) (s +:+ t) = t.
Proof. induction s as [|c s IH]; [done|]. rewrite app_cons. apply IH. Qed.

Lemma drop_str_S_app s c t : drop_str (S (String.length s)) (s +:+ String c t) = t.
Proof. induction s as [|d s IH]; [done|]. rewrite app_cons. apply IH. Qed.

Lemma drop_str_plus i j s : drop_str (i + j) s = drop_str j (drop_str i s).
Proof. revert s; induction i as [|i IH]; intros [|c s]; [done..|by destruct j|apply IH]. Qed.

Lemma length_app_str s t : String.length (s +:+ t) = String.length s + String.length t.
Proof. induction s as [|c s IH]; [done|]. rewrite app_cons. cbn. by rewrite IH. Qed.

Lemma str_ltb_irrefl s : str_ltb s s = false.
Proof.
  induction s as [|c s IH]; cbn; [done|].
  by rewrite IH, N.ltb_irrefl, N.eqb_refl.
Qed.

(** The default order of strings is a total order. *)
Lemma str_ltb_cons x a y b :
  str_ltb (String x a) (String y b) = ((code x <? code y) || ((code x =? code y) && str_ltb a b))%N%bool.
Proof. cbn. destruct (N.ltb_spec (code x) (code y)), (N.eqb_spec (code x) (code y)); cbn; try done; lia. Qed.

Lemma code_inj x y : code x = code y -> x = y.
Proof. intros H. rewrite <- (Ascii.ascii_N_embedding x), <- (Ascii.ascii_N_embedding y). unfold code in H. by rewrite H. Qed.

Lemma str_ltb_trichotomy a b : str_ltb a b = true \/ a = b \/ str_ltb b a = true.
Proof.
  revert b; induction a as [|x a IH]; intros [|y b]; [by auto|by left|by right; right|].
  rewrite !str_ltb_cons, (N.eqb_sym (code y)).
  destruct (N.lt_trichotomy (code x) (code y)) as [Hx|[Hx|Hx]].
  - left. by rewrite (proj2 (N.ltb_lt _ _) Hx).
  - rewrite Hx, N.ltb_irrefl, N.eqb_refl. apply code_inj in Hx as ->. cbn.
    destruct (IH b) as [H|[->|H]]; auto.
  - right. right. by rewrite (proj2 (N.ltb_lt _ _) Hx).
Qed.

Lemma str_ltb_trans a b c : str_ltb a b = true -> str_ltb b c = true -> str_ltb a c = true.
Proof.
  revert b c; induction a as [|x a IH]; intros [|y b] [|z c]; try done.
  rewrite !str_ltb_cons, !orb_true_iff, !andb_true_iff, !N.ltb_lt, !N.eqb_eq.
  intros [H|[H H']] [K|[K K']]; [left; lia..|]. right. split; [congruence|]. by apply (IH b).
Qed.

Lemma str_leb_total a b : str_leb a b = true \/ str_leb b a = true.
Proof.
  unfold str_leb. destruct (str_ltb b a) eqn:E; [|by left]. right.
  destruct (str_ltb a b) eqn:E'; [|done].
  assert (Hc := str_ltb_trans a b a E' E). by rewrite str_ltb_irrefl in Hc.
Qed.

Lemma str_leb_trans a b c : str_leb a b = true -> str_leb b c = true -> str_leb a c = true.
Proof.
  unfold str_leb. rewrite !negb_true_iff. intros Hab Hbc. apply not_true_is_false. intros Hca.
  destruct (str_ltb_trichotomy a b) as [H|[->|H]]; [|congruence|congruence].
  rewrite (str_ltb_trans c a b) in Hbc; done.
Qed.

Lemma str_leb_antisym a b : str_leb a b = true -> str_leb b a = true -> a = b.
Proof.
  unfold str_leb. rewrite !negb_true_iff. intros Hab Hba.
  destruct (str_ltb_trichotomy a b) as [H|[H|H]]; congruence.
Qed.

(** Sorting strings does not depend on the order they come in. *)
Lemma js_sort_strings l k : l ≡ₚ k -> js_sort str_leb l = js_sort str_leb k.
Proof.
  intros Hp. apply (StronglySorted_unique_strong (fun a b => str_leb a b = true)).
  - intros x y _ _. apply str_leb_antisym.
  - apply js_sort_sorted; [apply str_leb_total|apply str_leb_trans].
  - apply js_sort_sorted; [apply str_leb_total|apply str_leb_trans].
  - by rewrite !js_sort_perm.
Qed.

#[export] Hint Resolve trim_idem toLowerCase_idem split_not_nil : depdb.
