(* ===== verification/JsNum.v ===== *)
(** * JavaScript numbers

    IEEE 754 binary64, computed by the Standard Library's [SpecFloat]: the
    arithmetic, the comparisons, the [Math] functions, [Number::toString],
    [StringToNumber] and [parseFloat] that the program uses. *)

From Corelib Require Import SpecFloat.
From Stdlib Require Import Ascii.
From S2P Require Import Prelude JsString.
Local Open Scope Z_scope.

Definition num : Type := spec_float.

#[export] Instance num_eq_dec : EqDecision num.
Proof. solve_decision. Defined.

Definition num_add : num -> num -> num := SFadd 53 1024.
Definition num_sub : num -> num -> num := SFsub 53 1024.
Definition num_mul : num -> num -> num := SFmul 53 1024.
Definition num_div : num -> num -> num := SFdiv 53 1024.

(** The double nearest to an integer, and to a quotient of integers. *)
Definition num_of_Z (z : Z) : num := binary_normalize 53 1024 z 0 false.

Definition num_of_ratio (n : Z) (d : positive) : num :=
  match n with
  | Z0 => S754_zero false
  | Zpos p => num_div (S754_finite false p 0) (S754_finite false d 0)
  | Zneg p => num_div (S754_finite true p 0) (S754_finite false d 0)
  end.

Definition num_zero : num := S754_zero false.
Definition num_nan : num := S754_nan.

(** ** Comparisons: false when either side is NaN *)

Definition num_eqb (a b : num) : bool := SFeqb a b.
Definition num_ltb (a b : num) : bool := SFltb a b.
Definition num_leb (a b : num) : bool := SFleb a b.

Definition is_nan (a : num) : bool := match a with S754_nan => true | _ => false end.

(** SameValueZero, the equality of [Array.prototype.includes]. *)
Definition num_same_value_zero (a b : num) : bool :=
  num_eqb a b || (is_nan a && is_nan b).

Definition num_is_finite (a : num) : bool :=
  match a with S754_zero _ | S754_finite _ _ _ => true | _ => false end.

(** ** Exact value and integer part *)

(** The exact value of a finite number as a numerator over a power of two. *)
Definition num_ratio (a : num) : option (Z * positive) :=
  match a with
  | S754_zero _ => Some (0, 1%positive)
  | S754_finite s m e =>
      let n := if s then Zneg m else Zpos m in
      Some (if 0 <=? e then (n * 2 ^ e, 1%positive)
            else (n, Z.to_pos (2 ^ (- e))))
  | _ => None
  end.

Definition num_is_integer (a : num) : bool :=
  match num_ratio a with
  | Some (n, d) => n mod Zpos d =? 0
  | None => false
  end.

(** [Math.floor], [Math.ceil] and [Math.round] (half towards plus infinity);
    a result of zero keeps the sign of a negative argument, as in ECMAScript. *)
Definition num_integral (f : Z -> positive -> Z) (a : num) : num :=
  match num_ratio a with
  | Some (n, d) =>
      match f n d with
      | Z0 => S754_zero (match a with
                         | S754_zero s | S754_finite s _ _ => s
                         | _ => false end)
      | z => num_of_Z z
      end
  | None => a
  end.

Definition math_ceil : num -> num := num_integral (fun n d => - ((- n) / Zpos d)).
Definition math_round : num -> num :=
  num_integral (fun n d => (2 * n + Zpos d) / (2 * Zpos d)).

Definition math_min (a b : num) : num :=
  if is_nan a || is_nan b then num_nan
  else match a, b with
       | S754_zero true, S754_zero _ | S754_zero _, S754_zero true => S754_zero true
       | _, _ => if num_ltb b a then b else a
       end.

Definition math_max (a b : num) : num :=
  if is_nan a || is_nan b then num_nan
  else match a, b with
       | S754_zero false, S754_zero _ | S754_zero _, S754_zero false => S754_zero false
       | _, _ => if num_ltb a b then b else a
       end.

(** [Math.pow] by a natural number exponent, as repeated multiplication. *)
Fixpoint num_pow (a : num) (n : nat) : num :=
  match n with
  | O => num_of_Z 1
  | S n => num_mul a (num_pow a n)
  end.

(** ** [Number::toString] *)

Definition digit_char (d : Z) : Ascii.ascii := Ascii.ascii_of_N (48 + Z.to_N d).

Fixpoint digits_go (fuel : nat) (z : Z) (acc : string) : string :=
  match fuel with
  | O => acc
  | S fuel =>
      let acc := String (digit_char (z mod 10)) acc in
      if z <? 10 then acc else digits_go fuel (z / 10) acc
  end.

(** Decimal digits of a non-negative integer; a number of [b] bits has at most
    [b + 1] digits. *)
Definition digits (z : Z) : string := digits_go (S (Z.to_nat (Z.log2 z))) z EmptyString.

Definition string_of_Z (z : Z) : string :=
  if z <? 0 then String "-"%char (digits (- z)) else digits z.

Fixpoint repeat_char (n : nat) (c : Ascii.ascii) : string :=
  match n with
  | O => EmptyString
  | S n => String c (repeat_char n c)
  end.

(** [s * 10^e] as a double, correctly rounded. *)
Definition num_of_decimal (s e : Z) : num :=
  if 0 <=? e then num_of_Z (s * 10 ^ e) else num_of_ratio s (Z.to_pos (10 ^ (- e))).

(** The exponent [n] with [10^(n-1) <= N/D < 10^n]. *)
Fixpoint fix_exponent (fuel : nat) (N D n : Z) : Z :=
  match fuel with
  | O => n
  | S fuel =>
      let ge k := if 0 <=? k then D * 10 ^ k <=? N else D <=? N * 10 ^ (- k) in
      if ge n then fix_exponent fuel N D (n + 1)
      else if ge (n - 1) then n else fix_exponent fuel N D (n - 1)
  end.

(** The shortest digit string of [k] digits or more that reads back as [a]. *)
Fixpoint shortest (fuel : nat) (a : num) (N D n k : Z) : Z * Z * Z :=
  let up := n - k in
  let (num, den) := if 0 <=? up then (N, D * 10 ^ up) else (N * 10 ^ (- up), D) in
  let q := num / den in
  let r := num mod den in
  let near := if (2 * r <? den) || ((2 * r =? den) && Z.even q) then q else q + 1 in
  let far := if near =? q then q + 1 else q in
  let reads s := bool_decide (num_of_decimal s up = a) in
  let emit s := if s =? 10 ^ k then (1, n + 1, 1) else (s, n, k) in
  if reads near then emit near
  else if reads far then emit far
  else match fuel with
       | O => emit near
       | S fuel => shortest fuel a N D n (k + 1)
       end.

Definition format_digits (s n k : Z) : string :=
  let ds := digits s in
  if (k <=? n) && (n <=? 21) then ds +:+ repeat_char (Z.to_nat (n - k)) "0"%char
  else if (0 <? n) && (n <=? 21) then
    take_str (Z.to_nat n) ds +:+ "." +:+ drop_str (Z.to_nat n) ds
  else if (-6 <? n) && (n <=? 0) then
    "0." +:+ repeat_char (Z.to_nat (- n)) "0"%char +:+ ds
  else
    let e := n - 1 in
    let es := (if 0 <=? e then "e+" else "e-") +:+ digits (Z.abs e) in
    if k =? 1 then ds +:+ es else take_str 1 ds +:+ "." +:+ drop_str 1 ds +:+ es.

Definition num_abs (a : num) : num := SFabs a.

Definition num_to_string (a : num) : string :=
  match a with
  | S754_nan => "NaN"
  | S754_zero _ => "0"
  | S754_infinity s => if s then "-Infinity" else "Infinity"
  | S754_finite s m e =>
      match num_ratio (num_abs a) with
      | Some (N, D) =>
          let n0 := ((Z.log2 N - Z.log2 (Zpos D)) * 30103) / 100000 in
          let n := fix_exponent 8 N (Zpos D) n0 in
          let '(sd, n', k) := shortest 17 (num_abs a) N (Zpos D) n 1 in
          (if s then "-" else EmptyString) +:+ format_digits sd n' k
      | None => EmptyString
      end
  end.

(** ** Reading numbers *)

Definition digit_value (c : Ascii.ascii) : option Z :=
  let n := code c in
  if ((48 <=? n) && (n <=? 57))%N then Some (Z.of_N n - 48) else None.

(** Leading decimal digits: their value, their count and the rest. *)
Fixpoint read_digits (s : string) (acc cnt : Z) : Z * Z * string :=
  match s with
  | String c s' =>
      match digit_value c with
      | Some d => read_digits s' (acc * 10 + d) (cnt + 1)
      | None => (acc, cnt, s)
      end
  | EmptyString => (acc, cnt, EmptyString)
  end.

Definition read_exponent (s : string) : Z * string :=
  let read sgn t :=
    let '(v, c, rest) := read_digits t 0 0 in
    if c =? 0 then (0, s) else (sgn * v, rest) in
  match s with
  | String "e"%char t | String "E"%char t =>
      match t with
      | String "+"%char t' => read 1 t'
      | String "-"%char t' => read (-1) t'
      | _ => read 1 t
      end
  | _ => (0, s)
  end.

(** [m * 10^e]; exponents beyond the range of doubles are cut off first. *)
Definition decimal_value (m e cnt : Z) : num :=
  if m =? 0 then num_zero
  else if 400 <? e then S754_infinity false
  else if e <? - (400 + cnt) then num_zero
  else num_of_decimal m e.

(** The longest prefix that is a StrUnsignedDecimalLiteral. *)
Definition read_unsigned (s : string) : option (num * string) :=
  if startsWith s "Infinity" then Some (S754_infinity false, drop_str 8 s)
  else
    let '(m1, c1, r1) := read_digits s 0 0 in
    let '(m2, c2, r2) :=
      match r1 with
      | String "."%char t => read_digits t m1 0
      | _ => (m1, 0, r1)
      end in
    if c1 + c2 =? 0 then None
    else let (e, r3) := read_exponent r2 in
         Some (decimal_value m2 (e - c2) (c1 + c2), r3).

Definition read_decimal (s : string) : option (num * string) :=
  match s with
  | String "+"%char t => read_unsigned t
  | String "-"%char t => '(v, r) ← read_unsigned t; Some (SFopp v, r)
  | _ => read_unsigned s
  end.

Definition parseFloat (s : string) : num :=
  match read_decimal (trimStart s) with
  | Some (v, _) => v
  | None => num_nan
  end.

(** [Number.parseInt(s, 10)], exactly: [None] is [NaN]. *)
Definition parseInt10 (s : string) : option Z :=
  let read sgn t := let '(n, cnt, _) := read_digits t 0 0 in if cnt =? 0 then None else Some (sgn * n) in
  match trimStart s with
  | String "+"%char t => read 1 t
  | String "-"%char t => read (-1) t
  | t => read 1 t
  end.

Definition radix_digit (radix : Z) (c : Ascii.ascii) : option Z :=
  let n := Z.of_N (code (lower_char c)) in
  let d := if (48 <=? n) && (n <=? 57) then n - 48
           else if (97 <=? n) && (n <=? 122) then n - 87 else radix in
  if d <? radix then Some d else None.

Fixpoint read_radix (radix : Z) (s : string) (acc : Z) : option Z :=
  match s with
  | EmptyString => Some acc
  | String c s' =>
      match radix_digit radix c with
      | Some d => read_radix radix s' (acc * radix + d)
      | None => None
      end
  end.

(** [StringToNumber]: what [Number(s)] and the abstract comparisons use. *)
Definition string_to_number (str : string) : num :=
  let s := trim str in
  let radix r t :=
    match t with
    | EmptyString => num_nan
    | _ => from_option num_of_Z num_nan (read_radix r t 0)
    end in
  match s with
  | EmptyString => num_zero
  | String "0"%char (String "x"%char t) | String "0"%char (String "X"%char t) => radix 16 t
  | String "0"%char (String "o"%char t) | String "0"%char (String "O"%char t) => radix 8 t
  | String "0"%char (String "b"%char t) | String "0"%char (String "B"%char t) => radix 2 t
  | _ =>
      match read_decimal s with
      | Some (v, EmptyString) => v
      | _ => num_nan
      end
  end.

(** ** Examples against a JavaScript engine's answers *)

Example num_to_string_ex :
  map num_to_string
    [num_of_Z 0; num_of_Z 42; num_of_Z (-7); num_of_decimal 1 (-1);
     num_of_decimal 15 (-1); num_add (num_of_decimal 1 (-1)) (num_of_decimal 2 (-1));
     num_of_decimal 1 21; num_of_decimal 123 (-9); num_of_ratio 1 3]
  = ["0"; "42"; "-7"; "0.1"; "1.5"; "0.30000000000000004"; "1e+21"; "1.23e-7";
     "0.3333333333333333"]%string.
Proof. vm_compute. reflexivity. Qed.

Example string_to_number_ex :
  map string_to_number ["42"; " 1.5 "; EmptyString; "0x10"; "1e3"; "-0.5"]%string
  = [num_of_Z 42; num_of_ratio 3 2; num_zero; num_of_Z 16; num_of_Z 1000; num_of_ratio (-1) 2]
  /\ map (fun s => is_nan (string_to_number s)) ["abc"; "1px"; "."]%string = [true; true; true].
Proof. vm_compute. done. Qed.

(** ** Order lemmas *)

Lemma SFcompare_antisym a b :
  SFcompare b a = option_map CompOpp (SFcompare a b).
Proof.
  destruct a as [[]|[]| |[] m e], b as [[]|[]| |[] m' e']; cbn; try done;
    rewrite (Z.compare_antisym e e'); destruct (Z.compare e e') eqn:E; cbn; try done;
    change (Pos.compare_cont Eq) with Pos.compare;
    rewrite (Pos.compare_antisym m m'); by destruct (Pos.compare m m').
Qed.

Lemma SFcompare_nan a b : SFcompare a b = None <-> is_nan a || is_nan b = true.
Proof.
  destruct a as [[]|[]| |[] m e], b as [[]|[]| |[] m' e']; cbn; try done;
    try (split; done); destruct (Z.compare e e'); split; done.
Qed.

Lemma num_ltb_leb a b :
  is_nan a = false -> is_nan b = false -> num_leb a b = negb (num_ltb b a).
Proof.
  intros Ha Hb. unfold num_leb, num_ltb, SFleb, SFltb. rewrite (SFcompare_antisym a b).
  destruct (SFcompare a b) as [[]|] eqn:E; cbn; try done.
  apply SFcompare_nan in E. by rewrite Ha, Hb in E.
Qed.

Lemma num_ltb_nan_l a b : is_nan a = true -> num_ltb a b = false.
Proof. by destruct a. Qed.

Lemma num_ltb_nan_r a b : is_nan b = true -> num_ltb a b = false.
Proof. by destruct b, a as [[]|[]| |]. Qed.

Lemma num_ltb_asym a b : num_ltb a b = true -> num_ltb b a = false.
Proof.
  unfold num_ltb, SFltb. rewrite (SFcompare_antisym a b).
  by destruct (SFcompare a b) as [[]|].
Qed.

Lemma num_eqb_sym a b : num_eqb a b = num_eqb b a.
Proof.
  unfold num_eqb, SFeqb. rewrite (SFcompare_antisym a b).
  by destruct (SFcompare a b) as [[]|].
Qed.

(** Exactly one of less, equal and greater holds of two numbers, none if one is NaN. *)
Lemma num_trichotomy a b :
  is_nan a = false -> is_nan b = false ->
  num_ltb a b = negb (num_eqb a b || num_ltb b a).
Proof.
  intros Ha Hb. unfold num_eqb, num_ltb, SFeqb, SFltb. rewrite (SFcompare_antisym a b).
  destruct (SFcompare a b) as [[]|] eqn:E; cbn; try done.
  apply SFcompare_nan in E. by rewrite Ha, Hb in E.
Qed.

(** ** Integers below 2^53 are exact, and compare as integers *)

Lemma digits2_pos_bounds p :
  2 ^ (Zpos (digits2_pos p) - 1) <= Zpos p < 2 ^ Zpos (digits2_pos p).
Proof.
  induction p as [p IH|p IH|]; cbn [digits2_pos]; [| |cbn; lia];
    rewrite Pos2Z.inj_succ;
    replace (Z.succ (Zpos (digits2_pos p)) - 1) with (Z.succ (Zpos (digits2_pos p) - 1)) by lia;
    rewrite !Z.pow_succ_r by lia; lia.
Qed.

Lemma digits2_pos_lt p n : 0 <= n -> Zpos p < 2 ^ n -> Zpos (digits2_pos p) <= n.
Proof.
  intros Hn Hp. destruct (digits2_pos_bounds p) as [Hd _].
  destruct (Z.le_gt_cases (Zpos (digits2_pos p)) n) as [|Hgt]; [done|].
  assert (2 ^ n <= 2 ^ (Zpos (digits2_pos p) - 1)) by (apply Z.pow_le_mono_r; lia). lia.
Qed.

Lemma iter_xO m d :
  Zpos (Pos.iter xO m d) = Zpos m * 2 ^ Zpos d /\
  Zpos (digits2_pos (Pos.iter xO m d)) = Zpos (digits2_pos m) + Zpos d.
Proof.
  induction d as [|d [IH1 IH2]] using Pos.peano_ind; cbn [Pos.iter].
  - split; [lia|]. cbn. lia.
  - rewrite Pos.iter_succ. split.
    + rewrite Pos2Z.inj_xO, IH1, Pos2Z.inj_succ, Z.pow_succ_r by lia. lia.
    + cbn [digits2_pos]. rewrite Pos2Z.inj_succ, IH2. lia.
Qed.

(** The mantissa of an exact positive integer, scaled to 53 binary digits. *)
Definition mantissa53 (p : positive) : positive :=
  match (53 - Zpos (digits2_pos p))%Z with
  | Zpos d => Pos.iter xO p d
  | _ => p
  end.

Lemma mantissa53_spec p :
  Zpos (digits2_pos p) <= 53 ->
  Zpos (mantissa53 p) = Zpos p * 2 ^ (53 - Zpos (digits2_pos p)) /\
  Zpos (digits2_pos (mantissa53 p)) = 53.
Proof.
  intros H. unfold mantissa53. destruct (53 - Zpos (digits2_pos p)) as [|d|d] eqn:E; [lia| |lia].
  destruct (iter_xO p d) as [H1 H2]. split; [done|lia].
Qed.

Lemma shr_fexp_exact mz ez :
  fexp 53 1024 (Zpos (digits2_pos mz) + ez) = ez ->
  shr_fexp 53 1024 (Zpos mz) ez loc_Exact = (Build_shr_record (Zpos mz) false false, ez).
Proof. intros H. unfold shr_fexp. cbn [Zdigits2 shr_record_of_loc]. by rewrite H, Z.sub_diag. Qed.

Lemma num_of_Z_pos p :
  Zpos (digits2_pos p) <= 53 ->
  num_of_Z (Zpos p) = S754_finite false (mantissa53 p) (Zpos (digits2_pos p) - 53).
Proof.
  intros Hp. destruct (mantissa53_spec p Hp) as [_ Hd].
  unfold num_of_Z, binary_normalize, binary_round. rewrite Z.add_0_r.
  assert (Hf : fexp 53 1024 (Zpos (digits2_pos p)) = Zpos (digits2_pos p) - 53)
    by (unfold fexp, emin; lia).
  rewrite Hf. unfold shl_align. rewrite Z.sub_0_r.
  assert (Hs : match Zpos (digits2_pos p) - 53 with
               | Zneg d => (Pos.iter xO p d, Zpos (digits2_pos p) - 53)
               | _ => (p, 0)
               end = (mantissa53 p, Zpos (digits2_pos p) - 53)).
  { unfold mantissa53. replace (53 - Zpos (digits2_pos p)) with (- (Zpos (digits2_pos p) - 53)) by lia.
    destruct (Zpos (digits2_pos p) - 53) eqn:E; [done|lia|done]. }
  rewrite Hs. unfold binary_round_aux.
  assert (He : fexp 53 1024 (Zpos (digits2_pos (mantissa53 p)) + (Zpos (digits2_pos p) - 53))
               = Zpos (digits2_pos p) - 53) by (rewrite Hd; unfold fexp, emin; lia).
  rewrite shr_fexp_exact by done. cbn [shr_m loc_of_shr_record round_nearest_even].
  rewrite shr_fexp_exact by done. cbn [shr_m].
  destruct (Z.leb_spec (Zpos (digits2_pos p) - 53) (1024 - 53)); [done|lia].
Qed.

Definition exact_int (n : Z) : Prop := 0 <= n < 2 ^ 53.

Lemma num_compare_int a b :
  exact_int a -> exact_int b -> SFcompare (num_of_Z a) (num_of_Z b) = Some (a ?= b).
Proof.
  intros [Ha Ha'] [Hb Hb']. destruct a as [|a|]; [| |lia]; (destruct b as [|b|]; [| |lia]).
  - done.
  - rewrite (num_of_Z_pos b); [done|]. by apply digits2_pos_lt.
  - rewrite (num_of_Z_pos a); [done|]. by apply digits2_pos_lt.
  - assert (Da : Zpos (digits2_pos a) <= 53) by by apply digits2_pos_lt.
    assert (Db : Zpos (digits2_pos b) <= 53) by by apply digits2_pos_lt.
    rewrite !num_of_Z_pos by done. cbn [SFcompare]. f_equal.
    destruct (digits2_pos_bounds a) as [La Ua], (digits2_pos_bounds b) as [Lb Ub].
    destruct (Z.compare_spec (Zpos (digits2_pos a) - 53) (Zpos (digits2_pos b) - 53)) as [E|E|E].
    + destruct (mantissa53_spec a Da) as [Ma _], (mantissa53_spec b Db) as [Mb _].
      change (Pos.compare_cont Eq) with Pos.compare.
      change (Pos.compare (mantissa53 a) (mantissa53 b))
        with (Z.compare (Zpos (mantissa53 a)) (Zpos (mantissa53 b))).
      rewrite Ma, Mb. replace (Zpos (digits2_pos b)) with (Zpos (digits2_pos a)) by lia.
      symmetry. apply Zmult_compare_compat_r. apply Z.lt_gt, Z.pow_pos_nonneg; lia.
    + symmetry. change (Zpos a < Zpos b).
      assert (2 ^ Zpos (digits2_pos a) <= 2 ^ (Zpos (digits2_pos b) - 1))
        by (apply Z.pow_le_mono_r; lia). lia.
    + symmetry. apply Z.compare_gt_iff.
      assert (2 ^ Zpos (digits2_pos b) <= 2 ^ (Zpos (digits2_pos a) - 1))
        by (apply Z.pow_le_mono_r; lia). lia.
Qed.

Lemma num_ltb_int a b : exact_int a -> exact_int b -> num_ltb (num_of_Z a) (num_of_Z b) = (a <? b).
Proof. intros Ha Hb. unfold num_ltb, SFltb, Z.ltb. by rewrite num_compare_int. Qed.

Lemma num_eqb_int a b : exact_int a -> exact_int b -> num_eqb (num_of_Z a) (num_of_Z b) = (a =? b).
Proof.
  intros Ha Hb. unfold num_eqb, SFeqb. rewrite num_compare_int by done.
  rewrite Z.eqb_compare. by destruct (a ?= b).
Qed.

Lemma num_int_not_nan a : exact_int a -> is_nan (num_of_Z a) = false.
Proof.
  intros [H H']. destruct a as [|a|]; [done| |lia].
  rewrite num_of_Z_pos; [done|]. by apply digits2_pos_lt.
Qed.

#[export] Hint Rewrite num_ltb_int num_eqb_int num_int_not_nan using done : depdb.

Lemma num_leb_trans a b c : num_leb a b = true -> num_leb b c = true -> num_leb a c = true.
Proof.
  unfold num_leb, SFleb.
  destruct a as [[]|[]| |[] ma ea], b as [[]|[]| |[] mb eb], c as [[]|[]| |[] mc ec]; cbn; try done;
    change (Pos.compare_cont Eq) with Pos.compare;
    destruct (Z.compare_spec ea eb), (Z.compare_spec eb ec), (Z.compare_spec ea ec);
    subst; try lia; try done;
    destruct (Pos.compare_spec ma mb), (Pos.compare_spec mb mc), (Pos.compare_spec ma mc);
    subst; cbn; try done; lia.
Qed.

Lemma num_leb_refl a : is_nan a = false -> num_leb a a = true.
Proof.
  unfold num_leb, SFleb. destruct a as [[]|[]| |[] m e]; cbn; try done;
    rewrite Z.compare_refl; change (Pos.compare_cont Eq) with Pos.compare; by rewrite Pos.compare_refl.
Qed.

Lemma num_leb_not_nan a b : num_leb a b = true -> is_nan a = false /\ is_nan b = false.
Proof. by destruct a as [[]|[]| |[] ? ?], b as [[]|[]| |[] ? ?]. Qed.
