(* ===== verification/JsValue.v ===== *)
(** * JavaScript values

    The values the program computes with dynamically: policy conditions, rule
    actions, connector fields.  They come from JSON (request bodies and JSONB
    columns), plus [undefined] for an absent property and the intrinsic
    functions an object inherits from [Object.prototype].

    An object is the list of its own properties in insertion order, with
    distinct keys.  Two objects or arrays met by the program never share a
    reference across the field map and a stored condition, so reference equality
    of two of them is false.  Own properties named [toString] or [valueOf], which
    would change the conversion of an object to a primitive, are not modelled. *)

From Stdlib Require Import Ascii.
From Corelib Require Import SpecFloat.
From S2P Require Import Prelude JsString JsNum.

Inductive jsval : Type :=
| JUndef
| JNull
| JBool (b : bool)
| JNum (n : num)
| JStr (s : string)
| JArr (l : list jsval)
| JObj (kvs : list (string * jsval))
| JFun (name : string).

Definition JInt (z : Z) : jsval := JNum (num_of_Z z).

(** Induction over the tree of an object's properties and the elements of the
    arrays among them, the way an interpreter of object nodes recurses. *)
Section node_induction.
Context (Q : jsval -> Prop)
  (Q_leaf : forall v, (forall kvs, v <> JObj kvs) -> Q v)
  (Q_node : forall kvs,
     (forall k v, (k, v) ∈ kvs -> Q v) ->
     (forall k l x, (k, JArr l) ∈ kvs -> x ∈ l -> Q x) -> Q (JObj kvs)).

Let R (v : jsval) : Prop := Q v /\ (forall l, v = JArr l -> Forall Q l).

Lemma R_leaf v : (forall kvs, v <> JObj kvs) -> (forall l, v = JArr l -> Forall Q l) -> R v.
Proof using Q_leaf. split; auto. Qed.

Lemma R_node kvs : Forall (fun kv => R kv.2) kvs -> R (JObj kvs).
Proof using Q_node.
  intros H. rewrite Forall_forall in H. split; [|done]. apply Q_node.
  - intros k v Hin. apply (H _ Hin).
  - intros k l x Hin Hx. destruct (H _ Hin) as [_ Hl].
    specialize (Hl l eq_refl). rewrite Forall_forall in Hl. auto.
Qed.

Fixpoint node_R (v : jsval) : R v.
Proof using Q_leaf Q_node.
  destruct v as [| |b|n|s|l|kvs|name];
    try (apply R_leaf; solve [intros ? [=]]).
  - apply R_leaf; [intros ? [=]|]. intros l' Hl. injection Hl as <-.
    induction l as [|x l IH]; constructor; [apply (node_R x)|exact IH].
  - apply R_node. induction kvs as [|[k x] kvs IH]; constructor; [apply (node_R x)|exact IH].
Qed.

Lemma jsval_node_ind v : Q v.
Proof using Q_leaf Q_node. apply node_R. Qed.
End node_induction.

(** ** Nullish values and truthiness *)

Definition is_nullish (v : jsval) : bool :=
  match v with JUndef | JNull => true | _ => false end.

(** [a ?? d] *)
Definition nullish (a d : jsval) : jsval := if is_nullish a then d else a.

Definition truthy (v : jsval) : bool :=
  match v with
  | JUndef | JNull => false
  | JBool b => b
  | JNum n => negb (is_nan n || num_eqb n num_zero)
  | JStr s => nonempty s
  | JArr _ | JObj _ | JFun _ => true
  end.

(** An optional string as a JavaScript value, [null] when absent. *)
Definition str_or_null (o : option string) : jsval := from_option JStr JNull o.
Definition bool_or_null (o : option bool) : jsval := from_option JBool JNull o.
Definition int_or_null (o : option Z) : jsval := from_option JInt JNull o.
Definition num_or_null (o : option num) : jsval := from_option JNum JNull o.

(** ** Properties *)

Fixpoint own (k : string) (kvs : list (string * jsval)) : option jsval :=
  match kvs with
  | [] => None
  | (k', v) :: kvs => if String.eqb k k' then Some v else own k kvs
  end.

(** [obj[k] = v] on an ordinary object. *)
Fixpoint put (k : string) (v : jsval) (kvs : list (string * jsval)) : list (string * jsval) :=
  match kvs with
  | [] => [(k, v)]
  | (k', v') :: kvs => if String.eqb k k' then (k', v) :: kvs else (k', v') :: put k v kvs
  end.

(** The spread [{...a, ...b}]. *)
Definition spread (a b : list (string * jsval)) : list (string * jsval) :=
  foldl (fun acc kv => put kv.1 kv.2 acc) a b.

Definition prototype_functions : list string :=
  ["hasOwnProperty"; "isPrototypeOf"; "propertyIsEnumerable"; "toLocaleString";
   "toString"; "valueOf"; "__defineGetter__"; "__defineSetter__";
   "__lookupGetter__"; "__lookupSetter__"]%string.

(** What an object inherits from [Object.prototype] under a key. *)
Definition inherited (k : string) : jsval :=
  if String.eqb k "constructor" then JFun "Object"
  else if String.eqb k "__proto__" then JObj []
  else if existsb (String.eqb k) prototype_functions then JFun k
  else JUndef.

(** [v[k]]: own properties first, then the prototype's; [null] and [undefined]
    have no properties to read. *)
Definition get_prop (v : jsval) (k : string) : res jsval :=
  match v with
  | JUndef | JNull => type_error
  | JObj kvs => Ok (default (inherited k) (own k kvs))
  | _ => Ok JUndef
  end.

(** ** Conversions *)

Definition fun_source (name : string) : string :=
  "function " +:+ name +:+ "() { [native code] }".

(** [ToString], which for an array joins its elements with commas. *)
Fixpoint to_str (v : jsval) : string :=
  match v with
  | JUndef => "undefined"
  | JNull => "null"
  | JBool b => if b then "true" else "false"
  | JNum n => num_to_string n
  | JStr s => s
  | JArr l => join "," (map (fun x => if is_nullish x then EmptyString else to_str x) l)
  | JObj _ => "[object Object]"
  | JFun name => fun_source name
  end.

Definition to_primitive (v : jsval) : jsval :=
  match v with
  | JArr _ | JObj _ | JFun _ => JStr (to_str v)
  | _ => v
  end.

Definition prim_to_number (v : jsval) : num :=
  match v with
  | JNull => num_zero
  | JBool b => num_of_Z (if b then 1 else 0)
  | JNum n => n
  | JStr s => string_to_number s
  | _ => num_nan
  end.

Definition to_number (v : jsval) : num := prim_to_number (to_primitive v).

(** ** Equality *)

(** [===] *)
Definition strict_eq (a b : jsval) : bool :=
  match a, b with
  | JUndef, JUndef | JNull, JNull => true
  | JBool x, JBool y => Bool.eqb x y
  | JNum x, JNum y => num_eqb x y
  | JStr x, JStr y => String.eqb x y
  | JFun x, JFun y => String.eqb x y
  | _, _ => false
  end.

(** SameValueZero, used by [Array.prototype.includes]. *)
Definition same_value_zero (a b : jsval) : bool :=
  match a, b with
  | JNum x, JNum y => num_same_value_zero x y
  | _, _ => strict_eq a b
  end.

(** [==] between two primitives. *)
Definition prim_loose_eq (a b : jsval) : bool :=
  match a, b with
  | JUndef, JNull | JNull, JUndef => true
  | JUndef, _ | JNull, _ | _, JUndef | _, JNull => strict_eq a b
  | JStr x, JStr y => String.eqb x y
  | _, _ => num_eqb (prim_to_number a) (prim_to_number b)
  end.

(** [==]: an object meets a primitive through [ToPrimitive]; two objects are
    compared by reference; an object never equals [null] or [undefined]. *)
Definition loose_eq (a b : jsval) : bool :=
  match a, b with
  | (JArr _ | JObj _ | JFun _), (JArr _ | JObj _ | JFun _) => strict_eq a b
  | (JArr _ | JObj _ | JFun _), (JUndef | JNull) => false
  | (JUndef | JNull), (JArr _ | JObj _ | JFun _) => false
  | _, _ => prim_loose_eq (to_primitive a) (to_primitive b)
  end.

(** ** Order: [None] when the comparison is undefined (a NaN operand) *)

Definition prim_lt (a b : jsval) : option bool :=
  match a, b with
  | JStr x, JStr y => Some (str_ltb x y)
  | _, _ =>
      let x := prim_to_number a in
      let y := prim_to_number b in
      if is_nan x || is_nan y then None else Some (num_ltb x y)
  end.

Definition js_lt (a b : jsval) : bool :=
  default false (prim_lt (to_primitive a) (to_primitive b)).
Definition js_gt (a b : jsval) : bool := js_lt b a.
Definition js_le (a b : jsval) : bool :=
  match prim_lt (to_primitive b) (to_primitive a) with
  | Some r => negb r
  | None => false
  end.
Definition js_ge (a b : jsval) : bool := js_le b a.

(** ** [JSON.stringify] *)

Definition hex_char (d : N) : ascii :=
  if (d <? 10)%N then ascii_of_N (48 + d) else ascii_of_N (87 + d).

Definition escape_char (c : ascii) : string :=
  let n := code c in
  let two d := String "\"%char (String d EmptyString) in
  if (n =? 34)%N then two quote
  else if (n =? 92)%N then two "\"%char
  else if (n =? 8)%N then two "b"%char
  else if (n =? 9)%N then two "t"%char
  else if (n =? 10)%N then two "n"%char
  else if (n =? 12)%N then two "f"%char
  else if (n =? 13)%N then two "r"%char
  else if (n <? 32)%N
       then "\u00" +:+ String (hex_char (n / 16)) (String (hex_char (n mod 16)) EmptyString)
  else String c EmptyString.

Fixpoint escape (s : string) : string :=
  match s with
  | EmptyString => EmptyString
  | String c s => escape_char c +:+ escape s
  end.

Definition quoted (s : string) : string := String quote (escape s +:+ String quote EmptyString).

(** [None] stands for the result [undefined]. *)
Fixpoint stringify (v : jsval) : option string :=
  match v with
  | JUndef | JFun _ => None
  | JNull => Some "null"
  | JBool b => Some (if b then "true" else "false")
  | JNum n => Some (if num_is_finite n then num_to_string n else "null")
  | JStr s => Some (quoted s)
  | JArr l =>
      Some ("[" +:+ join "," (map (fun x => default "null" (stringify x)) l) +:+ "]")
  | JObj kvs =>
      Some ("{" +:+ join "," (omap (fun kv => match kv with
                                              | (k, x) => (fun s => quoted k +:+ ":" +:+ s) <$> stringify x
                                              end) kvs) +:+ "}")
  end.

Example stringify_ex :
  stringify (JObj [("a", JArr [JInt 1; JNull; JUndef]); ("b", JUndef); ("c", JStr "x")])
  = Some (String.concat (String quote EmptyString)
            ["{"; "a"; ":[1,null,null],"; "c"; ":"; "x"; "}"])%string.
Proof. vm_compute. reflexivity. Qed.

(** ** Lemmas *)

Lemma own_put_eq k v kvs : own k (put k v kvs) = Some v.
Proof.
  induction kvs as [|[k' v'] kvs IH]; cbn; [by rewrite String.eqb_refl|].
  destruct (String.eqb k k') eqn:E; cbn; by rewrite E.
Qed.

Lemma own_put_ne k k' v kvs : k <> k' -> own k (put k' v kvs) = own k kvs.
Proof.
  intros Hne. apply String.eqb_neq in Hne as Hb.
  induction kvs as [|[j w] kvs IH]; cbn; [by rewrite Hb|].
  destruct (String.eqb k' j) eqn:E; cbn.
  - apply String.eqb_eq in E as ->. by rewrite Hb.
  - by rewrite IH.
Qed.

Lemma own_elem_of k v kvs : own k kvs = Some v -> (k, v) ∈ kvs.
Proof.
  induction kvs as [|[j w] kvs IH]; cbn; [done|]. destruct (String.eqb k j) eqn:E.
  - apply String.eqb_eq in E as ->. intros [= ->]. set_solver.
  - intros H. set_solver.
Qed.

Lemma own_app k a b :
  own k (a ++ b) = match own k a with Some v => Some v | None => own k b end.
Proof.
  induction a as [|[j w] a IH]; cbn; [done|]. by destruct (String.eqb k j).
Qed.

(** In a spread the later object's properties win. *)
Lemma own_spread k a b :
  NoDup b.*1 ->
  own k (spread a b) = match own k b with Some v => Some v | None => own k a end.
Proof.
  revert a; induction b as [|[j w] b IH]; intros a Hb; cbn; [done|].
  apply NoDup_cons in Hb as [Hj Hb]. unfold spread in *; cbn. rewrite IH by done.
  destruct (String.eqb k j) eqn:E.
  - apply String.eqb_eq in E as ->. rewrite own_put_eq.
    destruct (own j b) as [v|] eqn:Ho; [|done]. exfalso. apply Hj.
    clear -Ho. induction b as [|[i u] b IH]; cbn in *; [done|].
    destruct (String.eqb j i) eqn:E; [apply String.eqb_eq in E as ->; set_solver|].
    set_solver.
  - apply String.eqb_neq in E. by rewrite own_put_ne.
Qed.

Lemma get_prop_obj_own kvs k v : own k kvs = Some v -> get_prop (JObj kvs) k = Ok v.
Proof. intros H. cbn. by rewrite H. Qed.

Lemma strict_eq_str a s : strict_eq a (JStr s) = true <-> a = JStr s.
Proof.
  destruct a; cbn; try (split; congruence).
  rewrite String.eqb_eq. split; congruence.
Qed.

Lemma nullish_some a d : is_nullish a = false -> nullish a d = a.
Proof. unfold nullish. by intros ->. Qed.

Lemma js_lt_gt_asym a b : js_lt a b = true -> js_gt a b = false.
Proof.
  unfold js_gt, js_lt, prim_lt. generalize (to_primitive a) (to_primitive b); clear a b.
  assert (Hs : forall x y, str_ltb x y = true -> str_ltb y x = false).
  { induction x as [|c x IH]; destruct y as [|d y]; cbn; try done.
    rewrite !andb_true_iff, !orb_true_iff, N.ltb_lt, N.eqb_eq.
    intros [Hle Hlt]. assert (Hge : (code d <? code c)%N = false) by (apply N.ltb_ge; lia).
    rewrite Hge. cbn. destruct (N.eqb_spec (code d) (code c)) as [Heq|]; [cbn|done].
    destruct Hlt as [|Hlt]; [lia|]. by apply IH. }
  intros a b. assert (Hn : forall x y,
    default false (if is_nan x || is_nan y then None else Some (num_ltb x y)) = true ->
    default false (if is_nan y || is_nan x then None else Some (num_ltb y x)) = false).
  { intros x y. rewrite (orb_comm (is_nan y)). destruct (is_nan x || is_nan y); cbn; [done|].
    apply num_ltb_asym. }
  destruct a, b; try apply Hn; cbn. apply Hs.
Qed.

#[export] Hint Resolve get_prop_obj_own : depdb.

Lemma js_ge_int a b : exact_int a -> exact_int b -> js_ge (JInt a) (JInt b) = (b <=? a)%Z.
Proof.
  intros Ha Hb. unfold js_ge, js_le, JInt. cbn [to_primitive prim_lt prim_to_number].
  rewrite !num_int_not_nan, num_ltb_int by done. cbn. by rewrite Z.leb_antisym.
Qed.

Lemma js_gt_int a b : exact_int a -> exact_int b -> js_gt (JInt a) (JInt b) = (b <? a)%Z.
Proof.
  intros Ha Hb. unfold js_gt, js_lt, JInt. cbn [to_primitive prim_lt prim_to_number].
  by rewrite !num_int_not_nan, num_ltb_int by done.
Qed.
