(* ===== verification/Json.v ===== *)
(** * JSON.parse

    The parser of JSON texts, by recursive descent with fuel.  A text is read in
    at most twice its length of steps: [json_parse] never runs out
    ([value_fuel]).  Escapes of characters above U+00FF are outside the modelled
    strings and refused. *)

From Stdlib Require Import Ascii.
From S2P Require Import Prelude JsString JsNum JsValue.
Local Open Scope string_scope.
Local Open Scope list_scope.

(** What a parsing function gives: a value and the rest, a syntax error, or no
    answer for lack of fuel. *)
Inductive parsed (A : Type) : Type :=
| Read (a : A) (rest : string)
| Bad
| NoFuel.
Arguments Read {A}. Arguments Bad {A}. Arguments NoFuel {A}.

Definition and_then {A B} (p : parsed A) (f : A -> string -> parsed B) : parsed B :=
  match p with Read a rest => f a rest | Bad => Bad | NoFuel => NoFuel end.

Definition json_ws (c : ascii) : bool := existsb (N.eqb (code c)) [9; 10; 13; 32]%N.

Fixpoint skip_ws (s : string) : string :=
  match s with
  | String c s' => if json_ws c then skip_ws s' else s
  | EmptyString => s
  end.

(** ** Numbers and strings *)

Definition is_digit (c : ascii) : bool := match digit_value c with Some _ => true | None => false end.

(** The longest prefix of digits. *)
Fixpoint digits_prefix (s : string) : string * string :=
  match s with
  | String c s' => if is_digit c then let '(d, r) := digits_prefix s' in (String c d, r) else (EmptyString, s)
  | EmptyString => (EmptyString, s)
  end.

Definition strip_char (c : ascii) (s : string) : option string :=
  match s with String d r => if Ascii.eqb c d then Some r else None | EmptyString => None end.

(** [0] or digits that do not start with one. *)
Definition integer_part (s : string) : option (string * string) :=
  match strip_char "0" s with
  | Some r => Some ("0", r)
  | None => let '(d, r) := digits_prefix s in if nonempty d then Some (d, r) else None
  end.

Definition fraction_part (s : string) : option (string * string) :=
  match strip_char "." s with
  | None => Some (EmptyString, s)
  | Some s => let '(d, r) := digits_prefix s in if nonempty d then Some (String "." d, r) else None
  end.

Definition exponent_part (s : string) : option (string * string) :=
  match strip_char "e" s, strip_char "E" s with
  | None, None => Some (EmptyString, s)
  | Some s, _ | None, Some s =>
      let '(sign, s) := match strip_char "-" s, strip_char "+" s with
                        | Some r, _ => ("-", r) | None, Some r => (EmptyString, r) | None, None => (EmptyString, s)
                        end in
      let '(d, r) := digits_prefix s in if nonempty d then Some ("e" +:+ sign +:+ d, r) else None
  end.

Definition json_number (s : string) : parsed jsval :=
  let '(sign, s) := match strip_char "-" s with Some r => ("-", r) | None => (EmptyString, s) end in
  let text :=
    '(i, s) ← integer_part s; '(f, s) ← fraction_part s; '(e, s) ← exponent_part s;
    Some (sign +:+ i +:+ f +:+ e, s) in
  match text with
  | Some (t, rest) => Read (JNum (parseFloat t)) rest
  | None => Bad
  end.

Definition hex_value (c : ascii) : option Z := radix_digit 16 c.

Definition escaped_char (c : ascii) : option ascii :=
  if Ascii.eqb c quote then Some quote else
  match c with
  | "\"%char => Some "\"%char | "/"%char => Some "/"%char
  | "b"%char => Some (ascii_of_N 8) | "f"%char => Some (ascii_of_N 12) | "n"%char => Some (ascii_of_N 10)
  | "r"%char => Some (ascii_of_N 13) | "t"%char => Some (ascii_of_N 9)
  | _ => None
  end.

(** The rest of a string literal after its opening quote. *)
Fixpoint json_string (s : string) : parsed string :=
  match s with
  | EmptyString => Bad
  | String c s =>
      if Ascii.eqb c quote then Read EmptyString s
      else if (code c <? 32)%N then Bad
      else if Ascii.eqb c "\" then
        match s with
        | String "u" (String a (String b (String h (String l s)))) =>
            match hex_value a, hex_value b, hex_value h, hex_value l with
            | Some 0%Z, Some 0%Z, Some h, Some l =>
                and_then (json_string s) (fun t r => Read (String (ascii_of_N (Z.to_N (16 * h + l))) t) r)
            | _, _, _, _ => Bad
            end
        | String e s =>
            match escaped_char e with
            | Some x => and_then (json_string s) (fun t r => Read (String x t) r)
            | None => Bad
            end
        | EmptyString => Bad
        end
      else and_then (json_string s) (fun t r => Read (String c t) r)
  end.

(** ** Values *)

Definition literal (word : string) (v : jsval) (s : string) : parsed jsval :=
  if startsWith s word then Read v (drop_str (String.length word) s) else Bad.

Definition expect {A} (c : ascii) (s : string) (f : string -> parsed A) : parsed A :=
  match strip_char c (skip_ws s) with Some r => f r | None => Bad end.

Fixpoint value (fuel : nat) (s : string) {struct fuel} : parsed jsval :=
  match fuel with
  | O => NoFuel
  | S fuel =>
      match skip_ws s with
      | EmptyString => Bad
      | String c r =>
          if Ascii.eqb c "{" then
            match strip_char "}" (skip_ws r) with
            | Some rest => Read (JObj []) rest
            | None => and_then (members fuel r []) (fun kvs rest => Read (JObj kvs) rest)
            end
          else if Ascii.eqb c "[" then
            match strip_char "]" (skip_ws r) with
            | Some rest => Read (JArr []) rest
            | None => and_then (elements fuel r) (fun l rest => Read (JArr l) rest)
            end
          else if Ascii.eqb c quote then and_then (json_string r) (fun t rest => Read (JStr t) rest)
          else if Ascii.eqb c "t" then literal "true" (JBool true) (String c r)
          else if Ascii.eqb c "f" then literal "false" (JBool false) (String c r)
          else if Ascii.eqb c "n" then literal "null" JNull (String c r)
          else json_number (String c r)
      end
  end
with elements (fuel : nat) (s : string) {struct fuel} : parsed (list jsval) :=
  match fuel with
  | O => NoFuel
  | S fuel =>
      and_then (value fuel s) (fun v rest =>
        match strip_char "," (skip_ws rest) with
        | Some rest => and_then (elements fuel rest) (fun l rest => Read (v :: l) rest)
        | None => expect "]" rest (fun rest => Read [v] rest)
        end)
  end
with members (fuel : nat) (s : string) (acc : list (string * jsval)) {struct fuel}
  : parsed (list (string * jsval)) :=
  match fuel with
  | O => NoFuel
  | S fuel =>
      expect quote s (fun s => and_then (json_string s) (fun k s => expect ":" s (fun s =>
        and_then (value fuel s) (fun v rest =>
          let acc := put k v acc in
          match strip_char "," (skip_ws rest) with
          | Some rest => members fuel rest acc
          | None => expect "}" rest (fun rest => Read acc rest)
          end))))
  end.

Definition json_parse (s : string) : option jsval :=
  match value (2 * String.length s + 2) s with
  | Read v rest => if nonempty (skip_ws rest) then None else Some v
  | _ => None
  end.

(** ** Examples *)

Definition q (s : string) : string := quoted s.

Example json_parse_ex :
  json_parse (" { " +:+ q "a" +:+ ": [1, -2.5e1, true, null], " +:+ q "b" +:+ ":" +:+ q "x" +:+ "} ")
  = Some (JObj [("a", JArr [JInt 1; JInt (-25); JBool true; JNull]); ("b", JStr "x")]).
Proof. vm_compute. reflexivity. Qed.

Example json_refuses : map json_parse [EmptyString; "01"; "[1,]"; "{} x"; "nul"; "'a'"] = repeat None 6.
Proof. vm_compute. reflexivity. Qed.

(** ** The fuel is enough *)

Definition shorter {A} (s : string) (p : parsed A) : Prop :=
  match p with Read _ rest => (String.length rest <= String.length s)%nat | _ => True end.

Lemma skip_ws_length s : (String.length (skip_ws s) <= String.length s)%nat.
Proof. induction s as [|c s IH]; cbn [skip_ws String.length]; [lia|]. destruct (json_ws c); cbn [String.length]; lia. Qed.

Lemma strip_char_length c s r : strip_char c s = Some r -> String.length s = S (String.length r).
Proof. destruct s as [|d s]; cbn; [done|]. destruct (Ascii.eqb c d); [by intros [= ->]|done]. Qed.

Lemma digits_prefix_length s : (String.length (digits_prefix s).2 <= String.length s)%nat.
Proof.
  induction s as [|c s IH]; cbn [digits_prefix String.length]; [cbn; lia|].
  destruct (is_digit c); [|cbn; lia]. destruct (digits_prefix s). cbn in *. lia.
Qed.

Lemma drop_str_length i s : (String.length (drop_str i s) <= String.length s)%nat.
Proof. revert i; induction s as [|c s IH]; intros [|i]; cbn; try lia. specialize (IH i). lia. Qed.

Ltac parts :=
  repeat (match goal with
  | H : strip_char _ _ = Some _ |- _ => apply strip_char_length in H
  | H : digits_prefix ?s = _ |- _ => let L := fresh in assert (L := digits_prefix_length s); rewrite H in L; clear H
  end; cbn [snd] in * ).

Lemma integer_part_length s p : integer_part s = Some p -> (String.length p.2 <= String.length s)%nat.
Proof. unfold integer_part. intros. repeat case_match; simplify_eq; cbn [snd]; parts; lia. Qed.

Lemma fraction_part_length s p : fraction_part s = Some p -> (String.length p.2 <= String.length s)%nat.
Proof. unfold fraction_part. intros. repeat case_match; simplify_eq; cbn [snd]; parts; lia. Qed.

Lemma exponent_part_length s p : exponent_part s = Some p -> (String.length p.2 <= String.length s)%nat.
Proof. unfold exponent_part. intros. repeat case_match; simplify_eq; cbn [snd]; parts; lia. Qed.

Lemma json_number_shorter s : shorter s (json_number s) /\ json_number s <> NoFuel.
Proof.
  unfold json_number.
  assert (Hs : (String.length (match strip_char "-" s with Some r => ("-", r) | None => (EmptyString, s) end).2
                <= String.length s)%nat) by (case_match; cbn [snd]; parts; lia).
  destruct (match strip_char "-" s with Some r => _ | None => _ end) as [sign s']. cbn [snd] in Hs.
  destruct (integer_part s') as [p1|] eqn:E1; cbn [mbind option_bind]; [|split; done]. destruct p1 as [i s1]. cbn [mbind option_bind].
  destruct (fraction_part s1) as [p2|] eqn:E2; cbn [mbind option_bind]; [|split; done]. destruct p2 as [f s2]. cbn [mbind option_bind].
  destruct (exponent_part s2) as [p3|] eqn:E3; cbn [mbind option_bind]; [|split; done]. destruct p3 as [e s3].
  apply integer_part_length in E1. apply fraction_part_length in E2. apply exponent_part_length in E3.
  cbn [snd] in *. split; [|done]. cbn. lia.
Qed.

Lemma json_string_shorter s : shorter s (json_string s) /\ json_string s <> NoFuel.
Proof.
  remember (String.length s) as n eqn:En. assert (Hn : (String.length s <= n)%nat) by lia. clear En. revert s Hn.
  induction n as [|n IH]; intros [|c s] Hn; cbn in Hn; try (split; done); try lia. cbn [json_string].
  assert (Hstep : forall s' x, (String.length s' <= String.length s)%nat ->
    shorter (String c s) (and_then (json_string s') (fun t r => Read (String x t) r)) /\
    and_then (json_string s') (fun t r => Read (String x t) r) <> NoFuel).
  { intros s' x Hl. destruct (IH s') as [H1 H2]; [lia|]. destruct (json_string s'); cbn in *; [|split; done|done].
    split; [lia|done]. }
  destruct (Ascii.eqb c quote); [cbn; split; [lia|done]|]. destruct (code c <? 32)%N; [split; done|].
  destruct (Ascii.eqb c "\"); [|by apply Hstep].
  repeat case_match; try (split; done); apply Hstep; cbn; lia.
Qed.

Lemma literal_shorter w v s : shorter s (literal w v s) /\ literal w v s <> NoFuel.
Proof. unfold literal. destruct (startsWith s w); [|split; done]. split; [apply drop_str_length|done]. Qed.

Lemma shorter_and_then {A B} s (p : parsed A) (f : A -> string -> parsed B) :
  shorter s p -> (forall a r, p = Read a r -> (String.length r <= String.length s)%nat -> shorter s (f a r)) ->
  shorter s (and_then p f).
Proof. destruct p; cbn; auto. Qed.

Lemma shorter_expect {A} c s (f : string -> parsed A) :
  (forall r, (String.length r < String.length s)%nat -> shorter s (f r)) -> shorter s (expect c s f).
Proof.
  intros Hf. unfold expect. destruct (strip_char c (skip_ws s)) as [r|] eqn:E; [|done].
  apply Hf. apply strip_char_length in E. pose proof (skip_ws_length s). lia.
Qed.

Lemma shorter_le {A} s s' (p : parsed A) :
  (String.length s' <= String.length s)%nat -> shorter s' p -> shorter s p.
Proof. destruct p; cbn; [lia|done..]. Qed.

Lemma value_shorter fuel :
  (forall s, shorter s (value fuel s)) /\ (forall s, shorter s (elements fuel s)) /\
  (forall s acc, shorter s (members fuel s acc)).
Proof.
  induction fuel as [|fuel (IHv & IHe & IHm)]; [done|]. split; [|split].
  - intros s. cbn [value]. pose proof (skip_ws_length s) as Hs. destruct (skip_ws s) as [|c r]; [done|].
    cbn in Hs. pose proof (skip_ws_length r).
    repeat match goal with |- context [if Ascii.eqb c ?d then _ else _] => destruct (Ascii.eqb c d) end.
    + destruct (strip_char "}" (skip_ws r)) as [t|] eqn:E; [cbn; parts; lia|].
      apply (shorter_le s r); [lia|]. by apply shorter_and_then.
    + destruct (strip_char "]" (skip_ws r)) as [t|] eqn:E; [cbn; parts; lia|].
      apply (shorter_le s r); [lia|]. by apply shorter_and_then.
    + apply (shorter_le s r); [lia|]. apply shorter_and_then; [apply json_string_shorter|done].
    + apply (shorter_le s (String c r)); [cbn; lia|]. apply literal_shorter.
    + apply (shorter_le s (String c r)); [cbn; lia|]. apply literal_shorter.
    + apply (shorter_le s (String c r)); [cbn; lia|]. apply literal_shorter.
    + apply (shorter_le s (String c r)); [cbn; lia|]. apply json_number_shorter.
  - intros s. cbn [elements]. apply shorter_and_then; [done|]. intros v rest _ Hr.
    pose proof (skip_ws_length rest). destruct (strip_char "," (skip_ws rest)) as [t|] eqn:E.
    + parts. apply (shorter_le s t); [lia|]. by apply shorter_and_then.
    + apply (shorter_le s rest); [lia|]. apply shorter_expect. intros t Ht. cbn. lia.
  - intros s acc. cbn [members]. apply shorter_expect. intros r Hr. apply (shorter_le s r); [lia|].
    apply shorter_and_then; [apply json_string_shorter|]. intros k s1 _ H1. apply (shorter_le r s1); [lia|].
    apply shorter_expect. intros s2 H2. apply (shorter_le s1 s2); [lia|]. apply shorter_and_then; [done|].
    intros v rest _ H3. pose proof (skip_ws_length rest). apply (shorter_le s2 rest); [lia|].
    destruct (strip_char "," (skip_ws rest)) as [t|] eqn:E.
    + parts. apply (shorter_le rest t); [lia|]. done.
    + apply shorter_expect. intros t Ht. cbn. lia.
Qed.

Lemma and_then_fuel {A B} (p : parsed A) (f : A -> string -> parsed B) :
  p <> NoFuel -> (forall a r, p = Read a r -> f a r <> NoFuel) -> and_then p f <> NoFuel.
Proof. destruct p; cbn; auto. Qed.

Lemma value_fuel fuel :
  (forall s, (2 * String.length s + 1 <= fuel)%nat -> value fuel s <> NoFuel) /\
  (forall s, (2 * String.length s + 2 <= fuel)%nat -> elements fuel s <> NoFuel) /\
  (forall s acc, (2 * String.length s + 2 <= fuel)%nat -> members fuel s acc <> NoFuel).
Proof.
  induction fuel as [|fuel (IHv & IHe & IHm)]; [repeat split; intros; lia|]. split; [|split].
  - intros s Hl. cbn [value]. pose proof (skip_ws_length s) as Hs. destruct (skip_ws s) as [|c r]; [done|].
    cbn in Hs.
    repeat match goal with |- context [if Ascii.eqb c ?d then _ else _] => destruct (Ascii.eqb c d) end.
    + destruct (strip_char _ _); [done|]. apply and_then_fuel; [|done]. apply IHm. lia.
    + destruct (strip_char _ _); [done|]. apply and_then_fuel; [|done]. apply IHe. lia.
    + apply and_then_fuel; [apply json_string_shorter|done].
    + apply literal_shorter.
    + apply literal_shorter.
    + apply literal_shorter.
    + apply json_number_shorter.
  - intros s Hl. cbn [elements]. apply and_then_fuel; [apply IHv; lia|]. intros v rest Hv.
    pose proof (proj1 (value_shorter fuel) s) as Hr. rewrite Hv in Hr. cbn in Hr. pose proof (skip_ws_length rest).
    destruct (strip_char "," (skip_ws rest)) as [t|] eqn:E.
    + parts. apply and_then_fuel; [apply IHe; lia|done].
    + unfold expect. destruct (strip_char "]" (skip_ws rest)); done.
  - intros s acc Hl. cbn [members]. unfold expect at 1. pose proof (skip_ws_length s).
    destruct (strip_char quote (skip_ws s)) as [r|] eqn:E; [|done]. parts.
    apply and_then_fuel; [apply json_string_shorter|]. intros k s1 Hk.
    pose proof (proj1 (json_string_shorter r)) as H1. rewrite Hk in H1. cbn in H1.
    unfold expect at 1. pose proof (skip_ws_length s1).
    destruct (strip_char ":" (skip_ws s1)) as [s2|] eqn:E2; [|done]. parts.
    apply and_then_fuel; [apply IHv; lia|]. intros v rest Hv.
    pose proof (proj1 (value_shorter fuel) s2) as Hr. rewrite Hv in Hr. cbn in Hr. pose proof (skip_ws_length rest).
    destruct (strip_char "," (skip_ws rest)) as [t|] eqn:E3.
    + parts. apply IHm. lia.
    + unfold expect. destruct (strip_char "}" (skip_ws rest)); done.
Qed.

Lemma json_parse_total s : value (2 * String.length s + 2) s <> NoFuel.
Proof. apply (proj1 (value_fuel _)). lia. Qed.
