(* ===== verification/Identity.v ===== *)
(** * Package identities (services/api/src/features/packages/identity.ts)

    Canonical ecosystems, names and versions, the keys built from them, and the
    parsing of package references. *)

From Stdlib Require Import Ascii.
From S2P Require Import Prelude JsString.
Local Open Scope string_scope.

Record PackageIdentityInput := {
  i_ecosystem : string; i_package : string; i_version : option string
}.

Record CanonicalPackageIdentity := {
  id_ecosystem : string; id_package : string; id_version : option string
}.

Definition canonicalizeEcosystem (ecosystem : string) : string := toLowerCase (trim ecosystem).

(** [s.replace(/[-_.]+/g, "-")] *)
Definition is_separator (c : ascii) : bool :=
  Ascii.eqb c "-" || Ascii.eqb c "_" || Ascii.eqb c ".".

Fixpoint collapse (in_run : bool) (s : string) : string :=
  match s with
  | EmptyString => EmptyString
  | String c s =>
      if is_separator c then if in_run then collapse true s else String "-" (collapse true s)
      else String c (collapse false s)
  end.

Definition canonicalizePackageName (ecosystem packageName : string) : string :=
  let trimmed := toLowerCase (trim packageName) in
  if String.eqb (canonicalizeEcosystem ecosystem) "pypi" then collapse false trimmed else trimmed.

Definition canonicalizePackageVersion (version : string) : string := trim version.

Definition canonicalizeOptionalPackageVersion (version : option string) : option string :=
  let canonicalVersion := canonicalizePackageVersion (default EmptyString version) in
  if String.eqb canonicalVersion EmptyString then None else Some canonicalVersion.

Definition canonicalizePackageIdentity (input : PackageIdentityInput) : CanonicalPackageIdentity :=
  let ecosystem := canonicalizeEcosystem (i_ecosystem input) in
  {| id_ecosystem := ecosystem;
     id_package := canonicalizePackageName ecosystem (i_package input);
     id_version := canonicalizeOptionalPackageVersion (i_version input) |}.

(** [s.slice(i, j)] for [i <= j] *)
Definition slice (s : string) (i j : nat) : string := take_str (j - i) (drop_str i s).

Definition parsePackageRef (packageRef : string) : option PackageIdentityInput :=
  match indexOf ":" packageRef with
  | None => None
  | Some firstSeparator =>
      let lastSeparator := default firstSeparator (lastIndexOf ":" packageRef) in
      let ecosystem := take_str firstSeparator packageRef in
      if Nat.eqb lastSeparator firstSeparator then
        Some {| i_ecosystem := ecosystem; i_package := drop_str (S firstSeparator) packageRef;
                i_version := None |}
      else
        Some {| i_ecosystem := ecosystem;
                i_package := slice packageRef (S firstSeparator) lastSeparator;
                i_version := Some (drop_str (S lastSeparator) packageRef) |}
  end.

Definition packageKey (ecosystem package : string) : string :=
  canonicalizeEcosystem ecosystem +:+ "|" +:+ canonicalizePackageName ecosystem package.

Definition packageVersionKey (packageId version : string) : string :=
  packageId +:+ "|" +:+ canonicalizePackageVersion version.

(** ** artifact-identity.ts: the pure part *)

Record PackageCatalogReference := {
  package_id : option string; package_version_id : option string
}.

Record ArtifactIdentityInput := {
  ai_input : PackageIdentityInput; ai_source : option string; ai_parser_version : option string
}.

Record RawArtifactIdentity := {
  raw_ecosystem : string; raw_package : string; raw_version : option string;
  raw_source : string; raw_parser_version : string
}.

Inductive ArtifactIdentityScope : Type := scope_package | scope_package_version.

Record ArtifactIdentity := {
  identity : CanonicalPackageIdentity; catalog : PackageCatalogReference;
  scope : ArtifactIdentityScope; canonical_ref : string; display_name : string;
  raw : RawArtifactIdentity
}.

Definition DEFAULT_ARTIFACT_IDENTITY_PARSER_VERSION := "artifact-identity-v1".

Definition buildArtifactCanonicalRef (identity : CanonicalPackageIdentity) : string :=
  match present (id_version identity) with
  | Some v => id_ecosystem identity +:+ ":" +:+ id_package identity +:+ ":" +:+ v
  | None => id_ecosystem identity +:+ ":" +:+ id_package identity
  end.

Definition buildArtifactDisplayName (identity : CanonicalPackageIdentity) : string :=
  match present (id_version identity) with
  | Some v => id_ecosystem identity +:+ ":" +:+ id_package identity +:+ "@" +:+ v
  | None => id_ecosystem identity +:+ ":" +:+ id_package identity
  end.

Definition buildRawArtifactIdentity (input : ArtifactIdentityInput) : RawArtifactIdentity :=
  {| raw_ecosystem := i_ecosystem (ai_input input); raw_package := i_package (ai_input input);
     raw_version := i_version (ai_input input);
     raw_source := default "unknown" (ai_source input);
     raw_parser_version := default DEFAULT_ARTIFACT_IDENTITY_PARSER_VERSION (ai_parser_version input) |}.

Definition buildArtifactIdentity (input : ArtifactIdentityInput)
    (catalogReference : PackageCatalogReference) : ArtifactIdentity :=
  let identity := canonicalizePackageIdentity (ai_input input) in
  {| identity := identity; catalog := catalogReference;
     scope := match present (id_version identity) with
              | Some _ => scope_package_version
              | None => scope_package
              end;
     canonical_ref := buildArtifactCanonicalRef identity;
     display_name := buildArtifactDisplayName identity;
     raw := buildRawArtifactIdentity input |}.

(** The parts of an identity an event is built from, and the reverse direction:
    a canonical identity read back as an input. *)
Definition to_input (c : CanonicalPackageIdentity) : PackageIdentityInput :=
  {| i_ecosystem := id_ecosystem c; i_package := id_package c; i_version := id_version c |}.

(** ** Lemmas *)

Lemma is_separator_lower c : is_separator (lower_char c) = is_separator c.
Proof. destruct c as [[] [] [] [] [] [] [] []]; reflexivity. Qed.

Lemma is_separator_not_ws c : is_separator c = true -> is_ws c = false /\ lower_char "-" = "-"%char.
Proof. destruct c as [[] [] [] [] [] [] [] []]; split; reflexivity || discriminate. Qed.

Lemma collapse_idem s :
  collapse false (collapse false s) = collapse false s /\
  collapse true (collapse true s) = collapse true s.
Proof.
  induction s as [|c s [IHf IHt]]; [done|]. cbn [collapse]. destruct (is_separator c) eqn:E.
  - cbn [collapse]. change (is_separator "-") with true. cbn. by rewrite IHt.
  - cbn [collapse]. by rewrite E, IHf.
Qed.

Lemma collapse_lower b s : toLowerCase (collapse b s) = collapse b (toLowerCase s).
Proof.
  revert b; induction s as [|c s IH]; intros b; [done|]. unfold toLowerCase in *. cbn [collapse map_string].
  rewrite is_separator_lower. destruct (is_separator c), b; cbn [map_string]; by rewrite IH.
Qed.

Lemma collapse_empty s : collapse false s = EmptyString -> s = EmptyString.
Proof. destruct s as [|c s]; [done|]. cbn. by destruct (is_separator c). Qed.

Lemma collapse_trimStart s : trimStart (collapse false s) = collapse false (trimStart s).
Proof.
  induction s as [|c s IH]; [done|]. cbn [collapse trimStart]. destruct (is_separator c) eqn:E.
  - destruct (is_separator_not_ws c E) as [-> _]. cbn [trimStart collapse].
    change (is_ws "-") with false. cbn. by rewrite E.
  - cbn [trimStart]. destruct (is_ws c); [done|]. cbn [collapse]. by rewrite E.
Qed.

Lemma trimEnd_solid c s : is_ws c = false -> trimEnd (String c s) = String c (trimEnd s).
Proof. intros H. cbn. rewrite H. by destruct (trimEnd s). Qed.

Lemma collapse_trimEnd b s : trimEnd (collapse b s) = collapse b (trimEnd s).
Proof.
  revert b; induction s as [|c s IH]; intros b; [done|].
  cbn [collapse]. destruct (is_separator c) eqn:E.
  - destruct (is_separator_not_ws c E) as [Hw _]. rewrite (trimEnd_solid c s Hw). cbn [collapse].
    rewrite E. destruct b; [apply IH|]. by rewrite trimEnd_solid, IH.
  - cbn [trimEnd]. rewrite IH. destruct (trimEnd s) as [|d t] eqn:Ht.
    + cbn. destruct (is_ws c); cbn; by rewrite ?E.
    + destruct (collapse false (String d t)) as [|d' t'] eqn:Hc; [by apply collapse_empty in Hc|].
      cbn [collapse]. rewrite E. f_equal. by symmetry.
Qed.

Lemma collapse_trim s : trim (collapse false s) = collapse false (trim s).
Proof. unfold trim. by rewrite collapse_trimStart, collapse_trimEnd. Qed.

Lemma canonicalizeEcosystem_idem e : canonicalizeEcosystem (canonicalizeEcosystem e) = canonicalizeEcosystem e.
Proof. unfold canonicalizeEcosystem. by rewrite trim_lower, trim_idem, toLowerCase_idem. Qed.

Lemma canonicalizePackageName_idem e p :
  canonicalizePackageName e (canonicalizePackageName e p) = canonicalizePackageName e p.
Proof.
  unfold canonicalizePackageName. destruct (String.eqb _ "pypi").
  - by rewrite collapse_trim, collapse_lower, trim_lower, trim_idem, toLowerCase_idem,
      (proj1 (collapse_idem _)).
  - by rewrite trim_lower, trim_idem, toLowerCase_idem.
Qed.

Lemma canonicalizePackageName_ecosystem e p :
  canonicalizePackageName (canonicalizeEcosystem e) p = canonicalizePackageName e p.
Proof. unfold canonicalizePackageName. by rewrite canonicalizeEcosystem_idem. Qed.

Lemma canonicalizeOptionalPackageVersion_some v w :
  canonicalizeOptionalPackageVersion v = Some w <->
  w <> EmptyString /\ w = trim (default EmptyString v).
Proof.
  unfold canonicalizeOptionalPackageVersion, canonicalizePackageVersion.
  destruct (String.eqb_spec (trim (default EmptyString v)) EmptyString); naive_solver.
Qed.

Lemma canonicalizeOptionalPackageVersion_idem v :
  canonicalizeOptionalPackageVersion (canonicalizeOptionalPackageVersion v)
  = canonicalizeOptionalPackageVersion v.
Proof.
  destruct (canonicalizeOptionalPackageVersion v) as [w|] eqn:E; [|done].
  apply canonicalizeOptionalPackageVersion_some in E as [Hne ->].
  apply canonicalizeOptionalPackageVersion_some. split; [done|]. symmetry. apply trim_idem.
Qed.

(** Three parts, the outer two without colons. *)
Lemma canonical_ref_parts e p v :
  no_char ":" e = true -> no_char ":" v = true ->
  parsePackageRef (e +:+ ":" +:+ p +:+ ":" +:+ v)
  = Some {| i_ecosystem := e; i_package := p; i_version := Some v |}.
Proof.
  unfold no_char. intros He Hl. do 2 (case_match; try done). unfold parsePackageRef.
  change (":" +:+ p +:+ ":" +:+ v) with (String ":" (p +:+ String ":" v)).
  rewrite indexOf_app by done.
  assert (Hlast : lastIndexOf ":" (e +:+ String ":" (p +:+ String ":" v))
                  = Some (String.length e + S (String.length p))).
  { change (String ":" (p +:+ String ":" v)) with (String ":" p +:+ String ":" v).
    rewrite <- app_assoc_str, lastIndexOf_app by done. by rewrite length_app_str. }
  rewrite Hlast. cbn [default from_option id].
  destruct (Nat.eqb_spec (String.length e + S (String.length p)) (String.length e)); [lia|].
  rewrite take_str_app. unfold slice. do 2 f_equal.
  - rewrite drop_str_S_app. replace (_ - _) with (String.length p) by lia. apply take_str_app.
  - replace (S (String.length e + S (String.length p)))
      with (S (String.length e) + S (String.length p)) by lia.
    by rewrite drop_str_plus, !drop_str_S_app.
Qed.

(** ** Properties *)

(** Canonicalisation is a normal form: canonicalising a canonical identity
    changes nothing, for every ecosystem, name and version, so two spellings of a
    package have one catalogue key; a canonical version is never empty. *)
Theorem canonicalize_idempotent input :
  let c := canonicalizePackageIdentity input in
  canonicalizePackageIdentity (to_input c) = c /\
  packageKey (id_ecosystem c) (id_package c) = packageKey (i_ecosystem input) (i_package input) /\
  id_version c <> Some EmptyString.
Proof.
  intros c. unfold c, canonicalizePackageIdentity, packageKey, to_input.
  cbn [i_ecosystem i_package i_version id_ecosystem id_package id_version].
  rewrite !canonicalizeEcosystem_idem, !canonicalizePackageName_ecosystem, canonicalizePackageName_idem,
    canonicalizeOptionalPackageVersion_idem.
  split; [done|]. split; [done|].
  intros [? _]%canonicalizeOptionalPackageVersion_some. done.
Qed.

(** References read back: parsing the canonical reference of an identity gives
    the identity, provided its ecosystem has no colon and its last part (the
    version if it has one, else the name) has none. *)
Theorem canonical_ref_roundtrip c :
  id_version c <> Some EmptyString ->
  no_char ":" (id_ecosystem c) = true ->
  no_char ":" (default (id_package c) (id_version c)) = true ->
  parsePackageRef (buildArtifactCanonicalRef c) = Some (to_input c).
Proof.
  destruct c as [e p [v|]]; cbn [id_version id_ecosystem id_package default from_option id]; intros Hv He Hl;
    unfold parsePackageRef, buildArtifactCanonicalRef, to_input; cbn [id_version id_ecosystem id_package].
  - assert (Hp : present (Some v) = Some v) by (apply present_some; naive_solver). rewrite Hp.
    by apply canonical_ref_parts.
  - unfold no_char in He, Hl. do 2 (case_match; try done).
    change (present None) with (@None string). cbv iota. change (":" +:+ p) with (String ":" p).
    rewrite indexOf_app by done.
    rewrite lastIndexOf_app by done. cbn [default from_option id]. rewrite Nat.eqb_refl, take_str_app.
    by rewrite drop_str_S_app.
Qed.

Lemma canonical_ref_roundtrip_witness :
  let c := canonicalizePackageIdentity
             {| i_ecosystem := " PyPI "; i_package := "Typing__Extensions"; i_version := Some "4.12.2 " |} in
  buildArtifactCanonicalRef c = "pypi:typing-extensions:4.12.2" /\
  parsePackageRef "pypi:typing-extensions:4.12.2" = Some (to_input c).
Proof.
  intros c. split; [reflexivity|].
  refine (canonical_ref_roundtrip c _ _ _); [discriminate|reflexivity|reflexivity].
Defined.

(** A digest version does not read back: the canonical reference of an image
    at digest sha256:<hex> parses to the name <name>:sha256 and the version <hex>. *)
Theorem digest_ref_misparsed e p hex :
  no_char ":" e = true -> no_char ":" hex = true ->
  parsePackageRef (buildArtifactCanonicalRef
    {| id_ecosystem := e; id_package := p; id_version := Some ("sha256:" +:+ hex) |})
  = Some {| i_ecosystem := e; i_package := p +:+ ":sha256"; i_version := Some hex |}.
Proof.
  intros He Hh. assert (Hr := canonical_ref_parts e (p +:+ ":sha256") hex He Hh).
  rewrite <- Hr. f_equal. unfold buildArtifactCanonicalRef. cbn [id_version id_ecosystem id_package].
  change (present (Some ("sha256:" +:+ hex))) with (Some ("sha256:" +:+ hex)). by rewrite !app_assoc_str.
Qed.

Lemma digest_ref_misparsed_witness :
  parsePackageRef "oci:library/nginx:sha256:deadbeef"
  = Some {| i_ecosystem := "oci"; i_package := "library/nginx:sha256"; i_version := Some "deadbeef" |}.
Proof. exact (digest_ref_misparsed "oci" "library/nginx" "deadbeef" eq_refl eq_refl). Defined.
