(* ===== verification/Expression.v ===== *)
(** * Policy expression engine (services/api/src/policy/expression.ts)

    [evaluateCondition] interprets a JSONB condition tree against a flat field
    map; [evaluateConditionWithTrace] does the same and returns a trace tree;
    [renderTemplate] substitutes fields into a message.  A condition is the raw
    JSON value the code receives, so malformed trees are part of the model: the
    [in] operator of the guards throws on a primitive. *)

From Stdlib Require Import Ascii.
From S2P Require Import Prelude JsString JsNum JsValue.

(** [Record<string, unknown>]: the own properties of the field object. *)
Definition fields_t : Type := list (string * jsval).

(** [fields[key]] *)
Definition field_get (fields : fields_t) (key : string) : jsval :=
  default (inherited key) (own key fields).

(** ** Leaf evaluation *)

Definition is_op (operator : jsval) (name : string) : bool := strict_eq operator (JStr name).

Definition evaluateLeaf (fieldValue operator conditionValue : jsval) : bool :=
  if is_op operator "exists" then negb (is_nullish fieldValue)
  else if is_op operator "not_exists" then is_nullish fieldValue
  else if is_op operator "is_true" then strict_eq fieldValue (JBool true)
  else if is_op operator "is_false" then strict_eq fieldValue (JBool false)
  else if is_nullish fieldValue then false
  else if is_op operator "eq" then loose_eq fieldValue conditionValue
  else if is_op operator "ne" then negb (loose_eq fieldValue conditionValue)
  else if is_op operator "gt" then js_gt fieldValue conditionValue
  else if is_op operator "gte" then js_ge fieldValue conditionValue
  else if is_op operator "lt" then js_lt fieldValue conditionValue
  else if is_op operator "lte" then js_le fieldValue conditionValue
  else if is_op operator "in" then
    match conditionValue with
    | JArr l => existsb (fun x => same_value_zero x fieldValue) l
    | _ => false
    end
  else if is_op operator "not_in" then
    match conditionValue with
    | JArr l => negb (existsb (fun x => same_value_zero x fieldValue) l)
    | _ => false
    end
  else
    match fieldValue with
    | JStr s =>
        let arg := to_str conditionValue in
        if is_op operator "contains" then includes s arg
        else if is_op operator "not_contains" then negb (includes s arg)
        else if is_op operator "starts_with" then startsWith s arg
        else if is_op operator "ends_with" then endsWith s arg
        else false
    | _ => false
    end.

(** ** Guards: the value under a key of an object node, if it has the key *)

Section node_key.
Context {B : Type} (key : string) (found : jsval -> B) (missing : B).

Fixpoint node_key (kvs : list (string * jsval)) : B :=
  match kvs with
  | [] => missing
  | (k, v) :: kvs => if String.eqb key k then found v else node_key kvs
  end.
End node_key.

Lemma node_key_own {B} key (found : jsval -> B) missing kvs :
  node_key key found missing kvs =
  match own key kvs with Some v => found v | None => missing end.
Proof. induction kvs as [|[k v] kvs IH]; cbn; [done|]. by destruct (String.eqb key k). Qed.

(** [isAll], [isAny], [isNot], [isLeaf] on an object node. *)
Definition isAll (kvs : list (string * jsval)) : option (list jsval) :=
  match own "all" kvs with Some (JArr l) => Some l | _ => None end.
Definition isAny (kvs : list (string * jsval)) : option (list jsval) :=
  match own "any" kvs with Some (JArr l) => Some l | _ => None end.
Definition isNot (kvs : list (string * jsval)) : option jsval := own "not" kvs.
Definition isLeaf (kvs : list (string * jsval)) : option (jsval * jsval) :=
  match own "field" kvs, own "operator" kvs with
  | Some f, Some o => Some (f, o)
  | _, _ => None
  end.

Definition leaf_value (kvs : list (string * jsval)) : jsval := default JUndef (own "value" kvs).

(** [fields[condition.field] ?? null] *)
Definition leaf_field (fields : fields_t) (f : jsval) : jsval :=
  nullish (field_get fields (to_str f)) JNull.

(** ** Evaluation *)

Fixpoint evaluate (fields : fields_t) (condition : jsval) {struct condition} : res bool :=
  match condition with
  | JObj kvs =>
      let leaf :=
        match isLeaf kvs with
        | Some (f, o) => Ok (evaluateLeaf (leaf_field fields f) o (leaf_value kvs))
        | None => Ok false
        end in
      let not_ := node_key "not"
        (fun v => let! b := evaluate fields v in Ok (negb b)) leaf kvs in
      let any := node_key "any"
        (fun v => match v with JArr l => some_res (evaluate fields) l | _ => not_ end) not_ kvs in
      node_key "all"
        (fun v => match v with JArr l => every_res (evaluate fields) l | _ => any end) any kvs
  | JArr _ | JFun _ => Ok false
  | _ => type_error
  end.

Definition evaluateCondition (condition : jsval) (fields : fields_t) : res bool :=
  evaluate fields condition.

(** ** Evaluation with a trace *)

Inductive trace : Type :=
| TGroup (node : string) (result : bool) (children : list trace)
| TLeaf (result : bool) (field operator value resolved : jsval)
| TMalformed.

Definition trace_result (t : trace) : bool :=
  match t with
  | TGroup _ r _ | TLeaf r _ _ _ _ => r
  | TMalformed => false
  end.

Fixpoint evaluateWithTrace (fields : fields_t) (condition : jsval) {struct condition}
  : res (bool * trace) :=
  let child c := snd <$> evaluateWithTrace fields c in
  match condition with
  | JObj kvs =>
      let leaf :=
        match isLeaf kvs with
        | Some (f, o) =>
            let resolved := leaf_field fields f in
            let result := evaluateLeaf resolved o (leaf_value kvs) in
            Ok (result, TLeaf result f o (leaf_value kvs) resolved)
        | None => Ok (false, TMalformed)
        end in
      let not_ := node_key "not"
        (fun v => let! inner := evaluateWithTrace fields v in
                  let result := negb inner.1 in
                  Ok (result, TGroup "not" result [inner.2])) leaf kvs in
      let any := node_key "any"
        (fun v => match v with
                  | JArr l =>
                      let! children := map_res child l in
                      let result := existsb trace_result children in
                      Ok (result, TGroup "any" result children)
                  | _ => not_
                  end) not_ kvs in
      node_key "all"
        (fun v => match v with
                  | JArr l =>
                      let! children := map_res child l in
                      let result := forallb trace_result children in
                      Ok (result, TGroup "all" result children)
                  | _ => any
                  end) any kvs
  | JArr _ | JFun _ => Ok (false, TMalformed)
  | _ => type_error
  end.

Definition evaluateConditionWithTrace (condition : jsval) (fields : fields_t)
  : res (bool * trace) := evaluateWithTrace fields condition.

(** ** Templates *)

(** The text of one placeholder's value. *)
Definition value_text (val : jsval) : string :=
  match val with
  | JUndef | JNull => "?"
  | JArr _ | JObj _ => default "undefined" (stringify val)
  | JStr s => s
  | JNum n =>
      if num_is_finite n && negb (num_is_integer n)
      then num_to_string (num_div (math_round (num_mul n (num_of_Z 100))) (num_of_Z 100))
      else num_to_string n
  | JBool b => to_str (JBool b)
  | JFun _ => "[value]"
  end.

(** The longest prefix without a closing brace, and the rest. *)
Fixpoint span_ref (s : string) : string * string :=
  match s with
  | EmptyString => (EmptyString, EmptyString)
  | String c s' =>
      if Ascii.eqb c "}"%char then (EmptyString, s)
      else let (a, b) := span_ref s' in (String c a, b)
  end.

(** The regular expression [\{\{([^}]+)\}\}] anchored at the start of [s]:
    the captured group and what follows the match. *)
Definition match_placeholder (s : string) : option (string * string) :=
  if startsWith s "{{" then
    let (ref, rest) := span_ref (drop_str 2 s) in
    if nonempty ref && startsWith rest "}}" then Some (ref, drop_str 2 rest) else None
  else None.

(** The global replacement scans left to right; every step consumes at least
    one character, so the length of the template is enough fuel. *)
Fixpoint render_go (fuel : nat) (fields : fields_t) (s : string) : string :=
  match fuel, s with
  | O, _ | _, EmptyString => EmptyString
  | S fuel, String c s' =>
      match match_placeholder s with
      | Some (ref, rest) =>
          value_text (field_get fields (trim ref)) +:+ render_go fuel fields rest
      | None => String c (render_go fuel fields s')
      end
  end.

Definition renderTemplate (template : string) (fields : fields_t) : string :=
  render_go (String.length template) fields template.

(** ** The evaluators' case analysis *)

Lemma evaluate_node fields kvs :
  evaluate fields (JObj kvs) =
  match isAll kvs, isAny kvs, isNot kvs, isLeaf kvs with
  | Some l, _, _, _ => every_res (evaluate fields) l
  | None, Some l, _, _ => some_res (evaluate fields) l
  | None, None, Some v, _ => let! b := evaluate fields v in Ok (negb b)
  | None, None, None, Some (f, o) =>
      Ok (evaluateLeaf (leaf_field fields f) o (leaf_value kvs))
  | None, None, None, None => Ok false
  end.
Proof.
  unfold isAll, isAny, isNot. cbn [evaluate]. rewrite !node_key_own.
  destruct (own "all" kvs) as [[]|], (own "any" kvs) as [[]|], (own "not" kvs); done.
Qed.

Lemma evaluateWithTrace_node fields kvs :
  evaluateWithTrace fields (JObj kvs) =
  match isAll kvs, isAny kvs, isNot kvs, isLeaf kvs with
  | Some l, _, _, _ =>
      let! ts := map_res (fun c => snd <$> evaluateWithTrace fields c) l in
      Ok (forallb trace_result ts, TGroup "all" (forallb trace_result ts) ts)
  | None, Some l, _, _ =>
      let! ts := map_res (fun c => snd <$> evaluateWithTrace fields c) l in
      Ok (existsb trace_result ts, TGroup "any" (existsb trace_result ts) ts)
  | None, None, Some v, _ =>
      let! inner := evaluateWithTrace fields v in
      Ok (negb inner.1, TGroup "not" (negb inner.1) [inner.2])
  | None, None, None, Some (f, o) =>
      let resolved := leaf_field fields f in
      let result := evaluateLeaf resolved o (leaf_value kvs) in
      Ok (result, TLeaf result f o (leaf_value kvs) resolved)
  | None, None, None, None => Ok (false, TMalformed)
  end.
Proof.
  unfold isAll, isAny, isNot. cbn [evaluateWithTrace]. rewrite !node_key_own.
  destruct (own "all" kvs) as [[]|], (own "any" kvs) as [[]|], (own "not" kvs); done.
Qed.

Lemma isAll_elem kvs l : isAll kvs = Some l -> ("all"%string, JArr l) ∈ kvs.
Proof. unfold isAll. intros H. apply own_elem_of. by case_all. Qed.

Lemma isAny_elem kvs l : isAny kvs = Some l -> ("any"%string, JArr l) ∈ kvs.
Proof. unfold isAny. intros H. apply own_elem_of. by case_all. Qed.

Lemma isNot_elem kvs v : isNot kvs = Some v -> ("not"%string, v) ∈ kvs.
Proof. apply own_elem_of. Qed.

#[export] Hint Resolve isAll_elem isAny_elem isNot_elem : depdb.

(** ** The grammar of conditions, as a reference semantics

    [denote] is what the grammar at the top of expression.ts promises: a leaf
    applies its operator, [all] is conjunction, [any] disjunction, [not]
    negation. *)

Inductive cond : Type :=
| CLeaf (field operator : string) (value : jsval)
| CAll (cs : list cond)
| CAny (cs : list cond)
| CNot (c : cond).

Section cond_induction.
Context (P : cond -> Prop)
  (P_leaf : forall f o v, P (CLeaf f o v))
  (P_all : forall cs, Forall P cs -> P (CAll cs))
  (P_any : forall cs, Forall P cs -> P (CAny cs))
  (P_not : forall c, P c -> P (CNot c)).

Fixpoint cond_nested_ind (c : cond) : P c.
Proof using P_leaf P_all P_any P_not.
  destruct c as [f o v|cs|cs|c].
  - apply P_leaf.
  - apply P_all. induction cs as [|c cs IH]; constructor; [apply cond_nested_ind|exact IH].
  - apply P_any. induction cs as [|c cs IH]; constructor; [apply cond_nested_ind|exact IH].
  - apply P_not, cond_nested_ind.
Qed.
End cond_induction.

Fixpoint encode (c : cond) : jsval :=
  match c with
  | CLeaf f o v => JObj [("field", JStr f); ("operator", JStr o); ("value", v)]
  | CAll cs => JObj [("all", JArr (map encode cs))]
  | CAny cs => JObj [("any", JArr (map encode cs))]
  | CNot c => JObj [("not", encode c)]
  end%string.

Fixpoint denote (fields : fields_t) (c : cond) : bool :=
  match c with
  | CLeaf f o v => evaluateLeaf (nullish (field_get fields f) JNull) (JStr o) v
  | CAll cs => forallb (denote fields) cs
  | CAny cs => existsb (denote fields) cs
  | CNot c => negb (denote fields c)
  end.

(** ** Auxiliary lemmas *)

(** The children of a group: what the trace of each child establishes for the
    short-circuiting scan. *)
Definition child_agrees (fields : fields_t) (c : jsval) : Prop :=
  forall r t, evaluateWithTrace fields c = Ok (r, t) -> evaluate fields c = Ok r /\ trace_result t = r.

Lemma child_result fields c t :
  child_agrees fields c -> snd <$> evaluateWithTrace fields c = Ok t ->
  evaluate fields c = Ok (trace_result t).
Proof.
  intros H ([b s] & Hx & ->)%res_fmap_ok. destruct (H _ _ Hx) as [He Hr]. cbn. by rewrite He, Hr.
Qed.

Lemma evaluateWithTrace_agrees fields c : child_agrees fields c.
Proof.
  induction c as [v Hv|kvs IHv IHl] using jsval_node_ind; intros r t H.
  - destruct v; try done; [cbn in H; by simplify_eq|by destruct (Hv kvs)|cbn in H; by simplify_eq].
  - rewrite evaluateWithTrace_node in H. rewrite evaluate_node.
    destruct (isAll kvs) as [l|] eqn:Ha; [|destruct (isAny kvs) as [l|] eqn:Hn;
      [|destruct (isNot kvs) as [v|] eqn:Hv; [|destruct (isLeaf kvs) as [[f o]|]; cbn in H; injection H as <- <-; done]]].
    + apply res_bind_ok in H as (ts & Hts & [= <- <-]). split; [|done].
      eapply every_res_map; [|exact Hts]. intros x y Hx.
      apply child_result, (IHl "all"%string l); auto with depdb.
    + apply res_bind_ok in H as (ts & Hts & [= <- <-]). split; [|done].
      eapply some_res_map; [|exact Hts]. intros x y Hx.
      apply child_result, (IHl "any"%string l); auto with depdb.
    + apply res_bind_ok in H as (x & H & [= <- <-]). destruct x as [b s]. destruct (IHv "not"%string v ltac:(eauto with depdb) _ _ H) as [-> _].
      done.
Qed.

Lemma map_res_children fields cs :
  Forall (fun c => exists t, evaluateWithTrace fields (encode c) = Ok (denote fields c, t)) cs ->
  exists ts, map_res (fun c => snd <$> evaluateWithTrace fields c) (map encode cs) = Ok ts
             /\ map trace_result ts = map (denote fields) cs.
Proof.
  induction 1 as [|c cs [t Ht] _ (ts & Hts & Hd)]; [by exists []|].
  exists (t :: ts). cbn. rewrite Ht. cbn. rewrite Hts. cbn. split; [done|]. rewrite Hd. f_equal.
  by apply evaluateWithTrace_agrees in Ht as [_ ->].
Qed.

Lemma forallb_map_eq {A B} (p : A -> bool) (q : B -> bool) l k :
  map p l = map q k -> forallb p l = forallb q k.
Proof. revert k; induction l as [|x l IH]; destruct k; cbn; intros; simplify_eq; [done|]. f_equal; auto. Qed.

Lemma existsb_map_eq {A B} (p : A -> bool) (q : B -> bool) l k :
  map p l = map q k -> existsb p l = existsb q k.
Proof. revert k; induction l as [|x l IH]; destruct k; cbn; intros; simplify_eq; [done|]. f_equal; auto. Qed.

Lemma evaluateWithTrace_encode fields c :
  exists t, evaluateWithTrace fields (encode c) = Ok (denote fields c, t).
Proof.
  induction c as [f o v|cs IH|cs IH|c [t IH]] using cond_nested_ind;
    cbn [encode]; rewrite evaluateWithTrace_node.
  - eexists; reflexivity.
  - destruct (map_res_children _ _ IH) as (ts & Hts & Hd).
    change (isAll _) with (Some (map encode cs)). cbv iota beta. rewrite Hts. cbn.
    rewrite (forallb_map_eq _ _ _ _ Hd). eauto.
  - destruct (map_res_children _ _ IH) as (ts & Hts & Hd).
    change (isAny _) with (Some (map encode cs)). change (isAll _) with (@None (list jsval)).
    cbv iota beta. rewrite Hts. cbn. rewrite (existsb_map_eq _ _ _ _ Hd). eauto.
  - change (isNot _) with (Some (encode c)). change (isAny _) with (@None (list jsval)).
    change (isAll _) with (@None (list jsval)). cbv iota beta. rewrite IH. cbn. eauto.
Qed.

Lemma evaluate_encode fields c : evaluateCondition (encode c) fields = Ok (denote fields c).
Proof. destruct (evaluateWithTrace_encode fields c) as [t Ht]. by apply evaluateWithTrace_agrees in Ht as [? _]. Qed.

Lemma leaf_nullish op cv fv :
  is_nullish fv = true -> evaluateLeaf fv op cv = is_op op "not_exists".
Proof.
  intros H. unfold evaluateLeaf. rewrite H.
  assert (Hb : forall b, strict_eq fv (JBool b) = false) by (by destruct fv).
  rewrite !Hb.
  destruct (is_op op "exists") eqn:E; cbn.
  - apply strict_eq_str in E as ->. done.
  - destruct (is_op op "not_exists"); [done|]. by repeat case_match.
Qed.

(** A string operand of an operator decides every operator test. *)
Ltac eval_op := unfold evaluateLeaf, is_op; cbn [strict_eq]; cbn -[loose_eq js_lt js_gt js_le js_ge existsb].

Definition is_number (v : jsval) : bool :=
  match v with JNum n => negb (is_nan n) | _ => false end.

Lemma js_order_number a b :
  is_number a = true -> is_number b = true ->
  js_le a b = negb (js_gt a b) /\ js_ge a b = negb (js_lt a b).
Proof.
  destruct a as [| | |x| | | |], b as [| | |y| | | |]; cbn; try done.
  rewrite !negb_true_iff. intros Hx Hy. unfold js_ge, js_le, js_gt, js_lt. cbn.
  by rewrite Hx, Hy.
Qed.

Lemma span_ref_app ref rest :
  no_char "}" ref = true -> span_ref (ref +:+ String "}" rest) = (ref, String "}" rest).
Proof.
  induction ref as [|d ref IH]; intros H; [done|].
  rewrite no_char_cons in H. apply andb_prop in H as [Hd H]. apply negb_true_iff in Hd.
  rewrite app_cons. cbn. rewrite Hd. by rewrite IH.
Qed.

Lemma match_placeholder_length s ref rest :
  match_placeholder s = Some (ref, rest) -> (String.length rest < String.length s)%nat.
Proof.
  assert (Hspan : forall t a b, span_ref t = (a, b) -> (String.length b <= String.length t)%nat).
  { induction t as [|c t IH]; cbn; intros a b H; [by simplify_eq|].
    destruct (Ascii.eqb c "}"); [by simplify_eq|].
    destruct (span_ref t) as [a' b'] eqn:E. simplify_eq. specialize (IH _ _ eq_refl). lia. }
  assert (Hdrop : forall n t, (String.length (drop_str n t) <= String.length t)%nat).
  { induction n as [|n IH]; destruct t as [|c t]; cbn; try done. specialize (IH t). lia. }
  unfold match_placeholder. destruct s as [|c s]; [done|].
  destruct (startsWith (String c s) "{{"); [|done].
  destruct (span_ref _) as [a b] eqn:E. destruct (nonempty a && startsWith b "}}") eqn:Hb; [|done].
  intros [= <- <-]. apply Hspan in E. apply andb_prop in Hb as [_ Hb].
  destruct b as [|d b]; [done|]. cbn [drop_str String.length] in *.
  specialize (Hdrop 1%nat b). specialize (Hdrop : _).
  assert ((String.length (drop_str 1 s) <= String.length s)%nat) by (destruct s; cbn; lia).
  cbn in *. destruct b; cbn in *; lia.
Qed.

(** More fuel than characters never changes the result. *)
Lemma render_go_fuel fields n m s :
  (String.length s <= n)%nat -> (String.length s <= m)%nat ->
  render_go n fields s = render_go m fields s.
Proof.
  revert m s; induction n as [|n IH]; intros m s Hn Hm.
  - destruct s; [by destruct m|cbn in Hn; lia].
  - destruct s as [|c s]; [by destruct m|]. destruct m as [|m]; [cbn in Hm; lia|].
    cbn -[match_placeholder]. destruct (match_placeholder _) as [[ref rest]|] eqn:E.
    + apply match_placeholder_length in E. f_equal. apply IH; cbn in *; lia.
    + f_equal. apply IH; cbn in *; lia.
Qed.

Lemma renderTemplate_cons fields c s :
  c <> "{"%char -> renderTemplate (String c s) fields = String c (renderTemplate s fields).
Proof.
  intros Hc. unfold renderTemplate. cbn [String.length render_go].
  assert (Hm : match_placeholder (String c s) = None).
  { unfold match_placeholder. cbn [startsWith].
    by rewrite (proj2 (Ascii.eqb_neq "{" c)) by congruence. }
  by rewrite Hm.
Qed.

Lemma renderTemplate_text fields text s :
  no_char "{" text = true ->
  renderTemplate (text +:+ s) fields = text +:+ renderTemplate s fields.
Proof.
  induction text as [|c text IH]; intros H; [done|].
  rewrite no_char_cons in H. apply andb_prop in H as [Hc H].
  rewrite app_cons, renderTemplate_cons, IH by
    (try done; intros ->; by rewrite Ascii.eqb_refl in Hc). done.
Qed.

Lemma renderTemplate_ref fields ref rest :
  no_char "}" ref = true -> nonempty ref = true ->
  renderTemplate ("{{" +:+ ref +:+ "}}" +:+ rest) fields
  = value_text (field_get fields (trim ref)) +:+ renderTemplate rest fields.
Proof.
  intros Hr Hn. unfold renderTemplate at 1.
  change ("{{" +:+ ref +:+ "}}" +:+ rest)
    with (String "{" (String "{" (ref +:+ String "}" (String "}" rest)))).
  set (s := String "{" _). assert (Hm : match_placeholder s = Some (ref, rest)).
  { unfold match_placeholder, s. cbn [startsWith drop_str]. rewrite !Ascii.eqb_refl. cbn [andb].
    rewrite span_ref_app by done. cbv beta iota. rewrite Hn. cbn [startsWith].
    rewrite !Ascii.eqb_refl. reflexivity. }
  assert (Hl := match_placeholder_length _ _ _ Hm).
  destruct (String.length s) as [|n] eqn:Hs; [lia|].
  unfold s at 1. cbn -[match_placeholder]. fold s. rewrite Hm. f_equal.
  unfold renderTemplate. apply render_go_fuel; lia.
Qed.

(** ** Properties *)

(** The trace evaluator used by the previews agrees with the evaluator that
    takes the decision: whenever the traced run returns, the plain run returns
    the same boolean, which is also the result recorded at the trace's root.
    The converse needs a well-formed tree, since the plain run stops early. *)
Theorem trace_agrees_with_decision condition fields r t :
  evaluateConditionWithTrace condition fields = Ok (r, t) ->
  evaluateCondition condition fields = Ok r /\ trace_result t = r.
Proof. apply evaluateWithTrace_agrees. Qed.

Lemma trace_agrees_with_decision_witness :
  let c := JObj [("any", JArr [JObj [("field", JStr "x"); ("operator", JStr "exists")];
                               JObj [("not", JObj [("all", JArr [])])]])]%string in
  evaluateCondition c [("x", JInt 1)]%string = Ok true /\
  exists t, evaluateConditionWithTrace c [("x", JInt 1)]%string = Ok (true, t).
Proof.
  intros c. destruct (evaluateConditionWithTrace c [("x", JInt 1)]%string) as [[r t]|] eqn:E;
    [|vm_compute in E; discriminate E].
  destruct (trace_agrees_with_decision _ _ _ _ E) as [H _].
  assert (Hr : r = true) by (vm_compute in E; congruence). subst r.
  split; [exact H|exists t; reflexivity].
Defined.

(** C32: on every tree of the documented grammar both evaluators return (no
    error, whatever the field map) and compute its boolean meaning: [all] is
    conjunction, [any] disjunction, [not] negation over the leaf operators. *)
Theorem grammar_semantics c fields :
  evaluateCondition (encode c) fields = Ok (denote fields c) /\
  exists t, evaluateConditionWithTrace (encode c) fields = Ok (denote fields c, t).
Proof.
  split; [apply evaluate_encode|]. destruct (evaluateWithTrace_encode fields c) as [t Ht]. by exists t.
Qed.

(** A field with no value (a failed connector, an unknown name) satisfies
    [not_exists] and nothing else: in particular the negative operators [ne],
    [not_in] and [not_contains] are false on it. *)
Theorem absent_field_satisfies_only_not_exists fieldValue operator conditionValue :
  is_nullish fieldValue = true ->
  (evaluateLeaf fieldValue operator conditionValue = true <-> operator = JStr "not_exists").
Proof. intros H. rewrite (leaf_nullish _ _ _ H). apply strict_eq_str. Qed.

Lemma absent_field_satisfies_only_not_exists_witness :
  evaluateLeaf JNull (JStr "ne") (JInt 3) <> true /\
  evaluateLeaf JNull (JStr "not_exists") JUndef = true.
Proof.
  split.
  - intros H. apply (absent_field_satisfies_only_not_exists JNull _ _ eq_refl) in H. discriminate H.
  - apply (absent_field_satisfies_only_not_exists JNull _ _ eq_refl). reflexivity.
Defined.

(** On a present field the negative operators are the complements of the
    positive ones: [ne] of [eq] for every pair of values, [not_in] of [in] for
    a list, [not_contains] of [contains] for a string field, and the strict
    orders of the reverse weak ones for numbers other than NaN. *)
Theorem operator_complements fieldValue v :
  is_nullish fieldValue = false ->
  evaluateLeaf fieldValue (JStr "ne") v = negb (evaluateLeaf fieldValue (JStr "eq") v) /\
  (forall l, v = JArr l ->
     evaluateLeaf fieldValue (JStr "not_in") v = negb (evaluateLeaf fieldValue (JStr "in") v)) /\
  (forall s, fieldValue = JStr s ->
     evaluateLeaf fieldValue (JStr "not_contains") v
     = negb (evaluateLeaf fieldValue (JStr "contains") v)) /\
  (is_number fieldValue = true -> is_number v = true ->
     evaluateLeaf fieldValue (JStr "lte") v = negb (evaluateLeaf fieldValue (JStr "gt") v) /\
     evaluateLeaf fieldValue (JStr "gte") v = negb (evaluateLeaf fieldValue (JStr "lt") v)).
Proof.
  intros H. eval_op. rewrite H. repeat split.
  - intros l ->. done.
  - intros s ->. done.
  - intros. by apply js_order_number.
  - intros. by apply js_order_number.
Qed.

Lemma operator_complements_witness :
  evaluateLeaf (JInt 3) (JStr "ne") (JStr "3") = negb (evaluateLeaf (JInt 3) (JStr "eq") (JStr "3")).
Proof. apply (operator_complements (JInt 3) (JStr "3") eq_refl). Defined.

(** Template rendering copies text and replaces a placeholder by its field's
    text, then continues after it: for literal text without an opening brace and
    a non-empty reference without a closing one. *)
Theorem renderTemplate_placeholder fields text ref rest :
  no_char "{" text = true -> no_char "}" ref = true -> nonempty ref = true ->
  renderTemplate (text +:+ "{{" +:+ ref +:+ "}}" +:+ rest) fields
  = text +:+ value_text (field_get fields (trim ref)) +:+ renderTemplate rest fields.
Proof. intros Ht Hr Hn. rewrite renderTemplate_text, renderTemplate_ref by done. done. Qed.

Lemma renderTemplate_placeholder_witness :
  renderTemplate "Package has {{ source.osv.critical_count }} critical CVEs"
    [("source.osv.critical_count", JInt 2)]%string
  = "Package has 2 critical CVEs"%string.
Proof.
  pose proof (renderTemplate_placeholder [("source.osv.critical_count", JInt 2)]%string
    "Package has " " source.osv.critical_count " " critical CVEs"
    eq_refl eq_refl eq_refl) as H.
  vm_compute in H. vm_compute. exact H.
Defined.
