(* ===== verification/Sql.v ===== *)
(** * The relational store

    The program keeps its state in PostgreSQL.  A table is the list of its rows
    in storage order; [WHERE] is a filter, an inner join pairs the rows that
    agree on the join condition.  What [ORDER BY] does with rows of equal key is
    left to the server, so it is an operation of the class [SqlOrder], about
    which only the documented behaviour is assumed: the result is a permutation
    of the rows, sorted by the key. *)

From S2P Require Import Prelude.
Local Open Scope Z_scope.

(** Timestamps are milliseconds since the epoch, as [Date.getTime] returns. *)
Definition timestamp : Type := Z.

(** [VALID_TO_INFINITY]: 9999-12-31T23:59:59.999Z. *)
Definition VALID_TO_INFINITY : timestamp := 253402300799999.

Class SqlOrder : Type := {
  order_by {A} (key : A -> Z) (rows : list A) : list A;
  order_by_perm {A} (key : A -> Z) (rows : list A) : order_by key rows ≡ₚ rows;
  order_by_sorted {A} (key : A -> Z) (rows : list A) :
    StronglySorted (fun a b => key a <= key b) (order_by key rows)
}.

(** One admissible server: ties in storage order. *)
#[export] Instance storage_order : SqlOrder.
Proof.
  refine {| order_by := fun A key rows => js_sort (fun a b => key a <=? key b) rows |}.
  - intros A key rows. apply js_sort_perm.
  - intros A key rows.
    assert (H : StronglySorted (fun a b => (key a <=? key b) = true)
                  (js_sort (fun a b => key a <=? key b) rows)).
    { apply js_sort_sorted; intros; rewrite ?Z.leb_le in *; lia. }
    induction H as [|x l _ IH Hx]; constructor; [done|].
    eapply Forall_impl; [exact Hx|]. intros y Hy. by apply Z.leb_le.
Defined.

Lemma order_by_elem_of `{SqlOrder} {A} (key : A -> Z) rows x :
  x ∈ order_by key rows <-> x ∈ rows.
Proof. by rewrite order_by_perm. Qed.

(** [SELECT ... FROM a INNER JOIN b ON on WHERE ...] *)
Definition inner_join {A B} (on : A -> B -> bool) (a : list A) (b : list B) : list (A * B) :=
  x ← a; y ← List.filter (on x) b; [(x, y)].

Lemma inner_join_elem_of {A B} (on : A -> B -> bool) a b x y :
  (x, y) ∈ inner_join on a b <-> x ∈ a /\ y ∈ b /\ on x y = true.
Proof.
  unfold inner_join. rewrite list_elem_of_bind. split.
  - intros (x' & Hb & Hx). apply list_elem_of_bind in Hb as (y' & He & Hy).
    apply list_elem_of_singleton in He. simplify_eq.
    by apply elem_of_filter_b in Hy as [? ?].
  - intros (Hx & Hy & Ho). exists x. split; [|done]. apply list_elem_of_bind.
    exists y. split; [set_solver|]. by apply elem_of_filter_b.
Qed.

(** Rows added that the condition leaves out. *)
Lemma inner_join_app {A B} (on : A -> B -> bool) (q : A * B -> bool) a a' b b' :
  (forall x y, x ∈ a' -> q (x, y) = false) -> (forall x y, y ∈ b' -> q (x, y) = false) ->
  List.filter q (inner_join on (a ++ a') (b ++ b')) = List.filter q (inner_join on a b).
Proof.
  intros Ha Hb.
  assert (Hcons : forall x l b, inner_join on (x :: l) b = map (pair x) (List.filter (on x) b) ++ inner_join on l b).
  { intros x l b0. unfold inner_join. cbn. by f_equal. }
  assert (Hnil : forall x ys, (forall y, y ∈ ys -> q (x, y) = false) -> List.filter q (map (pair x) ys) = []).
  { intros x ys Hq. apply filter_b_nil. apply existsb_none. intros r (y & -> & Hy)%list_elem_of_fmap. by apply Hq. }
  induction a as [|x a IH]; cbn [app].
  - replace (inner_join on [] b) with (@nil (A * B)) by done. cbn. induction a' as [|x a' IH]; [done|].
    rewrite Hcons, List.filter_app, IH, app_nil_r by (intros; apply Ha; by apply list_elem_of_further).
    apply Hnil. intros y _. apply Ha. apply list_elem_of_here.
  - rewrite !Hcons, !List.filter_app, IH, map_app, List.filter_app. f_equal.
    rewrite (Hnil x (List.filter (on x) b')), app_nil_r; [done|]. intros y [Hy _]%elem_of_filter_b. by apply Hb.
Qed.

(** [lte(effective_from, t)] and [gt(effective_to, t)]: the row's validity
    window contains [t]. *)
Definition effective_at (from to t : timestamp) : bool := (from <=? t) && (t <? to).

Lemma effective_at_spec from to t : effective_at from to t = true <-> from <= t < to.
Proof. unfold effective_at. rewrite andb_true_iff, Z.leb_le, Z.ltb_lt. done. Qed.

(** [eq(column, value)] on text columns; a null column is never equal. *)
Definition opt_eq (column : option string) (value : string) : bool :=
  match column with Some c => String.eqb c value | None => false end.

Lemma opt_eq_spec c v : opt_eq c v = true <-> c = Some v.
Proof. destruct c; cbn; [rewrite String.eqb_eq|]; split; congruence. Qed.

(** Grouping of rows under a string key: [Map<string, Row[]>] built by pushes. *)
Definition group_push {R} (key : R -> string) (m : gmap string (list R)) (row : R)
  : gmap string (list R) :=
  <[key row := default [] (m !! key row) ++ [row]]> m.

Definition group_by {R} (key : R -> string) (rows : list R) : gmap string (list R) :=
  foldl (group_push key) ∅ rows.

Lemma group_by_lookup {R} (key : R -> string) rows k :
  default [] (group_by key rows !! k) = List.filter (fun r => String.eqb (key r) k) rows.
Proof.
  unfold group_by.
  assert (H : forall m : gmap string (list R), default [] (foldl (group_push key) m rows !! k)
              = default [] (m !! k) ++ List.filter (fun r => String.eqb (key r) k) rows).
  { induction rows as [|r rows IH]; intros m; cbn [foldl List.filter].
    - by rewrite app_nil_r.
    - rewrite IH. unfold group_push. destruct (String.eqb_spec (key r) k) as [->|Hne].
      + rewrite lookup_insert_eq. cbn. by rewrite <- app_assoc.
      + by rewrite lookup_insert_ne. }
  rewrite H. by rewrite lookup_empty.
Qed.

(** [new Map(rows.map(r => [key(r), r]))]: the last row of a key wins. *)
Definition index_by {R} (key : R -> string) (rows : list R) : gmap string R :=
  foldl (fun m r => <[key r := r]> m) ∅ rows.

Lemma index_by_lookup {R} (key : R -> string) rows k r :
  index_by key rows !! k = Some r -> r ∈ rows /\ key r = k.
Proof.
  unfold index_by.
  assert (H : forall m : gmap string R, foldl (fun m r => <[key r := r]> m) m rows !! k = Some r ->
              m !! k = Some r \/ (r ∈ rows /\ key r = k)).
  { induction rows as [|x rows IH]; intros m; cbn; [by left|].
    intros Hl. apply IH in Hl as [Hl|[? ?]]; [|set_solver].
    destruct (decide (key x = k)) as [<-|Hne].
    - rewrite lookup_insert_eq in Hl. simplify_eq. set_solver.
    - rewrite lookup_insert_ne in Hl by done. by left. }
  intros Hl. apply H in Hl as [Hl|Hl]; [|done]. by rewrite lookup_empty in Hl.
Qed.

Lemma index_by_none {R} (key : R -> string) rows k :
  index_by key rows !! k = None <-> forall r, r ∈ rows -> key r <> k.
Proof.
  unfold index_by.
  assert (H : forall m : gmap string R, foldl (fun m r => <[key r := r]> m) m rows !! k = None <->
              m !! k = None /\ (forall r, r ∈ rows -> key r <> k)).
  { induction rows as [|x rows IH]; intros m; cbn; [set_solver|].
    rewrite IH. rewrite lookup_insert_None. set_solver. }
  rewrite H, lookup_empty. naive_solver.
Qed.

(** [INSERT ... ON CONFLICT ... DO UPDATE ... RETURNING]: the row in conflict with
    the new one is updated and returned, otherwise the new one is added. *)
Section upsert.
Context {R : Type} (conflict : R -> bool) (update : R -> R) (new : R).

Fixpoint upsert (rows : list R) : list R * R :=
  match rows with
  | [] => ([new], new)
  | r :: rows =>
      if conflict r then (update r :: rows, update r)
      else let '(rows', x) := upsert rows in (r :: rows', x)
  end.

Lemma upsert_in rows : (upsert rows).2 ∈ (upsert rows).1.
Proof.
  induction rows as [|r rows IH]; cbn; [apply list_elem_of_here|].
  destruct (conflict r); [apply list_elem_of_here|]. destruct (upsert rows). by apply list_elem_of_further.
Qed.

(** The row returned is the new one or an update of the one in conflict. *)
Lemma upsert_row rows :
  (upsert rows).2 = new /\ existsb conflict rows = false \/
  exists r, r ∈ rows /\ conflict r = true /\ (upsert rows).2 = update r.
Proof.
  induction rows as [|r rows IH]; cbn; [by left|]. destruct (conflict r) eqn:E.
  - right. exists r. split; [apply list_elem_of_here|done].
  - destruct (upsert rows) as [rows' x]. cbn in *. destruct IH as [[-> ->]|(r' & Hr & Hc & ->)]; [by left|].
    right. exists r'. split; [by apply list_elem_of_further|done].
Qed.

Lemma upsert_insert rows : existsb conflict rows = false -> upsert rows = (rows ++ [new], new).
Proof.
  induction rows as [|r rows IH]; [done|]. cbn. intros [-> H]%orb_false_iff. by rewrite IH.
Qed.

(** An update that changes nothing leaves the table as it is. *)
Lemma upsert_noop rows :
  (forall r, conflict r = true -> update r = r) -> existsb conflict rows = true ->
  (upsert rows).1 = rows /\ conflict (upsert rows).2 = true /\ (upsert rows).2 ∈ rows.
Proof.
  intros Hu. induction rows as [|r rows IH]; [done|]. cbn. destruct (conflict r) eqn:E; cbn.
  - intros _. rewrite Hu by done. split; [done|]. split; [done|apply list_elem_of_here].
  - intros H. destruct (upsert rows) as [rows' x]. cbn in *. destruct (IH H) as (-> & Hx & Hin).
    split; [done|]. split; [done|]. by apply list_elem_of_further.
Qed.

Lemma upsert_elem rows x :
  x ∈ (upsert rows).1 -> x = new \/ (exists r, r ∈ rows /\ conflict r = true /\ x = update r) \/ x ∈ rows.
Proof.
  induction rows as [|r rows IH]; cbn.
  - intros ->%list_elem_of_singleton. by left.
  - destruct (conflict r) eqn:E; cbn.
    + intros [->|Hx]%elem_of_cons; right; [left|right; by apply list_elem_of_further].
      exists r. split; [apply list_elem_of_here|done].
    + destruct (upsert rows) as [rows' y]. cbn in *. intros [->|Hx]%elem_of_cons.
      * right. right. apply list_elem_of_here.
      * destruct (IH Hx) as [->|[(r' & Hr & Hc & ->)|Hin]]; [by left| |].
        -- right. left. exists r'. split; [by apply list_elem_of_further|done].
        -- right. right. by apply list_elem_of_further.
Qed.

(** Rows of other keys stay, in the same order. *)
Lemma upsert_others (p : R -> bool) rows :
  (forall r, r ∈ rows -> conflict r = true -> p r = false) -> (forall r, p (update r) = false) -> p new = false ->
  List.filter p (upsert rows).1 = List.filter p rows.
Proof.
  intros Hc Hu Hn. induction rows as [|r rows IH]; cbn; [by rewrite Hn|].
  destruct (conflict r) eqn:E; cbn; [by rewrite Hu, Hc by (done || apply list_elem_of_here)|].
  assert (IH' := IH ltac:(intros; apply Hc; [by apply list_elem_of_further|done])).
  destruct (upsert rows) as [rows' x]. cbn in *. by rewrite IH'.
Qed.

(** A property an update does not create has no more rows after a write of a row
    without it; one that no row had has at most one. *)
Lemma upsert_filter_le (p : R -> bool) rows :
  (forall r, r ∈ rows -> conflict r = true -> p (update r) = true -> p r = true) -> p new = false ->
  (length (List.filter p (upsert rows).1) <= length (List.filter p rows))%nat.
Proof.
  intros Hu Hn. induction rows as [|r rows IH]; cbn; [by rewrite Hn|].
  assert (Hr := Hu r (list_elem_of_here _ _)).
  assert (IH' := IH ltac:(intros; apply Hu; [by apply list_elem_of_further|done..])).
  destruct (conflict r) eqn:E; cbn.
  - destruct (p (update r)); [rewrite (Hr eq_refl eq_refl); cbn; lia|destruct (p r); cbn; lia].
  - destruct (upsert rows) as [rows' x]. cbn in *. destruct (p r); cbn; lia.
Qed.

Lemma upsert_filter_one (p : R -> bool) rows :
  existsb p rows = false -> (length (List.filter p (upsert rows).1) <= 1)%nat.
Proof.
  induction rows as [|r rows IH]; cbn; [intros _; destruct (p new); cbn; lia|]. intros [Hr Hrows]%orb_false_iff.
  destruct (conflict r); cbn.
  - apply filter_b_nil in Hrows. rewrite Hrows. destruct (p (update r)); cbn; lia.
  - specialize (IH Hrows). destruct (upsert rows) as [rows' x]. cbn in *. rewrite Hr. done.
Qed.

(** With at most one row in conflict, the rows of the new row's key become the
    returned row alone. *)
Lemma upsert_same (p : R -> bool) rows :
  (forall r, r ∈ rows -> p r = conflict r) -> p new = true -> (forall r, conflict r = true -> p (update r) = true) ->
  (length (List.filter p rows) <= 1)%nat -> List.filter p (upsert rows).1 = [(upsert rows).2].
Proof.
  intros Hp Hn Hu. induction rows as [|r rows IH]; cbn; [by rewrite Hn|].
  assert (Hr : p r = conflict r) by apply Hp, list_elem_of_here.
  assert (IH' := IH ltac:(intros; by apply Hp, list_elem_of_further)). rewrite Hr.
  destruct (conflict r) eqn:E; cbn; rewrite ?Hu by done.
  - intros Hl. destruct (List.filter p rows) eqn:Ef; [|cbn in Hl; lia]. done.
  - intros Hl. specialize (IH' Hl). destruct (upsert rows) as [rows' x]. cbn in *. by rewrite Hr.
Qed.

(** The first row in conflict afterwards. *)
Lemma upsert_head rows :
  conflict new = true -> (forall r, conflict (update r) = true) ->
  head (List.filter conflict (upsert rows).1) =
  Some (match head (List.filter conflict rows) with Some r => update r | None => new end).
Proof.
  intros Hn Hu. induction rows as [|r rows IH]; cbn; [by rewrite Hn|]. destruct (conflict r) eqn:E; cbn; [by rewrite Hu|].
  destruct (upsert rows) as [rows' x]. cbn in *. by rewrite E.
Qed.
End upsert.

#[export] Hint Resolve order_by_perm order_by_sorted : depdb.

(** The same for a condition and an update about which less is known. *)
Lemma upsert_ext {R} (c1 c2 : R -> bool) u new rows :
  (forall r, r ∈ rows -> c1 r = c2 r) -> upsert c1 u new rows = upsert c2 u new rows.
Proof.
  induction rows as [|r rows IH]; [done|]. intros Hc. cbn. rewrite (Hc r) by apply list_elem_of_here.
  by rewrite IH by (intros; by apply Hc, list_elem_of_further).
Qed.

Lemma upsert_apart {R} (c q : R -> bool) u new rows :
  (forall r, c r = true -> q r = false /\ q (u r) = false) -> q new = false ->
  List.filter q (upsert c u new rows).1 = List.filter q rows.
Proof.
  intros Hc Hn. induction rows as [|r rows IH]; cbn; [by rewrite Hn|]. destruct (c r) eqn:E; cbn.
  - by destruct (Hc r E) as [-> ->].
  - destruct (upsert c u new rows) as [rows' x]. cbn in *. by rewrite IH.
Qed.

Lemma upsert_first {R} (c : R -> bool) u new rows :
  c new = true -> (forall r, c r = true -> c (u r) = true) ->
  head (List.filter c (upsert c u new rows).1) = Some (match head (List.filter c rows) with Some r => u r | None => new end).
Proof.
  intros Hn Hu. induction rows as [|r rows IH]; cbn; [by rewrite Hn|]. destruct (c r) eqn:E; cbn; [by rewrite Hu|].
  destruct (upsert c u new rows) as [rows' x]. cbn in *. by rewrite E.
Qed.

(** A write updates the first row in conflict, or adds a row. *)
Lemma upsert_split {R} (c : R -> bool) u new rows :
  (existsb c rows = false /\ upsert c u new rows = (rows ++ [new], new)) \/
  exists l r k, rows = l ++ r :: k /\ c r = true /\ existsb c l = false /\ upsert c u new rows = (l ++ u r :: k, u r).
Proof.
  induction rows as [|r rows IH]; [by left|]. cbn. destruct (c r) eqn:E; [right; by exists [], r, rows|]. cbn.
  destruct IH as [[Hn ->]|(l & r' & k & -> & Hr & Hl & ->)]; [by left|]. right. exists (r :: l), r', k. cbn. by rewrite E.
Qed.

(** [UPDATE ... SET f WHERE p] *)
Definition update_where {R} (p : R -> bool) (f : R -> R) (rows : list R) : list R :=
  map (fun r => if p r then f r else r) rows.

Lemma filter_update_where {R} (p q : R -> bool) (f : R -> R) l :
  (forall r, p (f r) = p r) -> List.filter p (update_where q f l) = update_where q f (List.filter p l).
Proof.
  intros Hp. unfold update_where. induction l as [|r l IH]; [done|]. cbn [map List.filter].
  assert (Hr : p (if q r then f r else r) = p r) by (destruct (q r); auto).
  rewrite Hr, IH. by destruct (p r).
Qed.

Lemma update_where_none {R} (q : R -> bool) (f : R -> R) l :
  (forall r, r ∈ l -> q r = false) -> update_where q f l = l.
Proof.
  intros Hq. induction l as [|r l IH]; [done|]. cbn. rewrite Hq by apply list_elem_of_here.
  unfold update_where in IH. rewrite IH; [done|]. intros r' Hr'. apply Hq. by apply list_elem_of_further.
Qed.

Lemma update_where_map {R T} (g : R -> T) (q : R -> bool) (f : R -> R) l :
  (forall r, g (f r) = g r) -> map g (update_where q f l) = map g l.
Proof.
  intros Hg. unfold update_where. rewrite map_map. apply map_ext. intros r. destruct (q r); [apply Hg|done].
Qed.

Lemma elem_of_update_where {R} (q : R -> bool) (f : R -> R) l r :
  r ∈ update_where q f l <-> exists r0, r0 ∈ l /\ r = if q r0 then f r0 else r0.
Proof. unfold update_where. rewrite list_elem_of_fmap. naive_solver. Qed.

Lemma update_where_filter_other {R} (p q : R -> bool) (f : R -> R) l :
  (forall r, r ∈ l -> q r = true -> p r = false /\ p (f r) = false) ->
  List.filter p (update_where q f l) = List.filter p l.
Proof.
  induction l as [|r l IH]; intros Hq; [done|]. unfold update_where in *. cbn [map List.filter].
  assert (Hl : forall r, r ∈ l -> q r = true -> p r = false /\ p (f r) = false).
  { intros r' Hr'. apply Hq. by apply list_elem_of_further. }
  rewrite IH by done. destruct (q r) eqn:E; [|done].
  destruct (Hq r (list_elem_of_here _ _) E) as [-> ->]. done.
Qed.

(** An update that keeps a property of the rows it meets. *)
Lemma filter_update_where_on {R} (p q : R -> bool) (f : R -> R) l :
  (forall r, r ∈ l -> q r = true -> p (f r) = p r) ->
  List.filter p (update_where q f l) = update_where q f (List.filter p l).
Proof.
  intros Hp. unfold update_where. induction l as [|r l IH]; [done|]. cbn [map List.filter].
  assert (Hr : p (if q r then f r else r) = p r).
  { destruct (q r) eqn:E; [apply Hp; [apply list_elem_of_here|done]|done]. }
  rewrite Hr, IH by (intros r' Hr'; apply Hp; by apply list_elem_of_further). by destruct (p r).
Qed.
