(* ===== verification/Effects.v ===== *)
(** * Effects of the handlers

    An asynchronous handler reads the clock, draws random identifiers, reads and
    writes tables and may throw.  Its effects are a state monad with errors over
    the tables [S] it works on: a thrown error keeps the writes made before it,
    as the program's awaits do, and only [transaction] rolls them back.

    [Date.now()], [new Date()], [randomUUID()] and the database's
    [gen_random_uuid()] are oracles indexed by the number of readings made so
    far; nothing is assumed of the clock, which may stand still or go back. *)

From stdpp Require Import pretty.
From S2P Require Import Prelude JsString Sql.

Create HintDb effdb discriminated.

Class Env : Type := { clock : nat -> timestamp; uuid : nat -> string }.

(** An example environment: the clock advances one second per reading, for a
    while, and identifiers are numerals. *)
Definition example_env : Env :=
  {| clock n := Z.min (Z.of_nat n * 1000) 1000000; uuid n := pretty n |}.

Lemma example_uuid_inj m n : @uuid example_env m = @uuid example_env n -> m = n.
Proof. apply (inj pretty). Qed.

Lemma pretty_go_nonempty x s : s <> EmptyString -> pretty_N_go x s <> EmptyString.
Proof.
  revert s. induction (N.lt_wf_0 x) as [x _ IH]. intros s Hs. destruct (decide (0 < x)%N) as [Hx|Hx].
  - rewrite pretty_N_go_step by done. apply IH; [by apply N.div_lt|done].
  - assert (x = 0%N) as -> by lia. by rewrite pretty_N_go_0.
Qed.

Lemma example_uuid_nonempty n : @uuid example_env n <> EmptyString.
Proof.
  cbn. unfold pretty, pretty_nat, pretty, pretty_N. destruct (decide (N.of_nat n = 0)%N); [done|].
  rewrite pretty_N_go_step by lia. by apply pretty_go_nonempty.
Qed.

(** Their characters are those of numerals. *)
Lemma pretty_go_plain c x s :
  (forall d, pretty_N_char d <> c) -> no_char c s = true -> no_char c (pretty_N_go x s) = true.
Proof.
  intros Hc. revert s. induction (N.lt_wf_0 x) as [x _ IH]. intros s Hs. destruct (decide (0 < x)%N) as [Hx|Hx].
  - rewrite pretty_N_go_step by done. apply IH; [by apply N.div_lt|]. rewrite no_char_cons, Hs, andb_true_r.
    by apply negb_true_iff, Ascii.eqb_neq.
  - assert (x = 0%N) as -> by lia. by rewrite pretty_N_go_0.
Qed.

Lemma example_uuid_no_char c n :
  (forall d, pretty_N_char d <> c) -> no_char c (@uuid example_env n) = true.
Proof.
  intros Hc. cbn. unfold pretty, pretty_nat, pretty, pretty_N. destruct (decide (N.of_nat n = 0)%N) as [|Hn].
  - rewrite no_char_cons, andb_true_r. apply negb_true_iff, Ascii.eqb_neq. exact (Hc 0%N).
  - by apply pretty_go_plain.
Qed.

Lemma example_uuid_other c s n : (forall d, pretty_N_char d <> c) -> no_char c s = false -> s <> @uuid example_env n.
Proof. intros Hc Hs ->. rewrite example_uuid_no_char in Hs by done. discriminate Hs. Qed.

Definition M (S A : Type) : Type := nat * S -> res A * (nat * S).

Section monad.
Context {S : Type}.

#[export] Instance eff_ret : MRet (M S) := fun A a s => (Ok a, s).
#[export] Instance eff_bind : MBind (M S) := fun A B f e s =>
  match e s with
  | (Ok a, s') => f a s'
  | (Throw m, s') => (Throw m, s')
  end.

Definition throw {A} (msg : string) : M S A := fun s => (Throw msg, s).
Definition of_res {A} (r : res A) : M S A := fun s => (r, s).

(** [select]: reads the tables. *)
Definition gets {A} (f : S -> A) : M S A := fun s => (Ok (f s.2), s).

(** [insert], [update]: changes the tables. *)
Definition modify (f : S -> S) : M S unit := fun s => (Ok tt, (s.1, f s.2)).

Definition now_ `{Env} : M S timestamp := fun s => (Ok (clock s.1), (Datatypes.S s.1, s.2)).
Definition fresh `{Env} : M S string := fun s => (Ok (uuid s.1), (Datatypes.S s.1, s.2)).

(** Any other oracle. *)
Definition draw {A} (oracle : nat -> A) : M S A := fun s => (Ok (oracle s.1), (Datatypes.S s.1, s.2)).

(** [try { e } catch (err) { handler(err) }] *)
Definition try_catch {A} (e : M S A) (handler : string -> M S A) : M S A := fun s =>
  match e s with
  | (Ok a, s') => (Ok a, s')
  | (Throw m, s') => handler m s'
  end.

(** A promise's settlement as a value. *)
Definition attempt {A} (e : M S A) : M S (res A) := fun s => let '(r, s') := e s in (Ok r, s').

(** [db.transaction(...)]: all or nothing; the oracles move on either way. *)
Definition transaction {A} (e : M S A) : M S A := fun s =>
  match e s with
  | (Ok a, s') => (Ok a, s')
  | (Throw m, s') => (Throw m, (s'.1, s.2))
  end.

Section loops.
Context {A B : Type} (f : A -> M S B).

Fixpoint mapM_ (l : list A) : M S (list B) :=
  match l with
  | [] => mret []
  | x :: l => b ← f x; bs ← mapM_ l; mret (b :: bs)
  end.
End loops.
End monad.

(** Running an operation on some of the tables. *)
Definition zoom {S T A} (get : S -> T) (set : T -> S -> S) (e : M T A) : M S A := fun s =>
  let '(r, t) := e (s.1, get s.2) in (r, (t.1, set t.2 s.2)).

(** ** Invariants

    [keeps I e]: running [e] keeps [I], whether it returns or throws.  An invariant
    may mention the number of readings made, which only grows. *)

Definition keeps {S A} (I : nat -> S -> Prop) (e : M S A) : Prop :=
  forall n s, I n s -> let '(_, (n', s')) := e (n, s) in (n <= n')%nat /\ I n' s'.

Definition monotone {S} (I : nat -> S -> Prop) : Prop := forall n m s, (n <= m)%nat -> I n s -> I m s.

Section keeps.
Context {S : Type} (I : nat -> S -> Prop) (Imono : monotone I).

Lemma keeps_ret {A} (a : A) : keeps I (mret a).
Proof. intros n s H. cbn. auto. Qed.

Lemma keeps_bind {A B} (e : M S A) (f : A -> M S B) :
  keeps I e -> (forall a, keeps I (f a)) -> keeps I (e ≫= f).
Proof.
  intros He Hf n s H. specialize (He n s H). unfold mbind, eff_bind.
  destruct (e (n, s)) as [[a|m] [n' s']]; [|done]. destruct He as [Hn He].
  specialize (Hf a n' s' He). destruct (f a (n', s')) as [r [n'' s'']]. destruct Hf. split; [lia|done].
Qed.

Lemma keeps_gets {A} (f : S -> A) : keeps I (gets f).
Proof. intros n s H. cbn. auto. Qed.

Lemma keeps_throw {A} m : keeps I (@throw S A m).
Proof. intros n s H. cbn. auto. Qed.

Lemma keeps_of_res {A} (r : res A) : keeps I (of_res r).
Proof. intros n s H. cbn. auto. Qed.

Lemma keeps_modify f : (forall n s, I n s -> I n (f s)) -> keeps I (modify f).
Proof. intros Hf n s H. cbn. auto. Qed.

Lemma keeps_now `{Env} : keeps I now_.
Proof using Imono. intros n s H'. cbn. split; [lia|]. by apply (Imono n); [lia|]. Qed.

Lemma keeps_fresh `{Env} : keeps I fresh.
Proof using Imono. intros n s H'. cbn. split; [lia|]. by apply (Imono n); [lia|]. Qed.

Lemma keeps_draw {A} (oracle : nat -> A) : keeps I (draw oracle).
Proof using Imono. intros n s H'. cbn. split; [lia|]. by apply (Imono n); [lia|]. Qed.

Lemma keeps_try {A} (e : M S A) h : keeps I e -> (forall m, keeps I (h m)) -> keeps I (try_catch e h).
Proof.
  intros He Hh n s H. specialize (He n s H). unfold try_catch.
  destruct (e (n, s)) as [[a|m] [n' s']]; [done|]. destruct He as [Hn He].
  specialize (Hh m n' s' He). destruct (h m (n', s')) as [r [n'' s'']]. destruct Hh. split; [lia|done].
Qed.

Lemma keeps_attempt {A} (e : M S A) : keeps I e -> keeps I (attempt e).
Proof. intros He n s H. specialize (He n s H). unfold attempt. by destruct (e (n, s)) as [r [n' s']]. Qed.

Lemma keeps_mapM {A B} (f : A -> M S B) l : (forall x, keeps I (f x)) -> keeps I (mapM_ f l).
Proof.
  intros Hf. induction l as [|x l IH]; [apply keeps_ret|]. cbn [mapM_]. apply keeps_bind; [auto|].
  intros b. apply keeps_bind; [auto|]. intros bs. apply keeps_ret.
Qed.

(** A transaction keeps what its successful runs keep. *)
Lemma keeps_transaction {A} (e : M S A) :
  (forall n s, (n <= (e (n, s)).2.1)%nat) ->
  (forall n s a n' s', I n s -> e (n, s) = (Ok a, (n', s')) -> I n' s') -> keeps I (transaction e).
Proof using Imono.
  intros Hn He n s H. unfold transaction. specialize (Hn n s). specialize (He n s).
  destruct (e (n, s)) as [[a|m] [n' s']]; cbn in *; split; eauto.
Qed.
End keeps.

Lemma keeps_zoom {S T A} (I : nat -> T -> Prop) (get : S -> T) (set : T -> S -> S) (e : M T A) :
  (forall t s, get (set t s) = t) -> keeps I e -> keeps (fun n s => I n (get s)) (zoom get set e).
Proof.
  intros Hg He n s H. specialize (He n (get s) H). unfold zoom. cbn [fst snd].
  destruct (e (n, get s)) as [r [n' t]]. cbn. by rewrite Hg.
Qed.

(** Oracles are only read: running an operation never takes a reading back. *)
Definition ticks {S A} (e : M S A) : Prop := keeps (fun _ _ => True) e.

Lemma ticks_spec {S A} (e : M S A) : ticks e <-> forall n s, (n <= (e (n, s)).2.1)%nat.
Proof.
  split.
  - intros Hk n s. specialize (Hk n s I). destruct (e (n, s)) as [r [n' s']]. cbn. by destruct Hk.
  - intros Hk n s _. specialize (Hk n s). destruct (e (n, s)) as [r [n' s']]. done.
Qed.

Lemma ticks_keeps {S A} (P : nat -> S -> Prop) (e : M S A) : keeps P e -> (forall n s, P n s) -> ticks e.
Proof. intros Hk Ha n s _. specialize (Hk n s (Ha n s)). destruct (e (n, s)) as [r [n' s']]. by destruct Hk. Qed.

Lemma ticks_transaction {S A} (e : M S A) : ticks e -> ticks (transaction e).
Proof.
  rewrite !ticks_spec. intros He n s. specialize (He n s). unfold transaction. by destruct (e (n, s)) as [[a|m] [n' s']].
Qed.

Lemma ticks_zoom {S T A} (get : S -> T) (set : T -> S -> S) (e : M T A) : ticks e -> ticks (zoom get set e).
Proof.
  rewrite !ticks_spec. intros He n s. specialize (He n (get s)). unfold zoom. cbn [fst snd].
  by destruct (e (n, get s)) as [r [n' t]].
Qed.

(** Combining invariants, and those of tables an operation does not work on. *)
Lemma keeps_and {S A} (I J : nat -> S -> Prop) (e : M S A) :
  keeps I e -> keeps J e -> keeps (fun n s => I n s /\ J n s) e.
Proof.
  intros HI HJ n s [Hi Hj]. specialize (HI n s Hi). specialize (HJ n s Hj).
  destruct (e (n, s)) as [r [n' s']]. naive_solver.
Qed.

Lemma keeps_exists {S A X} (I : X -> nat -> S -> Prop) (e : M S A) :
  (forall x, keeps (I x) e) -> keeps (fun n s => exists x, I x n s) e.
Proof.
  intros HI n s [x Hx]. specialize (HI x n s Hx). destruct (e (n, s)) as [r [n' s']]. naive_solver.
Qed.

Lemma keeps_zoom_other {S T A U} (P : U -> Prop) (f : S -> U) (get : S -> T) (set : T -> S -> S) (e : M T A) :
  (forall t s, f (set t s) = f s) -> ticks e -> keeps (fun _ s => P (f s)) (zoom get set e).
Proof.
  rewrite ticks_spec. intros Hf He n s Hp. specialize (He n (get s)). unfold zoom. cbn [fst snd].
  destruct (e (n, get s)) as [r [n' t]]. cbn in *. by rewrite Hf.
Qed.

Lemma keeps_rolled_back {S A} (I : nat -> S -> Prop) (e : M S A) :
  monotone I -> keeps I e -> keeps I (transaction e).
Proof.
  intros Hm He n s Hi. specialize (He n s Hi). unfold transaction.
  destruct (e (n, s)) as [[a|m] [n' s']]; cbn in *; [done|]. split; [apply He|]. apply (Hm n); [apply He|done].
Qed.

(** Walks through an operation, leaving the changes it makes. *)
Ltac keeps_step :=
  match goal with
  | |- keeps _ (_ ≫= _) => apply keeps_bind; [|intros ?]
  | |- keeps _ (mret _) => apply keeps_ret
  | |- keeps _ (gets _) => apply keeps_gets
  | |- keeps _ (throw _) => apply keeps_throw
  | |- keeps _ (of_res _) => apply keeps_of_res
  | |- keeps _ now_ => apply keeps_now; [intros ? ? ? ?; done]
  | |- keeps _ fresh => apply keeps_fresh; [intros ? ? ? ?; done]
  | |- keeps _ (draw _) => apply keeps_draw; [intros ? ? ? ?; done]
  | |- keeps _ (mapM_ _ _) => apply keeps_mapM; intros ?
  | |- keeps _ (if ?b then _ else _) => destruct b
  | |- keeps _ (match ?x with _ => _ end) => destruct x
  | |- keeps _ (modify _) => apply keeps_modify; intros ? ? ?
  end.
Ltac keeps_walk := repeat keeps_step.

(** Shows that an operation only ticks; [ticksdb] has the operations it calls. *)
Ltac ticks_step :=
  match goal with
  | |- ticks (transaction _) => apply ticks_transaction
  | |- ticks (zoom _ _ _) => apply ticks_zoom
  | |- ticks (attempt _) => apply keeps_attempt
  | |- ticks (try_catch _ _) => apply keeps_try; [|intros ?]
  | |- ticks (modify _) => apply keeps_modify; done
  | |- ticks now_ => apply keeps_now; done
  | |- ticks fresh => apply keeps_fresh; done
  | |- ticks (draw _) => apply keeps_draw; done
  | |- ticks (_ ≫= _) => apply keeps_bind; [|intros ?]
  | |- ticks (mret _) => apply keeps_ret
  | |- ticks (gets _) => apply keeps_gets
  | |- ticks (throw _) => apply keeps_throw
  | |- ticks (of_res _) => apply keeps_of_res
  | |- ticks (mapM_ _ _) => apply keeps_mapM; intros ?
  | |- ticks (if ?b then _ else _) => destruct b
  | |- ticks (match ?x with _ => _ end) => destruct x
  | |- ticks (let '_ := ?x in _) => destruct x
  | |- keeps (fun _ _ => True) ?e => change (ticks e)
  end.
Create HintDb ticksdb discriminated.
Ltac ticks_walk := repeat first [ticks_step | solve [eauto 2 with ticksdb nocore]].

(** ** Successful runs *)

Definition returns {S A} (e : M S A) (s : nat * S) (a : A) (s' : nat * S) : Prop := e s = (Ok a, s').

Lemma returns_keeps {S A} (I : nat -> S -> Prop) (e : M S A) s a s' :
  keeps I e -> returns e s a s' -> I s.1 s.2 -> (s.1 <= s'.1)%nat /\ I s'.1 s'.2.
Proof. intros Hk Hr Hi. destruct s as [n s]. specialize (Hk n s Hi). rewrite Hr in Hk. by destruct s'. Qed.

Lemma returns_bind {S A B} (e : M S A) (f : A -> M S B) s b s' :
  returns (e ≫= f) s b s' <-> exists a s1, returns e s a s1 /\ returns (f a) s1 b s'.
Proof.
  unfold returns, mbind, eff_bind. destruct (e s) as [[a|m] s1]; [|naive_solver].
  split; [eauto|]. intros (a' & s1' & [= <- <-] & H). exact H.
Qed.

Lemma returns_ret {S A} (a b : A) (s s' : nat * S) : returns (mret a) s b s' <-> b = a /\ s' = s.
Proof. unfold returns, mret, eff_ret. naive_solver. Qed.

Lemma returns_gets {S A} (f : S -> A) s b s' : returns (gets f) s b s' <-> b = f s.2 /\ s' = s.
Proof. unfold returns, gets. naive_solver. Qed.

Lemma returns_modify {S} (f : S -> S) s b s' : returns (modify f) s b s' <-> b = tt /\ s' = (s.1, f s.2).
Proof. unfold returns, modify. split; [naive_solver|]. intros [-> ->]. done. Qed.

Lemma returns_now {S} `{Env} (s : nat * S) b s' :
  returns now_ s b s' <-> b = clock s.1 /\ s' = (Datatypes.S s.1, s.2).
Proof. unfold returns, now_. split; [naive_solver|]. intros [-> ->]. done. Qed.

Lemma returns_fresh {S} `{Env} (s : nat * S) b s' :
  returns fresh s b s' <-> b = uuid s.1 /\ s' = (Datatypes.S s.1, s.2).
Proof. unfold returns, fresh. split; [naive_solver|]. intros [-> ->]. done. Qed.

Lemma returns_draw {S A} (oracle : nat -> A) (s : nat * S) b s' :
  returns (draw oracle) s b s' <-> b = oracle s.1 /\ s' = (Datatypes.S s.1, s.2).
Proof. unfold returns, draw. split; [naive_solver|]. intros [-> ->]. done. Qed.

Lemma returns_throw {S A} m (s : nat * S) (b : A) s' : returns (throw m) s b s' <-> False.
Proof. unfold returns, throw. naive_solver. Qed.

Lemma returns_of_res {S A} (r : res A) (s : nat * S) b s' : returns (of_res r) s b s' <-> r = Ok b /\ s' = s.
Proof. unfold returns, of_res. naive_solver. Qed.

Lemma returns_transaction {S A} (e : M S A) s b s' :
  returns (transaction e) s b s' <-> returns e s b s'.
Proof. unfold returns, transaction. destruct (e s) as [[a|m] s1]; naive_solver. Qed.

Lemma returns_attempt {S A} (e : M S A) s r s' : returns (attempt e) s r s' <-> e s = (r, s').
Proof. unfold returns, attempt. destruct (e s). naive_solver. Qed.

Lemma returns_zoom {S T A} (get : S -> T) (set : T -> S -> S) (e : M T A) s a s' :
  returns (zoom get set e) s a s' <->
  exists t, returns e (s.1, get s.2) a t /\ s' = (t.1, set t.2 s.2).
Proof.
  unfold returns, zoom. destruct (e (s.1, get s.2)) as [r t]. split.
  - intros [= -> <-]. by exists t.
  - intros (u & [= -> ->] & ->). done.
Qed.

Lemma returns_try {S A} (e : M S A) (h : string -> M S A) s a s' :
  returns (try_catch e h) s a s' -> returns e s a s' \/ exists m s1, e s = (Throw m, s1) /\ returns (h m) s1 a s'.
Proof. unfold returns, try_catch. destruct (e s) as [[x|m] s1]; [by left|]. intros Hr. right. by exists m, s1. Qed.

(** Running on after a step that returned, or threw. *)
Lemma bind_returns {S A B} (e : M S A) (f : A -> M S B) s a s' : returns e s a s' -> (e ≫= f) s = f a s'.
Proof. unfold returns, mbind, eff_bind. by intros ->. Qed.

Lemma bind_throws {S A B} (e : M S A) (f : A -> M S B) s m s' : e s = (Throw m, s') -> (e ≫= f) s = (Throw m, s').
Proof. unfold mbind, eff_bind. by intros ->. Qed.

Lemma transaction_throws {S A} (e : M S A) s m s' : e s = (Throw m, s') -> transaction e s = (Throw m, (s'.1, s.2)).
Proof. unfold transaction. by intros ->. Qed.

(** Inverts a successful run into its steps. *)
Ltac run_step :=
  match goal with
  | H : returns (_ ≫= _) _ _ _ |- _ => apply returns_bind in H as (? & ? & ? & ?)
  | H : returns (mret _) _ _ _ |- _ => apply returns_ret in H as [? ?]
  | H : returns (gets _) _ _ _ |- _ => apply returns_gets in H as [? ?]
  | H : returns (modify _) _ _ _ |- _ => apply returns_modify in H as [? ?]
  | H : returns now_ _ _ _ |- _ => apply returns_now in H as [? ?]
  | H : returns fresh _ _ _ |- _ => apply returns_fresh in H as [? ?]
  | H : returns (draw _) _ _ _ |- _ => apply returns_draw in H as [? ?]
  | H : returns (throw _) _ _ _ |- _ => apply returns_throw in H as []
  | H : returns (of_res _) _ _ _ |- _ => apply returns_of_res in H as [? ?]
  | H : returns (transaction _) _ _ _ |- _ => apply returns_transaction in H
  | H : returns (attempt _) _ _ _ |- _ => apply returns_attempt in H
  end.
Ltac run_inv := repeat (repeat run_step; progress simplify_eq/=); repeat run_step; simplify_eq/=.

(** Splits a successful run of a conditional, and of a match on an option. *)
Tactic Notation "run_if" ident(E) :=
  match goal with H : returns (if ?b then _ else _) _ _ _ |- _ => destruct b eqn:E end.

(** Loops: an invariant of the loop body holds of the loop. *)
Lemma returns_mapM {S A B} (f : A -> M S B) (I : list A -> list B -> nat * S -> Prop) l s bs s' :
  returns (mapM_ f l) s bs s' ->
  (forall done ys x y s s', I done ys s -> returns (f x) s y s' -> I (done ++ [x]) (ys ++ [y]) s') ->
  I [] [] s -> I l bs s'.
Proof.
  intros Hr Hstep Hs. assert (H : forall done ys bs, I done ys s -> returns (mapM_ f l) s bs s' -> I (done ++ l) (ys ++ bs) s').
  { clear Hs Hr. revert s. induction l as [|x l IH]; intros s done ys bs' Hi Hr; cbn [mapM_] in Hr; run_inv.
    - by rewrite !app_nil_r.
    - rewrite (cons_middle x), app_assoc. match goal with |- I _ (_ ++ ?y :: ?ys') _ =>
        rewrite (cons_middle y), app_assoc end. eapply IH; [|eassumption]. by eapply Hstep. }
  exact (H [] [] bs Hs Hr).
Qed.

Lemma mapM_map {S A B C} (f : B -> M S C) (g : A -> B) l : mapM_ (fun x => f (g x)) l = mapM_ f (map g l).
Proof. induction l as [|x l IH]; [done|]. cbn [mapM_ map]. by rewrite IH. Qed.

(** Progress: a loop returns when its body does in every state its invariant
    allows. *)
Lemma mapM_returns {S A B} (f : A -> M S B) (I : list A -> nat * S -> Prop) l s :
  (forall done x todo s, l = done ++ x :: todo -> I done s ->
     exists y s', returns (f x) s y s' /\ I (done ++ [x]) s') ->
  I [] s -> exists bs s', returns (mapM_ f l) s bs s' /\ I l s'.
Proof.
  intros Hstep Hs.
  assert (H : forall todo done s, l = done ++ todo -> I done s ->
    exists bs s', returns (mapM_ f todo) s bs s' /\ I l s').
  { induction todo as [|x todo IH]; intros dn s0 Hl Hi.
    - exists [], s0. split; [done|]. by rewrite Hl, app_nil_r.
    - destruct (Hstep dn x todo s0 Hl Hi) as (y & s1 & Hy & Hi').
      destruct (IH (dn ++ [x]) s1) as (bs & s2 & Hbs & Hl2); [by rewrite Hl, <- app_assoc|done|].
      exists (y :: bs), s2. split; [|done]. cbn [mapM_]. apply returns_bind. exists y, s1. split; [done|].
      apply returns_bind. exists bs, s2. split; done. }
  exact (H l [] s eq_refl Hs).
Qed.

(** Runs an operation whose effects are all reads, writes and readings. *)
Ltac run_forward :=
  unfold returns, mbind, eff_bind, gets, now_, fresh, modify, mret, eff_ret; cbn [fst snd]; reflexivity.

(** [INSERT] into a table with a unique index: [conflict new] tells the rows that
    have the key of a new one. *)
Definition insert_unique {S R} (get : S -> list R) (put : list R -> S -> S) (conflict : R -> R -> bool) (new : R)
  : M S unit :=
  taken ← gets (fun s => existsb (conflict new) (get s));
  if taken : bool then throw "unique_violation" else modify (fun s => put (get s ++ [new]) s).

Lemma insert_unique_run {S R} (get : S -> list R) put (conflict : R -> R -> bool) new n s :
  existsb (conflict new) (get s) = false ->
  returns (insert_unique get put conflict new) (n, s) tt (n, put (get s ++ [new]) s).
Proof. intros Hf. unfold returns, insert_unique, mbind, eff_bind, gets. cbn [fst snd]. by rewrite Hf. Qed.

Lemma insert_unique_cases {S R} (get : S -> list R) put (conflict : R -> R -> bool) new n s :
  insert_unique get put conflict new (n, s) =
  if existsb (conflict new) (get s) then (Throw "unique_violation"%string, (n, s)) else (Ok tt, (n, put (get s ++ [new]) s)).
Proof. unfold insert_unique, mbind, eff_bind, gets. cbn [fst snd]. by destruct (existsb _ _). Qed.

(** ** Inserting what is missing

    One row of [INSERT ... ON CONFLICT DO NOTHING RETURNING]: a row with a random
    identifier is added unless one is in conflict. *)
Section insert.
Context `{Env} {S R V : Type} (get : S -> list R) (put : list R -> S -> S).
Context (conflict : V -> R -> bool) (new : V -> string -> R).

Definition insert_or_nothing (v : V) : M S (option R) :=
  found ← gets (fun s => existsb (conflict v) (get s));
  if found : bool then mret None
  else
    id ← fresh;
    _ ← modify (fun s => put (get s ++ [new v id]) s);
    mret (Some (new v id)).

Hypothesis get_put : forall l s, get (put l s) = l.
Hypothesis put_put : forall l k s, put l (put k s) = put l s.
Hypothesis put_get : forall s, put (get s) s = s.
Hypothesis conflict_new : forall v id, conflict v (new v id) = true.
Hypothesis conflict_key : forall v w id r, conflict w (new v id) = true -> conflict w r = conflict v r.

Definition single_rows (l : list R) : Prop := forall v, (length (List.filter (conflict v) l) <= 1)%nat.

(** What a run of the loop adds. *)
Record inserted (vs : list V) (n n' : nat) (old news : list R) : Prop := {
  ins_le : (n <= n')%nat;
  ins_new r : r ∈ news -> exists v m, v ∈ vs /\ (n <= m < n')%nat /\ r = new v (uuid m) /\ existsb (conflict v) old = false;
  ins_found v : v ∈ vs -> existsb (conflict v) (old ++ news) = true;
  ins_single : single_rows old -> single_rows (old ++ news);
  ins_ids (key : R -> string) : (forall v id, key (new v id) = id) -> (forall m k, uuid m = uuid k -> m = k) ->
    (forall r, r ∈ old -> forall m, (n <= m)%nat -> uuid m <> key r) ->
    NoDup (map key old) -> NoDup (map key (old ++ news))
}.

Lemma existsb_insert v l x : existsb (conflict v) (l ++ [x]) = existsb (conflict v) l || conflict v x.
Proof. rewrite existsb_app. cbn. by rewrite orb_false_r. Qed.

Lemma single_insert v id l : existsb (conflict v) l = false -> single_rows l -> single_rows (l ++ [new v id]).
Proof using conflict_key.
  intros Hv Hl w. rewrite List.filter_app, length_app. cbn. destruct (conflict w (new v id)) eqn:E; cbn; [|specialize (Hl w); lia].
  assert (Hw : List.filter (conflict w) l = []).
  { rewrite (List.filter_ext _ (conflict v)) by (intros r; by eapply conflict_key). by apply filter_b_nil. }
  rewrite Hw. cbn. lia.
Qed.

Lemma insert_run v n s :
  insert_or_nothing v (n, s) =
  if existsb (conflict v) (get s) then (Ok None, (n, s))
  else (Ok (Some (new v (uuid n))), (Datatypes.S n, put (get s ++ [new v (uuid n)]) s)).
Proof.
  unfold insert_or_nothing, mbind, eff_bind, gets. cbn [fst snd]. by destruct (existsb _ _).
Qed.

Lemma insert_loop vs n s :
  exists outs news n', returns (mapM_ insert_or_nothing vs) (n, s) outs (n', put (get s ++ news) s) /\
    omap id outs = news /\ inserted vs n n' (get s) news.
Proof using All.
  revert n s. induction vs as [|v vs IH]; intros n s.
  - exists [], [], n. rewrite app_nil_r, put_get. split; [done|]. split; [done|].
    split; [lia|by intros ? ?%not_elem_of_nil..|by rewrite app_nil_r|by intros; rewrite app_nil_r].
  - destruct (existsb (conflict v) (get s)) eqn:E.
    + destruct (IH n s) as (outs & news & n' & Hr & Ho & Hi). exists (None :: outs), news, n'.
      split; [|split; [exact Ho|]].
      * cbn [mapM_]. apply returns_bind. exists None, (n, s). split; [unfold returns; by rewrite insert_run, E|].
        apply returns_bind; eexists _, _; split; [exact Hr|done].
      * destruct Hi as [H1 H2 H3 H4 H5]. split; [done| | |done|done].
        -- intros r (w & m & Hw & Hm)%H2. exists w, m. split; [by apply list_elem_of_further|done].
        -- intros w [->|Hw]%elem_of_cons; [|by apply H3]. rewrite existsb_app, E. done.
    + destruct (IH (Datatypes.S n) (put (get s ++ [new v (uuid n)]) s)) as (outs & news & n' & Hr & Ho & Hi).
      rewrite get_put, put_put, <- app_assoc in Hr. cbn [app] in Hr. rewrite get_put in Hi.
      exists (Some (new v (uuid n)) :: outs), (new v (uuid n) :: news), n'. split; [|split; [cbn; by rewrite <- Ho|]].
      * cbn [mapM_]. apply returns_bind. eexists (Some _), _. split; [unfold returns; by rewrite insert_run, E|].
        apply returns_bind; eexists _, _; split; [exact Hr|done].
      * destruct Hi as [H1 H2 H3 H4 H5]. rewrite <- app_assoc in H3, H4, H5. cbn [app] in H3, H4, H5. split; [lia| | | |].
        -- intros r [->|Hr0]%elem_of_cons.
           ++ exists v, n. split; [apply list_elem_of_here|]. split; [lia|done].
           ++ destruct (H2 r Hr0) as (w & m & Hw & Hm & -> & Hf). exists w, m. split; [by apply list_elem_of_further|].
              split; [lia|]. split; [done|]. rewrite existsb_insert in Hf. by apply orb_false_iff in Hf as [? _].
        -- intros w [->|Hw]%elem_of_cons; [|by apply H3].
           rewrite existsb_app. cbn. rewrite conflict_new. by rewrite orb_true_r.
        -- intros Hs. apply H4. by apply single_insert.
        -- intros key Hk Hinj Hfresh Hnd. apply H5; [done..| |].
           ++ intros r [Hr0|Hr0%list_elem_of_singleton]%elem_of_app m Hm; [apply Hfresh; [done|lia]|].
              rewrite Hr0, Hk. intros Heq%Hinj. lia.
           ++ rewrite map_app. apply NoDup_app. split; [done|]. split; [|apply NoDup_singleton].
              intros k Hin ->%list_elem_of_singleton. apply list_elem_of_fmap in Hin as (r & Heq & Hin).
              rewrite Hk in Heq. by apply (Hfresh r Hin n).
Qed.
End insert.
