(* ===== verification/Constants.v ===== *)
(** * Shared constants (services/shared/constants/index.js, connect/shared.ts)

    The string vocabularies of the database columns and the numeric codes of
    the gateway protocol. *)

From S2P Require Import Prelude.
Local Open Scope string_scope.

Module POLICY_SCOPE.
Definition GLOBAL := "global".
Definition PROJECT := "project".
End POLICY_SCOPE.

Module POLICY_STATUS.
Definition ACTIVE := "active".
Definition ARCHIVED := "archived".
End POLICY_STATUS.

Module ENFORCEMENT_MODE.
Definition ENFORCING := "enforcing".
Definition ADVISORY := "advisory".
Definition DISABLED := "disabled".
End ENFORCEMENT_MODE.

Module TENANT_KIND.
Definition PLATFORM := "platform".
Definition CUSTOMER := "customer".
End TENANT_KIND.

Definition TENANT_KINDS : list string := ["platform"; "customer"].

Module RULE_TARGET_ENTITY.
Definition ARTIFACT := "artifact".
End RULE_TARGET_ENTITY.

Definition TENANT_PROXY_SCOPE_ALL_TENANTS := "all_tenants".

Module DECISION.
Definition ALLOW := "allow".
Definition BLOCK := "block".
End DECISION.

Module SERVE_MODE.
Definition REDIRECT := "SERVE_MODE_REDIRECT".
Definition PULL := "SERVE_MODE_PULL".
End SERVE_MODE.

Module REQUEST_EVENT_SOURCE.
Definition PROXY := "proxy".
End REQUEST_EVENT_SOURCE.

Module REQUEST_EVENT_TYPE.
Definition ARTIFACT := "artifact".
Definition UPSTREAM_ERROR := "upstream_error".
End REQUEST_EVENT_TYPE.

Module DISPLAY_ROLE.
Definition PRIMARY := "primary".
End DISPLAY_ROLE.

Definition DECISION_PATHS : list string := ["cache_hit"; "check"; "control_plane_unavailable"; "bypass"].

Definition DECISION_ALLOW : Z := 1.
Definition DECISION_BLOCK : Z := 2.

(** The protocol's [ServeMode] enumeration. *)
Inductive ServeMode : Type := UNSPECIFIED | PULL_MODE | REDIRECT_MODE.

#[export] Instance ServeMode_eq_dec : EqDecision ServeMode.
Proof. solve_decision. Defined.

Definition serveModeToString (mode : ServeMode) : option string :=
  match mode with
  | REDIRECT_MODE => Some SERVE_MODE.REDIRECT
  | PULL_MODE => Some SERVE_MODE.PULL
  | UNSPECIFIED => None
  end.
