(* ===== verification/Effective.v ===== *)
(** * Effective policy (services/api/src/policy/effective.ts)

    [loadEffectivePolicy] resolves the rules that apply to a project: active
    global policies of the tenant, customised by the project's bindings, and the
    project's own policies, with their enabled rules after overrides. *)

From S2P Require Import Prelude JsString JsNum JsValue Sql Constants.
Local Open Scope Z_scope.

(** ** Rows (the columns the resolution reads) *)

Record policy_row := {
  p_id : string; p_policy_key : string; p_tenant_id : string;
  p_project_id : option string; p_name : string; p_scope : string;
  p_status : string; p_enforcement_mode : string; p_priority : Z;
  p_effective_from : timestamp; p_effective_to : timestamp
}.

Record project_binding_row := {
  b_id : string; b_policy_key : string; b_tenant_id : string; b_project_id : string;
  b_enabled : bool; b_inheritance_mode : string; b_severity_override : option string;
  b_threshold_overrides : jsval; b_rule_overrides : jsval;
  b_enforcement_mode_override : option string;
  b_effective_from : timestamp; b_effective_to : timestamp
}.

Record rule_binding_row := {
  rb_id : string; rb_policy_id : string; rb_rule_id : string;
  rb_enabled : bool; rb_order_index : Z
}.

Record rule_row := {
  r_id : string; r_rule_key : string; r_name : string; r_description : option string;
  r_target_entity : string; r_condition : jsval; r_action : jsval;
  r_effective_from : timestamp; r_effective_to : timestamp
}.

Record policy_db := {
  policies : list policy_row;
  policy_project_bindings : list project_binding_row;
  policy_rule_bindings : list rule_binding_row;
  rules : list rule_row
}.

(** ** The resolved snapshot *)

(** [source]: "global" | "project" | "assigned" *)
Inductive policy_source : Type := src_global | src_project | src_assigned.

Record ResolvedRule := {
  id : string; ruleKey : string; policyId : string; policyRuleBindingId : string;
  policyProjectBindingId : option string; policyName : string; name : string;
  description : option string; targetEntity : string; condition : jsval; action : jsval;
  effectiveEnforcementMode : jsval; orderIndex : Z; policyPriority : Z
}.

Record override_state := {
  o_inheritanceMode : string; o_severityOverride : option string;
  o_thresholdOverrides : jsval; o_ruleOverrides : jsval;
  o_enforcementModeOverride : option string
}.

Record SnapshotPolicy := {
  sp_id : string; sp_policyKey : string; sp_name : string; sp_scope : string;
  sp_enforcementMode : jsval; sp_priority : Z; sp_source : policy_source;
  sp_policyProjectBindingId : option string; sp_overrideState : option override_state;
  sp_rules : list ResolvedRule
}.

Record PolicySnapshot := {
  resolvedAt : timestamp; snap_tenantId : string; snap_projectId : string;
  snap_policies : list SnapshotPolicy; allRules : list ResolvedRule
}.

(** ** Helpers *)

(** An assignment may soften (enforcing to advisory) or disable, never harden. *)
Definition resolveEnforcementMode (base : jsval) (override : option string) : jsval :=
  match override with
  | None => base
  | Some o =>
      if negb (nonempty o) then base
      else if strict_eq base (JStr ENFORCEMENT_MODE.ENFORCING)
              && String.eqb o ENFORCEMENT_MODE.ADVISORY
      then JStr ENFORCEMENT_MODE.ADVISORY
      else if String.eqb o ENFORCEMENT_MODE.DISABLED then JStr ENFORCEMENT_MODE.DISABLED
      else base
  end.

(** [typeof v === "object"] for a truthy [v]. *)
Definition is_object (v : jsval) : bool :=
  match v with JObj _ | JArr _ => true | _ => false end.

(** [v?.[k]]: [undefined] when [v] is nullish. *)
Definition opt_prop (v : jsval) (k : string) : jsval :=
  match get_prop v k with Ok w => w | Throw _ => JUndef end.

Definition getRuleOverride (ruleOverrides : jsval) (key : string) : jsval :=
  if is_object ruleOverrides then
    let value := opt_prop ruleOverrides key in
    if is_object value then value else JNull
  else JNull.

(** The enumerable own properties a spread copies. *)
Definition index_props (l : list jsval) : list (string * jsval) :=
  imap (fun i v => (string_of_Z (Z.of_nat i), v)) l.

Fixpoint string_chars (s : string) : list jsval :=
  match s with
  | EmptyString => []
  | String c s => JStr (String c EmptyString) :: string_chars s
  end.

Definition own_props (v : jsval) : list (string * jsval) :=
  match v with
  | JObj kvs => kvs
  | JArr l => index_props l
  | JStr s => index_props (string_chars s)
  | _ => []
  end.

(** ** Selection of the policies *)

Definition project_policy_filter (tenantId projectId : string) (at_ : timestamp) (p : policy_row) : bool :=
  String.eqb (p_tenant_id p) tenantId && String.eqb (p_status p) POLICY_STATUS.ACTIVE
  && String.eqb (p_scope p) POLICY_SCOPE.PROJECT && opt_eq (p_project_id p) projectId
  && effective_at (p_effective_from p) (p_effective_to p) at_.

Definition global_policy_filter (tenantId : string) (at_ : timestamp) (p : policy_row) : bool :=
  String.eqb (p_tenant_id p) tenantId && String.eqb (p_status p) POLICY_STATUS.ACTIVE
  && String.eqb (p_scope p) POLICY_SCOPE.GLOBAL && bool_decide (p_project_id p = None)
  && effective_at (p_effective_from p) (p_effective_to p) at_.

Definition binding_filter (tenantId projectId : string) (at_ : timestamp) (b : project_binding_row) : bool :=
  String.eqb (b_tenant_id b) tenantId && String.eqb (b_project_id b) projectId
  && effective_at (b_effective_from b) (b_effective_to b) at_.

Definition binding_disables (b : project_binding_row) : bool :=
  negb (b_enabled b) || String.eqb (b_inheritance_mode b) "disabled".

Record effective_policy := {
  ep_policy : policy_row; ep_source : policy_source; ep_binding : option project_binding_row
}.

(** The [flatMap] over the global policies. *)
Definition inherit_global (bindings : gmap string project_binding_row) (p : policy_row)
  : list effective_policy :=
  match bindings !! p_policy_key p with
  | Some b =>
      if binding_disables b then []
      else [{| ep_policy := p; ep_source := src_assigned; ep_binding := Some b |}]
  | None => [{| ep_policy := p; ep_source := src_global; ep_binding := None |}]
  end.

Definition own_policy (p : policy_row) : effective_policy :=
  {| ep_policy := p; ep_source := src_project; ep_binding := None |}.

Definition priority_le (a b : effective_policy) : bool :=
  p_priority (ep_policy a) <=? p_priority (ep_policy b).

Definition effectivePolicies `{SqlOrder} (db : policy_db) (tenantId projectId : string)
    (at_ : timestamp) : list effective_policy :=
  let projectPolicyRows :=
    order_by p_priority (List.filter (project_policy_filter tenantId projectId at_) (policies db)) in
  let globalPolicyRows :=
    order_by p_priority (List.filter (global_policy_filter tenantId at_) (policies db)) in
  let bindingRows :=
    List.filter (binding_filter tenantId projectId at_) (policy_project_bindings db) in
  let bindingByPolicyKey := index_by b_policy_key bindingRows in
  js_sort priority_le
    ((globalPolicyRows ≫= inherit_global bindingByPolicyKey) ++ map own_policy projectPolicyRows).

(** ** Selection and resolution of the rules *)

Definition rule_filter (policyIds : list string) (at_ : timestamp)
    (row : rule_binding_row * rule_row) : bool :=
  existsb (String.eqb (rb_policy_id row.1)) policyIds && rb_enabled row.1
  && effective_at (r_effective_from row.2) (r_effective_to row.2) at_.

Definition bindingRuleRows `{SqlOrder} (db : policy_db) (policyIds : list string) (at_ : timestamp)
  : list (rule_binding_row * rule_row) :=
  order_by (fun row => rb_order_index row.1)
    (List.filter (rule_filter policyIds at_)
       (inner_join (fun rb r => String.eqb (rb_rule_id rb) (r_id r))
          (policy_rule_bindings db) (rules db))).

Definition rule_override (ep : effective_policy) (r : rule_row) : jsval :=
  getRuleOverride (from_option b_rule_overrides JUndef (ep_binding ep)) (r_rule_key r).

Definition resolved_condition (override : jsval) (r : rule_row) : jsval :=
  let c := opt_prop override "condition" in
  if strict_eq (opt_prop c "mode") (JStr "replace") then opt_prop c "value" else r_condition r.

Definition resolved_action (override : jsval) (r : rule_row) : jsval :=
  let a := opt_prop override "action" in
  if strict_eq (opt_prop a "mode") (JStr "merge")
  then JObj (spread (spread [] (own_props (r_action r))) (own_props (opt_prop a "value")))
  else r_action r.

Definition mode_override (ep : effective_policy) : option string :=
  ep_binding ep ≫= b_enforcement_mode_override.

(** The body of the rules' [flatMap]: no rule when the override disables it. *)
Definition resolve_rule (ep : effective_policy) (row : rule_binding_row * rule_row)
  : res (list ResolvedRule) :=
  let policy := ep_policy ep in
  let override := rule_override ep row.2 in
  if strict_eq (opt_prop override "enabled") (JBool false) then Ok []
  else
    let action := resolved_action override row.2 in
    let! action_mode := get_prop action "enforcement_mode" in
    Ok [{| id := r_id row.2; ruleKey := r_rule_key row.2;
           policyRuleBindingId := rb_id row.1;
           policyProjectBindingId := b_id <$> ep_binding ep;
           policyId := p_id policy; policyName := p_name policy;
           name := r_name row.2; description := r_description row.2;
           targetEntity := r_target_entity row.2;
           condition := resolved_condition override row.2;
           action := action;
           effectiveEnforcementMode :=
             resolveEnforcementMode (nullish action_mode (JStr (p_enforcement_mode policy)))
               (mode_override ep);
           orderIndex := rb_order_index row.1;
           policyPriority := p_priority policy |}].

Definition resolve_policy (rows : gmap string (list (rule_binding_row * rule_row)))
    (ep : effective_policy) : res SnapshotPolicy :=
  let policy := ep_policy ep in
  let policyRules := default [] (rows !! p_id policy) in
  let! resolved := map_res (resolve_rule ep) policyRules in
  Ok {| sp_id := p_id policy; sp_policyKey := p_policy_key policy; sp_name := p_name policy;
        sp_scope := p_scope policy;
        sp_enforcementMode :=
          resolveEnforcementMode (JStr (p_enforcement_mode policy)) (mode_override ep);
        sp_priority := p_priority policy; sp_source := ep_source ep;
        sp_policyProjectBindingId := b_id <$> ep_binding ep;
        sp_overrideState :=
          (fun b => {| o_inheritanceMode := b_inheritance_mode b;
                       o_severityOverride := b_severity_override b;
                       o_thresholdOverrides := b_threshold_overrides b;
                       o_ruleOverrides := b_rule_overrides b;
                       o_enforcementModeOverride := b_enforcement_mode_override b |})
            <$> ep_binding ep;
        sp_rules := concat resolved |}.

(** The flat list's comparator: priority first, then the rule's order index. *)
Definition rule_le (a b : ResolvedRule) : bool :=
  if policyPriority a =? policyPriority b then orderIndex a <=? orderIndex b
  else policyPriority a <=? policyPriority b.

Definition loadEffectivePolicy `{SqlOrder} (db : policy_db) (tenantId projectId : string)
    (resolvedAt : timestamp) : res PolicySnapshot :=
  let eps := effectivePolicies db tenantId projectId resolvedAt in
  let policyIds := map (fun ep => p_id (ep_policy ep)) eps in
  match policyIds with
  | [] => Ok {| resolvedAt := resolvedAt; snap_tenantId := tenantId; snap_projectId := projectId;
                snap_policies := []; allRules := [] |}
  | _ =>
      let rulesByPolicyId :=
        group_by (fun row => rb_policy_id row.1) (bindingRuleRows db policyIds resolvedAt) in
      let! resolvedPolicies := map_res (resolve_policy rulesByPolicyId) eps in
      Ok {| resolvedAt := resolvedAt; snap_tenantId := tenantId; snap_projectId := projectId;
            snap_policies := resolvedPolicies;
            allRules := js_sort rule_le (resolvedPolicies ≫= sp_rules) |}
  end.

(** ** Lemmas *)

Lemma rule_le_total a b : rule_le a b = true \/ rule_le b a = true.
Proof.
  unfold rule_le. rewrite (Z.eqb_sym (policyPriority b)).
  destruct (policyPriority a =? policyPriority b); rewrite !Z.leb_le; lia.
Qed.

Lemma rule_le_trans a b c : rule_le a b = true -> rule_le b c = true -> rule_le a c = true.
Proof.
  unfold rule_le.
  destruct (Z.eqb_spec (policyPriority a) (policyPriority b)),
    (Z.eqb_spec (policyPriority b) (policyPriority c)),
    (Z.eqb_spec (policyPriority a) (policyPriority c)); rewrite ?Z.leb_le; lia.
Qed.

(** The declarative reading of the selection: what makes a policy, with its
    binding, apply to a project at an instant. *)
Inductive applicable (db : policy_db) (tenantId projectId : string) (at_ : timestamp)
  : effective_policy -> Prop :=
| applies_project p :
    p ∈ policies db -> project_policy_filter tenantId projectId at_ p = true ->
    applicable db tenantId projectId at_ (own_policy p)
| applies_global p :
    p ∈ policies db -> global_policy_filter tenantId at_ p = true ->
    (forall b, b ∈ policy_project_bindings db -> binding_filter tenantId projectId at_ b = true ->
       b_policy_key b <> p_policy_key p) ->
    applicable db tenantId projectId at_
      {| ep_policy := p; ep_source := src_global; ep_binding := None |}
| applies_assigned p b :
    p ∈ policies db -> global_policy_filter tenantId at_ p = true ->
    b ∈ policy_project_bindings db -> binding_filter tenantId projectId at_ b = true ->
    b_policy_key b = p_policy_key p -> binding_disables b = false ->
    applicable db tenantId projectId at_
      {| ep_policy := p; ep_source := src_assigned; ep_binding := Some b |}.

(** At most one binding of a policy is current for the project, as the partial
    unique index on (tenant, project, policy key) has it. *)
Definition bindings_unique (db : policy_db) (tenantId projectId : string) (at_ : timestamp) : Prop :=
  forall b b', b ∈ policy_project_bindings db -> b' ∈ policy_project_bindings db ->
    binding_filter tenantId projectId at_ b = true ->
    binding_filter tenantId projectId at_ b' = true ->
    b_policy_key b = b_policy_key b' -> b = b'.

Section selection.
Context `{SqlOrder} (db : policy_db) (tenantId projectId : string) (at_ : timestamp).

Let bindings : gmap string project_binding_row :=
  index_by b_policy_key
    (List.filter (binding_filter tenantId projectId at_) (policy_project_bindings db)).

Lemma effectivePolicies_elem_of ep :
  ep ∈ effectivePolicies db tenantId projectId at_ <->
  (exists p, p ∈ policies db /\ global_policy_filter tenantId at_ p = true /\
             ep ∈ inherit_global bindings p) \/
  (exists p, p ∈ policies db /\ project_policy_filter tenantId projectId at_ p = true /\
             ep = own_policy p).
Proof using Type.
  unfold effectivePolicies. rewrite js_sort_elem_of, elem_of_app.
  apply Morphisms_Prop.or_iff_morphism.
  - rewrite list_elem_of_bind. split.
    + intros (p & Hep & Hp). rewrite order_by_elem_of, elem_of_filter_b in Hp.
      exists p. naive_solver.
    + intros (p & Hp & Hf & Hep). exists p. split; [done|].
      by rewrite order_by_elem_of, elem_of_filter_b.
  - rewrite list_elem_of_fmap. split.
    + intros (p & -> & Hp). rewrite order_by_elem_of, elem_of_filter_b in Hp. naive_solver.
    + intros (p & Hp & Hf & ->). exists p. split; [done|].
      by rewrite order_by_elem_of, elem_of_filter_b.
Qed.

Lemma binding_lookup b k :
  bindings !! k = Some b ->
  b ∈ policy_project_bindings db /\ binding_filter tenantId projectId at_ b = true /\
  b_policy_key b = k.
Proof using Type. intros Hl. apply index_by_lookup in Hl as [Hb ?]. rewrite elem_of_filter_b in Hb. naive_solver. Qed.

Lemma binding_lookup_unique b :
  bindings_unique db tenantId projectId at_ ->
  b ∈ policy_project_bindings db -> binding_filter tenantId projectId at_ b = true ->
  bindings !! b_policy_key b = Some b.
Proof using Type.
  intros Hu Hb Hf. destruct (bindings !! b_policy_key b) as [b'|] eqn:E.
  - f_equal. apply binding_lookup in E as (Hb' & Hf' & Hk). by apply Hu.
  - unfold bindings in E. rewrite index_by_none in E. destruct (E b); [|done].
    by apply elem_of_filter_b.
Qed.

Lemma effectivePolicies_applicable ep :
  bindings_unique db tenantId projectId at_ ->
  ep ∈ effectivePolicies db tenantId projectId at_ <-> applicable db tenantId projectId at_ ep.
Proof using Type.
  intros Hu. rewrite effectivePolicies_elem_of. split.
  - intros [(p & Hp & Hf & Hep)|(p & Hp & Hf & ->)]; [|by constructor].
    unfold inherit_global in Hep. destruct (bindings !! _) as [b|] eqn:E.
    + apply binding_lookup in E as (? & ? & ?). destruct (binding_disables b) eqn:Hd; [set_solver|].
      apply list_elem_of_singleton in Hep as ->. by econstructor.
    + apply list_elem_of_singleton in Hep as ->. constructor; [done..|].
      unfold bindings in E. rewrite index_by_none in E. intros b Hb Hbf. apply E.
      by apply elem_of_filter_b.
  - intros [p Hp Hf|p Hp Hf Hnone|p b Hp Hf Hb Hbf Hk Hd]; [right; eauto|left..];
      exists p; (split_and!; [done..|]); unfold inherit_global.
    + replace (bindings !! p_policy_key p) with (@None project_binding_row); [set_solver|].
      symmetry. apply index_by_none. intros b. rewrite elem_of_filter_b. naive_solver.
    + rewrite <- Hk, binding_lookup_unique by done. rewrite Hd. set_solver.
Qed.
End selection.

Lemma bindingRuleRows_elem_of `{SqlOrder} db policyIds at_ rb r :
  (rb, r) ∈ bindingRuleRows db policyIds at_ <->
  rb ∈ policy_rule_bindings db /\ r ∈ rules db /\ rb_rule_id rb = r_id r /\
  rb_policy_id rb ∈ policyIds /\ rb_enabled rb = true /\
  effective_at (r_effective_from r) (r_effective_to r) at_ = true.
Proof.
  unfold bindingRuleRows. rewrite order_by_elem_of, elem_of_filter_b, inner_join_elem_of.
  unfold rule_filter; cbn. rewrite !andb_true_iff, String.eqb_eq, existsb_elem_of.
  assert (Hm : (exists x, x ∈ policyIds /\ String.eqb (rb_policy_id rb) x = true)
               <-> rb_policy_id rb ∈ policyIds).
  { split; [intros (x & Hx & ->%String.eqb_eq); done|]. intros Hx. exists (rb_policy_id rb).
    by rewrite String.eqb_refl. }
  rewrite Hm. naive_solver.
Qed.

Lemma resolve_policy_rules rows ep sp r :
  resolve_policy rows ep = Ok sp ->
  r ∈ sp_rules sp <->
  exists row rs, row ∈ default [] (rows !! p_id (ep_policy ep)) /\
                 resolve_rule ep row = Ok rs /\ r ∈ rs.
Proof.
  intros (rs & Hrs & [= <-])%res_bind_ok. cbn. rewrite list_elem_of_In, in_concat.
  setoid_rewrite <- list_elem_of_In. setoid_rewrite (map_res_elem_of _ _ _ _ Hrs). naive_solver.
Qed.

Lemma resolve_rule_shape ep row rs r :
  resolve_rule ep row = Ok rs -> r ∈ rs -> rs = [r].
Proof.
  unfold resolve_rule. case_match; [intros [= <-]; set_solver|].
  intros (m & _ & [= <-])%res_bind_ok ->%list_elem_of_singleton. done.
Qed.

(** What a successful load returns, whatever the early exit. *)
Lemma loadEffectivePolicy_ok `{SqlOrder} db tenantId projectId at_ snap :
  loadEffectivePolicy db tenantId projectId at_ = Ok snap ->
  let eps := effectivePolicies db tenantId projectId at_ in
  let rows := group_by (fun row => rb_policy_id row.1)
                (bindingRuleRows db (map (fun ep => p_id (ep_policy ep)) eps) at_) in
  map_res (resolve_policy rows) eps = Ok (snap_policies snap) /\
  allRules snap = js_sort rule_le (snap_policies snap ≫= sp_rules).
Proof.
  unfold loadEffectivePolicy. intros Hl. destruct (effectivePolicies _ _ _ _) as [|ep eps] eqn:E.
  - cbn in Hl. by injection Hl as <-.
  - cbn [map] in Hl. apply res_bind_ok in Hl as (ps & Hps & [= <-]). done.
Qed.

Lemma rank_enforcing base override :
  strict_eq (resolveEnforcementMode base override) (JStr ENFORCEMENT_MODE.ENFORCING) = true ->
  base = JStr ENFORCEMENT_MODE.ENFORCING /\
  override <> Some ENFORCEMENT_MODE.ADVISORY /\ override <> Some ENFORCEMENT_MODE.DISABLED.
Proof.
  unfold resolveEnforcementMode. destruct override as [o|]; [|rewrite strict_eq_str; naive_solver].
  destruct (String.eqb_spec o EmptyString) as [->|Hn].
  { change (nonempty EmptyString) with false. cbn [negb]. rewrite strict_eq_str. naive_solver. }
  unfold nonempty. rewrite (proj2 (String.eqb_neq _ _) Hn). cbn [negb].
  destruct (strict_eq base _) eqn:Eb; cbn [andb].
  - apply strict_eq_str in Eb as ->. destruct (String.eqb_spec o ENFORCEMENT_MODE.ADVISORY); [done|].
    destruct (String.eqb_spec o ENFORCEMENT_MODE.DISABLED); [done|].
    intros _. split; [done|split; congruence].
  - destruct (String.eqb_spec o ENFORCEMENT_MODE.DISABLED); [done|].
    rewrite strict_eq_str. intros ->. vm_compute in Eb. done.
Qed.

(** A small store for the concrete instances below: one advisory global policy
    with one rule, customised for project "proj" by one binding. *)
Definition example_binding (overrides : jsval) (mode : option string) : project_binding_row :=
  {| b_id := "bind"; b_policy_key := "pk"; b_tenant_id := "ten"; b_project_id := "proj";
     b_enabled := true; b_inheritance_mode := "override"; b_severity_override := None;
     b_threshold_overrides := JNull; b_rule_overrides := overrides;
     b_enforcement_mode_override := mode;
     b_effective_from := 0; b_effective_to := VALID_TO_INFINITY |}%string.

Definition example_policy (enforcement : string) : policy_row :=
  {| p_id := "pol"; p_policy_key := "pk"; p_tenant_id := "ten"; p_project_id := None;
     p_name := "baseline"; p_scope := "global"; p_status := "active";
     p_enforcement_mode := enforcement; p_priority := 10;
     p_effective_from := 0; p_effective_to := VALID_TO_INFINITY |}%string.

Definition example_rule : rule_row :=
  {| r_id := "rule"; r_rule_key := "rk"; r_name := "no criticals"; r_description := None;
     r_target_entity := "artifact"; r_condition := JObj [("all", JArr [])];
     r_action := JObj [("type", JStr "violation"); ("code", JStr "CRIT")];
     r_effective_from := 0; r_effective_to := VALID_TO_INFINITY |}%string.

Definition example_db (enforcement : string) (overrides : jsval) (mode : option string) : policy_db :=
  {| policies := [example_policy enforcement];
     policy_project_bindings := [example_binding overrides mode];
     policy_rule_bindings :=
       [{| rb_id := "rb"; rb_policy_id := "pol"; rb_rule_id := "rule";
           rb_enabled := true; rb_order_index := 1 |}]%string;
     rules := [example_rule] |}.

(** ** Properties *)

(** The selection in terms of the program's filters. *)
Lemma effective_rules_applicable `{SqlOrder} db tenantId projectId at_ snap r :
  bindings_unique db tenantId projectId at_ ->
  loadEffectivePolicy db tenantId projectId at_ = Ok snap ->
  r ∈ allRules snap <->
  exists ep rb rr,
    applicable db tenantId projectId at_ ep /\
    rb ∈ policy_rule_bindings db /\ rr ∈ rules db /\ rb_rule_id rb = r_id rr /\
    rb_policy_id rb = p_id (ep_policy ep) /\ rb_enabled rb = true /\
    effective_at (r_effective_from rr) (r_effective_to rr) at_ = true /\
    resolve_rule ep (rb, rr) = Ok [r].
Proof.
  intros Hu Hl. apply loadEffectivePolicy_ok in Hl as [Hps ->]. cbn zeta in Hps.
  set (rows := group_by _ _) in Hps.
  rewrite js_sort_elem_of, list_elem_of_bind.
  setoid_rewrite (map_res_elem_of _ _ _ _ Hps). split.
  - intros (sp & Hr & ep & Hep & Hsp).
    pose proof (proj1 (resolve_policy_rules _ _ _ _ Hsp) Hr) as ([rb rr] & rs & Hrow & Hres & Hin).
    unfold rows in Hrow. rewrite group_by_lookup, elem_of_filter_b, bindingRuleRows_elem_of in Hrow.
    cbn in Hrow. rewrite String.eqb_eq in Hrow. destruct Hrow as ((?&?&?&?&?&?)&?).
    rewrite (resolve_rule_shape _ _ _ _ Hres Hin) in Hres.
    exists ep, rb, rr. rewrite <- effectivePolicies_applicable by done. done.
  - intros (ep & rb & rr & Hep & Hrb & Hrr & Hj & Hp & He & Hw & Hres).
    rewrite <- effectivePolicies_applicable in Hep by done.
    destruct (resolve_policy rows ep) as [sp|e] eqn:Hsp.
    + exists sp. split; [|by exists ep]. apply (resolve_policy_rules _ _ _ _ Hsp).
      exists (rb, rr), [r]. split; [|set_solver].
      unfold rows. rewrite group_by_lookup, elem_of_filter_b, bindingRuleRows_elem_of. cbn.
      rewrite String.eqb_eq. split_and!; try done.
      rewrite Hp. apply list_elem_of_fmap. by exists ep.
    + exfalso. destruct (map_res_ok_elem _ _ _ _ Hps Hep) as [sp Hok]. congruence.
Qed.

(** *** What the tables prescribe *)

Definition in_force (from to at_ : timestamp) : Prop := from <= at_ < to.

(** An active policy of the tenant, of all its projects. *)
Definition global_policy (tenantId : string) (at_ : timestamp) (p : policy_row) : Prop :=
  p_tenant_id p = tenantId /\ p_status p = "active"%string /\ p_scope p = "global"%string /\ p_project_id p = None /\
  in_force (p_effective_from p) (p_effective_to p) at_.

(** An active policy of the project itself. *)
Definition project_policy (tenantId projectId : string) (at_ : timestamp) (p : policy_row) : Prop :=
  p_tenant_id p = tenantId /\ p_status p = "active"%string /\ p_scope p = "project"%string /\ p_project_id p = Some projectId /\
  in_force (p_effective_from p) (p_effective_to p) at_.

(** A binding of a policy to the project. *)
Definition project_binding (tenantId projectId : string) (at_ : timestamp) (b : project_binding_row) : Prop :=
  b_tenant_id b = tenantId /\ b_project_id b = projectId /\ in_force (b_effective_from b) (b_effective_to b) at_.

(** The policies that apply to a project, with the binding that customises them: its own,
    and the global ones that no binding of the project switches off. *)
Inductive applies (db : policy_db) (tenantId projectId : string) (at_ : timestamp)
  : policy_row -> option project_binding_row -> Prop :=
| applies_own p :
    p ∈ policies db -> project_policy tenantId projectId at_ p -> applies db tenantId projectId at_ p None
| applies_unbound p :
    p ∈ policies db -> global_policy tenantId at_ p ->
    (forall b, b ∈ policy_project_bindings db -> project_binding tenantId projectId at_ b -> b_policy_key b <> p_policy_key p) ->
    applies db tenantId projectId at_ p None
| applies_bound p b :
    p ∈ policies db -> global_policy tenantId at_ p ->
    b ∈ policy_project_bindings db -> project_binding tenantId projectId at_ b -> b_policy_key b = p_policy_key p ->
    b_enabled b = true -> b_inheritance_mode b <> "disabled"%string ->
    applies db tenantId projectId at_ p (Some b).

(** The object a binding's overrides have for a rule, and what it says of a part of it. *)
Definition has_override (b : option project_binding_row) (key : string) (o : jsval) : Prop :=
  exists binding, b = Some binding /\ is_object (b_rule_overrides binding) = true /\
    get_prop (b_rule_overrides binding) key = Ok o /\ is_object o = true.

Definition override_says (b : option project_binding_row) (key part mode : string) (value : jsval) : Prop :=
  exists o change, has_override b key o /\ get_prop o part = Ok change /\ get_prop change "mode" = Ok (JStr mode) /\
    get_prop change "value" = Ok value.

(** The mode a base mode becomes: an override softens an enforcing one or disables. *)
Inductive softened (base : jsval) : option string -> jsval -> Prop :=
| soft_none : softened base None base
| soft_disabled : softened base (Some "disabled"%string) (JStr "disabled")
| soft_advisory : base = JStr "enforcing" -> softened base (Some "advisory"%string) (JStr "advisory")
| soft_other o : o <> "disabled"%string -> (o = "advisory"%string -> base <> JStr "enforcing") -> softened base (Some o) base.

(** A rule of a policy, as a project sees it: not switched off by the binding, with the
    binding's condition instead of its own, its action merged with the binding's, and the
    mode of its action or of its policy, softened by the binding. *)
Record resolved_as (p : policy_row) (b : option project_binding_row) (rb : rule_binding_row) (rr : rule_row) (r : ResolvedRule) : Prop := {
  ra_enabled o : has_override b (r_rule_key rr) o -> get_prop o "enabled" <> Ok (JBool false);
  ra_condition :
    override_says b (r_rule_key rr) "condition" "replace" (condition r) \/
    (forall v, ~ override_says b (r_rule_key rr) "condition" "replace" v) /\ condition r = r_condition rr;
  ra_action :
    (exists v, override_says b (r_rule_key rr) "action" "merge" v /\
       action r = JObj (spread (spread [] (own_props (r_action rr))) (own_props v))) \/
    (forall v, ~ override_says b (r_rule_key rr) "action" "merge" v) /\ action r = r_action rr;
  ra_mode : exists own_mode, get_prop (action r) "enforcement_mode" = Ok own_mode /\
    softened (if is_nullish own_mode then JStr (p_enforcement_mode p) else own_mode) (b ≫= b_enforcement_mode_override)
      (effectiveEnforcementMode r);
  ra_rule : id r = r_id rr /\ ruleKey r = r_rule_key rr /\ name r = r_name rr /\ description r = r_description rr /\
    targetEntity r = r_target_entity rr;
  ra_policy : policyId r = p_id p /\ policyName r = p_name p /\ policyPriority r = p_priority p;
  ra_bindings : policyRuleBindingId r = rb_id rb /\ orderIndex r = rb_order_index rb /\ policyProjectBindingId r = b_id <$> b
}.

Lemma project_policy_filter_iff tenantId projectId at_ p :
  project_policy_filter tenantId projectId at_ p = true <-> project_policy tenantId projectId at_ p.
Proof.
  unfold project_policy_filter, project_policy, in_force. rewrite !andb_true_iff, !String.eqb_eq, opt_eq_spec, effective_at_spec. tauto.
Qed.

Lemma global_policy_filter_iff tenantId at_ p : global_policy_filter tenantId at_ p = true <-> global_policy tenantId at_ p.
Proof.
  unfold global_policy_filter, global_policy, in_force. rewrite !andb_true_iff, !String.eqb_eq, bool_decide_eq_true, effective_at_spec. tauto.
Qed.

Lemma binding_filter_iff tenantId projectId at_ b :
  binding_filter tenantId projectId at_ b = true <-> project_binding tenantId projectId at_ b.
Proof. unfold binding_filter, project_binding, in_force. rewrite !andb_true_iff, !String.eqb_eq, effective_at_spec. tauto. Qed.

Lemma binding_disables_iff b : binding_disables b = false <-> b_enabled b = true /\ b_inheritance_mode b <> "disabled"%string.
Proof. unfold binding_disables. rewrite orb_false_iff, negb_false_iff, String.eqb_neq. done. Qed.

Lemma applicable_applies db tenantId projectId at_ ep :
  applicable db tenantId projectId at_ ep -> applies db tenantId projectId at_ (ep_policy ep) (ep_binding ep).
Proof.
  intros [p Hp Hf|p Hp Hf Hnone|p b Hp Hf Hb Hbf Hk Hd]; cbn.
  - by apply applies_own, project_policy_filter_iff.
  - apply applies_unbound; [done|by apply global_policy_filter_iff|]. intros b Hb Hc%binding_filter_iff. by apply Hnone.
  - apply binding_disables_iff in Hd as [He Hm]. apply applies_bound; try done; [by apply global_policy_filter_iff|by apply binding_filter_iff].
Qed.

Lemma applies_applicable db tenantId projectId at_ p b :
  applies db tenantId projectId at_ p b ->
  exists ep, applicable db tenantId projectId at_ ep /\ ep_policy ep = p /\ ep_binding ep = b.
Proof.
  intros [q Hq Hf%project_policy_filter_iff|q Hq Hf%global_policy_filter_iff Hnone|q c Hq Hf%global_policy_filter_iff Hc Hcf%binding_filter_iff Hk He Hm].
  - eexists. split; [by apply applies_project|done].
  - eexists. split; [apply applies_global; [done..|]|done]. intros c Hc Hcf%binding_filter_iff. by apply Hnone.
  - eexists. split; [apply (applies_assigned _ _ _ _ q c); try done; by apply binding_disables_iff|done].
Qed.

Lemma softened_iff base override m : softened base override m <-> m = resolveEnforcementMode base override.
Proof.
  unfold resolveEnforcementMode. split.
  - intros [ | | -> |o Hd Ha]; [done| |done|].
    + change (negb (nonempty "disabled")) with false. cbv iota. change (String.eqb "disabled" ENFORCEMENT_MODE.ADVISORY) with false.
      by rewrite andb_false_r.
    + destruct (negb (nonempty o)); [done|]. destruct (String.eqb_spec o ENFORCEMENT_MODE.ADVISORY) as [->|_].
      * destruct (strict_eq base _) eqn:E; [apply strict_eq_str in E; by destruct (Ha eq_refl)|done].
      * rewrite andb_false_r. destruct (String.eqb_spec o ENFORCEMENT_MODE.DISABLED) as [->|_]; [by destruct Hd|done].
  - intros ->. destruct override as [o|]; [|constructor]. destruct (negb (nonempty o)) eqn:En.
    + apply negb_true_iff, negb_false_iff, String.eqb_eq in En as ->. by constructor.
    + destruct (strict_eq base _) eqn:E.
      * apply strict_eq_str in E as ->. destruct (String.eqb_spec o ENFORCEMENT_MODE.ADVISORY) as [->|Hna]; [by constructor|].
        destruct (String.eqb_spec o ENFORCEMENT_MODE.DISABLED) as [->|Hnd]; [constructor|by constructor].
      * cbn [andb]. destruct (String.eqb_spec o ENFORCEMENT_MODE.DISABLED) as [->|Hnd]; [constructor|].
        constructor; [done|]. intros _ ->. by rewrite (proj2 (strict_eq_str _ _) eq_refl) in E.
Qed.

Lemma get_prop_ok v k : is_nullish v = false -> get_prop v k = Ok (opt_prop v k).
Proof. by destruct v. Qed.

Lemma opt_prop_some v k w : opt_prop v k = w -> w <> JUndef -> get_prop v k = Ok w.
Proof. unfold opt_prop. destruct (get_prop v k); congruence. Qed.

Lemma has_override_iff b key o :
  has_override b key o <-> getRuleOverride (from_option b_rule_overrides JUndef b) key = o /\ is_object o = true.
Proof.
  unfold has_override, getRuleOverride. split.
  - intros (binding & -> & Hob & Hg & Ho). cbn [from_option]. rewrite Hob. unfold opt_prop. rewrite Hg. cbv zeta. by rewrite Ho.
  - intros [Hg Ho]. destruct b as [binding|]; [|by subst o]. cbn [from_option] in Hg. exists binding. split; [done|].
    destruct (is_object (b_rule_overrides binding)) eqn:Hob; [|by subst o]. split; [done|].
    cbv zeta in Hg. destruct (is_object (opt_prop _ _)) eqn:Hov; [|by subst o]. subst o. split; [|done].
    apply get_prop_ok. by destruct (b_rule_overrides binding).
Qed.

Lemma override_says_iff b key part mode v :
  let change := opt_prop (getRuleOverride (from_option b_rule_overrides JUndef b) key) part in
  override_says b key part mode v <-> opt_prop change "mode" = JStr mode /\ v = opt_prop change "value".
Proof.
  cbv zeta. set (o := getRuleOverride _ _). split.
  - intros (o' & change & [Ho _]%has_override_iff & Hc & Hm & Hv). subst o'. fold o in Hc. unfold opt_prop at 2 4. rewrite Hc.
    unfold opt_prop. by rewrite Hm, Hv.
  - intros [Hm ->]. assert (Hc : is_nullish (opt_prop o part) = false) by (by destruct (opt_prop o part)).
    assert (Ho : is_object o = true).
    { unfold o, getRuleOverride in *. destruct (is_object _); [|done]. cbv zeta in *. by destruct (is_object (opt_prop _ key)) eqn:E. }
    exists o, (opt_prop o part). split; [by apply has_override_iff|]. split; [apply get_prop_ok; by destruct o|].
    split; [by rewrite get_prop_ok, Hm|by apply get_prop_ok].
Qed.

(** What an override replaces, as the program computes it. *)
Lemma replaced_iff b key part mode (f : jsval -> jsval) own_value w :
  let change := opt_prop (getRuleOverride (from_option b_rule_overrides JUndef b) key) part in
  w = (if strict_eq (opt_prop change "mode") (JStr mode) then f (opt_prop change "value") else own_value) <->
  (exists v, override_says b key part mode v /\ w = f v) \/ (forall v, ~ override_says b key part mode v) /\ w = own_value.
Proof.
  cbv zeta. setoid_rewrite override_says_iff. destruct (strict_eq _ _) eqn:E.
  - apply strict_eq_str in E. rewrite E. split; [intros ->; left; by eexists|]. intros [(v & [_ ->] & ->)|[Hno _]]; [done|by destruct (Hno _ (conj eq_refl eq_refl))].
  - assert (Hne : opt_prop (opt_prop (getRuleOverride (from_option b_rule_overrides JUndef b) key) part) "mode" <> JStr mode)
      by (intros He%strict_eq_str; congruence).
    split; [intros ->; right; split; [by intros v [? _]|done]|]. by intros [(v & [? _] & _)|[_ ->]].
Qed.

Lemma resolve_rule_iff ep rb rr r :
  resolve_rule ep (rb, rr) = Ok [r] <-> resolved_as (ep_policy ep) (ep_binding ep) rb rr r.
Proof.
  unfold resolve_rule, rule_override, resolved_condition, resolved_action, mode_override. cbn [fst snd].
  set (o := getRuleOverride _ _). split.
  - destruct (strict_eq (opt_prop o "enabled") (JBool false)) eqn:Een; [done|].
    intros (am & Ham & [= <-])%res_bind_ok. split; cbn [condition action effectiveEnforcementMode id ruleKey name description targetEntity
      policyId policyName policyPriority policyRuleBindingId orderIndex policyProjectBindingId]; try done.
    + intros o' [<- _]%has_override_iff Hf. unfold opt_prop in Een. fold o in Hf. by rewrite Hf in Een.
    + destruct (proj1 (replaced_iff (ep_binding ep) (r_rule_key rr) "condition" "replace" (fun v => v) (r_condition rr) _) eq_refl) as [(v & Hv & Heq)|Hv]; [left; fold o in Heq; by rewrite Heq|by right].
    + apply (replaced_iff (ep_binding ep) (r_rule_key rr) "action" "merge" _ (r_action rr)). done.
    + exists am. split; [exact Ham|]. by apply softened_iff.
  - intros [He Hc Ha (am & Ham & Hm) (E1 & E2 & E3 & E4 & E5) (E6 & E7 & E8) (E9 & E10 & E11)].
    assert (Een : strict_eq (opt_prop o "enabled") (JBool false) = false).
    { apply not_true_iff_false. intros Ht. assert (Hf : opt_prop o "enabled" = JBool false) by (by destruct (opt_prop o "enabled") as [| |[]| | | | |]).
      destruct (is_object o) eqn:Ho; [|by unfold o, getRuleOverride in *; destruct (is_object _) eqn:E; cbv zeta in *; [destruct (is_object (opt_prop _ (r_rule_key rr))) eqn:E'; [congruence|]|]].
      apply (He o); [by apply has_override_iff|]. by apply opt_prop_some. }
    rewrite Een. apply (replaced_iff (ep_binding ep) (r_rule_key rr) "action" "merge" (fun v => JObj (spread (spread [] (own_props (r_action rr))) (own_props v)))) in Ha.
    apply softened_iff in Hm.
    assert (Hc' : condition r = if strict_eq (opt_prop (opt_prop o "condition") "mode") (JStr "replace") then opt_prop (opt_prop o "condition") "value" else r_condition rr).
    { apply (replaced_iff (ep_binding ep) (r_rule_key rr) "condition" "replace" (fun v => v)). destruct Hc as [Hc|Hc]; [left; by eexists|by right]. }
    fold o in Ha. rewrite <- Ha, <- Hc', Ham. cbn [mbind res_bind]. unfold nullish. rewrite <- Hm, <- E9, <- E11, <- E10, <- E8, <- E7, <- E6, <- E1, <- E2, <- E3, <- E4, <- E5. by destruct r.
Qed.

(** C31: the rules a project is evaluated against are exactly those the tables
    prescribe: of the active policies in force of its tenant, its own and the global ones
    its bindings do not switch off, with an enabled binding to a rule in force, resolved
    under the project's overrides. Assumes what the unique index on bindings gives: a
    policy has one binding in force for the project. *)
Theorem effective_rules_spec `{SqlOrder} db tenantId projectId at_ snap r :
  (forall b b', b ∈ policy_project_bindings db -> b' ∈ policy_project_bindings db ->
     project_binding tenantId projectId at_ b -> project_binding tenantId projectId at_ b' -> b_policy_key b = b_policy_key b' -> b = b') ->
  loadEffectivePolicy db tenantId projectId at_ = Ok snap ->
  r ∈ allRules snap <->
  exists p b rb rr,
    applies db tenantId projectId at_ p b /\
    rb ∈ policy_rule_bindings db /\ rb_policy_id rb = p_id p /\ rb_enabled rb = true /\
    rr ∈ rules db /\ rb_rule_id rb = r_id rr /\ in_force (r_effective_from rr) (r_effective_to rr) at_ /\
    resolved_as p b rb rr r.
Proof.
  intros Hu Hl. assert (Hu' : bindings_unique db tenantId projectId at_).
  { intros b b' Hb Hb' Hf%binding_filter_iff Hf'%binding_filter_iff. by apply Hu. }
  rewrite (effective_rules_applicable _ _ _ _ _ _ Hu' Hl). split.
  - intros (ep & rb & rr & Hep & Hrb & Hrr & Hj & Hp & He & Hw%effective_at_spec & Hres%resolve_rule_iff).
    exists (ep_policy ep), (ep_binding ep), rb, rr. split; [by apply applicable_applies|]. by split_and!.
  - intros (p & b & rb & rr & Ha & Hrb & Hp & He & Hrr & Hj & Hw%effective_at_spec & Hres).
    apply applies_applicable in Ha as (ep & Hep & <- & <-). exists ep, rb, rr. apply resolve_rule_iff in Hres. by split_and!.
Qed.

(** The example's policy softened by its binding, which also lowers the severity. *)
Definition example_overrides : jsval :=
  JObj [("rk", JObj [("action", JObj [("mode", JStr "merge"); ("value", JObj [("severity", JStr "low")])])])]%string.

Lemma effective_rules_spec_witness :
  exists snap, loadEffectivePolicy (example_db "enforcing" example_overrides (Some "advisory"%string)) "ten" "proj" 5 = Ok snap /\
  exists r, r ∈ allRules snap /\ effectiveEnforcementMode r = JStr "advisory" /\ get_prop (action r) "severity" = Ok (JStr "low").
Proof.
  destruct (loadEffectivePolicy (example_db "enforcing" example_overrides (Some "advisory"%string)) "ten" "proj" 5)
    as [snap|] eqn:E; [|vm_compute in E; discriminate E].
  exists snap. split; [reflexivity|]. set (b := example_binding example_overrides (Some "advisory"%string)).
  set (rb := {| rb_id := "rb"; rb_policy_id := "pol"; rb_rule_id := "rule"; rb_enabled := true; rb_order_index := 1 |}%string).
  destruct (resolve_rule {| ep_policy := example_policy "enforcing"; ep_source := src_assigned; ep_binding := Some b |} (rb, example_rule))
    as [[|r [|]]|] eqn:Er; try (vm_compute in Er; discriminate Er).
  exists r. split; [|vm_compute in Er; injection Er as <-; split; reflexivity].
  apply (effective_rules_spec (example_db "enforcing" example_overrides (Some "advisory"%string)) "ten" "proj" 5 snap r); [|exact E|].
  - intros b1 b2 Hb1 Hb2 _ _ _. apply list_elem_of_singleton in Hb1, Hb2. congruence.
  - exists (example_policy "enforcing"), (Some b), rb, example_rule. apply resolve_rule_iff in Er.
    assert (Hw : in_force 0 VALID_TO_INFINITY 5) by (unfold in_force, VALID_TO_INFINITY; lia).
    split; [|do 6 (split; [first [apply list_elem_of_singleton; reflexivity|reflexivity|exact Hw]|]); exact Er].
    apply applies_bound; try (apply list_elem_of_singleton; reflexivity); try reflexivity; [| |discriminate].
    + do 4 (split; [reflexivity|]). exact Hw.
    + do 2 (split; [reflexivity|]). exact Hw.
Defined.

(** The flat list the evaluator walks is the rules of the resolved policies,
    each exactly as often, ordered by policy priority and then by the rule's
    order index, whichever way the server breaks ties. *)
Theorem effective_rules_sorted `{SqlOrder} db tenantId projectId at_ snap :
  loadEffectivePolicy db tenantId projectId at_ = Ok snap ->
  allRules snap ≡ₚ snap_policies snap ≫= sp_rules /\
  StronglySorted (fun a b => policyPriority a < policyPriority b \/
                             (policyPriority a = policyPriority b /\ orderIndex a <= orderIndex b))
    (allRules snap).
Proof.
  intros [_ ->]%loadEffectivePolicy_ok. split; [apply js_sort_perm|].
  assert (Hs := js_sort_sorted rule_le rule_le_total rule_le_trans (snap_policies snap ≫= sp_rules)).
  induction Hs as [|x l _ IH Hx]; constructor; [done|].
  eapply Forall_impl; [exact Hx|]. intros y. cbn. unfold rule_le.
  destruct (Z.eqb_spec (policyPriority x) (policyPriority y)); rewrite Z.leb_le; lia.
Qed.

Lemma effective_rules_sorted_witness :
  exists snap, loadEffectivePolicy (example_db "enforcing" JNull None) "ten" "proj" 5 = Ok snap /\
  allRules snap ≡ₚ snap_policies snap ≫= sp_rules.
Proof.
  destruct (loadEffectivePolicy (example_db "enforcing" JNull None) "ten" "proj" 5)
    as [snap|] eqn:E; [|vm_compute in E; discriminate E].
  exists snap. split; [reflexivity|]. apply (effective_rules_sorted _ _ _ _ _ E).
Defined.

(** A project's enforcement override can only weaken: the resolved mode is
    enforcing only if the base mode was, and no softening or disabling override
    was given; a disabling override always gives the disabled mode. *)
Theorem override_never_hardens base override :
  (resolveEnforcementMode base override = JStr ENFORCEMENT_MODE.ENFORCING ->
     base = JStr ENFORCEMENT_MODE.ENFORCING /\
     override <> Some ENFORCEMENT_MODE.ADVISORY /\ override <> Some ENFORCEMENT_MODE.DISABLED) /\
  resolveEnforcementMode base (Some ENFORCEMENT_MODE.DISABLED) = JStr ENFORCEMENT_MODE.DISABLED.
Proof.
  split; [|unfold resolveEnforcementMode; cbn; by rewrite andb_false_r].
  intros He. apply rank_enforcing. by rewrite He.
Qed.

(** But a rule override of the binding can harden: merging an enforcing mode
    into a rule's action makes the rule enforcing whatever the policy's mode and
    the rule's own, unless the binding also overrides the mode. *)
Theorem rule_override_merge_hardens policy source binding rb r kvs value :
  b_enforcement_mode_override binding = None ->
  getRuleOverride (b_rule_overrides binding) (r_rule_key r) = JObj kvs ->
  strict_eq (opt_prop (JObj kvs) "enabled") (JBool false) = false ->
  opt_prop (opt_prop (JObj kvs) "action") "mode" = JStr "merge" ->
  opt_prop (opt_prop (JObj kvs) "action") "value" = JObj value ->
  NoDup value.*1 -> own "enforcement_mode" value = Some (JStr ENFORCEMENT_MODE.ENFORCING) ->
  exists rr,
    resolve_rule {| ep_policy := policy; ep_source := source; ep_binding := Some binding |} (rb, r)
      = Ok [rr] /\
    effectiveEnforcementMode rr = JStr ENFORCEMENT_MODE.ENFORCING.
Proof.
  intros Hm Ho Hen Hmode Hval Hnd Hown. unfold resolve_rule, rule_override. cbn [ep_binding from_option].
  cbn [fst snd]. rewrite Ho, Hen. unfold resolved_action. rewrite Hmode, Hval. cbn [strict_eq own_props].
  rewrite String.eqb_refl.
  erewrite get_prop_obj_own by (rewrite own_spread by done; by rewrite Hown).
  cbn. eexists. split; [reflexivity|]. cbn. unfold mode_override. cbn. by rewrite Hm.
Qed.

Lemma rule_override_merge_hardens_witness :
  exists rr,
    resolve_rule
      {| ep_policy := example_policy "advisory"; ep_source := src_assigned;
         ep_binding := Some (example_binding
           (JObj [("rk", JObj [("action", JObj [("mode", JStr "merge");
              ("value", JObj [("enforcement_mode", JStr "enforcing")])])])]) None) |}
      ({| rb_id := "rb"; rb_policy_id := "pol"; rb_rule_id := "rule";
          rb_enabled := true; rb_order_index := 1 |}, example_rule) = Ok [rr] /\
    effectiveEnforcementMode rr = JStr "enforcing".
Proof.
  apply (rule_override_merge_hardens _ _ _ _ _
           [("action", JObj [("mode", JStr "merge");
              ("value", JObj [("enforcement_mode", JStr "enforcing")])])]
           [("enforcement_mode", JStr "enforcing")]); try reflexivity.
  apply NoDup_singleton.
Defined.

(** Loading never fails when no stored action is JSON null: every malformed
    override is ignored rather than an error. *)
Theorem effective_policy_total `{SqlOrder} db tenantId projectId at_ :
  (forall r, r ∈ rules db -> is_nullish (r_action r) = false) ->
  is_ok (loadEffectivePolicy db tenantId projectId at_) = true.
Proof.
  intros Ha. unfold loadEffectivePolicy. destruct (map _ _) as [|i is_] eqn:Hids; [done|].
  set (rows := group_by _ _).
  assert (Hr : forall ep row, row ∈ default [] (rows !! p_id (ep_policy ep)) ->
               is_ok (resolve_rule ep row) = true).
  { intros ep [rb r] Hin. unfold rows in Hin.
    rewrite group_by_lookup, elem_of_filter_b, bindingRuleRows_elem_of in Hin.
    destruct Hin as ((_ & Hr & _) & _). specialize (Ha r Hr). unfold resolve_rule.
    case_match; [done|]. cbn [snd]. unfold resolved_action. case_match; [done|].
    destruct (r_action r); done. }
  assert (Hm : is_ok (map_res (resolve_policy rows) (effectivePolicies db tenantId projectId at_)) = true).
  { apply map_res_total. intros ep _. unfold resolve_policy.
    assert (Hrr := map_res_total (resolve_rule ep) _ (Hr ep)).
    by destruct (map_res (resolve_rule ep) _). }
  by destruct (map_res (resolve_policy rows) _).
Qed.

Lemma effective_policy_total_witness :
  is_ok (loadEffectivePolicy (example_db "advisory" (JStr "garbage") None) "ten" "proj" 5) = true.
Proof.
  apply effective_policy_total. intros r Hr. apply list_elem_of_singleton in Hr as ->. reflexivity.
Defined.

(** ** Keys

    The tables' primary keys make the rule bindings of an effective policy distinct, so
    what is recorded per binding is recorded per rule; and the modes of its policies and
    rules are never null. *)

Local Open Scope list_scope.

(** The primary keys of the policy tables. *)
Record policy_keys (db : policy_db) : Prop := {
  pk_policies : NoDup (map p_id (policies db));
  pk_rule_bindings : NoDup (map rb_id (policy_rule_bindings db));
  pk_rules : NoDup (map r_id (rules db))
}.

Lemma NoDup_map_order `{SqlOrder} {A B} (f : A -> B) key (l : list A) : NoDup (map f l) -> NoDup (map f (order_by key l)).
Proof. intros Hl. rewrite order_by_perm. exact Hl. Qed.

(** A join on a key of the second table has at most one row per row of the first. *)
Lemma inner_join_NoDup {A B K L} (on : A -> B -> bool) (f : A -> K) (g : B -> L) (h : A -> L) a b :
  NoDup (map f a) -> NoDup (map g b) -> (forall x y, on x y = true -> g y = h x) ->
  NoDup (map (fun r => f r.1) (inner_join on a b)).
Proof.
  intros Ha Hb Hon. induction a as [|x a IH]; [apply NoDup_nil_2|].
  apply NoDup_cons in Ha as [Hx Ha].
  change (inner_join on (x :: a) b) with ((y ← List.filter (on x) b; [(x, y)]) ++ inner_join on a b).
  rewrite map_app. apply NoDup_app. split; [|split; [|by apply IH]].
  - assert (Hf : NoDup (map g (List.filter (on x) b))) by (by apply NoDup_map_filter).
    assert (Hall : forall y, y ∈ List.filter (on x) b -> g y = h x) by (intros y [_ Hy]%elem_of_filter_b; by apply Hon).
    destruct (List.filter (on x) b) as [|y1 [|y2 l]]; cbn; [apply NoDup_nil_2|apply NoDup_singleton|].
    exfalso. cbn in Hf. apply NoDup_cons in Hf as [Hf _]. apply Hf.
    rewrite (Hall y1), <- (Hall y2) by set_solver. apply list_elem_of_here.
  - intros k (r1 & -> & Hr1)%list_elem_of_fmap (r2 & Heq & Hr2)%list_elem_of_fmap. apply Hx.
    apply list_elem_of_bind in Hr1 as (y & Hy & _). apply list_elem_of_singleton in Hy. subst r1. cbn in Heq.
    rewrite Heq. destruct r2 as [x2 y2]. apply inner_join_elem_of in Hr2 as [Hx2 _]. by apply list_elem_of_fmap_2.
Qed.

(** Splitting rows with unique identifiers by a key keeps the identifiers unique. *)
Lemma NoDup_split {A B} (f : A -> B) (key : A -> string) (rows : list A) keys :
  NoDup (map f rows) -> NoDup keys ->
  NoDup (keys ≫= fun k => map f (List.filter (fun r => String.eqb (key r) k) rows)).
Proof.
  intros Hr Hk. apply NoDup_bind; [| |done].
  - intros k1 k2 y _ _ (r1 & -> & Hr1)%list_elem_of_fmap (r2 & Heq & Hr2)%list_elem_of_fmap.
    apply elem_of_filter_b in Hr1 as [Hr1 <-%String.eqb_eq]. apply elem_of_filter_b in Hr2 as [Hr2 <-%String.eqb_eq].
    by rewrite (NoDup_map_inj f rows r1 r2).
  - intros k _. by apply NoDup_map_filter.
Qed.

Section keys.
Context `{SqlOrder} (db : policy_db) (Hdb : policy_keys db) (tenantId projectId : string) (at_ : timestamp).

Lemma effective_ids_distinct : NoDup (map (fun ep => p_id (ep_policy ep)) (effectivePolicies db tenantId projectId at_)).
Proof using Hdb.
  unfold effectivePolicies. rewrite js_sort_perm, map_app. set (bindings := index_by _ _).
  set (globals := order_by _ (List.filter (global_policy_filter _ _) _)). set (owns := order_by _ (List.filter (project_policy_filter _ _ _) _)).
  assert (Hg : map (fun ep => p_id (ep_policy ep)) (globals ≫= inherit_global bindings) `sublist_of` map p_id globals).
  { induction globals as [|p l IH]; [done|]. cbn [mbind list_bind]. rewrite map_app. cbn [map].
    unfold inherit_global at 1. destruct (bindings !! _); [destruct (binding_disables _)|]; cbn; by constructor. }
  assert (Ho : map (fun ep => p_id (ep_policy ep)) (map own_policy owns) = map p_id owns) by (by rewrite map_map).
  apply NoDup_app. rewrite Ho. split; [|split].
  - eapply sublist_NoDup; [|exact Hg]. apply NoDup_map_order, NoDup_map_filter, pk_policies, Hdb.
  - intros i Hi (p2 & -> & Hp2)%list_elem_of_fmap.
    assert (Hi' : p_id p2 ∈ map p_id globals) by (eapply elem_of_submseteq; [exact Hi|by apply sublist_submseteq]).
    apply list_elem_of_fmap in Hi' as (p1 & Heq & Hp1). unfold globals, owns in *.
    rewrite order_by_elem_of, elem_of_filter_b in Hp1, Hp2. destruct Hp1 as [Hp1 F1], Hp2 as [Hp2 F2].
    rewrite (NoDup_map_inj p_id _ p2 p1 (pk_policies _ Hdb) Hp2 Hp1 Heq) in F2.
    unfold global_policy_filter, project_policy_filter in F1, F2.
    apply andb_prop in F1 as [[[_ S1]%andb_prop _]%andb_prop _]. apply andb_prop in F2 as [[[_ S2]%andb_prop _]%andb_prop _].
    apply String.eqb_eq in S1, S2. rewrite S1 in S2. discriminate S2.
  - apply NoDup_map_order, NoDup_map_filter, pk_policies, Hdb.
Qed.

Lemma resolved_bindings ep rows resolved :
  map_res (resolve_rule ep) rows = Ok resolved ->
  map policyRuleBindingId (concat resolved) `sublist_of` map (fun r => rb_id r.1) rows.
Proof using Type.
  revert resolved. induction rows as [|row rows IH]; cbn; intros resolved Hr; res_inv; [done|].
  match goal with Hr : map_res _ rows = Ok _ |- _ => apply IH in Hr end. rewrite map_app.
  match goal with Hr : resolve_rule ep row = Ok ?rs |- _ =>
    unfold resolve_rule in Hr; destruct (strict_eq _ _); res_inv; cbn; by constructor end.
Qed.

Lemma loaded_bindings_distinct snap :
  loadEffectivePolicy db tenantId projectId at_ = Ok snap -> NoDup (map policyRuleBindingId (allRules snap)).
Proof using Hdb.
  intros (Hps & ->)%loadEffectivePolicy_ok. rewrite js_sort_perm.
  set (eps := effectivePolicies db tenantId projectId at_) in *.
  set (rows := bindingRuleRows db _ at_) in *.
  assert (Hrows : NoDup (map (fun r => rb_id r.1) rows)).
  { unfold rows, bindingRuleRows. apply NoDup_map_order, NoDup_map_filter.
    apply (inner_join_NoDup _ rb_id r_id rb_rule_id); [apply Hdb..|]. intros x y. by intros ->%String.eqb_eq. }
  eapply sublist_NoDup; [apply (NoDup_split (fun r => rb_id r.1) (fun r => rb_policy_id r.1) rows
    (map (fun ep => p_id (ep_policy ep)) eps) Hrows effective_ids_distinct)|].
  apply map_res_ok_forall2 in Hps. clear Hrows. clearbody eps rows. revert Hps. generalize (snap_policies snap). intros ps Hps.
  induction Hps as [|ep sp eps ps Hp _ IH]; [done|]. cbn [map mbind list_bind]. rewrite map_app. apply sublist_app; [|exact IH].
  apply res_bind_ok in Hp as (resolved & Hres & [= <-]). cbn [sp_rules].
  rewrite <- group_by_lookup. by eapply resolved_bindings.
Qed.

(** ** Modes *)

Lemma nullish_default v d : is_nullish d = false -> is_nullish (nullish v d) = false.
Proof using Type. unfold nullish. by destruct (is_nullish v) eqn:E. Qed.

Lemma resolveEnforcementMode_some base override :
  is_nullish base = false -> is_nullish (resolveEnforcementMode base override) = false.
Proof using Type. unfold resolveEnforcementMode. by repeat case_match. Qed.

Lemma resolve_rule_mode ep row rs r :
  resolve_rule ep row = Ok rs -> r ∈ rs -> is_nullish (effectiveEnforcementMode r) = false.
Proof using Type.
  intros Hr Hin. assert (Hs := resolve_rule_shape _ _ _ _ Hr Hin). subst rs.
  unfold resolve_rule in Hr. case_match; [done|]. res_inv. by apply resolveEnforcementMode_some, nullish_default.
Qed.

Lemma loaded_modes snap :
  loadEffectivePolicy db tenantId projectId at_ = Ok snap ->
  (forall p, p ∈ snap_policies snap -> is_nullish (sp_enforcementMode p) = false) /\
  (forall r, r ∈ allRules snap -> is_nullish (effectiveEnforcementMode r) = false).
Proof using Type.
  intros (Hps & ->)%loadEffectivePolicy_ok. split.
  - intros p Hp. apply (map_res_elem_of _ _ _ _ Hps) in Hp as (ep & _ & Hp).
    apply res_bind_ok in Hp as (rs & _ & [= <-]). by apply resolveEnforcementMode_some.
  - intros r Hr. apply js_sort_elem_of, list_elem_of_bind in Hr as (p & Hr & Hp).
    apply (map_res_elem_of _ _ _ _ Hps) in Hp as (ep & _ & Hp).
    destruct (proj1 (resolve_policy_rules _ _ _ _ Hp) Hr) as (row & rs & _ & Hres & Hin). by eapply resolve_rule_mode.
Qed.
End keys.
