(* ===== verification/Decision.v ===== *)
(** * The policy verdict (services/api/src/connect/check-service.ts)

    [evaluatePolicyDecision] walks the effective rules in order and folds the
    matching ones into one verdict, the violations to record and the response
    settings. *)

From S2P Require Import Prelude JsString JsNum JsValue Expression Constants Effective.
Local Open Scope Z_scope.

(** An element of [collectedViolations]. *)
Record violation := {
  rule_id : option string; rule_key : option string; policy_id : option string;
  policy_rule_binding_id : option string; policy_project_binding_id : option string;
  recommended_remediation : jsval; severity : jsval; code : jsval; message : string;
  enforcement_mode : jsval; blocked : bool
}.

Record EvaluatedPolicyDecision := {
  decision : Z; reason : string; detail : string; cacheTtl : Z; serveMode : ServeMode;
  rulesEvaluated : nat; rulesMatched : nat; collectedViolations : list violation
}.

(** The loop's local variables. *)
Record eval_state := {
  st_decision : Z; st_detail : string; st_cacheTtl : Z; st_serveMode : ServeMode;
  st_codes : list jsval; st_violations : list violation; st_evaluated : nat; st_matched : nat
}.

Definition eval_init (defaultCacheTtl : Z) (defaultServeMode : ServeMode) : eval_state :=
  {| st_decision := DECISION_ALLOW; st_detail := "No policy rules matched";
     st_cacheTtl := defaultCacheTtl; st_serveMode := defaultServeMode;
     st_codes := []; st_violations := []; st_evaluated := 0; st_matched := 0 |}.

(** [action.message_template ? renderTemplate(...) : `Rule "..." matched`] *)
Definition rule_message (rule : ResolvedRule) (fields : fields_t) : res string :=
  let! template := get_prop (action rule) "message_template" in
  if truthy template then
    match template with
    | JStr s => Ok (renderTemplate s fields)
    | _ => type_error
    end
  else Ok ("Rule " +:+ String quote (name rule +:+ String quote " matched")).

Definition action_field (rule : ResolvedRule) (key : string) : jsval :=
  opt_prop (action rule) key.

Definition is_recorded_type (actionType : jsval) : bool :=
  strict_eq actionType (JStr "violation") || strict_eq actionType (JStr "warning")
  || strict_eq actionType (JStr "info").

Definition is_blocking (actionType enfMode : jsval) : bool :=
  strict_eq actionType (JStr "violation") && strict_eq enfMode (JStr ENFORCEMENT_MODE.ENFORCING).

Definition make_violation (rule : ResolvedRule) (actionType : jsval) (msg : string) : violation :=
  let enfMode := effectiveEnforcementMode rule in
  {| rule_id := Some (id rule); rule_key := Some (ruleKey rule);
     policy_id := Some (policyId rule);
     policy_rule_binding_id := Some (policyRuleBindingId rule);
     policy_project_binding_id := policyProjectBindingId rule;
     recommended_remediation := nullish (action_field rule "recommended_remediation") JNull;
     severity := nullish (action_field rule "severity") (JStr "high");
     code := nullish (action_field rule "code") (JStr "RULE_MATCHED");
     message := msg; enforcement_mode := enfMode;
     blocked := is_blocking actionType enfMode |}.

(** The loop body for one rule. *)
Definition eval_rule (fields : fields_t) (st : eval_state) (rule : ResolvedRule) : res eval_state :=
  let! matched := evaluateCondition (condition rule) fields in
  if negb matched then
    Ok {| st_decision := st_decision st; st_detail := st_detail st;
          st_cacheTtl := st_cacheTtl st; st_serveMode := st_serveMode st;
          st_codes := st_codes st; st_violations := st_violations st;
          st_evaluated := S (st_evaluated st); st_matched := st_matched st |}
  else
    let! type_ := get_prop (action rule) "type" in
    let actionType := nullish type_ (JStr "violation") in
    let enfMode := effectiveEnforcementMode rule in
    let! msg := rule_message rule fields in
    let violations :=
      if is_recorded_type actionType
      then st_violations st ++ [make_violation rule actionType msg]
      else st_violations st in
    let blocks := is_blocking actionType enfMode in
    let first := blocks && (st_decision st =? DECISION_ALLOW) in
    Ok {| st_decision := if blocks then DECISION_BLOCK else st_decision st;
          st_detail := if first then msg else st_detail st;
          st_cacheTtl := if first then 0 else st_cacheTtl st;
          st_serveMode := if first then UNSPECIFIED else st_serveMode st;
          st_codes := if blocks
            then st_codes st ++ [nullish (action_field rule "code") (JStr "policy_violation")]
            else st_codes st;
          st_violations := violations;
          st_evaluated := S (st_evaluated st); st_matched := S (st_matched st) |}.

Fixpoint eval_rules (fields : fields_t) (st : eval_state) (rules : list ResolvedRule) : res eval_state :=
  match rules with
  | [] => Ok st
  | rule :: rules => let! st := eval_rule fields st rule in eval_rules fields st rules
  end.

Definition evaluatePolicyDecision (rules : list ResolvedRule) (fields : fields_t)
    (defaultCacheTtl : Z) (defaultServeMode : ServeMode) : res EvaluatedPolicyDecision :=
  let! st := eval_rules fields (eval_init defaultCacheTtl defaultServeMode) rules in
  let '(reason, detail) :=
    if st_decision st =? DECISION_BLOCK then (to_str (JArr (st_codes st)), st_detail st)
    else if Nat.eqb (st_matched st) 0
         then ("allowed", "No policy rules matched — package allowed")%string
         else ("advisory_only", "Rules matched in advisory mode only — package allowed")%string in
  Ok {| decision := st_decision st; reason := reason; detail := detail;
        cacheTtl := st_cacheTtl st; serveMode := st_serveMode st;
        rulesEvaluated := st_evaluated st; rulesMatched := st_matched st;
        collectedViolations := st_violations st |}.

(** ** Specification: the verdict as a function of the matching rules *)

(** What one rule contributes, read off its condition and action alone. *)
Definition rule_matches (fields : fields_t) (rule : ResolvedRule) : bool :=
  match evaluateCondition (condition rule) fields with Ok b => b | Throw _ => false end.

Definition rule_type (rule : ResolvedRule) : jsval :=
  nullish (action_field rule "type") (JStr "violation").

Definition rule_text (fields : fields_t) (rule : ResolvedRule) : string :=
  match rule_message rule fields with Ok s => s | Throw _ => EmptyString end.

Definition rule_blocks (rule : ResolvedRule) : bool :=
  is_blocking (rule_type rule) (effectiveEnforcementMode rule).

Definition blocking_matches (fields : fields_t) (rules : list ResolvedRule) : list ResolvedRule :=
  List.filter rule_blocks (List.filter (rule_matches fields) rules).

Definition recorded_matches (fields : fields_t) (rules : list ResolvedRule) : list ResolvedRule :=
  List.filter (fun r => is_recorded_type (rule_type r)) (List.filter (rule_matches fields) rules).

Definition rule_code (rule : ResolvedRule) : jsval :=
  nullish (action_field rule "code") (JStr "policy_violation").

(** ** Lemmas *)

Lemma opt_prop_ok v k w : get_prop v k = Ok w -> opt_prop v k = w.
Proof. unfold opt_prop. by intros ->. Qed.

(** One step, described by the rule's contribution. *)
Lemma eval_rule_step fields st rule st' :
  eval_rule fields st rule = Ok st' ->
  let m := rule_matches fields rule in
  let b := m && rule_blocks rule in
  let first := b && (st_decision st =? DECISION_ALLOW) in
  st_decision st' = (if b then DECISION_BLOCK else st_decision st) /\
  st_detail st' = (if first then rule_text fields rule else st_detail st) /\
  st_cacheTtl st' = (if first then 0 else st_cacheTtl st) /\
  st_serveMode st' = (if first then UNSPECIFIED else st_serveMode st) /\
  st_codes st' = st_codes st ++ (if b then [rule_code rule] else []) /\
  st_violations st' = st_violations st ++
    (if m && is_recorded_type (rule_type rule)
     then [make_violation rule (rule_type rule) (rule_text fields rule)] else []) /\
  st_evaluated st' = S (st_evaluated st) /\
  st_matched st' = ((if m then 1 else 0) + st_matched st)%nat.
Proof.
  unfold eval_rule, rule_matches. intros (matched & Hm & H)%res_bind_ok. rewrite Hm.
  destruct matched; cbn [negb andb] in *.
  - apply res_bind_ok in H as (ty & Hty & H). apply res_bind_ok in H as (msg & Hmsg & [= <-]). cbn.
    unfold rule_blocks, rule_type, rule_text, rule_code, action_field.
    rewrite (opt_prop_ok _ _ _ Hty), Hmsg.
    repeat split; repeat case_match; by rewrite ?app_nil_r.
  - injection H as <-. cbn. rewrite !app_nil_r. done.
Qed.

(** The whole loop, from any state whose verdict is allow or block. *)
Lemma eval_rules_spec fields st rules st' :
  eval_rules fields st rules = Ok st' ->
  st_decision st = DECISION_ALLOW \/ st_decision st = DECISION_BLOCK ->
  let bs := blocking_matches fields rules in
  let open := st_decision st =? DECISION_ALLOW in
  let pick {A} (none : A) (some : ResolvedRule -> A) : A :=
    if open then match bs with [] => none | r :: _ => some r end else none in
  st_decision st' = (match bs with [] => st_decision st | _ => DECISION_BLOCK end) /\
  st_detail st' = pick (st_detail st) (rule_text fields) /\
  st_cacheTtl st' = pick (st_cacheTtl st) (fun _ => 0) /\
  st_serveMode st' = pick (st_serveMode st) (fun _ => UNSPECIFIED) /\
  st_codes st' = st_codes st ++ map rule_code bs /\
  st_violations st' = st_violations st ++
    map (fun r => make_violation r (rule_type r) (rule_text fields r)) (recorded_matches fields rules) /\
  st_evaluated st' = (length rules + st_evaluated st)%nat /\
  st_matched st' = (length (List.filter (rule_matches fields) rules) + st_matched st)%nat.
Proof.
  revert st; induction rules as [|rule rules IH]; intros st H Hd.
  - cbn in H. injection H as <-. cbn. rewrite !app_nil_r. by destruct (_ =? _).
  - cbn [eval_rules] in H. apply res_bind_ok in H as (st1 & H1 & H).
    apply eval_rule_step in H1 as (D & E & T & M & C & V & N & K).
    specialize (IH st1 H).
    assert (Hd1 : st_decision st1 = DECISION_ALLOW \/ st_decision st1 = DECISION_BLOCK).
    { rewrite D. destruct (rule_matches fields rule && rule_blocks rule); [by right|exact Hd]. }
    specialize (IH Hd1) as (D' & E' & T' & M' & C' & V' & N' & K').
    unfold blocking_matches, recorded_matches in *. cbn [List.filter].
    rewrite D', E', T', M', C', V', N', K', D, E, T, M, C, V, N, K. clear -Hd.
    destruct (rule_matches fields rule); cbn [List.filter andb app length].
    + destruct (rule_blocks rule) eqn:Hb, (is_recorded_type (rule_type rule));
        cbn [andb map app]; rewrite <- ?app_assoc, ?app_nil_r; cbn [app length map];
        destruct Hd as [-> | ->]; repeat split; try lia; try (by case_match).
    + rewrite !app_nil_r. repeat split; lia.
Qed.

(** The verdict in closed form. *)
Definition verdict (rules : list ResolvedRule) (fields : fields_t) (ttl : Z) (mode : ServeMode)
  : EvaluatedPolicyDecision :=
  let matched := List.filter (rule_matches fields) rules in
  let bs := blocking_matches fields rules in
  let violations :=
    map (fun r => make_violation r (rule_type r) (rule_text fields r)) (recorded_matches fields rules) in
  match bs with
  | first :: _ =>
      {| decision := DECISION_BLOCK; reason := to_str (JArr (map rule_code bs));
         detail := rule_text fields first; cacheTtl := 0; serveMode := UNSPECIFIED;
         rulesEvaluated := length rules; rulesMatched := length matched;
         collectedViolations := violations |}
  | [] =>
      {| decision := DECISION_ALLOW;
         reason := (match matched with [] => "allowed" | _ => "advisory_only" end)%string;
         detail := (match matched with
                    | [] => "No policy rules matched — package allowed"
                    | _ => "Rules matched in advisory mode only — package allowed" end)%string;
         cacheTtl := ttl; serveMode := mode;
         rulesEvaluated := length rules; rulesMatched := length matched;
         collectedViolations := violations |}
  end.

Lemma evaluatePolicyDecision_verdict rules fields ttl mode d :
  evaluatePolicyDecision rules fields ttl mode = Ok d -> d = verdict rules fields ttl mode.
Proof.
  unfold evaluatePolicyDecision. intros (st & Hst & H)%res_bind_ok.
  apply eval_rules_spec in Hst as (D & E & T & M & C & V & N & K); [|by left].
  rewrite D, E, T, M, C, V, N, K in H. unfold verdict.
  destruct (blocking_matches fields rules) as [|b bs]; cbn in H.
  - destruct (List.filter _ rules) as [|m ms]; cbn in H; injection H as <-; cbn;
      by rewrite ?Nat.add_0_r.
  - injection H as <-. cbn. by rewrite !Nat.add_0_r.
Qed.

Lemma verdict_blocks rules fields ttl mode :
  decision (verdict rules fields ttl mode) = DECISION_BLOCK <->
  exists r, r ∈ rules /\ rule_matches fields r = true /\ rule_blocks r = true.
Proof.
  unfold verdict. assert (Hb : forall r, r ∈ blocking_matches fields rules <->
    r ∈ rules /\ rule_matches fields r = true /\ rule_blocks r = true).
  { intros r. unfold blocking_matches. rewrite !elem_of_filter_b. naive_solver. }
  destruct (blocking_matches fields rules) as [|b bs]; cbn; split.
  - intros Heq. discriminate Heq.
  - intros (r & Hr). apply Hb in Hr. by apply not_elem_of_nil in Hr.
  - intros _. exists b. apply Hb. apply list_elem_of_here.
  - done.
Qed.

Lemma rule_blocks_recorded r : rule_blocks r = true -> is_recorded_type (rule_type r) = true.
Proof. unfold rule_blocks, is_blocking, is_recorded_type. by intros [-> _]%andb_prop. Qed.

(** Every rule evaluates: its condition is of the grammar and its action is an
    object whose message template, if any, is a string. *)
Definition evaluable (rule : ResolvedRule) : Prop :=
  (exists c, condition rule = encode c) /\
  (exists kvs, action rule = JObj kvs /\
     match own "message_template" kvs with Some (JStr _) | None => True | _ => False end).

(** What is needed of them, for given fields. *)
Definition runs (fields : fields_t) (rule : ResolvedRule) : Prop :=
  is_ok (evaluateCondition (condition rule) fields) = true /\
  (exists kvs, action rule = JObj kvs /\
     match own "message_template" kvs with Some (JStr _) | None => True | _ => False end).

Lemma evaluable_runs fields rule : evaluable rule -> runs fields rule.
Proof. intros [[c Hc] Ha]. split; [|done]. by rewrite Hc, evaluate_encode. Qed.

Lemma eval_rule_total fields st rule : runs fields rule -> is_ok (eval_rule fields st rule) = true.
Proof.
  intros [[matched Hc]%is_ok_spec (kvs & Ha & Ht)]. unfold eval_rule. rewrite Hc. cbn [mbind res_bind].
  destruct matched; [cbn [negb]|done]. unfold rule_message. rewrite Ha. cbn [get_prop mbind res_bind].
  destruct (own "message_template" kvs) as [[]|]; try done. cbn. by destruct (nonempty s).
Qed.

Lemma decision_exists rules fields ttl mode :
  (forall rule st, rule ∈ rules -> is_ok (eval_rule fields st rule) = true) ->
  exists d, evaluatePolicyDecision rules fields ttl mode = Ok d.
Proof.
  intros Hall. unfold evaluatePolicyDecision.
  assert (H : forall st, exists st', eval_rules fields st rules = Ok st').
  { induction rules as [|r rules IH]; intros st; [by exists st|]. cbn [eval_rules].
    assert (Hk := Hall r st (list_elem_of_here _ _)). destruct (eval_rule fields st r); [|done].
    apply IH. intros rule st' Hin. apply Hall. by apply list_elem_of_further. }
  destruct (H (eval_init ttl mode)) as [st ->]. cbn. case_match. eauto.
Qed.

Lemma decision_total rules fields ttl mode :
  Forall (runs fields) rules -> exists d, evaluatePolicyDecision rules fields ttl mode = Ok d.
Proof. intros Hall. apply decision_exists. intros rule st Hin. apply eval_rule_total. by rewrite Forall_forall in Hall; apply Hall. Qed.

(** ** Instances *)

Definition example_resolved (mode type_ code_ : string) (cond_ : jsval) : ResolvedRule :=
  {| id := "r"; ruleKey := "k"; policyId := "p"; policyRuleBindingId := "b";
     policyProjectBindingId := None; policyName := "base"; name := "rule"; description := None;
     targetEntity := "artifact"; condition := cond_;
     action := JObj [("type", JStr type_); ("code", JStr code_)];
     effectiveEnforcementMode := JStr mode; orderIndex := 0; policyPriority := 0 |}%string.

Definition always : jsval := encode (CAll []).
Definition never : jsval := encode (CAny []).

(** ** Properties *)

(** C1: the verdict is the documented one: a rule blocks when it matches, is of
    type violation (the default) and its mode is enforcing. With a blocking rule
    the request is blocked with the codes of all of them in order, the message of
    the first, no caching and no serve mode; otherwise it is allowed with the
    tenant's settings. Every matching rule of a known type is recorded, in order,
    and the counters count rules and matches. *)
Theorem verdict_spec rules fields ttl mode d :
  evaluatePolicyDecision rules fields ttl mode = Ok d -> d = verdict rules fields ttl mode.
Proof. apply evaluatePolicyDecision_verdict. Qed.

Lemma verdict_spec_witness :
  let rules := [example_resolved "advisory" "violation" "A" always;
                example_resolved "enforcing" "violation" "B" always;
                example_resolved "enforcing" "violation" "C" never;
                example_resolved "enforcing" "violation" "D" always]%string in
  exists d, evaluatePolicyDecision rules [] 300 PULL_MODE = Ok d /\
  d = verdict rules [] 300 PULL_MODE /\ decision d = DECISION_BLOCK /\ reason d = "B,D"%string /\
  cacheTtl d = 0 /\ rulesMatched d = 3%nat /\ length (collectedViolations d) = 3%nat.
Proof.
  intros rules. destruct (evaluatePolicyDecision rules [] 300 PULL_MODE) as [d|] eqn:E;
    [|vm_compute in E; discriminate E].
  exists d. split; [reflexivity|]. pose proof (verdict_spec _ _ _ _ _ E) as H.
  split; [exact H|]. rewrite H. vm_compute. repeat split.
Defined.

(** Adding rules never unblocks: if the rules of one evaluation are among
    those of another on the same fields, a block stays a block. *)
Theorem block_monotone rules rules' fields ttl mode d d' :
  rules ⊆ rules' ->
  evaluatePolicyDecision rules fields ttl mode = Ok d ->
  evaluatePolicyDecision rules' fields ttl mode = Ok d' ->
  decision d = DECISION_BLOCK -> decision d' = DECISION_BLOCK.
Proof.
  intros Hsub ->%evaluatePolicyDecision_verdict ->%evaluatePolicyDecision_verdict.
  rewrite !verdict_blocks. intros (r & Hr & Hm & Hb). exists r. auto.
Qed.

Lemma block_monotone_witness :
  let r := example_resolved "enforcing" "violation" "B" always in
  let r' := example_resolved "advisory" "warning" "A" always in
  exists d', evaluatePolicyDecision [r'; r] [] 300 PULL_MODE = Ok d' /\ decision d' = DECISION_BLOCK.
Proof.
  intros r r'. destruct (evaluatePolicyDecision [r] [] 300 PULL_MODE) as [d|] eqn:E;
    [|vm_compute in E; discriminate E].
  destruct (evaluatePolicyDecision [r'; r] [] 300 PULL_MODE) as [d'|] eqn:E';
    [|vm_compute in E'; discriminate E'].
  exists d'. split; [reflexivity|]. apply (block_monotone [r] [r'; r] [] 300 PULL_MODE d d'); auto.
  - intros x Hx. apply list_elem_of_singleton in Hx as ->. apply list_elem_of_further, list_elem_of_here.
  - vm_compute in E. injection E as <-. reflexivity.
Defined.

(** The order of the rules changes texts, not outcomes: on a reordering the
    decision, the caching, the serve mode and the counters are the same. *)
Theorem verdict_order_independent rules rules' fields ttl mode d d' :
  rules ≡ₚ rules' ->
  evaluatePolicyDecision rules fields ttl mode = Ok d ->
  evaluatePolicyDecision rules' fields ttl mode = Ok d' ->
  decision d = decision d' /\ cacheTtl d = cacheTtl d' /\ serveMode d = serveMode d' /\
  rulesEvaluated d = rulesEvaluated d' /\ rulesMatched d = rulesMatched d' /\
  collectedViolations d ≡ₚ collectedViolations d'.
Proof.
  intros Hp ->%evaluatePolicyDecision_verdict ->%evaluatePolicyDecision_verdict.
  assert (Hm := filter_b_perm (rule_matches fields) _ _ Hp).
  assert (Hb : blocking_matches fields rules ≡ₚ blocking_matches fields rules') by (by apply filter_b_perm).
  assert (Hr : recorded_matches fields rules ≡ₚ recorded_matches fields rules') by (by apply filter_b_perm).
  unfold verdict. apply Permutation_length in Hp, Hm.
  destruct (blocking_matches fields rules) as [|b bs].
  - apply Permutation_nil_l in Hb. rewrite <- Hb. cbn. rewrite Hp, Hm. repeat split. by apply Permutation_map.
  - destruct (blocking_matches fields rules') as [|b' bs'].
    + by apply Permutation_nil_r in Hb.
    + cbn. rewrite Hp, Hm. repeat split. by apply Permutation_map.
Qed.

Lemma verdict_order_independent_witness :
  let r := example_resolved "enforcing" "violation" "B" always in
  let r' := example_resolved "advisory" "warning" "A" always in
  exists d d', evaluatePolicyDecision [r; r'] [] 300 PULL_MODE = Ok d /\
    evaluatePolicyDecision [r'; r] [] 300 PULL_MODE = Ok d' /\ decision d = decision d'.
Proof.
  intros r r'. destruct (evaluatePolicyDecision [r; r'] [] 300 PULL_MODE) as [d|] eqn:E;
    [|vm_compute in E; discriminate E].
  destruct (evaluatePolicyDecision [r'; r] [] 300 PULL_MODE) as [d'|] eqn:E';
    [|vm_compute in E'; discriminate E'].
  exists d, d'. repeat split. apply (verdict_order_independent [r; r'] [r'; r] [] 300 PULL_MODE d d'); auto.
  apply perm_swap.
Defined.

Lemma collected_of_match rules fields ttl mode v :
  v ∈ collectedViolations (verdict rules fields ttl mode) <->
  exists r, v = make_violation r (rule_type r) (rule_text fields r) /\ r ∈ recorded_matches fields rules.
Proof. unfold verdict. case_match; cbn; rewrite list_elem_of_fmap; naive_solver. Qed.

Lemma blocked_by_recorded rules fields ttl mode d :
  evaluatePolicyDecision rules fields ttl mode = Ok d ->
  decision d = DECISION_BLOCK <-> exists v, v ∈ collectedViolations d /\ blocked v = true.
Proof.
  intros ->%evaluatePolicyDecision_verdict. rewrite verdict_blocks. split.
  - intros (r & Hr & Hm & Hb). exists (make_violation r (rule_type r) (rule_text fields r)).
    split; [|exact Hb]. apply collected_of_match. exists r. split; [reflexivity|]. unfold recorded_matches.
    rewrite !elem_of_filter_b. auto using rule_blocks_recorded.
  - intros (v & (r & -> & Hr)%collected_of_match & Hv). exists r. unfold recorded_matches in Hr.
    rewrite !elem_of_filter_b in Hr. naive_solver.
Qed.

(** The recorded violations explain the decision: the request is blocked
    exactly when one of them is marked blocked, and a marked one is of an
    enforcing rule. *)
Theorem recorded_violations_explain_decision rules fields ttl mode d :
  evaluatePolicyDecision rules fields ttl mode = Ok d ->
  (decision d = DECISION_BLOCK <-> exists v, v ∈ collectedViolations d /\ blocked v = true) /\
  (forall v, v ∈ collectedViolations d -> blocked v = true ->
     enforcement_mode v = JStr ENFORCEMENT_MODE.ENFORCING).
Proof.
  intros Hd. split; [by eapply blocked_by_recorded|].
  apply evaluatePolicyDecision_verdict in Hd as ->. intros v (r & -> & _)%collected_of_match Hb.
  cbn in *. unfold is_blocking in Hb. apply andb_prop in Hb as [_ Hb]. by apply strict_eq_str.
Qed.

Lemma recorded_violations_explain_decision_witness :
  let r := example_resolved "enforcing" "violation" "B" always in
  exists d, evaluatePolicyDecision [r] [] 300 PULL_MODE = Ok d /\
    exists v, v ∈ collectedViolations d /\ blocked v = true.
Proof.
  intros r. destruct (evaluatePolicyDecision [r] [] 300 PULL_MODE) as [d|] eqn:E;
    [|vm_compute in E; discriminate E].
  exists d. split; [reflexivity|]. apply (recorded_violations_explain_decision _ _ _ _ _ E).
  vm_compute in E. injection E as <-. reflexivity.
Defined.

(** The evaluation returns a verdict whenever every effective rule has a
    condition of the grammar and an object action whose message template is
    absent or a string, whatever the field map. *)
Theorem verdict_total rules fields ttl mode :
  Forall evaluable rules -> exists d, evaluatePolicyDecision rules fields ttl mode = Ok d.
Proof. intros Hall. apply decision_total. eapply Forall_impl; [exact Hall|]. intros r. apply evaluable_runs. Qed.

Lemma verdict_total_witness :
  exists d, evaluatePolicyDecision [example_resolved "enforcing" "violation" "B" always] [] 300 PULL_MODE = Ok d.
Proof.
  apply verdict_total. repeat constructor.
  - exists (CAll []). reflexivity.
  - eexists. split; [reflexivity|]. exact I.
Defined.
