(* ===== verification/JsDate.v ===== *)
(** * JavaScript dates

    A [Date] is its time value, milliseconds since the epoch, or nothing for an
    Invalid Date.  [toISOString] converts through the proleptic Gregorian
    calendar; [date_parse] reads the date-time string format that ECMAScript
    fixes, with UTC as the local zone.  Other strings, whose parsing ECMAScript
    leaves to the implementation, give an Invalid Date. *)

From Stdlib Require Import Ascii.
From S2P Require Import Prelude JsString JsNum.
Local Open Scope Z_scope.

Definition MS_PER_DAY : Z := 86400000.

(** Year, month and day of a number of days since 1970-01-01, by 400-year eras
    that start on the first of March. *)
Definition civil_from_days (days : Z) : Z * Z * Z :=
  let z := days + 719468 in
  let era := z / 146097 in
  let doe := z mod 146097 in
  let yoe := (doe - doe / 1460 + doe / 36524 - doe / 146096) / 365 in
  let doy := doe - (365 * yoe + yoe / 4 - yoe / 100) in
  let mp := (5 * doy + 2) / 153 in
  let d := doy - (153 * mp + 2) / 5 + 1 in
  let m := if mp <? 10 then mp + 3 else mp - 9 in
  let y := yoe + era * 400 in
  (if m <=? 2 then y + 1 else y, m, d).

Definition pad (width : nat) (z : Z) : string :=
  let s := digits z in
  repeat_char (width - String.length s) "0"%char +:+ s.

(** [toISOString] for years 0 to 9999. *)
Definition toISOString (t : Z) : string :=
  let '(y, m, d) := civil_from_days (t / MS_PER_DAY) in
  let ms := t mod MS_PER_DAY in
  pad 4 y +:+ "-" +:+ pad 2 m +:+ "-" +:+ pad 2 d +:+ "T" +:+
  pad 2 (ms / 3600000) +:+ ":" +:+ pad 2 (ms / 60000 mod 60) +:+ ":" +:+
  pad 2 (ms / 1000 mod 60) +:+ "." +:+ pad 3 (ms mod 1000) +:+ "Z".

Example toISOString_ex :
  map toISOString [0; 951782400000; 1709210096789; 253402300799999]
  = ["1970-01-01T00:00:00.000Z"; "2000-02-29T00:00:00.000Z";
     "2024-02-29T12:34:56.789Z"; "9999-12-31T23:59:59.999Z"]%string.
Proof. vm_compute. reflexivity. Qed.

(** [(now - then) / unit] as a number. *)
Definition elapsed (now then_ unit : Z) : num :=
  num_div (num_of_Z (now - then_)) (num_of_Z unit).

(** ** [Date] objects *)

Definition date : Type := option Z.

Definition date_toISOString (d : date) : res string :=
  match d with
  | Some t => Ok (toISOString t)
  | None => Throw "RangeError"
  end.

(** [d.getTime()] *)
Definition getTime (d : date) : num := from_option num_of_Z num_nan d.

Definition days_from_civil (y m d : Z) : Z :=
  let y := if m <=? 2 then y - 1 else y in
  let era := y / 400 in
  let yoe := y mod 400 in
  let doy := (153 * (if 2 <? m then m - 3 else m + 9) + 2) / 5 + d - 1 in
  let doe := yoe * 365 + yoe / 4 - yoe / 100 + doy in
  era * 146097 + doe - 719468.

Definition days_in_month (y m : Z) : Z :=
  if m =? 2 then
    if (y mod 4 =? 0) && (negb (y mod 100 =? 0) || (y mod 400 =? 0)) then 29 else 28
  else if existsb (Z.eqb m) [4; 6; 9; 11] then 30 else 31.

(** Exactly [n] decimal digits. *)
Fixpoint fixed_digits (n : nat) (s : string) (acc : Z) : option (Z * string) :=
  match n with
  | O => Some (acc, s)
  | S n =>
      match s with
      | String c s => d ← digit_value c; fixed_digits n s (acc * 10 + d)
      | EmptyString => None
      end
  end.

Definition in_range (lo hi : Z) (o : option (Z * string)) : option (Z * string) :=
  '(v, s) ← o; if (lo <=? v) && (v <=? hi) then Some (v, s) else None.

(** Milliseconds of a fraction of a second; digits beyond the third are dropped. *)
Definition read_fraction (s : string) : option (Z * string) :=
  let '(v, c, rest) := read_digits s 0 0 in
  if c =? 0 then None
  else Some (if c <=? 3 then v * 10 ^ (3 - c) else v / 10 ^ (c - 3), rest).

Definition read_offset (s : string) : option Z :=
  let off sgn t :=
    '(h, t) ← in_range 0 23 (fixed_digits 2 t 0);
    match t with
    | String ":"%char t =>
        '(m, t) ← in_range 0 59 (fixed_digits 2 t 0);
        if nonempty t then None else Some (sgn * (h * 60 + m) * 60000)
    | _ => None
    end in
  match s with
  | EmptyString | String "Z"%char EmptyString => Some 0
  | String "+"%char t => off 1 t
  | String "-"%char t => off (-1) t
  | _ => None
  end.

Definition read_time (s : string) : option Z :=
  '(h, s) ← in_range 0 24 (fixed_digits 2 s 0);
  match s with
  | String ":"%char s =>
      '(m, s) ← in_range 0 59 (fixed_digits 2 s 0);
      '(sec, s) ← match s with
                  | String ":"%char s => in_range 0 59 (fixed_digits 2 s 0)
                  | _ => Some (0, s)
                  end;
      '(ms, s) ← match s with
                 | String "."%char s => read_fraction s
                 | _ => Some (0, s)
                 end;
      let t := ((h * 60 + m) * 60 + sec) * 1000 + ms in
      if MS_PER_DAY <? t then None else off ← read_offset s; Some (t - off)
  | _ => None
  end.

(** [new Date(s)] for a string argument. *)
Definition date_parse (s : string) : date :=
  '(y, s) ← fixed_digits 4 s 0;
  '(mo, s) ← match s with
             | String "-"%char s => in_range 1 12 (fixed_digits 2 s 0)
             | _ => Some (1, s)
             end;
  '(d, s) ← match s with
            | String "-"%char s => in_range 1 (days_in_month y mo) (fixed_digits 2 s 0)
            | _ => Some (1, s)
            end;
  let day := days_from_civil y mo d * MS_PER_DAY in
  match s with
  | EmptyString => Some day
  | String "T"%char s => t ← read_time s; Some (day + t)
  | _ => None
  end.

Example date_parse_ex :
  map date_parse
    ["1970-01-01"; "2000-02-29T00:00:00Z"; "2024-02-29T12:34:56.789Z"; "2024-02-30";
     "2024-02-29T14:34:56.78999+02:00"; "2024-02"; "yesterday"]%string
  = [Some 0; Some 951782400000; Some 1709210096789; None; Some 1709210096789;
     Some 1706745600000; None].
Proof. vm_compute. reflexivity. Qed.

(** ** Reading a date back

    [date_parse] undoes [toISOString] on every time value of the years 0 to 9999. *)

Local Ltac zdiv := Z.to_euclidean_division_equations; lia.

(** The first day of year [k] of an era, counted from the era's start. *)
Definition year_start (k : Z) : Z := if k <? 400 then 365 * k + k / 4 - k / 100 else 146097.
Definition year_of_day (doe : Z) : Z := (doe - doe / 1460 + doe / 36524 - doe / 146096) / 365.

Definition is_leap (y : Z) : bool := (y mod 4 =? 0) && (negb (y mod 100 =? 0) || (y mod 400 =? 0)).

Definition upto (n : nat) : list Z := map Z.of_nat (seq 0 n).

Lemma upto_spec (P : Z -> bool) n z :
  forallb P (upto n) = true -> 0 <= z < Z.of_nat n -> P z = true.
Proof.
  intros H Hz. rewrite forallb_forall in H. apply H. apply in_map_iff. exists (Z.to_nat z).
  split; [lia|]. apply in_seq. lia.
Qed.

(** Each year starts and ends where its number is computed, and has a 366th day
    only when the February it ends with is a leap one. *)
Lemma years_checked :
  forallb (fun k => (year_of_day (year_start k) =? k) && (year_of_day (year_start (k + 1) - 1) =? k)
                    && (year_start (k + 1) - year_start k =? (if is_leap (k + 1) then 366 else 365)))
    (upto 400) = true.
Proof. vm_compute. reflexivity. Qed.

Lemma year_of_day_mono a b : 0 <= a <= b -> b < 146097 -> year_of_day a <= year_of_day b.
Proof.
  intros Ha Hb. unfold year_of_day. apply Z.div_le_mono; [lia|].
  destruct (Z.eq_dec a b) as [->|]; [lia|].
  replace (a / 146096) with 0 by (symmetry; apply Z.div_small; lia). zdiv.
Qed.

Lemma day_in_year n doe :
  0 <= doe < year_start (Z.of_nat n) -> (n <= 400)%nat ->
  exists k, 0 <= k < Z.of_nat n /\ year_start k <= doe < year_start (k + 1).
Proof.
  induction n as [|n IH]; intros Hd Hn.
  - change (year_start (Z.of_nat 0)) with 0 in Hd. lia.
  - destruct (Z.lt_ge_cases doe (year_start (Z.of_nat n))) as [H|H].
    + destruct IH as (k & Hk & Hy); [lia|lia|]. exists k. split; [lia|done].
    + exists (Z.of_nat n). split; [lia|]. replace (Z.of_nat n + 1) with (Z.of_nat (S n)) by lia. lia.
Qed.

Lemma year_start_bounds k : 0 <= k -> 0 <= year_start k <= 146097.
Proof. intros Hk. unfold year_start. destruct (Z.ltb_spec k 400); [zdiv|lia]. Qed.

(** Year and day of the year of a day of an era. *)
Lemma year_of_day_spec doe :
  0 <= doe < 146097 ->
  let k := year_of_day doe in
  0 <= k < 400 /\ year_start k <= doe < year_start k + (if is_leap (k + 1) then 366 else 365).
Proof.
  intros Hd. destruct (day_in_year 400 doe) as (k & Hk & Hy); [exact Hd|lia|].
  assert (H := upto_spec _ 400 k years_checked Hk). cbv beta in H.
  apply andb_prop in H as [H H3]. apply andb_prop in H as [H1 H2].
  apply Z.eqb_eq in H1, H2, H3.
  assert (Hb := year_start_bounds k (proj1 Hk)). assert (Hb' := year_start_bounds (k + 1)).
  assert (year_of_day doe = k) as ->.
  { apply Z.le_antisymm.
    - rewrite <- H2. apply year_of_day_mono; lia.
    - rewrite <- H1 at 1. apply year_of_day_mono; lia. }
  cbv zeta. lia.
Qed.

(** Month and day of a day of a year that starts in March. *)
Definition month_of (doy : Z) : Z := let mp := (5 * doy + 2) / 153 in if mp <? 10 then mp + 3 else mp - 9.
Definition day_of (doy : Z) : Z := doy - (153 * ((5 * doy + 2) / 153) + 2) / 5 + 1.

Lemma months_checked :
  forallb (fun doy => let m := month_of doy in let d := day_of doy in
     ((153 * (if 2 <? m then m - 3 else m + 9) + 2) / 5 + d - 1 =? doy) &&
     (1 <=? m) && (m <=? 12) && (1 <=? d) && ((m <=? 2) || (doy <? 306)) && ((2 <? m) || (306 <=? doy)) &&
     (d <=? (if m =? 2 then if doy <? 365 then 28 else 29
             else if existsb (Z.eqb m) [4; 6; 9; 11] then 30 else 31))) (upto 366) = true.
Proof. vm_compute. reflexivity. Qed.

Lemma is_leap_era y e : is_leap (y + e * 400) = is_leap y.
Proof.
  unfold is_leap. replace (y + e * 400) with (y + (e * 100) * 4) at 1 by lia.
  replace (y + e * 400) with (y + (e * 4) * 100) at 1 by lia. by rewrite !Z_mod_plus_full.
Qed.

Lemma days_in_month_eq y m :
  days_in_month y m = if m =? 2 then if is_leap y then 29 else 28
                      else if existsb (Z.eqb m) [4; 6; 9; 11] then 30 else 31.
Proof. reflexivity. Qed.

Lemma days_in_month_bound y m : days_in_month y m < 100.
Proof. rewrite days_in_month_eq. by destruct (m =? 2), (is_leap y), (existsb (Z.eqb m) [4; 6; 9; 11]). Qed.

(** The parts of a day in terms of its era, its year and its day of the year. *)
Lemma civil_parts days :
  exists era k doy,
    0 <= k < 400 /\ 0 <= doy < (if is_leap (k + 1) then 366 else 365) /\
    days + 719468 = era * 146097 + (365 * k + k / 4 - k / 100) + doy /\
    civil_from_days days
    = ((if month_of doy <=? 2 then k + era * 400 + 1 else k + era * 400), month_of doy, day_of doy).
Proof.
  set (z := days + 719468). exists (z / 146097). 
  assert (Hd : 0 <= z mod 146097 < 146097) by (apply Z.mod_pos_bound; lia).
  destruct (year_of_day_spec (z mod 146097) Hd) as [Hk Hy].
  set (k := year_of_day (z mod 146097)) in *.
  assert (Hs : year_start k = 365 * k + k / 4 - k / 100).
  { unfold year_start. by rewrite (proj2 (Z.ltb_lt k 400)) by lia. }
  exists k, (z mod 146097 - year_start k). split; [done|]. split; [lia|]. split.
  - rewrite Hs. pose proof (Z.div_mod z 146097 ltac:(lia)). lia.
  - rewrite Hs. reflexivity.
Qed.

Lemma civil_roundtrip days :
  let '(y, m, d) := civil_from_days days in
  days_from_civil y m d = days /\ 1 <= m <= 12 /\ 1 <= d <= days_in_month y m /\
  (-719528 <= days <= 2932896 -> 0 <= y <= 9999).
Proof.
  destruct (civil_parts days) as (era & k & doy & Hk & Hdoy & Hz & ->).
  assert (Hm : 0 <= doy < Z.of_nat 366) by (destruct (is_leap _); lia).
  assert (H := upto_spec _ 366 doy months_checked Hm). cbv beta zeta in H.
  repeat match goal with H : _ && _ = true |- _ => apply andb_prop in H as [H ?] end.
  rewrite ?Z.eqb_eq, ?Z.leb_le, ?orb_true_iff, ?Z.ltb_lt, ?Z.leb_le in *.
  rewrite days_in_month_eq. repeat split; try lia.
  - unfold days_from_civil. destruct (Z.leb_spec (month_of doy) 2).
    + replace (k + era * 400 + 1 - 1) with (k + era * 400) by lia.
      rewrite Z.div_add, Z.mod_add, Z.div_small, Z.mod_small by lia. lia.
    + rewrite Z.div_add, Z.mod_add, Z.div_small, Z.mod_small by lia. lia.
  - destruct (Z.eqb_spec (month_of doy) 2) as [E|]; [|done].
    rewrite E in *. cbn [Z.leb Z.compare Pos.compare Pos.compare_cont] in *.
    replace (k + era * 400 + 1) with (k + 1 + era * 400) by lia. rewrite is_leap_era.
    destruct (is_leap (k + 1)); destruct (doy <? 365) eqn:El; rewrite ?Z.ltb_ge in *; lia.
  - destruct (Z.leb_spec (month_of doy) 2); zdiv.
  - destruct (Z.leb_spec (month_of doy) 2); zdiv.
Qed.

(** The text of a field reads back as its number. *)
Lemma fixed_digits_app n p s v acc :
  fixed_digits n p acc = Some (v, EmptyString) -> fixed_digits n (p +:+ s) acc = Some (v, s).
Proof.
  revert p acc. induction n as [|n IH]; intros p acc H.
  - cbn in *. by injection H as -> ->.
  - cbn [fixed_digits] in *. destruct p as [|c p]; [done|]. rewrite app_cons.
    destruct (digit_value c); cbn [mbind option_bind] in *; [|done]. auto.
Qed.

Lemma fixed_digits_plus n m p acc v t :
  fixed_digits n p acc = Some (v, t) -> fixed_digits (n + m) p acc = fixed_digits m t v.
Proof.
  revert p acc. induction n as [|n IH]; intros p acc H.
  - cbn in H. by injection H as -> ->.
  - cbn [fixed_digits Nat.add] in *. destruct p as [|c p]; [done|].
    destruct (digit_value c); cbn [mbind option_bind] in *; [|done]. auto.
Qed.

Lemma digit_value_char d : 0 <= d < 10 -> digit_value (digit_char d) = Some d.
Proof.
  intros Hd. assert (H : forallb (fun d => bool_decide (digit_value (digit_char d) = Some d)) (upto 10) = true)
    by (vm_compute; reflexivity).
  apply (upto_spec _ 10 d) in H; [|done]. by apply bool_decide_eq_true in H.
Qed.

(** One more digit of room reads one more digit. *)
Lemma digits_go_app fuel z acc : digits_go fuel z acc = digits_go fuel z EmptyString +:+ acc.
Proof.
  revert z acc. induction fuel as [|fuel IH]; intros z acc; [done|]. cbn [digits_go].
  destruct (z <? 10); [done|]. rewrite (IH _ (String _ acc)), (IH _ (String _ EmptyString)).
  by rewrite app_assoc_str, app_cons, app_empty_l.
Qed.

Lemma repeat_zero_read n w s acc :
  fixed_digits (n + w) (repeat_char n "0"%char +:+ s) acc = fixed_digits w s (acc * 10 ^ Z.of_nat n).
Proof.
  revert acc. induction n as [|n IH]; intros acc.
  - by rewrite Z.mul_1_r.
  - cbn [repeat_char]. rewrite app_cons. cbn [Nat.add fixed_digits]. change (digit_value "0") with (Some 0).
    cbn [mbind option_bind]. rewrite IH. f_equal. rewrite Nat2Z.inj_succ, Z.pow_succ_r by lia. lia.
Qed.

Lemma digits_go_read fuel z s acc :
  0 <= z < 2 ^ Z.of_nat fuel -> fuel <> O ->
  let d := digits_go fuel z EmptyString in
  let n := String.length d in
  fixed_digits n (d +:+ s) acc = Some (acc * 10 ^ Z.of_nat n + z, s) /\
  forall w, z < 10 ^ Z.of_nat w -> w <> O -> (n <= w)%nat.
Proof.
  revert z s. induction fuel as [|fuel IH]; intros z s Hz Hf; [done|]. cbn [digits_go].
  destruct (Z.ltb_spec z 10).
  - rewrite Z.mod_small by lia. cbn [String.length fixed_digits]. rewrite app_cons, digit_value_char by lia.
    cbn [mbind option_bind fixed_digits]. rewrite app_empty_l. split; [reflexivity|lia].
  - destruct fuel as [|fuel]; [change (2 ^ Z.of_nat 1) with 2 in Hz; lia|].
    assert (Hq : 0 <= z / 10 < 2 ^ Z.of_nat (S fuel)).
    { rewrite Nat2Z.inj_succ, Z.pow_succ_r in Hz by lia. split; [zdiv|]. apply Z.div_lt_upper_bound; lia. }
    destruct (IH (z / 10) (String (digit_char (z mod 10)) s) Hq ltac:(done)) as [H1 H2].
    rewrite digits_go_app. set (d := digits_go (S fuel) (z / 10) EmptyString) in *. cbv zeta in *.
    rewrite length_app_str. cbn [String.length]. rewrite app_assoc_str, app_cons, app_empty_l.
    split.
    + rewrite fixed_digits_plus with (v := acc * 10 ^ Z.of_nat (String.length d) + z / 10) (t := String (digit_char (z mod 10)) s) by exact H1.
      cbn [fixed_digits]. rewrite digit_value_char by (apply Z.mod_pos_bound; lia). cbn [mbind option_bind].
      do 2 f_equal. rewrite Nat2Z.inj_add, Z.pow_add_r by lia. change (10 ^ Z.of_nat 1) with 10.
      pose proof (Z.div_mod z 10 ltac:(lia)). lia.
    + intros w Hw Hw0. destruct w as [|[|w]]; [done|change (10 ^ Z.of_nat 1) with 10 in Hw; lia|].
      enough (String.length d <= S w)%nat by lia. apply H2; [|done].
      rewrite Nat2Z.inj_succ, Z.pow_succ_r in Hw by lia. apply Z.div_lt_upper_bound; lia.
Qed.

Lemma read_pad w z s : w <> O -> 0 <= z < 10 ^ Z.of_nat w -> fixed_digits w (pad w z +:+ s) 0 = Some (z, s).
Proof.
  intros Hw Hz. unfold pad, digits.
  assert (Hf : 0 <= z < 2 ^ Z.of_nat (S (Z.to_nat (Z.log2 z)))).
  { split; [lia|]. rewrite Nat2Z.inj_succ, Z2Nat.id by apply Z.log2_nonneg.
    destruct (Z.eq_dec z 0) as [->|]; [done|]. apply Z.log2_spec. lia. }
  destruct (digits_go_read _ z s 0 Hf ltac:(done)) as [H1 H2].
  specialize (H2 w ltac:(lia) Hw). set (d := digits_go _ z EmptyString) in *. cbv zeta in *.
  rewrite app_assoc_str. replace w with (w - String.length d + String.length d)%nat at 1 by lia.
  rewrite repeat_zero_read, Z.mul_0_l. rewrite H1. do 2 f_equal.
Qed.

Lemma app_char c s : String c EmptyString +:+ s = String c s.
Proof. by rewrite app_cons, app_empty_l. Qed.

Lemma in_range_pad2 lo hi z s :
  0 <= lo <= z -> z <= hi -> hi < 100 -> in_range lo hi (fixed_digits 2 (pad 2 z +:+ s) 0) = Some (z, s).
Proof.
  intros Hlo Hz Hhi. rewrite (read_pad 2) by (change (10 ^ Z.of_nat 2) with 100; lia).
  unfold in_range. cbn [mbind option_bind]. by rewrite !(proj2 (Z.leb_le _ _)) by lia.
Qed.

Lemma read_time_pad h m s ms :
  0 <= h < 24 -> 0 <= m < 60 -> 0 <= s < 60 -> 0 <= ms < 1000 ->
  read_time (pad 2 h +:+ ":" +:+ pad 2 m +:+ ":" +:+ pad 2 s +:+ "." +:+ pad 3 ms +:+ "Z")
  = Some (((h * 60 + m) * 60 + s) * 1000 + ms).
Proof.
  intros Hh Hm Hs Hms. unfold read_time. rewrite !app_char.
  do 3 (rewrite in_range_pad2 by lia; cbn [mbind option_bind]).
  assert (Hf : read_fraction (pad 3 ms +:+ "Z") = Some (ms, "Z"%string)).
  { unfold read_fraction. assert (H3 := read_pad 3 ms "Z" ltac:(done) Hms).
    assert (H : read_digits (pad 3 ms +:+ "Z") 0 0 = (ms, 3, "Z"%string)).
    { cbn [fixed_digits] in H3. destruct (pad 3 ms +:+ "Z") as [|c1 s1]; [done|]. cbn [read_digits].
      destruct (digit_value c1); cbn [mbind option_bind] in H3; [|done].
      destruct s1 as [|c2 s2]; [done|]. cbn [read_digits].
      destruct (digit_value c2); cbn [mbind option_bind] in H3; [|done].
      destruct s2 as [|c3 s3]; [done|]. cbn [read_digits].
      destruct (digit_value c3); cbn [mbind option_bind] in H3; [|done].
      injection H3 as H3 ->. by rewrite <- H3. }
    rewrite H. cbn. rewrite Z.mul_1_r. reflexivity. }
  rewrite Hf. cbn [mbind option_bind].
  rewrite (proj2 (Z.ltb_ge _ _)) by (unfold MS_PER_DAY; lia). cbn. f_equal. lia.
Qed.

Lemma date_parse_pad y m d s :
  0 <= y < 10000 -> 1 <= m <= 12 -> 1 <= d <= days_in_month y m ->
  date_parse (pad 4 y +:+ "-" +:+ pad 2 m +:+ "-" +:+ pad 2 d +:+ "T" +:+ s)
  = t ← read_time s; Some (days_from_civil y m d * MS_PER_DAY + t).
Proof.
  intros Hy Hm Hd. unfold date_parse. rewrite !app_char. assert (Hb := days_in_month_bound y m).
  rewrite (read_pad 4) by (change (10 ^ Z.of_nat 4) with 10000; lia). cbn [mbind option_bind].
  rewrite in_range_pad2 by lia. cbn [mbind option_bind].
  rewrite in_range_pad2 by lia. reflexivity.
Qed.

Lemma day_split ms :
  0 <= ms ->
  ((ms / 3600000 * 60 + ms / 60000 mod 60) * 60 + ms / 1000 mod 60) * 1000 + ms mod 1000 = ms.
Proof. zdiv. Qed.

Lemma date_roundtrip t :
  -62167219200000 <= t <= 253402300799999 -> date_parse (toISOString t) = Some t.
Proof.
  intros Ht. unfold toISOString.
  assert (H := civil_roundtrip (t / MS_PER_DAY)).
  destruct (civil_from_days (t / MS_PER_DAY)) as [[y m] d]. destruct H as (Hd & Hm & Hdd & Hy).
  assert (Hy' : 0 <= y <= 9999) by (apply Hy; unfold MS_PER_DAY; zdiv). clear Hy Ht.
  rewrite date_parse_pad by (done || lia). rewrite Hd.
  assert (Hms := Z.mod_pos_bound t MS_PER_DAY ltac:(done)).
  assert (Ht := Z.div_mod t MS_PER_DAY ltac:(done)).
  revert Hms Ht. generalize (t mod MS_PER_DAY) (t / MS_PER_DAY). unfold MS_PER_DAY. intros ms q Hms Ht.
  rewrite read_time_pad by (clear -Hms; first [apply Z.mod_pos_bound; lia | zdiv]).
  cbn [mbind option_bind]. rewrite day_split by lia. f_equal. lia.
Qed.
