(* ===== verification/ConnectorTypes.v ===== *)
(** * Connector contracts (services/api/src/connectors/types.ts, events.ts)

    The data that flows between the dispatcher, the cache and the connectors,
    the interface every connector implements, and the events dispatched to it. *)

From S2P Require Import Prelude JsString JsNum JsValue Sql JsDate.
Local Open Scope Z_scope.

(** ** Severities *)

Inductive VulnSeverity : Type := CRITICAL | HIGH | MEDIUM | LOW | NONE.

#[export] Instance VulnSeverity_eq_dec : EqDecision VulnSeverity.
Proof. solve_decision. Defined.

Definition SEVERITY_INDEX (s : VulnSeverity) : Z :=
  match s with CRITICAL => 0 | HIGH => 1 | MEDIUM => 2 | LOW => 3 | NONE => 4 end.

Definition severity_name (s : VulnSeverity) : string :=
  match s with
  | CRITICAL => "CRITICAL" | HIGH => "HIGH" | MEDIUM => "MEDIUM" | LOW => "LOW" | NONE => "NONE"
  end.

Definition severity_eqb (a b : VulnSeverity) : bool := bool_decide (a = b).

(** ** Results *)

Record ConnectorFinding := {
  findingId : string; f_severity : VulnSeverity; f_title : option string;
  publishedAt : option date; attributes : list (string * jsval)
}.

Record SeverityCounts := { n_critical : Z; n_high : Z; n_medium : Z; n_low : Z }.

Record VulnerabilitySummary := {
  maxSeverity : VulnSeverity; findingCount : Z; fixAvailable : bool;
  bestFixVersion : option string; severityCounts : option SeverityCounts
}.

Record RiskSummary := { tier : VulnSeverity; score : option num }.

Record RemediationSummary := { available : bool; best : option string }.

(** The typed blocks of a summary; [s_intelligence] is the intelligence
    connector's own block under its index signature. *)
Record ConnectorResultSummary := {
  s_risk : option RiskSummary; s_findings : option Z;
  s_remediation : option RemediationSummary; s_vulnerability : option VulnerabilitySummary;
  s_intelligence : option (list (string * jsval))
}.

(** [legacy] holds the top-level vulnerability properties of a result of the older
    shape, which the cache still accepts; no connector produces them. *)
Record ConnectorResult := {
  findings : list ConnectorFinding; summary : option ConnectorResultSummary;
  ttlSeconds : option Z; legacy : option VulnerabilitySummary
}.

(** ** Snapshots *)

Inductive connector_status : Type :=
| st_ok | st_cache_hit | st_timeout | st_unavailable | st_error | st_background_pending.

#[export] Instance connector_status_eq_dec : EqDecision connector_status.
Proof. solve_decision. Defined.

Definition status_name (s : connector_status) : string :=
  match s with
  | st_ok => "ok" | st_cache_hit => "cache_hit" | st_timeout => "timeout"
  | st_unavailable => "unavailable" | st_error => "error"
  | st_background_pending => "background_pending"
  end.

Record ConnectorSnapshotMeta := {
  m_status : connector_status; responseTimeMs : Z; cacheAgeHours : option num;
  isCacheHit : bool; errorCode : option string
}.

Record EntityContext := {
  c_packageId : option string; c_packageVersionId : option string; c_ecosystem : string;
  c_pkg : string; c_version : option string; c_displayName : string;
  c_isCacheHit : bool; c_responseTimeMs : Z; c_cacheAgeHours : option num
}.

Record ConnectorSnapshot := {
  connectorKey : string; entityType : string; packageId : option string;
  packageVersionId : option string; ecosystem : string; packageName : string;
  version : option string; displayName : string; fields : list (string * jsval);
  meta : ConnectorSnapshotMeta; observedAt : timestamp
}.

(** [SEVERITY_COUNTS] of a list of findings by a severity projection. *)
Definition count_severity {A} (sev : A -> VulnSeverity) (l : list A) (s : VulnSeverity) : Z :=
  Z.of_nat (length (List.filter (fun x => severity_eqb (sev x) s) l)).

Definition severity_counts {A} (sev : A -> VulnSeverity) (l : list A) : SeverityCounts :=
  {| n_critical := count_severity sev l CRITICAL; n_high := count_severity sev l HIGH;
     n_medium := count_severity sev l MEDIUM; n_low := count_severity sev l LOW |}.

(** ** Field catalogue *)

Record ConnectorField := {
  cf_connectorKey : string; fieldKey : string; canonicalRef : string; label : string;
  cf_description : option string; dataType : string; cf_entityType : string; operators : list string;
  enumValues : option (list string)
}.

Record ConnectorFindingField := {
  ff_key : string; ff_label : string; ff_dataType : string; ff_display : option string
}.

(** The operator lists the catalogues share, and the values of [_meta.status]. *)
Definition intOps : list string := ["eq"; "ne"; "gt"; "gte"; "lt"; "lte"]%string.
Definition strOps : list string := ["eq"; "ne"; "in"; "not_in"]%string.
Definition boolOps : list string := ["is_true"; "is_false"]%string.
Definition floatOps : list string := ["gt"; "gte"; "lt"; "lte"]%string.
Definition metaStrOps : list string := ["eq"; "ne"; "in"; "not_in"; "exists"; "not_exists"]%string.
Definition anyOps : list string := ["exists"; "not_exists"; "eq"; "ne"]%string.
Definition STATUSES : list string :=
  ["ok"; "cache_hit"; "timeout"; "unavailable"; "error"; "background_pending"]%string.

(** An entry of a catalogue; every one of them is about artifacts. *)
Definition catalog_field (key fieldKey canonicalRef label : string) (description : option string)
    (dataType : string) (operators : list string) (enumValues : option (list string))
  : ConnectorField :=
  {| cf_connectorKey := key; fieldKey := fieldKey; canonicalRef := canonicalRef; label := label;
     cf_description := description; dataType := dataType; cf_entityType := "artifact";
     operators := operators; enumValues := enumValues |}.

Definition finding_field (key label dataType : string) (display : option string)
  : ConnectorFindingField :=
  {| ff_key := key; ff_label := label; ff_dataType := dataType; ff_display := display |}.

(** ** Events *)

Inductive event_kind : Type := package_metadata | artifact_request.

#[export] Instance event_kind_eq_dec : EqDecision event_kind.
Proof. solve_decision. Defined.

Inductive execution_mode : Type := sync_required | async_preferred | async_only.

#[export] Instance execution_mode_eq_dec : EqDecision execution_mode.
Proof. solve_decision. Defined.

Record ConnectorEventContext := {
  ctx_tenantId : option string; ctx_projectId : option string; ctx_requestId : option string;
  ctx_traceId : option string; ctx_proxyId : option string
}.

(** A [ConnectorArtifactEvent]; a package-metadata event has neither version nor
    version id. *)
Record ConnectorEvent := {
  e_id : string; e_kind : event_kind; e_packageId : string; e_packageVersionId : option string;
  e_ecosystem : string; e_packageName : string; e_version : option string;
  e_source : string; e_observedAt : timestamp; e_context : option ConnectorEventContext
}.

Record ConnectorEventSubscription := {
  sub_kind : event_kind; executionMode : execution_mode
}.

(** [readonly string[] | "all"] *)
Inductive ecosystems : Type :=
| all_ecosystems
| only (names : list string).

(** The interface [PackageIntelligenceConnector], less the parts used at startup
    and [handleEvent], the asynchronous fetch, which a connector's file defines
    with the outside service it calls: what its promise settles to, and whether
    it does before the response deadline. *)
Record fetch_outcome := { settles : res (option ConnectorResult); in_time : bool }.

Class PackageIntelligenceConnector (C : Type) : Type := {
  connector_id : C -> string;
  cacheTtlSeconds : C -> Z;
  supportedEcosystems : C -> ecosystems;
  subscribedEvents : C -> list ConnectorEventSubscription;
  readSnapshots : C -> bool;
  supportsEvent : C -> ConnectorEvent -> bool;
  normalizeToSnapshot : C -> option ConnectorResult -> EntityContext ->
    option connector_status -> option string -> timestamp -> ConnectorSnapshot;
  getFieldCatalog : C -> list ConnectorField
}.

(** What the dispatcher relies on: a snapshot carries its connector's key, and a
    failure leaves no data field behind. *)
Class LawfulConnector (C : Type) `{PackageIntelligenceConnector C} : Prop := {
  snapshot_key c result ctx failure err now :
    connectorKey (normalizeToSnapshot c result ctx failure err now) = connector_id c;
  snapshot_identity c result ctx failure err now :
    let s := normalizeToSnapshot c result ctx failure err now in
    packageId s = c_packageId ctx /\ packageVersionId s = c_packageVersionId ctx /\
    entityType s = "artifact";
  snapshot_status c result ctx failure err now :
    m_status (meta (normalizeToSnapshot c result ctx failure err now)) =
    default (if c_isCacheHit ctx then st_cache_hit else st_ok) failure;
  snapshot_no_result c ctx failure err now :
    fields (normalizeToSnapshot c None ctx failure err now) = [];
  snapshot_fields_declared c result ctx failure err now k v :
    (k, v) ∈ fields (normalizeToSnapshot c result ctx failure err now) ->
    k <> "_meta" /\ startsWith k "_meta." = false;
  snapshot_fields_NoDup c result ctx failure err now :
    NoDup (fields (normalizeToSnapshot c result ctx failure err now)).*1
}.

(** The [meta] block every connector builds the same way. *)
Definition build_meta (ctx : EntityContext) (failureStatus : option connector_status)
    (errorCode : option string) : ConnectorSnapshotMeta :=
  {| m_status := default (if c_isCacheHit ctx then st_cache_hit else st_ok) failureStatus;
     responseTimeMs := c_responseTimeMs ctx; cacheAgeHours := c_cacheAgeHours ctx;
     isCacheHit := c_isCacheHit ctx;
     errorCode := present errorCode |}.

Definition build_snapshot (key : string) (ctx : EntityContext) (m : ConnectorSnapshotMeta)
    (fs : list (string * jsval)) (now : timestamp) : ConnectorSnapshot :=
  {| connectorKey := key; entityType := "artifact"; packageId := c_packageId ctx;
     packageVersionId := c_packageVersionId ctx; ecosystem := c_ecosystem ctx;
     packageName := c_pkg ctx; version := c_version ctx; displayName := c_displayName ctx;
     fields := fs; meta := m; observedAt := now |}.

(** ** events.ts *)

(** The identity fields an event is built from. *)
Record event_identity := {
  ei_package_id : option string; ei_package_version_id : option string;
  ei_ecosystem : string; ei_package : string; ei_version : option string
}.

Definition buildArtifactRequestEvent (identity : event_identity) (source : string)
    (context : option ConnectorEventContext) (uuid : string) (now : timestamp) : res ConnectorEvent :=
  match present (ei_package_id identity), present (ei_package_version_id identity) with
  | Some pid, Some vid =>
      match present (ei_version identity) with
      | None => Throw "artifact_identity_missing_version"
      | Some v =>
          Ok {| e_id := uuid; e_kind := artifact_request; e_packageId := pid;
                e_packageVersionId := Some vid; e_ecosystem := ei_ecosystem identity;
                e_packageName := ei_package identity; e_version := Some v;
                e_source := source; e_observedAt := now; e_context := context |}
      end
  | _, _ => Throw "artifact_identity_missing_catalog_ids"
  end.

Definition buildPackageMetadataEvent (identity : event_identity) (source : string)
    (context : option ConnectorEventContext) (uuid : string) (now : timestamp) : res ConnectorEvent :=
  match present (ei_package_id identity) with
  | None => Throw "artifact_identity_missing_package_id"
  | Some pid =>
      Ok {| e_id := uuid; e_kind := package_metadata; e_packageId := pid;
            e_packageVersionId := None; e_ecosystem := ei_ecosystem identity;
            e_packageName := ei_package identity; e_version := None;
            e_source := source; e_observedAt := now; e_context := context |}
  end.

Definition connectorSupportsEcosystem (es : ecosystems) (name : string) : bool :=
  match es with
  | all_ecosystems => true
  | only names => existsb (String.eqb (toLowerCase name)) names
  end.

Section events.
Context {C : Type} `{PackageIntelligenceConnector C}.

Definition getConnectorSubscription (c : C) (kind : event_kind)
  : option ConnectorEventSubscription :=
  js_find (fun s => bool_decide (sub_kind s = kind)) (subscribedEvents c).

Definition connectorSupportsEvent (c : C) (event : ConnectorEvent) : bool :=
  match getConnectorSubscription c (e_kind event) with
  | None => false
  | Some _ =>
      connectorSupportsEcosystem (supportedEcosystems c) (e_ecosystem event)
      && supportsEvent c event
  end.
End events.

Definition eventEntityContext (event : ConnectorEvent) (displayName : string)
    (isCacheHit : bool) (responseTimeMs : Z) (cacheAgeHours : option num) : EntityContext :=
  {| c_packageId := Some (e_packageId event); c_packageVersionId := e_packageVersionId event;
     c_ecosystem := e_ecosystem event; c_pkg := e_packageName event;
     c_version := e_version event; c_displayName := displayName;
     c_isCacheHit := isCacheHit; c_responseTimeMs := responseTimeMs;
     c_cacheAgeHours := cacheAgeHours |}.

(** ** Lemmas *)

Lemma SEVERITY_INDEX_inj a b : SEVERITY_INDEX a = SEVERITY_INDEX b -> a = b.
Proof. by destruct a, b. Qed.

Lemma count_severity_app {A} (sev : A -> VulnSeverity) l k s :
  count_severity sev (l ++ k) s = count_severity sev l s + count_severity sev k s.
Proof. unfold count_severity. rewrite List.filter_app, length_app. lia. Qed.

Lemma count_severity_pos {A} (sev : A -> VulnSeverity) l s :
  0 < count_severity sev l s <-> exists x, x ∈ l /\ sev x = s.
Proof.
  unfold count_severity. split.
  - intros H. destruct (List.filter _ l) as [|x k] eqn:E; [cbn in H; lia|].
    exists x. assert (Hx : x ∈ x :: k) by apply list_elem_of_here. rewrite <- E in Hx.
    apply elem_of_filter_b in Hx as [? Hs]. split; [done|]. by apply bool_decide_eq_true in Hs.
  - intros (x & Hx & Hs). assert (Hf : x ∈ List.filter (fun x => severity_eqb (sev x) s) l).
    { apply elem_of_filter_b. split; [done|]. by apply bool_decide_eq_true. }
    destruct (List.filter _ l); [by apply not_elem_of_nil in Hf|cbn; lia].
Qed.

(** ** An instance for examples: a connector that reports its number of findings *)

Record plain_connector := { plain_id : string; plain_ttl : Z; plain_mode : execution_mode }.

#[export] Instance plain_interface : PackageIntelligenceConnector plain_connector := {
  connector_id := plain_id;
  cacheTtlSeconds := plain_ttl;
  supportedEcosystems _ := all_ecosystems;
  subscribedEvents c := [{| sub_kind := artifact_request; executionMode := plain_mode c |}];
  readSnapshots _ := true;
  supportsEvent _ _ := true;
  normalizeToSnapshot c r ctx failure err now :=
    build_snapshot (plain_id c) ctx (build_meta ctx failure err)
      (from_option (fun r => [("finding_count"%string, JInt (Z.of_nat (length (findings r))))]) [] r) now;
  getFieldCatalog _ := []
}.

#[export] Instance plain_lawful : LawfulConnector plain_connector.
Proof.
  constructor; try done; intros c [r|] ctx failure err now.
  - intros k v H. cbn in H. apply list_elem_of_singleton in H. by simplify_eq.
  - intros k v H. by apply not_elem_of_nil in H.
  - apply NoDup_singleton.
  - apply NoDup_nil_2.
Qed.

Definition example_event : ConnectorEvent :=
  {| e_id := "e1"; e_kind := artifact_request; e_packageId := "p1"; e_packageVersionId := Some "v1"%string;
     e_ecosystem := "npm"; e_packageName := "left-pad"; e_version := Some "1.0.0"%string;
     e_source := "proxy"; e_observedAt := 0; e_context := None |}.

Definition example_finding (id : string) (severity : VulnSeverity) (attributes : list (string * jsval))
  : ConnectorFinding :=
  {| findingId := id; f_severity := severity; f_title := Some id; publishedAt := Some (Some 86400000);
     attributes := attributes |}.

Definition example_result (fs : list ConnectorFinding) : ConnectorResult :=
  {| findings := fs; summary := None; ttlSeconds := None; legacy := None |}.
