(* ===== verification/Jsonb.v ===== *)
(** * JSON columns

    What a JSON value reads back as after a JSONB column: [undefined] and
    functions are dropped from objects and are null in arrays, NaN and the
    infinities are null, -0 is 0, and the keys of an object come back in the
    order JSONB stores them, by length and then by bytes.  Numbers are kept (the
    shortest decimal of a double reads back as the double).  Strings have no NUL
    character, which JSONB refuses. *)

From Stdlib Require Import Ascii.
From S2P Require Import Prelude JsString JsNum JsValue.
Local Open Scope string_scope.
Local Open Scope list_scope.

(** Bytes of a Latin-1 string in UTF-8. *)
Fixpoint utf8_length (s : string) : nat :=
  match s with
  | EmptyString => 0
  | String c s => (if (code c <? 128)%N then 1 else 2) + utf8_length s
  end.

Definition jsonb_key_le (a b : string * jsval) : bool :=
  let n := utf8_length a.1 in
  let m := utf8_length b.1 in
  Nat.ltb n m || (Nat.eqb n m && str_leb a.1 b.1).

Definition is_dropped (v : jsval) : bool :=
  match v with JUndef | JFun _ => true | _ => false end.

Fixpoint jsonb (v : jsval) : jsval :=
  match v with
  | JUndef | JFun _ | JNull => JNull
  | JBool b => JBool b
  | JNum n => if num_is_finite n then if num_eqb n num_zero then JNum num_zero else JNum n else JNull
  | JStr s => JStr s
  | JArr l => JArr (map jsonb l)
  | JObj kvs =>
      JObj (js_sort jsonb_key_le
              (omap (fun kv => match kv with
                               | (k, x) => if is_dropped x then None else Some (k, jsonb x)
                               end) kvs))
  end.

Definition jsonb_pair (kv : string * jsval) : option (string * jsval) :=
  match kv with (k, x) => if is_dropped x then None else Some (k, jsonb x) end.

(** An object column. *)
Definition jsonb_fields (kvs : list (string * jsval)) : list (string * jsval) :=
  js_sort jsonb_key_le (omap jsonb_pair kvs).

(** A number inside a JSONB value. *)
Definition jsonb_num (o : option num) : option num :=
  n ← o; match jsonb (JNum n) with JNum n => Some n | _ => None end.

Lemma jsonb_obj kvs : jsonb (JObj kvs) = JObj (jsonb_fields kvs).
Proof. reflexivity. Qed.

Example jsonb_ex :
  jsonb (JObj [("bb", JInt 1); ("a", JUndef); ("c", JArr [JUndef; JNum num_nan; JStr "x"])])
  = JObj [("c", JArr [JNull; JNull; JStr "x"]); ("bb", JInt 1)].
Proof. vm_compute. reflexivity. Qed.

(** ** Lemmas *)

Lemma omap_fst kvs k : k ∈ (omap jsonb_pair kvs).*1 -> k ∈ kvs.*1.
Proof.
  rewrite !list_elem_of_fmap. intros ([k' v] & -> & H). apply list_elem_of_omap in H as ([j w] & Hin & H).
  unfold jsonb_pair in H. destruct (is_dropped w); simplify_eq. exists (k', w). split; [reflexivity|exact Hin].
Qed.

Lemma NoDup_omap_fst kvs : NoDup kvs.*1 -> NoDup (omap jsonb_pair kvs).*1.
Proof.
  induction kvs as [|[k v] kvs IH]; [done|]. cbn [fmap list_fmap fst]. intros [Hk H]%NoDup_cons.
  change (omap jsonb_pair ((k, v) :: kvs))
    with (match jsonb_pair (k, v) with Some y => y :: omap jsonb_pair kvs | None => omap jsonb_pair kvs end).
  unfold jsonb_pair at 1. destruct (is_dropped v); [auto|]. cbn [fmap list_fmap fst].
  apply NoDup_cons. split; [|auto]. intros Hc. by apply omap_fst in Hc.
Qed.

(** With distinct keys, lookup does not depend on the order. *)
Lemma own_perm k kvs kvs' : NoDup kvs.*1 -> kvs ≡ₚ kvs' -> own k kvs = own k kvs'.
Proof.
  intros Hnd Hp. assert (Hnd' : NoDup kvs'.*1) by (by rewrite <- Hp).
  assert (H : forall l v, NoDup l.*1 -> (k, v) ∈ l -> own k l = Some v).
  { clear. induction l as [|[j w] l IH]; [set_solver|]. cbn. intros v [Hj Hl]%NoDup_cons Hin.
    destruct (String.eqb_spec k j) as [->|Hne].
    - apply elem_of_cons in Hin as [[= ->]|Hin]; [done|]. exfalso. apply Hj.
      apply list_elem_of_fmap. by exists (j, v).
    - apply elem_of_cons in Hin as [[= -> ->]|Hin]; [done|]. auto. }
  destruct (own k kvs) as [v|] eqn:E.
  - symmetry. apply H; [done|]. rewrite <- Hp. by apply own_elem_of.
  - destruct (own k kvs') as [v|] eqn:E'; [|done]. apply own_elem_of in E'. rewrite <- Hp in E'.
    by rewrite (H kvs v) in E.
Qed.

Lemma jsonb_fields_NoDup kvs : NoDup kvs.*1 -> NoDup (jsonb_fields kvs).*1.
Proof. intros H. unfold jsonb_fields. rewrite js_sort_perm. by apply NoDup_omap_fst. Qed.

Lemma jsonb_fields_keys kvs k v : (k, v) ∈ jsonb_fields kvs -> k ∈ kvs.*1.
Proof.
  unfold jsonb_fields. rewrite js_sort_elem_of. intros H. apply omap_fst.
  apply list_elem_of_fmap. by exists (k, v).
Qed.

(** A property reads back as the stored form of its value. *)
Lemma jsonb_fields_own k kvs :
  NoDup kvs.*1 -> own k (jsonb_fields kvs) = v ← own k kvs; if is_dropped v then None else Some (jsonb v).
Proof.
  intros Hnd. unfold jsonb_fields.
  rewrite (own_perm k _ (omap jsonb_pair kvs)); [| |apply js_sort_perm].
  2:{ rewrite js_sort_perm. by apply NoDup_omap_fst. }
  induction kvs as [|[j w] kvs IH]; [done|]. cbn [fmap list_fmap fst] in Hnd. apply NoDup_cons in Hnd as [Hj Hnd].
  change (omap jsonb_pair ((j, w) :: kvs))
    with (match jsonb_pair (j, w) with Some y => y :: omap jsonb_pair kvs | None => omap jsonb_pair kvs end).
  unfold jsonb_pair at 1. cbn [own]. destruct (String.eqb_spec k j) as [->|Hne].
  - cbn [mbind option_bind]. destruct (is_dropped w); [|cbn; by rewrite String.eqb_refl].
    rewrite IH by done. destruct (own j kvs) as [v|] eqn:E; [|done]. exfalso. apply Hj.
    apply own_elem_of in E. apply list_elem_of_fmap. by exists (j, v).
  - destruct (is_dropped w); [by apply IH|]. cbn [own]. rewrite (proj2 (String.eqb_neq k j)) by done. by apply IH.
Qed.

Lemma jsonb_dropped v : is_dropped (jsonb v) = false.
Proof. by destruct v as [| | |n| | | |]; cbn; repeat case_match. Qed.

(** Integers are stored exactly. *)
Lemma jsonb_int z : exact_int z -> jsonb (JInt z) = JInt z.
Proof.
  intros Hz. unfold JInt. cbn [jsonb].
  assert (H0 : num_eqb (num_of_Z z) num_zero = (z =? 0)%Z) by (apply (num_eqb_int z 0); [done|by vm_compute]).
  rewrite H0. destruct (Z.eqb_spec z 0) as [->|Hne]; [reflexivity|].
  destruct Hz as [Hz Hz']. destruct z as [|p|]; [done| |lia].
  rewrite num_of_Z_pos; [done|]. by apply digits2_pos_lt.
Qed.
