(* ===== verification/RuleSchema.v ===== *)
(** * What a rule may be (services/api/src/features/rules/shared.ts,
    features/policy-preview/shared.ts)

    The schemas a rule's condition and action pass before they are stored, and the
    connectors a condition reads.  An object schema keeps the keys it knows, in its own
    order; a union takes the first schema that accepts.  A rule the schemas accept runs:
    neither evaluator throws on its condition nor the renderer on its message, as
    written and as stored. *)

From Stdlib Require Import Ascii.
From S2P Require Import Prelude JsString JsNum JsValue Jsonb Expression Constants Effective Decision.
Local Open Scope string_scope.
Local Open Scope list_scope.

Definition RULE_ACTION_TYPES : list string := ["violation"; "warning"; "info"].
Definition SEVERITIES : list string := ["critical"; "high"; "medium"; "low"].
Definition RULE_ENFORCEMENT_MODES : list string := [ENFORCEMENT_MODE.ENFORCING; ENFORCEMENT_MODE.ADVISORY].

Definition one_of (values : list string) (s : string) : bool := existsb (String.eqb s) values.

(** ** Schemas *)

Definition leafSchema (kvs : list (string * jsval)) : option jsval :=
  match own "field" kvs, own "operator" kvs with
  | Some (JStr f), Some (JStr o) =>
      if nonempty f && nonempty o
      then Some (JObj ([("field", JStr f); ("operator", JStr o)]
                       ++ match own "value" kvs with Some v => [("value", v)] | None => [] end))
      else None
  | _, _ => None
  end.

Fixpoint conditionSchema (v : jsval) : option jsval :=
  match v with
  | JObj kvs =>
      let leaf := leafSchema kvs in
      let not_ := node_key "not"
        (fun v => match conditionSchema v with Some c => Some (JObj [("not", c)]) | None => leaf end) leaf kvs in
      let any := node_key "any"
        (fun v => match v with
                  | JArr l => match map_option conditionSchema l with Some cs => Some (JObj [("any", JArr cs)]) | None => not_ end
                  | _ => not_
                  end) not_ kvs in
      node_key "all"
        (fun v => match v with
                  | JArr l => match map_option conditionSchema l with Some cs => Some (JObj [("all", JArr cs)]) | None => any end
                  | _ => any
                  end) any kvs
  | _ => None
  end.

(** A key that may be absent; its part of the result. *)
Definition optional_text (key : string) (valid : string -> bool) (kvs : list (string * jsval)) : option (list (string * jsval)) :=
  match default JUndef (own key kvs) with
  | JUndef => Some []
  | JStr s => if valid s then Some [(key, JStr s)] else None
  | _ => None
  end.

Definition actionSchema (v : jsval) : option jsval :=
  match v with
  | JObj kvs =>
      match own "type" kvs with
      | Some (JStr type_) =>
          if one_of RULE_ACTION_TYPES type_
          then
            severity ← optional_text "severity" (one_of SEVERITIES) kvs;
            code ← optional_text "code" nonempty kvs;
            message_template ← optional_text "message_template" (fun _ => true) kvs;
            recommended_remediation ← optional_text "recommended_remediation" (fun _ => true) kvs;
            enforcement_mode ← optional_text "enforcement_mode" (one_of RULE_ENFORCEMENT_MODES) kvs;
            Some (JObj ([("type", JStr type_)] ++ severity ++ code ++ message_template ++ recommended_remediation ++ enforcement_mode))
          else None
      | _ => None
      end
  | _ => None
  end.

(** ** The connectors of a condition *)

(** The match of [/^source\.([^.]+)\./] *)
Definition source_connector (field : string) : option string :=
  if startsWith field "source."
  then let rest := drop_str 7 field in
       match indexOf "."%char rest with
       | Some (S i) => Some (take_str (S i) rest)
       | _ => None
       end
  else None.

(** The keys added to the set, in order; [in] throws on what is no object, and
    [forEach] is a method of arrays. *)
Fixpoint extractConnectorKeys (cond : jsval) : res (list string) :=
  match cond with
  | JObj kvs =>
      let leaf :=
        match own "field" kvs with
        | Some (JStr f) => Ok (match source_connector f with Some key => [key] | None => [] end)
        | _ => Ok []
        end in
      let not_ := node_key "not" (fun v => extractConnectorKeys v) leaf kvs in
      let any := node_key "any"
        (fun v => match v with JArr l => @concat string <$> map_res extractConnectorKeys l | _ => type_error end) not_ kvs in
      node_key "all"
        (fun v => match v with JArr l => @concat string <$> map_res extractConnectorKeys l | _ => type_error end) any kvs
  | JArr _ | JFun _ => Ok []
  | _ => type_error
  end.

(** ** Lemmas *)

Lemma group_or (g : jsval -> option jsval) key kvs other c :
  match own key kvs with
  | Some v => match v with
              | JArr l => match map_option g l with Some cs => Some (JObj [(key, JArr cs)]) | None => other end
              | _ => other
              end
  | None => other
  end = Some c ->
  (exists l cs, own key kvs = Some (JArr l) /\ map_option g l = Some cs /\ c = JObj [(key, JArr cs)]) \/ other = Some c.
Proof.
  destruct (own key kvs) as [v|]; [|by right]. destruct v; try by right. destruct (map_option g l) as [cs|] eqn:E; [|by right].
  intros [= <-]. left. by exists l, cs.
Qed.

Lemma not_or kvs other c :
  match own "not" kvs with
  | Some v => match conditionSchema v with Some c => Some (JObj [("not", c)]) | None => other end
  | None => other
  end = Some c ->
  (exists w d, own "not" kvs = Some w /\ conditionSchema w = Some d /\ c = JObj [("not", d)]) \/ other = Some c.
Proof.
  destruct (own "not" kvs) as [w|]; [|by right]. destruct (conditionSchema w) as [d|] eqn:E; [|by right].
  intros [= <-]. left. by exists w, d.
Qed.

Lemma conditionSchema_inv v c :
  conditionSchema v = Some c ->
  exists kvs, v = JObj kvs /\
    ((exists l cs, own "all" kvs = Some (JArr l) /\ map_option conditionSchema l = Some cs /\ c = JObj [("all", JArr cs)]) \/
     (exists l cs, own "any" kvs = Some (JArr l) /\ map_option conditionSchema l = Some cs /\ c = JObj [("any", JArr cs)]) \/
     (exists w d, own "not" kvs = Some w /\ conditionSchema w = Some d /\ c = JObj [("not", d)]) \/
     leafSchema kvs = Some c).
Proof.
  destruct v; try done. cbn [conditionSchema]. rewrite !node_key_own. intros Hc. exists kvs. split; [done|].
  apply group_or in Hc as [Hc|Hc]; [by left|right]. apply group_or in Hc as [Hc|Hc]; [by left|right].
  by apply not_or in Hc.
Qed.

Lemma leafSchema_inv kvs c :
  leafSchema kvs = Some c ->
  exists f o rest, c = JObj (("field", JStr f) :: ("operator", JStr o) :: rest) /\ nonempty f = true /\ nonempty o = true /\
    (rest = [] \/ exists v, rest = [("value", v)]).
Proof.
  unfold leafSchema. destruct (own "field" kvs) as [[]|], (own "operator" kvs) as [[]|]; try done.
  destruct (nonempty s && nonempty s0) eqn:E; [|done]. apply andb_prop in E as [Hf Ho]. intros [= <-].
  exists s, s0. destruct (own "value" kvs); eauto 10.
Qed.

(** *** Conditions that run *)

Record condition_runs (c : jsval) : Prop := {
  cr_object : exists kvs, c = JObj kvs;
  cr_trace fields : is_ok (evaluateConditionWithTrace c fields) = true;
  cr_keys : is_ok (extractConnectorKeys c) = true
}.

Lemma condition_evaluates c fields : condition_runs c -> is_ok (evaluateCondition c fields) = true.
Proof.
  intros [_ Ht _]. specialize (Ht fields). unfold evaluateConditionWithTrace in Ht.
  destruct (evaluateWithTrace fields c) as [[r t]|] eqn:E; [|done]. apply evaluateWithTrace_agrees in E as [E _].
  unfold evaluateCondition. by rewrite E.
Qed.

Lemma extract_node kvs :
  extractConnectorKeys (JObj kvs) =
  let each v := match v with JArr l => @concat string <$> map_res extractConnectorKeys l | _ => type_error end in
  match own "all" kvs, own "any" kvs, own "not" kvs with
  | Some v, _, _ => each v
  | None, Some v, _ => each v
  | None, None, Some v => extractConnectorKeys v
  | None, None, None =>
      match own "field" kvs with
      | Some (JStr f) => Ok (match source_connector f with Some key => [key] | None => [] end)
      | _ => Ok []
      end
  end.
Proof. cbn [extractConnectorKeys]. rewrite !node_key_own. by destruct (own "all" kvs), (own "any" kvs), (own "not" kvs). Qed.

Lemma children_keys cs : Forall condition_runs cs -> is_ok (@concat string <$> map_res extractConnectorKeys cs) = true.
Proof.
  intros Hcs. assert (Hm : is_ok (map_res extractConnectorKeys cs) = true).
  { apply map_res_total. intros c Hc. rewrite Forall_forall in Hcs. by apply Hcs. }
  by destruct (map_res extractConnectorKeys cs).
Qed.

Lemma children_trace fields cs :
  Forall condition_runs cs -> is_ok (map_res (fun c => snd <$> evaluateWithTrace fields c) cs) = true.
Proof.
  intros Hcs. apply map_res_total. intros c Hc. rewrite Forall_forall in Hcs. destruct (Hcs c Hc) as [_ Ht _].
  specialize (Ht fields). unfold evaluateConditionWithTrace in Ht. by destruct (evaluateWithTrace fields c).
Qed.

Lemma runs_group key cs : key = "all" \/ key = "any" -> Forall condition_runs cs -> condition_runs (JObj [(key, JArr cs)]).
Proof.
  intros Hk Hcs. split; [by eexists| |].
  - intros fields. unfold evaluateConditionWithTrace. rewrite evaluateWithTrace_node. assert (Ht := children_trace fields cs Hcs).
    destruct Hk as [-> | ->].
    + change (isAll [("all", JArr cs)]) with (Some cs). cbv iota beta. by destruct (map_res _ cs).
    + change (isAll [("any", JArr cs)]) with (@None (list jsval)). change (isAny [("any", JArr cs)]) with (Some cs).
      cbv iota beta. by destruct (map_res _ cs).
  - rewrite extract_node. assert (Hx := children_keys cs Hcs). by destruct Hk as [-> | ->].
Qed.

Lemma runs_not c : condition_runs c -> condition_runs (JObj [("not", c)]).
Proof.
  intros [Ho Ht Hk]. split; [by eexists| |by rewrite extract_node].
  intros fields. specialize (Ht fields). unfold evaluateConditionWithTrace in Ht |- *. rewrite evaluateWithTrace_node.
  change (isAll [("not", c)]) with (@None (list jsval)). change (isAny [("not", c)]) with (@None (list jsval)).
  change (isNot [("not", c)]) with (Some c). cbv iota beta. by destruct (evaluateWithTrace fields c).
Qed.

Lemma runs_leaf kvs f :
  own "all" kvs = None -> own "any" kvs = None -> own "not" kvs = None -> own "field" kvs = Some (JStr f) -> condition_runs (JObj kvs).
Proof.
  intros Ha Hy Hn Hf. split; [by eexists| |by rewrite extract_node, Ha, Hy, Hn, Hf].
  intros fields. unfold evaluateConditionWithTrace. rewrite evaluateWithTrace_node. unfold isAll, isAny, isNot. rewrite Ha, Hy, Hn.
  by destruct (isLeaf kvs) as [[? ?]|].
Qed.

(** A condition, and what a JSONB column makes of it. *)
Definition stored_runs (c : jsval) : Prop := condition_runs c /\ condition_runs (jsonb c).

Lemma stored_group key cs : key = "all" \/ key = "any" -> Forall stored_runs cs -> stored_runs (JObj [(key, JArr cs)]).
Proof.
  intros Hk Hcs. split; [apply runs_group; [done|]; eapply Forall_impl; [exact Hcs|by intros c [? _]]|].
  change (jsonb (JObj [(key, JArr cs)])) with (JObj [(key, JArr (map jsonb cs))]). apply runs_group; [done|].
  apply Forall_map. eapply Forall_impl; [exact Hcs|by intros c [_ ?]].
Qed.

Lemma stored_not c : stored_runs c -> stored_runs (JObj [("not", c)]).
Proof.
  intros [Hc Hj]. split; [by apply runs_not|]. destruct (cr_object c Hc) as [kvs ->].
  change (jsonb (JObj [("not", JObj kvs)])) with (JObj [("not", jsonb (JObj kvs))]). by apply runs_not.
Qed.

Lemma leaf_keys f o rest :
  (rest = [] \/ exists v, rest = [("value", v)]) -> NoDup (("field", JStr f) :: ("operator", JStr o) :: rest).*1.
Proof. intros [-> | [v ->]]; apply (bool_decide_unpack _); vm_compute; exact I. Qed.

Lemma stored_leaf f o rest :
  (rest = [] \/ exists v, rest = [("value", v)]) -> stored_runs (JObj (("field", JStr f) :: ("operator", JStr o) :: rest)).
Proof.
  intros Hr. assert (Hnd := leaf_keys f o rest Hr). set (kvs := _ :: _ :: rest) in *.
  assert (Hown : own "all" kvs = None /\ own "any" kvs = None /\ own "not" kvs = None /\ own "field" kvs = Some (JStr f))
    by (by destruct Hr as [-> | [v ->]]).
  destruct Hown as (Ha & Hy & Hn & Hf). split; [by eapply runs_leaf|].
  rewrite jsonb_obj. apply (runs_leaf _ f); rewrite jsonb_fields_own by done; [by rewrite Ha|by rewrite Hy|by rewrite Hn|by rewrite Hf].
Qed.

Lemma accepted_condition_runs v c : conditionSchema v = Some c -> stored_runs c.
Proof.
  revert c. induction v as [v Hv|kvs IHv IHl] using jsval_node_ind; intros c Hc; apply conditionSchema_inv in Hc as (kvs' & Heq & Hcase);
    [by destruct (Hv kvs')|injection Heq as <-].
  assert (Hchildren : forall key l cs, own key kvs = Some (JArr l) -> map_option conditionSchema l = Some cs -> Forall stored_runs cs).
  { intros key l cs Ho Hm. apply map_option_Forall2 in Hm. apply Forall_forall. intros d Hd. apply list_elem_of_lookup in Hd as [i Hi].
    destruct (Forall2_lookup_r _ _ _ _ _ Hm Hi) as (w & Hw & Hd). eapply (IHl key l); [by apply own_elem_of|by eapply list_elem_of_lookup_2|exact Hd]. }
  destruct Hcase as [(l & cs & Ho & Hm & ->)|[(l & cs & Ho & Hm & ->)|[(w & d & Ho & Hd & ->)|Hleaf]]].
  - apply stored_group; [by left|by eapply Hchildren].
  - apply stored_group; [by right|by eapply Hchildren].
  - apply stored_not. eapply IHv; [by apply own_elem_of|done].
  - apply leafSchema_inv in Hleaf as (f & o & rest & -> & _ & _ & Hr). by apply stored_leaf.
Qed.

(** *** Actions *)

(** An action that is typed and whose message can be rendered. *)
Definition action_ok (a : jsval) : Prop :=
  exists kvs s, a = JObj kvs /\ own "type" kvs = Some (JStr s) /\ one_of RULE_ACTION_TYPES s = true /\
    match own "message_template" kvs with Some (JStr _) | None => True | _ => False end.

Lemma optional_text_inv key valid kvs part :
  optional_text key valid kvs = Some part -> part = [] \/ exists s, part = [(key, JStr s)].
Proof.
  unfold optional_text. destruct (default JUndef (own key kvs)); try done; [intros [= <-]; by left|].
  destruct (valid s); [|done]. intros [= <-]. right. by exists s.
Qed.

Lemma stored_action kvs s :
  NoDup kvs.*1 -> own "type" kvs = Some (JStr s) -> one_of RULE_ACTION_TYPES s = true ->
  own "message_template" kvs = None \/ (exists m, own "message_template" kvs = Some (JStr m)) ->
  action_ok (JObj kvs) /\ action_ok (jsonb (JObj kvs)).
Proof.
  intros Hnd Ht Ho Hm. split.
  - exists kvs, s. split_and!; [done..|]. by destruct Hm as [-> | [m ->]].
  - rewrite jsonb_obj. exists (jsonb_fields kvs), s. rewrite !jsonb_fields_own, Ht by done. split_and!; [done..|].
    by destruct Hm as [-> | [m ->]].
Qed.

Lemma accepted_action_ok v a : actionSchema v = Some a -> action_ok a /\ action_ok (jsonb a).
Proof.
  unfold actionSchema. destruct v; try done. destruct (own "type" kvs) as [[]|]; try done.
  destruct (one_of RULE_ACTION_TYPES s) eqn:Ho; [|done]. intros Ha.
  apply bind_Some in Ha as (sev & Hsev & Ha). apply bind_Some in Ha as (code & Hcode & Ha).
  apply bind_Some in Ha as (tpl & Htpl & Ha). apply bind_Some in Ha as (rem & Hrem & Ha).
  apply bind_Some in Ha as (mode & Hmode & [= <-]).
  apply (stored_action _ s); [|done|done|].
  - apply optional_text_inv in Hsev as [-> | [? ->]], Hcode as [-> | [? ->]], Htpl as [-> | [? ->]],
      Hrem as [-> | [? ->]], Hmode as [-> | [? ->]]; apply (bool_decide_unpack _); vm_compute; exact I.
  - apply optional_text_inv in Hsev as [-> | [? ->]], Hcode as [-> | [? ->]], Htpl as [-> | [m ->]],
      Hrem as [-> | [? ->]], Hmode as [-> | [? ->]]; first [by left|right; by exists m].
Qed.

(** *** Rules *)

(** A rule as it is loaded from the tables, neither column overridden. *)
Definition accepted_rule (r : ResolvedRule) : Prop :=
  exists v w c a, conditionSchema v = Some c /\ actionSchema w = Some a /\ condition r = jsonb c /\ action r = jsonb a.

Lemma accepted_rule_condition r : accepted_rule r -> condition_runs (condition r).
Proof. intros (v & w & c & a & Hc & _ & -> & _). by apply accepted_condition_runs in Hc as [_ ?]. Qed.

Lemma accepted_rule_action r : accepted_rule r -> action_ok (action r).
Proof. intros (v & w & c & a & _ & Ha & _ & ->). by apply accepted_action_ok in Ha as [_ ?]. Qed.

Lemma accepted_rule_runs fields r : accepted_rule r -> runs fields r.
Proof.
  intros Hr. split; [by apply condition_evaluates, accepted_rule_condition|].
  destruct (accepted_rule_action r Hr) as (kvs & s & Ha & _ & _ & Hm). by exists kvs.
Qed.

Lemma accepted_rule_type r : accepted_rule r -> exists s, action_field r "type" = JStr s /\ one_of RULE_ACTION_TYPES s = true.
Proof.
  intros (kvs & s & Ha & Ht & Ho & _)%accepted_rule_action. exists s. split; [|done]. unfold action_field, opt_prop.
  by rewrite Ha, (get_prop_obj_own _ _ _ Ht).
Qed.

Lemma accepted_rule_recorded r : accepted_rule r -> is_recorded_type (rule_type r) = true.
Proof.
  intros (s & Ht & Ho)%accepted_rule_type. unfold rule_type. rewrite Ht. unfold one_of, RULE_ACTION_TYPES in Ho. cbn [existsb] in Ho.
  unfold is_recorded_type, nullish. cbn [is_nullish strict_eq]. rewrite !orb_false_r in Ho. by rewrite <- orb_assoc.
Qed.

(** ** Properties *)

(** C26: the rules the API accepts always get a verdict: whatever fields a request
    gives them, the evaluation of any list of rules whose conditions and actions
    passed the schemas and were stored returns; every rule is evaluated and every one
    that matches is recorded, as a violation, a warning or an information. *)
Theorem accepted_rules_decided rules fields ttl mode :
  Forall accepted_rule rules ->
  exists d, evaluatePolicyDecision rules fields ttl mode = Ok d /\ rulesEvaluated d = length rules /\
    rulesMatched d = length (List.filter (rule_matches fields) rules) /\ length (collectedViolations d) = rulesMatched d.
Proof.
  intros Hall. destruct (decision_total rules fields ttl mode) as [d Hd].
  { eapply Forall_impl; [exact Hall|]. intros r. apply accepted_rule_runs. }
  exists d. split; [done|]. unfold evaluatePolicyDecision in Hd. apply res_bind_ok in Hd as (st & Hst & Hd).
  apply eval_rules_spec in Hst as (_ & _ & _ & _ & _ & Hv & Hn & Hm); [|by left].
  assert (Hrec : recorded_matches fields rules = List.filter (rule_matches fields) rules).
  { unfold recorded_matches. clear -Hall. induction Hall as [|r rules Hr _ IH]; [done|]. cbn [List.filter].
    destruct (rule_matches fields r); [|done]. cbn [List.filter]. by rewrite (accepted_rule_recorded r Hr), IH. }
  rewrite Hrec in Hv. destruct (if st_decision st =? DECISION_BLOCK then _ else _)%Z as [reason detail].
  injection Hd as <-. cbn [rulesEvaluated rulesMatched collectedViolations]. rewrite Hn, Hm, Hv. cbn [eval_init st_evaluated st_matched st_violations].
  rewrite !Nat.add_0_r, List.length_app, List.length_map. done.
Qed.

(** ** Instances *)

Definition schema_condition : jsval :=
  JObj [("any", JArr [JObj [("value", JInt 0); ("operator", JStr "gt"); ("field", JStr "source.osv.high_count")];
                      JObj [("not", JObj [("field", JStr "asset.version"); ("operator", JStr "exists")])]])].

Definition schema_action : jsval :=
  JObj [("message_template", JStr "{{asset.package}} is vulnerable"); ("code", JStr "VULN"); ("type", JStr "violation")].

Definition schema_rule : ResolvedRule :=
  {| id := "r"; ruleKey := "k"; policyId := "p"; policyRuleBindingId := "b"; policyProjectBindingId := None; policyName := "base";
     name := "rule"; description := None; targetEntity := "artifact";
     condition := default JNull (jsonb <$> conditionSchema schema_condition); action := default JNull (jsonb <$> actionSchema schema_action);
     effectiveEnforcementMode := JStr "enforcing"; orderIndex := 0%Z; policyPriority := 0%Z |}.

Lemma accepted_rules_decided_witness :
  exists d, evaluatePolicyDecision [schema_rule] [("source.osv.high_count", JInt 2); ("asset.version", JStr "1.0.0")] 300 PULL_MODE = Ok d /\
    rulesMatched d = 1%nat /\ length (collectedViolations d) = 1%nat.
Proof.
  destruct (accepted_rules_decided [schema_rule] [("source.osv.high_count", JInt 2); ("asset.version", JStr "1.0.0")] 300 PULL_MODE)
    as (d & Hd & _ & Hm & Hv).
  - constructor; [|constructor]. exists schema_condition, schema_action. eexists _, _. split_and!; reflexivity.
  - exists d. split; [done|]. rewrite Hv, Hm. split; reflexivity.
Defined.
