(* ===== verification/Cache.v ===== *)
(** * The connector cache (services/api/src/connectors/cache.ts)

    The connector_cache table holds the last result of each connector for a
    package version or a package.  A row is fresh while its age is below its own
    lifetime, or below the connector's when it has none. *)

From S2P Require Import Prelude JsString JsNum JsValue Jsonb Sql Effects JsDate ConnectorTypes.
Local Open Scope Z_scope.

(** ** The table *)

Record CacheFinding := {
  ch_id : string; ch_severity : VulnSeverity; ch_title : option string;
  ch_published_at : option string; ch_attributes : list (string * jsval)
}.

(** The JSONB column [data]; a row written by hand may lack its parts. *)
Record CacheData := {
  cd_score_model_version : string; cd_findings : option (list CacheFinding);
  cd_summary : option ConnectorResultSummary
}.

Record CacheRow := {
  cr_id : string; cr_connector_id : string; cr_package_id : option string;
  cr_package_version_id : option string; risk_tier : VulnSeverity; risk_score : option num;
  finding_count : Z; remediation_available : bool; best_remediation : option string;
  data : option CacheData; ttl_seconds : option Z; queried_at : timestamp
}.

(** ** What the columns keep of a result *)

Definition jsonb_summary (s : ConnectorResultSummary) : ConnectorResultSummary :=
  {| s_risk := (fun r => {| tier := tier r; score := jsonb_num (score r) |}) <$> s_risk s;
     s_findings := s_findings s; s_remediation := s_remediation s;
     s_vulnerability := s_vulnerability s; s_intelligence := jsonb_fields <$> s_intelligence s |}.

(** An INTEGER column refuses a fractional number. *)
Definition integer_column (o : option num) : res (option num) :=
  match o with
  | Some n => if num_is_integer n then Ok (Some n) else Throw "invalid input syntax for type integer"
  | None => Ok None
  end.

(** ** Summaries of a result *)

Definition highestFindingSeverity (result : ConnectorResult) : VulnSeverity :=
  foldl (fun highest finding =>
           if SEVERITY_INDEX (f_severity finding) <? SEVERITY_INDEX highest
           then f_severity finding else highest)
    NONE (findings result).

Definition summary_vulnerability (result : ConnectorResult) : option VulnerabilitySummary :=
  s ← summary result; s_vulnerability s.

Definition vulnerabilitySummaryFromResult (result : ConnectorResult) : VulnerabilitySummary :=
  match summary_vulnerability result with
  | Some v => v
  | None =>
      {| maxSeverity := from_option maxSeverity (highestFindingSeverity result) (legacy result);
         findingCount := from_option findingCount (Z.of_nat (length (findings result))) (legacy result);
         fixAvailable := from_option fixAvailable false (legacy result);
         bestFixVersion := l ← legacy result; bestFixVersion l;
         severityCounts := l ← legacy result; severityCounts l |}
  end.

Definition riskSummaryFromResult (result : ConnectorResult) (v : VulnerabilitySummary) : RiskSummary :=
  default {| tier := maxSeverity v; score := None |} (s ← summary result; s_risk s).

Definition findingsSummaryFromResult (result : ConnectorResult) : Z :=
  default (from_option findingCount (Z.of_nat (length (findings result))) (summary_vulnerability result))
    (s ← summary result; s_findings s).

Definition remediationSummaryFromResult (result : ConnectorResult) (v : VulnerabilitySummary)
  : RemediationSummary :=
  default {| available := fixAvailable v; best := bestFixVersion v |} (s ← summary result; s_remediation s).

(** ** Reading *)

Section cache.
Context `{Env} {C : Type} `{PackageIntelligenceConnector C}.

(** The WHERE clause of a lookup, absent for an event without a key. *)
Definition cache_row_matches (connector : C) (event : ConnectorEvent) : option (CacheRow -> bool) :=
  match present (e_packageVersionId event) with
  | Some vid => Some (fun r => String.eqb (cr_connector_id r) (connector_id connector)
                               && opt_eq (cr_package_version_id r) vid)
  | None =>
      if nonempty (e_packageId event) && bool_decide (e_kind event = package_metadata)
      then Some (fun r => String.eqb (cr_connector_id r) (connector_id connector)
                          && (opt_eq (cr_package_id r) (e_packageId event)
                              && bool_decide (cr_package_version_id r = None)))
      else None
  end.

Definition is_fresh (connector : C) (now : timestamp) (row : CacheRow) : bool :=
  let effectiveTtlSeconds := default (cacheTtlSeconds connector) (ttl_seconds row) in
  let staleCutoff := now - effectiveTtlSeconds * 1000 in
  negb (queried_at row <=? staleCutoff).

Definition findFreshCacheRow (connector : C) (event : ConnectorEvent) : M (list CacheRow) (option CacheRow) :=
  match cache_row_matches connector event with
  | None => mret None
  | Some matches =>
      rows ← gets (List.filter matches);
      match rows with
      | [] => mret None
      | row :: _ =>
          now ← now_;
          mret (if is_fresh connector now row then Some row else None)
      end
  end.

Record interpreted_row := { result : ConnectorResult; ageHours : num; row_findings : list ConnectorFinding }.

Definition finding_of_cache (f : CacheFinding) : ConnectorFinding :=
  {| findingId := ch_id f; f_severity := ch_severity f; f_title := ch_title f;
     publishedAt := date_parse <$> present (ch_published_at f); attributes := ch_attributes f |}.

Definition row_summary (row : CacheRow) (fs : list CacheFinding) : ConnectorResultSummary :=
  {| s_risk := Some {| tier := risk_tier row; score := risk_score row |};
     s_findings := Some (finding_count row);
     s_remediation := Some {| available := remediation_available row; best := best_remediation row |};
     s_vulnerability := Some
       {| maxSeverity := risk_tier row; findingCount := finding_count row;
          fixAvailable := remediation_available row; bestFixVersion := best_remediation row;
          severityCounts := match fs with [] => None | _ => Some (severity_counts ch_severity fs) end |};
     s_intelligence := None |}.

Definition interpretCacheRow (row : CacheRow) (includeFindings treatBrokenFindingStateAsMiss : bool)
  : M (list CacheRow) (option interpreted_row) :=
  now ← now_;
  let cacheData := default {| cd_score_model_version := "1.0"; cd_findings := Some []; cd_summary := None |}
                     (data row) in
  let fs := default [] (cd_findings cacheData) in
  if treatBrokenFindingStateAsMiss && (0 <? finding_count row) && Nat.eqb (length fs) 0 then mret None
  else
    mret (Some
      {| result := {| findings := if includeFindings then map finding_of_cache fs else [];
                      summary := Some (default (row_summary row fs) (cd_summary cacheData));
                      ttlSeconds := None; legacy := None |};
         ageHours := elapsed now (queried_at row) 3600000;
         row_findings := map finding_of_cache fs |}).

Record CachedSnapshotResult := {
  snapshot : ConnectorSnapshot; connectorCacheId : option string; cached_findings : list ConnectorFinding
}.

Definition buildCachedSnapshot (connector : C) (event : ConnectorEvent) (displayName : string)
  : M (list CacheRow) (option CachedSnapshotResult) :=
  if negb (readSnapshots connector) then mret None
  else
    found ← findFreshCacheRow connector event;
    match found with
    | None => mret None
    | Some row =>
        interpreted ← interpretCacheRow row true true;
        match interpreted with
        | None => mret None
        | Some i =>
            observedAt ← now_;
            mret (Some
              {| snapshot := normalizeToSnapshot connector (Some (result i))
                   (eventEntityContext event displayName true 0 (Some (ageHours i))) None None observedAt;
                 connectorCacheId := Some (cr_id row); cached_findings := row_findings i |})
        end
    end.

Definition getPackageScopedCachedResult (connector : C) (event : ConnectorEvent)
  : M (list CacheRow) (option ConnectorResult) :=
  found ← findFreshCacheRow connector event;
  match found with
  | None => mret None
  | Some row => i ← interpretCacheRow row true false; mret (result <$> i)
  end.

Definition getCachedResult (connector : C) (event : ConnectorEvent)
  : M (list CacheRow) (option ConnectorResult) :=
  found ← findFreshCacheRow connector event;
  match found with
  | None => mret None
  | Some row => i ← interpretCacheRow row false false; mret (result <$> i)
  end.

(** ** Writing *)

Definition cache_finding (f : ConnectorFinding) : res CacheFinding :=
  let! published := match publishedAt f with
                    | Some d => Some <$> date_toISOString d
                    | None => Ok None
                    end in
  Ok {| ch_id := findingId f; ch_severity := f_severity f; ch_title := f_title f;
        ch_published_at := published; ch_attributes := jsonb_fields (attributes f) |}.

Definition result_summary (result : ConnectorResult) : ConnectorResultSummary :=
  let vulnerability := vulnerabilitySummaryFromResult result in
  match summary result with
  | Some s => s
  | None =>
      {| s_risk := Some (riskSummaryFromResult result vulnerability);
         s_findings := Some (findingsSummaryFromResult result);
         s_remediation := Some (remediationSummaryFromResult result vulnerability);
         s_vulnerability := Some vulnerability; s_intelligence := None |}
  end.

Definition cache_data (result : ConnectorResult) : res CacheData :=
  let! fs := map_res cache_finding (findings result) in
  Ok {| cd_score_model_version := "1.0"; cd_findings := Some fs;
        cd_summary := Some (jsonb_summary (result_summary result)) |}.

(** The columns both branches of the upsert write. *)
Definition cache_columns (id connector : string) (event : ConnectorEvent) (result : ConnectorResult)
    (score : option num) (d : CacheData) (ttl : option Z) (now : timestamp) : CacheRow :=
  let vulnerability := vulnerabilitySummaryFromResult result in
  let remediation := remediationSummaryFromResult result vulnerability in
  {| cr_id := id; cr_connector_id := connector; cr_package_id := Some (e_packageId event);
     cr_package_version_id := e_packageVersionId event;
     risk_tier := tier (riskSummaryFromResult result vulnerability);
     risk_score := score; finding_count := findingsSummaryFromResult result;
     remediation_available := available remediation; best_remediation := best remediation;
     data := Some d; ttl_seconds := ttl; queried_at := now |}.

(** The rows the arbiter index finds in conflict with the new one. *)
Definition cache_conflict (connector : C) (event : ConnectorEvent) (r : CacheRow) : bool :=
  String.eqb (cr_connector_id r) (connector_id connector) &&
  match present (e_packageVersionId event) with
  | Some vid => opt_eq (cr_package_version_id r) vid
  | None => opt_eq (cr_package_id r) (e_packageId event) && bool_decide (cr_package_version_id r = None)
  end.

Definition upsertCachedResult (connector : C) (event : ConnectorEvent) (result : ConnectorResult)
    (ttl : option Z) : M (list CacheRow) (option CacheRow) :=
  let effectiveTtl := match ttl with Some t => Some t | None => ttlSeconds result end in
  let risk := riskSummaryFromResult result (vulnerabilitySummaryFromResult result) in
  d ← of_res (cache_data result);
  insertedAt ← now_;
  updatedAt ← now_;
  score ← of_res (integer_column (score risk));
  id ← fresh;
  let columns id now := cache_columns id (connector_id connector) event result score d effectiveTtl now in
  let write := upsert (cache_conflict connector event) (fun r => columns (cr_id r) updatedAt)
                 (columns id insertedAt) in
  row ← gets (fun rows => (write rows).2);
  _ ← modify (fun rows => (write rows).1);
  mret (Some row).

Definition upsertPackageScopedCachedResult (connector : C) (event : ConnectorEvent)
    (result : ConnectorResult) (ttl : option Z) : M (list CacheRow) (option CacheRow) :=
  upsertCachedResult connector event result ttl.
End cache.

(** ** The key of a row and of an event *)

Definition cache_key (r : CacheRow) : option (string * bool * string) :=
  match cr_package_version_id r with
  | Some vid => Some (cr_connector_id r, true, vid)
  | None => pid ← cr_package_id r; Some (cr_connector_id r, false, pid)
  end.

Definition has_key (k : string * bool * string) (r : CacheRow) : bool := bool_decide (cache_key r = Some k).

(** The table's two partial unique indexes. *)
Definition cache_unique (rows : list CacheRow) : Prop :=
  forall k, (length (List.filter (has_key k) rows) <= 1)%nat.

(** What the event constructors guarantee. *)
Definition well_formed_event (e : ConnectorEvent) : bool :=
  match e_packageVersionId e with
  | Some vid => nonempty vid
  | None => nonempty (e_packageId e) && bool_decide (e_kind e = package_metadata)
  end.

Lemma buildArtifactRequestEvent_well_formed i src ctx u t e :
  buildArtifactRequestEvent i src ctx u t = Ok e -> well_formed_event e = true.
Proof.
  unfold buildArtifactRequestEvent. intros H.
  destruct (present (ei_package_id i)), (present (ei_package_version_id i)) as [vid|] eqn:E; try done.
  destruct (present (ei_version i)); [|done]. injection H as <-. cbn.
  apply present_some in E as [_ Hne]. unfold nonempty. by rewrite (proj2 (String.eqb_neq vid "")).
Qed.

Lemma buildPackageMetadataEvent_well_formed i src ctx u t e :
  buildPackageMetadataEvent i src ctx u t = Ok e -> well_formed_event e = true.
Proof.
  unfold buildPackageMetadataEvent. intros H. destruct (present (ei_package_id i)) as [pid|] eqn:E; [|done].
  injection H as <-. cbn. apply present_some in E as [_ Hne]. unfold nonempty.
  by rewrite (proj2 (String.eqb_neq pid "")).
Qed.

Lemma present_nonempty vid : nonempty vid = true -> present (Some vid) = Some vid.
Proof. unfold present, nonempty. cbn. by destruct (String.eqb vid EmptyString). Qed.

(** A date the ISO format of four-digit years can write. *)
Definition iso_date (d : option date) : bool :=
  match d with
  | Some (Some t) => (-62167219200000 <=? t) && (t <=? 253402300799999)
  | _ => true
  end.

(** What a finding becomes in the table. *)
Definition stored_finding (f : ConnectorFinding) : ConnectorFinding :=
  {| findingId := findingId f; f_severity := f_severity f; f_title := f_title f;
     publishedAt := publishedAt f; attributes := jsonb_fields (attributes f) |}.

Lemma toISOString_nonempty t : nonempty (toISOString t) = true.
Proof.
  unfold toISOString. destruct (civil_from_days _) as [[y m] d].
  destruct (pad 4 y) as [|c s]; [by rewrite app_empty_l, !app_cons|by rewrite !app_cons].
Qed.

Lemma cache_finding_roundtrip f cf :
  iso_date (publishedAt f) = true -> cache_finding f = Ok cf -> finding_of_cache cf = stored_finding f.
Proof.
  unfold cache_finding, finding_of_cache, stored_finding. intros Hd H.
  destruct (publishedAt f) as [[t|]|]; cbn [mbind res_bind date_toISOString fmap res_fmap] in H; [|done|by injection H as <-].
  injection H as <-. cbn [ch_id ch_severity ch_title ch_published_at ch_attributes].
  rewrite present_nonempty by apply toISOString_nonempty. cbv [fmap option_fmap option_map].
  rewrite date_roundtrip; [done|].
  cbn in Hd. apply andb_prop in Hd as [?%Z.leb_le ?%Z.leb_le]. lia.
Qed.

(** The findings of a written row read back. *)
Lemma cache_data_findings r d :
  forallb (fun f => iso_date (publishedAt f)) (findings r) = true -> cache_data r = Ok d ->
  map finding_of_cache (default [] (cd_findings d)) = map stored_finding (findings r) /\
  cd_summary d = Some (jsonb_summary (result_summary r)).
Proof.
  unfold cache_data. intros Hd (fs & Hfs & Hcd)%res_bind_ok. injection Hcd as <-. cbn. split; [|done].
  apply map_res_ok_forall2 in Hfs. induction Hfs as [|f cf l k Hf _ IH]; [done|].
  cbn in Hd |- *. apply andb_prop in Hd as [Hd1 Hd2]. by rewrite (cache_finding_roundtrip f cf), IH.
Qed.

Section keys.
Context `{Env} {C : Type} `{PackageIntelligenceConnector C}.

Definition event_key (c : C) (e : ConnectorEvent) : string * bool * string :=
  match e_packageVersionId e with
  | Some vid => (connector_id c, true, vid)
  | None => (connector_id c, false, e_packageId e)
  end.

Lemma version_key_eqb c vid r :
  String.eqb (cr_connector_id r) (connector_id c) && opt_eq (cr_package_version_id r) vid
  = has_key (connector_id c, true, vid) r.
Proof.
  apply Bool.eq_iff_eq_true. unfold has_key, cache_key.
  rewrite andb_true_iff, String.eqb_eq, opt_eq_spec, bool_decide_eq_true.
  destruct (cr_package_version_id r) as [v|]; [|destruct (cr_package_id r) as [p|]];
    (split; [intros ?; destruct_and?|intros Heq]; simplify_eq/=; try congruence; auto).
Qed.

Lemma package_key_eqb c pid r :
  String.eqb (cr_connector_id r) (connector_id c)
  && (opt_eq (cr_package_id r) pid && bool_decide (cr_package_version_id r = None))
  = has_key (connector_id c, false, pid) r.
Proof.
  apply Bool.eq_iff_eq_true. unfold has_key, cache_key.
  rewrite !andb_true_iff, String.eqb_eq, opt_eq_spec, !bool_decide_eq_true.
  destruct (cr_package_version_id r) as [v|]; [|destruct (cr_package_id r) as [p|]];
    (split; [intros ?; destruct_and?|intros Heq]; simplify_eq/=; try congruence; auto).
Qed.

Lemma cache_row_matches_key c e :
  well_formed_event e = true ->
  exists p, cache_row_matches c e = Some p /\ forall r, p r = has_key (event_key c e) r.
Proof.
  unfold well_formed_event, cache_row_matches, event_key. destruct (e_packageVersionId e) as [vid|].
  - intros Hv. rewrite present_nonempty by done. eexists. split; [done|]. intros r. apply version_key_eqb.
  - intros Hp. cbn [present mbind option_bind]. rewrite Hp. eexists. split; [done|]. intros r. apply package_key_eqb.
Qed.

Lemma cache_conflict_key c e r :
  well_formed_event e = true -> cache_conflict c e r = has_key (event_key c e) r.
Proof.
  unfold well_formed_event, cache_conflict, event_key. destruct (e_packageVersionId e) as [vid|].
  - intros Hv. rewrite present_nonempty by done. apply version_key_eqb.
  - intros Hp. cbn [present mbind option_bind]. apply package_key_eqb.
Qed.

Lemma cache_columns_key id c e r score d ttl now :
  has_key (event_key c e) (cache_columns id (connector_id c) e r score d ttl now) = true.
Proof. apply bool_decide_eq_true. unfold cache_key, event_key. cbn. by destruct (e_packageVersionId e). Qed.

(** A lookup in terms of the rows of the event's key. *)
Lemma findFreshCacheRow_key c e n rows :
  well_formed_event e = true ->
  fst (findFreshCacheRow c e (n, rows))
  = Ok (row ← head (List.filter (has_key (event_key c e)) rows);
        if is_fresh c (clock n) row then Some row else None).
Proof.
  intros He. destruct (cache_row_matches_key c e He) as (p & Hp & Hk). unfold findFreshCacheRow. rewrite Hp.
  unfold mbind, eff_bind, gets. cbn [snd]. rewrite (List.filter_ext _ _ Hk).
  by destruct (List.filter _ rows).
Qed.

Lemma findFreshCacheRow_reads c e n rows : (findFreshCacheRow c e (n, rows)).2.2 = rows.
Proof.
  unfold findFreshCacheRow. destruct (cache_row_matches c e) as [p|]; [|done].
  unfold mbind, eff_bind, gets. cbn [snd]. by destruct (List.filter p rows).
Qed.

Lemma is_fresh_spec c now row :
  is_fresh c now row = (now <? queried_at row + default (cacheTtlSeconds c) (ttl_seconds row) * 1000).
Proof. unfold is_fresh. apply Bool.eq_iff_eq_true. rewrite negb_true_iff, Z.leb_gt, Z.ltb_lt. lia. Qed.

(** What a successful write does: the rows of its key become the returned row,
    the rows of any other key stay. *)
Lemma upsertCachedResult_rows c e r ttl n rows row n' rows' :
  well_formed_event e = true -> cache_unique rows ->
  returns (upsertCachedResult c e r ttl) (n, rows) row (n', rows') ->
  exists w d, row = Some w /\ cache_data r = Ok d /\ data w = Some d /\
    ttl_seconds w = (match ttl with Some t => Some t | None => ttlSeconds r end) /\
    (queried_at w = clock n \/ queried_at w = clock (S n)) /\ finding_count w = findingsSummaryFromResult r /\
    List.filter (has_key (event_key c e)) rows' = [w] /\
    (forall k, k <> event_key c e -> List.filter (has_key k) rows' = List.filter (has_key k) rows).
Proof.
  intros He Hu Hr. unfold upsertCachedResult in Hr. run_inv.
  match goal with |- context [upsert ?f ?u ?x rows] => set (conflict := f); set (upd := u); set (new := x) end.
  match goal with Hd : cache_data r = Ok ?x |- _ => exists (upsert conflict upd new rows).2, x end.
  split; [done|]. split; [assumption|].
  assert (Hc : forall r, has_key (event_key c e) r = conflict r) by (intros; symmetry; by apply cache_conflict_key).
  assert (Hupd : forall r, has_key (event_key c e) (upd r) = true) by (intros; apply cache_columns_key).
  assert (Hnew : has_key (event_key c e) new = true) by apply cache_columns_key.
  split; [by destruct (upsert_row conflict upd new rows) as [[-> _]|(r0 & _ & _ & ->)]|].
  split; [by destruct (upsert_row conflict upd new rows) as [[-> _]|(r0 & _ & _ & ->)]|].
  split; [destruct (upsert_row conflict upd new rows) as [[-> _]|(r0 & _ & _ & ->)]; cbn; auto|].
  split; [by destruct (upsert_row conflict upd new rows) as [[-> _]|(r0 & _ & _ & ->)]|].
  split; [by apply upsert_same|].
  intros k Hk. assert (Hother : forall r, has_key (event_key c e) r = true -> has_key k r = false).
  { intros r0 Hr. apply bool_decide_eq_true in Hr. apply bool_decide_eq_false. congruence. }
  apply upsert_others; intros; apply Hother; [by rewrite Hc|apply Hupd|apply Hnew].
Qed.

(** ** Properties *)

(** A written result is the one read back, for exactly its lifetime: after a
    successful write every lookup of its key returns the written row until its
    time plus its lifetime (the explicit one, else the result's, else the
    connector's), then nothing; no other key is affected and keys stay unique. *)
Theorem cache_read_after_write c e r ttl n rows row n' rows' :
  well_formed_event e = true -> cache_unique rows ->
  returns (upsertCachedResult c e r ttl) (n, rows) row (n', rows') ->
  exists w, row = Some w /\ cache_unique rows' /\
    (forall t, fst (findFreshCacheRow c e (t, rows')) =
       Ok (if clock t <? queried_at w +
                1000 * default (cacheTtlSeconds c) (match ttl with Some s => Some s | None => ttlSeconds r end)
           then Some w else None)) /\
    (forall c' e' t, well_formed_event e' = true -> event_key c' e' <> event_key c e ->
       fst (findFreshCacheRow c' e' (t, rows')) = fst (findFreshCacheRow c' e' (t, rows))).
Proof.
  intros He Hu Hr. apply upsertCachedResult_rows in Hr as (w & d & -> & _ & _ & Httl & _ & _ & Hsame & Hother); [|done..].
  exists w. split; [done|]. split; [|split].
  - intros k. destruct (decide (k = event_key c e)) as [->|Hk]; [by rewrite Hsame|]. by rewrite Hother.
  - intros t. rewrite findFreshCacheRow_key, Hsame by done. cbn [head mbind option_bind].
    by rewrite is_fresh_spec, Httl, (Z.mul_comm 1000).
  - intros c' e' t He' Hk. by rewrite !findFreshCacheRow_key, Hother.
Qed.

(** C36: the cache keeps results: reading the row written for a result gives its
    findings (identifiers, severities, titles, dates) with their attributes as
    JSONB keeps them, and its summary, for findings dated within the years of the
    ISO format. *)
Theorem cache_result_roundtrip c e r ttl n rows row n' rows' t i :
  well_formed_event e = true -> cache_unique rows ->
  forallb (fun f => iso_date (publishedAt f)) (findings r) = true ->
  returns (upsertCachedResult c e r ttl) (n, rows) row (n', rows') ->
  (w ← row; match fst (interpretCacheRow w true true (t, rows')) with Ok o => o | Throw _ => None end) = Some i ->
  findings (result i) = map stored_finding (findings r) /\
  row_findings i = map stored_finding (findings r) /\
  summary (result i) = Some (jsonb_summary (result_summary r)).
Proof.
  intros He Hu Hd Hr. apply upsertCachedResult_rows in Hr as (w & d & -> & Hcd & Hdata & _); [|done..].
  cbn [mbind option_bind]. unfold interpretCacheRow, mbind, eff_bind, now_. rewrite Hdata.
  destruct (cache_data_findings r d Hd Hcd) as [Hm Hsum]. cbn [default from_option id].
  destruct (true && _ && _); cbn [mret eff_ret fst]; [done|]. intros Hi. injection Hi as <-.
  cbn [findings result row_findings summary]. by rewrite Hm, Hsum.
Qed.

(** A snapshot served from the cache is fresh and says so: it comes from a
    row of the event's key whose lifetime has not passed, has the status
    cache_hit, and its findings are the row's (a row that claims findings but has
    lost them is a miss). *)
Theorem cached_snapshot_fresh `{!LawfulConnector C} c e name n rows cs n' rows' :
  well_formed_event e = true ->
  returns (buildCachedSnapshot c e name) (n, rows) (Some cs) (n', rows') ->
  rows' = rows /\ m_status (meta (snapshot cs)) = st_cache_hit /\
  exists row, row ∈ rows /\ cache_key row = Some (event_key c e) /\ connectorCacheId cs = Some (cr_id row) /\
    clock n < queried_at row + default (cacheTtlSeconds c) (ttl_seconds row) * 1000 /\
    (cached_findings cs = [] -> finding_count row <= 0).
Proof.
  intros He Hr. unfold buildCachedSnapshot in Hr. destruct (negb (readSnapshots c)); [by run_inv|].
  apply returns_bind in Hr as (found & s1 & Hf & Hr).
  assert (Hs1 := findFreshCacheRow_reads c e n rows). rewrite Hf in Hs1. cbn in Hs1.
  assert (Hk := findFreshCacheRow_key c e n rows He). unfold returns in Hf. rewrite Hf in Hk. cbn in Hk.
  injection Hk as ->. destruct (head (List.filter _ rows)) as [row|] eqn:Eh; cbn [mbind option_bind] in Hr; [|by run_inv].
  destruct (is_fresh c (clock n) row) eqn:Efresh; [|by run_inv]. rewrite is_fresh_spec in Efresh.
  apply Z.ltb_lt in Efresh. apply head_Some_elem_of, elem_of_filter_b in Eh as [Hin Hkey].
  apply bool_decide_eq_true in Hkey. unfold interpretCacheRow in Hr. run_inv.
  run_if Eb; run_inv.
  split; [done|]. split; [by rewrite snapshot_status|]. exists row. repeat split; try done.
  intros Hnil. apply map_eq_nil in Hnil. rewrite Hnil in Eb. cbn in Eb. rewrite andb_true_r in Eb.
  by apply Z.ltb_ge in Eb.
Qed.
End keys.

(** ** Instances *)

Definition cache_example_connector : plain_connector :=
  {| plain_id := "osv"; plain_ttl := 60; plain_mode := sync_required |}.
Definition cache_example_result : ConnectorResult :=
  example_result [example_finding "CVE-1" HIGH [("fix", JStr "2.0"); ("a", JUndef)]]%string.

#[local] Instance cache_example_env : Env := example_env.

Definition cache_example_rows : list CacheRow :=
  (upsertCachedResult cache_example_connector example_event cache_example_result None (0%nat, [])).2.2.

Lemma cache_read_after_write_witness :
  exists w, cache_example_rows = [w] /\
  fst (findFreshCacheRow cache_example_connector example_event (59%nat, cache_example_rows)) = Ok (Some w) /\
  fst (findFreshCacheRow cache_example_connector example_event (60%nat, cache_example_rows)) = Ok None.
Proof.
  destruct (cache_read_after_write cache_example_connector example_event cache_example_result None
    0%nat [] (head cache_example_rows) 3%nat cache_example_rows) as (w & Hw & _ & Hf & _).
  - reflexivity.
  - intros k. cbn. lia.
  - reflexivity.
  - exists w. assert (Hrow : cache_example_rows = [w]).
    { destruct cache_example_rows as [|x [|]] eqn:E; cbn in Hw; vm_compute in E; congruence. }
    split; [exact Hrow|]. rewrite !Hf. destruct cache_example_rows eqn:E; [done|].
    injection Hrow as -> ->. vm_compute in E. injection E as <-. split; reflexivity.
Defined.

Lemma cache_result_roundtrip_witness :
  exists w i, cache_example_rows = [w] /\
    fst (interpretCacheRow w true true (5%nat, cache_example_rows)) = Ok (Some i) /\
    findings (result i) = [example_finding "CVE-1" HIGH [("fix", JStr "2.0")]]%string.
Proof.
  destruct cache_example_rows as [|w rest] eqn:E; [vm_compute in E; discriminate E|].
  assert (rest = []) as -> by (vm_compute in E; congruence).
  destruct (fst (interpretCacheRow w true true (5%nat, [w]))) as [[i|]|] eqn:Ei;
    [|vm_compute in E; injection E as <-; vm_compute in Ei; discriminate Ei..].
  exists w, i. split; [reflexivity|]. split; [exact Ei|].
  destruct (cache_result_roundtrip cache_example_connector example_event cache_example_result None
    0%nat [] (Some w) 3%nat [w] 5%nat i) as [Hf _].
  - reflexivity.
  - intros k. cbn. lia.
  - reflexivity.
  - vm_compute in E. injection E as <-. reflexivity.
  - cbn [mbind option_bind]. rewrite Ei. reflexivity.
  - rewrite Hf. reflexivity.
Defined.

Lemma cached_snapshot_fresh_witness :
  exists cs s', returns (buildCachedSnapshot cache_example_connector example_event "left-pad@1.0.0")
                         (5%nat, cache_example_rows) (Some cs) s' /\
    m_status (meta (snapshot cs)) = st_cache_hit.
Proof.
  destruct (buildCachedSnapshot cache_example_connector example_event "left-pad@1.0.0"
    (5%nat, cache_example_rows)) as [[[cs|]|] s'] eqn:E; try (vm_compute in E; discriminate E).
  exists cs, s'. split; [exact E|]. destruct s' as [n' rows'].
  apply (cached_snapshot_fresh cache_example_connector example_event "left-pad@1.0.0"
    5%nat cache_example_rows cs n' rows'); [reflexivity|exact E].
Defined.
