(* ===== verification/Findings.v ===== *)
(** * Project findings (services/api/src/features/security/project-findings.ts)

    A connector's findings for a package version are recorded in three tables:
    the identities of findings, their versions with validity windows, and the
    windows in which a project observes them.  [upsertProjectFindingsForEntity]
    brings the tables in line with the findings of one evaluation, in one
    transaction.

    The tables' unique indexes and window checks are modelled: a write that
    breaks one throws.  The advisory lock on a finding only orders concurrent
    transactions and has no effect in a sequential run.  A text column is taken to
    return the string bound to it. *)

From S2P Require Import Prelude JsString JsNum JsValue Jsonb Sql Effects ConnectorTypes.
Local Open Scope string_scope.
Local Open Scope list_scope.
Local Open Scope Z_scope.

(** ** Tables *)

Record material := {
  mt_severity : VulnSeverity; mt_title : option string; mt_description : jsval;
  mt_aliases : jsval; mt_affected_ranges : jsval; mt_fixed_versions : jsval;
  mt_raw_attributes : list (string * jsval)
}.

Record finding_row := { fd_key : string; fd_connector_key : string; fd_external_id : string }.

Record finding_version_row := {
  fv_id : string; fv_finding_key : string; fv_version : Z; fv_connector_cache_id : option string;
  fv_material : material; fv_effective_from : timestamp; fv_effective_to : timestamp;
  fv_superseded_by_id : option string
}.

Record project_finding_row := {
  pf_id : string; pf_tenant_id : string; pf_project_id : string; pf_package_id : option string;
  pf_package_version_id : option string; pf_finding_key : string;
  pf_current_finding_version_id : string; pf_observed_from : timestamp;
  pf_observed_to : timestamp; pf_last_seen_at : timestamp
}.

Record findings_db := {
  t_findings : list finding_row; finding_versions : list finding_version_row;
  project_findings : list project_finding_row
}.

Definition set_findings (l : list finding_row) (db : findings_db) : findings_db :=
  {| t_findings := l; finding_versions := finding_versions db; project_findings := project_findings db |}.
Definition set_versions (f : list finding_version_row -> list finding_version_row) (db : findings_db)
  : findings_db :=
  {| t_findings := t_findings db; finding_versions := f (finding_versions db);
     project_findings := project_findings db |}.
Definition set_project_findings (f : list project_finding_row -> list project_finding_row)
    (db : findings_db) : findings_db :=
  {| t_findings := t_findings db; finding_versions := finding_versions db;
     project_findings := f (project_findings db) |}.

(** ** Material content *)

Definition attr (k : string) (attributes : list (string * jsval)) : jsval :=
  default (inherited k) (own k attributes).

Definition materialFindingPayload (finding : ConnectorFinding) : material :=
  let a := attributes finding in
  {| mt_severity := f_severity finding; mt_title := f_title finding;
     mt_description := nullish (attr "description" a) JNull;
     mt_aliases := nullish (attr "aliases" a) JNull;
     mt_affected_ranges := nullish (attr "affected_ranges" a) JNull;
     mt_fixed_versions :=
       nullish (attr "fixed_versions" a)
         (nullish (attr "fix_versions" a)
            (if truthy (attr "fix_version" a) then JArr [attr "fix_version" a] else JNull));
     mt_raw_attributes := a |}.

(** What the columns hold of it. *)
Definition stored_material (m : material) : material :=
  {| mt_severity := mt_severity m; mt_title := mt_title m; mt_description := mt_description m;
     mt_aliases := jsonb (mt_aliases m); mt_affected_ranges := jsonb (mt_affected_ranges m);
     mt_fixed_versions := jsonb (mt_fixed_versions m);
     mt_raw_attributes := jsonb_fields (mt_raw_attributes m) |}.

(** [JSON.stringify(v, keys)]: with an array of keys as second argument, objects
    at every depth are written with those of the keys they have, in that order. *)
Fixpoint stringify_keys (keys : list string) (v : jsval) : option string :=
  match v with
  | JUndef | JFun _ => None
  | JNull => Some "null"
  | JBool b => Some (if b then "true" else "false")
  | JNum n => Some (if num_is_finite n then num_to_string n else "null")
  | JStr s => Some (quoted s)
  | JArr l => Some ("[" +:+ join "," (map (fun x => default "null" (stringify_keys keys x)) l) +:+ "]")
  | JObj kvs =>
      let rendered := map (fun kv => match kv with (k, x) => (k, stringify_keys keys x) end) kvs in
      let member k :=
        '(_, o) ← js_find (fun kv => String.eqb k kv.1) rendered;
        s ← o; Some (quoted k +:+ ":" +:+ s) in
      Some ("{" +:+ join "," (omap member keys) +:+ "}")
  end.

(** [Object.keys(v).sort()] *)
Definition sorted_keys (v : jsval) : list string :=
  js_sort str_leb
    match v with
    | JObj kvs => kvs.*1
    | JArr l => map (fun i => string_of_Z (Z.of_nat i)) (seq 0 (length l))
    | _ => []
    end.

Definition stableJson (v : jsval) : option string :=
  match v with
  | JNull | JUndef => Some "null"
  | JObj _ | JArr _ => stringify_keys (sorted_keys v) v
  | _ => stringify v
  end.

Definition json_differs (a b : jsval) : bool := negb (bool_decide (stableJson a = stableJson b)).

Definition hasMaterialChange (current : finding_version_row) (next : material) : bool :=
  let c := fv_material current in
  negb (severity_eqb (mt_severity c) (mt_severity next))
  || negb (bool_decide (mt_title c = mt_title next))
  || negb (strict_eq (mt_description c) (mt_description next))
  || json_differs (mt_aliases c) (mt_aliases next)
  || json_differs (mt_affected_ranges c) (mt_affected_ranges next)
  || json_differs (mt_fixed_versions c) (mt_fixed_versions next)
  || json_differs (JObj (mt_raw_attributes c)) (JObj (mt_raw_attributes next)).

(** ** Writes *)

Section findings.
Context `{Env}.
Definition FM : Type -> Type := M findings_db.

Definition dateAfter (now : timestamp) (value : option timestamp) : timestamp :=
  match value with
  | None => now
  | Some v => if v <? now then now else v + 1
  end.

Definition dateAfterNowAnd (value : option timestamp) : FM timestamp :=
  now ← now_; mret (dateAfter now value).

Definition close_version (id : string) (at_ : timestamp) (rows : list finding_version_row) :=
  update_where (fun r => String.eqb (fv_id r) id)
    (fun r => {| fv_id := fv_id r; fv_finding_key := fv_finding_key r; fv_version := fv_version r;
                 fv_connector_cache_id := fv_connector_cache_id r; fv_material := fv_material r;
                 fv_effective_from := fv_effective_from r; fv_effective_to := at_;
                 fv_superseded_by_id := fv_superseded_by_id r |}) rows.

Definition supersede_version (id by_ : string) (rows : list finding_version_row) :=
  update_where (fun r => String.eqb (fv_id r) id)
    (fun r => {| fv_id := fv_id r; fv_finding_key := fv_finding_key r; fv_version := fv_version r;
                 fv_connector_cache_id := fv_connector_cache_id r; fv_material := fv_material r;
                 fv_effective_from := fv_effective_from r; fv_effective_to := fv_effective_to r;
                 fv_superseded_by_id := Some by_ |}) rows.

Definition version_conflict (new r : finding_version_row) : bool :=
  String.eqb (fv_finding_key r) (fv_finding_key new)
  && ((fv_version r =? fv_version new)
      || ((fv_effective_to r =? VALID_TO_INFINITY) && (fv_effective_to new =? VALID_TO_INFINITY))).

Definition insert_version (new : finding_version_row) : FM unit :=
  rows ← gets finding_versions;
  if negb (fv_effective_from new <? fv_effective_to new) then throw "check_violation"
  else if existsb (version_conflict new) rows then throw "unique_violation"
  else modify (set_versions (fun rows => rows ++ [new])).

(** Both unique indexes skip rows with a null column. *)
Definition project_finding_conflict (new r : project_finding_row) : bool :=
  String.eqb (pf_project_id r) (pf_project_id new)
  && (negb (bool_decide (pf_package_id r = None)) && bool_decide (pf_package_id r = pf_package_id new))
  && (negb (bool_decide (pf_package_version_id r = None))
      && bool_decide (pf_package_version_id r = pf_package_version_id new))
  && String.eqb (pf_finding_key r) (pf_finding_key new)
  && ((pf_observed_from r =? pf_observed_from new)
      || ((pf_observed_to r =? VALID_TO_INFINITY) && (pf_observed_to new =? VALID_TO_INFINITY))).

Definition insert_project_finding (new : project_finding_row) : FM unit :=
  rows ← gets project_findings;
  if negb (pf_observed_from new <? pf_observed_to new) then throw "check_violation"
  else if existsb (project_finding_conflict new) rows then throw "unique_violation"
  else modify (set_project_findings (fun rows => rows ++ [new])).

Definition touch_project_finding (id version_id : string) (at_ : timestamp) (rows : list project_finding_row) :=
  update_where (fun r => String.eqb (pf_id r) id)
    (fun r => {| pf_id := pf_id r; pf_tenant_id := pf_tenant_id r; pf_project_id := pf_project_id r;
                 pf_package_id := pf_package_id r; pf_package_version_id := pf_package_version_id r;
                 pf_finding_key := pf_finding_key r; pf_current_finding_version_id := version_id;
                 pf_observed_from := pf_observed_from r; pf_observed_to := pf_observed_to r;
                 pf_last_seen_at := at_ |}) rows.

Definition close_project_finding (id : string) (at_ : timestamp) (rows : list project_finding_row) :=
  update_where (fun r => String.eqb (pf_id r) id)
    (fun r => {| pf_id := pf_id r; pf_tenant_id := pf_tenant_id r; pf_project_id := pf_project_id r;
                 pf_package_id := pf_package_id r; pf_package_version_id := pf_package_version_id r;
                 pf_finding_key := pf_finding_key r;
                 pf_current_finding_version_id := pf_current_finding_version_id r;
                 pf_observed_from := pf_observed_from r; pf_observed_to := at_;
                 pf_last_seen_at := pf_last_seen_at r |}) rows.

(** ** The transaction *)

Record UpsertProjectFindingsInput := {
  in_tenantId : string; in_projectId : string; in_connectorKey : string;
  in_connectorCacheId : option string; in_packageId : option string;
  in_packageVersionId : option string; in_findings : list ConnectorFinding
}.

(** The identity of a finding, created on first sight. *)
Definition upsert_finding (connectorKey : string) (f : ConnectorFinding) : FM string :=
  id ← fresh;
  let write := upsert (fun r => String.eqb (fd_connector_key r) connectorKey
                                && String.eqb (fd_external_id r) (findingId f))
                 (fun r => {| fd_key := fd_key r; fd_connector_key := fd_connector_key r;
                              fd_external_id := findingId f |})
                 {| fd_key := id; fd_connector_key := connectorKey; fd_external_id := findingId f |} in
  row ← gets (fun db => (write (t_findings db)).2);
  _ ← modify (fun db => set_findings (write (t_findings db)).1 db);
  mret (fd_key row).

Definition current_version (key : string) (db : findings_db) : option finding_version_row :=
  head (List.filter (fun r => String.eqb (fv_finding_key r) key && (fv_effective_to r =? VALID_TO_INFINITY))
          (finding_versions db)).

(** The id of the version that now describes the finding: the current one, or a
    new one when its content changed. *)
Definition upsert_version (cacheId : option string) (key : string) (f : ConnectorFinding) : FM string :=
  let next := materialFindingPayload f in
  current ← gets (current_version key);
  at_ ← dateAfterNowAnd (fv_effective_from <$> current);
  if match current with Some c => negb (hasMaterialChange c next) | None => false end
  then mret (from_option fv_id EmptyString current)
  else
    _ ← match current with
        | Some c => modify (set_versions (close_version (fv_id c) at_))
        | None => mret tt
        end;
    id ← fresh;
    _ ← insert_version
          {| fv_id := id; fv_finding_key := key; fv_version := from_option fv_version 0 current + 1;
             fv_connector_cache_id := cacheId; fv_material := stored_material next;
             fv_effective_from := at_; fv_effective_to := VALID_TO_INFINITY; fv_superseded_by_id := None |};
    _ ← match current with
        | Some c => modify (set_versions (supersede_version (fv_id c) id))
        | None => mret tt
        end;
    mret id.

(** Rows of the project and entity. *)
Definition of_entity (projectId packageId : string) (packageVersionId : option string)
    (r : project_finding_row) : bool :=
  String.eqb (pf_project_id r) projectId && opt_eq (pf_package_id r) packageId
  && match present packageVersionId with
     | Some vid => opt_eq (pf_package_version_id r) vid
     | None => bool_decide (pf_package_version_id r = None)
     end.

Definition is_open (r : project_finding_row) : bool := pf_observed_to r =? VALID_TO_INFINITY.

Definition current_project_finding (projectId packageId : string) (packageVersionId : option string)
    (key : string) (db : findings_db) : option project_finding_row :=
  head (List.filter (fun r => of_entity projectId packageId packageVersionId r
                              && String.eqb (pf_finding_key r) key && is_open r)
          (project_findings db)).

(** The loop body for one finding: its key, and whether it is new. *)
Definition observe_finding (input : UpsertProjectFindingsInput) (packageId : string) (f : ConnectorFinding)
  : FM (string * bool) :=
  key ← upsert_finding (in_connectorKey input) f;
  version_id ← upsert_version (in_connectorCacheId input) key f;
  current ← gets (current_project_finding (in_projectId input) packageId (in_packageVersionId input) key);
  at_ ← dateAfterNowAnd (pf_observed_from <$> current);
  match current with
  | None =>
      id ← fresh;
      _ ← insert_project_finding
            {| pf_id := id; pf_tenant_id := in_tenantId input; pf_project_id := in_projectId input;
               pf_package_id := Some packageId; pf_package_version_id := in_packageVersionId input;
               pf_finding_key := key; pf_current_finding_version_id := version_id;
               pf_observed_from := at_; pf_observed_to := VALID_TO_INFINITY; pf_last_seen_at := at_ |};
      mret (key, true)
  | Some c =>
      _ ← modify (set_project_findings (touch_project_finding (pf_id c) version_id at_));
      mret (key, false)
  end.

(** Closes one open finding that was not observed. *)
Definition close_unobserved (observed : list string) (r : project_finding_row) : FM unit :=
  if existsb (String.eqb (pf_finding_key r)) observed then mret tt
  else
    at_ ← dateAfterNowAnd (Some (pf_observed_from r));
    modify (set_project_findings (close_project_finding (pf_id r) at_)).

(** The connector's open findings of the entity: an inner join with findings. *)
Definition connector_open_findings (input : UpsertProjectFindingsInput) (packageId : string) (db : findings_db)
  : list project_finding_row :=
  (inner_join (fun r f => String.eqb (pf_finding_key r) (fd_key f)
                          && String.eqb (fd_connector_key f) (in_connectorKey input))
     (List.filter (fun r => of_entity (in_projectId input) packageId (in_packageVersionId input) r && is_open r)
        (project_findings db))
     (t_findings db)).*1.

Definition upsertProjectFindingsForEntityTx (input : UpsertProjectFindingsInput) : FM nat :=
  match present (in_packageId input) with
  | None => mret 0%nat
  | Some packageId =>
      seen ← mapM_ (observe_finding input packageId) (in_findings input);
      open_rows ← gets (connector_open_findings input packageId);
      _ ← mapM_ (close_unobserved seen.*1) open_rows;
      mret (length (List.filter snd seen))
  end.

Definition upsertProjectFindingsForEntity (input : UpsertProjectFindingsInput) : FM nat :=
  transaction (upsertProjectFindingsForEntityTx input).
End findings.
