(* ===== verification/FindingsCorrect.v ===== *)
(** * Correctness of the recording of findings

    The invariant of the three tables, kept by every run of
    [upsertProjectFindingsForEntity]; the content of the tables after a run; and
    the changes of content it does not notice. *)

Set Warnings "-clear-no-such-hyp".

From S2P Require Import Prelude JsString JsNum JsValue Jsonb Sql Effects ConnectorTypes Findings.
Local Open Scope Z_scope.

(** ** Updates by id *)

(** An update by id changes the one row with it. *)
Lemma update_last {R} (id : R -> string) (f : R -> R) l c :
  NoDup (map id (l ++ [c])) -> update_where (fun r => String.eqb (id r) (id c)) f (l ++ [c]) = l ++ [f c].
Proof.
  intros Hn. unfold update_where. rewrite map_app. cbn [map]. rewrite String.eqb_refl. f_equal.
  apply update_where_none. intros r Hr. apply String.eqb_neq. intros He.
  rewrite map_app in Hn. apply NoDup_app in Hn as (_ & Hd & _).
  apply (Hd (id r)); [by apply list_elem_of_fmap_2|]. rewrite He. apply list_elem_of_here.
Qed.

Lemma NoDup_map_on {R T} (g : R -> T) l :
  (forall x y, x ∈ l -> y ∈ l -> g x = g y -> x = y) -> NoDup l -> NoDup (map g l).
Proof.
  intros Hg Hn. induction Hn as [|x l Hx Hn IH]; [apply NoDup_nil_2|]. cbn. apply NoDup_cons. split.
  - intros (y & Hy & Hl)%list_elem_of_fmap. apply Hx.
    rewrite (Hg x y); [done|apply list_elem_of_here|by apply list_elem_of_further|done].
  - apply IH. intros y z Hy Hz. apply Hg; by apply list_elem_of_further.
Qed.

(** ** The history of a finding

    The versions of one finding, in insertion order: numbered from [k] without a
    gap, each one's window ending where the next begins and naming it, the last
    one current. *)

Fixpoint chain (k : Z) (l : list finding_version_row) : Prop :=
  match l with
  | [] => True
  | v :: rest =>
      fv_version v = k /\ fv_effective_from v < VALID_TO_INFINITY /\
      match rest with
      | [] => fv_effective_to v = VALID_TO_INFINITY
      | w :: _ => fv_effective_from v < fv_effective_to v /\ fv_effective_to v = fv_effective_from w /\
                  fv_superseded_by_id v = Some (fv_id w)
      end /\ chain (k + 1) rest
  end.

Definition is_current (r : finding_version_row) : bool := fv_effective_to r =? VALID_TO_INFINITY.

Definition versions_of (key : string) (rows : list finding_version_row) : list finding_version_row :=
  List.filter (fun r => String.eqb (fv_finding_key r) key) rows.

Lemma chain_current k l c : chain k (l ++ [c]) -> List.filter is_current (l ++ [c]) = [c].
Proof.
  revert k. induction l as [|v l IH]; intros k H.
  - cbn in H |- *. destruct H as (_ & _ & Hc & _). unfold is_current. by rewrite Hc, Z.eqb_refl.
  - cbn [app chain List.filter] in *. destruct H as (_ & _ & Hw & H). specialize (IH _ H).
    destruct (l ++ [c]) as [|w r] eqn:E; [by destruct l|].
    destruct Hw as (Hv & Ht & _). cbn [chain] in H. destruct H as (_ & Hw & _).
    unfold is_current at 1. rewrite (proj2 (Z.eqb_neq _ _)) by lia. exact IH.
Qed.

Lemma chain_versions k l c v :
  chain k (l ++ [c]) -> v ∈ l ++ [c] -> k <= fv_version v <= fv_version c.
Proof.
  revert k v. induction l as [|u l IH]; intros k v H Hv.
  - cbn in H. apply list_elem_of_singleton in Hv as ->. lia.
  - cbn [app chain] in *. destruct H as (Hu & _ & _ & H).
    assert (Hc : k + 1 <= fv_version c <= fv_version c) by (apply (IH _ c H); set_solver).
    apply elem_of_cons in Hv as [->|Hv]; [lia|]. specialize (IH _ _ H Hv). lia.
Qed.

(** Replacing the current version extends the chain. *)
Lemma chain_snoc k l c c' new at_ :
  chain k (l ++ [c]) -> fv_effective_from c < at_ -> at_ < VALID_TO_INFINITY ->
  fv_id c' = fv_id c -> fv_version c' = fv_version c -> fv_effective_from c' = fv_effective_from c ->
  fv_effective_to c' = at_ -> fv_superseded_by_id c' = Some (fv_id new) ->
  fv_version new = fv_version c + 1 -> fv_effective_from new = at_ -> fv_effective_to new = VALID_TO_INFINITY ->
  chain k ((l ++ [c']) ++ [new]).
Proof.
  intros H Ha Hi Eid Ev Ef Et Es Nv Nf Nt. revert k H. induction l as [|u l IH]; intros k H.
  - cbn in *. rewrite Ev, Ef, Et, Es, Nv, Nf, Nt. repeat split; lia.
  - cbn [app chain] in *. destruct H as (Hu & Huf & Hw & H). split; [done|]. split; [done|]. split; [|by apply IH].
    destruct l as [|w l]; cbn [app] in *; [|done]. by rewrite Eid, Ef.
Qed.

Definition histories (rows : list finding_version_row) : Prop :=
  forall key, chain 1 (versions_of key rows).

Lemma current_version_last key db :
  histories (finding_versions db) ->
  (versions_of key (finding_versions db) = [] /\ current_version key db = None) \/
  exists l c, versions_of key (finding_versions db) = l ++ [c] /\ current_version key db = Some c.
Proof.
  intros Hh. specialize (Hh key). unfold current_version.
  assert (Hf : List.filter (fun r => String.eqb (fv_finding_key r) key && (fv_effective_to r =? VALID_TO_INFINITY))
                 (finding_versions db) = List.filter is_current (versions_of key (finding_versions db))).
  { unfold versions_of. generalize (finding_versions db). intros rows.
    induction rows as [|r rows IH]; [done|]. cbn [List.filter]. destruct (String.eqb (fv_finding_key r) key); cbn [andb List.filter].
    - unfold is_current at 1. destruct (fv_effective_to r =? VALID_TO_INFINITY); by rewrite IH.
    - exact IH. }
  rewrite Hf. destruct (versions_of key (finding_versions db)) as [|v l _] eqn:E using rev_ind; [by left|].
  right. exists l, v. split; [done|]. by rewrite (chain_current 1).
Qed.

(** ** The invariant *)

Section correct.
Context `{Env}.

Definition used_ids (db : findings_db) : list string :=
  map fd_key (t_findings db) ++ map fv_id (finding_versions db) ++ map pf_id (project_findings db).

Definition open_of (projectId packageId : string) (version : option string) (key : string)
    (r : project_finding_row) : bool :=
  of_entity projectId packageId version r && String.eqb (pf_finding_key r) key && is_open r.

Record findings_ok (n : nat) (db : findings_db) : Prop := {
  ok_fresh m id : (n <= m)%nat -> id ∈ used_ids db -> uuid m <> id;
  ok_keys : NoDup (map fd_key (t_findings db));
  ok_external : NoDup (map (fun r => (fd_connector_key r, fd_external_id r)) (t_findings db));
  ok_version_ids : NoDup (map fv_id (finding_versions db));
  ok_histories : histories (finding_versions db);
  ok_project_ids : NoDup (map pf_id (project_findings db));
  ok_references r : r ∈ project_findings db -> pf_finding_key r ∈ map fd_key (t_findings db);
  ok_open projectId packageId version key :
    (length (List.filter (open_of projectId packageId version key) (project_findings db)) <= 1)%nat
}.

Lemma findings_ok_mono : monotone findings_ok.
Proof. intros n m db Hnm [Hf]. split; auto. intros k id Hk. apply Hf. lia. Qed.

Lemma findings_ok_empty n : findings_ok n {| t_findings := []; finding_versions := []; project_findings := [] |}.
Proof.
  split; cbn; try apply NoDup_nil_2; try done; try lia.
  - intros m id _ Hid. by apply not_elem_of_nil in Hid.
  - intros r Hr. by apply not_elem_of_nil in Hr.
Qed.

Lemma elem_of_used id db :
  id ∈ used_ids db <-> id ∈ map fd_key (t_findings db) \/ id ∈ map fv_id (finding_versions db)
                       \/ id ∈ map pf_id (project_findings db).
Proof. unfold used_ids. by rewrite !elem_of_app. Qed.

(** *** Identities *)

Definition identity_row (key connector : string) (f : ConnectorFinding) : finding_row :=
  {| fd_key := key; fd_connector_key := connector; fd_external_id := findingId f |}.

Context (uuid_inj : forall m n, uuid m = uuid n -> m = n).

Lemma upsert_finding_post connector f n db key n' db' :
  findings_ok n db -> returns (upsert_finding connector f) (n, db) key (n', db') ->
  n' = S n /\ findings_ok n' db' /\
  finding_versions db' = finding_versions db /\ project_findings db' = project_findings db /\
  identity_row key connector f ∈ t_findings db' /\
  (t_findings db' = t_findings db \/ t_findings db' = t_findings db ++ [identity_row key connector f]).
Proof.
  intros Hok Hr. unfold upsert_finding in Hr. run_inv.
  match goal with |- context [upsert ?c ?u ?x _] => set (conflict := c); set (upd := u); set (new := x) end.
  split; [done|]. destruct (existsb conflict (t_findings db)) eqn:Ec.
  - destruct (upsert_noop conflict upd new (t_findings db)) as (-> & Hc & Hin); [|done|].
    { intros r [_ Hr]%andb_prop. apply String.eqb_eq in Hr. unfold upd. rewrite <- Hr. by destruct r. }
    set (row := (upsert conflict upd new (t_findings db)).2) in *.
    apply andb_prop in Hc as [Hc1%String.eqb_eq Hc2%String.eqb_eq].
    assert (identity_row (fd_key row) connector f = row) as -> by (unfold identity_row; rewrite <- Hc1, <- Hc2; by destruct row).
    split; [|by auto]. apply (findings_ok_mono n); [lia|]. by destruct db.
  - rewrite upsert_insert by done. cbn. split; [|split; [done|split; [done|split; [|by right]]]].
    2:{ apply elem_of_app. right. apply list_elem_of_here. }
    destruct Hok as [Hf Hk He Hv Hh Hp Hr Ho].
    split; cbn [t_findings finding_versions project_findings set_findings]; auto.
    + intros m id Hm. rewrite elem_of_used. cbn. rewrite map_app, elem_of_app. cbn.
      intros [[Hid|Hid%list_elem_of_singleton]|Hid].
      * apply Hf; [lia|]. rewrite elem_of_used. by left.
      * intros Heq. rewrite Hid in Heq. apply uuid_inj in Heq. lia.
      * apply Hf; [lia|]. rewrite elem_of_used. by right.
    + rewrite map_app. apply NoDup_app. split; [done|]. split; [|apply NoDup_singleton].
      intros x Hx ->%list_elem_of_singleton. apply (Hf n (uuid n)); [lia| |done].
      rewrite elem_of_used. by left.
    + rewrite map_app. apply NoDup_app. split; [done|]. split; [|apply NoDup_singleton].
      intros x Hx ->%list_elem_of_singleton. apply list_elem_of_fmap in Hx as (r & [= Hr1 Hr2] & Hin).
      assert (Hx : existsb conflict (t_findings db) = true); [|congruence].
      apply existsb_elem_of. exists r. split; [done|]. unfold conflict. by rewrite <- Hr1, <- Hr2, !String.eqb_refl.
    + intros r Hin. rewrite map_app. apply elem_of_app. left. auto.
Qed.

(** *** Versions *)

Lemma dateAfter_gt now v : v < dateAfter now (Some v).
Proof. cbn. destruct (Z.ltb_spec v now); lia. Qed.

Lemma insert_version_returns new n db u s' :
  returns (insert_version new) (n, db) u s' ->
  fv_effective_from new < fv_effective_to new /\ existsb (version_conflict new) (finding_versions db) = false /\
  s' = (n, set_versions (fun rows => rows ++ [new]) db).
Proof.
  unfold insert_version. intros Hr. run_inv. run_if E1; [run_inv|]. run_if E2; run_inv.
  apply negb_false_iff, Z.ltb_lt in E1. auto.
Qed.

(** The rows after a current version is replaced. *)
Definition replace_version (c : finding_version_row) (at_ : timestamp) (id : string) (r : finding_version_row) :=
  {| fv_id := fv_id r; fv_finding_key := fv_finding_key r; fv_version := fv_version r;
     fv_connector_cache_id := fv_connector_cache_id r; fv_material := fv_material r;
     fv_effective_from := fv_effective_from r; fv_effective_to := at_; fv_superseded_by_id := Some id |}.

Lemma supersede_close c at_ id new rows :
  fv_id new <> fv_id c ->
  supersede_version (fv_id c) id (close_version (fv_id c) at_ rows ++ [new])
  = update_where (fun r => String.eqb (fv_id r) (fv_id c)) (replace_version c at_ id) rows ++ [new].
Proof.
  intros Hne. unfold supersede_version, close_version, update_where. rewrite map_app, map_map. cbn [map].
  rewrite (proj2 (String.eqb_neq (fv_id new) (fv_id c))) by done. f_equal. apply map_ext. intros r.
  destruct (String.eqb (fv_id r) (fv_id c)) eqn:E; cbn [fv_id]; by rewrite E.
Qed.

Lemma versions_of_app k rows r :
  versions_of k (rows ++ [r]) = versions_of k rows ++ (if String.eqb (fv_finding_key r) k then [r] else []).
Proof. unfold versions_of. rewrite List.filter_app. cbn. by destruct (String.eqb _ k). Qed.

(** What a version never loses. *)
Definition content (v : finding_version_row) : string * string * Z * material * timestamp :=
  (fv_id v, fv_finding_key v, fv_version v, fv_material v, fv_effective_from v).

(** Adding a version, after replacing the current one if there is one. *)
Lemma add_version_ok n db key cache f at_ c (rows : list finding_version_row) :
  findings_ok n db ->
  let new := {| fv_id := uuid n; fv_finding_key := key; fv_version := from_option fv_version 0 c + 1;
                fv_connector_cache_id := cache; fv_material := stored_material (materialFindingPayload f);
                fv_effective_from := at_; fv_effective_to := VALID_TO_INFINITY; fv_superseded_by_id := None |} in
  current_version key db = c -> at_ < VALID_TO_INFINITY ->
  (forall v, c = Some v -> fv_effective_from v < at_) ->
  rows = (match c with
          | Some v => update_where (fun r => String.eqb (fv_id r) (fv_id v)) (replace_version v at_ (uuid n))
                        (finding_versions db)
          | None => finding_versions db end) ++ [new] ->
  NoDup (map fv_id rows) /\ histories rows /\
  (forall k, k <> key -> versions_of k rows = versions_of k (finding_versions db)) /\
  (exists l, versions_of key rows = l ++ [new]) /\
  map content (finding_versions db) `prefix_of` map content rows.
Proof.
  intros Hok new Hc Hat Hfrom Hrows.
  set (old := match c with Some v => _ | None => _ end) in Hrows.
  assert (Hids : map fv_id old = map fv_id (finding_versions db)).
  { unfold old. destruct c as [v|]; [|done]. by apply update_where_map. }
  assert (Hof : forall k, versions_of k old = match c with
    | Some v => update_where (fun r => String.eqb (fv_id r) (fv_id v)) (replace_version v at_ (uuid n))
                  (versions_of k (finding_versions db))
    | None => versions_of k (finding_versions db) end).
  { intros k. unfold old, versions_of. destruct c; [|done]. by apply filter_update_where. }
  assert (Hother : forall k, k <> key -> versions_of k old = versions_of k (finding_versions db)).
  { intros k Hk. rewrite Hof. destruct c as [v|]; [|done]. apply update_where_none. intros r Hr.
    apply String.eqb_neq. intros He. apply elem_of_filter_b in Hr as [Hr Hrk].
    unfold current_version in Hc. apply head_Some_elem_of, elem_of_filter_b in Hc as [Hv Hvk].
    apply andb_prop in Hvk as [Hvk _]. apply String.eqb_eq in Hvk, Hrk.
    assert (r = v) by (eapply NoDup_map_inj; [apply (ok_version_ids _ _ Hok)|..]; done). congruence. }
  assert (Hnew : forall k, versions_of k rows = versions_of k old ++ (if String.eqb key k then [new] else [])).
  { intros k. by rewrite Hrows, versions_of_app. }
  assert (Hkey : exists l, versions_of key old = l /\ chain 1 (l ++ [new])).
  { rewrite Hof. eexists. split; [done|].
    destruct (current_version_last key db (ok_histories _ _ Hok)) as [[He Hn]|(l & v & He & Hn)];
      rewrite Hn in Hc; subst c; cbn [from_option].
    - rewrite He. cbn. repeat split; lia.
    - assert (Hch := ok_histories _ _ Hok key). rewrite He in Hch |- *.
      rewrite (update_last fv_id).
      2:{ rewrite <- He. apply NoDup_map_filter, (ok_version_ids _ _ Hok). }
      eapply (chain_snoc 1 l v); try done; auto. }
  destruct Hkey as (l & Hl & Hch). split; [|split; [|split; [|split]]].
  - rewrite Hrows, map_app, Hids. apply NoDup_app. split; [apply (ok_version_ids _ _ Hok)|].
    split; [|apply NoDup_singleton]. intros x Hx ->%list_elem_of_singleton.
    apply (ok_fresh _ _ Hok n (uuid n)); [lia|by rewrite elem_of_used; auto|done].
  - intros k. rewrite Hnew. destruct (String.eqb_spec key k) as [<-|Hne]; [by rewrite Hl|].
    rewrite app_nil_r, Hother by done. apply (ok_histories _ _ Hok).
  - intros k Hk. rewrite Hnew, (proj2 (String.eqb_neq key k)) by done. by rewrite app_nil_r, Hother.
  - exists l. by rewrite Hnew, String.eqb_refl, Hl.
  - rewrite Hrows, map_app. replace (map content old) with (map content (finding_versions db)); [by eexists|].
    unfold old. destruct c as [v|]; [|done]. by rewrite (update_where_map content).
Qed.

(** The version describes the finding: it was written from it, or differs in
    nothing the comparison sees. *)
Definition describes (v : finding_version_row) (f : ConnectorFinding) : Prop :=
  fv_material v = stored_material (materialFindingPayload f) \/
  hasMaterialChange v (materialFindingPayload f) = false.

Lemma set_versions_ok n db rows :
  findings_ok n db -> NoDup (map fv_id rows) -> histories rows ->
  (forall id, id ∈ map fv_id rows -> id ∈ map fv_id (finding_versions db) \/ id = uuid n) ->
  findings_ok (S n) (set_versions (fun _ => rows) db).
Proof.
  intros [Hf Hk He Hv Hh Hp Hr Ho] Hnd Hhist Hids.
  split; cbn [t_findings finding_versions project_findings set_versions]; auto.
  intros m id Hm. rewrite elem_of_used. cbn [t_findings finding_versions project_findings set_versions].
  intros Hid Heq. destruct Hid as [Hid|[Hid|Hid]].
  - apply (Hf m id); [lia|rewrite elem_of_used; auto|done].
  - apply Hids in Hid as [Hid|Hid].
    + apply (Hf m id); [lia|rewrite elem_of_used; auto|done].
    + rewrite Hid in Heq. apply uuid_inj in Heq. lia.
  - apply (Hf m id); [lia|rewrite elem_of_used; auto|done].
Qed.

Lemma add_version_post n db key cache f at_ c (rows : list finding_version_row) :
  findings_ok n db ->
  let new := {| fv_id := uuid n; fv_finding_key := key; fv_version := from_option fv_version 0 c + 1;
                fv_connector_cache_id := cache; fv_material := stored_material (materialFindingPayload f);
                fv_effective_from := at_; fv_effective_to := VALID_TO_INFINITY; fv_superseded_by_id := None |} in
  current_version key db = c -> at_ < VALID_TO_INFINITY ->
  (forall v, c = Some v -> fv_effective_from v < at_) ->
  rows = (match c with
          | Some v => update_where (fun r => String.eqb (fv_id r) (fv_id v)) (replace_version v at_ (uuid n))
                        (finding_versions db)
          | None => finding_versions db end) ++ [new] ->
  let db' := set_versions (fun _ => rows) db in
  findings_ok (S n) db' /\
  (forall k, k <> key -> versions_of k (finding_versions db') = versions_of k (finding_versions db)) /\
  map content (finding_versions db) `prefix_of` map content (finding_versions db') /\
  exists v, current_version key db' = Some v /\ fv_id v = uuid n /\ describes v f.
Proof.
  intros Hok new Hc Hlt Hfrom Hrows db'.
  destruct (add_version_ok n db key cache f at_ c rows Hok Hc Hlt Hfrom Hrows) as (Hn & Hh & Ho & (l & Hl) & Haudit).
  split; [|split; [exact Ho|split; [exact Haudit|]]].
  - apply set_versions_ok; [done..|]. intros id. rewrite Hrows, map_app, elem_of_app.
    intros [Hid|Hid%list_elem_of_singleton]; [left|by right].
    destruct c; [|done]. by rewrite update_where_map in Hid.
  - exists new. split; [|split; [done|by left]].
    destruct (current_version_last key db' Hh) as [[Hx _]|(l' & c' & Hx & Hy)];
      cbn [finding_versions set_versions db'] in Hx; rewrite Hl in Hx.
    + by destruct l.
    + apply app_inj_tail in Hx as [_ <-]. exact Hy.
Qed.

Lemma upsert_version_post cache key f n db vid n' db' :
  findings_ok n db -> returns (upsert_version cache key f) (n, db) vid (n', db') ->
  (n <= n')%nat /\ findings_ok n' db' /\
  t_findings db' = t_findings db /\ project_findings db' = project_findings db /\
  (forall k, k <> key -> versions_of k (finding_versions db') = versions_of k (finding_versions db)) /\
  map content (finding_versions db) `prefix_of` map content (finding_versions db') /\
  exists v, current_version key db' = Some v /\ fv_id v = vid /\ describes v f.
Proof.
  intros Hok Hr. unfold upsert_version, dateAfterNowAnd in Hr. run_inv.
  destruct (match current_version key db with Some c => _ | None => false end) eqn:Eu; run_inv.
  { split; [lia|]. split; [by apply (findings_ok_mono n); [lia|]|]. repeat split; try done.
    destruct (current_version key db) as [v|] eqn:Ec; [|done]. exists v. split; [done|]. split; [done|].
    right. by apply negb_true_iff. }
  set (at_ := dateAfter (clock n) (fv_effective_from <$> current_version key db)) in *.
  assert (Hfrom : forall v, current_version key db = Some v -> fv_effective_from v < at_).
  { intros v Hv. unfold at_. rewrite Hv. apply dateAfter_gt. }
  assert (Hok1 : findings_ok (S n) db) by (by apply (findings_ok_mono n); [lia|]).
  destruct (current_version key db) as [v|] eqn:Ec; run_inv;
    match goal with H : returns (insert_version _) _ _ _ |- _ =>
      apply insert_version_returns in H as (Hlt & _ & H) end; run_inv;
    cbn [fv_effective_from fv_effective_to] in Hlt.
  - assert (Hvid : uuid (S n) <> fv_id v).
    { apply (ok_fresh _ _ Hok1); [lia|]. rewrite elem_of_used. right. left. apply list_elem_of_fmap_2.
      unfold current_version in Ec. by apply head_Some_elem_of, elem_of_filter_b in Ec as [? _]. }
    epose proof (add_version_post (S n) db key cache f at_ (Some v) ?[rows] Hok1 Ec Hlt Hfrom ?[eq]) as (H1 & H2 & H3 & H4).
    [eq]: { apply supersede_close. exact Hvid. }
    split; [lia|]. auto 10.
  - destruct (add_version_post (S n) db key cache f at_ None _ Hok1 Ec Hlt Hfrom eq_refl) as (H1 & H2 & H3 & H4).
    split; [lia|]. auto 10.
Qed.

(** *** Observation windows *)

Lemma insert_project_finding_returns new n db u s' :
  returns (insert_project_finding new) (n, db) u s' ->
  s' = (n, set_project_findings (fun rows => rows ++ [new]) db).
Proof.
  unfold insert_project_finding. intros Hr. run_inv. run_if E1; [run_inv|]. by run_if E2; run_inv.
Qed.

(** Rows of the same id are one row, so an update by a row's id touches that row. *)
Lemma same_id n db r c :
  findings_ok n db -> r ∈ project_findings db -> c ∈ project_findings db ->
  String.eqb (pf_id r) (pf_id c) = true -> r = c.
Proof.
  intros Hok Hr Hc He%String.eqb_eq. eapply NoDup_map_inj; [apply (ok_project_ids _ _ Hok)|..]; done.
Qed.

Section entity.
Context (projectId packageId : string) (version : option string) (Hversion : present version = version).

Lemma of_entity_spec r :
  of_entity projectId packageId version r = true <->
  pf_project_id r = projectId /\ pf_package_id r = Some packageId /\ pf_package_version_id r = version.
Proof using Hversion.
  unfold of_entity. rewrite Hversion, !andb_true_iff, String.eqb_eq, opt_eq_spec.
  destruct version; [rewrite opt_eq_spec|rewrite bool_decide_eq_true]; naive_solver.
Qed.

Lemma open_of_spec key r :
  open_of projectId packageId version key r = true <->
  of_entity projectId packageId version r = true /\ pf_finding_key r = key /\ is_open r = true.
Proof. unfold open_of. rewrite !andb_true_iff, String.eqb_eq. naive_solver. Qed.
End entity.

(** One open row per entity and key, as a predicate on rows alone. *)
Definition open_unique (rows : list project_finding_row) : Prop :=
  forall projectId packageId version key,
    (length (List.filter (open_of projectId packageId version key) rows) <= 1)%nat.

Lemma set_project_findings_ok n n' db rows :
  findings_ok n db -> (n <= n')%nat -> NoDup (map pf_id rows) -> open_unique rows ->
  (forall r, r ∈ rows -> (exists r0, r0 ∈ project_findings db /\ pf_id r0 = pf_id r /\ pf_finding_key r0 = pf_finding_key r)
     \/ ((n < n')%nat /\ pf_id r = uuid n /\ pf_finding_key r ∈ map fd_key (t_findings db))) ->
  findings_ok n' (set_project_findings (fun _ => rows) db).
Proof.
  intros [Hf Hk He Hv Hh Hp Hr Ho] Hn Hnd Hu Hrows.
  split; cbn [t_findings finding_versions project_findings set_project_findings]; auto.
  - intros m id Hm. rewrite elem_of_used. cbn [t_findings finding_versions project_findings set_project_findings].
    intros [Hid|[Hid|Hid]] Heq.
    + apply (Hf m id); [lia|rewrite elem_of_used; auto|done].
    + apply (Hf m id); [lia|rewrite elem_of_used; auto|done].
    + apply list_elem_of_fmap in Hid as (r & -> & Hin).
      destruct (Hrows r Hin) as [(r0 & Hr0 & Hid & _)|[Hlt [Hid _]]].
      * apply (Hf m (pf_id r0)); [lia| |congruence]. rewrite elem_of_used. right. right. by apply list_elem_of_fmap_2.
      * rewrite Hid in Heq. apply uuid_inj in Heq. lia.
  - intros r Hin. destruct (Hrows r Hin) as [(r0 & Hr0 & _ & <-)|[_ [_ Hid]]]; auto.
Qed.

Lemma filter_length_update {R} (p q : R -> bool) (f : R -> R) l :
  (forall r, p (f r) = p r) -> length (List.filter p (update_where q f l)) = length (List.filter p l).
Proof. intros Hp. rewrite filter_update_where by done. unfold update_where. by rewrite length_map. Qed.

Lemma open_unique_insert projectId packageId version key (rows : list project_finding_row) new :
  open_unique rows -> List.filter (open_of projectId packageId version key) rows = [] ->
  pf_project_id new = projectId -> pf_package_id new = Some packageId -> pf_package_version_id new = version ->
  present version = version -> pf_finding_key new = key -> open_unique (rows ++ [new]).
Proof.
  intros Hu Hnil Hp Hk Hv Hpv Hkey pr pk ve ke. rewrite List.filter_app, length_app.
  specialize (Hu pr pk ve ke). cbn [List.filter]. destruct (open_of pr pk ve ke new) eqn:E; [|cbn; lia].
  assert (Hrows : List.filter (open_of pr pk ve ke) rows = []).
  { rewrite <- Hnil. apply List.filter_ext. intros r. unfold open_of, of_entity in *.
    apply andb_prop in E as [[[[E1 E2]%andb_prop E3]%andb_prop E4]%andb_prop E5].
    apply String.eqb_eq in E1, E4. apply opt_eq_spec in E2. subst pr ke.
    assert (pk = packageId) as -> by congruence.
    rewrite Hp, Hkey, Hpv. destruct (present ve) as [w|].
    - apply opt_eq_spec in E3. by replace version with (Some w) by congruence.
    - apply bool_decide_eq_true in E3. by replace version with (@None string) by congruence. }
  rewrite Hrows. cbn. lia.
Qed.

Record observed (input : UpsertProjectFindingsInput) (packageId : string) (f : ConnectorFinding)
    (key : string) (isnew : bool) (db db' : findings_db) : Prop := {
  ob_identity : identity_row key (in_connectorKey input) f ∈ t_findings db';
  ob_findings : t_findings db' = t_findings db \/
                t_findings db' = t_findings db ++ [identity_row key (in_connectorKey input) f];
  ob_versions k : k <> key -> versions_of k (finding_versions db') = versions_of k (finding_versions db);
  ob_audit : map content (finding_versions db) `prefix_of` map content (finding_versions db');
  ob_others :
    let mine := open_of (in_projectId input) packageId (in_packageVersionId input) key in
    List.filter (fun r => negb (mine r)) (project_findings db')
    = List.filter (fun r => negb (mine r)) (project_findings db);
  ob_open : exists r v,
    List.filter (open_of (in_projectId input) packageId (in_packageVersionId input) key) (project_findings db') = [r] /\
    current_version key db' = Some v /\ pf_current_finding_version_id r = fv_id v /\ describes v f;
  ob_new : isnew = true <->
    List.filter (open_of (in_projectId input) packageId (in_packageVersionId input) key) (project_findings db) = []
}.

Lemma observe_finding_post input packageId f n db key isnew n' db' :
  present (in_packageVersionId input) = in_packageVersionId input ->
  findings_ok n db -> returns (observe_finding input packageId f) (n, db) (key, isnew) (n', db') ->
  findings_ok n' db' /\ observed input packageId f key isnew db db'.
Proof.
  intros Hpv Hok Hr. unfold observe_finding, dateAfterNowAnd in Hr.
  apply returns_bind in Hr as (key1 & [n1 db1] & H1 & Hr).
  apply upsert_finding_post in H1 as (-> & Hok1 & Hv1 & Hp1 & Hid & Hfs); [|done].
  apply returns_bind in Hr as (vid & [n2 db2] & H2 & Hr).
  apply upsert_version_post in H2 as (Hn2 & Hok2 & Hf2 & Hp2 & Ho2 & Haudit & v & Hcv & Hvid & Hd); [|done].
  rewrite Hv1 in Haudit.
  apply returns_bind in Hr as (c & s3 & H3 & Hr). apply returns_gets in H3 as [Hc ->]. cbn [snd] in Hc.
  unfold current_project_finding in Hc. fold (open_of (in_projectId input) packageId (in_packageVersionId input) key1) in Hc.
  rewrite Hp2, Hp1 in Hc.
  assert (Hver : forall d, finding_versions d = finding_versions db2 -> current_version key1 d = Some v).
  { intros d Hd'. unfold current_version. rewrite Hd'. exact Hcv. }
  destruct c as [c|].
  - run_inv. symmetry in Hc.
    assert (Hin : c ∈ project_findings db /\ open_of (in_projectId input) packageId (in_packageVersionId input) key1 c = true).
    { by apply head_Some_elem_of, elem_of_filter_b in Hc. }
    destruct Hin as [Hin Hopen]. rewrite Hp1 in *.
    assert (Hsame : forall r, r ∈ project_findings db2 -> String.eqb (pf_id r) (pf_id c) = true -> r = c).
    { intros r Hr0 He. eapply same_id; [exact Hok2|exact Hr0| |exact He]. by rewrite Hp2. }
    unfold touch_project_finding.
    match goal with |- context [fun rows => update_where ?q ?g rows] =>
      set (q0 := q); set (g0 := g);
      change (set_project_findings (fun rows => update_where q0 g0 rows) db2)
        with (set_project_findings (fun _ => update_where q0 g0 (project_findings db2)) db2) end.
    assert (Hg : forall pr pk ve ke r, open_of pr pk ve ke (g0 r) = open_of pr pk ve ke r) by done.
    split.
    + apply (set_project_findings_ok n2); [done|lia|..].
      * rewrite update_where_map by done. apply (ok_project_ids _ _ Hok2).
      * intros pr pk ve ke. rewrite filter_length_update by auto. apply (ok_open _ _ Hok2).
      * intros r (r0 & Hr0 & ->)%elem_of_update_where. left. exists r0. by destruct (q0 r0).
    + split; cbn [t_findings finding_versions project_findings set_project_findings].
      * by rewrite Hf2.
      * by rewrite Hf2.
      * intros k Hk. by rewrite Ho2, Hv1.
      * exact Haudit.
      * rewrite update_where_filter_other; [by rewrite Hp2|]. intros r Hr0 He.
        rewrite (Hsame r Hr0 He), Hg, Hopen. done.
      * exists (g0 c), v. split; [|split; [by apply Hver|split; [reflexivity|done]]].
        rewrite filter_update_where by auto. rewrite Hp2.
        assert (Hl := ok_open _ _ Hok (in_projectId input) packageId (in_packageVersionId input) key1).
        destruct (List.filter (open_of _ _ _ key1) (project_findings db)) as [|c' [|]] eqn:El; cbn in Hc, Hl; [done| |lia].
        injection Hc as ->. unfold update_where, q0. cbn. by rewrite String.eqb_refl.
      * split; [done|]. intros Hnil. by rewrite Hnil in Hc.
  - run_inv. match goal with H : returns (insert_project_finding _) _ _ _ |- _ =>
      apply insert_project_finding_returns in H end. run_inv. rewrite Hp1 in *.
    symmetry in Hc. assert (Hnil : List.filter (open_of (in_projectId input) packageId (in_packageVersionId input) key1)
      (project_findings db) = []) by (by destruct (List.filter _ (project_findings db))).
    match goal with |- context [fun rows => rows ++ [?x]] =>
      set (new := x);
      change (set_project_findings (fun rows => rows ++ [new]) db2)
        with (set_project_findings (fun _ => project_findings db2 ++ [new]) db2) end.
    assert (Hopen : open_of (in_projectId input) packageId (in_packageVersionId input) key1 new = true).
    { apply open_of_spec. rewrite (of_entity_spec _ _ _ Hpv). done. }
    split.
    + apply (set_project_findings_ok (S n2)); [by apply (findings_ok_mono n2); [lia|]|lia|..].
      * rewrite map_app. apply NoDup_app. split; [apply (ok_project_ids _ _ Hok2)|]. split; [|apply NoDup_singleton].
        intros x Hx ->%list_elem_of_singleton. apply (ok_fresh _ _ Hok2 (S n2) (pf_id new)); [lia| |done].
        rewrite elem_of_used. by auto.
      * apply (open_unique_insert (in_projectId input) packageId (in_packageVersionId input) key1); try done.
        { exact (ok_open _ _ Hok2). }
        by rewrite Hp2.
      * intros r [Hr0| ->%list_elem_of_singleton]%elem_of_app; [left; by exists r|right].
        split; [lia|]. split; [done|]. rewrite Hf2. by apply (list_elem_of_fmap_2 fd_key) in Hid.
    + split; cbn [t_findings finding_versions project_findings set_project_findings].
      * by rewrite Hf2.
      * by rewrite Hf2.
      * intros k Hk. by rewrite Ho2, Hv1.
      * exact Haudit.
      * rewrite List.filter_app. cbn [List.filter]. rewrite Hopen, app_nil_r. by rewrite Hp2.
      * exists new, v. split; [|split; [by apply Hver|done]].
        rewrite List.filter_app. cbn [List.filter]. by rewrite Hopen, Hp2, Hnil.
      * done.
Qed.

(** *** The loop over the findings *)

Lemma filter_within {R} (p q : R -> bool) l :
  (forall r, p r = true -> q r = true) -> List.filter p (List.filter q l) = List.filter p l.
Proof.
  intros Hpq. induction l as [|r l IH]; [done|]. cbn. destruct (q r) eqn:Eq; cbn; rewrite IH; [done|].
  destruct (p r) eqn:Ep; [|done]. rewrite Hpq in Eq; done.
Qed.

(** Lists that agree on a predicate agree on a narrower one. *)
Lemma filter_agree {R} (p q : R -> bool) l l' :
  (forall r, p r = true -> q r = true) -> List.filter q l = List.filter q l' -> List.filter p l = List.filter p l'.
Proof. intros Hpq He. by rewrite <- (filter_within p q l), <- (filter_within p q l'), He. Qed.

Lemma current_version_agree key db db' :
  versions_of key (finding_versions db) = versions_of key (finding_versions db') ->
  current_version key db = current_version key db'.
Proof.
  intros He. unfold current_version. f_equal. eapply filter_agree; [|exact He].
  intros r [? _]%andb_prop. done.
Qed.

Section loop.
Context (input : UpsertProjectFindingsInput) (packageId : string).
Let entity_open := open_of (in_projectId input) packageId (in_packageVersionId input).

Definition touched (keys : list string) (r : project_finding_row) : bool :=
  of_entity (in_projectId input) packageId (in_packageVersionId input) r
  && existsb (String.eqb (pf_finding_key r)) keys && is_open r.

Record observed_all (fs : list ConnectorFinding) (ys : list (string * bool)) (db db' : findings_db) : Prop := {
  oa_identity : Forall2 (fun f y => identity_row y.1 (in_connectorKey input) f ∈ t_findings db') fs ys;
  oa_findings r : r ∈ t_findings db -> r ∈ t_findings db';
  oa_versions k : k ∉ ys.*1 -> versions_of k (finding_versions db') = versions_of k (finding_versions db);
  oa_audit : map content (finding_versions db) `prefix_of` map content (finding_versions db');
  oa_others : List.filter (fun r => negb (touched ys.*1 r)) (project_findings db')
              = List.filter (fun r => negb (touched ys.*1 r)) (project_findings db);
  oa_open k : k ∈ ys.*1 -> exists r v, List.filter (entity_open k) (project_findings db') = [r] /\
    current_version k db' = Some v /\ pf_current_finding_version_id r = fv_id v;
  oa_describes : NoDup ys.*1 ->
    Forall2 (fun f y => exists v, current_version y.1 db' = Some v /\ describes v f) fs ys;
  oa_new : NoDup (List.filter snd ys).*1 /\
    forall k, k ∈ (List.filter snd ys).*1 <-> k ∈ ys.*1 /\ List.filter (entity_open k) (project_findings db) = []
}.

Lemma observed_all_nil db : observed_all [] [] db db.
Proof.
  split; try done; cbn.
  - intros k Hk. by apply not_elem_of_nil in Hk.
  - split; [apply NoDup_nil_2|]. intros k. rewrite !elem_of_nil. tauto.
Qed.

Lemma entity_open_touched k keys r : entity_open k r = true -> touched keys r = existsb (String.eqb k) keys.
Proof.
  unfold entity_open. rewrite open_of_spec. intros (He & <- & Ho). unfold touched. by rewrite He, Ho, andb_true_r.
Qed.

(** The open rows of a key no step touched. *)
Lemma entity_open_agree k keys rows rows' :
  k ∉ keys ->
  List.filter (fun r => negb (touched keys r)) rows' = List.filter (fun r => negb (touched keys r)) rows ->
  List.filter (entity_open k) rows' = List.filter (entity_open k) rows.
Proof.
  intros Hk. apply filter_agree. intros r Hr. rewrite (entity_open_touched k keys r Hr). apply negb_true_iff.
  apply not_true_is_false. by rewrite existsb_eqb.
Qed.

Lemma touched_cons_negb key keys r :
  negb (touched (keys ++ [key]) r) = negb (touched keys r) && negb (entity_open key r).
Proof.
  unfold touched, entity_open, open_of. rewrite existsb_app. cbn [existsb]. rewrite orb_false_r.
  destruct (of_entity _ _ _ r), (existsb _ keys), (String.eqb _ key), (is_open r); done.
Qed.

Lemma filter_andb {R} (p q : R -> bool) l :
  List.filter (fun r => p r && q r) l = List.filter p (List.filter q l).
Proof. induction l as [|r l IH]; [done|]. cbn. destruct (q r), (p r) eqn:E; cbn; rewrite ?E, IH; done. Qed.

Lemma observed_all_step fs ys f key isnew db db1 db2 :
  observed_all fs ys db db1 -> observed input packageId f key isnew db1 db2 ->
  observed_all (fs ++ [f]) (ys ++ [(key, isnew)]) db db2.
Proof.
  intros [A1 A2 A3 A3' A4 A5 A6 [A7 A7']] [B1 B2 B3 B3' B4 B5 B6]. fold (entity_open key) in B4, B5, B6.
  assert (Hsub : forall r, r ∈ t_findings db1 -> r ∈ t_findings db2).
  { intros r Hr. destruct B2 as [->| ->]; [done|]. apply elem_of_app. by left. }
  assert (Hkeep : forall k, k <> key -> current_version k db2 = current_version k db1 /\
    List.filter (entity_open k) (project_findings db2) = List.filter (entity_open k) (project_findings db1)).
  { intros k Hk. split; [by apply current_version_agree, B3|]. eapply filter_agree; [|exact B4].
    intros r Hr. apply negb_true_iff. unfold entity_open in *. rewrite open_of_spec in Hr.
    apply not_true_is_false. rewrite open_of_spec. naive_solver. }
  destruct B5 as (r & v & Hr & Hv & Hl & Hd).
  split; rewrite ?fmap_app; cbn [fmap list_fmap fst].
  - apply Forall2_app; [|by repeat constructor]. eapply Forall2_impl; [exact A1|]. auto.
  - auto.
  - intros k Hk. rewrite elem_of_app, list_elem_of_singleton in Hk. rewrite B3 by tauto. apply A3. tauto.
  - by etrans.
  - rewrite !(List.filter_ext _ _ (touched_cons_negb key ys.*1)), !filter_andb, B4.
    assert (Hswap : forall l, List.filter (fun r => negb (touched ys.*1 r)) (List.filter (fun r => negb (entity_open key r)) l)
      = List.filter (fun r => negb (entity_open key r)) (List.filter (fun r => negb (touched ys.*1 r)) l)).
    { intros l. rewrite <- !filter_andb. apply List.filter_ext. intros x. apply andb_comm. }
    by rewrite !Hswap, A4.
  - intros k Hk. destruct (decide (k = key)) as [->|Hne]; [by exists r, v|].
    rewrite elem_of_app, list_elem_of_singleton in Hk. destruct (A5 k) as (r' & v' & H1 & H2 & H3); [tauto|].
    destruct (Hkeep k Hne) as [-> ->]. by exists r', v'.
  - rewrite NoDup_app. intros (Hn & Hd' & _). apply Forall2_app.
    + assert (Hkeys : Forall (fun y => y.1 <> key) ys).
      { apply Forall_forall. intros y Hy Heq. apply (Hd' y.1); [by apply list_elem_of_fmap_2|].
        rewrite Heq. apply list_elem_of_here. }
      specialize (A6 Hn). clear -A6 Hkeys Hkeep. induction A6 as [|g y gs zs (w & Hw & Hdw) _ IH]; constructor.
      * inversion Hkeys; subst. exists w. destruct (Hkeep y.1) as [-> _]; [done|]. done.
      * inversion Hkeys; subst. auto.
    + repeat constructor. by exists v.
  - rewrite List.filter_app, fmap_app. cbn [List.filter snd].
    assert (Hnew : isnew = true <-> (key ∉ ys.*1) /\ List.filter (entity_open key) (project_findings db) = []).
    { rewrite B6. split.
      - intros Hnil. assert (Hk : key ∉ ys.*1).
        { intros Hk. destruct (A5 key Hk) as (r' & _ & Hr' & _). by rewrite Hnil in Hr'. }
        split; [done|]. by rewrite <- Hnil, (entity_open_agree key ys.*1 _ _ Hk A4).
      - intros [Hk <-]. by apply entity_open_agree with ys.*1. }
    destruct isnew; cbn [fmap list_fmap fst].
    + destruct Hnew as [Hnew _]. destruct (Hnew eq_refl) as [Hk Hnil]. split.
      * apply NoDup_app. split; [done|]. split; [|apply NoDup_singleton].
        intros k Hk' ->%list_elem_of_singleton. apply A7' in Hk' as [? _]. done.
      * intros k. rewrite !elem_of_app, list_elem_of_singleton, A7'. naive_solver.
    + rewrite app_nil_r. split; [done|]. intros k. rewrite A7', elem_of_app, list_elem_of_singleton.
      split; [naive_solver|]. intros [[Hk| ->] Hnil]; [done|]. split; [|done].
      destruct (decide (key ∈ ys.*1)); [done|]. exfalso.
      assert (false = true) by (apply Hnew; done). done.
Qed.

Lemma observe_all_post n db ys n' db' :
  present (in_packageVersionId input) = in_packageVersionId input ->
  findings_ok n db -> returns (mapM_ (observe_finding input packageId) (in_findings input)) (n, db) ys (n', db') ->
  findings_ok n' db' /\ observed_all (in_findings input) ys db db'.
Proof using uuid_inj.
  intros Hpv Hok Hr.
  apply (returns_mapM _ (fun fs ys s => findings_ok s.1 s.2 /\ observed_all fs ys db s.2) _ _ _ _ Hr).
  - intros fs zs f [key isnew] [n1 db1] [n2 db2] [Hok1 Hall] Hf.
    apply observe_finding_post in Hf as [Hok2 Hob]; [|done..]. split; [done|]. by eapply observed_all_step.
  - split; [done|]. apply observed_all_nil.
Qed.
End loop.

(** *** Progress

    With the clock and the stored times below a bound that leaves room before the
    end of time, and the clock past the closed windows, no constraint is broken. *)

Record times_ok (b : Z) (n : nat) (db : findings_db) : Prop := {
  to_clock m : clock m <= b;
  to_versions v : v ∈ finding_versions db -> fv_effective_from v <= b;
  to_windows r : r ∈ project_findings db -> pf_observed_from r <= b;
  to_closed r m : (n <= m)%nat -> r ∈ project_findings db -> is_open r = false -> pf_observed_from r < clock m
}.

Lemma insert_version_succeeds new n db :
  fv_effective_from new < fv_effective_to new -> existsb (version_conflict new) (finding_versions db) = false ->
  returns (insert_version new) (n, db) tt (n, set_versions (fun rows => rows ++ [new]) db).
Proof.
  intros Hlt He. unfold insert_version, returns, mbind, eff_bind, gets. cbn [snd].
  rewrite (proj2 (Z.ltb_lt _ _) Hlt), He. reflexivity.
Qed.

Lemma no_version_conflict n db key c at_ new :
  findings_ok n db -> current_version key db = c -> at_ < VALID_TO_INFINITY ->
  fv_finding_key new = key -> fv_version new = from_option fv_version 0 c + 1 ->
  existsb (version_conflict new)
    (match c with Some v => close_version (fv_id v) at_ (finding_versions db) | None => finding_versions db end) = false.
Proof.
  intros Hok Hc Hat Hk Hv. apply not_true_is_false. rewrite existsb_elem_of. intros (r & Hr & Hconf).
  unfold version_conflict in Hconf. apply andb_prop in Hconf as [Hkey Hconf]. apply String.eqb_eq in Hkey. rewrite Hk in Hkey.
  destruct (current_version_last key db (ok_histories _ _ Hok)) as [[Hnil Hn]|(l & v & Hl & Hn)]; rewrite Hn in Hc; subst c.
  - assert (Hin : r ∈ versions_of key (finding_versions db)).
    { apply elem_of_filter_b. by rewrite Hkey, String.eqb_refl. }
    rewrite Hnil in Hin. by apply not_elem_of_nil in Hin.
  - apply elem_of_update_where in Hr as (r0 & Hr0 & Hr). cbn [from_option] in Hv.
    assert (Hsame : fv_version r = fv_version r0 /\ fv_finding_key r0 = key).
    { destruct (String.eqb (fv_id r0) (fv_id v)); rewrite Hr in *; done. }
    destruct Hsame as [Hver Hkey0].
    assert (Hin : r0 ∈ l ++ [v]).
    { rewrite <- Hl. apply elem_of_filter_b. by rewrite Hkey0, String.eqb_refl. }
    assert (Hch := ok_histories _ _ Hok key). rewrite Hl in Hch.
    assert (Hle := chain_versions _ _ _ _ Hch Hin).
    apply orb_prop in Hconf as [Heq|[Hopen _]%andb_prop]; [apply Z.eqb_eq in Heq; lia|].
    apply Z.eqb_eq in Hopen. destruct (String.eqb_spec (fv_id r0) (fv_id v)) as [He|Hne].
    + rewrite Hr in Hopen. cbn in Hopen. lia.
    + assert (Hcur : r0 ∈ List.filter is_current (l ++ [v])).
      { apply elem_of_filter_b. split; [done|]. unfold is_current. rewrite <- Hr. by apply Z.eqb_eq. }
      rewrite (chain_current 1) in Hcur by done. apply list_elem_of_singleton in Hcur. congruence.
Qed.

Lemma dateAfter_le b now value :
  now <= b -> (forall v, value = Some v -> v <= b) -> now <= dateAfter now value <= b + 1.
Proof.
  intros Hn Hv. destruct value as [v|]; cbn; [|lia]. specialize (Hv v eq_refl). destruct (Z.ltb_spec v now); lia.
Qed.

Lemma upsert_version_progress b cache key f n db :
  findings_ok n db -> times_ok b n db -> b + 1 < VALID_TO_INFINITY ->
  exists vid n' db', returns (upsert_version cache key f) (n, db) vid (n', db') /\
    forall v, v ∈ finding_versions db' -> fv_effective_from v <= b + 1.
Proof.
  intros Hok Ht Hb. unfold upsert_version, dateAfterNowAnd.
  set (at_ := dateAfter (clock n) (fv_effective_from <$> current_version key db)).
  assert (Hat : clock n <= at_ <= b + 1).
  { apply dateAfter_le; [apply (to_clock _ _ _ Ht)|]. intros x Hx.
    destruct (current_version key db) as [v|] eqn:Ec; [|done]. injection Hx as <-.
    apply (to_versions _ _ _ Ht). unfold current_version in Ec.
    by apply head_Some_elem_of, elem_of_filter_b in Ec as [? _]. }
  assert (Hold : forall v, v ∈ finding_versions db -> fv_effective_from v <= b + 1).
  { intros v Hv. apply (to_versions _ _ _ Ht) in Hv. lia. }
  unfold returns, mbind, eff_bind, gets, now_, fresh, mret, eff_ret. cbn [fst snd]. fold at_.
  destruct (match current_version key db with Some c => _ | None => false end).
  { eexists _, _, _. split; [reflexivity|done]. }
  destruct (current_version key db) as [c|] eqn:Ec; unfold modify; cbn [fst snd].
  - match goal with |- context [insert_version ?x] => set (new := x) end.
    rewrite (insert_version_succeeds new).
    2:{ unfold new. cbn [fv_effective_from fv_effective_to]. lia. }
    2:{ apply (no_version_conflict n db key (Some c) at_ new Hok Ec); [lia|done..]. }
    eexists _, _, _. split; [reflexivity|]. cbn [finding_versions set_versions].
    intros v (r & Hr & ->)%elem_of_update_where.
    assert (Hrb : fv_effective_from r <= b + 1).
    { apply elem_of_app in Hr as [(r0 & Hr0 & ->)%elem_of_update_where| ->%list_elem_of_singleton]; [|unfold new; cbn [fv_effective_from]; lia].
      destruct (String.eqb (fv_id r0) (fv_id c)); exact (Hold _ Hr0). }
    by destruct (String.eqb (fv_id r) (fv_id c)).
  - match goal with |- context [insert_version ?x] => set (new := x) end.
    rewrite (insert_version_succeeds new).
    2:{ unfold new. cbn [fv_effective_from fv_effective_to]. lia. }
    2:{ apply (no_version_conflict n db key None at_ new Hok Ec); [lia|done..]. }
    eexists _, _, _. split; [reflexivity|]. cbn [finding_versions set_versions].
    intros v [Hv| ->%list_elem_of_singleton]%elem_of_app; [by apply Hold|unfold new; cbn [fv_effective_from]; lia].
Qed.

Lemma times_ok_weaken b b' n n' db db' :
  times_ok b n db -> b <= b' -> (n <= n')%nat ->
  (forall v, v ∈ finding_versions db' -> fv_effective_from v <= b') ->
  (forall r, r ∈ project_findings db' -> (exists r0, r0 ∈ project_findings db /\
     pf_observed_from r0 = pf_observed_from r /\ (is_open r = false -> is_open r0 = false)) \/
     (pf_observed_from r <= b' /\ is_open r = true)) ->
  times_ok b' n' db'.
Proof.
  intros [Hc Hv Hw Hcl] Hb Hn Hv' Hp. split; auto.
  - intros m. specialize (Hc m). lia.
  - intros r Hr. destruct (Hp r Hr) as [(r0 & Hr0 & <- & _)|[? _]]; [|done]. apply Hw in Hr0. lia.
  - intros r m Hm Hr Hclosed. destruct (Hp r Hr) as [(r0 & Hr0 & <- & Ho)|[_ Ho]]; [|congruence].
    apply (Hcl r0); [lia|done|auto].
Qed.

Lemma insert_project_finding_succeeds new n db :
  pf_observed_from new < pf_observed_to new ->
  existsb (project_finding_conflict new) (project_findings db) = false ->
  returns (insert_project_finding new) (n, db) tt (n, set_project_findings (fun rows => rows ++ [new]) db).
Proof.
  intros Hlt He. unfold insert_project_finding, returns, mbind, eff_bind, gets. cbn [snd].
  rewrite (proj2 (Z.ltb_lt _ _) Hlt), He. reflexivity.
Qed.

(** A window that is opened at a reading of the clock meets no other. *)
Lemma no_window_conflict b n db projectId packageId version key new :
  times_ok b n db -> present version = version ->
  List.filter (open_of projectId packageId version key) (project_findings db) = [] ->
  pf_project_id new = projectId -> pf_package_id new = Some packageId -> pf_package_version_id new = version ->
  pf_finding_key new = key -> (exists m, (n <= m)%nat /\ pf_observed_from new = clock m) ->
  existsb (project_finding_conflict new) (project_findings db) = false.
Proof.
  intros Ht Hpv Hnil Hp Hk Hv Hkey (m & Hm & Hfrom). apply not_true_is_false. rewrite existsb_elem_of.
  intros (r & Hr & Hc). unfold project_finding_conflict in Hc.
  apply andb_prop in Hc as [[[[H1 [_ H2]%andb_prop]%andb_prop [_ H3]%andb_prop]%andb_prop H4]%andb_prop H5].
  apply String.eqb_eq in H1, H4. apply bool_decide_eq_true in H2, H3.
  destruct (is_open r) eqn:Eo.
  - assert (Hin : r ∈ List.filter (open_of projectId packageId version key) (project_findings db)).
    { apply elem_of_filter_b. split; [done|]. apply open_of_spec. rewrite of_entity_spec by done.
      split; [|split; congruence]. split; [congruence|split; congruence]. }
    rewrite Hnil in Hin. by apply not_elem_of_nil in Hin.
  - assert (Hlt := to_closed _ _ _ Ht r m Hm Hr Eo). apply orb_prop in H5 as [H5|[H5 _]%andb_prop].
    + apply Z.eqb_eq in H5. lia.
    + unfold is_open in Eo. congruence.
Qed.

Lemma observe_finding_progress b input packageId f n db :
  present (in_packageVersionId input) = in_packageVersionId input ->
  findings_ok n db -> times_ok b n db -> b + 1 < VALID_TO_INFINITY ->
  exists y n' db', returns (observe_finding input packageId f) (n, db) y (n', db') /\
    (n <= n')%nat /\ times_ok (b + 1) n' db'.
Proof.
  intros Hpv Hok Ht Hb.
  assert (H1 : exists key db1, returns (upsert_finding (in_connectorKey input) f) (n, db) key (S n, db1)).
  { eexists _, _. unfold upsert_finding. run_forward. }
  destruct H1 as (key & db1 & H1). assert (H1' := H1).
  apply upsert_finding_post in H1' as (_ & Hok1 & Hv1 & Hp1 & _ & _); [|done].
  assert (Ht1 : times_ok b (S n) db1).
  { apply (times_ok_weaken b b n (S n) db); [done|lia|lia|rewrite Hv1; apply (to_versions _ _ _ Ht)|].
    rewrite Hp1. intros r Hr. left. by exists r. }
  destruct (upsert_version_progress b (in_connectorCacheId input) key f (S n) db1 Hok1 Ht1 Hb) as (vid & n2 & db2 & H2 & Hvb).
  assert (H2' := H2). apply upsert_version_post in H2' as (Hn2 & Hok2 & _ & Hp2 & _); [|done].
  set (c := current_project_finding (in_projectId input) packageId (in_packageVersionId input) key db2).
  set (at_ := dateAfter (clock n2) (pf_observed_from <$> c)).
  assert (Hcin : forall x, c = Some x -> x ∈ project_findings db).
  { intros x Hx. rewrite <- Hp1, <- Hp2. unfold c, current_project_finding in Hx.
    by apply head_Some_elem_of, elem_of_filter_b in Hx as [? _]. }
  assert (Hold : forall r, r ∈ project_findings db2 -> (exists r0, r0 ∈ project_findings db /\
     pf_observed_from r0 = pf_observed_from r /\ (is_open r = false -> is_open r0 = false))).
  { rewrite Hp2, Hp1. intros r Hr. by exists r. }
  destruct c as [x|] eqn:Ec.
  - eexists _, _, _. split.
    { unfold observe_finding. apply returns_bind. exists key, (S n, db1). split; [exact H1|].
      apply returns_bind. exists vid, (n2, db2). split; [exact H2|].
      apply returns_bind. exists (Some x), (n2, db2). split; [by apply returns_gets|].
      unfold dateAfterNowAnd. run_forward. }
    split; [lia|]. apply (times_ok_weaken b (b + 1) n _ db); [done|lia|lia|exact Hvb|].
    cbn [project_findings set_project_findings]. intros r (r0 & Hr0 & ->)%elem_of_update_where. left.
    destruct (Hold r0 Hr0) as (r1 & Hr1 & Hf & Ho). exists r1. by destruct (String.eqb (pf_id r0) (pf_id x)).
  - assert (Hnil : List.filter (open_of (in_projectId input) packageId (in_packageVersionId input) key) (project_findings db2) = []).
    { unfold c, current_project_finding in Ec. fold (open_of (in_projectId input) packageId (in_packageVersionId input) key) in Ec.
      by destruct (List.filter _ _). }
    assert (Ht2 : times_ok (b + 1) n2 db2).
    { apply (times_ok_weaken b (b + 1) n n2 db); [done|lia|lia|exact Hvb|]. intros r Hr. left. auto. }
    assert (Hclk := to_clock _ _ _ Ht n2).
    eexists _, _, _. split.
    { unfold observe_finding. apply returns_bind. exists key, (S n, db1). split; [exact H1|].
      apply returns_bind. exists vid, (n2, db2). split; [exact H2|].
      apply returns_bind. exists None, (n2, db2). split; [by apply returns_gets|].
      apply returns_bind. exists at_, (S n2, db2). split; [unfold dateAfterNowAnd; run_forward|].
      apply returns_bind. exists (uuid (S n2)), (S (S n2), db2). split; [reflexivity|].
      apply returns_bind. eexists tt, _. split; [|reflexivity]. apply insert_project_finding_succeeds.
      - unfold at_. cbn [fmap option_fmap option_map dateAfter pf_observed_from pf_observed_to]. lia.
      - eapply (no_window_conflict (b + 1) n2 db2 _ _ _ key); try done. exists n2. split; [lia|done]. }
    split; [lia|]. apply (times_ok_weaken (b + 1) (b + 1) n2 _ db2); [done|lia|lia|exact Hvb|].
    cbn [project_findings set_project_findings]. intros r [Hr| ->%list_elem_of_singleton]%elem_of_app.
    + left. by exists r.
    + right. split; [|done]. unfold at_. cbn [fmap option_fmap option_map dateAfter pf_observed_from]. lia.
Qed.

Lemma observe_all_progress b input packageId n db :
  present (in_packageVersionId input) = in_packageVersionId input ->
  findings_ok n db -> times_ok b n db -> b + Z.of_nat (length (in_findings input)) < VALID_TO_INFINITY ->
  exists ys n' db', returns (mapM_ (observe_finding input packageId) (in_findings input)) (n, db) ys (n', db') /\
    (n <= n')%nat /\ times_ok (b + Z.of_nat (length (in_findings input))) n' db'.
Proof.
  intros Hpv Hok Ht Hb.
  destruct (mapM_returns (observe_finding input packageId)
    (fun dn s => findings_ok s.1 s.2 /\ (n <= s.1)%nat /\ times_ok (b + Z.of_nat (length dn)) s.1 s.2)
    (in_findings input) (n, db)) as (ys & [n' db'] & Hr & _ & Hn & Ht'); [| |by eauto 10].
  - intros dn f todo [n1 db1] Hl (Hok1 & Hn1 & Ht1). cbn [fst snd] in *.
    assert (Hlen : (length dn + 1 <= length (in_findings input))%nat) by (rewrite Hl, length_app; cbn; lia).
    destruct (observe_finding_progress (b + Z.of_nat (length dn)) input packageId f n1 db1 Hpv Hok1 Ht1)
      as ([key isnew] & n2 & db2 & Hr & Hn2 & Ht2); [lia|].
    exists (key, isnew), (n2, db2). split; [exact Hr|]. cbn [fst snd].
    split; [by eapply observe_finding_post in Hr as [? _]|]. split; [lia|].
    rewrite length_app. cbn [length]. by replace (b + Z.of_nat (length dn + 1)) with (b + Z.of_nat (length dn) + 1) by lia.
  - cbn. split; [done|]. split; [lia|]. by rewrite Z.add_0_r.
Qed.

(** *** Closing what was not observed *)

Definition close_row (at_ : timestamp) (r : project_finding_row) : project_finding_row :=
  {| pf_id := pf_id r; pf_tenant_id := pf_tenant_id r; pf_project_id := pf_project_id r;
     pf_package_id := pf_package_id r; pf_package_version_id := pf_package_version_id r;
     pf_finding_key := pf_finding_key r; pf_current_finding_version_id := pf_current_finding_version_id r;
     pf_observed_from := pf_observed_from r; pf_observed_to := at_; pf_last_seen_at := pf_last_seen_at r |}.

(** [rows'] are [rows] with those satisfying [dead] closed. *)
Definition closed_where (dead : project_finding_row -> bool) : list project_finding_row -> list project_finding_row -> Prop :=
  Forall2 (fun r r' => if dead r then exists t, t < VALID_TO_INFINITY /\ r' = close_row t r else r' = r).

Definition unobserved_id (keys : list string) (l : list project_finding_row) (r : project_finding_row) : bool :=
  existsb (fun x => String.eqb (pf_id r) (pf_id x) && negb (existsb (String.eqb (pf_finding_key x)) keys)) l.

Lemma close_all_run b keys l n db :
  times_ok b n db -> b + 1 < VALID_TO_INFINITY -> (forall r, r ∈ l -> r ∈ project_findings db) ->
  exists us n' rows, returns (mapM_ (close_unobserved keys) l) (n, db) us (n', set_project_findings (fun _ => rows) db) /\
    (n <= n')%nat /\ closed_where (unobserved_id keys l) (project_findings db) rows.
Proof.
  intros Ht Hb Hl.
  destruct (mapM_returns (close_unobserved keys)
    (fun dn s => (n <= s.1)%nat /\ exists rows, s.2 = set_project_findings (fun _ => rows) db /\
       closed_where (unobserved_id keys dn) (project_findings db) rows) l (n, db))
    as (us & [n' db'] & Hr & Hn & rows & Hdb & Hrows); [| |by cbn in Hdb; subst db'; eauto 10].
  - intros dn x todo [n1 db1] Hsplit (Hn1 & rows & Hdb & Hrows). cbn [fst snd] in *. subst db1.
    assert (Hx : x ∈ project_findings db) by (apply Hl; rewrite Hsplit; set_solver).
    unfold close_unobserved. destruct (existsb (String.eqb (pf_finding_key x)) keys) eqn:Ek.
    + eexists _, _. split; [run_forward|]. cbn [fst snd]. split; [done|]. exists rows. split; [done|].
      eapply Forall2_impl; [exact Hrows|]. intros r r'. unfold unobserved_id. rewrite existsb_app. cbn.
      by rewrite Ek, andb_false_r, !orb_false_r.
    + eexists _, _. split; [unfold dateAfterNowAnd; run_forward|]. cbn [fst snd]. split; [lia|].
      eexists. split; [reflexivity|]. cbn [project_findings set_project_findings].
      set (at_ := dateAfter (clock n1) (Some (pf_observed_from x))).
      assert (Hat : at_ < VALID_TO_INFINITY).
      { assert (H1 := to_clock _ _ _ Ht n1). assert (H2 := to_windows _ _ _ Ht x Hx).
        assert (H3 : clock n1 <= at_ <= b + 1) by (apply dateAfter_le; [done|]; by intros ? [= <-]). lia. }
      unfold closed_where in *. clear -Hrows Hat Ek. unfold close_project_finding, update_where.
      induction Hrows as [|r r' rs rs' Hrr _ IH]; constructor; [|exact IH].
      unfold unobserved_id in *. rewrite existsb_app. cbn. rewrite Ek, andb_true_r, orb_false_r.
      set (d := existsb _ dn) in *. clearbody d.
      assert (Hid : pf_id r' = pf_id r) by (destruct d; [destruct Hrr as (t & _ & ->)|rewrite Hrr]; done).
      rewrite Hid. destruct (String.eqb (pf_id r) (pf_id x)).
      * rewrite orb_true_r. exists at_. split; [done|]. destruct d; [destruct Hrr as (t & _ & ->)|subst r']; done.
      * by rewrite orb_false_r.
  - cbn. split; [lia|]. exists (project_findings db). split; [by destruct db|].
    unfold closed_where. clear. induction (project_findings db); constructor; done.
Qed.

Lemma closed_where_ext dead dead' rows rows' :
  (forall r, r ∈ rows -> dead r = dead' r) -> closed_where dead rows rows' -> closed_where dead' rows rows'.
Proof.
  intros Hd Hc. induction Hc as [|r r' rs rs' Hrr _ IH]; constructor.
  - by rewrite <- Hd by apply list_elem_of_here.
  - apply IH. intros x Hx. apply Hd. by apply list_elem_of_further.
Qed.

Lemma closed_where_in dead rows rows' r' :
  closed_where dead rows rows' -> r' ∈ rows' ->
  exists r, r ∈ rows /\ if dead r then exists t, t < VALID_TO_INFINITY /\ r' = close_row t r else r' = r.
Proof.
  intros Hc. induction Hc as [|r s rs rs' Hrr _ IH]; intros Hr'; [by apply not_elem_of_nil in Hr'|].
  apply elem_of_cons in Hr' as [->|Hr']; [exists r; split; [apply list_elem_of_here|done]|].
  destruct (IH Hr') as (x & Hx & Hxx). exists x. split; [by apply list_elem_of_further|done].
Qed.

Lemma closed_where_keeps dead rows rows' r :
  closed_where dead rows rows' -> r ∈ rows -> dead r = false -> r ∈ rows'.
Proof.
  intros Hc. induction Hc as [|x s rs rs' Hrr _ IH]; intros Hr Hd; [by apply not_elem_of_nil in Hr|].
  apply elem_of_cons in Hr as [->|Hr]; [rewrite Hd in Hrr; subst; apply list_elem_of_here|].
  apply list_elem_of_further. auto.
Qed.

Lemma closed_where_ids dead rows rows' : closed_where dead rows rows' -> map pf_id rows' = map pf_id rows.
Proof.
  intros Hc. induction Hc as [|r s rs rs' Hrr _ IH]; [done|]. cbn. rewrite IH.
  destruct (dead r); [destruct Hrr as (t & _ & ->)|subst s]; done.
Qed.

Lemma closed_where_open dead rows rows' projectId packageId version key :
  closed_where dead rows rows' ->
  List.filter (open_of projectId packageId version key) rows'
  = List.filter (fun r => open_of projectId packageId version key r && negb (dead r)) rows.
Proof.
  intros Hc. induction Hc as [|r s rs rs' Hrr _ IH]; [done|]. cbn [List.filter]. rewrite IH.
  destruct (dead r); [destruct Hrr as (t & Ht & ->)|subst s].
  - rewrite andb_false_r. unfold open_of, is_open. cbn. rewrite (proj2 (Z.eqb_neq _ _)) by lia. by rewrite andb_false_r.
  - by rewrite andb_true_r.
Qed.

(** *** The whole transaction *)

Section sync.
Context (input : UpsertProjectFindingsInput) (packageId : string)
  (Hversion : present (in_packageVersionId input) = in_packageVersionId input).

(** A finding the connector owns. *)
Definition owned (db : findings_db) (key : string) : bool :=
  existsb (fun f => String.eqb key (fd_key f) && String.eqb (fd_connector_key f) (in_connectorKey input))
    (t_findings db).

Definition entity_row (r : project_finding_row) : bool :=
  of_entity (in_projectId input) packageId (in_packageVersionId input) r.

(** The rows the last loop closes. *)
Definition unobserved (db : findings_db) (keys : list string) (r : project_finding_row) : bool :=
  entity_row r && is_open r && owned db (pf_finding_key r) && negb (existsb (String.eqb (pf_finding_key r)) keys).

Lemma connector_open_spec db r :
  r ∈ connector_open_findings input packageId db <->
  r ∈ project_findings db /\ entity_row r && is_open r = true /\ owned db (pf_finding_key r) = true.
Proof.
  unfold connector_open_findings, owned. rewrite list_elem_of_fmap, existsb_elem_of. split.
  - intros ([r' f] & -> & Hin). apply inner_join_elem_of in Hin as (Hr & Hf & Hon).
    apply elem_of_filter_b in Hr as [Hr He]. cbn [fst]. split; [done|]. split; [done|]. by exists f.
  - intros (Hr & He & f & Hf & Hon). exists (r, f). split; [done|]. apply inner_join_elem_of.
    split; [|done]. by apply elem_of_filter_b.
Qed.

Lemma close_phase b n db keys :
  findings_ok n db -> times_ok b n db -> b + 1 < VALID_TO_INFINITY ->
  exists us n' rows,
    returns (mapM_ (close_unobserved keys) (connector_open_findings input packageId db)) (n, db) us
      (n', set_project_findings (fun _ => rows) db) /\
    findings_ok n' (set_project_findings (fun _ => rows) db) /\
    closed_where (unobserved db keys) (project_findings db) rows.
Proof.
  intros Hok Ht Hb.
  destruct (close_all_run b keys (connector_open_findings input packageId db) n db Ht Hb)
    as (us & n' & rows & Hr & Hn & Hrows); [by intros r [? _]%connector_open_spec|].
  exists us, n', rows. split; [done|]. split.
  - apply (set_project_findings_ok n); [done|done| | |].
    + rewrite (closed_where_ids _ _ _ Hrows). apply (ok_project_ids _ _ Hok).
    + intros pr pk ve ke. rewrite (closed_where_open _ _ _ _ _ _ _ Hrows).
      etrans; [|apply (ok_open _ _ Hok pr pk ve ke)]. generalize (project_findings db). clear.
      induction l as [|r l IH]; [done|]. cbn [List.filter]. destruct (open_of pr pk ve ke r), (negb _); cbn; lia.
    + intros r Hin. left. destruct (closed_where_in _ _ _ _ Hrows Hin) as (r0 & Hr0 & Hrr). exists r0.
      destruct (unobserved_id _ _ r0); [destruct Hrr as (t & _ & ->)|subst r]; done.
  - eapply closed_where_ext; [|exact Hrows]. intros r Hin. apply Bool.eq_iff_eq_true.
    unfold unobserved_id, unobserved. rewrite existsb_elem_of, !andb_true_iff. split.
    + intros (x & [Hx Hxe]%connector_open_spec & [He Ho]%andb_prop).
      assert (r = x) as -> by (eapply same_id; eauto). rewrite andb_true_iff in Hxe. tauto.
    + intros [[[He Hop] Hk] Ho]. exists r. rewrite connector_open_spec, He, Hop, String.eqb_refl. auto.
Qed.

Lemma run_sync b n db :
  findings_ok n db -> times_ok b n db ->
  b + Z.of_nat (length (in_findings input)) + 1 < VALID_TO_INFINITY -> present (in_packageId input) = Some packageId ->
  exists ys n' db1 rows,
    let db' := set_project_findings (fun _ => rows) db1 in
    returns (upsertProjectFindingsForEntity input) (n, db) (length (List.filter snd ys)) (n', db') /\
    findings_ok n' db' /\ (exists n1, findings_ok n1 db1) /\ observed_all input packageId (in_findings input) ys db db1 /\
    closed_where (unobserved db1 ys.*1) (project_findings db1) rows.
Proof using Hversion uuid_inj.
  intros Hok Ht Hb Hpid.
  destruct (observe_all_progress b input packageId n db Hversion Hok Ht) as (ys & n1 & db1 & Hr1 & Hn1 & Ht1); [lia|].
  destruct (observe_all_post input packageId n db ys n1 db1 Hversion Hok Hr1) as [Hok1 Hall].
  destruct (close_phase _ n1 db1 ys.*1 Hok1 Ht1) as (us & n2 & rows & Hr2 & Hok2 & Hrows); [lia|].
  exists ys, n2, db1, rows. split; [|split; [done|split; [by exists n1|done]]].
  unfold upsertProjectFindingsForEntity. apply returns_transaction. unfold upsertProjectFindingsForEntityTx.
  rewrite Hpid. apply returns_bind. exists ys, (n1, db1). split; [done|].
  apply returns_bind. exists (connector_open_findings input packageId db1), (n1, db1). split; [by apply returns_gets|].
  apply returns_bind. eexists us, _. split; [exact Hr2|]. by apply returns_ret.
Qed.

(** The abstract state: the external ids of the connector's open findings. *)
Definition open_external (db : findings_db) (ext : string) : Prop :=
  exists r f, r ∈ project_findings db /\ entity_row r = true /\ is_open r = true /\
    f ∈ t_findings db /\ fd_key f = pf_finding_key r /\ fd_connector_key f = in_connectorKey input /\
    fd_external_id f = ext.

Lemma same_identity n db f f' :
  findings_ok n db -> f ∈ t_findings db -> f' ∈ t_findings db -> fd_key f = fd_key f' -> f = f'.
Proof. intros Hok Hf Hf' He. eapply NoDup_map_inj; [apply (ok_keys _ _ Hok)|..]; done. Qed.

Lemma same_external n db f f' :
  findings_ok n db -> f ∈ t_findings db -> f' ∈ t_findings db ->
  fd_connector_key f = fd_connector_key f' -> fd_external_id f = fd_external_id f' -> f = f'.
Proof.
  intros Hok Hf Hf' Hc He. eapply NoDup_map_inj; [apply (ok_external _ _ Hok)|..]; [done..|]. cbn. congruence.
Qed.

(** The tables after a run, given the phases' results. *)
Lemma sync_open db ys n1 db1 rows :
  findings_ok n1 db1 -> observed_all input packageId (in_findings input) ys db db1 ->
  closed_where (unobserved db1 ys.*1) (project_findings db1) rows ->
  forall ext, open_external (set_project_findings (fun _ => rows) db1) ext <->
              ext ∈ map findingId (in_findings input).
Proof using Hversion.
  intros Hok1 [A1 _ _ _ _ A5 _ _] Hc ext. unfold open_external. cbn [t_findings project_findings set_project_findings].
  rewrite list_elem_of_fmap. split.
  - intros (r & f & Hr & He & Ho & Hf & Hk & Hcon & Hext).
    destruct (closed_where_in _ _ _ _ Hc Hr) as (r0 & Hr0 & Hrr).
    destruct (unobserved db1 ys.*1 r0) eqn:Eu.
    { destruct Hrr as (t & Ht & ->). unfold is_open in Ho. cbn in Ho. apply Z.eqb_eq in Ho. lia. }
    subst r. unfold unobserved in Eu. rewrite He, Ho in Eu. cbn [andb] in Eu.
    assert (Hown : owned db1 (pf_finding_key r0) = true).
    { unfold owned. apply existsb_elem_of. exists f. by rewrite Hk, Hcon, !String.eqb_refl. }
    rewrite Hown in Eu. apply negb_false_iff, existsb_eqb in Eu. apply list_elem_of_fmap in Eu as (y & Hy & Hin).
    destruct (Forall2_elem_of_r _ _ _ _ A1 Hin) as (g & Hg & Hid). exists g. split; [|done].
    assert (f = identity_row y.1 (in_connectorKey input) g) as ->.
    { eapply same_identity; [exact Hok1|done..|]. cbn. congruence. }
    by rewrite <- Hext.
  - intros (g & -> & Hg). destruct (Forall2_elem_of_l _ _ _ _ A1 Hg) as (y & Hy & Hid).
    assert (Hyk : y.1 ∈ ys.*1) by (by apply list_elem_of_fmap_2).
    destruct (A5 y.1 Hyk) as (r & v & Hr & _ & _).
    assert (Hin : r ∈ [r]) by apply list_elem_of_here. rewrite <- Hr in Hin.
    apply elem_of_filter_b in Hin as [Hin Hop]. apply open_of_spec in Hop as (He & Hk & Ho).
    exists r, (identity_row y.1 (in_connectorKey input) g). split; [|by repeat split].
    eapply closed_where_keeps; [exact Hc|exact Hin|]. unfold unobserved. rewrite Hk, (proj2 (existsb_eqb _ _) Hyk).
    by rewrite andb_false_r.
Qed.

(** Which findings were open before, by key and by external id. *)
Lemma open_before n db n1 db1 ys f y :
  findings_ok n db -> findings_ok n1 db1 -> observed_all input packageId (in_findings input) ys db db1 ->
  identity_row y (in_connectorKey input) f ∈ t_findings db1 ->
  List.filter (open_of (in_projectId input) packageId (in_packageVersionId input) y) (project_findings db) = [] <->
  ~ open_external db (findingId f).
Proof.
  intros Hok Hok1 Hall Hid. rewrite filter_b_nil. split.
  - intros Hnone (r & g & Hr & He & Ho & Hg & Hk & Hcon & Hext).
    assert (Hgf : g = identity_row y (in_connectorKey input) f).
    { eapply same_external; [exact Hok1|by apply (oa_findings _ _ _ _ _ _ Hall)|exact Hid|done|done]. }
    apply not_true_iff_false in Hnone. apply Hnone. apply existsb_elem_of. exists r. split; [done|].
    apply open_of_spec. split; [done|]. split; [|done]. by rewrite <- Hk, Hgf.
  - intros Hnone. apply not_true_is_false. rewrite existsb_elem_of. intros (r & Hr & Hop).
    apply open_of_spec in Hop as (He & Hk & Ho). apply Hnone.
    assert (Hfk := ok_references _ _ Hok r Hr). apply list_elem_of_fmap in Hfk as (g & Hgk & Hg).
    assert (Hgf : g = identity_row y (in_connectorKey input) f).
    { eapply same_identity; [exact Hok1|by apply (oa_findings _ _ _ _ _ _ Hall)|exact Hid|]. cbn. congruence. }
    exists r, g. subst g. repeat split; done.
Qed.

Lemma sync_new n db n1 db1 ys :
  findings_ok n db -> findings_ok n1 db1 -> observed_all input packageId (in_findings input) ys db db1 ->
  exists new, NoDup new /\ length new = length (List.filter snd ys) /\
    forall ext, ext ∈ new <-> ext ∈ map findingId (in_findings input) /\ ~ open_external db ext.
Proof.
  intros Hok Hok1 Hall. destruct (oa_new _ _ _ _ _ _ Hall) as [Hnd Hnew]. assert (A1 := oa_identity _ _ _ _ _ _ Hall).
  set (ext_of := fun k => from_option fd_external_id EmptyString
    (js_find (fun r => String.eqb (fd_key r) k) (t_findings db1))).
  assert (Hext : forall k, k ∈ ys.*1 -> exists f, f ∈ in_findings input /\
    identity_row k (in_connectorKey input) f ∈ t_findings db1 /\ ext_of k = findingId f).
  { intros k Hk. apply list_elem_of_fmap in Hk as (y & -> & Hy).
    destruct (Forall2_elem_of_r _ _ _ _ A1 Hy) as (f & Hf & Hid). exists f. split; [done|]. split; [done|].
    unfold ext_of. destruct (js_find _ (t_findings db1)) as [r|] eqn:E.
    - apply js_find_some in E as [Hr He%String.eqb_eq]. cbn.
      assert (r = identity_row y.1 (in_connectorKey input) f) as -> by (by eapply same_identity). done.
    - apply (js_find_none _ _ _ E) in Hid. cbn in Hid. by rewrite String.eqb_refl in Hid. }
  assert (Hsub : forall k, k ∈ (List.filter snd ys).*1 -> k ∈ ys.*1) by (intros k Hk; by apply Hnew in Hk as [? _]).
  exists (map ext_of (List.filter snd ys).*1). split; [|split].
  - apply NoDup_map_on; [|done]. intros k k' Hk Hk' He.
    destruct (Hext k (Hsub k Hk)) as (f & _ & Hid & Hf). destruct (Hext k' (Hsub k' Hk')) as (f' & _ & Hid' & Hf').
    assert (Hrow : identity_row k (in_connectorKey input) f = identity_row k' (in_connectorKey input) f').
    { eapply same_external; [exact Hok1|done|done|done|]. cbn. congruence. }
    by injection Hrow.
  - by rewrite length_map, length_fmap.
  - intros ext. rewrite !list_elem_of_fmap. split.
    + intros (k & -> & Hk). destruct (Hext k (Hsub k Hk)) as (f & Hf & Hid & ->). split; [by exists f|].
      apply Hnew in Hk as [_ Hnil]. by apply (open_before n db n1 db1 ys f k).
    + intros [(f & -> & Hf) Hno]. destruct (Forall2_elem_of_l _ _ _ _ A1 Hf) as (y & Hy & Hid).
      assert (Hk : y.1 ∈ ys.*1) by (by apply list_elem_of_fmap_2). exists y.1. split.
      * destruct (Hext y.1 Hk) as (f' & _ & Hid' & ->).
        assert (Hrow : identity_row y.1 (in_connectorKey input) f = identity_row y.1 (in_connectorKey input) f').
        { eapply same_identity; [exact Hok1|done|done|done]. }
        by injection Hrow.
      * apply Hnew. split; [done|]. by apply (open_before n db n1 db1 ys f y.1).
Qed.

(** Rows of other entities and of other connectors' findings are left alone. *)
Lemma sync_frame db ys db1 rows r :
  observed_all input packageId (in_findings input) ys db db1 ->
  closed_where (unobserved db1 ys.*1) (project_findings db1) rows ->
  entity_row r = false \/ owned db1 (pf_finding_key r) = false ->
  r ∈ rows <-> r ∈ project_findings db.
Proof.
  intros Hall Hc Hother. assert (A1 := oa_identity _ _ _ _ _ _ Hall).
  assert (Hdead : unobserved db1 ys.*1 r = false).
  { unfold unobserved. destruct Hother as [-> | ->]; by rewrite ?andb_false_r. }
  assert (Ht : touched input packageId ys.*1 r = false).
  { unfold touched. fold (entity_row r). destruct Hother as [-> |Hown]; [done|].
    destruct (existsb _ ys.*1) eqn:Ek; [|by rewrite andb_false_r]. exfalso.
    apply existsb_eqb, list_elem_of_fmap in Ek as (y & Hy & Hin).
    destruct (Forall2_elem_of_r _ _ _ _ A1 Hin) as (g & _ & Hid). apply not_true_iff_false in Hown. apply Hown.
    unfold owned. apply existsb_elem_of. eexists. split; [exact Hid|]. cbn. by rewrite Hy, !String.eqb_refl. }
  assert (Hp1 : r ∈ project_findings db1 <-> r ∈ project_findings db).
  { assert (Hf := oa_others _ _ _ _ _ _ Hall).
    assert (He : forall l, r ∈ l <-> r ∈ List.filter (fun r => negb (touched input packageId ys.*1 r)) l).
    { intros l. rewrite elem_of_filter_b, Ht. naive_solver. }
    by rewrite He, Hf, <- He. }
  rewrite <- Hp1. split.
  - intros Hr. destruct (closed_where_in _ _ _ _ Hc Hr) as (r0 & Hr0 & Hrr).
    destruct (unobserved db1 ys.*1 r0) eqn:Eu; [|by subst r]. destruct Hrr as (t & _ & ->).
    unfold unobserved in Eu. apply andb_prop in Eu as [[[He _]%andb_prop Hown]%andb_prop _].
    destruct Hother as [Hother|Hother].
    + change (entity_row (close_row t r0)) with (entity_row r0) in Hother. congruence.
    + change (pf_finding_key (close_row t r0)) with (pf_finding_key r0) in Hother. congruence.
  - intros Hr. by eapply closed_where_keeps.
Qed.
End sync.
End correct.
