(* ===== verification/FindingsSpec.v ===== *)
(** * What recording findings achieves

    The properties of [upsertProjectFindingsForEntity] against its abstract
    specification: for each project, entity and connector a set of open findings,
    which a run replaces by the findings it is given. *)

From S2P Require Import Prelude JsString JsNum JsValue Jsonb Sql Effects ConnectorTypes Findings FindingsCorrect.
Local Open Scope Z_scope.

Section spec.
Context `{Env} (uuid_inj : forall m n, uuid m = uuid n -> m = n).

(** C34: recording findings refines replacing the open set: with the tables in
    order, fresh identifiers and times with room before the end of time, the
    transaction commits; then the connector's open findings of the entity are
    exactly those reported, whatever was open before; the count returned is the
    number of reported findings that were not open; rows of other projects,
    packages and connectors are as they were; and the tables are in order again. *)
Theorem project_findings_sync b input packageId n db :
  present (in_packageVersionId input) = in_packageVersionId input ->
  present (in_packageId input) = Some packageId ->
  findings_ok n db -> times_ok b n db ->
  b + Z.of_nat (length (in_findings input)) + 1 < VALID_TO_INFINITY ->
  exists count n' db', returns (upsertProjectFindingsForEntity input) (n, db) count (n', db') /\
    findings_ok n' db' /\
    (forall ext, open_external input packageId db' ext <-> ext ∈ map findingId (in_findings input)) /\
    (exists new, NoDup new /\ count = length new /\
       forall ext, ext ∈ new <-> ext ∈ map findingId (in_findings input) /\ ~ open_external input packageId db ext) /\
    (forall r, entity_row input packageId r = false \/ owned input db' (pf_finding_key r) = false ->
       r ∈ project_findings db' <-> r ∈ project_findings db).
Proof.
  intros Hv Hp Hok Ht Hb.
  destruct (run_sync uuid_inj input packageId Hv b n db Hok Ht Hb Hp)
    as (ys & n' & db1 & rows & Hr & Hok' & (n1 & Hok1) & Hall & Hc).
  exists (length (List.filter snd ys)), n', (set_project_findings (fun _ => rows) db1).
  split; [exact Hr|]. split; [exact Hok'|]. split; [|split].
  - by apply (sync_open input packageId Hv db ys n1 db1 rows).
  - destruct (sync_new input packageId n db n1 db1 ys Hok Hok1 Hall) as (new & Hn & Hl & Hx). by exists new.
  - intros r. by apply (sync_frame input packageId db ys db1 rows r).
Qed.

(** Each reported finding is recorded with its content: after a run on findings
    with distinct identifiers, each one has an open window that points to the
    current version of its history, and that version was written from it or
    differs in nothing the comparison of contents sees. *)
Theorem reported_findings_described b input packageId n db f :
  present (in_packageVersionId input) = in_packageVersionId input ->
  present (in_packageId input) = Some packageId ->
  findings_ok n db -> times_ok b n db ->
  b + Z.of_nat (length (in_findings input)) + 1 < VALID_TO_INFINITY ->
  NoDup (map findingId (in_findings input)) -> f ∈ in_findings input ->
  exists count n' db' key r v,
    returns (upsertProjectFindingsForEntity input) (n, db) count (n', db') /\
    identity_row key (in_connectorKey input) f ∈ t_findings db' /\
    r ∈ project_findings db' /\ entity_row input packageId r = true /\ is_open r = true /\ pf_finding_key r = key /\
    current_version key db' = Some v /\ pf_current_finding_version_id r = fv_id v /\ describes v f.
Proof.
  intros Hv Hp Hok Ht Hb Hnd Hf.
  destruct (run_sync uuid_inj input packageId Hv b n db Hok Ht Hb Hp)
    as (ys & n' & db1 & rows & Hr & Hok' & (n1 & Hok1) & Hall & Hc).
  assert (A1 := oa_identity _ _ _ _ _ _ Hall).
  assert (Hkeys : NoDup ys.*1).
  { clear -A1 Hnd Hok1. induction A1 as [|g y gs ys' Hg A1 IH]; [apply NoDup_nil_2|].
    cbn in Hnd |- *. apply NoDup_cons in Hnd as [Hx Hnd]. apply NoDup_cons. split; [|auto].
    intros (z & Hz & Hin)%list_elem_of_fmap. apply Hx.
    destruct (Forall2_elem_of_r _ _ _ _ A1 Hin) as (g' & Hg' & Hid). apply list_elem_of_fmap. exists g'. split; [|done].
    assert (He : identity_row y.1 (in_connectorKey input) g = identity_row z.1 (in_connectorKey input) g').
    { eapply same_identity; [exact Hok1|done|done|done]. }
    by injection He. }
  assert (A := Forall2_both _ _ _ _ A1 (oa_describes _ _ _ _ _ _ Hall Hkeys)).
  destruct (Forall2_elem_of_l _ _ _ _ A Hf) as (y & Hy & Hid & v & Hcv & Hd).
  assert (Hyk : y.1 ∈ ys.*1) by (by apply list_elem_of_fmap_2).
  destruct (oa_open _ _ _ _ _ _ Hall y.1 Hyk) as (r & v' & Hfilter & Hcv' & Hlink).
  assert (v' = v) as -> by congruence.
  assert (Hin : r ∈ [r]) by apply list_elem_of_here. rewrite <- Hfilter in Hin.
  apply elem_of_filter_b in Hin as [Hin Hop]. apply open_of_spec in Hop as (He & Hk & Ho).
  exists (length (List.filter snd ys)), n', (set_project_findings (fun _ => rows) db1), y.1, r, v.
  split; [exact Hr|]. split; [done|]. split; [|by repeat split].
  eapply closed_where_keeps; [exact Hc|exact Hin|]. unfold unobserved. rewrite Hk, (proj2 (existsb_eqb _ _) Hyk).
  by rewrite andb_false_r.
Qed.

Lemma close_all_versions keys l s us s' :
  returns (mapM_ (close_unobserved keys) l) s us s' -> finding_versions s'.2 = finding_versions s.2.
Proof.
  intros Hr.
  apply (returns_mapM _ (fun _ _ t => finding_versions t.2 = finding_versions s.2) _ _ _ _ Hr); [|done].
  intros dn ys x y t t' Ht Hf. unfold close_unobserved, dateAfterNowAnd in Hf. run_if Ek; by run_inv.
Qed.

(** C35: histories are append-only and well formed, on every run: whether the
    transaction commits or fails, each finding's versions stay numbered without a
    gap, with windows that follow on each other and one current version, and no
    recorded version loses its identifier, number, content or start. *)
Theorem finding_history_kept input n db :
  present (in_packageVersionId input) = in_packageVersionId input -> findings_ok n db ->
  let db' := (upsertProjectFindingsForEntity input (n, db)).2.2 in
  histories (finding_versions db') /\
  map content (finding_versions db) `prefix_of` map content (finding_versions db').
Proof.
  intros Hv Hok. unfold upsertProjectFindingsForEntity, transaction. cbn zeta.
  destruct (upsertProjectFindingsForEntityTx input (n, db)) as [[count|m] [n' db']] eqn:E; cbn [fst snd].
  2:{ split; [apply (ok_histories _ _ Hok)|done]. }
  change (returns (upsertProjectFindingsForEntityTx input) (n, db) count (n', db')) in E.
  unfold upsertProjectFindingsForEntityTx in E. destruct (present (in_packageId input)) as [packageId|].
  2:{ apply returns_ret in E as [_ [= -> ->]]. split; [apply (ok_histories _ _ Hok)|done]. }
  apply returns_bind in E as (ys & [n1 db1] & H1 & E).
  apply (observe_all_post uuid_inj) in H1 as [Hok1 Hall]; [|done..].
  apply returns_bind in E as (l & s2 & H2 & E). apply returns_gets in H2 as [_ ->].
  apply returns_bind in E as (us & s3 & H3 & E). apply close_all_versions in H3. cbn [snd] in H3.
  apply returns_ret in E as [_ <-]. cbn [snd] in H3. rewrite H3.
  split; [apply (ok_histories _ _ Hok1)|apply (oa_audit _ _ _ _ _ _ Hall)].
Qed.
End spec.

(** ** Changes of content *)

Lemma join_braces_nil (keys : list string) (f : string -> option string) :
  (forall k, k ∈ keys -> f k = None) -> omap f keys = [].
Proof.
  induction keys as [|k keys IH]; intros Hf; [done|]. cbn [omap list_omap].
  rewrite (Hf k) by apply list_elem_of_here. apply IH. intros j Hj. apply Hf. by apply list_elem_of_further.
Qed.

Definition rendered (keys : list string) (kvs : list (string * jsval)) : list (string * option string) :=
  map (fun kv => match kv with (k, x) => (k, stringify_keys keys x) end) kvs.

Lemma find_rendered keys k kvs :
  js_find (fun kv => String.eqb k kv.1) (rendered keys kvs) = (fun v => (k, stringify_keys keys v)) <$> own k kvs.
Proof.
  induction kvs as [|[j v] kvs IH]; [done|]. cbn. destruct (String.eqb_spec k j) as [->|]; [done|]. exact IH.
Qed.

(** What the comparison sees of an object: its listed members. *)
Definition member (keys : list string) (kvs : list (string * jsval)) (k : string) : option string :=
  v ← own k kvs; s ← stringify_keys keys v; Some (quoted k +:+ ":" +:+ s).

Lemma stringify_keys_obj keys kvs :
  stringify_keys keys (JObj kvs) = Some ("{" +:+ join "," (omap (member keys kvs) keys) +:+ "}").
Proof.
  change (stringify_keys keys (JObj kvs)) with
    (Some ("{" +:+ join "," (omap (fun k => '(_, o) ← js_find (fun kv => String.eqb k kv.1) (rendered keys kvs);
       s ← o; Some (quoted k +:+ ":" +:+ s)) keys) +:+ "}")).
  do 4 f_equal. apply list_omap_ext, Forall_Forall2_diag, Forall_forall. intros k _.
  rewrite find_rendered. unfold member. by destruct (own k kvs).
Qed.

(** The comparison reads an object's members at its own sorted keys, so it depends
    neither on their order nor on nested members whose keys are not among them. *)
Lemma stableJson_nested a a' k x y :
  a.*1 ≡ₚ a'.*1 -> (forall j, j <> k -> own j a = own j a') ->
  own k a = Some (JObj x) -> own k a' = Some (JObj y) ->
  (forall j, j ∈ a.*1 -> own j x = None /\ own j y = None) ->
  stableJson (JObj a) = stableJson (JObj a').
Proof.
  intros Hp Hsame Hx Hy Hnested. unfold stableJson, sorted_keys. rewrite <- (js_sort_strings _ _ Hp).
  set (keys := js_sort str_leb a.*1).
  assert (Hkeys : forall j, j ∈ keys -> own j x = None /\ own j y = None).
  { intros j Hj. apply Hnested. by apply js_sort_elem_of in Hj. }
  assert (Hinner : forall z, (forall j, j ∈ keys -> own j z = None) -> stringify_keys keys (JObj z) = Some ("{" +:+ "}")).
  { intros z Hz. rewrite stringify_keys_obj, join_braces_nil; [done|]. intros j Hj. unfold member. by rewrite Hz. }
  rewrite !stringify_keys_obj. do 4 f_equal.
  apply list_omap_ext, Forall_Forall2_diag, Forall_forall. intros j _. unfold member.
  destruct (decide (j = k)) as [->|Hne]; [|by rewrite Hsame].
  rewrite Hx, Hy. cbn [mbind option_bind]. by rewrite !Hinner by (intros; by apply Hkeys).
Qed.

Lemma strict_eq_refl v : is_nullish v = true \/ (exists s, v = JStr s) -> strict_eq v v = true.
Proof. intros [Hv|[s ->]]; [by destruct v|]. cbn. apply String.eqb_refl. Qed.

(** A change inside a nested attribute goes unnoticed: a finding whose content
    differs from the recorded one only inside an object attribute, at keys that are
    not attribute names themselves, is taken for unchanged, and no new version is
    recorded. (The array of top-level keys given to JSON.stringify for sorting
    filters the keys at every depth.) *)
Theorem nested_change_unnoticed current next k x y :
  let was := fv_material current in
  mt_severity was = mt_severity next -> mt_title was = mt_title next ->
  mt_description was = mt_description next ->
  is_nullish (mt_description was) = true \/ (exists s, mt_description was = JStr s) ->
  mt_aliases was = mt_aliases next -> mt_affected_ranges was = mt_affected_ranges next ->
  mt_fixed_versions was = mt_fixed_versions next ->
  (mt_raw_attributes was).*1 ≡ₚ (mt_raw_attributes next).*1 ->
  (forall j, j <> k -> own j (mt_raw_attributes was) = own j (mt_raw_attributes next)) ->
  own k (mt_raw_attributes was) = Some (JObj x) -> own k (mt_raw_attributes next) = Some (JObj y) ->
  (forall j, j ∈ (mt_raw_attributes was).*1 -> own j x = None /\ own j y = None) ->
  hasMaterialChange current next = false.
Proof.
  intros was Hs Ht Hd Hdesc Ha Hr Hf Hp Hsame Hx Hy Hn. unfold hasMaterialChange, json_differs. fold was.
  rewrite <- Hs, <- Ht, <- Hd, <- Ha, <- Hr, <- Hf, strict_eq_refl by done.
  rewrite (stableJson_nested _ _ k x y Hp Hsame Hx Hy Hn).
  unfold severity_eqb. by rewrite !bool_decide_eq_true_2 by done.
Qed.

(** ** Instances *)

Definition findings_example_db : findings_db :=
  {| t_findings := []; finding_versions := []; project_findings := [] |}.

Definition findings_example_input (fs : list ConnectorFinding) : UpsertProjectFindingsInput :=
  {| in_tenantId := "t"; in_projectId := "pr"; in_connectorKey := "osv"; in_connectorCacheId := Some "c"%string;
     in_packageId := Some "p"%string; in_packageVersionId := Some "v"%string; in_findings := fs |}.

Definition findings_example : UpsertProjectFindingsInput :=
  findings_example_input [example_finding "CVE-1" HIGH []; example_finding "CVE-2" LOW []]%string.

Lemma findings_example_times : @times_ok example_env 1000000 0 findings_example_db.
Proof.
  split; [intros m; apply Z.le_min_r|intros v Hv; by apply not_elem_of_nil in Hv..|
    intros r m _ Hr; by apply not_elem_of_nil in Hr].
Qed.

Lemma project_findings_sync_witness :
  exists count s', @returns findings_db _ (@upsertProjectFindingsForEntity example_env findings_example) (0%nat, findings_example_db) count s' /\
  open_external findings_example "p" s'.2 "CVE-2".
Proof.
  destruct (@project_findings_sync example_env example_uuid_inj 1000000 findings_example "p" 0 findings_example_db)
    as (count & n' & db' & Hr & _ & Hopen & _).
  - reflexivity.
  - reflexivity.
  - apply findings_ok_empty.
  - apply findings_example_times.
  - vm_compute. reflexivity.
  - exists count, (n', db'). split; [exact Hr|]. apply Hopen. right. left.
Defined.

Lemma reported_findings_described_witness :
  exists db' v, (@upsertProjectFindingsForEntity example_env findings_example (0%nat, findings_example_db)).2.2 = db' /\
  v ∈ finding_versions db' /\ mt_severity (fv_material v) = LOW.
Proof.
  destruct (@reported_findings_described example_env example_uuid_inj 1000000 findings_example "p" 0 findings_example_db
    (example_finding "CVE-2" LOW [])) as (count & n' & db' & key & r & v & Hr & _ & _ & _ & _ & _ & Hv & _ & Hd).
  - reflexivity.
  - reflexivity.
  - apply findings_ok_empty.
  - apply findings_example_times.
  - vm_compute. reflexivity.
  - cbn. apply NoDup_cons. split; [|apply NoDup_singleton]. intros Hc%list_elem_of_singleton. discriminate Hc.
  - right. left.
  - exists db', v. split; [by rewrite Hr|]. split.
    + unfold current_version in Hv. by apply head_Some_elem_of, elem_of_filter_b in Hv as [? _].
    + destruct Hd as [->|Hd]; [reflexivity|]. unfold hasMaterialChange in Hd.
      destruct (severity_eqb (mt_severity (fv_material v)) LOW) eqn:E; [|cbn in Hd; by rewrite E in Hd].
      by apply bool_decide_eq_true in E.
Defined.

Lemma finding_history_kept_witness :
  histories (finding_versions (@upsertProjectFindingsForEntity example_env findings_example (0%nat, findings_example_db)).2.2).
Proof.
  apply (@finding_history_kept example_env example_uuid_inj findings_example 0 findings_example_db).
  - reflexivity.
  - apply findings_ok_empty.
Defined.

Lemma nested_change_unnoticed_witness :
  let before := [("score", JInt 40); ("raw_factors", JObj [("velocity", JInt 20)])]%string in
  let after := [("score", JInt 40); ("raw_factors", JObj [("velocity", JInt 5)])]%string in
  let material a := materialFindingPayload (example_finding "f" LOW a) in
  hasMaterialChange {| fv_id := "1"; fv_finding_key := "k"; fv_version := 1; fv_connector_cache_id := None;
    fv_material := stored_material (material before); fv_effective_from := 0;
    fv_effective_to := VALID_TO_INFINITY; fv_superseded_by_id := None |} (material after) = false.
Proof.
  intros before after material.
  apply (nested_change_unnoticed _ _ "raw_factors" [("velocity", JInt 20)] [("velocity", JInt 5)])%string;
    try reflexivity.
  - left. reflexivity.
  - intros j Hj. change (own j before = own j after). unfold before, after. cbn [own].
    by rewrite (proj2 (String.eqb_neq j "raw_factors") Hj).
  - intros j Hj. apply elem_of_cons in Hj as [->|Hj]; [split; reflexivity|].
    apply list_elem_of_singleton in Hj as ->. split; reflexivity.
Defined.
