(* ===== verification/Snapshots.v ===== *)
(** * Stored snapshots (services/api/src/policy/effective.ts)

    A project keeps, per connector and package version, the latest snapshot of
    the connector.  [upsertConnectorSnapshot] writes one, [loadSnapshots] reads
    those of an artifact back for the evaluation.  The table's one unique index
    treats nulls as distinct. *)

From S2P Require Import Prelude JsString JsNum JsValue Jsonb Sql Effects Identity ConnectorTypes.
Local Open Scope string_scope.
Local Open Scope list_scope.
Local Open Scope Z_scope.

Record snapshot_row := {
  sn_id : string; sn_tenant_id : string; sn_project_id : string; sn_connector_key : string;
  sn_entity_type : string; sn_package_id : option string; sn_package_version_id : option string;
  sn_fields : list (string * jsval); sn_meta : ConnectorSnapshotMeta; sn_observed_at : timestamp
}.

(** The meta object as its JSONB column keeps it. *)
Definition jsonb_meta (m : ConnectorSnapshotMeta) : ConnectorSnapshotMeta :=
  {| m_status := m_status m; responseTimeMs := responseTimeMs m;
     cacheAgeHours := jsonb_num (cacheAgeHours m); isCacheHit := isCacheHit m; errorCode := errorCode m |}.

(** The columns a snapshot is written to. *)
Definition snapshot_columns (id tenantId projectId : string) (snapshot : ConnectorSnapshot) : snapshot_row :=
  {| sn_id := id; sn_tenant_id := tenantId; sn_project_id := projectId;
     sn_connector_key := connectorKey snapshot; sn_entity_type := entityType snapshot;
     sn_package_id := packageId snapshot; sn_package_version_id := packageVersionId snapshot;
     sn_fields := jsonb_fields (fields snapshot); sn_meta := jsonb_meta (meta snapshot);
     sn_observed_at := observedAt snapshot |}.

(** The arbiter: the unique index over project, connector, entity type and ids. *)
Definition snapshot_conflict (projectId : string) (snapshot : ConnectorSnapshot) (r : snapshot_row) : bool :=
  String.eqb (sn_project_id r) projectId && String.eqb (sn_connector_key r) (connectorKey snapshot)
  && String.eqb (sn_entity_type r) (entityType snapshot)
  && match packageId snapshot, packageVersionId snapshot with
     | Some pid, Some vid => opt_eq (sn_package_id r) pid && opt_eq (sn_package_version_id r) vid
     | _, _ => false
     end.

Definition upsertConnectorSnapshot `{Env} (tenantId projectId : string) (snapshot : ConnectorSnapshot)
  : M (list snapshot_row) unit :=
  id ← fresh;
  modify (fun rows =>
    (upsert (snapshot_conflict projectId snapshot)
       (fun r => snapshot_columns (sn_id r) (sn_tenant_id r) projectId snapshot)
       (snapshot_columns id tenantId projectId snapshot) rows).1).

(** A row as a snapshot of the artifact it is loaded for. *)
Definition snapshot_of_row (artifact : ArtifactIdentity) (r : snapshot_row) : ConnectorSnapshot :=
  {| connectorKey := sn_connector_key r; entityType := sn_entity_type r;
     packageId := package_id (catalog artifact); packageVersionId := package_version_id (catalog artifact);
     ecosystem := id_ecosystem (identity artifact); packageName := id_package (identity artifact);
     version := id_version (identity artifact); displayName := display_name artifact;
     fields := sn_fields r; meta := sn_meta r; observedAt := sn_observed_at r |}.

(** The rows [loadSnapshots] selects; none without a package id. *)
Definition artifact_rows (projectId : string) (ids : PackageCatalogReference) (entityType : string)
    (r : snapshot_row) : bool :=
  match present (package_id ids) with
  | None => false
  | Some pid =>
      String.eqb (sn_project_id r) projectId
      && match present (package_version_id ids) with
         | Some vid => opt_eq (sn_package_version_id r) vid
         | None => opt_eq (sn_package_id r) pid
         end
      && String.eqb (sn_entity_type r) entityType
  end.

Definition loadSnapshots (projectId : string) (artifact : ArtifactIdentity) (entityType : string)
  : M (list snapshot_row) (list ConnectorSnapshot) :=
  gets (fun rows => map (snapshot_of_row artifact)
                      (List.filter (artifact_rows projectId (catalog artifact) entityType) rows)).

(** ** The table's invariant *)

(** The rows of a connector for a package version in a project. *)
Definition version_row (projectId connector entityType vid : string) (r : snapshot_row) : bool :=
  String.eqb (sn_project_id r) projectId && String.eqb (sn_connector_key r) connector
  && String.eqb (sn_entity_type r) entityType && opt_eq (sn_package_version_id r) vid.

Lemma version_row_spec p c e v r :
  version_row p c e v r = true <->
  sn_project_id r = p /\ sn_connector_key r = c /\ sn_entity_type r = e /\ sn_package_version_id r = Some v.
Proof. unfold version_row. rewrite !andb_true_iff, !String.eqb_eq, opt_eq_spec. tauto. Qed.

(** A version's rows carry the package that owns it, and there is one per
    connector. *)
Record snapshots_ok (owner : string -> string) (rows : list snapshot_row) : Prop := {
  snap_owned r vid : r ∈ rows -> sn_package_version_id r = Some vid -> sn_package_id r = Some (owner vid);
  snap_single projectId connector entityType vid :
    (length (List.filter (version_row projectId connector entityType vid) rows) <= 1)%nat
}.

(** The snapshot a project has of a connector for a version. *)
Definition stored_snapshot (projectId connector entityType vid : string) (rows : list snapshot_row)
  : option snapshot_row :=
  head (List.filter (version_row projectId connector entityType vid) rows).

Lemma find_loaded artifact projectId pid vid connector rows :
  present (package_id (catalog artifact)) = Some pid ->
  present (package_version_id (catalog artifact)) = Some vid ->
  js_find (fun s => String.eqb (connectorKey s) connector)
    (map (snapshot_of_row artifact) (List.filter (artifact_rows projectId (catalog artifact) "artifact") rows))
  = snapshot_of_row artifact <$> stored_snapshot projectId connector "artifact" vid rows.
Proof.
  intros Hp Hv. unfold js_find, stored_snapshot. induction rows as [|r rows IH]; [done|]. cbn [List.filter].
  unfold artifact_rows at 1, version_row at 1. rewrite Hp, Hv.
  destruct (String.eqb (sn_project_id r) projectId), (opt_eq (sn_package_version_id r) vid),
    (String.eqb (sn_entity_type r) "artifact"); cbn [andb]; rewrite ?andb_false_r; try exact IH.
  cbn [map List.find snapshot_of_row connectorKey].
  by destruct (String.eqb (sn_connector_key r) connector); cbn [andb head fmap option_fmap option_map].
Qed.

Section write.
Context `{Env} (owner : string -> string) (tenantId projectId : string) (s : ConnectorSnapshot) (vid : string).
Hypothesis (Hpid : packageId s = Some (owner vid)) (Hvid : packageVersionId s = Some vid).

Lemma version_row_conflict rows r :
  snapshots_ok owner rows -> r ∈ rows ->
  version_row projectId (connectorKey s) (entityType s) vid r = snapshot_conflict projectId s r.
Proof using All.
  intros Hok Hr. unfold version_row, snapshot_conflict. rewrite Hpid, Hvid.
  destruct (opt_eq (sn_package_version_id r) vid) eqn:E; [|by rewrite !andb_false_r].
  assert (Ho : opt_eq (sn_package_id r) (owner vid) = true).
  { apply opt_eq_spec in E. apply opt_eq_spec. by eapply snap_owned. }
  by rewrite Ho.
Qed.

Lemma columns_version_row id t : version_row projectId (connectorKey s) (entityType s) vid
    (snapshot_columns id t projectId s) = true.
Proof using All.
  unfold version_row. cbn. rewrite !String.eqb_refl, Hvid. cbn. by rewrite String.eqb_refl.
Qed.

Lemma columns_other_row id t p c e v :
  (p, c, e, v) <> (projectId, connectorKey s, entityType s, vid) ->
  version_row p c e v (snapshot_columns id t projectId s) = false.
Proof using All.
  intros Hne. apply not_true_iff_false. rewrite version_row_spec. cbn. rewrite Hvid. naive_solver.
Qed.

(** A write replaces the connector's snapshot of the version and nothing else. *)
Lemma upsertConnectorSnapshot_ok n rows :
  snapshots_ok owner rows ->
  exists n' rows', returns (upsertConnectorSnapshot tenantId projectId s) (n, rows) tt (n', rows') /\
    (n <= n')%nat /\ snapshots_ok owner rows' /\
    (exists id t, stored_snapshot projectId (connectorKey s) (entityType s) vid rows' =
                  Some (snapshot_columns id t projectId s)) /\
    (forall p c e v, (p, c, e, v) <> (projectId, connectorKey s, entityType s, vid) ->
       stored_snapshot p c e v rows' = stored_snapshot p c e v rows).
Proof using All.
  intros Hok. eexists (S n), _. split; [run_forward|]. split; [lia|]. cbn [fst snd].
  set (conflict := snapshot_conflict projectId s). set (update := fun r => _). set (new := snapshot_columns _ _ _ _).
  assert (Hsame : List.filter (version_row projectId (connectorKey s) (entityType s) vid) (upsert conflict update new rows).1
                  = [(upsert conflict update new rows).2]).
  { apply upsert_same; intros; try apply columns_version_row; [by apply (version_row_conflict rows)|].
    by eapply snap_single. }
  assert (Hother : forall p c e v, (p, c, e, v) <> (projectId, connectorKey s, entityType s, vid) ->
    List.filter (version_row p c e v) (upsert conflict update new rows).1 = List.filter (version_row p c e v) rows).
  { intros p c e v Hne. apply upsert_others; intros; try by apply columns_other_row.
    match goal with Hc : conflict _ = true |- _ =>
      unfold conflict in Hc; rewrite <- (version_row_conflict rows), version_row_spec in Hc by done end.
    apply not_true_iff_false. rewrite version_row_spec. intros (?&?&?&?). destruct_and!. apply Hne. congruence. }
  split; [|split].
  - split.
    + intros r v Hr Hv. destruct (upsert_elem conflict update new rows r Hr) as [->|[(r0 & Hr0 & _ & ->)|Hin]].
      * cbn in Hv |- *. congruence.
      * cbn in Hv |- *. congruence.
      * by eapply snap_owned.
    + intros p c e v. destruct (decide ((p, c, e, v) = (projectId, connectorKey s, entityType s, vid))) as [[= -> -> -> ->]|Hne].
      * by rewrite Hsame.
      * rewrite Hother by done. by eapply snap_single.
  - unfold stored_snapshot. rewrite Hsame. cbn [head].
    destruct (upsert_row conflict update new rows) as [[-> _]|(r & _ & _ & ->)]; subst new update; by eexists _, _.
  - intros p c e v Hne. unfold stored_snapshot. by rewrite Hother.
Qed.
End write.
