(* ===== verification/Resolver.v ===== *)
(** * Field resolver (services/api/src/policy/resolver.ts)

    [resolveFields] builds the flat field map of one evaluation from the
    connectors' snapshots and the request; [unavailableSnapshot] stands for a
    connector without one. *)

From Stdlib Require Import Ascii.
From S2P Require Import Prelude JsString JsNum JsValue Sql JsDate ConnectorTypes Expression.

Record AssetContext := {
  a_ecosystem : string; a_pkg : string; a_version : string;
  versionPublishedAt : option string; versionAgeDays : option num;
  latestVersionPublishedAt : option string
}.

Definition source_key (key field : string) : string := "source." +:+ key +:+ "." +:+ field.

Definition asset_fields (asset : AssetContext) (now : timestamp) : fields_t :=
  let f := put "asset.ecosystem" (JStr (a_ecosystem asset)) [] in
  let f := put "asset.package" (JStr (a_pkg asset)) f in
  let f := put "asset.version" (JStr (a_version asset)) f in
  let f := put "asset.version_published_at" (str_or_null (versionPublishedAt asset)) f in
  let f := put "asset.version_age_days" (from_option JNum JNull (versionAgeDays asset)) f in
  let f := put "asset.latest_version_published_at" (str_or_null (latestVersionPublishedAt asset)) f in
  put "runtime.request_timestamp" (JStr (toISOString now)) f.

Definition put_meta (key : string) (m : ConnectorSnapshotMeta) (f : fields_t) : fields_t :=
  let f := put (source_key key "_meta.status") (JStr (status_name (m_status m))) f in
  let f := put (source_key key "_meta.response_time_ms") (JInt (responseTimeMs m)) f in
  let f := put (source_key key "_meta.cache_age_hours") (from_option JNum JNull (cacheAgeHours m)) f in
  let f := put (source_key key "_meta.is_cache_hit") (JBool (isCacheHit m)) f in
  match errorCode m with
  | Some e => put (source_key key "_meta.error_code") (JStr e) f
  | None => f
  end.

(** The inner loop over [Object.entries(snapshot.fields)]. *)
Definition put_fields (key : string) (fs : list (string * jsval)) (f : fields_t) : fields_t :=
  foldl (fun f kv => put (source_key key kv.1) kv.2 f) f fs.

Definition put_snapshot (f : fields_t) (s : ConnectorSnapshot) : fields_t :=
  put_fields (connectorKey s) (fields s) (put_meta (connectorKey s) (meta s) f).

Definition resolveFields (snapshots : list ConnectorSnapshot) (asset : AssetContext)
    (now : timestamp) : fields_t :=
  foldl put_snapshot (asset_fields asset now) snapshots.

Definition unavailableSnapshot (key : string) (now : timestamp) : ConnectorSnapshot :=
  {| connectorKey := key; entityType := "artifact"; packageId := None; packageVersionId := None;
     ecosystem := EmptyString; packageName := EmptyString; version := None; displayName := EmptyString; fields := [];
     meta := {| m_status := st_unavailable; responseTimeMs := 0; cacheAgeHours := None;
                isCacheHit := false; errorCode := None |};
     observedAt := now |}.

(** ** Lemmas *)

Lemma source_key_prefix key field : startsWith (source_key key field) "source." = true.
Proof. apply startsWith_app. Qed.

Definition no_dot (s : string) : Prop := indexOf "."%char s = None.

Lemma app_inj_l s t u : s +:+ t = s +:+ u -> t = u.
Proof. induction s as [|c s IH]; [done|]. rewrite !app_cons. intros [= H]. auto. Qed.

(** Distinct dot-free connector keys name disjoint parts of the map. *)
Lemma source_key_inj k f k' f' :
  no_dot k -> no_dot k' -> source_key k f = source_key k' f' -> k = k' /\ f = f'.
Proof.
  unfold source_key. intros Hk Hk' H. apply (app_inj_l "source.") in H.
  change ("." +:+ f) with (String "." f) in H. change ("." +:+ f') with (String "." f') in H.
  assert (Hi := f_equal (indexOf "."%char) H). rewrite !indexOf_app in Hi by done.
  injection Hi as Hl. assert (Hk2 := f_equal (take_str (String.length k)) H).
  rewrite take_str_app, Hl, take_str_app in Hk2. subst k'. split; [done|].
  apply (app_inj_l k) in H. by injection H.
Qed.

(** A key outside the "source." name space is never written by a snapshot. *)
Lemma put_fields_other key fs f k :
  (forall g, k <> source_key key g) -> own k (put_fields key fs f) = own k f.
Proof.
  intros Hk. unfold put_fields. revert f. induction fs as [|[g v] fs IH]; intros f; [done|].
  cbn [foldl fst snd]. rewrite IH. by apply own_put_ne.
Qed.

Lemma put_meta_other key m f k :
  (forall g, k <> source_key key g) -> own k (put_meta key m f) = own k f.
Proof. intros Hk. unfold put_meta. destruct (errorCode m); by rewrite ?own_put_ne. Qed.

Lemma put_snapshot_other f s k :
  (forall g, k <> source_key (connectorKey s) g) -> own k (put_snapshot f s) = own k f.
Proof. intros Hk. unfold put_snapshot. by rewrite put_fields_other, put_meta_other. Qed.

Lemma put_snapshots_other snaps f k :
  (forall s g, s ∈ snaps -> k <> source_key (connectorKey s) g) ->
  own k (foldl put_snapshot f snaps) = own k f.
Proof.
  revert f; induction snaps as [|s snaps IH]; intros f Hk; [done|]. cbn [foldl].
  rewrite IH by (intros; apply Hk; by apply list_elem_of_further).
  apply put_snapshot_other. intros g. apply Hk, list_elem_of_here.
Qed.

(** Within one snapshot, a data field holds its value. *)
Lemma put_fields_own key fs f g :
  no_dot key -> NoDup fs.*1 ->
  own (source_key key g) (put_fields key fs f)
  = match own g fs with Some v => Some v | None => own (source_key key g) f end.
Proof.
  intros Hk. unfold put_fields. revert f. induction fs as [|[j v] fs IH]; intros f Hnd; [done|].
  cbn [foldl fst snd fmap list_fmap] in *. apply NoDup_cons in Hnd as [Hj Hnd].
  rewrite IH by done. cbn [own]. destruct (String.eqb_spec g j) as [->|Hne].
  - destruct (own j fs) as [w|] eqn:E.
    + exfalso. apply Hj. apply own_elem_of in E. apply list_elem_of_fmap. by exists (j, w).
    + by rewrite own_put_eq.
  - rewrite own_put_ne; [done|]. intros Heq. by apply source_key_inj in Heq as [_ ?].
Qed.

Lemma put_meta_status key m f :
  own (source_key key "_meta.status") (put_meta key m f) = Some (JStr (status_name (m_status m))).
Proof.
  unfold put_meta. assert (Hne : forall t, t <> "_meta.status"%string ->
    source_key key "_meta.status" <> source_key key t).
  { intros t Ht Heq. unfold source_key in Heq. apply (app_inj_l "source.") in Heq.
    apply (app_inj_l key) in Heq. apply (app_inj_l ".") in Heq. congruence. }
  destruct (errorCode m); rewrite ?own_put_ne by (apply Hne; discriminate); apply own_put_eq.
Qed.

(** The snapshots of one evaluation: one per connector, keys without dots. *)
Definition keys_ok (snapshots : list ConnectorSnapshot) : bool :=
  bool_decide (NoDup (map connectorKey snapshots))
  && forallb (fun s => no_char "." (connectorKey s)) snapshots.

Lemma keys_ok_split l s r :
  keys_ok (l ++ s :: r) = true ->
  (forall s', s' ∈ s :: r -> no_dot (connectorKey s')) /\
  (forall s', s' ∈ l ++ r -> connectorKey s' <> connectorKey s) /\
  (forall s', s' ∈ l -> no_dot (connectorKey s')).
Proof.
  unfold keys_ok. rewrite andb_true_iff, bool_decide_eq_true, forallb_elem_of. intros [Hnd Hd].
  assert (Hdot : forall s', s' ∈ l ++ s :: r -> no_dot (connectorKey s')).
  { intros s' Hs. specialize (Hd s' Hs). unfold no_char in Hd. unfold no_dot. by case_match. }
  split; [|split]; try (intros s' Hs; apply Hdot, elem_of_app; by auto).
  intros s' Hs Heq. rewrite List.map_app in Hnd. cbn in Hnd.
  rewrite <- Permutation_middle in Hnd. apply NoDup_cons in Hnd as [Hnot _]. apply Hnot.
  rewrite <- List.map_app, <- Heq. apply list_elem_of_In, in_map. by apply list_elem_of_In.
Qed.

Lemma resolveFields_own l s r asset now g :
  keys_ok (l ++ s :: r) = true ->
  NoDup (fields s).*1 ->
  (forall k v, (k, v) ∈ fields s -> startsWith k "_meta." = false) ->
  startsWith g "_meta." = false ->
  own (source_key (connectorKey s) g) (resolveFields (l ++ s :: r) asset now) = own g (fields s) /\
  own (source_key (connectorKey s) "_meta.status") (resolveFields (l ++ s :: r) asset now)
    = Some (JStr (status_name (m_status (meta s)))).
Proof.
  intros (Hdot & Hne & Hldot)%keys_ok_split Hnd Hmeta Hg.
  assert (Hs : no_dot (connectorKey s)) by (apply Hdot, list_elem_of_here).
  assert (Hfold : forall k, own (source_key (connectorKey s) k) (resolveFields (l ++ s :: r) asset now)
    = own (source_key (connectorKey s) k) (put_snapshot (foldl put_snapshot (asset_fields asset now) l) s)).
  { intros k. unfold resolveFields. rewrite foldl_app. cbn [foldl].
    apply put_snapshots_other. intros s' g' Hin Heq.
    apply source_key_inj in Heq as [Hk _];
      [|done|apply Hdot; by apply list_elem_of_further].
    apply (Hne s'); [|done]. apply elem_of_app. by right. }
  rewrite !Hfold. unfold put_snapshot. rewrite !put_fields_own by done. split.
  - destruct (own g (fields s)) as [v|]; [done|].
    transitivity (own (source_key (connectorKey s) g) (foldl put_snapshot (asset_fields asset now) l)).
    + unfold put_meta. assert (Hm : forall t, startsWith t "_meta." = true ->
        source_key (connectorKey s) g <> source_key (connectorKey s) t).
      { intros t Ht Heq. apply source_key_inj in Heq as [_ ->]; [|done..]. congruence. }
      destruct (errorCode (meta s)); by rewrite !own_put_ne by (by apply Hm).
    + rewrite put_snapshots_other.
      * assert (Ha : forall t, startsWith t "source." = false -> source_key (connectorKey s) g <> t).
        { intros t Ht <-. by rewrite source_key_prefix in Ht. }
        unfold asset_fields. by rewrite !own_put_ne by (by apply Ha).
      * intros s' g' Hin Heq. apply source_key_inj in Heq as [Hk _]; [|done|by apply Hldot].
        apply (Hne s'); [|done]. apply elem_of_app. by left.
  - destruct (own "_meta.status" (fields s)) as [v|] eqn:E; [|apply put_meta_status].
    apply own_elem_of in E. by specialize (Hmeta _ _ E).
Qed.

(** A leaf on a data field of a connector tests the snapshot's value. *)
Lemma evaluate_source_leaf l s r asset now g w op v :
  keys_ok (l ++ s :: r) = true -> NoDup (fields s).*1 ->
  (forall k v, (k, v) ∈ fields s -> startsWith k "_meta." = false) ->
  startsWith g "_meta." = false -> own g (fields s) = Some w ->
  evaluateCondition (encode (CLeaf (source_key (connectorKey s) g) op v))
    (resolveFields (l ++ s :: r) asset now)
  = Ok (evaluateLeaf (nullish w JNull) (JStr op) v).
Proof.
  intros Hok Hnd Hm Hg Ho. rewrite evaluate_encode. cbn [denote]. unfold field_get.
  destruct (resolveFields_own l s r asset now g) as [Hown _]; try done. by rewrite Hown, Ho.
Qed.

(** ** Properties *)

(** No connector can speak for the asset: whatever the snapshots hold, the
    asset and runtime entries of the map are the request's own. *)
Theorem asset_fields_not_shadowed snapshots asset now k :
  startsWith k "source." = false ->
  field_get (resolveFields snapshots asset now) k = field_get (asset_fields asset now) k.
Proof.
  intros Hk. unfold field_get, resolveFields. rewrite put_snapshots_other; [done|].
  intros s g _ ->. by rewrite source_key_prefix in Hk.
Qed.

Lemma asset_fields_not_shadowed_witness :
  let evil := {| connectorKey := "x"; entityType := "artifact"; packageId := None;
                 packageVersionId := None; ecosystem := EmptyString; packageName := EmptyString; version := None;
                 displayName := EmptyString; fields := [("asset.package", JStr "other")];
                 meta := meta (unavailableSnapshot "x" 0%Z); observedAt := 0%Z |}%string in
  let asset := {| a_ecosystem := "npm"; a_pkg := "left-pad"; a_version := "1.0.0";
                  versionPublishedAt := None; versionAgeDays := None;
                  latestVersionPublishedAt := None |}%string in
  field_get (resolveFields [evil] asset 0%Z) "asset.package" = JStr "left-pad".
Proof.
  intros evil asset.
  exact (asset_fields_not_shadowed [evil] asset 0%Z "asset.package" eq_refl).
Defined.

(** The map gives each connector's fields back: when connector keys are
    dot-free and distinct, and a snapshot has distinct field keys none of which
    is in the _meta name space, source.<key>.<field> is the snapshot's field
    (absent if it has none) and source.<key>._meta.status its status. *)
Theorem resolveFields_lookup l s r asset now g :
  keys_ok (l ++ s :: r) = true ->
  NoDup (fields s).*1 ->
  (forall k v, (k, v) ∈ fields s -> startsWith k "_meta." = false) ->
  startsWith g "_meta." = false ->
  own (source_key (connectorKey s) g) (resolveFields (l ++ s :: r) asset now) = own g (fields s) /\
  own (source_key (connectorKey s) "_meta.status") (resolveFields (l ++ s :: r) asset now)
    = Some (JStr (status_name (m_status (meta s)))).
Proof. intros. by apply resolveFields_own. Qed.

Lemma resolveFields_lookup_witness :
  let s := {| connectorKey := "osv"; entityType := "artifact"; packageId := None;
              packageVersionId := None; ecosystem := EmptyString; packageName := EmptyString; version := None;
              displayName := EmptyString; fields := [("critical_count", JInt 2)];
              meta := meta (unavailableSnapshot "osv" 0%Z); observedAt := 0%Z |}%string in
  let asset := {| a_ecosystem := "npm"; a_pkg := "left-pad"; a_version := "1.0.0";
                  versionPublishedAt := None; versionAgeDays := None;
                  latestVersionPublishedAt := None |}%string in
  own "source.osv.critical_count"
    (resolveFields [unavailableSnapshot "contributor" 0%Z; s] asset 0%Z) = Some (JInt 2).
Proof.
  intros s asset.
  refine (proj1 (resolveFields_lookup [unavailableSnapshot "contributor" 0%Z] s [] asset 0%Z
                   "critical_count" _ _ _ eq_refl)).
  - reflexivity.
  - apply NoDup_singleton.
  - intros k v Hkv. apply list_elem_of_singleton in Hkv. injection Hkv as -> ->. reflexivity.
Defined.

(** A connector that left no data contributes no match: in an evaluation in
    which its snapshot has no fields, a leaf on one of its data fields holds only
    if its operator is not_exists. Rules that must fire on an outage test the
    connector's status. *)
Theorem unavailable_connector_matches_nothing l s r asset now g op v :
  keys_ok (l ++ s :: r) = true ->
  fields s = [] -> startsWith g "_meta." = false ->
  evaluateCondition (encode (CLeaf (source_key (connectorKey s) g) op v))
    (resolveFields (l ++ s :: r) asset now) = Ok true ->
  op = "not_exists"%string.
Proof.
  intros Hok Hf Hg He.
  rewrite evaluate_encode in He. injection He as He. cbn [denote] in He. unfold field_get in He.
  destruct (resolveFields_own l s r asset now g) as [Hown _]; try done.
  - rewrite Hf. constructor.
  - intros k w Hin. rewrite Hf in Hin. by apply not_elem_of_nil in Hin.
  - rewrite Hown, Hf in He. cbn [own default from_option] in He.
    rewrite leaf_nullish in He; [unfold is_op in He; apply strict_eq_str in He; congruence|].
    cbn. unfold inherited. done.
Qed.

Lemma unavailable_connector_matches_nothing_witness :
  let asset := {| a_ecosystem := "npm"; a_pkg := "left-pad"; a_version := "1.0.0";
                  versionPublishedAt := None; versionAgeDays := None;
                  latestVersionPublishedAt := None |}%string in
  evaluateCondition (encode (CLeaf "source.osv.critical_count" "eq" (JInt 0)))
    (resolveFields [unavailableSnapshot "osv" 0%Z] asset 0%Z) <> Ok true.
Proof.
  intros asset H.
  assert (Hop : "eq"%string = "not_exists"%string); [|discriminate Hop].
  exact (unavailable_connector_matches_nothing [] (unavailableSnapshot "osv" 0%Z) [] asset 0%Z
           "critical_count" "eq" (JInt 0) eq_refl eq_refl eq_refl H).
Defined.
