(* ===== verification/Presentation.v ===== *)
(** * Connector presentation (services/api/src/connectors/presentation.ts)

    The generic summary the dashboard shows for a connector's result. *)

From Stdlib Require Import Ascii.
From S2P Require Import Prelude JsString JsNum JsValue JsDate ConnectorTypes.
Local Open Scope Z_scope.
Local Open Scope string_scope.

(** ** UI types *)

Inductive tone : Type := neutral | good | warn | bad.
Inductive disposition : Type :=
| d_clean | d_info | d_warning | d_elevated | d_blocked | d_unavailable.

#[export] Instance disposition_eq_dec : EqDecision disposition.
Proof. solve_decision. Defined.

Record ConnectorUiBadge := { badge_label : string; badge_tone : tone }.
Record ConnectorUiFact := { fact_label : string; fact_value : string }.

Record ConnectorUiSummary := {
  ui_status : connector_status; headline : string; ui_disposition : option disposition;
  ui_score : option num; badges : option (list ConnectorUiBadge);
  keyFacts : option (list ConnectorUiFact)
}.

Record ConnectorFindingSummary := {
  fs_findingId : string; fs_severity : VulnSeverity; fs_title : option string;
  fs_publishedAt : jsval
}.

Record ConnectorPresentation := {
  ui_summary : ConnectorUiSummary; ui_findings : list ConnectorFindingSummary;
  findingSchema : list ConnectorFindingField
}.

(** ** Tables *)

Definition STATUS_HEADLINES (s : connector_status) : string :=
  match s with
  | st_ok => "Result ready" | st_cache_hit => "Cached result ready"
  | st_timeout => "Connector timed out" | st_unavailable => "Connector unavailable"
  | st_error => "Connector error" | st_background_pending => "Result pending"
  end.

Definition SEVERITY_TONE (s : VulnSeverity) : tone :=
  match s with CRITICAL | HIGH => bad | MEDIUM => warn | LOW => neutral | NONE => good end.

Definition DEFAULT_FAILURE_DISPOSITION (s : connector_status) : disposition :=
  match s with
  | st_ok | st_cache_hit | st_background_pending => d_info
  | st_timeout | st_unavailable | st_error => d_unavailable
  end.

(** ** Builders *)

Definition buildStatusBadges (snapshot : ConnectorSnapshot) : list ConnectorUiBadge :=
  match m_status (meta snapshot) with
  | st_cache_hit => [{| badge_label := "Cache hit"; badge_tone := neutral |}]
  | st_background_pending => [{| badge_label := "Background pending"; badge_tone := neutral |}]
  | _ => []
  end.

Definition buildStatusFacts (snapshot : ConnectorSnapshot) : list ConnectorUiFact :=
  {| fact_label := "Status"; fact_value := status_name (m_status (meta snapshot)) |}
  :: match present (errorCode (meta snapshot)) with
     | Some e => [{| fact_label := "Error code"; fact_value := e |}]
     | None => []
     end.

(** [d?.toISOString() ?? null] *)
Definition iso_or_null (d : option date) : res jsval :=
  match d with
  | Some d => let! s := date_toISOString d in Ok (JStr s)
  | None => Ok JNull
  end.

Definition buildFindingSummary (f : ConnectorFinding) : res ConnectorFindingSummary :=
  let! at_ := iso_or_null (publishedAt f) in
  Ok {| fs_findingId := findingId f; fs_severity := f_severity f; fs_title := f_title f;
        fs_publishedAt := at_ |}.

Definition buildFindingSummaries (findings : list ConnectorFinding)
  : res (list ConnectorFindingSummary) :=
  map_res buildFindingSummary findings.

Definition severityToDisposition (severity : VulnSeverity) (findingCount : Z) : disposition :=
  if (findingCount =? 0)%Z || severity_eqb severity NONE then d_clean
  else match severity with
       | CRITICAL | HIGH => d_blocked
       | MEDIUM => d_elevated
       | LOW => d_warning
       | NONE => d_clean
       end.

Definition findings_headline (findingCount : Z) : string :=
  if (findingCount =? 0)%Z then "No findings detected"
  else string_of_Z findingCount +:+ " finding" +:+ (if (findingCount =? 1)%Z then EmptyString else "s")
       +:+ " detected".

Definition buildVulnerabilitySummary (snapshot : ConnectorSnapshot)
    (vulnerability : VulnerabilitySummary) : ConnectorUiSummary :=
  let findingCount := findingCount vulnerability in
  let maxSeverity := maxSeverity vulnerability in
  {| ui_status := m_status (meta snapshot);
     headline := findings_headline findingCount;
     ui_disposition := Some (severityToDisposition maxSeverity findingCount);
     ui_score := None;
     badges := Some
       (buildStatusBadges snapshot
        ++ [{| badge_label := if severity_eqb maxSeverity NONE then "No severity"
                              else severity_name maxSeverity +:+ " severity";
               badge_tone := SEVERITY_TONE maxSeverity |}]
        ++ (if fixAvailable vulnerability
            then [{| badge_label := "Fix available"; badge_tone := good |}] else []))%list;
     keyFacts := Some
       ({| fact_label := "Findings"; fact_value := string_of_Z findingCount |}
        :: match present (bestFixVersion vulnerability) with
           | Some v => [{| fact_label := "Best fix version"; fact_value := v |}]
           | None => []
           end) |}.

Definition is_ready (snapshot : ConnectorSnapshot) : bool :=
  match m_status (meta snapshot) with st_ok | st_cache_hit => true | _ => false end.

Definition buildDefaultSummary (connectorLabel : string) (result : option ConnectorResult)
    (snapshot : ConnectorSnapshot) : ConnectorUiSummary :=
  let status := m_status (meta snapshot) in
  if negb (is_ready snapshot) then
    {| ui_status := status; headline := connectorLabel +:+ ": " +:+ STATUS_HEADLINES status;
       ui_disposition := Some (DEFAULT_FAILURE_DISPOSITION status); ui_score := None;
       badges := Some (buildStatusBadges snapshot); keyFacts := Some (buildStatusFacts snapshot) |}
  else
    match r ← result; s ← summary r; s_vulnerability s with
    | Some vulnerability => buildVulnerabilitySummary snapshot vulnerability
    | None =>
        let findingCount := Z.of_nat (length (from_option findings [] result)) in
        {| ui_status := status; headline := findings_headline findingCount;
           ui_disposition := Some (if (findingCount =? 0)%Z then d_clean else d_warning);
           ui_score := None; badges := Some (buildStatusBadges snapshot); keyFacts := None |}
    end.

(** The options carry a label and, optionally, a summary builder of the connector. *)
Definition buildDefaultConnectorPresentation (result : option ConnectorResult)
    (snapshot : ConnectorSnapshot) (schema : list ConnectorFindingField) (connectorLabel : string)
    (buildSummary : option (option ConnectorResult -> ConnectorSnapshot -> ConnectorUiSummary))
  : res ConnectorPresentation :=
  let! summaries := buildFindingSummaries (from_option findings [] result) in
  Ok {| ui_summary := match buildSummary with
                      | Some build => build result snapshot
                      | None => buildDefaultSummary connectorLabel result snapshot
                      end;
        ui_findings := summaries; findingSchema := schema |}.

Lemma buildDefaultConnectorPresentation_ok result snapshot schema label build p :
  buildDefaultConnectorPresentation result snapshot schema label build = Ok p ->
  ui_summary p = match build with
                 | Some b => b result snapshot
                 | None => buildDefaultSummary label result snapshot
                 end /\
  Forall2 (fun f s => fs_findingId s = findingId f /\ fs_severity s = f_severity f)
    (from_option findings [] result) (ui_findings p).
Proof.
  unfold buildDefaultConnectorPresentation, buildFindingSummaries. intros H. res_inv. split; [done|].
  match goal with H : map_res _ _ = Ok _ |- _ => apply map_res_ok_forall2 in H as HF end.
  eapply Forall2_impl; [exact HF|]. intros f s Hf. unfold buildFindingSummary in Hf. by res_inv.
Qed.
