(* ===== verification/Cvss.v ===== *)
(** * CVSS scoring (services/api/src/connectors/osv/parse.ts)

    Parsing a CVSS vector, computing its v3 base score in double arithmetic,
    and the severity bands.  The score is proved equal to the exact rational
    formula of the CVSS v3.1 specification on all of its 2592 base vectors. *)

From Stdlib Require Import Ascii QArith Qround.
From S2P Require Import Prelude JsString JsNum JsValue ConnectorTypes.
Local Open Scope Z_scope.
Local Open Scope string_scope.

(** [parts[key] = value] for a string value; assigning a string to [__proto__]
    has no effect. *)
Definition put_segment (parts : list (string * jsval)) (segment : string) : list (string * jsval) :=
  match indexOf ":"%char segment with
  | None => parts
  | Some idx =>
      let key := take_str idx segment in
      if String.eqb key "__proto__" then parts
      else put key (JStr (drop_str (S idx) segment)) parts
  end.

Definition parseCvssSegments (vector : string) : list (string * jsval) :=
  foldl put_segment [] (split "/"%char vector).

Definition part (parts : list (string * jsval)) (key : string) : jsval :=
  default (inherited key) (own key parts).

(** ** Metric weights *)

Definition weights : Type := list (string * jsval).

Definition w (hundredths : Z) : jsval := JNum (num_of_decimal hundredths (-2)).

Definition AV_W : weights := [("N", w 85); ("A", w 62); ("L", w 55); ("P", w 20)].
Definition AC_W : weights := [("L", w 77); ("H", w 44)].
Definition UI_W : weights := [("N", w 85); ("R", w 62)].
Definition PR_U : weights := [("N", w 85); ("L", w 62); ("H", w 27)].
Definition PR_C : weights := [("N", w 85); ("L", w 68); ("H", w 50)].
Definition CIA_W : weights := [("N", w 0); ("L", w 22); ("H", w 56)].

(** [TABLE[key] ?? 0], as a number. *)
Definition weight (table : weights) (key : jsval) : num :=
  to_number (nullish (part table (to_str key)) (JInt 0)).

(** ** Base score *)

Definition computeCvssV3BaseScore (vector : string) : num :=
  let parts := parseCvssSegments vector in
  let av := weight AV_W (part parts "AV") in
  let ac := weight AC_W (part parts "AC") in
  let ui := weight UI_W (part parts "UI") in
  let s := nullish (part parts "S") (JStr "U") in
  let pr := weight (if strict_eq s (JStr "C") then PR_C else PR_U) (part parts "PR") in
  let c := weight CIA_W (part parts "C") in
  let i := weight CIA_W (part parts "I") in
  let a := weight CIA_W (part parts "A") in
  let one := num_of_Z 1 in
  let exploitability :=
    num_mul (num_mul (num_mul (num_mul (num_of_decimal 822 (-2)) av) ac) pr) ui in
  let iscBase :=
    num_sub one (num_mul (num_mul (num_sub one c) (num_sub one i)) (num_sub one a)) in
  if num_leb iscBase num_zero then num_zero
  else
    let impact :=
      if strict_eq s (JStr "U") then num_mul (num_of_decimal 642 (-2)) iscBase
      else num_sub
             (num_mul (num_of_decimal 752 (-2)) (num_sub iscBase (num_of_decimal 29 (-3))))
             (num_mul (num_of_decimal 325 (-2))
                (num_pow (num_sub iscBase (num_of_decimal 2 (-2))) 15)) in
    let baseScore :=
      if strict_eq s (JStr "U") then math_min (num_add impact exploitability) (num_of_Z 10)
      else math_min (num_mul (num_of_decimal 108 (-2)) (num_add impact exploitability))
             (num_of_Z 10) in
    let int := math_round (num_mul baseScore (num_of_Z 100000)) in
    num_div (math_ceil (num_div int (num_of_Z 10000))) (num_of_Z 10).

Definition extractNumericScore (scoreOrVector : string) : num :=
  let direct := parseFloat scoreOrVector in
  if negb (is_nan direct) && num_leb num_zero direct && num_leb direct (num_of_Z 10) then direct
  else if startsWith scoreOrVector "CVSS:3" then computeCvssV3BaseScore scoreOrVector
  else num_zero.

Definition cvssScoreToSeverity (score : num) : VulnSeverity :=
  if num_leb (num_of_Z 9) score then CRITICAL
  else if num_leb (num_of_Z 7) score then HIGH
  else if num_leb (num_of_Z 4) score then MEDIUM
  else if num_ltb num_zero score then LOW
  else NONE.

(** ** Picking a severity entry *)

Record OsvSeverityEntry := { se_type : string; se_score : string }.

Record picked_cvss := { pc_score : num; pc_version : string; pc_vector : option string }.

Definition pick_from (severities : list OsvSeverityEntry) (preferred : string)
  : option picked_cvss :=
  entry ← js_find (fun s => String.eqb (se_type s) preferred) severities;
  Some {| pc_score := extractNumericScore (se_score entry);
          pc_version := if String.eqb preferred "CVSS_V3" then "V3"
                        else if String.eqb preferred "CVSS_V4" then "V4" else "V2";
          pc_vector := Some (se_score entry) |}.

Definition pickBestCvss (severities : list OsvSeverityEntry) : picked_cvss :=
  match pick_from severities "CVSS_V3" with
  | Some p => p
  | None =>
      match pick_from severities "CVSS_V4" with
      | Some p => p
      | None =>
          match pick_from severities "CVSS_V2" with
          | Some p => p
          | None => {| pc_score := num_zero; pc_version := "NONE"; pc_vector := None |}
          end
      end
  end.

(** ** Exploitability metrics *)

Record exploitability := {
  x_attackVector : jsval; x_attackComplexity : jsval;
  x_privilegesRequired : jsval; x_userInteraction : jsval
}.

Definition avMap : list (string * jsval) :=
  [("N", JStr "NETWORK"); ("A", JStr "ADJACENT"); ("L", JStr "LOCAL"); ("P", JStr "PHYSICAL")].
Definition acMap : list (string * jsval) := [("L", JStr "LOW"); ("H", JStr "HIGH")].
Definition prMap : list (string * jsval) :=
  [("N", JStr "NONE"); ("L", JStr "LOW"); ("H", JStr "HIGH")].
Definition uiMap : list (string * jsval) := [("N", JStr "NONE"); ("R", JStr "REQUIRED")].

Definition metric_name (table : list (string * jsval)) (key : jsval) : jsval :=
  nullish (part table (to_str key)) JNull.

Definition parseCvssVector (vector : option string) : exploitability :=
  match vector with
  | Some v =>
      if nonempty v then
        let parts := parseCvssSegments v in
        {| x_attackVector := metric_name avMap (part parts "AV");
           x_attackComplexity := metric_name acMap (part parts "AC");
           x_privilegesRequired := metric_name prMap (part parts "PR");
           x_userInteraction := metric_name uiMap (part parts "UI") |}
      else {| x_attackVector := JNull; x_attackComplexity := JNull;
              x_privilegesRequired := JNull; x_userInteraction := JNull |}
  | None => {| x_attackVector := JNull; x_attackComplexity := JNull;
               x_privilegesRequired := JNull; x_userInteraction := JNull |}
  end.

(** ** The specification's base metrics and score, in exact arithmetic *)

Inductive metric_av := AV_N | AV_A | AV_L | AV_P.
Inductive metric_ac := AC_L | AC_H.
Inductive metric_pr := PR_N | PR_L | PR_H.
Inductive metric_ui := UI_N | UI_R.
Inductive metric_s := S_U | S_C.
Inductive metric_cia := I_N | I_L | I_H.

Record base_metrics := {
  b_av : metric_av; b_ac : metric_ac; b_pr : metric_pr; b_ui : metric_ui; b_s : metric_s;
  b_c : metric_cia; b_i : metric_cia; b_a : metric_cia
}.

Definition av_letter (m : metric_av) : string :=
  match m with AV_N => "N" | AV_A => "A" | AV_L => "L" | AV_P => "P" end.
Definition ac_letter (m : metric_ac) : string := match m with AC_L => "L" | AC_H => "H" end.
Definition pr_letter (m : metric_pr) : string :=
  match m with PR_N => "N" | PR_L => "L" | PR_H => "H" end.
Definition ui_letter (m : metric_ui) : string := match m with UI_N => "N" | UI_R => "R" end.
Definition s_letter (m : metric_s) : string := match m with S_U => "U" | S_C => "C" end.
Definition cia_letter (m : metric_cia) : string :=
  match m with I_N => "N" | I_L => "L" | I_H => "H" end.

(** The segments of a vector string of base metrics, in the specification's order. *)
Definition cvss_segments (minor : string) (m : base_metrics) : list string :=
  ["CVSS:3." +:+ minor; "AV:" +:+ av_letter (b_av m); "AC:" +:+ ac_letter (b_ac m);
   "PR:" +:+ pr_letter (b_pr m); "UI:" +:+ ui_letter (b_ui m); "S:" +:+ s_letter (b_s m);
   "C:" +:+ cia_letter (b_c m); "I:" +:+ cia_letter (b_i m); "A:" +:+ cia_letter (b_a m)].

Definition cvss_vector (minor : string) (m : base_metrics) : string :=
  join "/" (cvss_segments minor m).

Section specification.
Local Open Scope Q_scope.

Definition spec_av (m : metric_av) : Q :=
  match m with AV_N => 85#100 | AV_A => 62#100 | AV_L => 55#100 | AV_P => 20#100 end.
Definition spec_ac (m : metric_ac) : Q := match m with AC_L => 77#100 | AC_H => 44#100 end.
Definition spec_pr (s : metric_s) (m : metric_pr) : Q :=
  match m, s with
  | PR_N, _ => 85#100
  | PR_L, S_U => 62#100 | PR_L, S_C => 68#100
  | PR_H, S_U => 27#100 | PR_H, S_C => 50#100
  end.
Definition spec_ui (m : metric_ui) : Q := match m with UI_N => 85#100 | UI_R => 62#100 end.
Definition spec_cia (m : metric_cia) : Q :=
  match m with I_N => 0 | I_L => 22#100 | I_H => 56#100 end.

Definition spec_impact (s : metric_s) (c i a : metric_cia) : Q :=
  let iss := Qred (1 - (1 - spec_cia c) * (1 - spec_cia i) * (1 - spec_cia a)) in
  Qred match s with
       | S_U => (642#100) * iss
       | S_C => (752#100) * (iss - (29#1000)) - (325#100) * (iss - (2#100)) ^ 15
       end.

Definition spec_exploitability (s : metric_s) (av : metric_av) (ac : metric_ac) (pr : metric_pr)
    (ui : metric_ui) : Q :=
  Qred ((822#100) * spec_av av * spec_ac ac * spec_pr s pr * spec_ui ui).

(** Ten times the score, [Roundup] being the smallest tenth not below its argument. *)
Definition spec_roundup (s : metric_s) (impact expl : Q) : Z :=
  if Qle_bool impact 0 then 0%Z
  else
    let total := match s with S_U => impact + expl | S_C => (108#100) * (impact + expl) end in
    Qceiling (10 * (if Qle_bool total 10 then total else 10)).

(** Ten times the base score of section 7.1 of the specification. *)
Definition spec_tenths (m : base_metrics) : Z :=
  spec_roundup (b_s m) (spec_impact (b_s m) (b_c m) (b_i m) (b_a m))
    (spec_exploitability (b_s m) (b_av m) (b_ac m) (b_pr m) (b_ui m)).
End specification.

(** ** The code's score of a base vector, staged as the specification's is *)

Lemma cvss_segments_no_slash minor m :
  no_char "/" minor = true -> Forall (fun s => no_char "/" s = true) (cvss_segments minor m).
Proof.
  intros Hm. destruct m as [av ac pr ui s c i a]. unfold cvss_segments. cbn [b_av b_ac b_pr b_ui b_s b_c b_i b_a].
  constructor; [by rewrite no_char_app, Hm|].
  repeat (constructor; [match goal with |- context [_ +:+ _ ?x] => by destruct x end|]).
  constructor.
Qed.

(** What the code reads off a base vector. *)
Definition cvss_parts (minor : string) (m : base_metrics) : list (string * jsval) :=
  [("CVSS", JStr ("3." +:+ minor)); ("AV", JStr (av_letter (b_av m)));
   ("AC", JStr (ac_letter (b_ac m))); ("PR", JStr (pr_letter (b_pr m)));
   ("UI", JStr (ui_letter (b_ui m))); ("S", JStr (s_letter (b_s m)));
   ("C", JStr (cia_letter (b_c m))); ("I", JStr (cia_letter (b_i m)));
   ("A", JStr (cia_letter (b_a m)))].

Lemma parse_cvss_vector minor m :
  no_char "/" minor = true -> parseCvssSegments (cvss_vector minor m) = cvss_parts minor m.
Proof.
  intros Hm. unfold parseCvssSegments, cvss_vector.
  rewrite split_join; [|done|by apply cvss_segments_no_slash]. reflexivity.
Qed.

Definition code_impact (s : metric_s) (c i a : metric_cia) : option num :=
  let one := num_of_Z 1 in
  let wt m := weight CIA_W (JStr (cia_letter m)) in
  let iscBase :=
    num_sub one (num_mul (num_mul (num_sub one (wt c)) (num_sub one (wt i))) (num_sub one (wt a))) in
  if num_leb iscBase num_zero then None
  else Some match s with
       | S_U => num_mul (num_of_decimal 642 (-2)) iscBase
       | S_C => num_sub
                  (num_mul (num_of_decimal 752 (-2)) (num_sub iscBase (num_of_decimal 29 (-3))))
                  (num_mul (num_of_decimal 325 (-2))
                     (num_pow (num_sub iscBase (num_of_decimal 2 (-2))) 15))
       end.

Definition code_exploitability (s : metric_s) (av : metric_av) (ac : metric_ac) (pr : metric_pr)
    (ui : metric_ui) : num :=
  num_mul (num_mul (num_mul (num_mul (num_of_decimal 822 (-2))
    (weight AV_W (JStr (av_letter av)))) (weight AC_W (JStr (ac_letter ac))))
    (weight match s with S_C => PR_C | S_U => PR_U end (JStr (pr_letter pr))))
    (weight UI_W (JStr (ui_letter ui))).

Definition code_roundup (s : metric_s) (impact : option num) (expl : num) : num :=
  match impact with
  | None => num_zero
  | Some impact =>
    let total := num_add impact expl in
    let baseScore :=
      match s with
      | S_U => math_min total (num_of_Z 10)
      | S_C => math_min (num_mul (num_of_decimal 108 (-2)) total) (num_of_Z 10)
      end in
    let int := math_round (num_mul baseScore (num_of_Z 100000)) in
    num_div (math_ceil (num_div int (num_of_Z 10000))) (num_of_Z 10)
  end.

Lemma part_cvss_parts minor m :
  let p := part (cvss_parts minor m) in
  p "AV" = JStr (av_letter (b_av m)) /\ p "AC" = JStr (ac_letter (b_ac m)) /\
  p "PR" = JStr (pr_letter (b_pr m)) /\ p "UI" = JStr (ui_letter (b_ui m)) /\
  p "S" = JStr (s_letter (b_s m)) /\ p "C" = JStr (cia_letter (b_c m)) /\
  p "I" = JStr (cia_letter (b_i m)) /\ p "A" = JStr (cia_letter (b_a m)).
Proof. repeat split. Qed.

Lemma computeCvssV3BaseScore_vector minor m :
  no_char "/" minor = true ->
  computeCvssV3BaseScore (cvss_vector minor m)
  = code_roundup (b_s m) (code_impact (b_s m) (b_c m) (b_i m) (b_a m))
      (code_exploitability (b_s m) (b_av m) (b_ac m) (b_pr m) (b_ui m)).
Proof.
  intros Hm. unfold computeCvssV3BaseScore. rewrite parse_cvss_vector by done.
  destruct (part_cvss_parts minor m) as (-> & -> & -> & -> & -> & -> & -> & ->).
  destruct m as [av ac pr ui s c i a]; cbn [b_av b_ac b_pr b_ui b_s b_c b_i b_a].
  unfold code_exploitability, code_impact, code_roundup. cbv zeta.
  generalize (weight AV_W (JStr (av_letter av))) (weight AC_W (JStr (ac_letter ac)))
    (weight UI_W (JStr (ui_letter ui))) (weight CIA_W (JStr (cia_letter c)))
    (weight CIA_W (JStr (cia_letter i))) (weight CIA_W (JStr (cia_letter a))).
  intros wav wac wui wc wi wa.
  assert (HU : strict_eq (JStr "U") (JStr "U") = true) by reflexivity.
  assert (HC : strict_eq (JStr "C") (JStr "U") = false) by reflexivity.
  assert (HUC : strict_eq (JStr "U") (JStr "C") = false) by reflexivity.
  assert (HCC : strict_eq (JStr "C") (JStr "C") = true) by reflexivity.
  destruct s; cbn [s_letter nullish is_nullish]; rewrite ?HU, ?HC, ?HUC, ?HCC;
    [generalize (weight PR_U (JStr (pr_letter pr)))|generalize (weight PR_C (JStr (pr_letter pr)))];
    intros wpr; by destruct (num_leb _ num_zero).
Qed.

(** ** The finite comparison *)

Definition all_impacts : list (metric_cia * metric_cia * metric_cia) :=
  c ← [I_N; I_L; I_H]; i ← [I_N; I_L; I_H]; a ← [I_N; I_L; I_H]; [(c, i, a)].

Definition all_exploits : list (metric_av * metric_ac * metric_pr * metric_ui) :=
  av ← [AV_N; AV_A; AV_L; AV_P]; ac ← [AC_L; AC_H]; pr ← [PR_N; PR_L; PR_H];
  ui ← [UI_N; UI_R]; [(av, ac, pr, ui)].

Definition impact_pairs (s : metric_s) : list (option num * Q) :=
  (fun '(c, i, a) => (code_impact s c i a, spec_impact s c i a)) <$> all_impacts.

Definition exploit_pairs (s : metric_s) : list (num * Q) :=
  (fun '(av, ac, pr, ui) => (code_exploitability s av ac pr ui, spec_exploitability s av ac pr ui))
    <$> all_exploits.

(** The specification's qualitative rating of a score in tenths. *)
Definition spec_rating (tenths : Z) : VulnSeverity :=
  if (90 <=? tenths)%Z then CRITICAL else if (70 <=? tenths)%Z then HIGH
  else if (40 <=? tenths)%Z then MEDIUM else if (1 <=? tenths)%Z then LOW else NONE.

Definition scores_agree (s : metric_s) (i : option num * Q) (e : num * Q) : bool :=
  let code := code_roundup s i.1 e.1 in
  let spec := spec_roundup s i.2 e.2 in
  bool_decide (code = num_of_decimal spec (-1))
  && bool_decide (cvssScoreToSeverity code = spec_rating spec).

Lemma all_scores_agree s :
  forallb (fun i => forallb (scores_agree s i) (exploit_pairs s)) (impact_pairs s) = true.
Proof. destruct s; vm_compute; reflexivity. Qed.

Lemma all_impacts_complete c i a : (c, i, a) ∈ all_impacts.
Proof. destruct c, i, a; repeat first [apply list_elem_of_here | apply list_elem_of_further]. Qed.

Lemma all_exploits_complete av ac pr ui : (av, ac, pr, ui) ∈ all_exploits.
Proof.
  destruct av, ac, pr, ui; repeat first [apply list_elem_of_here | apply list_elem_of_further].
Qed.

Lemma base_scores_agree m :
  let code := code_roundup (b_s m) (code_impact (b_s m) (b_c m) (b_i m) (b_a m))
                (code_exploitability (b_s m) (b_av m) (b_ac m) (b_pr m) (b_ui m)) in
  code = num_of_decimal (spec_tenths m) (-1) /\ cvssScoreToSeverity code = spec_rating (spec_tenths m).
Proof.
  destruct m as [av ac pr ui s c i a]; cbn [b_av b_ac b_pr b_ui b_s b_c b_i b_a].
  assert (H := all_scores_agree s). rewrite forallb_elem_of in H.
  specialize (H _ (list_elem_of_fmap_2 _ _ _ (all_impacts_complete c i a))).
  cbv beta iota in H. rewrite forallb_elem_of in H.
  specialize (H _ (list_elem_of_fmap_2 _ _ _ (all_exploits_complete av ac pr ui))).
  apply andb_prop in H as [H1 H2]. apply bool_decide_eq_true in H1, H2. by split.
Qed.

(** A string that does not start like a number is scored only as a v3 vector. *)
Lemma extractNumericScore_vector v :
  is_nan (parseFloat v) = true ->
  extractNumericScore v = if startsWith v "CVSS:3" then computeCvssV3BaseScore v else num_zero.
Proof. unfold extractNumericScore. by intros ->. Qed.

Lemma pick_from_elem l preferred p :
  pick_from l preferred = Some p ->
  exists e, e ∈ l /\ se_type e = preferred /\ pc_score p = extractNumericScore (se_score e) /\
            pc_vector p = Some (se_score e).
Proof.
  unfold pick_from. intros H. apply bind_Some in H as (e & He & [= <-]).
  apply js_find_some in He as [He Ht]. apply String.eqb_eq in Ht. by exists e.
Qed.

Lemma pick_from_none l preferred :
  (forall e, e ∈ l -> se_type e <> preferred) -> pick_from l preferred = None.
Proof.
  intros H. destruct (pick_from l preferred) as [p|] eqn:E; [|done].
  apply pick_from_elem in E as (e & He & Ht & _). by destruct (H e He).
Qed.

(** ** Properties *)

(** C40: the v3 base score is exact: for every base vector of CVSS 3.x, the score
    computed in double arithmetic is the double nearest to the specification's
    base score computed in exact rationals (with its roundup to one decimal), and
    the severity derived from it is the specification's qualitative rating. *)
Theorem cvss_v3_score_exact minor m :
  no_char "/" minor = true ->
  extractNumericScore (cvss_vector minor m) = num_of_decimal (spec_tenths m) (-1) /\
  cvssScoreToSeverity (extractNumericScore (cvss_vector minor m)) = spec_rating (spec_tenths m).
Proof.
  intros Hm.
  assert (He : extractNumericScore (cvss_vector minor m) = computeCvssV3BaseScore (cvss_vector minor m))
    by (rewrite extractNumericScore_vector; reflexivity).
  rewrite He, computeCvssV3BaseScore_vector by done. apply base_scores_agree.
Qed.

(** The remote code execution vector scores 9.8. *)
Lemma cvss_v3_score_exact_witness :
  let m := {| b_av := AV_N; b_ac := AC_L; b_pr := PR_N; b_ui := UI_N; b_s := S_U;
              b_c := I_H; b_i := I_H; b_a := I_H |} in
  cvss_vector "1" m = "CVSS:3.1/AV:N/AC:L/PR:N/UI:N/S:U/C:H/I:H/A:H" /\
  extractNumericScore (cvss_vector "1" m) = num_of_decimal 98 (-1).
Proof.
  intros m. split; [reflexivity|].
  exact (proj1 (cvss_v3_score_exact "1" m eq_refl)).
Defined.

(** Advisories without a v3 entry are unrated: when no severity entry is a
    CVSS_V3 one and each score is a v2 or v4 vector string, the score is 0 and the
    severity NONE, whatever the vector says. *)
Theorem v2_v4_vectors_unrated severities :
  (forall e, e ∈ severities ->
     se_type e <> "CVSS_V3" /\ is_nan (parseFloat (se_score e)) = true /\
     startsWith (se_score e) "CVSS:3" = false) ->
  pc_score (pickBestCvss severities) = num_zero /\
  cvssScoreToSeverity (pc_score (pickBestCvss severities)) = NONE.
Proof.
  intros H. assert (Hz : pc_score (pickBestCvss severities) = num_zero); [|by rewrite Hz].
  unfold pickBestCvss. rewrite pick_from_none by (intros e He; apply (H e He)).
  assert (Hp : forall p t, pick_from severities t = Some p -> pc_score p = num_zero).
  { intros p t (e & He & _ & -> & _)%pick_from_elem. destruct (H e He) as (_ & Hn & Hs).
    by rewrite extractNumericScore_vector, Hs by done. }
  destruct (pick_from _ "CVSS_V4") eqn:E4; [by eapply Hp|].
  destruct (pick_from _ "CVSS_V2") eqn:E2; [by eapply Hp|done].
Qed.

Lemma v2_v4_vectors_unrated_witness :
  cvssScoreToSeverity (pc_score (pickBestCvss
    [{| se_type := "CVSS_V4";
        se_score := "CVSS:4.0/AV:N/AC:L/AT:N/PR:N/UI:N/VC:H/VI:H/VA:H/SC:H/SI:H/SA:H" |}])) = NONE.
Proof.
  refine (proj2 (v2_v4_vectors_unrated _ _)).
  intros e He. apply list_elem_of_singleton in He as ->. repeat split; discriminate.
Defined.
