(* ===== verification/OsvParse.v ===== *)
(** * OSV responses (services/api/src/connectors/osv/parse.ts)

    From the advisories of an OSV query to findings and a vulnerability summary:
    severity from the best CVSS entry, fix versions of the queried package only,
    references, aliases, aggregation.  The response is taken at its declared wire
    types; the npm package [semver] is a parameter. *)

From Stdlib Require Import Ascii.
From S2P Require Import Prelude JsString JsNum JsValue JsDate ConnectorTypes Presentation Cvss.
Local Open Scope Z_scope.
Local Open Scope string_scope.

(** ** The library [semver] *)

(** [semver.valid(semver.coerce(v))] and [semver.gt]. *)
Class Semver : Type := {
  semver_clean : string -> option string;
  semver_gt : string -> string -> bool
}.

(** Its documented precedence: a strict weak order on versions. *)
Class LawfulSemver `{Semver} : Prop := {
  semver_gt_irrefl v : semver_gt v v = false;
  semver_gt_trans a b c : semver_gt a b = true -> semver_gt b c = true -> semver_gt a c = true;
  semver_gt_negtrans a b c : semver_gt a b = false -> semver_gt b c = false -> semver_gt a c = false
}.

(** ** Wire types *)

Record OsvRangeEvent := { introduced : option string; fixed : option string; last_affected : option string }.
Record OsvRange := { range_type : string; range_events : list OsvRangeEvent }.
Record OsvAffected := {
  affected_ecosystem : string; affected_name : string; affected_ranges : option (list OsvRange)
}.
Record OsvReference := { ref_type : string; ref_url : string }.

Record OsvVuln := {
  o_id : string; o_aliases : option (list string); o_related : option (list string);
  o_summary : option string; o_severity : option (list OsvSeverityEntry);
  o_affected : option (list OsvAffected); o_references : option (list OsvReference);
  o_cwe_ids : option (option (list string));
  o_published : option string; o_modified : option string; o_withdrawn : option string
}.

Record OsvQueryResponse := { vulns : option (list OsvVuln) }.

Definition OSV_ECOSYSTEM_NAMES : list (string * jsval) := [("npm", JStr "npm"); ("pypi", JStr "PyPI")].

(** [OSV_ECOSYSTEM_NAMES[ecosystem.toLowerCase()] ?? ecosystem] *)
Definition osv_ecosystem_name (ecosystem : string) : jsval :=
  nullish (part OSV_ECOSYSTEM_NAMES (toLowerCase ecosystem)) (JStr ecosystem).

(** ** Fix intelligence *)

Record fix_info := { fi_version : option string; fi_last_affected : bool }.

Definition scan_event (st : fix_info) (event : OsvRangeEvent) : fix_info :=
  {| fi_version := match present (fixed event), fi_version st with
                   | Some v, None => Some v
                   | _, _ => fi_version st
                   end;
     fi_last_affected := fi_last_affected st || bool_decide (present (last_affected event) <> None) |}.

Definition is_version_range (range : OsvRange) : bool :=
  String.eqb (range_type range) "SEMVER" || String.eqb (range_type range) "ECOSYSTEM".

Definition scan_range (st : fix_info) (range : OsvRange) : fix_info :=
  if is_version_range range then foldl scan_event st (range_events range) else st.

Definition is_queried (pkg : string) (osvEcosystem : jsval) (a : OsvAffected) : bool :=
  strict_eq (JStr (affected_ecosystem a)) osvEcosystem && String.eqb (affected_name a) pkg.

Definition scan_affected (pkg : string) (osvEcosystem : jsval) (st : fix_info) (a : OsvAffected)
  : fix_info :=
  if is_queried pkg osvEcosystem a then foldl scan_range st (default [] (affected_ranges a)) else st.

(** [fixVersion] and [fixAvailable]. *)
Definition extractFixInfo (affected : option (list OsvAffected)) (pkg : string) (osvEcosystem : jsval)
  : option string * bool :=
  match affected with
  | None => (None, false)
  | Some l =>
      let st := foldl (scan_affected pkg osvEcosystem)
                  {| fi_version := None; fi_last_affected := false |} l in
      (fi_version st, bool_decide (fi_version st <> None) || fi_last_affected st)
  end.

Definition extractReferenceUrls (references : option (list OsvReference)) (type : string) : list string :=
  map ref_url (List.filter (fun r => String.eqb (ref_type r) type) (default [] references)).

(** ** One advisory *)

Record ParsedVuln := {
  v_osvId : string; v_aliases : list string; v_summary : option string; v_severity : VulnSeverity;
  v_cvssV3Score : option num; v_cvssV3Vector : option string;
  v_cvssV4Score : option num; v_cvssV4Vector : option string;
  v_exploitability : exploitability;
  v_fixVersion : option string; v_fixAvailable : bool; v_fixReferenceUrls : list string;
  v_cweIds : list string; v_hasExploitEvidence : bool; v_evidenceUrls : list string;
  v_publishedAt : option date; v_modifiedAt : option date; v_withdrawnAt : option date;
  v_rawVuln : OsvVuln
}.

(** [s ? new Date(s) : null] *)
Definition optional_date (s : option string) : option date := date_parse <$> present s.

Definition parseSingleVuln (vuln : OsvVuln) (pkg : string) (osvEcosystem : jsval) : ParsedVuln :=
  let cvss := pickBestCvss (default [] (o_severity vuln)) in
  let is_v name := String.eqb (pc_version cvss) name in
  let cvssV3Vec := if is_v "V3" then pc_vector cvss else None in
  let cvssV4Vec := if is_v "V4" then pc_vector cvss else None in
  let fix_ := extractFixInfo (o_affected vuln) pkg osvEcosystem in
  let allIds := set_of (o_id vuln :: default [] (o_aliases vuln)) in
  {| v_osvId := o_id vuln;
     v_aliases := List.filter (fun id => negb (String.eqb id (o_id vuln))) allIds;
     v_summary := o_summary vuln;
     v_severity := cvssScoreToSeverity (pc_score cvss);
     v_cvssV3Score := if is_v "V3" then Some (pc_score cvss) else None;
     v_cvssV3Vector := cvssV3Vec;
     v_cvssV4Score := if is_v "V4" then Some (pc_score cvss) else None;
     v_cvssV4Vector := cvssV4Vec;
     v_exploitability :=
       parseCvssVector (match cvssV3Vec with Some v => Some v | None => cvssV4Vec end);
     v_fixVersion := fix_.1;
     v_fixAvailable := fix_.2;
     v_fixReferenceUrls := extractReferenceUrls (o_references vuln) "FIX";
     v_cweIds := default [] (default None (o_cwe_ids vuln));
     v_hasExploitEvidence :=
       existsb (fun r => String.eqb (ref_type r) "EVIDENCE") (default [] (o_references vuln));
     v_evidenceUrls := extractReferenceUrls (o_references vuln) "EVIDENCE";
     v_publishedAt := optional_date (o_published vuln);
     v_modifiedAt := optional_date (o_modified vuln);
     v_withdrawnAt := optional_date (o_withdrawn vuln);
     v_rawVuln := vuln |}.

(** ** The highest fix version *)

(** [cleaned.reduce((best, cur) => gt(cur, best) ? cur : best)] on the pairs of a
    version and its cleaned form. *)
Definition higher `{Semver} (best cur : string * string) : string * string :=
  if semver_gt cur.2 best.2 then cur else best.

Definition pickHighestVersion `{Semver} (versions : list string) : option string :=
  match versions with
  | [] => None
  | [v] => Some v
  | v :: rest =>
      match mapM (fun v => c ← semver_clean v; Some (v, c)) versions with
      | Some (c :: cs) => Some (foldl higher c cs).1
      | _ => Some (List.last rest v)
      end
  end.

(** ** The whole response *)

Definition strs (l : list string) : jsval := JArr (map JStr l).

Definition osv_finding (v : ParsedVuln) : res ConnectorFinding :=
  let x := v_exploitability v in
  let! withdrawn := iso_or_null (v_withdrawnAt v) in
  Ok {| findingId := v_osvId v; f_severity := v_severity v; f_title := v_summary v;
        publishedAt := v_publishedAt v;
        attributes :=
          [("osv_id", JStr (v_osvId v)); ("aliases", strs (v_aliases v));
           ("cvss_v3_score", num_or_null (v_cvssV3Score v));
           ("cvss_v3_vector", str_or_null (v_cvssV3Vector v));
           ("cvss_v4_score", num_or_null (v_cvssV4Score v));
           ("cvss_v4_vector", str_or_null (v_cvssV4Vector v));
           ("attack_vector", x_attackVector x); ("attack_complexity", x_attackComplexity x);
           ("privileges_required", x_privilegesRequired x);
           ("user_interaction", x_userInteraction x);
           ("fix_version", str_or_null (v_fixVersion v)); ("fix_available", JBool (v_fixAvailable v));
           ("fix_reference_urls", strs (v_fixReferenceUrls v)); ("cwe_ids", strs (v_cweIds v));
           ("has_exploit_evidence", JBool (v_hasExploitEvidence v));
           ("evidence_urls", strs (v_evidenceUrls v)); ("withdrawn_at", withdrawn)] |}.

Definition more_severe (max_ : VulnSeverity) (v : ParsedVuln) : VulnSeverity :=
  if (SEVERITY_INDEX (v_severity v) <? SEVERITY_INDEX max_)%Z then v_severity v else max_.

Definition parseOsvResponse `{Semver} (raw : OsvQueryResponse) (pkg ecosystem version : string)
  : res ConnectorResult :=
  let parsedVulns :=
    map (fun v => parseSingleVuln v pkg (osv_ecosystem_name ecosystem)) (default [] (vulns raw)) in
  let fixVersions := omap (fun v => present (v_fixVersion v)) parsedVulns in
  let summary_ :=
    {| maxSeverity := foldl more_severe NONE parsedVulns;
       findingCount := Z.of_nat (length parsedVulns);
       fixAvailable := existsb v_fixAvailable parsedVulns;
       bestFixVersion := pickHighestVersion fixVersions;
       severityCounts := Some (severity_counts v_severity parsedVulns) |} in
  let! findings_ := map_res osv_finding parsedVulns in
  Ok {| findings := findings_;
        summary := Some {| s_risk := None; s_findings := None; s_remediation := None;
                           s_vulnerability := Some summary_; s_intelligence := None |};
        ttlSeconds := None; legacy := None |}.

(** ** Lemmas *)

Lemma foldl_more_severe l m :
  let r := foldl more_severe m l in
  SEVERITY_INDEX r <= SEVERITY_INDEX m /\
  (forall v, v ∈ l -> SEVERITY_INDEX r <= SEVERITY_INDEX (v_severity v)) /\
  (r = m \/ exists v, v ∈ l /\ v_severity v = r).
Proof.
  revert m; induction l as [|v l IH]; intros m; cbn.
  - split; [lia|]. split; [set_solver|by left].
  - destruct (IH (more_severe m v)) as (Hm & Hl & Hr).
    assert (Hv : SEVERITY_INDEX (more_severe m v) <= SEVERITY_INDEX m /\
                 SEVERITY_INDEX (more_severe m v) <= SEVERITY_INDEX (v_severity v) /\
                 (more_severe m v = m \/ more_severe m v = v_severity v)).
    { unfold more_severe. case_match; rewrite ?Z.ltb_lt, ?Z.ltb_ge in *; split_and!; auto; lia. }
    destruct Hv as (H1 & H2 & H3). split; [lia|]. split.
    + intros w [->|Hw]%elem_of_cons; [lia|auto].
    + destruct Hr as [Hr|(w & Hw & Hr)]; [|right; exists w; set_solver].
      destruct H3 as [H3|H3]; [left; congruence|].
      right; exists v. split; [apply list_elem_of_here|congruence].
Qed.

(** What a finding says of the advisory it was built from. *)
Lemma osv_finding_ok v f :
  osv_finding v = Ok f ->
  f_severity f = v_severity v /\
  own "fix_version" (attributes f) = Some (str_or_null (v_fixVersion v)) /\
  own "fix_available" (attributes f) = Some (JBool (v_fixAvailable v)).
Proof. unfold osv_finding. intros H. res_inv. split_and!; reflexivity. Qed.

Lemma osv_finding_is_ok v :
  is_ok (osv_finding v) = negb (bool_decide (v_withdrawnAt v = Some None)).
Proof.
  unfold osv_finding, iso_or_null. destruct (v_withdrawnAt v) as [[t|]|]; reflexivity.
Qed.

Lemma count_severity_map {A B} (f : A -> VulnSeverity) (g : B -> VulnSeverity) l k s :
  Forall2 (fun x y => g y = f x) l k -> count_severity g k s = count_severity f l s.
Proof.
  intros H. unfold count_severity. f_equal.
  induction H as [|x y l k Hxy H IH]; cbn; [done|]. rewrite Hxy.
  destruct (severity_eqb (f x) s); cbn; by rewrite IH.
Qed.

Lemma map_res_is_ok {A B} (f : A -> res B) l : is_ok (map_res f l) = forallb (fun x => is_ok (f x)) l.
Proof. induction l as [|x l IH]; cbn; [done|]. destruct (f x); cbn; [|done]. rewrite <- IH. by destruct (map_res f l). Qed.

Lemma Forall2_severity_counts {A B} (f : A -> VulnSeverity) (g : B -> VulnSeverity) l k :
  Forall2 (fun x y => g y = f x) l k -> severity_counts g k = severity_counts f l.
Proof. intros H. unfold severity_counts. by rewrite !(count_severity_map f g l k) by done. Qed.

(** *** Fix scanning as a comprehension *)

Definition relevant_events (pkg : string) (osvEcosystem : jsval) (l : list OsvAffected)
  : list OsvRangeEvent :=
  a ← List.filter (is_queried pkg osvEcosystem) l;
  r ← List.filter is_version_range (default [] (affected_ranges a));
  range_events r.

Lemma scan_affected_events pkg eco l st :
  foldl (scan_affected pkg eco) st l = foldl scan_event st (relevant_events pkg eco l).
Proof.
  unfold relevant_events. revert st; induction l as [|a l IH]; intros st; cbn; [done|].
  unfold scan_affected at 2. destruct (is_queried pkg eco a); cbn; [|by rewrite IH].
  rewrite foldl_app, <- IH. f_equal. generalize (default [] (affected_ranges a)).
  intros rs. clear -st. revert st; induction rs as [|r rs IH]; intros st; cbn; [done|].
  unfold scan_range at 2. destruct (is_version_range r); cbn; [by rewrite foldl_app|done].
Qed.

Lemma scan_event_spec evs st :
  let r := foldl scan_event st evs in
  fi_version r = match fi_version st with
                 | Some v => Some v
                 | None => head (omap (fun e => present (fixed e)) evs)
                 end /\
  fi_last_affected r = fi_last_affected st
    || existsb (fun e => bool_decide (present (last_affected e) <> None)) evs.
Proof.
  revert st; induction evs as [|e evs IH]; intros st; cbn.
  - rewrite orb_false_r. by destruct (fi_version st).
  - destruct (IH (scan_event st e)) as [-> ->]. cbn. rewrite <- orb_assoc. split; [|done].
    destruct (fi_version st), (present (fixed e)); reflexivity.
Qed.

(** *** The highest version *)

Section highest.
Context `{LawfulSemver}.

Lemma higher_fold cs best :
  let r := foldl higher best cs in
  r ∈ best :: cs /\ forall c, c ∈ best :: cs -> semver_gt c.2 r.2 = false.
Proof.
  revert best; induction cs as [|c cs IH]; intros best; cbn.
  - split; [set_solver|]. intros x ->%list_elem_of_singleton. apply semver_gt_irrefl.
  - destruct (IH (higher best c)) as [Hin Hmax].
    assert (Hh : (higher best c = best \/ higher best c = c) /\
                 semver_gt best.2 (higher best c).2 = false /\ semver_gt c.2 (higher best c).2 = false).
    { unfold higher. destruct (semver_gt c.2 best.2) eqn:E.
      - split_and!; [by right| |apply semver_gt_irrefl].
        destruct (semver_gt best.2 c.2) eqn:E2; [|done].
        rewrite <- (semver_gt_irrefl c.2). symmetry. by eapply semver_gt_trans.
      - split_and!; [by left|apply semver_gt_irrefl|done]. }
    destruct Hh as (Hb & H1 & H2).
    assert (Hr := Hmax _ (list_elem_of_here _ _)). split.
    + apply elem_of_cons in Hin as [->|Hin]; [|by do 2 apply list_elem_of_further].
      destruct Hb as [->| ->]; [apply list_elem_of_here|apply list_elem_of_further, list_elem_of_here].
    + intros x [->|[->|Hx]%elem_of_cons]%elem_of_cons; [by eapply semver_gt_negtrans..|].
      by apply Hmax, list_elem_of_further.
Qed.

Lemma mapM_clean versions cs :
  mapM (fun v => c ← semver_clean v; Some (v, c)) versions = Some cs ->
  versions = cs.*1 /\ Forall (fun p => semver_clean p.1 = Some p.2) cs.
Proof.
  intros Hm%mapM_Some. induction Hm as [|v p vs cs Hv _ [-> IH]]; [done|].
  apply bind_Some in Hv as (c & Hc & [= <-]). split; [done|]. by constructor.
Qed.

Lemma pickHighestVersion_max versions best :
  (forall v, v ∈ versions -> is_Some (semver_clean v)) ->
  pickHighestVersion versions = Some best ->
  best ∈ versions /\
  forall v c cb, v ∈ versions -> semver_clean v = Some c -> semver_clean best = Some cb ->
                 semver_gt c cb = false.
Proof.
  intros Hall Hp. destruct versions as [|v0 [|v1 vs]]; [done| |].
  - injection Hp as <-. split; [set_solver|]. intros v c cb ->%list_elem_of_singleton Hc Hcb.
    rewrite Hc in Hcb. injection Hcb as ->. apply semver_gt_irrefl.
  - unfold pickHighestVersion in Hp. revert Hp. generalize (List.last (v1 :: vs) v0).
    intros dflt. assert (Hne : v0 :: v1 :: vs <> []) by done. revert Hall Hne.
    generalize (v0 :: v1 :: vs). intros l Hall Hne Hp.
    destruct (mapM _ l) as [cs|] eqn:Hm.
    2:{ exfalso. destruct (mapM_is_Some_2 (fun v => c ← semver_clean v; Some (v, c)) l) as [? ?];
          [|congruence]. apply Forall_forall. intros v Hv. destruct (Hall v Hv) as [c Hc].
        exists (v, c). cbn. by rewrite Hc. }
    apply mapM_clean in Hm as [Hl Hcs]. destruct cs as [|c0 cs];
      [done|cbn in Hp; injection Hp as <-].
    destruct (higher_fold cs c0) as [Hin Hmax]. rewrite Forall_forall in Hcs. split.
    + rewrite Hl. by apply list_elem_of_fmap_2.
    + intros v c cb Hv Hc Hcb. rewrite Hl in Hv. apply list_elem_of_fmap in Hv as (p & -> & Hp).
      rewrite (Hcs p Hp) in Hc. injection Hc as <-.
      rewrite (Hcs _ Hin) in Hcb. injection Hcb as <-. by apply Hmax.
Qed.
End highest.

(** A result's vulnerability block. *)
Definition vulnerability_of (r : ConnectorResult) : option VulnerabilitySummary :=
  s ← summary r; s_vulnerability s.

Lemma parseOsvResponse_ok `{Semver} raw pkg eco ver r :
  parseOsvResponse raw pkg eco ver = Ok r ->
  let parsed := map (fun v => parseSingleVuln v pkg (osv_ecosystem_name eco)) (default [] (vulns raw)) in
  exists s, vulnerability_of r = Some s /\
    Forall2 (fun v f => osv_finding v = Ok f) parsed (findings r) /\
    maxSeverity s = foldl more_severe NONE parsed /\
    findingCount s = Z.of_nat (length parsed) /\
    fixAvailable s = existsb v_fixAvailable parsed /\
    bestFixVersion s = pickHighestVersion (omap (fun v => present (v_fixVersion v)) parsed) /\
    severityCounts s = Some (severity_counts v_severity parsed).
Proof.
  unfold parseOsvResponse. cbv zeta. intros H1. res_inv. eexists.
  split; [reflexivity|]. split; [by apply map_res_ok_forall2|]. done.
Qed.

(** A small semver library: three numeric components. *)
Definition version_key (v : string) : Z :=
  match map (fun s => (read_digits s 0 0).1.1) (split "."%char v) with
  | [a; b; c] => ((a * 1000000 + b) * 1000000 + c)%Z
  | _ => 0
  end.

Definition numeric_semver : Semver :=
  {| semver_clean v := Some v; semver_gt a b := (version_key b <? version_key a)%Z |}.

Lemma numeric_semver_lawful : @LawfulSemver numeric_semver.
Proof. constructor; cbn; intros; rewrite ?Z.ltb_lt, ?Z.ltb_ge in *; lia. Qed.

Definition example_vuln (id vector fix_ : string) : OsvVuln :=
  {| o_id := id; o_aliases := Some [id; "CVE-2024-1"]; o_related := None; o_summary := None;
     o_severity := Some [{| se_type := "CVSS_V3"; se_score := vector |}];
     o_affected := Some
       [{| affected_ecosystem := "npm"; affected_name := "lodash-compat";
           affected_ranges := Some [{| range_type := "SEMVER"; range_events :=
             [{| introduced := None; fixed := Some "9.9.9"; last_affected := None |}] |}] |};
        {| affected_ecosystem := "npm"; affected_name := "lodash";
           affected_ranges := Some [{| range_type := "SEMVER"; range_events :=
             [{| introduced := None; fixed := Some fix_; last_affected := None |}] |}] |}];
     o_references := None; o_cwe_ids := None; o_published := None; o_modified := None;
     o_withdrawn := None |}.

Definition example_response : OsvQueryResponse :=
  {| vulns := Some [example_vuln "GHSA-1" "CVSS:3.1/AV:N/AC:L/PR:N/UI:N/S:U/C:H/I:H/A:H" "4.17.5";
                    example_vuln "GHSA-2" "7.2" "4.17.21"] |}.

Definition example_result : ConnectorResult :=
  match @parseOsvResponse numeric_semver example_response "lodash" "npm" "4.17.0" with
  | Ok r => r
  | Throw _ => {| findings := []; summary := None; ttlSeconds := None; legacy := None |}
  end.

(** ** Properties *)

(** The summary of a parsed response agrees with its findings: the counts are
    the counts of the findings, the maximum severity bounds every finding and is
    attained (NONE without findings), and a fix is available exactly when some
    finding offers one. *)
Theorem osv_summary_faithful `{Semver} raw pkg eco ver r :
  parseOsvResponse raw pkg eco ver = Ok r ->
  exists s, vulnerability_of r = Some s /\
    findingCount s = Z.of_nat (length (findings r)) /\
    severityCounts s = Some (severity_counts f_severity (findings r)) /\
    (forall f, f ∈ findings r -> SEVERITY_INDEX (maxSeverity s) <= SEVERITY_INDEX (f_severity f)) /\
    (maxSeverity s = NONE \/ exists f, f ∈ findings r /\ f_severity f = maxSeverity s) /\
    (fixAvailable s = true <->
     exists f, f ∈ findings r /\ own "fix_available" (attributes f) = Some (JBool true)).
Proof.
  intros Hr. apply parseOsvResponse_ok in Hr as (s & Hs & HF & Hmax & Hn & Hfix & _ & Hc).
  match type of Hmax with _ = foldl _ _ ?l => destruct (foldl_more_severe l NONE) as (_ & Hle & Hatt) end.
  rewrite <- Hmax in Hle, Hatt.
  assert (HS := Forall2_impl _ _ _ _ HF osv_finding_ok).
  exists s. split; [done|]. rewrite Hn, Hc, Hfix. split_and!.
  - f_equal. by eapply Forall2_length.
  - f_equal. symmetry. apply Forall2_severity_counts. by eapply Forall2_impl; [exact HS|intros ? ? []].
  - intros f Hf. destruct (Forall2_elem_of_r _ _ _ _ HS Hf) as (v & Hv & -> & _). by apply Hle.
  - destruct Hatt as [|(v & Hv & <-)]; [by left|right].
    destruct (Forall2_elem_of_l _ _ _ _ HS Hv) as (f & Hf & Hfv & _). by exists f.
  - rewrite existsb_elem_of. split.
    + intros (v & Hv & Ht). destruct (Forall2_elem_of_l _ _ _ _ HS Hv) as (f & Hf & _ & _ & Ha).
      exists f. by rewrite Ha, Ht.
    + intros (f & Hf & Ha). destruct (Forall2_elem_of_r _ _ _ _ HS Hf) as (v & Hv & _ & _ & Hw).
      exists v. split; [done|]. congruence.
Qed.

Lemma osv_summary_faithful_witness :
  findings example_result <> [] /\
  exists s, vulnerability_of example_result = Some s /\
    findingCount s = Z.of_nat (length (findings example_result)).
Proof.
  split; [discriminate|].
  destruct (@osv_summary_faithful numeric_semver example_response "lodash" "npm" "4.17.0"
              example_result) as (s & Hs & Hn & _); [vm_compute; reflexivity|].
  by exists s.
Defined.

(** Upgrading to the best fix version clears every fixable finding: when every
    fix version is readable by semver, the best fix is the fix version of one of
    the findings and none of their fix versions is greater. *)
Theorem best_fix_clears_all_findings `{LawfulSemver} raw pkg eco ver r s best :
  parseOsvResponse raw pkg eco ver = Ok r ->
  vulnerability_of r = Some s -> bestFixVersion s = Some best ->
  (forall f v, f ∈ findings r -> own "fix_version" (attributes f) = Some (JStr v) ->
     is_Some (semver_clean v)) ->
  (exists f, f ∈ findings r /\ own "fix_version" (attributes f) = Some (JStr best)) /\
  forall f v c cb, f ∈ findings r -> own "fix_version" (attributes f) = Some (JStr v) ->
    v <> EmptyString -> semver_clean v = Some c -> semver_clean best = Some cb ->
    semver_gt c cb = false.
Proof.
  intros Hr Hs Hb Hall. apply parseOsvResponse_ok in Hr as (s' & Hs' & HF & _ & _ & _ & Hbest & _).
  rewrite Hs in Hs'. injection Hs' as <-. rewrite Hbest in Hb. clear Hbest.
  assert (HS := Forall2_impl _ _ _ _ HF osv_finding_ok). clear HF. revert HS Hb.
  generalize (map (fun v => parseSingleVuln v pkg (osv_ecosystem_name eco)) (default [] (vulns raw))).
  intros parsed HS Hb.
  assert (Hfx : forall v, v ∈ omap (fun v => present (v_fixVersion v)) parsed <->
            v <> EmptyString /\ exists f, f ∈ findings r /\ own "fix_version" (attributes f) = Some (JStr v)).
  { intros v. rewrite list_elem_of_omap. setoid_rewrite present_some. split.
    - intros (w & Hw & Hv & Hne). split; [done|].
      destruct (Forall2_elem_of_l _ _ _ _ HS Hw) as (f & Hf & _ & Ha & _).
      exists f. by rewrite Ha, Hv.
    - intros (Hne & f & Hf & Ha). destruct (Forall2_elem_of_r _ _ _ _ HS Hf) as (w & Hw & _ & Ha' & _).
      exists w. split; [done|]. rewrite Ha in Ha'. by destruct (v_fixVersion w); simplify_eq/=. }
  destruct (pickHighestVersion_max _ best (fun v Hv => let '(conj _ (ex_intro _ f (conj Hf Ha))) :=
    proj1 (Hfx v) Hv in Hall f v Hf Ha) Hb) as [Hin Hmax].
  split; [by apply Hfx in Hin as [_ ?]|].
  intros f v c cb Hf Ha Hne Hc Hcb. apply (Hmax v c cb); try done. apply Hfx. eauto.
Qed.

Lemma best_fix_clears_all_findings_witness :
  exists f, f ∈ findings example_result /\
    own "fix_version" (attributes f) = Some (JStr "4.17.21").
Proof.
  destruct (vulnerability_of example_result) as [s|] eqn:Hs; [|exfalso; revert Hs; vm_compute; discriminate].
  refine (proj1 (@best_fix_clears_all_findings numeric_semver numeric_semver_lawful example_response
            "lodash" "npm" "4.17.0" example_result s "4.17.21" _ Hs _ _)).
  - vm_compute. reflexivity.
  - revert Hs. vm_compute. by intros [= <-].
  - intros f v _ _. cbn. by eexists.
Defined.

(** Fix intelligence looks at the queried package only: the fix version is the
    first fixed event in version ranges of the affected entries for that package
    and ecosystem, and a fix is available when there is one or when such an entry
    names a last affected version. *)
Theorem fix_info_of_queried_package pkg osvEcosystem l :
  extractFixInfo (Some l) pkg osvEcosystem =
  let evs := relevant_events pkg osvEcosystem l in
  let fixes := omap (fun e => present (fixed e)) evs in
  (head fixes,
   bool_decide (fixes <> []) || existsb (fun e => bool_decide (present (last_affected e) <> None)) evs).
Proof.
  unfold extractFixInfo. rewrite scan_affected_events.
  destruct (scan_event_spec (relevant_events pkg osvEcosystem l)
              {| fi_version := None; fi_last_affected := false |}) as [-> ->].
  cbn. f_equal. f_equal. apply bool_decide_ext. by destruct (omap _ _).
Qed.

(** Parsing fails exactly on an unreadable withdrawal date: it throws if and
    only if some advisory has a non-empty [withdrawn] string that is not a date. *)
Theorem osv_parse_throws_iff `{Semver} raw pkg eco ver :
  is_ok (parseOsvResponse raw pkg eco ver) =
  forallb (fun v => negb (bool_decide (optional_date (o_withdrawn v) = Some None))) (default [] (vulns raw)).
Proof.
  transitivity (is_ok (map_res osv_finding
    (map (fun v => parseSingleVuln v pkg (osv_ecosystem_name eco)) (default [] (vulns raw))))).
  - unfold parseOsvResponse. cbv zeta. by destruct (map_res _ _).
  - rewrite map_res_is_ok. generalize (osv_ecosystem_name eco). intros e.
    induction (default [] (vulns raw)) as [|v l IH]; cbn [map forallb]; [done|].
    by rewrite IH, osv_finding_is_ok.
Qed.
