(* ===== verification/Osv.v ===== *)
(** * The OSV connector (services/api/src/connectors/osv/index.ts)

    Its subscription, its field catalogue and finding schema, the fetch through
    an abstract HTTP client, and the normalisation of a parsed response into the
    snapshot that policies are evaluated against. *)

From Stdlib Require Import Ascii.
From S2P Require Import Prelude JsString JsNum JsValue Expression Sql JsDate ConnectorTypes Resolver Presentation Cvss OsvParse.
Local Open Scope Z_scope.
Local Open Scope string_scope.

Definition OSV_ID : string := "osv".

Definition OSV_ECOSYSTEM_MAP : list (string * jsval) := [("npm", JStr "npm"); ("pypi", JStr "PyPI")].

Record OsvConnector := { osv_cacheTtlSeconds : Z }.

Definition osv_supportsEvent (event : ConnectorEvent) : bool :=
  bool_decide (e_kind event = artifact_request).

(** The HTTP client: what a query for an ecosystem, package and version gives. *)
Definition osv_client : Type := jsval -> string -> option string -> res OsvQueryResponse.

Definition osv_fetchArtifactSignals `{Semver} (query : osv_client) (ecosystem pkg : string)
    (version : option string) : res ConnectorResult :=
  let osvEcosystem := part OSV_ECOSYSTEM_MAP (toLowerCase ecosystem) in
  if negb (truthy osvEcosystem) then Throw "connector_ecosystem_unsupported"
  else
    let! raw := query osvEcosystem pkg version in
    parseOsvResponse raw pkg ecosystem (default EmptyString version).

Definition osv_handleEvent `{Semver} (query : osv_client) (event : ConnectorEvent)
  : res (option ConnectorResult) :=
  if negb (osv_supportsEvent event) then Ok None
  else Some <$> osv_fetchArtifactSignals query (e_ecosystem event) (e_packageName event) (e_version event).

(** ** Catalogue *)

Definition osv_data_fields : list ConnectorField :=
  [catalog_field OSV_ID "critical_count" "source.osv.critical_count" "Critical CVE Count"
     (Some "Number of critical severity vulnerabilities found by OSV") "integer" intOps None;
   catalog_field OSV_ID "high_count" "source.osv.high_count" "High CVE Count"
     (Some "Number of high severity vulnerabilities found by OSV") "integer" intOps None;
   catalog_field OSV_ID "medium_count" "source.osv.medium_count" "Medium CVE Count"
     (Some "Number of medium severity vulnerabilities found by OSV") "integer" intOps None;
   catalog_field OSV_ID "low_count" "source.osv.low_count" "Low CVE Count"
     (Some "Number of low severity vulnerabilities found by OSV") "integer" intOps None;
   catalog_field OSV_ID "vuln_count" "source.osv.vuln_count" "Total Vulnerability Count"
     (Some "Total number of vulnerabilities found by OSV") "integer" intOps None;
   catalog_field OSV_ID "max_severity" "source.osv.max_severity" "Maximum Severity"
     (Some "Highest severity level across all found vulnerabilities") "string" strOps (Some ["NONE"; "LOW"; "MEDIUM"; "HIGH"; "CRITICAL"]);
   catalog_field OSV_ID "fix_available" "source.osv.fix_available" "Fix Available"
     (Some "Whether at least one vulnerability has a known fix") "boolean" boolOps None;
   catalog_field OSV_ID "best_fix_version" "source.osv.best_fix_version" "Best Fix Version"
     (Some "Highest fix version across all vulnerabilities; null if none") "string" anyOps None;
   catalog_field OSV_ID "scan_age_hours" "source.osv.scan_age_hours" "Scan Age (hours)"
     (Some "How many hours ago this scan result was fetched") "float" floatOps None].

Definition osv_meta_fields : list ConnectorField :=
  [catalog_field OSV_ID "_meta.status" "source.osv._meta.status" "Connector Status"
     (Some "Response status of the OSV connector for this request") "string" metaStrOps (Some STATUSES);
   catalog_field OSV_ID "_meta.response_time_ms" "source.osv._meta.response_time_ms" "Response Time (ms)"
     (Some "How long the OSV connector call took; 0 for cache hits") "integer" intOps None;
   catalog_field OSV_ID "_meta.cache_age_hours" "source.osv._meta.cache_age_hours" "Cache Age (hours)"
     (Some "Hours since the cached result was written; null on fresh fetch") "float" floatOps None;
   catalog_field OSV_ID "_meta.is_cache_hit" "source.osv._meta.is_cache_hit" "Is Cache Hit"
     (Some "True if served from connector cache, false if fresh") "boolean" boolOps None;
   catalog_field OSV_ID "_meta.error_code" "source.osv._meta.error_code" "Error Code"
     (Some "Machine-readable error code when status is not ok") "string" anyOps None].

Definition osv_getFieldCatalog : list ConnectorField := (osv_data_fields ++ osv_meta_fields)%list.

Definition osv_getFindingSchema : list ConnectorFindingField :=
  [finding_field "osv_id" "OSV ID" "string" (Some "code");
   finding_field "aliases" "Aliases" "string[]" (Some "badge");
   finding_field "cvss_v3_score" "CVSS v3" "float" (Some "number");
   finding_field "attack_vector" "Attack Vector" "string" (Some "badge");
   finding_field "attack_complexity" "Attack Complexity" "string" (Some "badge");
   finding_field "privileges_required" "Privileges Required" "string" (Some "badge");
   finding_field "fix_version" "Fix Version" "string" (Some "code");
   finding_field "fix_reference_urls" "References" "string[]" (Some "url");
   finding_field "cwe_ids" "CWE IDs" "string[]" (Some "badge");
   finding_field "has_exploit_evidence" "Exploit Evidence" "boolean" (Some "badge")].

(** ** Snapshots *)

Definition osv_fields (result : ConnectorResult) (context : EntityContext) : list (string * jsval) :=
  let vulnerability := vulnerability_of result in
  let counts := default (severity_counts f_severity (findings result))
                  (v ← vulnerability; severityCounts v) in
  [("critical_count", JInt (n_critical counts)); ("high_count", JInt (n_high counts));
   ("medium_count", JInt (n_medium counts)); ("low_count", JInt (n_low counts));
   ("vuln_count", JInt (from_option findingCount (Z.of_nat (length (findings result))) vulnerability));
   ("max_severity", JStr (severity_name (from_option maxSeverity NONE vulnerability)));
   ("fix_available", JBool (from_option fixAvailable false vulnerability));
   ("best_fix_version", str_or_null (v ← vulnerability; bestFixVersion v));
   ("scan_age_hours", num_or_null (c_cacheAgeHours context))].

Definition osv_normalizeToSnapshot (result : option ConnectorResult) (context : EntityContext)
    (failureStatus : option connector_status) (errorCode : option string) (now : timestamp)
  : ConnectorSnapshot :=
  let m := build_meta context failureStatus errorCode in
  match result, failureStatus with
  | Some r, None => build_snapshot OSV_ID context m (osv_fields r context) now
  | _, _ => build_snapshot OSV_ID context m [] now
  end.

Definition osv_buildPresentation (result : option ConnectorResult) (snapshot : ConnectorSnapshot)
  : res ConnectorPresentation :=
  buildDefaultConnectorPresentation result snapshot osv_getFindingSchema "OSV" None.

#[export] Instance osv_connector : PackageIntelligenceConnector OsvConnector := {
  connector_id _ := OSV_ID;
  cacheTtlSeconds := osv_cacheTtlSeconds;
  supportedEcosystems _ := only ["npm"; "pypi"];
  subscribedEvents _ :=
    [{| sub_kind := artifact_request; executionMode := sync_required |}];
  readSnapshots _ := true;
  supportsEvent _ := osv_supportsEvent;
  normalizeToSnapshot _ := osv_normalizeToSnapshot;
  getFieldCatalog _ := osv_getFieldCatalog
}.

#[export] Instance osv_lawful : LawfulConnector OsvConnector.
Proof.
  constructor; cbn; unfold osv_normalizeToSnapshot.
  - intros _ [] ? [] ? ?; done.
  - intros _ [] ? [] ? ?; done.
  - intros _ [] ? [] ? ?; done.
  - done.
  - intros _ result ctx failure err now k v Hin.
    destruct result as [r|], failure; try by apply not_elem_of_nil in Hin.
    cbn in Hin. repeat (apply elem_of_cons in Hin as [[= -> _]|Hin]; [done|]).
    by apply not_elem_of_nil in Hin.
  - intros _ result ctx failure err now. destruct result as [r|], failure; cbn; try apply NoDup_nil_2.
    apply (bool_decide_unpack _). by vm_compute.
Qed.

(** ** Lemmas *)

Definition severity_field (s : VulnSeverity) : string :=
  match s with
  | CRITICAL => "critical_count" | HIGH => "high_count" | MEDIUM => "medium_count"
  | LOW => "low_count" | NONE => EmptyString
  end.

Lemma osv_fields_keys r ctx : NoDup (osv_fields r ctx).*1.
Proof. cbn. apply (bool_decide_unpack _). by vm_compute. Qed.

Lemma osv_fields_not_meta r ctx k v : (k, v) ∈ osv_fields r ctx -> startsWith k "_meta." = false.
Proof.
  assert (H : forallb (fun kv => negb (startsWith kv.1 "_meta.")) (osv_fields r ctx) = true) by reflexivity.
  intros Hin. rewrite forallb_elem_of in H. by apply negb_true_iff, (H (k, v)).
Qed.

Lemma osv_fields_count r ctx sev :
  sev <> NONE ->
  own (severity_field sev) (osv_fields r ctx)
  = Some (JInt match sev, default (severity_counts f_severity (findings r))
                            (v ← vulnerability_of r; severityCounts v) with
               | CRITICAL, c => n_critical c | HIGH, c => n_high c
               | MEDIUM, c => n_medium c | _, c => n_low c
               end).
Proof. by destruct sev. Qed.

Lemma count_severity_exact {A} (f : A -> VulnSeverity) l s :
  Z.of_nat (length l) < 2 ^ 53 -> exact_int (count_severity f l s).
Proof.
  intros H. unfold exact_int, count_severity.
  assert (length (List.filter (fun x => severity_eqb (f x) s) l) <= length l)%nat
    by apply filter_length_le. lia.
Qed.

Definition example_context : EntityContext :=
  {| c_packageId := Some "p1"; c_packageVersionId := Some "v1"; c_ecosystem := "npm";
     c_pkg := "lodash"; c_version := Some "4.17.0"; c_displayName := "npm:lodash@4.17.0";
     c_isCacheHit := false; c_responseTimeMs := 12; c_cacheAgeHours := None |}.

Definition example_asset : AssetContext :=
  {| a_ecosystem := "npm"; a_pkg := "lodash"; a_version := "4.17.0"; versionPublishedAt := None;
     versionAgeDays := None; latestVersionPublishedAt := None |}.

(** ** Properties *)

(** C33: a severity threshold rule counts findings: for a response the parser
    accepts, once normalised and resolved next to the snapshots of other
    connectors, the leaf source.osv.<severity>_count gte k holds exactly when at
    least k of the parsed findings have that severity. *)
Theorem osv_threshold_rule `{Semver} raw pkg eco ver r ctx err now l rest asset at_ sev k :
  parseOsvResponse raw pkg eco ver = Ok r ->
  let s := osv_normalizeToSnapshot (Some r) ctx None err now in
  keys_ok (l ++ s :: rest)%list = true -> sev <> NONE -> exact_int k ->
  Z.of_nat (length (findings r)) < 2 ^ 53 ->
  evaluateCondition (encode (CLeaf (source_key OSV_ID (severity_field sev)) "gte" (JInt k)))
    (resolveFields (l ++ s :: rest)%list asset at_)
  = Ok (k <=? count_severity f_severity (findings r) sev)%Z.
Proof.
  intros Hr s Hok Hsev Hk Hlen.
  assert (Hc : (v ← vulnerability_of r; severityCounts v) = Some (severity_counts f_severity (findings r))).
  { apply parseOsvResponse_ok in Hr as (sm & -> & HF & _ & _ & _ & _ & Hc). cbn. rewrite Hc. f_equal.
    symmetry. apply Forall2_severity_counts. eapply Forall2_impl; [exact HF|].
    intros v f Hf. by apply osv_finding_ok in Hf as [? _]. }
  assert (Hown := osv_fields_count r ctx sev Hsev). rewrite Hc in Hown. cbn [default from_option] in Hown.
  change OSV_ID with (connectorKey s).
  rewrite (evaluate_source_leaf l s rest asset at_ (severity_field sev) _ "gte" (JInt k) Hok
             (osv_fields_keys r ctx) (osv_fields_not_meta r ctx) ltac:(by destruct sev) Hown).
  f_equal. rewrite <- js_ge_int by (try done; by apply count_severity_exact).
  by destruct sev.
Qed.

Lemma osv_threshold_rule_witness :
  evaluateCondition (encode (CLeaf "source.osv.critical_count" "gte" (JInt 1)))
    (resolveFields [osv_normalizeToSnapshot (Some example_result) example_context None None 0]
       example_asset 0) = Ok true.
Proof.
  refine (@osv_threshold_rule numeric_semver example_response "lodash" "npm" "4.17.0" example_result
            example_context None 0 [] [] example_asset 0 CRITICAL 1 _ _ _ _ _).
  - vm_compute. reflexivity.
  - reflexivity.
  - discriminate.
  - split; [discriminate|reflexivity].
  - reflexivity.
Defined.
