(* ===== verification/Schema.v ===== *)
(** * Tables of the package catalogue (services/api/src/db/schema.ts)

    The columns the modelled code reads and writes, except the times rows were
    created and updated at. *)

From S2P Require Import Prelude JsValue Sql.

Record package_row := {
  pk_id : string; pk_ecosystem : string; pk_package : string; pk_latest_package_version_id : option string;
  pk_last_metadata_seen_at : option timestamp
}.

Record package_version_row := {
  pv_id : string; pv_package_id : string; pv_version : string;
  pv_version_kind : string; pv_artifact_kind : string; pv_display_role : string;
  pv_published_at : option timestamp; pv_last_metadata_seen_at : option timestamp;
  pv_last_used_at : option timestamp
}.

Record package_version_ref_row := {
  pr_package_id : string; pr_package_version_id : string; pr_ref : string; pr_ref_kind : string;
  pr_source : string; pr_is_display_preferred : bool; pr_metadata : jsval;
  pr_first_seen_at : timestamp; pr_last_seen_at : timestamp
}.

Record package_version_metadata_row := {
  pm_package_version_id : string; pm_metadata_kind : string; pm_data : jsval; pm_observed_at : option timestamp
}.

Record package_version_relationship_row := {
  pl_parent_package_version_id : string; pl_child_package_version_id : string;
  pl_relationship_type : string; pl_observed_at : option timestamp
}.

Record release_facts_row := {
  rf_package_version_id : string; rf_published_at : option timestamp;
  rf_source_kind : option string; rf_source_payload_version : option string; rf_source_payload : option jsval;
  rf_source_observed_at : option timestamp;
  rf_publish_actor : option string; rf_publish_actor_kind : option string; rf_publisher_username : option string;
  rf_publisher_source : option string;
  rf_maintainer_count : option Z; rf_maintainers : option (list string); rf_maintainer_source : option string;
  rf_has_install_scripts : option bool; rf_has_provenance : option bool; rf_has_trusted_publisher : option bool;
  rf_publisher_seen_before_package : option bool; rf_publisher_seen_count_before : option Z;
  rf_publisher_matches_prior_version : option bool; rf_prior_package_version_id : option string;
  rf_prior_version_publish_actor : option string; rf_maintainer_set_changed : option bool;
  rf_maintainers_added : option (list string); rf_maintainers_removed : option (list string);
  rf_new_maintainer_count : option Z; rf_removed_maintainer_count : option Z;
  rf_release_velocity_7d : option Z; rf_release_velocity_30d : option Z;
  rf_first_published_at_for_package : option timestamp; rf_package_release_index : option Z;
  rf_history_complete : option bool;
  rf_contributor_slice_fingerprint : option string; rf_contributor_slice_observed_at : option timestamp;
  rf_observed_at : option timestamp
}.

Record package_facts_row := {
  cf_package_id : string; cf_fingerprint : option string; cf_history_complete : bool;
  cf_oldest_included_published_at : option timestamp; cf_observed_at : option timestamp
}.

(** The catalogue's tables, in storage order. *)
Record catalog_db := {
  packages : list package_row; package_versions : list package_version_row;
  package_version_refs : list package_version_ref_row;
  package_version_metadata : list package_version_metadata_row;
  package_version_relationships : list package_version_relationship_row
}.

Definition set_packages (f : list package_row -> list package_row) (db : catalog_db) : catalog_db :=
  {| packages := f (packages db); package_versions := package_versions db;
     package_version_refs := package_version_refs db; package_version_metadata := package_version_metadata db;
     package_version_relationships := package_version_relationships db |}.
Definition set_package_versions (f : list package_version_row -> list package_version_row) (db : catalog_db)
  : catalog_db :=
  {| packages := packages db; package_versions := f (package_versions db);
     package_version_refs := package_version_refs db; package_version_metadata := package_version_metadata db;
     package_version_relationships := package_version_relationships db |}.
Definition set_refs (f : list package_version_ref_row -> list package_version_ref_row) (db : catalog_db)
  : catalog_db :=
  {| packages := packages db; package_versions := package_versions db;
     package_version_refs := f (package_version_refs db); package_version_metadata := package_version_metadata db;
     package_version_relationships := package_version_relationships db |}.
Definition set_metadata (f : list package_version_metadata_row -> list package_version_metadata_row)
    (db : catalog_db) : catalog_db :=
  {| packages := packages db; package_versions := package_versions db;
     package_version_refs := package_version_refs db; package_version_metadata := f (package_version_metadata db);
     package_version_relationships := package_version_relationships db |}.
Definition set_relationships (f : list package_version_relationship_row -> list package_version_relationship_row)
    (db : catalog_db) : catalog_db :=
  {| packages := packages db; package_versions := package_versions db;
     package_version_refs := package_version_refs db; package_version_metadata := package_version_metadata db;
     package_version_relationships := f (package_version_relationships db) |}.
