(* ===== verification/Catalog.v ===== *)
(** * The package catalogue (services/api/src/features/packages/catalog-references.ts,
    catalog-classification.ts, and the lookups of artifact-identity.ts)

    Every package and version the gateway meets gets one row and one identifier.
    [resolvePackageCatalogReferences] finds or creates them; the other writes
    record under which references, with which metadata and in which relations a
    version was seen.  The tables' unique indexes are modelled as the conflict
    targets of the writes; their format checks hold of canonical identities. *)

From S2P Require Import Prelude JsString JsNum JsValue Json Jsonb Sql Effects Identity Schema.
Local Open Scope string_scope.
Local Open Scope list_scope.
Local Open Scope Z_scope.

(** ** catalog-classification.ts *)

Record PackageCatalogClassification := { version_kind : string; artifact_kind : string; display_role : string }.
Record ObservedRefClassification := { ref_kind : string; ref_is_display_preferred : bool }.

Definition isDigestReference (value : option string) : bool :=
  from_option (fun v => startsWith (trim v) "sha256:") false value.

Definition defaultCatalogClassification : PackageCatalogClassification :=
  {| version_kind := "version"; artifact_kind := "package_release"; display_role := "primary" |}.

Definition defaultObservedRefClassification : ObservedRefClassification :=
  {| ref_kind := "alias"; ref_is_display_preferred := false |}.

(** What indexing the classifier table with a key gives: the one classifier, or
    an object inherited from the prototype, which has no methods. *)
Inductive classifier : Type := docker_classifier | inherited_object.

Definition classifierFor (ecosystem : string) : option classifier :=
  let key := toLowerCase (trim ecosystem) in
  if String.eqb key "docker" then Some docker_classifier
  else if is_nullish (inherited key) then None else Some inherited_object.

Definition classifyPackageCatalogVersion (input : PackageIdentityInput) : res PackageCatalogClassification :=
  match classifierFor (i_ecosystem input) with
  | None => Ok defaultCatalogClassification
  | Some docker_classifier =>
      Ok {| version_kind := if isDigestReference (i_version input) then "digest" else "version";
            artifact_kind := "docker_index"; display_role := "primary" |}
  | Some inherited_object => type_error
  end.

Definition classifyObservedPackageVersionRef (ecosystem ref : string) : res ObservedRefClassification :=
  match classifierFor ecosystem with
  | None => Ok defaultObservedRefClassification
  | Some docker_classifier =>
      let isDigest := isDigestReference (Some ref) in
      Ok {| ref_kind := if isDigest then "digest" else "tag"; ref_is_display_preferred := negb isDigest |}
  | Some inherited_object => type_error
  end.

(** ** Inputs *)

Record PackageCatalogReferenceInput := {
  ci_input : PackageIdentityInput; ci_version_kind : option string;
  ci_artifact_kind : option string; ci_display_role : option string
}.

Record PackageVersionRefInput := {
  vr_package_id : string; vr_package_version_id : string; vr_ref : string; vr_ref_kind : string;
  vr_source : string; vr_is_display_preferred : option bool; vr_metadata : option jsval;
  vr_observed_at : option timestamp
}.

Record PackageVersionMetadataInput := {
  vm_package_version_id : string; vm_metadata_kind : string; vm_data : jsval; vm_observed_at : option timestamp
}.

Record PackageVersionRelationshipInput := {
  vl_parent_package_version_id : string; vl_child_package_version_id : string;
  vl_relationship_type : string; vl_observed_at : option timestamp
}.

Record PackageVersionRelatedVersionInput := {
  rv_version : string; rv_version_kind : string; rv_artifact_kind : string; rv_display_role : string;
  rv_relationship_type : string; rv_media_type : option string; rv_size_bytes : option Z;
  rv_platform_os : option string; rv_platform_arch : option string; rv_platform_variant : option string;
  rv_metadata_json : option string
}.

Record PackageVersionCatalogValue := { cv_package_id : string; cv_version : string; cv_class : PackageCatalogClassification }.

Definition catalogReferenceDefaults (input : PackageCatalogReferenceInput) : res PackageCatalogClassification :=
  let! classified := classifyPackageCatalogVersion (ci_input input) in
  Ok {| version_kind := default (version_kind classified) (ci_version_kind input);
        artifact_kind := default (artifact_kind classified) (ci_artifact_kind input);
        display_role := default (display_role classified) (ci_display_role input) |}.

(** ** Finding or creating the rows *)

Section catalog.
Context `{Env}.

Definition CM : Type -> Type := M catalog_db.

Definition identity_key (identity : CanonicalPackageIdentity) : string :=
  packageKey (id_ecosystem identity) (id_package identity).

(** The package values of a list of identities, one per key. *)
Definition package_values (identities : list CanonicalPackageIdentity) : list (string * string) :=
  snd <$> map_entries
    (map (fun i => (identity_key i, (id_ecosystem i, id_package i)))
       (List.filter (fun i => nonempty (id_ecosystem i) && nonempty (id_package i)) identities)).

Definition package_is (v : string * string) (r : package_row) : bool :=
  String.eqb (pk_ecosystem r) v.1 && String.eqb (pk_package r) v.2.

Definition new_package (v : string * string) (id : string) : package_row :=
  {| pk_id := id; pk_ecosystem := v.1; pk_package := v.2; pk_latest_package_version_id := None;
     pk_last_metadata_seen_at := None |}.

(** One row of [insert ... on conflict (ecosystem, package) do nothing returning]. *)
Definition insert_package : string * string -> CM (option package_row) :=
  insert_or_nothing packages (fun rows => set_packages (fun _ => rows)) package_is new_package.

Definition selectPackageCatalogRows (values : list (string * string)) (db : catalog_db) : list package_row :=
  List.filter (fun r => existsb (fun v => package_is v r) values) (packages db).

Definition package_entry (r : package_row) : string * string := (packageKey (pk_ecosystem r) (pk_package r), pk_id r).

(** The identifiers of the values' packages, by package key. *)
Definition package_id_map (values : list (string * string)) : CM (list (string * string)) :=
  inserted ← mapM_ insert_package values;
  let packageIdMap := map_entries (map package_entry (omap id inserted)) in
  let missing := List.filter (fun v => bool_decide (map_get (packageKey v.1 v.2) packageIdMap = None)) values in
  existing ← gets (selectPackageCatalogRows missing);
  mret (map_sets (map package_entry existing) packageIdMap).

Definition version_key (v : PackageVersionCatalogValue) : string := packageVersionKey (cv_package_id v) (cv_version v).
Definition row_version_key (r : package_version_row) : string := packageVersionKey (pv_package_id r) (pv_version r).

(** The catalogue entry of one input, if its package is known and it has a version. *)
Definition version_entry (packageIdMap : list (string * string))
    (x : PackageCatalogReferenceInput * CanonicalPackageIdentity)
  : res (option (string * PackageVersionCatalogValue)) :=
  match present (map_get (identity_key x.2) packageIdMap), present (id_version x.2) with
  | Some pid, Some v =>
      let! d := catalogReferenceDefaults x.1 in
      Ok (Some (packageVersionKey pid v, {| cv_package_id := pid; cv_version := v; cv_class := d |}))
  | _, _ => Ok None
  end.

Definition version_is (v : PackageVersionCatalogValue) (r : package_version_row) : bool :=
  String.eqb (pv_package_id r) (cv_package_id v) && String.eqb (pv_version r) (cv_version v).

Definition new_package_version (v : PackageVersionCatalogValue) (id : string) : package_version_row :=
  {| pv_id := id; pv_package_id := cv_package_id v; pv_version := cv_version v;
     pv_version_kind := version_kind (cv_class v); pv_artifact_kind := artifact_kind (cv_class v);
     pv_display_role := display_role (cv_class v); pv_published_at := None;
     pv_last_metadata_seen_at := None; pv_last_used_at := None |}.

Definition insert_package_version : PackageVersionCatalogValue -> CM (option package_version_row) :=
  insert_or_nothing package_versions (fun rows => set_package_versions (fun _ => rows)) version_is new_package_version.

Definition selectPackageVersionCatalogRows (values : list PackageVersionCatalogValue) (db : catalog_db)
  : list package_version_row :=
  List.filter (fun r => existsb (fun v => version_is v r) values) (package_versions db).

Definition packageVersionCatalogUpdate (row : package_version_row) (desired : PackageVersionCatalogValue)
  : PackageCatalogClassification :=
  let d := cv_class desired in
  let keepExistingChildRole :=
    (String.eqb (pv_display_role row) "child" || String.eqb (pv_display_role row) "internal")
    && String.eqb (display_role d) "primary" in
  {| version_kind := version_kind d;
     artifact_kind := if keepExistingChildRole then pv_artifact_kind row else artifact_kind d;
     display_role := if keepExistingChildRole then pv_display_role row else display_role d |}.

Definition shouldUpdatePackageVersionCatalog (row : package_version_row) (desired : PackageVersionCatalogValue)
  : bool :=
  let update := packageVersionCatalogUpdate row desired in
  negb (String.eqb (pv_version_kind row) (version_kind update))
  || negb (String.eqb (pv_artifact_kind row) (artifact_kind update))
  || negb (String.eqb (pv_display_role row) (display_role update)).

Definition reclassify (c : PackageCatalogClassification) (r : package_version_row) : package_version_row :=
  {| pv_id := pv_id r; pv_package_id := pv_package_id r; pv_version := pv_version r;
     pv_version_kind := version_kind c; pv_artifact_kind := artifact_kind c;
     pv_display_role := display_role c; pv_published_at := pv_published_at r;
     pv_last_metadata_seen_at := pv_last_metadata_seen_at r; pv_last_used_at := pv_last_used_at r |}.

Definition updatePackageVersionCatalogRow (row : package_version_row) (desired : PackageVersionCatalogValue)
  : CM unit :=
  let update := packageVersionCatalogUpdate row desired in
  modify (set_package_versions (map (fun r => if String.eqb (pv_id r) (pv_id row) then reclassify update r else r))).

(** The loop body over the rows that existed already. *)
Definition update_existing (versionValueMap : list (string * PackageVersionCatalogValue)) (row : package_version_row)
  : CM unit :=
  match map_get (row_version_key row) versionValueMap with
  | Some desired =>
      if shouldUpdatePackageVersionCatalog row desired then updatePackageVersionCatalogRow row desired else mret tt
  | None => mret tt
  end.

Definition version_row_entry (r : package_version_row) : string * string := (row_version_key r, pv_id r).

Definition package_version_id_map (values : list PackageVersionCatalogValue) : CM (list (string * string)) :=
  inserted ← mapM_ insert_package_version values;
  let packageVersionIdMap := map_entries (map version_row_entry (omap id inserted)) in
  let missing := List.filter (fun v => bool_decide (map_get (version_key v) packageVersionIdMap = None)) values in
  existing ← gets (selectPackageVersionCatalogRows missing);
  let versionValueMap := map_entries (map (fun v => (version_key v, v)) missing) in
  _ ← mapM_ (update_existing versionValueMap) existing;
  mret (map_sets (map version_row_entry existing) packageVersionIdMap).

Definition catalog_reference (packageIdMap packageVersionIdMap : list (string * string))
    (identity : CanonicalPackageIdentity) : PackageCatalogReference :=
  let pid := map_get (identity_key identity) packageIdMap in
  {| package_id := pid;
     package_version_id :=
       match present pid, present (id_version identity) with
       | Some pid, Some v => map_get (packageVersionKey pid v) packageVersionIdMap
       | _, _ => None
       end |}.

Definition no_reference : PackageCatalogReference := {| package_id := None; package_version_id := None |}.

Definition resolvePackageCatalogReferences (inputs : list PackageCatalogReferenceInput)
  : CM (list PackageCatalogReference) :=
  let identities := map (fun i => canonicalizePackageIdentity (ci_input i)) inputs in
  match package_values identities with
  | [] => mret (map (fun _ => no_reference) identities)
  | values =>
      packageIdMap ← package_id_map values;
      entries ← of_res (map_res (version_entry packageIdMap) (zip inputs identities));
      packageVersionIdMap ← package_version_id_map (snd <$> map_entries (omap id entries));
      mret (map (catalog_reference packageIdMap packageVersionIdMap) identities)
  end.

Definition plain_input (i : PackageIdentityInput) : PackageCatalogReferenceInput :=
  {| ci_input := i; ci_version_kind := None; ci_artifact_kind := None; ci_display_role := None |}.

Definition resolvePackageCatalogReferenceForPackageRef (packageRef : string) : CM PackageCatalogReference :=
  match parsePackageRef packageRef with
  | None => mret no_reference
  | Some identity =>
      refs ← resolvePackageCatalogReferences [plain_input identity];
      mret (default no_reference (head refs))
  end.

(** ** References *)

Definition same_ref (i : PackageVersionRefInput) (ref : string) (r : package_version_ref_row) : bool :=
  String.eqb (pr_package_id r) (vr_package_id i) && String.eqb (pr_ref r) ref
  && String.eqb (pr_ref_kind r) (vr_ref_kind i)
  && String.eqb (pr_package_version_id r) (vr_package_version_id i) && String.eqb (pr_source r) (vr_source i).

(** The [setWhere] of the upsert: without metadata only a change is written. *)
Definition ref_changes (observedAt : timestamp) (preferred : bool) (metadata : option jsval)
    (r : package_version_ref_row) : bool :=
  match metadata with
  | None => (observedAt <? pr_first_seen_at r) || (pr_last_seen_at r <? observedAt)
            || negb (Bool.eqb (pr_is_display_preferred r) preferred)
  | Some _ => true
  end.

Definition updated_ref (observedAt : timestamp) (preferred : bool) (metadata : option jsval)
    (r : package_version_ref_row) : package_version_ref_row :=
  if ref_changes observedAt preferred metadata r then
    {| pr_package_id := pr_package_id r; pr_package_version_id := pr_package_version_id r; pr_ref := pr_ref r;
       pr_ref_kind := pr_ref_kind r; pr_source := pr_source r; pr_is_display_preferred := preferred;
       pr_metadata := from_option jsonb (pr_metadata r) metadata;
       pr_first_seen_at := Z.min (pr_first_seen_at r) observedAt;
       pr_last_seen_at := Z.max (pr_last_seen_at r) observedAt |}
  else r.

(** [update ... set is_display_preferred = false] on the version's preferred reference. *)
Definition clear_preferred (version_id : string) (r : package_version_ref_row) : package_version_ref_row :=
  if String.eqb (pr_package_version_id r) version_id && pr_is_display_preferred r then
    {| pr_package_id := pr_package_id r; pr_package_version_id := pr_package_version_id r; pr_ref := pr_ref r;
       pr_ref_kind := pr_ref_kind r; pr_source := pr_source r; pr_is_display_preferred := false;
       pr_metadata := pr_metadata r; pr_first_seen_at := pr_first_seen_at r; pr_last_seen_at := pr_last_seen_at r |}
  else r.

Definition new_ref (i : PackageVersionRefInput) (ref : string) (observedAt : timestamp) (preferred : bool)
  : package_version_ref_row :=
  {| pr_package_id := vr_package_id i; pr_package_version_id := vr_package_version_id i; pr_ref := ref;
     pr_ref_kind := vr_ref_kind i; pr_source := vr_source i; pr_is_display_preferred := preferred;
     pr_metadata := from_option jsonb JNull (vr_metadata i);
     pr_first_seen_at := observedAt; pr_last_seen_at := observedAt |}.

Definition upsertPackageVersionRef (input : PackageVersionRefInput) : CM unit :=
  let ref := trim (vr_ref input) in
  if negb (nonempty ref) then mret tt
  else
    observedAt ← match vr_observed_at input with Some t => mret t | None => now_ end;
    let preferred := default false (vr_is_display_preferred input) in
    _ ← if preferred then modify (set_refs (map (clear_preferred (vr_package_version_id input)))) else mret tt;
    modify (set_refs (fun rows =>
      (upsert (same_ref input ref) (updated_ref observedAt preferred (vr_metadata input))
         (new_ref input ref observedAt preferred) rows).1)).

(** [GREATEST(COALESCE(column, '-infinity'), observedAt)], where one is given. *)
Definition later_observed (column given : option timestamp) : option timestamp :=
  match given with
  | Some t => Some (from_option (Z.max t) t column)
  | None => column
  end.

Definition upsertPackageVersionMetadata (input : PackageVersionMetadataInput) : CM unit :=
  modify (set_metadata (fun rows =>
    (upsert (fun r => String.eqb (pm_package_version_id r) (vm_package_version_id input)
                      && String.eqb (pm_metadata_kind r) (vm_metadata_kind input))
       (fun r => {| pm_package_version_id := pm_package_version_id r; pm_metadata_kind := pm_metadata_kind r;
                    pm_data := jsonb (vm_data input);
                    pm_observed_at := later_observed (pm_observed_at r) (vm_observed_at input) |})
       {| pm_package_version_id := vm_package_version_id input; pm_metadata_kind := vm_metadata_kind input;
          pm_data := jsonb (vm_data input); pm_observed_at := vm_observed_at input |} rows).1)).

Definition upsertPackageVersionRelationship (input : PackageVersionRelationshipInput) : CM unit :=
  modify (set_relationships (fun rows =>
    (upsert (fun r => String.eqb (pl_parent_package_version_id r) (vl_parent_package_version_id input)
                      && String.eqb (pl_child_package_version_id r) (vl_child_package_version_id input)
                      && String.eqb (pl_relationship_type r) (vl_relationship_type input))
       (fun r => {| pl_parent_package_version_id := pl_parent_package_version_id r;
                    pl_child_package_version_id := pl_child_package_version_id r;
                    pl_relationship_type := pl_relationship_type r;
                    pl_observed_at := later_observed (pl_observed_at r) (vl_observed_at input) |})
       {| pl_parent_package_version_id := vl_parent_package_version_id input;
          pl_child_package_version_id := vl_child_package_version_id input;
          pl_relationship_type := vl_relationship_type input; pl_observed_at := vl_observed_at input |} rows).1)).

(** ** What a request shows *)

Record ObservedRefsInput := {
  or_ecosystem : string; or_package_id : option string; or_package_version_id : option string;
  or_version : option string; or_requested_ref : option string; or_resolved_ref : option string;
  or_ref_resolution_source : option string; or_observed_at : option timestamp
}.

Definition ref_input (pid vid ref kind : string) (preferred : option bool) (metadata : option jsval)
    (at_ : timestamp) : PackageVersionRefInput :=
  {| vr_package_id := pid; vr_package_version_id := vid; vr_ref := ref; vr_ref_kind := kind;
     vr_source := "proxy"; vr_is_display_preferred := preferred; vr_metadata := metadata;
     vr_observed_at := Some at_ |}.

(** [input.resolved_ref ?? input.version] *)
Definition resolved_or_version (input : ObservedRefsInput) : jsval :=
  str_or_null (match or_resolved_ref input with Some r => Some r | None => or_version input end).

Definition recordObservedPackageVersionRefs (input : ObservedRefsInput) : CM unit :=
  match present (or_package_id input), present (or_package_version_id input) with
  | Some pid, Some vid =>
      observedAt ← match or_observed_at input with Some t => mret t | None => now_ end;
      _ ← match present (or_version input) with
          | Some v => upsertPackageVersionRef
                        (ref_input pid vid v (if startsWith v "sha256:" then "digest" else "version") None None observedAt)
          | None => mret tt
          end;
      match present (trim <$> or_requested_ref input) with
      | None => mret tt
      | Some requestedRef =>
          if bool_decide (Some requestedRef = or_version input) then mret tt
          else
            c ← of_res (classifyObservedPackageVersionRef (or_ecosystem input) requestedRef);
            _ ← upsertPackageVersionRef
                  (ref_input pid vid requestedRef (ref_kind c) (Some (ref_is_display_preferred c))
                     (Some (JObj [("resolved_ref", resolved_or_version input);
                                  ("ref_resolution_source", str_or_null (or_ref_resolution_source input))]))
                     observedAt);
            upsertPackageVersionMetadata
              {| vm_package_version_id := vid; vm_metadata_kind := "registry_metadata";
                 vm_data := JObj [("ecosystem", JStr (toLowerCase (trim (or_ecosystem input))));
                                  ("requested_ref", JStr requestedRef);
                                  ("resolved_ref", resolved_or_version input);
                                  ("ref_resolution_source", str_or_null (or_ref_resolution_source input))];
                 vm_observed_at := Some observedAt |}
      end
  | _, _ => mret tt
  end.

Definition parseMetadataJson (value : option string) : jsval :=
  match present value with
  | None => JNull
  | Some s => default (JObj [("raw", JStr s)]) (json_parse s)
  end.

Record RelatedVersionsInput := {
  rl_ecosystem : string; rl_package : string; rl_package_id : option string; rl_package_version_id : option string;
  rl_related_versions : option (list PackageVersionRelatedVersionInput); rl_observed_at : option timestamp
}.

Definition related_input (input : RelatedVersionsInput) (related : PackageVersionRelatedVersionInput)
  : PackageCatalogReferenceInput :=
  {| ci_input := {| i_ecosystem := rl_ecosystem input; i_package := rl_package input;
                    i_version := Some (trim (rv_version related)) |};
     ci_version_kind := Some (rv_version_kind related); ci_artifact_kind := Some (rv_artifact_kind related);
     ci_display_role := Some (rv_display_role related) |}.

Definition descriptor_data (related : PackageVersionRelatedVersionInput) : jsval :=
  JObj [("media_type", str_or_null (rv_media_type related));
        ("size_bytes", from_option JInt JNull (rv_size_bytes related));
        ("metadata", parseMetadataJson (rv_metadata_json related))].

Definition platform_data (related : PackageVersionRelatedVersionInput) : jsval :=
  JObj [("os", str_or_null (rv_platform_os related)); ("arch", str_or_null (rv_platform_arch related));
        ("variant", str_or_null (rv_platform_variant related))].

(** The loop body for one related version. *)
Definition record_related (input : RelatedVersionsInput) (parent : string) (observedAt : timestamp)
    (related : PackageVersionRelatedVersionInput) : CM unit :=
  let version := trim (rv_version related) in
  if negb (nonempty version) || negb (nonempty (rv_relationship_type related)) then mret tt
  else
    refs ← resolvePackageCatalogReferences [related_input input related];
    let child := default no_reference (head refs) in
    match present (package_id child), present (package_version_id child) with
    | Some pid, Some vid =>
        _ ← upsertPackageVersionRef (ref_input pid vid version "digest" None None observedAt);
        _ ← upsertPackageVersionRelationship
              {| vl_parent_package_version_id := parent; vl_child_package_version_id := vid;
                 vl_relationship_type := rv_relationship_type related; vl_observed_at := Some observedAt |};
        _ ← upsertPackageVersionMetadata
              {| vm_package_version_id := vid; vm_metadata_kind := "descriptor";
                 vm_data := descriptor_data related; vm_observed_at := Some observedAt |};
        match present (rv_platform_os related), present (rv_platform_arch related),
              present (rv_platform_variant related) with
        | None, None, None => mret tt
        | _, _, _ =>
            upsertPackageVersionMetadata
              {| vm_package_version_id := vid; vm_metadata_kind := "platform";
                 vm_data := platform_data related; vm_observed_at := Some observedAt |}
        end
    | _, _ => mret tt
    end.

Definition recordPackageVersionRelatedVersions (input : RelatedVersionsInput) : CM unit :=
  match present (rl_package_id input), present (rl_package_version_id input), default [] (rl_related_versions input) with
  | Some _, Some vid, (_ :: _) as related =>
      observedAt ← match rl_observed_at input with Some t => mret t | None => now_ end;
      _ ← mapM_ (record_related input vid observedAt) related;
      mret tt
  | _, _, _ => mret tt
  end.

(** ** artifact-identity.ts: lookups *)

Definition resolveArtifactIdentities (inputs : list ArtifactIdentityInput) : CM (list ArtifactIdentity) :=
  refs ← resolvePackageCatalogReferences (map (fun i => plain_input (ai_input i)) inputs);
  mret (zip_with buildArtifactIdentity inputs refs).

Definition resolveArtifactIdentity (input : ArtifactIdentityInput) : CM ArtifactIdentity :=
  identities ← resolveArtifactIdentities [input];
  mret (default (buildArtifactIdentity input no_reference) (head identities)).

Definition catalog_input (ecosystem package : string) (version source : option string) : ArtifactIdentityInput :=
  {| ai_input := {| i_ecosystem := ecosystem; i_package := package; i_version := version |};
     ai_source := Some (default "catalog" source); ai_parser_version := None |}.

Definition loadArtifactIdentityByCatalogIds (ids : PackageCatalogReference) (source : option string)
  : CM (option ArtifactIdentity) :=
  gets (fun db =>
    match present (package_version_id ids) with
    | Some vid =>
        '(v, p) ← head (List.filter (fun r => String.eqb (pv_id r.1) vid)
                     (inner_join (fun v p => String.eqb (pk_id p) (pv_package_id v)) (package_versions db) (packages db)));
        Some (buildArtifactIdentity (catalog_input (pk_ecosystem p) (pk_package p) (Some (pv_version v)) source)
                {| package_id := Some (pk_id p); package_version_id := Some (pv_id v) |})
    | None =>
        pid ← present (package_id ids);
        p ← head (List.filter (fun p => String.eqb (pk_id p) pid) (packages db));
        Some (buildArtifactIdentity (catalog_input (pk_ecosystem p) (pk_package p) None source)
                {| package_id := Some (pk_id p); package_version_id := None |})
    end).
End catalog.
