(* ===== verification/CatalogCorrect.v ===== *)
(** * Correctness of the package catalogue

    The invariant of the catalogue's tables, and what resolving references
    achieves: one row and one identifier per package and version, which never
    change again. *)

From Stdlib Require Import Ascii.
From S2P Require Import Prelude JsString JsNum JsValue Json Jsonb Sql Effects Identity Schema Catalog.
Local Open Scope string_scope.
Local Open Scope list_scope.
Local Open Scope nat_scope.

(** What an identifier looks like: keys join it with a bar. *)
Definition plain_id (s : string) : bool := nonempty s && no_char "|"%char s.

Section correct.
Context `{Env}.
Context (uuid_inj : forall m n, uuid m = uuid n -> m = n) (uuid_plain : forall n, plain_id (uuid n) = true).

(** ** The invariant *)

Definition used_ids (db : catalog_db) : list string := map pk_id (packages db) ++ map pv_id (package_versions db).

Record catalog_ok (n : nat) (db : catalog_db) : Prop := {
  co_packages : single_rows package_is (packages db);
  co_versions : single_rows version_is (package_versions db);
  co_package_ids : NoDup (map pk_id (packages db));
  co_version_ids : NoDup (map pv_id (package_versions db));
  co_fresh m : n <= m -> uuid m ∉ used_ids db;
  co_plain x : x ∈ used_ids db -> plain_id x = true
}.

(** A row of the same version, classified anew or not. *)
Definition keeps_version (old r : package_version_row) : Prop :=
  r = old \/ exists d, r = reclassify (packageVersionCatalogUpdate old d) old.

(** Rows are never dropped and keep their identity. *)
Definition preserved (db db' : catalog_db) : Prop :=
  packages db `prefix_of` packages db' /\
  (exists rows news, package_versions db' = rows ++ news /\ Forall2 keeps_version (package_versions db) rows) /\
  package_version_refs db' = package_version_refs db /\
  package_version_metadata db' = package_version_metadata db /\
  package_version_relationships db' = package_version_relationships db.

Lemma single_row_eq {R V : Type} (conflict : V -> R -> bool) l v r r' :
  single_rows conflict l -> r ∈ l -> r' ∈ l -> conflict v r = true -> conflict v r' = true -> r = r'.
Proof.
  intros Hs Hr Hr' Hc Hc'. specialize (Hs v).
  assert (A : r ∈ List.filter (conflict v) l) by (by apply elem_of_filter_b).
  assert (B : r' ∈ List.filter (conflict v) l) by (by apply elem_of_filter_b).
  destruct (List.filter (conflict v) l) as [|x [|y k]]; cbn in Hs; [by apply not_elem_of_nil in A| |lia].
  apply list_elem_of_singleton in A, B. congruence.
Qed.

Lemma package_is_spec v r : package_is v r = true <-> pk_ecosystem r = v.1 /\ pk_package r = v.2.
Proof. unfold package_is. by rewrite andb_true_iff, !String.eqb_eq. Qed.

Lemma version_is_spec v r :
  version_is v r = true <-> pv_package_id r = cv_package_id v /\ pv_version r = cv_version v.
Proof. unfold version_is. by rewrite andb_true_iff, !String.eqb_eq. Qed.

Lemma package_is_key v w id r : package_is w (new_package v id) = true -> package_is w r = package_is v r.
Proof. rewrite package_is_spec. cbn. intros [E1 E2]. unfold package_is. by rewrite E1, E2. Qed.

Lemma version_is_key v w id r :
  version_is w (new_package_version v id) = true -> version_is w r = version_is v r.
Proof. rewrite version_is_spec. cbn. intros [E1 E2]. unfold version_is. by rewrite E1, E2. Qed.

(** ** Finding or creating packages *)

(** Identifiers stay fresh and well formed when the used ones grow by drawn ones. *)
Lemma fresh_more n n' (ids ids' : list string) :
  n <= n' -> (forall m, n <= m -> uuid m ∉ ids) -> (forall x, x ∈ ids -> plain_id x = true) ->
  (forall x, x ∈ ids' -> x ∈ ids \/ exists j, n <= j < n' /\ x = uuid j) ->
  (forall m, n' <= m -> uuid m ∉ ids') /\ (forall x, x ∈ ids' -> plain_id x = true).
Proof using uuid_inj uuid_plain.
  intros Hle Hf He Hn. split.
  - intros m Hm [Hin|(j & Hj & Heq)]%Hn; [by apply (Hf m); [lia|]|]. apply uuid_inj in Heq. lia.
  - intros x [Hin|(j & _ & ->)]%Hn; [by apply He|]. apply uuid_plain.
Qed.

Lemma inserted_ids {R V : Type} (is_ : V -> R -> bool) (new : V -> string -> R) (key : R -> string)
    values n n' old news x :
  (forall v id, key (new v id) = id) -> inserted is_ new values n n' old news ->
  x ∈ map key news -> exists j, n <= j < n' /\ x = uuid j.
Proof.
  intros Hk Hi (r & -> & Hr)%list_elem_of_fmap. destruct (ins_new _ _ _ _ _ _ _ Hi r Hr) as (v & j & _ & Hj & -> & _).
  exists j. by rewrite Hk.
Qed.

(** What a map of identifiers knows of a table's rows. *)
Record id_map_of {R V : Type} (is_ : V -> R -> bool) (entry : R -> string * string) (key : V -> string)
    (values : list V) (rows : list R) (ids : list (string * string)) : Prop := {
  im_sound k x : map_get k ids = Some x -> exists r v, r ∈ rows /\ v ∈ values /\ is_ v r = true /\ entry r = (k, x);
  im_complete v : v ∈ values -> is_Some (map_get (key v) ids)
}.

(** The map built from the inserted rows and then from those found in place of the
    values still missing. *)
Lemma id_map_built {R V : Type} (is_ : V -> R -> bool) (entry : R -> string * string) (key : V -> string)
    (new : V -> string -> R) values n n' (old news : list R) :
  (forall v id, is_ v (new v id) = true) ->
  (forall v r, v ∈ values -> is_ v r = true -> (entry r).1 = key v) ->
  inserted is_ new values n n' old news ->
  let m := map_entries (map entry news) in
  let missing := List.filter (fun v => bool_decide (map_get (key v) m = None)) values in
  id_map_of is_ entry key values (old ++ news)
    (map_sets (map entry (List.filter (fun r => existsb (fun v => is_ v r) missing) (old ++ news))) m).
Proof.
  intros Hnew Hkey Hi m missing. destruct Hi as [_ Hn Hf _ _].
  assert (Hm : forall k x, map_get k m = Some x ->
    exists r v, r ∈ old ++ news /\ v ∈ values /\ is_ v r = true /\ entry r = (k, x)).
  { intros k x Hg. apply map_get_elem, map_entries_elem, list_elem_of_fmap in Hg as (r & He & Hr).
    destruct (Hn r Hr) as (v & j & Hv & _ & -> & _). exists (new v (uuid j)), v.
    split; [apply elem_of_app; by right|]. done. }
  split.
  - intros k x Hg. apply map_get_sets in Hg as [Hin|[_ Hg]]; [|by apply Hm].
    apply list_elem_of_fmap in Hin as (r & He & Hr). apply elem_of_filter_b in Hr as [Hr Hv].
    apply existsb_elem_of in Hv as (v & Hv & Hvr). apply elem_of_filter_b in Hv as [Hv _]. by exists r, v.
  - intros v Hv. apply map_get_sets_has. destruct (map_get (key v) m) as [x|] eqn:E; [by right; exists x|left].
    specialize (Hf v Hv). apply existsb_elem_of in Hf as (r & Hr & Hvr).
    apply list_elem_of_fmap. exists (entry r). split; [symmetry; by apply Hkey|].
    apply list_elem_of_fmap_2, elem_of_filter_b. split; [done|]. apply existsb_elem_of. exists v. split; [|done].
    apply elem_of_filter_b. split; [done|]. by apply bool_decide_eq_true.
Qed.

Lemma package_id_map_run values n db :
  catalog_ok n db ->
  exists ids rows' n', returns (package_id_map values) (n, db) ids (n', set_packages (fun _ => rows') db) /\
    n <= n' /\ catalog_ok n' (set_packages (fun _ => rows') db) /\ packages db `prefix_of` rows' /\
    id_map_of package_is package_entry (fun v => packageKey v.1 v.2) values rows' ids /\
    ((forall v, v ∈ values -> existsb (package_is v) (packages db) = true) -> rows' = packages db).
Proof.
  intros Hok.
  destruct (insert_loop packages (fun rows => set_packages (fun _ => rows)) package_is new_package)
    with (vs := values) (n := n) (s := db) as (outs & news & n' & Hr & Ho & Hi); try done.
  { by intros []. }
  { intros v id. by apply package_is_spec. }
  { intros v w id r. apply package_is_key. }
  eexists _, (packages db ++ news), n'. split; [|split; [apply Hi|split; [|split; [by eexists|split]]]].
  - unfold package_id_map. apply returns_bind. eexists _, _. split; [exact Hr|].
    apply returns_bind. eexists _, _. split; [by apply returns_gets|]. by apply returns_ret.
  - assert (Hnew := fun x => inserted_ids package_is new_package pk_id _ _ _ _ _ x (fun _ _ => eq_refl) Hi).
    destruct Hok as [H1 H2 H3 H4 H5 H6]. destruct Hi as [Hle Hn _ Hs Hids].
    assert (Hfresh : (forall m, n' <= m -> uuid m ∉ used_ids (set_packages (fun _ => packages db ++ news) db)) /\
                     (forall x, x ∈ used_ids (set_packages (fun _ => packages db ++ news) db) -> plain_id x = true)).
    { apply (fresh_more n n' (used_ids db)); [done..|]. unfold used_ids. cbn. intros x. rewrite map_app, !elem_of_app.
      intros [[?|?]|?]; eauto. }
    split; cbn; [by apply Hs|done| |done| |].
    + apply Hids; [done|done| |done]. intros r Hr0 m Hm Heq. apply (H5 m Hm). apply elem_of_app. left.
      rewrite Heq. by apply list_elem_of_fmap_2.
    + by apply Hfresh.
    + by apply Hfresh.
  - subst news. apply (id_map_built package_is package_entry _ new_package _ n n'); [|intros v r _ [E1 E2]%package_is_spec|done].
    + intros v id. by apply package_is_spec.
    + cbn. by rewrite E1, E2.
  - intros Hall. destruct news as [|r news']; [by rewrite app_nil_r|].
    destruct (ins_new _ _ _ _ _ _ _ Hi r (list_elem_of_here _ _)) as (v & j & Hv & _ & _ & Hf). by rewrite Hall in Hf.
Qed.

(** ** Finding or creating versions *)

Lemma reclassify_update old d d' r :
  r = reclassify (packageVersionCatalogUpdate old d) old ->
  reclassify (packageVersionCatalogUpdate old d') r = reclassify (packageVersionCatalogUpdate old d') old.
Proof. by intros ->. Qed.

Lemma keeps_version_id old r :
  keeps_version old r -> pv_id r = pv_id old /\ pv_package_id r = pv_package_id old /\ pv_version r = pv_version old
                         /\ pv_published_at r = pv_published_at old.
Proof. by intros [->|(d & ->)]. Qed.

(** A row's role never becomes primary again. *)
Lemma keeps_version_role old r :
  keeps_version old r -> pv_display_role old = "child" \/ pv_display_role old = "internal" ->
  pv_display_role r <> "primary".
Proof.
  intros [->|(d & ->)] Hold; [by destruct Hold as [-> | ->]|]. cbn.
  destruct (String.eqb_spec (display_role (cv_class d)) "primary") as [Hp|Hp]; [|by rewrite andb_false_r].
  by destruct Hold as [-> | ->].
Qed.

Lemma update_existing_run old m row n db :
  NoDup (map pv_id old) -> row ∈ old -> Forall2 keeps_version old (package_versions db) ->
  exists rows, returns (update_existing m row) (n, db) tt (n, set_package_versions (fun _ => rows) db) /\
    Forall2 keeps_version old rows.
Proof.
  intros Hnd Hrow Hk. unfold update_existing. destruct (map_get _ m) as [d|].
  2:{ exists (package_versions db). by destruct db. }
  destruct (shouldUpdatePackageVersionCatalog row d).
  2:{ exists (package_versions db). by destruct db. }
  eexists. split; [run_forward|]. apply Forall2_fmap_r. eapply Forall2_impl_elem; [exact Hk|].
  intros r r' Hr _ Hkr. unfold compose. destruct (String.eqb_spec (pv_id r') (pv_id row)) as [Heq|]; [|done].
  right. exists d. assert (r = row) as ->.
  { destruct (keeps_version_id _ _ Hkr) as [Hid _]. rewrite Hid in Heq.
    by apply (NoDup_map_inj pv_id old). }
  destruct Hkr as [->|(d' & ->)]; [done|by eapply reclassify_update].
Qed.

Lemma update_all_run old m l n db :
  NoDup (map pv_id old) -> (forall r, r ∈ l -> r ∈ old) -> Forall2 keeps_version old (package_versions db) ->
  exists us rows, returns (mapM_ (update_existing m) l) (n, db) us (n, set_package_versions (fun _ => rows) db) /\
    Forall2 keeps_version old rows.
Proof.
  intros Hnd. revert db. induction l as [|row l IH]; intros db Hl Hk.
  - exists [], (package_versions db). by destruct db.
  - destruct (update_existing_run old m row n db) as (rows & Hr & Hk'); [done|apply Hl, list_elem_of_here|done|].
    destruct (IH (set_package_versions (fun _ => rows) db)) as (us & rows' & Hr' & Hk'');
      [intros r Hr0; by apply Hl, list_elem_of_further|done|].
    exists (tt :: us), rows'. split; [|done]. cbn [mapM_]. apply returns_bind. eexists _, _. split; [exact Hr|].
    apply returns_bind. eexists _, _. split; [exact Hr'|]. by apply returns_ret.
Qed.

Lemma version_ids_kept old rows : Forall2 keeps_version old rows -> map pv_id rows = map pv_id old.
Proof. induction 1 as [|x y l k Hk _ IH]; [done|]. cbn. destruct (keeps_version_id _ _ Hk) as [-> _]. by rewrite IH. Qed.

Lemma version_single_kept old rows : Forall2 keeps_version old rows -> single_rows version_is old -> single_rows version_is rows.
Proof.
  intros Hk Hs v. specialize (Hs v).
  assert (He : length (List.filter (version_is v) rows) = length (List.filter (version_is v) old)); [|lia].
  clear Hs. induction Hk as [|x y l k Hk _ IH]; [done|]. cbn. destruct (keeps_version_id _ _ Hk) as (_ & Hp & Hv & _).
  assert (Heq : version_is v y = version_is v x) by (unfold version_is; by rewrite Hp, Hv). rewrite Heq.
  destruct (version_is v x); cbn; by rewrite IH.
Qed.

Lemma version_id_map_run values n db :
  catalog_ok n db ->
  (forall v, v ∈ values -> canonicalizePackageVersion (cv_version v) = cv_version v) ->
  exists ids rows n' news, returns (package_version_id_map values) (n, db) ids
      (n', set_package_versions (fun _ => rows ++ news) db) /\
    n <= n' /\ catalog_ok n' (set_package_versions (fun _ => rows ++ news) db) /\
    Forall2 keeps_version (package_versions db) rows /\
    id_map_of version_is version_row_entry version_key values (rows ++ news) ids /\
    ((forall v, v ∈ values -> existsb (version_is v) (package_versions db) = true) -> news = []).
Proof.
  intros Hok Hcanon.
  destruct (insert_loop package_versions (fun rows => set_package_versions (fun _ => rows)) version_is new_package_version)
    with (vs := values) (n := n) (s := db) as (outs & news & n' & Hr & Ho & Hi); try done.
  { by intros []. }
  { intros v id. by apply version_is_spec. }
  { intros v w id r. apply version_is_key. }
  assert (Hok1 : catalog_ok n' (set_package_versions (fun _ => package_versions db ++ news) db)).
  { assert (Hnew := fun x => inserted_ids version_is new_package_version pv_id _ _ _ _ _ x (fun _ _ => eq_refl) Hi).
    destruct Hok as [H1 H2 H3 H4 H5 H6]. destruct Hi as [Hle Hn _ Hs Hids].
    assert (Hfresh : (forall m, n' <= m -> uuid m ∉ used_ids (set_package_versions (fun _ => package_versions db ++ news) db)) /\
                     (forall x, x ∈ used_ids (set_package_versions (fun _ => package_versions db ++ news) db) -> plain_id x = true)).
    { apply (fresh_more n n' (used_ids db)); [done..|]. unfold used_ids. cbn. intros x. rewrite map_app, !elem_of_app.
      intros [?|[?|?]]; eauto. }
    split; cbn; [done|by apply Hs|done| |by apply Hfresh..].
    apply Hids; [done|done| |done]. intros r Hr0 m Hm Heq. apply (H5 m Hm). apply elem_of_app. right.
    rewrite Heq. by apply list_elem_of_fmap_2. }
  set (m := map_entries (map version_row_entry news)).
  set (missing := List.filter (fun v => bool_decide (map_get (version_key v) m = None)) values).
  set (existing := selectPackageVersionCatalogRows missing (set_package_versions (fun _ => package_versions db ++ news) db)).
  destruct (update_all_run (package_versions db ++ news) (map_entries (map (fun v => (version_key v, v)) missing)) existing n'
    (set_package_versions (fun _ => package_versions db ++ news) db)) as (us & all & Hu & Hk).
  { apply (co_version_ids _ _ Hok1). }
  { intros r Hr0. by apply elem_of_filter_b in Hr0 as [? _]. }
  { cbn. apply Forall_Forall2_diag, Forall_true. by left. }
  destruct (proj1 (Forall2_app_inv_l _ _ _ _) Hk) as (rows & news' & Hk1 & Hk2 & ->).
  eexists _, rows, n', news'. split; [|split; [apply Hi|split; [|split; [done|split]]]].
  - unfold package_version_id_map. apply returns_bind. eexists _, _. split; [exact Hr|]. rewrite Ho.
    apply returns_bind. eexists _, _. split; [by apply returns_gets|]. cbn [snd].
    apply returns_bind. eexists _, _. split; [exact Hu|]. by apply returns_ret.
  - destruct Hok1 as [H1 H2 H3 H4 H5 H6]. unfold used_ids in *. cbn in *.
    split; unfold used_ids; cbn; rewrite ?(version_ids_kept _ _ Hk); try done.
    by eapply version_single_kept.
  - assert (Him : id_map_of version_is version_row_entry version_key values (package_versions db ++ news)
                    (map_sets (map version_row_entry existing) m)).
    { apply (id_map_built version_is version_row_entry _ new_package_version _ n n'); [| |done].
      - intros v id. by apply version_is_spec.
      - intros v r Hv [E1 E2]%version_is_spec. unfold version_row_entry, row_version_key, version_key. cbn. by rewrite E1, E2. }
    destruct Him as [Hs Hc]. split; [|exact Hc]. intros k x Hg. destruct (Hs k x Hg) as (r & v & Hr0 & Hv & Hvr & He).
    destruct (Forall2_elem_of_l _ _ _ _ Hk Hr0) as (r' & Hr' & Hkr). exists r', v.
    destruct (keeps_version_id _ _ Hkr) as (E1 & E2 & E3 & _). split; [done|]. split; [done|]. split.
    + apply version_is_spec in Hvr as [F1 F2]. apply version_is_spec. by rewrite E2, E3.
    + rewrite <- He. unfold version_row_entry, row_version_key. by rewrite E1, E2, E3.
  - intros Hall. destruct news as [|r news0]; [by apply Forall2_nil_inv_l in Hk2|].
    destruct (ins_new _ _ _ _ _ _ _ Hi r (list_elem_of_here _ _)) as (v & j & Hv & _ & _ & Hf). by rewrite Hall in Hf.
Qed.

(** ** Keys *)

Lemma bar_key_inj a b c d :
  no_char "|"%char a = true -> no_char "|"%char c = true -> a +:+ "|" +:+ b = c +:+ "|" +:+ d -> a = c /\ b = d.
Proof.
  intros Ha Hc Heq. unfold no_char in Ha, Hc. do 2 (case_match; try done).
  assert (Hi := f_equal (indexOf "|"%char) Heq). change ("|" +:+ b) with (String "|" b) in *.
  change ("|" +:+ d) with (String "|" d) in *. rewrite !indexOf_app in Hi by done. injection Hi as Hl.
  assert (Hac : a = c).
  { assert (Ht := f_equal (take_str (String.length a)) Heq). rewrite take_str_app in Ht. by rewrite Hl, take_str_app in Ht. }
  subst c. split; [done|]. assert (Hd := f_equal (drop_str (S (String.length a))) Heq). by rewrite !drop_str_S_app in Hd.
Qed.

(** What canonicalisation guarantees of an identity. *)
Record keyed (i : CanonicalPackageIdentity) : Prop := {
  ky_ecosystem : canonicalizeEcosystem (id_ecosystem i) = id_ecosystem i;
  ky_package : canonicalizePackageName (id_ecosystem i) (id_package i) = id_package i;
  ky_version v : id_version i = Some v -> v <> EmptyString /\ canonicalizePackageVersion v = v
}.

Lemma canonical_keyed input : keyed (canonicalizePackageIdentity input).
Proof.
  unfold canonicalizePackageIdentity. split; cbn [id_ecosystem id_package id_version].
  - apply canonicalizeEcosystem_idem.
  - apply canonicalizePackageName_idem.
  - intros v [Hne ->]%canonicalizeOptionalPackageVersion_some. split; [done|]. apply trim_idem.
Qed.

Definition named (i : CanonicalPackageIdentity) : bool := nonempty (id_ecosystem i) && nonempty (id_package i).

(** Identities whose keys tell their packages apart. *)
Definition keys_apart (identities : list CanonicalPackageIdentity) : Prop :=
  forall i j, i ∈ identities -> j ∈ identities -> identity_key i = identity_key j ->
    id_ecosystem i = id_ecosystem j /\ id_package i = id_package j.

Lemma package_values_spec identities v :
  keys_apart identities ->
  v ∈ package_values identities <-> exists i, i ∈ identities /\ named i = true /\ v = (id_ecosystem i, id_package i).
Proof.
  intros Hk. unfold package_values. set (f := fun i => (identity_key i, (id_ecosystem i, id_package i))). split.
  - intros ([k w] & -> & Hin)%list_elem_of_fmap. apply map_entries_elem, list_elem_of_fmap in Hin as (i & He & Hi).
    apply elem_of_filter_b in Hi as [Hi Hn]. exists i. by injection He as _ ->.
  - intros (i & Hi & Hn & ->).
    destruct (map_entries_has (map f (List.filter (fun i => nonempty (id_ecosystem i) && nonempty (id_package i)) identities))
      (identity_key i)) as (w & Hw).
    { apply list_elem_of_fmap. exists (f i). split; [done|]. by apply list_elem_of_fmap_2, elem_of_filter_b. }
    apply list_elem_of_fmap. exists (identity_key i, w). split; [|done].
    apply map_entries_elem, list_elem_of_fmap in Hw as (j & He & Hj). apply elem_of_filter_b in Hj as [Hj _].
    injection He as Hkey ->. destruct (Hk i j) as [-> ->]; done.
Qed.

(** ** Resolving references *)

(** The reference the catalogue gives an identity. *)
Definition refers (db : catalog_db) (i : CanonicalPackageIdentity) (ref : PackageCatalogReference) : Prop :=
  if named i then
    exists p, p ∈ packages db /\ pk_ecosystem p = id_ecosystem i /\ pk_package p = id_package i /\
      package_id ref = Some (pk_id p) /\
      match id_version i with
      | None => package_version_id ref = None
      | Some v => exists r, r ∈ package_versions db /\ pv_package_id r = pk_id p /\ pv_version r = v /\
                            package_version_id ref = Some (pv_id r)
      end
  else ref = no_reference.

Lemma refers_functional n db i ref ref' : catalog_ok n db -> refers db i ref -> refers db i ref' -> ref = ref'.
Proof.
  intros Hok. unfold refers. destruct (named i); [|congruence].
  intros (p & Hp & He & Hk & Hid & Hv) (p' & Hp' & He' & Hk' & Hid' & Hv').
  assert (p = p') as <-.
  { apply (single_row_eq package_is (packages db) (id_ecosystem i, id_package i)); [apply (co_packages _ _ Hok)|done..| |];
      by apply package_is_spec. }
  destruct ref as [a b], ref' as [a' b']. cbn in *. destruct (id_version i) as [v|]; [|congruence].
  destruct Hv as (r & Hr & E1 & E2 & E3), Hv' as (r' & Hr' & F1 & F2 & F3).
  assert (r = r') as <-; [|congruence].
  apply (single_row_eq version_is (package_versions db)
    {| cv_package_id := pk_id p; cv_version := v; cv_class := defaultCatalogClassification |});
    [apply (co_versions _ _ Hok)|done..| |]; by apply version_is_spec.
Qed.

Lemma refers_preserved db db' i ref : preserved db db' -> refers db i ref -> refers db' i ref.
Proof.
  intros (Hp & (rows & news & Hv & Hk) & _) Hr. unfold refers in *. destruct (named i); [|done].
  destruct Hr as (p & Hpin & He & Hpk & Hid & Hver). exists p. split; [|split; [done|split; [done|split; [done|]]]].
  - destruct Hp as [l ->]. apply elem_of_app. by left.
  - destruct (id_version i) as [v|]; [|done]. destruct Hver as (r & Hr & E1 & E2 & E3).
    destruct (Forall2_elem_of_l _ _ _ _ Hk Hr) as (r' & Hr' & Hkr). destruct (keeps_version_id _ _ Hkr) as (F1 & F2 & F3 & _).
    exists r'. rewrite F1, F2, F3, Hv. split; [|done]. apply elem_of_app. by left.
Qed.

Definition input_identity (x : PackageCatalogReferenceInput) : CanonicalPackageIdentity :=
  canonicalizePackageIdentity (ci_input x).

Lemma input_keyed x : keyed (input_identity x).
Proof. apply canonical_keyed. Qed.

(** Inputs that can be classified: the ecosystem is not the name of an inherited
    property. *)
Definition classified_input (x : PackageCatalogReferenceInput) : bool :=
  match classifierFor (i_ecosystem (ci_input x)) with Some inherited_object => false | _ => true end.

Lemma classified_defaults x : classified_input x = true -> exists c, catalogReferenceDefaults x = Ok c.
Proof.
  unfold classified_input. intros Hc. unfold catalogReferenceDefaults, classifyPackageCatalogVersion.
  destruct (classifierFor _) as [[]|]; [|done|]; by eexists.
Qed.

(** Inputs no two of which share a key without sharing the package: one alone, or any
    with no bar in their ecosystems. *)
Definition inputs_apart (inputs : list PackageCatalogReferenceInput) : Prop := keys_apart (map input_identity inputs).

Lemma single_apart x : inputs_apart [x].
Proof. intros i j Hi%list_elem_of_singleton Hj%list_elem_of_singleton _. by subst. Qed.

Lemma barless_apart inputs :
  forallb (fun x => no_char "|"%char (canonicalizeEcosystem (i_ecosystem (ci_input x)))) inputs = true -> inputs_apart inputs.
Proof.
  intros Hb i j (x & -> & Hx)%list_elem_of_fmap (y & -> & Hy)%list_elem_of_fmap.
  apply (proj1 (forallb_elem_of _ _)) with (1 := Hb) in Hx, Hy.
  assert (Hkx := input_keyed x). assert (Hky := input_keyed y).
  unfold identity_key, packageKey. rewrite !ky_ecosystem, !ky_package by done. by apply bar_key_inj.
Qed.

(** The version values the resolution works on. *)
Lemma version_entries_run ids inputs :
  forallb classified_input inputs = true ->
  exists entries, map_res (version_entry ids) (zip inputs (map input_identity inputs)) = Ok entries /\
    Forall2 (fun x e => match present (map_get (identity_key (input_identity x)) ids), present (id_version (input_identity x)) with
                        | Some pid, Some v => exists c, e = Some (packageVersionKey pid v, {| cv_package_id := pid; cv_version := v; cv_class := c |})
                        | _, _ => e = None
                        end) inputs entries.
Proof.
  induction inputs as [|x inputs IH]; [intros _; by exists []|]. cbn [forallb]. intros [Hx Hxs]%andb_prop.
  destruct (IH Hxs) as (entries & He & Hf). cbn [map zip zip_with map_res].
  assert (Hv : exists e, version_entry ids (x, input_identity x) = Ok e /\
    match present (map_get (identity_key (input_identity x)) ids), present (id_version (input_identity x)) with
    | Some pid, Some v => exists c, e = Some (packageVersionKey pid v, {| cv_package_id := pid; cv_version := v; cv_class := c |})
    | _, _ => e = None
    end).
  { unfold version_entry. cbn [fst snd]. destruct (present (map_get _ ids)) as [pid|]; [|by eexists].
    destruct (present (id_version _)) as [v|]; [|by eexists].
    destruct (classified_defaults x Hx) as [c ->]. eexists. split; [done|by exists c]. }
  destruct Hv as (e & Hv & Hs). exists (e :: entries). split; [|by constructor].
  rewrite Hv. cbn. by rewrite He.
Qed.

Lemma version_key_inj pid v r w :
  plain_id pid = true -> plain_id (cv_package_id w) = true -> canonicalizePackageVersion v = v ->
  canonicalizePackageVersion (cv_version w) = cv_version w -> version_is w r = true ->
  row_version_key r = packageVersionKey pid v -> pv_package_id r = pid /\ pv_version r = v.
Proof.
  intros [_ Hp]%andb_prop [_ Hw]%andb_prop Hv Hcw [E1 E2]%version_is_spec Hkey.
  unfold row_version_key, packageVersionKey in Hkey. rewrite E1, E2, Hcw, Hv in Hkey. rewrite E1, E2.
  by apply bar_key_inj in Hkey.
Qed.

Lemma plain_present x : plain_id x = true -> present (Some x) = Some x.
Proof. intros [Hx _]%andb_prop. apply present_some. split; [done|]. intros ->. done. Qed.

Lemma unnamed_key ids identities values rows i :
  keys_apart identities -> i ∈ identities -> named i = false ->
  (forall v, v ∈ values -> exists j, j ∈ identities /\ named j = true /\ v = (id_ecosystem j, id_package j)) ->
  id_map_of package_is package_entry (fun v => packageKey v.1 v.2) values rows ids ->
  map_get (identity_key i) ids = None.
Proof.
  intros Hk Hi Hn Hvals [Hs _]. destruct (map_get (identity_key i) ids) as [x|] eqn:E; [|done].
  destruct (Hs _ _ E) as (r & v & _ & Hv & [E1 E2]%package_is_spec & Hkey).
  destruct (Hvals v Hv) as (j & Hj & Hnj & ->). cbn in E1, E2.
  unfold package_entry in Hkey. injection Hkey as Hkey _. rewrite E1, E2 in Hkey.
  destruct (Hk j i Hj Hi Hkey) as [F1 F2]. unfold named in *. rewrite F1, F2 in Hnj. congruence.
Qed.

(** The identifier map of the packages finds each named identity's row. *)
Lemma id_map_package ids identities rows i :
  keys_apart identities -> i ∈ identities -> named i = true ->
  id_map_of package_is package_entry (fun v => packageKey v.1 v.2) (package_values identities) rows ids ->
  exists p, p ∈ rows /\ pk_ecosystem p = id_ecosystem i /\ pk_package p = id_package i /\
            map_get (identity_key i) ids = Some (pk_id p).
Proof.
  intros Hk Hi Hn [Hs Hc].
  destruct (Hc (id_ecosystem i, id_package i)) as [x Hx]; [apply package_values_spec; [done|by exists i]|].
  cbn [fst snd] in Hx. change (packageKey (id_ecosystem i) (id_package i)) with (identity_key i) in Hx.
  destruct (Hs _ _ Hx) as (p & v & Hp & Hv & [E1 E2]%package_is_spec & He).
  apply package_values_spec in Hv as (j & Hj & _ & ->); [|done]. cbn in E1, E2.
  unfold package_entry in He. injection He as Hkey <-. rewrite E1, E2 in Hkey.
  destruct (Hk j i) as [F1 F2]; [done|done|exact Hkey|].
  exists p. rewrite E1, E2, F1, F2. done.
Qed.

(** The version values come from the entries of the inputs. *)
Lemma version_value_from ids inputs entries w :
  Forall2 (fun x e => match present (map_get (identity_key (input_identity x)) ids), present (id_version (input_identity x)) with
                      | Some pid, Some v => exists c, e = Some (packageVersionKey pid v, {| cv_package_id := pid; cv_version := v; cv_class := c |})
                      | _, _ => e = None
                      end) inputs entries ->
  (forall k, (k, w) ∈ map_entries (omap id entries) -> k = version_key w /\
     exists x, x ∈ inputs /\ present (map_get (identity_key (input_identity x)) ids) = Some (cv_package_id w) /\
               present (id_version (input_identity x)) = Some (cv_version w)).
Proof.
  intros Hf k Hin. apply map_entries_elem, list_elem_of_omap in Hin as (e & He & Heq). cbn in Heq. subst e.
  destruct (Forall2_elem_of_r _ _ _ _ Hf He) as (x & Hx & Hs).
  destruct (present (map_get _ ids)) as [pid|] eqn:E1; [|done]. destruct (present (id_version _)) as [v|] eqn:E2; [|done].
  destruct Hs as (c & [= -> ->]). split; [done|]. by exists x.
Qed.

Lemma version_value_has ids inputs entries x pid v :
  Forall2 (fun x e => match present (map_get (identity_key (input_identity x)) ids), present (id_version (input_identity x)) with
                      | Some pid, Some v => exists c, e = Some (packageVersionKey pid v, {| cv_package_id := pid; cv_version := v; cv_class := c |})
                      | _, _ => e = None
                      end) inputs entries ->
  x ∈ inputs -> present (map_get (identity_key (input_identity x)) ids) = Some pid ->
  present (id_version (input_identity x)) = Some v ->
  exists w, w ∈ snd <$> map_entries (omap id entries) /\ version_key w = packageVersionKey pid v.
Proof.
  intros Hf Hx E1 E2. destruct (Forall2_elem_of_l _ _ _ _ Hf Hx) as (e & He & Hs). rewrite E1, E2 in Hs.
  destruct Hs as (c & ->).
  destruct (map_entries_has (omap id entries) (packageVersionKey pid v)) as (w & Hw).
  { apply list_elem_of_fmap. eexists (_, _). split; [done|]. apply list_elem_of_omap. by eexists. }
  exists w. split; [apply list_elem_of_fmap; by exists (packageVersionKey pid v, w)|].
  symmetry. by apply (version_value_from ids inputs entries w Hf).
Qed.

Lemma resolve_run inputs n db :
  catalog_ok n db -> inputs_apart inputs -> forallb classified_input inputs = true ->
  exists refs n' db', returns (resolvePackageCatalogReferences inputs) (n, db) refs (n', db') /\
    n <= n' /\ catalog_ok n' db' /\ preserved db db' /\
    Forall2 (fun x ref => refers db' (input_identity x) ref) inputs refs /\
    ((forall x, x ∈ inputs -> exists ref, refers db (input_identity x) ref) ->
     packages db' = packages db /\ length (package_versions db') = length (package_versions db)).
Proof.
  intros Hok Hapart Hgood. set (identities := map input_identity inputs). change (keys_apart identities) in Hapart.
  assert (Hkeyed : forall i, i ∈ identities -> keyed i) by (intros i (x & -> & Hx)%list_elem_of_fmap; apply input_keyed).
  unfold resolvePackageCatalogReferences.
  change (map (fun i => canonicalizePackageIdentity (ci_input i)) inputs) with identities.
  destruct (package_values identities) as [|v0 vs] eqn:Evals.
  { exists (map (fun _ => no_reference) identities), n, db. split; [by apply returns_ret|]. split; [lia|]. split; [done|].
    split; [split; [by exists []; rewrite app_nil_r|split; [|by repeat split]]|split; [|by repeat split]].
    - exists (package_versions db), []. rewrite app_nil_r. split; [done|]. apply Forall_Forall2_diag, Forall_true. by left.
    - unfold identities. rewrite map_map. apply Forall2_fmap_r, Forall_Forall2_diag, Forall_forall. intros x Hx.
      unfold refers. destruct (named (input_identity x)) eqn:En; [|done].
      assert (Hin : (id_ecosystem (input_identity x), id_package (input_identity x)) ∈ package_values identities).
      { apply package_values_spec; [done|]. exists (input_identity x). split; [by apply list_elem_of_fmap_2|done]. }
      rewrite Evals in Hin. by apply not_elem_of_nil in Hin. }
  rewrite <- Evals. clear Evals v0 vs.
  destruct (package_id_map_run (package_values identities) n db Hok) as (ids & rows & n1 & Hr1 & Hn1 & Hok1 & Hpre & Hids & Hold1).
  destruct (version_entries_run ids inputs Hgood) as (entries & Hent & Hf).
  set (values := snd <$> map_entries (omap id entries)).
  destruct (version_id_map_run values n1 (set_packages (fun _ => rows) db) Hok1)
    as (vids & vrows & n2 & news & Hr2 & Hn2 & Hok2 & Hkeep & Hvids & Hold2).
  { intros w ([k w'] & -> & Hin)%list_elem_of_fmap. destruct (version_value_from _ _ _ _ Hf _ Hin) as (_ & x & Hx & _ & Hv).
    apply present_some in Hv as [Hv _]. cbn. eapply ky_version; [|exact Hv]. apply Hkeyed. by apply list_elem_of_fmap_2. }
  eexists _, n2, _. split; [|split; [lia|split; [exact Hok2|split; [|split]]]].
  - apply returns_bind. eexists _, _. split; [exact Hr1|]. apply returns_bind. eexists _, _.
    split; [apply returns_of_res; split; [exact Hent|done]|].
    apply returns_bind. eexists _, _. split; [exact Hr2|]. by apply returns_ret.
  - split; [done|]. split; [|by repeat split]. by exists vrows, news.
  - unfold identities. rewrite map_map. apply Forall2_fmap_r, Forall_Forall2_diag, Forall_forall. intros x Hx. unfold compose.
    assert (Hi : input_identity x ∈ identities) by (by apply list_elem_of_fmap_2). assert (Hkx := Hkeyed _ Hi).
    unfold refers. destruct (named (input_identity x)) eqn:En.
    + destruct (id_map_package _ _ _ _ Hapart Hi En Hids) as (p & Hp & E1 & E2 & Hg). cbn [packages set_package_versions set_packages].
      exists p. split; [done|]. split; [done|]. split; [done|]. unfold catalog_reference. rewrite Hg. split; [done|].
      cbn [package_version_id].
      assert (Hplain : plain_id (pk_id p) = true).
      { apply (co_plain _ _ Hok1). apply elem_of_app. left. by apply list_elem_of_fmap_2. }
      rewrite plain_present by done.
      destruct (id_version (input_identity x)) as [v|] eqn:Ev; [|done].
      destruct (ky_version _ Hkx v Ev) as [Hne Hcv].
      assert (Hpv : present (Some v) = Some v) by (by apply present_some). rewrite Hpv.
      destruct (version_value_has ids inputs entries x (pk_id p) v Hf Hx) as (w & Hw & Hkey);
        [by rewrite Hg, plain_present|by rewrite Ev|].
      destruct Hvids as [Hs Hc]. destruct (Hc w Hw) as [y Hy]. rewrite Hkey in Hy. rewrite Hy.
      destruct (Hs _ _ Hy) as (r & w' & Hr & Hw' & His & He). unfold version_row_entry in He. injection He as Hrk <-.
      apply list_elem_of_fmap in Hw' as ([k' w''] & -> & Hin'). cbn [snd] in His.
      destruct (version_value_from _ _ _ _ Hf _ Hin') as (_ & x' & Hx' & Hp' & Hv').
      exists r. split; [done|]. apply present_some in Hv' as [Hv' Hvne]. apply present_some in Hp' as [Hp' _].
      assert (Hplain' : plain_id (cv_package_id w'') = true).
      { destruct Hids as [Hsid _]. destruct (Hsid _ _ Hp') as (r' & v' & Hr' & _ & _ & He'). injection He' as _ <-.
        apply (co_plain _ _ Hok1). apply elem_of_app. left. by apply list_elem_of_fmap_2. }
      destruct (version_key_inj (pk_id p) v r w'') as [F1 F2]; [done|done|done| |done|done|done].
      eapply ky_version; [|exact Hv']. apply Hkeyed. by apply list_elem_of_fmap_2.
    + unfold catalog_reference. rewrite (unnamed_key ids identities (package_values identities) rows); [done|done|done|done| |done].
      intros v' (j & Hj & Hnj & ->)%package_values_spec; [|done]. exists j. auto.
  - intros Hknown. assert (Hrows : rows = packages db).
    { apply Hold1. intros v (i & (x & -> & Hx)%list_elem_of_fmap & Hn & ->)%package_values_spec; [|done].
      destruct (Hknown x Hx) as (ref & Href). unfold refers in Href. rewrite Hn in Href.
      destruct Href as (p & Hp & E1 & E2 & _). apply existsb_elem_of. exists p. split; [done|]. by apply package_is_spec. }
    assert (news = []) as ->.
    { apply Hold2. intros w ([k w'] & -> & Hin)%list_elem_of_fmap. cbn [snd].
      destruct (version_value_from _ _ _ _ Hf _ Hin) as (_ & x & Hx & Hpid & Hver).
      apply present_some in Hpid as [Hpid _]. apply present_some in Hver as [Hver _].
      assert (Hi : input_identity x ∈ identities) by (by apply list_elem_of_fmap_2).
      destruct (named (input_identity x)) eqn:En.
      2:{ rewrite (unnamed_key ids identities (package_values identities) rows) in Hpid; [done|done|done|done| |done].
          intros v' (j & Hj & Hnj & ->)%package_values_spec; [|done]. exists j. auto. }
      destruct (id_map_package _ _ _ _ Hapart Hi En Hids) as (p & Hp & E1 & E2 & Hg).
      destruct (Hknown x Hx) as (ref & Href). unfold refers in Href. rewrite En in Href.
      destruct Href as (p' & Hp' & F1 & F2 & _ & Hv). rewrite Hver in Hv. destruct Hv as (r & Hr & G1 & G2 & _).
      assert (p = p') as <-.
      { rewrite Hrows in Hp. apply (single_row_eq package_is (packages db) (id_ecosystem (input_identity x), id_package (input_identity x)));
          [apply (co_packages _ _ Hok)|done|done|by apply package_is_spec..]. }
      apply existsb_elem_of. exists r. split; [done|]. apply version_is_spec. split; [|done]. congruence. }
    cbn. rewrite app_nil_r. split; [done|]. symmetry. by eapply Forall2_length.
Qed.

(** ** Preferred references *)

Definition preferred_of (vid : string) (r : package_version_ref_row) : bool :=
  String.eqb (pr_package_version_id r) vid && pr_is_display_preferred r.

Definition ref_key (r : package_version_ref_row) : string * string * string * string * string :=
  (pr_package_id r, pr_ref r, pr_ref_kind r, pr_package_version_id r, pr_source r).

Record refs_ok (rows : list package_version_ref_row) : Prop := {
  ro_preferred vid : length (List.filter (preferred_of vid) rows) <= 1;
  ro_unique k : length (List.filter (fun r => bool_decide (ref_key r = k)) rows) <= 1
}.

Lemma same_ref_key i ref r :
  same_ref i ref r = bool_decide (ref_key r = (vr_package_id i, ref, vr_ref_kind i, vr_package_version_id i, vr_source i)).
Proof.
  apply Bool.eq_iff_eq_true. unfold same_ref, ref_key. rewrite bool_decide_eq_true, !andb_true_iff, !String.eqb_eq.
  split; [by intros ((((-> & ->) & ->) & ->) & ->)|by intros [= -> -> -> -> ->]].
Qed.

Lemma updated_ref_key t b m r : ref_key (updated_ref t b m r) = ref_key r.
Proof. unfold updated_ref. by destruct (ref_changes t b m r). Qed.

Lemma clear_preferred_key vid r : ref_key (clear_preferred vid r) = ref_key r.
Proof. unfold clear_preferred. by destruct (_ && _). Qed.

Lemma filter_map_le {A} (p : A -> bool) (f : A -> A) l :
  (forall x, p (f x) = true -> p x = true) -> length (List.filter p (map f l)) <= length (List.filter p l).
Proof.
  intros Hf. induction l as [|x l IH]; cbn; [lia|]. specialize (Hf x).
  destruct (p (f x)); [rewrite Hf by done; cbn; lia|destruct (p x); cbn; lia].
Qed.

Lemma clear_preferred_ok vid rows : refs_ok rows -> refs_ok (map (clear_preferred vid) rows).
Proof.
  intros [H1 H2]. split.
  - intros v. etrans; [apply filter_map_le|apply H1]. intros r. unfold clear_preferred, preferred_of.
    destruct (String.eqb (pr_package_version_id r) vid && pr_is_display_preferred r); cbn; [|done].
    by rewrite andb_false_r.
  - intros k. etrans; [apply filter_map_le|apply H2]. intros r. by rewrite clear_preferred_key.
Qed.

Lemma clear_preferred_none vid rows : existsb (preferred_of vid) (map (clear_preferred vid) rows) = false.
Proof.
  induction rows as [|r rows IH]; [done|]. cbn. rewrite IH, orb_false_r. unfold clear_preferred, preferred_of.
  destruct (String.eqb (pr_package_version_id r) vid && pr_is_display_preferred r) eqn:E; [cbn; by rewrite andb_false_r|done].
Qed.

Lemma upsert_ref_ok i ref t b m rows :
  refs_ok rows -> (b = true -> existsb (preferred_of (vr_package_version_id i)) rows = false) ->
  refs_ok (upsert (same_ref i ref) (updated_ref t b m) (new_ref i ref t b) rows).1.
Proof.
  intros [H1 H2] Hb.
  assert (Hver : forall r, same_ref i ref r = true -> pr_package_version_id r = vr_package_version_id i).
  { intros r. rewrite same_ref_key, bool_decide_eq_true. unfold ref_key. congruence. }
  split.
  - intros v. destruct (decide (b = true /\ v = vr_package_version_id i)) as [[-> ->]|Hne];
      [by apply upsert_filter_one, Hb|].
    etrans; [apply upsert_filter_le|apply H1].
    + intros r _ Hc. unfold preferred_of, updated_ref. rewrite (Hver r Hc).
      destruct (ref_changes t b m r); cbn; rewrite ?(Hver r Hc); [|done].
      rewrite andb_true_iff, String.eqb_eq. intros [<- ->]. by destruct Hne.
    + unfold preferred_of. cbn. apply not_true_iff_false. rewrite andb_true_iff, String.eqb_eq. intros [<- ->]. by destruct Hne.
  - intros k. destruct (decide (k = (vr_package_id i, ref, vr_ref_kind i, vr_package_version_id i, vr_source i))) as [->|Hne].
    + rewrite upsert_same; [cbn; lia| | | |apply H2].
      * intros r _. by rewrite same_ref_key.
      * by apply bool_decide_eq_true.
      * intros r Hr. rewrite updated_ref_key. by rewrite <- same_ref_key.
    + etrans; [apply upsert_filter_le|apply H2].
      * intros r _ _. by rewrite updated_ref_key.
      * apply bool_decide_eq_false. intros Heq. by apply Hne.
Qed.

Definition refs_kept (_ : nat) (db : catalog_db) : Prop := refs_ok (package_version_refs db).

Lemma upsertPackageVersionRef_keeps i : keeps refs_kept (upsertPackageVersionRef i).
Proof.
  unfold upsertPackageVersionRef. destruct (negb _); [apply keeps_ret|].
  apply keeps_bind; [destruct (vr_observed_at i); [apply keeps_ret|apply keeps_now; by intros ?]|]. intros t.
  destruct (default false (vr_is_display_preferred i)).
  - intros n db Hok. unfold mbind, eff_bind, modify. cbn [fst snd]. split; [lia|]. apply upsert_ref_ok; [by apply clear_preferred_ok|].
    intros _. apply clear_preferred_none.
  - apply keeps_bind; [apply keeps_ret|]. intros _. apply keeps_modify. intros n db Hok. by apply upsert_ref_ok.
Qed.

Lemma resolve_keeps inputs : keeps refs_kept (resolvePackageCatalogReferences inputs).
Proof.
  unfold resolvePackageCatalogReferences, package_id_map, package_version_id_map, insert_package,
    insert_package_version, insert_or_nothing, update_existing, updatePackageVersionCatalogRow.
  by keeps_walk.
Qed.
End correct.
