(* ===== verification/CatalogSpec.v ===== *)
(** * What the package catalogue guarantees

    References are found or created once and stay, for inputs whose keys tell them
    apart; a version recorded as part of another one stays so; a version has one
    preferred reference. *)

From Stdlib Require Import Ascii.
From stdpp Require Import pretty.
From S2P Require Import Prelude JsString JsNum JsValue Json Jsonb Sql Effects Identity Schema Catalog CatalogCorrect.
Local Open Scope string_scope.
Local Open Scope list_scope.
Local Open Scope nat_scope.

(** ** The example environment's identifiers *)

Lemma example_uuid_plain n : plain_id (@uuid example_env n) = true.
Proof.
  unfold plain_id. rewrite example_uuid_no_char by (intros d; unfold pretty_N_char; by repeat case_match).
  rewrite andb_true_r. unfold nonempty. apply negb_true_iff, String.eqb_neq, example_uuid_nonempty.
Qed.

Section spec.
Context `{Env}.
Context (uuid_inj : forall m n, uuid m = uuid n -> m = n) (uuid_plain : forall n, plain_id (uuid n) = true).

(** C38: references are created once and stay: resolving inputs returns one
    reference per input, which points to the catalogue's only row of its package
    and of its version (inputs without an ecosystem or a name get none); no row is
    dropped or renamed, nothing else is touched; and resolving the same inputs
    again gives the same references and adds no row.  This holds of any input alone,
    and of inputs together when no two packages share the key the code joins with a
    bar, unless an ecosystem is the name of a property that every object inherits:
    [bar_keys_collide] and [inherited_ecosystem_throws] show that neither can be
    left out. *)
Theorem catalog_references_stable inputs n db :
  catalog_ok n db -> inputs_apart inputs -> forallb classified_input inputs = true ->
  exists refs n' db', returns (resolvePackageCatalogReferences inputs) (n, db) refs (n', db') /\
    catalog_ok n' db' /\ preserved db db' /\
    Forall2 (fun x ref => refers db' (input_identity x) ref) inputs refs /\
    exists n2 db2, returns (resolvePackageCatalogReferences inputs) (n', db') refs (n2, db2) /\
      packages db2 = packages db' /\ map pv_id (package_versions db2) = map pv_id (package_versions db').
Proof.
  intros Hok Hapart Hgood.
  destruct (resolve_run uuid_inj uuid_plain inputs n db Hok Hapart Hgood) as (refs & n' & db' & Hr & _ & Hok' & Hp & Hf & _).
  exists refs, n', db'. split; [done|]. split; [done|]. split; [done|]. split; [done|].
  destruct (resolve_run uuid_inj uuid_plain inputs n' db' Hok' Hapart Hgood) as (refs2 & n2 & db2 & Hr2 & _ & Hok2 & Hp2 & Hf2 & Hknown).
  destruct Hknown as [Hpk Hl].
  { intros x Hx. destruct (Forall2_elem_of_l _ _ _ _ Hf Hx) as (ref & _ & Href). by exists ref. }
  assert (refs2 = refs) as ->.
  { clear -Hf Hf2 Hok2 Hp2. revert refs2 Hf2. induction Hf as [|x ref inputs refs Hx _ IH]; intros refs2 Hf2.
    - by apply Forall2_nil_inv_l in Hf2.
    - apply Forall2_cons_inv_l in Hf2 as (ref2 & refs2' & Hx2 & Hf2 & ->). f_equal; [|by apply IH].
      eapply refers_functional; [exact Hok2|exact Hx2|]. by eapply refers_preserved. }
  exists n2, db2. split; [done|]. split; [done|].
  destruct Hp2 as (_ & (rows & news & Hv & Hk) & _). rewrite Hv, map_app, (version_ids_kept _ _ Hk).
  rewrite Hv, length_app, <- (Forall2_length _ _ _ Hk) in Hl. destruct news; [cbn; by rewrite app_nil_r|cbn in Hl; lia].
Qed.

(** An ecosystem that is the name of an inherited property cannot be resolved: the
    classifier found for it has no methods. *)
Theorem inherited_ecosystem_throws x v n db :
  catalog_ok n db -> classified_input x = false -> named (input_identity x) = true -> id_version (input_identity x) = Some v ->
  exists s', resolvePackageCatalogReferences [x] (n, db) = (Throw "TypeError", s').
Proof.
  intros Hok Hc Hn Hv. unfold resolvePackageCatalogReferences. cbn [map]. change (canonicalizePackageIdentity (ci_input x)) with (input_identity x).
  set (identities := [input_identity x]). assert (Hapart := single_apart x). change (keys_apart identities) in Hapart.
  assert (Hi : input_identity x ∈ identities) by apply list_elem_of_here.
  destruct (package_id_map_run uuid_inj uuid_plain (package_values identities) n db Hok) as (ids & rows & n1 & Hr & _ & Hok1 & _ & Hids & _).
  destruct (id_map_package _ _ _ _ Hapart Hi Hn Hids) as (p & Hp & _ & _ & Hg).
  destruct (package_values identities) as [|v0 vs] eqn:Ev.
  { assert (Hin : (id_ecosystem (input_identity x), id_package (input_identity x)) ∈ package_values identities)
      by (apply package_values_spec; [done|by exists (input_identity x)]). rewrite Ev in Hin. by apply not_elem_of_nil in Hin. }
  exists (n1, set_packages (fun _ => rows) db). unfold mbind, eff_bind. unfold returns in Hr. rewrite Hr.
  assert (Hplain : plain_id (pk_id p) = true).
  { apply (co_plain _ _ Hok1). apply elem_of_app. left. by apply list_elem_of_fmap_2. }
  assert (He : version_entry ids (x, input_identity x) = Throw "TypeError").
  { unfold version_entry. cbn [fst snd]. rewrite Hg, Hv, plain_present by done.
    rewrite (proj2 (present_some (Some v) v)) by (split; [done|]; by apply (ky_version _ (input_keyed x))).
    unfold catalogReferenceDefaults, classifyPackageCatalogVersion. unfold classified_input in Hc.
    by destruct (classifierFor _) as [[]|]. }
  assert (Hm : map_res (version_entry ids) (zip [x] identities) = Throw "TypeError").
  { change (zip [x] identities) with [(x, input_identity x)]. cbn [map_res]. by rewrite He. }
  by rewrite Hm.
Qed.

(** A part stays a part: a version the catalogue records as the child or as an
    internal blob of another one is never turned into a primary version by a later
    resolution, and keeps its identifier, version and publication date. *)
Theorem child_version_stays inputs n db refs n' db' r :
  catalog_ok n db -> inputs_apart inputs -> forallb classified_input inputs = true ->
  returns (resolvePackageCatalogReferences inputs) (n, db) refs (n', db') ->
  r ∈ package_versions db -> pv_display_role r = "child" \/ pv_display_role r = "internal" ->
  exists r', r' ∈ package_versions db' /\ pv_id r' = pv_id r /\ pv_version r' = pv_version r /\
    pv_published_at r' = pv_published_at r /\ pv_display_role r' <> "primary".
Proof.
  intros Hok Hapart Hgood Hr Hin Hrole.
  destruct (resolve_run uuid_inj uuid_plain inputs n db Hok Hapart Hgood) as (refs1 & n1 & db1 & Hr1 & _ & _ & Hp & _).
  assert (db1 = db') as -> by (unfold returns in *; congruence).
  destruct Hp as (_ & (rows & news & Hv & Hk) & _). destruct (Forall2_elem_of_l _ _ _ _ Hk Hin) as (r' & Hr' & Hkr).
  destruct (keeps_version_id _ _ Hkr) as (E1 & _ & E3 & E4). exists r'. split; [rewrite Hv; apply elem_of_app; by left|].
  split; [done|]. split; [done|]. split; [done|]. by eapply keeps_version_role.
Qed.

(** C39: a version has one preferred reference: recording what a request shows of a
    version, and of the versions related to it, keeps at most one preferred
    reference per version and one row per reference, whether it returns or
    throws. *)
Theorem preferred_reference_unique input related :
  keeps refs_kept (recordObservedPackageVersionRefs input) /\
  keeps refs_kept (recordPackageVersionRelatedVersions related).
Proof.
  split.
  - unfold recordObservedPackageVersionRefs, upsertPackageVersionMetadata.
    repeat (apply upsertPackageVersionRef_keeps || keeps_step); done.
  - unfold recordPackageVersionRelatedVersions, record_related, upsertPackageVersionMetadata,
      upsertPackageVersionRelationship.
    repeat (apply upsertPackageVersionRef_keeps || apply resolve_keeps || keeps_step); done.
Qed.
End spec.

(** ** Witnesses *)

Definition catalog_example_db : catalog_db :=
  {| packages := [{| pk_id := "p"; pk_ecosystem := "docker"; pk_package := "library/nginx";
                     pk_latest_package_version_id := None;
                     pk_last_metadata_seen_at := None |}];
     package_versions := [{| pv_id := "v"; pv_package_id := "p"; pv_version := "sha256:ab"; pv_version_kind := "digest";
                             pv_artifact_kind := "docker_manifest"; pv_display_role := "child"; pv_published_at := None;
       pv_last_metadata_seen_at := None; pv_last_used_at := None |}];
     package_version_refs := []; package_version_metadata := []; package_version_relationships := [] |}.

Definition catalog_example_inputs : list PackageCatalogReferenceInput :=
  [plain_input {| i_ecosystem := " NPM "; i_package := "Left-Pad"; i_version := Some "1.3.0" |};
   plain_input {| i_ecosystem := "docker"; i_package := "library/nginx"; i_version := Some "sha256:ab" |}].

Lemma catalog_example_ok : @catalog_ok example_env 0 catalog_example_db.
Proof.
  split.
  - intros v. cbn. destruct (package_is v _); cbn; lia.
  - intros v. cbn. destruct (version_is v _); cbn; lia.
  - apply NoDup_singleton.
  - apply NoDup_singleton.
  - intros m _ [Heq|[Heq|[]%not_elem_of_nil]%elem_of_cons]%elem_of_cons.
    + assert (Hm := example_uuid_no_char "p" m). rewrite Heq in Hm. discriminate Hm.
      intros d. unfold pretty_N_char. by repeat case_match.
    + assert (Hm := example_uuid_no_char "v" m). rewrite Heq in Hm. discriminate Hm.
      intros d. unfold pretty_N_char. by repeat case_match.
  - intros x [->|[->|[]%not_elem_of_nil]%elem_of_cons]%elem_of_cons; done.
Qed.

Lemma catalog_references_stable_witness :
  exists refs n' db',
    @returns catalog_db _ (@resolvePackageCatalogReferences example_env catalog_example_inputs) (0, catalog_example_db) refs (n', db') /\
    length refs = 2.
Proof.
  destruct (@catalog_references_stable example_env example_uuid_inj example_uuid_plain catalog_example_inputs 0 catalog_example_db)
    as (refs & n' & db' & Hr & _ & _ & Hf & _); [exact catalog_example_ok|by apply barless_apart|reflexivity|].
  exists refs, n', db'. split; [exact Hr|]. symmetry. exact (Forall2_length _ _ _ Hf).
Defined.

Lemma child_version_stays_witness :
  exists r', r' ∈ package_versions (@resolvePackageCatalogReferences example_env catalog_example_inputs (0, catalog_example_db)).2.2 /\
    pv_id r' = "v" /\ pv_display_role r' <> "primary".
Proof.
  destruct (@child_version_stays example_env example_uuid_inj example_uuid_plain catalog_example_inputs 0 catalog_example_db
    [{| package_id := Some "0"; package_version_id := Some "1" |}; {| package_id := Some "p"; package_version_id := Some "v" |}]
    2 (@resolvePackageCatalogReferences example_env catalog_example_inputs (0, catalog_example_db)).2.2
    {| pv_id := "v"; pv_package_id := "p"; pv_version := "sha256:ab"; pv_version_kind := "digest";
       pv_artifact_kind := "docker_manifest"; pv_display_role := "child"; pv_published_at := None;
       pv_last_metadata_seen_at := None; pv_last_used_at := None |})
    as (r' & Hr' & Hid & _ & _ & Hrole);
    [exact catalog_example_ok|by apply barless_apart|reflexivity|vm_compute; reflexivity|apply list_elem_of_here|left; reflexivity|].
  exists r'. split; [exact Hr'|]. split; [exact Hid|exact Hrole].
Defined.

(** Two packages that share a key get one reference: the second's. *)
Definition colliding_inputs : list PackageCatalogReferenceInput :=
  [plain_input {| i_ecosystem := "a"; i_package := "b|c"; i_version := None |};
   plain_input {| i_ecosystem := "a|b"; i_package := "c"; i_version := None |}].

Lemma bar_keys_collide :
  exists refs ref s', @resolvePackageCatalogReferences example_env colliding_inputs (0, catalog_example_db) = (Ok refs, s') /\
    refs = [ref; ref] /\ refers s'.2 (input_identity (plain_input {| i_ecosystem := "a|b"; i_package := "c"; i_version := None |})) ref /\
    ~ exists p, p ∈ packages s'.2 /\ pk_ecosystem p = "a" /\ pk_package p = "b|c".
Proof.
  eexists _, _, _. split; [vm_compute; reflexivity|]. split; [reflexivity|]. split.
  - eexists. split; [apply (list_elem_of_lookup_2 _ 1); reflexivity|]. repeat split.
  - intros (p & Hp & He & _). cbn in Hp. apply elem_of_cons in Hp as [-> |Hp%list_elem_of_singleton]; [done|]. by subst p.
Qed.
