(* ===== verification/Freshness.v ===== *)
(** * Package freshness (services/api/src/features/package-freshness/service.ts)

    A proxy reports what a registry says is the latest version of a package, and
    which version it used.  The reports come in any order; the pointer to the
    latest version follows the report that was observed last. *)

From S2P Require Import Prelude JsString JsValue Sql Effects JsDate Identity Schema Catalog.
Local Open Scope string_scope.
Local Open Scope list_scope.
Local Open Scope Z_scope.

(** ** Reports *)

Record PackageLatestMetadataInput := {
  lm_ecosystem : string; lm_package : string; lm_latest_version : string;
  lm_latest_published_at : option string; lm_observed_at : string
}.

Record PackageUsedVersionMetadataInput := {
  um_ecosystem : string; um_package : string; um_used_version : string; um_used_version_published_at : option string;
  um_observed_at : string; um_latest_version : option string; um_latest_published_at : option string
}.

Definition parseTimestamp (value : option string) : date :=
  match present value with Some s => date_parse s | None => None end.

Definition parseRequiredTimestamp (value : string) : date := date_parse value.

Definition stableVersionRefKind (ecosystem version : string) : res string :=
  let! classified := classifyObservedPackageVersionRef ecosystem version in
  Ok (if String.eqb (ref_kind classified) "digest" then "digest" else "version").

(** ** Packages *)

(** The row of an upsert when there was none, and its update in place. *)
Definition reported_package (v : string * string) (lastMetadataSeenAt : option timestamp)
    (latestPackageVersionId : option (option string)) (id : string) : package_row :=
  {| pk_id := id; pk_ecosystem := v.1; pk_package := v.2;
     pk_latest_package_version_id := default None latestPackageVersionId; pk_last_metadata_seen_at := lastMetadataSeenAt |}.

Definition update_package (lastMetadataSeenAt : option timestamp) (latestPackageVersionId : option (option string))
    (r : package_row) : package_row :=
  {| pk_id := pk_id r; pk_ecosystem := pk_ecosystem r; pk_package := pk_package r;
     pk_latest_package_version_id := default (pk_latest_package_version_id r) latestPackageVersionId;
     pk_last_metadata_seen_at := later_observed (pk_last_metadata_seen_at r) lastMetadataSeenAt |}.

(** A version row with the columns a report gives, the others at their defaults. *)
Definition reported_version (packageId version : string) (publishedAt lastMetadataSeenAt lastUsedAt : option timestamp)
    (id : string) : package_version_row :=
  {| pv_id := id; pv_package_id := packageId; pv_version := version; pv_version_kind := "version";
     pv_artifact_kind := "package_release"; pv_display_role := "primary"; pv_published_at := publishedAt;
     pv_last_metadata_seen_at := lastMetadataSeenAt; pv_last_used_at := lastUsedAt |}.

Definition update_version (publishedAt lastMetadataSeenAt lastUsedAt : option timestamp) (r : package_version_row)
  : package_version_row :=
  {| pv_id := pv_id r; pv_package_id := pv_package_id r; pv_version := pv_version r;
     pv_version_kind := pv_version_kind r; pv_artifact_kind := pv_artifact_kind r; pv_display_role := pv_display_role r;
     pv_published_at := match publishedAt with Some t => Some t | None => pv_published_at r end;
     pv_last_metadata_seen_at := later_observed (pv_last_metadata_seen_at r) lastMetadataSeenAt;
     pv_last_used_at := later_observed (pv_last_used_at r) lastUsedAt |}.

Definition version_of (packageId version : string) (r : package_version_row) : bool :=
  String.eqb (pv_package_id r) packageId && String.eqb (pv_version r) version.

(** The rows the pointer to the latest version is written to. *)
Definition not_newer (id : string) (observedAt : timestamp) (r : package_row) : bool :=
  String.eqb (pk_id r) id && from_option (fun t => t <=? observedAt) true (pk_last_metadata_seen_at r).

Definition point_to (latest : string) (observedAt : timestamp) (r : package_row) : package_row :=
  {| pk_id := pk_id r; pk_ecosystem := pk_ecosystem r; pk_package := pk_package r;
     pk_latest_package_version_id := Some latest;
     pk_last_metadata_seen_at := later_observed (pk_last_metadata_seen_at r) (Some observedAt) |}.

Section freshness.
Context `{Env}.

Definition upsertPackageIdentity (v : string * string) (lastMetadataSeenAt : option timestamp)
    (latestPackageVersionId : option (option string)) : CM string :=
  match lastMetadataSeenAt, latestPackageVersionId with
  | None, None =>
      inserted ← insert_package v;
      match inserted with
      | Some row => mret (pk_id row)
      | None =>
          row ← gets (fun db => head (List.filter (package_is v) (packages db)));
          match row with
          | Some row => mret (pk_id row)
          | None => throw "package_identity_resolution_failed"
          end
      end
  | _, _ =>
      id ← fresh;
      let write := upsert (package_is v) (update_package lastMetadataSeenAt latestPackageVersionId)
                     (reported_package v lastMetadataSeenAt latestPackageVersionId id) in
      row ← gets (fun db => (write (packages db)).2);
      _ ← modify (set_packages (fun rows => (write rows).1));
      mret (pk_id row)
  end.

Definition upsertPackageVersion (packageId version : string) (publishedAt lastMetadataSeenAt lastUsedAt : option timestamp)
  : CM string :=
  id ← fresh;
  let write := upsert (version_of packageId version) (update_version publishedAt lastMetadataSeenAt lastUsedAt)
                 (reported_version packageId version publishedAt lastMetadataSeenAt lastUsedAt id) in
  row ← gets (fun db => (write (package_versions db)).2);
  _ ← modify (set_package_versions (fun rows => (write rows).1));
  mret (pv_id row).

(** The package and its latest version, by their identifiers. *)
Definition ensureLatestVersion (v : string * string) (latestVersion : string) (latestPublishedAt : option timestamp)
    (observedAt : timestamp) : CM (string * string) :=
  pkg ← upsertPackageIdentity v (Some observedAt) None;
  latest ← upsertPackageVersion pkg latestVersion latestPublishedAt (Some observedAt) None;
  _ ← modify (set_packages (update_where (not_newer pkg observedAt) (point_to latest observedAt)));
  mret (pkg, latest).

Definition recordStableVersionRef (ecosystem packageId packageVersionId version : string) (observedAt : timestamp) : CM unit :=
  kind ← of_res (stableVersionRefKind ecosystem version);
  upsertPackageVersionRef
    {| vr_package_id := packageId; vr_package_version_id := packageVersionId; vr_ref := version; vr_ref_kind := kind;
       vr_source := "registry_metadata"; vr_is_display_preferred := None; vr_metadata := None;
       vr_observed_at := Some observedAt |}.

Definition recordLatestDistTagRef (packageId packageVersionId : string) (observedAt : timestamp) : CM unit :=
  upsertPackageVersionRef
    {| vr_package_id := packageId; vr_package_version_id := packageVersionId; vr_ref := "latest"; vr_ref_kind := "dist_tag";
       vr_source := "registry_metadata"; vr_is_display_preferred := None;
       vr_metadata := Some (JObj [("resolved_at", JStr (toISOString observedAt))]); vr_observed_at := Some observedAt |}.

(** The latest version and its two references. *)
Definition record_latest (identity : CanonicalPackageIdentity) (version : string) (publishedAt : option timestamp)
    (observedAt : timestamp) : CM string :=
  latest ← ensureLatestVersion (id_ecosystem identity, id_package identity) version publishedAt observedAt;
  _ ← recordStableVersionRef (id_ecosystem identity) latest.1 latest.2 version observedAt;
  _ ← recordLatestDistTagRef latest.1 latest.2 observedAt;
  mret latest.1.

(** An identity with all its three parts, and its version. *)
Definition complete (identity : CanonicalPackageIdentity) : option string :=
  if nonempty (id_ecosystem identity) && nonempty (id_package identity) then present (id_version identity) else None.

Definition latest_identity (msg : PackageLatestMetadataInput) : CanonicalPackageIdentity :=
  canonicalizePackageIdentity
    {| i_ecosystem := lm_ecosystem msg; i_package := lm_package msg; i_version := Some (lm_latest_version msg) |}.

Definition persistPackageLatestMetadata (msg : PackageLatestMetadataInput) : CM unit :=
  match complete (latest_identity msg), parseRequiredTimestamp (lm_observed_at msg) with
  | Some version, Some observedAt =>
      transaction (_ ← record_latest (latest_identity msg) version (parseTimestamp (lm_latest_published_at msg)) observedAt;
                   mret tt)
  | _, _ => mret tt
  end.

Definition version_identity (msg : PackageUsedVersionMetadataInput) (version : string) : CanonicalPackageIdentity :=
  canonicalizePackageIdentity
    {| i_ecosystem := um_ecosystem msg; i_package := um_package msg; i_version := Some version |}.

(** The latest version a report on a used one names: none, one, or one that is
    blank, with which the report is dropped. *)
Definition named_latest (msg : PackageUsedVersionMetadataInput) : option (option string) :=
  match present (um_latest_version msg) with
  | None => Some None
  | Some v => Some <$> present (id_version (version_identity msg v))
  end.

Definition persistPackageUsedVersionMetadata (msg : PackageUsedVersionMetadataInput) : CM unit :=
  let identity := version_identity msg (um_used_version msg) in
  match complete identity, named_latest msg, parseRequiredTimestamp (um_observed_at msg) with
  | Some version, Some latest, Some observedAt =>
      transaction
        (packageId ← match latest with
                     | Some l => record_latest identity l (parseTimestamp (um_latest_published_at msg)) observedAt
                     | None => upsertPackageIdentity (id_ecosystem identity, id_package identity) None None
                     end;
         used ← upsertPackageVersion packageId version (parseTimestamp (um_used_version_published_at msg)) None (Some observedAt);
         recordStableVersionRef (id_ecosystem identity) packageId used version observedAt)
  | _, _, _ => mret tt
  end.
End freshness.
