(* ===== verification/FreshnessSpec.v ===== *)
(** * What the freshness of packages guarantees

    Whatever order the reports on a package arrive in, the catalogue points to the
    latest version named by the report that was observed last. *)

From S2P Require Import Prelude JsString JsValue Sql Effects JsDate Identity Schema Catalog CatalogCorrect CatalogSpec Freshness.
Local Open Scope string_scope.
Local Open Scope list_scope.
Local Open Scope Z_scope.

(** ** Upserts by key into a table with identifiers *)

Section keyed_upsert.
Context {R V : Type} (is_ : V -> R -> bool) (id_ : R -> string) (v : V) (u : R -> R) (new : R).
Context (is_new : is_ v new = true) (is_key : forall w r, is_ w new = true -> is_ w r = is_ v r).
Context (is_update : forall w r, is_ w (u r) = is_ w r) (id_update : forall r, id_ (u r) = id_ r).

Lemma keyed_single rows : single_rows is_ rows -> single_rows is_ (upsert (is_ v) u new rows).1.
Proof using is_key is_update.
  intros Hs w. destruct (upsert_split (is_ v) u new rows) as [[Hn ->]|(l & r & k & -> & _ & _ & ->)]; cbn [fst].
  - rewrite List.filter_app, length_app. cbn. destruct (is_ w new) eqn:E; cbn; [|specialize (Hs w); lia].
    rewrite (List.filter_ext _ (is_ v)) by (intros r; by apply is_key). apply filter_b_nil in Hn. rewrite Hn. cbn. lia.
  - specialize (Hs w). rewrite !List.filter_app, !length_app in *. cbn in *. rewrite is_update. by destruct (is_ w r).
Qed.

Lemma keyed_ids rows :
  map id_ (upsert (is_ v) u new rows).1 = map id_ rows \/
  existsb (is_ v) rows = false /\ map id_ (upsert (is_ v) u new rows).1 = map id_ rows ++ [id_ new].
Proof using id_update.
  destruct (upsert_split (is_ v) u new rows) as [[Hn ->]|(l & r & k & -> & _ & _ & ->)]; cbn [fst].
  - right. by rewrite map_app.
  - left. rewrite !map_app. cbn. by rewrite id_update.
Qed.

Lemma keyed_row rows :
  head (List.filter (is_ v) (upsert (is_ v) u new rows).1) = Some (upsert (is_ v) u new rows).2 /\
  (upsert (is_ v) u new rows).2 = from_option u new (head (List.filter (is_ v) rows)).
Proof using is_new is_update.
  destruct (upsert_split (is_ v) u new rows) as [[Hn ->]|(l & r & k & -> & Hr & Hl & ->)]; cbn [fst snd].
  - apply filter_b_nil in Hn. rewrite List.filter_app, Hn. cbn. by rewrite is_new.
  - apply filter_b_nil in Hl. rewrite !List.filter_app, Hl. cbn. by rewrite is_update, Hr.
Qed.

Lemma keyed_other w rows :
  (forall r, is_ v r = true -> is_ w r = false) -> List.filter (is_ w) (upsert (is_ v) u new rows).1 = List.filter (is_ w) rows.
Proof using is_new is_update.
  intros Hw. apply upsert_apart; [|by apply Hw]. intros r Hr. rewrite is_update. by rewrite (Hw r Hr).
Qed.

(** A column the update keeps, of a row found by its identifier. *)
Lemma keyed_column {T} (g : R -> T) x rows :
  (forall r, g (u r) = g r) -> id_ new <> x ->
  g <$> head (List.filter (fun r => String.eqb (id_ r) x) (upsert (is_ v) u new rows).1)
  = g <$> head (List.filter (fun r => String.eqb (id_ r) x) rows).
Proof using id_update.
  intros Hg Hx. destruct (upsert_split (is_ v) u new rows) as [[_ ->]|(l & r & k & -> & _ & _ & ->)]; cbn [fst].
  - rewrite List.filter_app. cbn. rewrite (proj2 (String.eqb_neq _ _) Hx). by rewrite app_nil_r.
  - rewrite !List.filter_app. cbn. rewrite id_update. destruct (List.filter _ l); cbn; [|done].
    destruct (String.eqb (id_ r) x); cbn; by rewrite ?Hg.
Qed.
End keyed_upsert.

(** The row with an identifier, where identifiers are unique. *)
Lemma found_by_id {R} (id_ : R -> string) rows r :
  NoDup (map id_ rows) -> r ∈ rows -> head (List.filter (fun r' => String.eqb (id_ r') (id_ r)) rows) = Some r.
Proof.
  induction rows as [|r0 rows IH]; [by intros _ ?%not_elem_of_nil|]. cbn. intros [Hn Hnd]%NoDup_cons [->|Hr]%elem_of_cons.
  - by rewrite String.eqb_refl.
  - destruct (String.eqb_spec (id_ r0) (id_ r)) as [E|_]; [|by apply IH]. destruct Hn. rewrite E. by apply list_elem_of_fmap_2.
Qed.

(** ** The latest version of a package *)

Definition package_of (v : string * string) (db : catalog_db) : option package_row := head (List.filter (package_is v) (packages db)).

Definition version_name (id : string) (db : catalog_db) : option string :=
  pv_version <$> head (List.filter (fun r => String.eqb (pv_id r) id) (package_versions db)).

(** When a package was last seen, and its latest version. *)
Definition freshness : Type := option timestamp * option string.

Definition latest_of (v : string * string) (db : catalog_db) : freshness :=
  match package_of v db with
  | Some p => (pk_last_metadata_seen_at p, pk_latest_package_version_id p ≫= fun id => version_name id db)
  | None => (None, None)
  end.

(** What a report should do to it. *)
Definition observe (s : freshness) (report : timestamp * string) : freshness :=
  if from_option (fun t => t <=? report.1) true s.1 then (Some report.1, Some report.2) else s.

(** The pointers point to versions. *)
Definition pointers_ok (db : catalog_db) : Prop :=
  forall p id, p ∈ packages db -> pk_latest_package_version_id p = Some id -> id ∈ map pv_id (package_versions db).

Section freshness.
Context `{Env}.
Context (uuid_inj : forall m n, uuid m = uuid n -> m = n) (uuid_plain : forall n, plain_id (uuid n) = true).

Record fresh_ok (n : nat) (db : catalog_db) : Prop := { fo_catalog : catalog_ok n db; fo_pointers : pointers_ok db }.

(** ** One write *)

Lemma packages_changed n n' db rows :
  fresh_ok n db -> (n <= n')%nat -> single_rows package_is rows ->
  map pk_id rows = map pk_id (packages db) \/ map pk_id rows = map pk_id (packages db) ++ [uuid n] /\ (n < n')%nat ->
  (forall p id, p ∈ rows -> pk_latest_package_version_id p = Some id -> id ∈ map pv_id (package_versions db)) ->
  fresh_ok n' (set_packages (fun _ => rows) db).
Proof using uuid_inj uuid_plain.
  intros [[H1 H2 H3 H4 H5 H6] _] Hle Hs Hids Hp. split; [|done].
  assert (Hfresh : (forall m, (n' <= m)%nat -> uuid m ∉ used_ids (set_packages (fun _ => rows) db)) /\
                   (forall x, x ∈ used_ids (set_packages (fun _ => rows) db) -> plain_id x = true)).
  { apply (fresh_more uuid_inj uuid_plain n n' (used_ids db)); [done..|]. unfold used_ids. cbn. intros x. rewrite !elem_of_app.
    destruct Hids as [->|[-> Hlt]]; [by left|]. rewrite elem_of_app, list_elem_of_singleton.
    intros [[?| ->]|?]; [by left; left|by right; exists n|by left; right]. }
  destruct Hfresh. split; cbn; try done. destruct Hids as [->|[-> _]]; [done|]. apply NoDup_app. split; [done|].
  split; [|apply NoDup_singleton]. intros x Hx ->%list_elem_of_singleton. apply (H5 n); [lia|]. apply elem_of_app. by left.
Qed.

Lemma versions_changed n n' db rows :
  fresh_ok n db -> (n <= n')%nat -> single_rows version_is rows ->
  map pv_id rows = map pv_id (package_versions db) \/ map pv_id rows = map pv_id (package_versions db) ++ [uuid n] /\ (n < n')%nat ->
  fresh_ok n' (set_package_versions (fun _ => rows) db).
Proof using uuid_inj uuid_plain.
  intros [[H1 H2 H3 H4 H5 H6] Hp] Hle Hs Hids. split.
  - assert (Hfresh : (forall m, (n' <= m)%nat -> uuid m ∉ used_ids (set_package_versions (fun _ => rows) db)) /\
                   (forall x, x ∈ used_ids (set_package_versions (fun _ => rows) db) -> plain_id x = true)).
    { apply (fresh_more uuid_inj uuid_plain n n' (used_ids db)); [done..|]. unfold used_ids. cbn. intros x. rewrite !elem_of_app.
      destruct Hids as [->|[-> Hlt]]; [by left|]. rewrite elem_of_app, list_elem_of_singleton.
      intros [?|[?| ->]]; [by left; left|by left; right|by right; exists n]. }
    destruct Hfresh. split; cbn; try done. destruct Hids as [->|[-> _]]; [done|]. apply NoDup_app. split; [done|].
    split; [|apply NoDup_singleton]. intros x Hx ->%list_elem_of_singleton. apply (H5 n); [lia|]. apply elem_of_app. by right.
  - intros p id Hin Hl. cbn. specialize (Hp p id Hin Hl). destruct Hids as [->|[-> _]]; [done|]. apply elem_of_app. by left.
Qed.

(** A package as an upsert reads and writes it. *)
Lemma package_new v s l id : package_is v (reported_package v s l id) = true.
Proof. by apply package_is_spec. Qed.

Lemma package_key v w s l id r : package_is w (reported_package v s l id) = true -> package_is w r = package_is v r.
Proof. rewrite package_is_spec. cbn. intros [E1 E2]. unfold package_is. by rewrite E1, E2. Qed.

Lemma package_apart v w r : w <> v -> package_is v r = true -> package_is w r = false.
Proof.
  intros Hne [E1 E2]%package_is_spec. apply not_true_iff_false. rewrite package_is_spec. intros [F1 F2]. apply Hne.
  destruct v, w; cbn in *; congruence.
Qed.

(** A package row updated, or added without a latest version. *)
Lemma upsert_package_run v seen n db :
  fresh_ok n db ->
  let write := upsert (package_is v) (update_package seen None) (reported_package v seen None (uuid n)) (packages db) in
  let db' := set_packages (fun _ => write.1) db in
  fresh_ok (S n) db' /\ package_of v db' = Some write.2 /\
  latest_of v db' = (later_observed (latest_of v db).1 seen, (latest_of v db).2) /\
  forall w, w <> v -> latest_of w db' = latest_of w db.
Proof using uuid_inj uuid_plain.
  intros Hok write db'. pose proof Hok as [Hc Hp]. subst write.
  destruct (keyed_row package_is v (update_package seen None) (reported_package v seen None (uuid n)) (package_new _ _ _ _) (fun _ _ => eq_refl) (packages db)) as [Hrow Heq].
  split_and!.
  - apply (packages_changed n); [done|lia| | |].
    + apply keyed_single; [by intros w r; apply package_key|done|apply Hc].
    + edestruct (keyed_ids package_is pk_id v (update_package seen None) (reported_package v seen None (uuid n))) as [E|[_ E]]; [done|by left|].
      right. split; [exact E|lia].
    + intros p id Hin Hl. apply upsert_elem in Hin as [->|[(r & Hr & _ & ->)|Hin]]; [done|..]; by eapply Hp.
  - exact Hrow.
  - unfold latest_of, package_of, db'. cbn [packages set_packages]. rewrite Hrow, Heq.
    destruct (head (List.filter (package_is v) (packages db))) as [p|]; cbn; [done|]. by destruct seen.
  - intros w Hw. unfold latest_of, package_of, db'. cbn [packages set_packages]. rewrite keyed_other; [done|apply package_new|done|].
    intros r. by apply package_apart.
Qed.

Lemma upsertPackageIdentity_run v seen n db :
  fresh_ok n db ->
  exists p n' rows, let db' := set_packages (fun _ => rows) db in
    returns (upsertPackageIdentity v seen None) (n, db) (pk_id p) (n', db') /\ fresh_ok n' db' /\ package_of v db' = Some p /\
    latest_of v db' = (later_observed (latest_of v db).1 seen, (latest_of v db).2) /\
    forall w, w <> v -> latest_of w db' = latest_of w db.
Proof using uuid_inj uuid_plain.
  intros Hok. destruct seen as [t|].
  - destruct (upsert_package_run v (Some t) n db Hok) as (H1 & H2 & H3 & H4).
    set (write := upsert (package_is v) (update_package (Some t) None) (reported_package v (Some t) None (uuid n)) (packages db)) in *.
    exists write.2, (S n), write.1. split; [run_forward|]. done.
  - destruct (package_of v db) as [p|] eqn:Ep.
    + exists p, n, (packages db). assert (Hdb : set_packages (fun _ => packages db) db = db) by by destruct db.
      cbn zeta. rewrite Hdb. split_and!; try done; [|by destruct (latest_of v db) as [[|] ?]].
      apply head_filter in Ep as Hin. destruct Hin as [Hin Hv].
      cbn [upsertPackageIdentity]. apply returns_bind. exists None, (n, db). split.
      { unfold returns, insert_package. rewrite insert_run. rewrite (proj2 (existsb_elem_of _ _)); [done|]. by exists p. }
      apply returns_bind. exists (Some p), (n, db). split; [by apply returns_gets|]. by apply returns_ret.
    + destruct (upsert_package_run v None n db Hok) as (H1 & H2 & H3 & H4).
      assert (He : existsb (package_is v) (packages db) = false).
      { apply filter_b_nil. unfold package_of in Ep. by destruct (List.filter _ _). }
      rewrite upsert_insert in * by done. cbn [fst snd] in *.
      exists (reported_package v None None (uuid n)), (S n), (packages db ++ [reported_package v None None (uuid n)]).
      split_and!; try done. cbn [upsertPackageIdentity]. apply returns_bind.
      exists (Some (new_package v (uuid n))), (S n, set_packages (fun _ => packages db ++ [new_package v (uuid n)]) db). split.
      { unfold returns, insert_package. rewrite insert_run. by rewrite He. }
      by apply returns_ret.
Qed.
(** A version row updated or added: every version keeps its name. *)
Lemma upsertPackageVersion_run pid ver pub seen used n db :
  fresh_ok n db ->
  exists id rows, let db' := set_package_versions (fun _ => rows) db in
    returns (upsertPackageVersion pid ver pub seen used) (n, db) id (S n, db') /\ fresh_ok (S n) db' /\
    id ∈ map pv_id rows /\ version_name id db' = Some ver /\ forall w, latest_of w db' = latest_of w db.
Proof using uuid_inj uuid_plain.
  intros Hok. pose proof Hok as [Hc Hp].
  set (v := {| cv_package_id := pid; cv_version := ver; cv_class := defaultCatalogClassification |}).
  set (u := update_version pub seen used). set (new := reported_version pid ver pub seen used (uuid n)).
  set (write := upsert (version_is v) u new (package_versions db)).
  assert (Hn : version_is v new = true) by by apply version_is_spec.
  assert (Hk : forall w r, version_is w new = true -> version_is w r = version_is v r).
  { intros w r [E1 E2]%version_is_spec. unfold version_is. cbn in *. by rewrite <- E1, <- E2. }
  exists (pv_id write.2), write.1. cbn zeta. split; [run_forward|].
  destruct (keyed_row version_is v u new Hn (fun _ _ => eq_refl) (package_versions db)) as [Hrow Heq]. fold write in Hrow, Heq.
  assert (Hok' : fresh_ok (S n) (set_package_versions (fun _ => write.1) db)).
  { apply (versions_changed n); [done|lia| |].
    - apply keyed_single; [done|done|apply Hc].
    - edestruct (keyed_ids version_is pv_id v u new) as [E|[_ E]]; [done|by left|right; split; [exact E|lia]]. }
  assert (Hin : write.2 ∈ write.1) by apply upsert_in. split; [done|]. split; [by apply list_elem_of_fmap_2|]. split.
  - unfold version_name. cbn. rewrite (found_by_id pv_id) by (done || apply Hok'). cbn. f_equal. rewrite Heq.
    destruct (head (List.filter (version_is v) (package_versions db))) as [r|] eqn:E; [|done]. cbn.
    by apply head_filter in E as [_ [_ Hr]%version_is_spec].
  - intros w. unfold latest_of, package_of. cbn. destruct (head (List.filter (package_is w) (packages db))) as [p|] eqn:E; [|done]. f_equal.
    destruct (pk_latest_package_version_id p) as [id|] eqn:El; [|done]. cbn. apply (keyed_column version_is pv_id v u new); [done|done|].
    apply head_filter in E as [Hp0 _]. specialize (Hp p id Hp0 El). intros Hid. apply (co_fresh _ _ Hc n); [lia|].
    apply elem_of_app. right. cbn in Hid. by rewrite Hid.
Qed.

Lemma point_to_run p v vid t n db :
  fresh_ok n db -> package_of v db = Some p -> vid ∈ map pv_id (package_versions db) ->
  let db' := set_packages (update_where (not_newer (pk_id p) t) (point_to vid t)) db in
  fresh_ok n db' /\
  latest_of v db' = (if from_option (fun s => s <=? t) true (pk_last_metadata_seen_at p)
                     then (later_observed (pk_last_metadata_seen_at p) (Some t), version_name vid db) else latest_of v db) /\
  forall w, w <> v -> latest_of w db' = latest_of w db.
Proof using uuid_inj uuid_plain.
  intros Hok Hv Hvid db'. pose proof Hok as [Hc Hp].
  assert (Hpackage : forall w, package_of w db' = (fun r => if not_newer (pk_id p) t r then point_to vid t r else r) <$> package_of w db).
  { intros w. unfold package_of, db'. cbn. rewrite filter_update_where by done. by destruct (List.filter _ _). }
  assert (Hin : forall w r, package_of w db = Some r -> r ∈ packages db /\ package_is w r = true).
  { intros w r. apply head_filter. }
  destruct (Hin v p Hv) as [Hpin Hpv]. split_and!.
  - apply (packages_changed n); [done|lia| | |].
    + intros w. unfold db'. rewrite filter_update_where by done. unfold update_where. rewrite length_map. apply Hc.
    + left. by apply update_where_map.
    + intros r id Hr Hl. apply elem_of_update_where in Hr as (r0 & Hr0 & ->).
      destruct (not_newer (pk_id p) t r0); [by injection Hl as <-|by eapply Hp].
  - unfold latest_of. rewrite Hpackage, Hv. cbn. unfold not_newer. rewrite String.eqb_refl. cbn.
    by destruct (from_option _ true _).
  - intros w Hw. unfold latest_of. rewrite Hpackage. destruct (package_of w db) as [r|] eqn:Er; [|done]. cbn.
    unfold not_newer. destruct (String.eqb_spec (pk_id r) (pk_id p)) as [E|_]; [|done]. exfalso. destruct (Hin w r Er) as [Hr Hrw].
    assert (r = p) as -> by (eapply (NoDup_map_inj pk_id); [apply Hc|done..]). by rewrite (package_apart v w p Hw Hpv) in Hrw.
Qed.

(** ** The latest version *)

Lemma ensureLatestVersion_run v ver pub t n db :
  fresh_ok n db ->
  exists pid vid n' db',
    returns (ensureLatestVersion v ver pub t) (n, db) (pid, vid) (n', db') /\ fresh_ok n' db' /\
    latest_of v db' = observe (latest_of v db) (t, ver) /\ forall w, w <> v -> latest_of w db' = latest_of w db.
Proof using uuid_inj uuid_plain.
  intros Hok. destruct (upsertPackageIdentity_run v (Some t) n db Hok) as (p & n1 & rows & H1 & Hok1 & Hp & Hl1 & Ho1).
  set (db1 := set_packages _ db) in *.
  destruct (upsertPackageVersion_run (pk_id p) ver pub (Some t) None n1 db1 Hok1) as (vid & vrows & H2 & Hok2 & Hvid & Hname & Hl2).
  set (db2 := set_package_versions _ db1) in *.
  destruct (point_to_run p v vid t (S n1) db2 Hok2 Hp Hvid) as (Hok3 & Hl3 & Ho3).
  eexists (pk_id p), vid, (S n1), _. split_and!; [|exact Hok3| |].
  - unfold ensureLatestVersion. apply returns_bind. eexists _, _. split; [exact H1|]. apply returns_bind. eexists _, _. split; [exact H2|].
    apply returns_bind. eexists _, _. split; [by apply returns_modify|]. by apply returns_ret.
  - rewrite Hl3, Hname, Hl2. assert (Hseen : pk_last_metadata_seen_at p = (latest_of v db1).1) by (unfold latest_of; by rewrite Hp).
    rewrite Hseen, Hl1. unfold observe. cbn. destruct (latest_of v db) as [[s|] l]; cbn; [|by rewrite Z.leb_refl, Z.max_id].
    destruct (Z.leb_spec (Z.max t s) t), (Z.leb_spec s t); try lia; f_equal; f_equal; lia.
  - intros w Hw. by rewrite Ho3, Hl2, Ho1.
Qed.

(** References do not matter to it. *)
Lemma fresh_ok_refs n m db f : fresh_ok n db -> (n <= m)%nat -> fresh_ok m (set_refs f db).
Proof.
  intros [[H1 H2 H3 H4 H5 H6] Hp] Hle. split; [|exact Hp]. split; try done. intros k Hk. apply H5. lia.
Qed.

Lemma upsertPackageVersionRef_run i n db :
  is_Some (vr_observed_at i) -> vr_is_display_preferred i = None -> fresh_ok n db ->
  exists db', returns (upsertPackageVersionRef i) (n, db) tt (n, db') /\ fresh_ok n db' /\ forall w, latest_of w db' = latest_of w db.
Proof.
  intros [t Ht] Hd Hok. unfold upsertPackageVersionRef. rewrite Ht, Hd. cbn [default from_option].
  destruct (negb (nonempty _)); [exists db; done|].
  eexists. split; [apply returns_bind; eexists _, _; split; [done|]; apply returns_bind; eexists _, _; split; [done|]; by apply returns_modify|].
  split; [by apply (fresh_ok_refs n)|done].
Qed.
(** ** Reports *)

(** What a write does to the latest versions: those of [v] observe a report. *)
Definition moved (v : string * string) (o : option (timestamp * string)) (db db' : catalog_db) : Prop :=
  latest_of v db' = from_option (observe (latest_of v db)) (latest_of v db) o /\ forall w, w <> v -> latest_of w db' = latest_of w db.

Lemma moved_same v o db db1 db' : moved v o db db1 -> (forall w, latest_of w db' = latest_of w db1) -> moved v o db db'.
Proof. intros [H1 H2] Hs. split; [by rewrite Hs|]. intros w Hw. rewrite Hs. by apply H2. Qed.

(** The ecosystems whose versions can be classified. *)
Definition classified (ecosystem : string) : bool := is_ok (stableVersionRefKind ecosystem EmptyString).

Lemma stable_kind ecosystem version :
  if classified ecosystem then exists kind, stableVersionRefKind ecosystem version = Ok kind
  else exists m, stableVersionRefKind ecosystem version = Throw m.
Proof.
  unfold classified, stableVersionRefKind, classifyObservedPackageVersionRef.
  destruct (classifierFor ecosystem) as [[|]|]; cbn; by eexists.
Qed.

Lemma recordStableVersionRef_run eco pid vid ver t n db :
  fresh_ok n db ->
  if classified eco then exists db', returns (recordStableVersionRef eco pid vid ver t) (n, db) tt (n, db') /\ fresh_ok n db' /\
                                     forall w, latest_of w db' = latest_of w db
  else exists m, recordStableVersionRef eco pid vid ver t (n, db) = (Throw m, (n, db)).
Proof.
  intros Hok. pose proof (stable_kind eco ver) as Hk. unfold recordStableVersionRef. destruct (classified eco).
  - destruct Hk as [kind Hk]. destruct (upsertPackageVersionRef_run
      {| vr_package_id := pid; vr_package_version_id := vid; vr_ref := ver; vr_ref_kind := kind; vr_source := "registry_metadata";
         vr_is_display_preferred := None; vr_metadata := None; vr_observed_at := Some t |} n db) as (db' & Hr & Hs); [by eexists|done..|].
    exists db'. split; [|done]. apply returns_bind. exists kind, (n, db). split; [by rewrite Hk|exact Hr].
  - destruct Hk as [m Hk]. exists m. by rewrite Hk.
Qed.

Lemma record_latest_run identity ver pub t n db :
  fresh_ok n db ->
  let v := (id_ecosystem identity, id_package identity) in
  if classified (id_ecosystem identity)
  then exists pid n' db', returns (record_latest identity ver pub t) (n, db) pid (n', db') /\ fresh_ok n' db' /\ moved v (Some (t, ver)) db db'
  else exists m s', record_latest identity ver pub t (n, db) = (Throw m, s').
Proof using uuid_inj uuid_plain.
  intros Hok v. destruct (ensureLatestVersion_run v ver pub t n db Hok) as (pid & vid & n1 & db1 & H1 & Hok1 & Hl1 & Ho1).
  pose proof (recordStableVersionRef_run (id_ecosystem identity) pid vid ver t n1 db1 Hok1) as H2. unfold record_latest. fold v.
  destruct (classified (id_ecosystem identity)).
  - destruct H2 as (db2 & H2 & Hok2 & Hs2).
    destruct (upsertPackageVersionRef_run
      {| vr_package_id := pid; vr_package_version_id := vid; vr_ref := "latest"; vr_ref_kind := "dist_tag"; vr_source := "registry_metadata";
         vr_is_display_preferred := None; vr_metadata := Some (JObj [("resolved_at", JStr (toISOString t))]);
         vr_observed_at := Some t |} n1 db2) as (db3 & H3 & Hok3 & Hs3); [by eexists|done..|].
    exists pid, n1, db3. split; [|split; [done|]].
    + apply returns_bind. eexists _, _. split; [exact H1|]. apply returns_bind. eexists _, _. split; [exact H2|].
      apply returns_bind. eexists _, _. split; [exact H3|]. by apply returns_ret.
    + apply (moved_same v _ db db1); [done|]. intros w. by rewrite Hs3, Hs2.
  - destruct H2 as (m & H2). exists m, (n1, db1). unfold mbind, eff_bind. unfold returns in H1. rewrite H1. cbn [fst snd]. by rewrite H2.
Qed.

(** The reports of a proxy. *)
Inductive freshness_report : Type :=
| latest_report (msg : PackageLatestMetadataInput)
| used_report (msg : PackageUsedVersionMetadataInput).

Definition persist (r : freshness_report) : CM unit :=
  match r with
  | latest_report msg => persistPackageLatestMetadata msg
  | used_report msg => persistPackageUsedVersionMetadata msg
  end.

Definition about (v : string * string) (identity : CanonicalPackageIdentity) : bool :=
  String.eqb (id_ecosystem identity) v.1 && String.eqb (id_package identity) v.2 && classified (id_ecosystem identity).

(** The latest version of [v] that a report names, and when it was observed. *)
Definition observation (v : string * string) (r : freshness_report) : option (timestamp * string) :=
  match r with
  | latest_report msg =>
      version ← complete (latest_identity msg); t ← parseRequiredTimestamp (lm_observed_at msg);
      if about v (latest_identity msg) then Some (t, version) else None
  | used_report msg =>
      _ ← complete (version_identity msg (um_used_version msg)); latest ← named_latest msg;
      t ← parseRequiredTimestamp (um_observed_at msg); version ← latest;
      if about v (version_identity msg (um_used_version msg)) then Some (t, version) else None
  end.

Lemma about_spec v identity : about v identity = true <-> v = (id_ecosystem identity, id_package identity) /\ classified (id_ecosystem identity) = true.
Proof.
  unfold about. destruct v as [e p]. rewrite !andb_true_iff, !String.eqb_eq. cbn. split; [by intros [[<- <-] ?]|by intros [[= -> ->] ?]].
Qed.

(** What a write moves, seen from any package. *)
Lemma moved_about v identity o db db' :
  moved (id_ecosystem identity, id_package identity) o db db' -> classified (id_ecosystem identity) = true ->
  latest_of v db' = from_option (observe (latest_of v db)) (latest_of v db) (x ← o; if about v identity then Some x else None).
Proof.
  intros [H1 H2] Hc. destruct (about v identity) eqn:E.
  - apply about_spec in E as [-> _]. rewrite H1. by destruct o.
  - rewrite H2; [by destruct o|]. intros ->. by rewrite (proj2 (about_spec _ _) (conj eq_refl Hc)) in E.
Qed.

Lemma persist_ticks r : ticks (persist r).
Proof.
  destruct r; cbn [persist]; unfold persistPackageLatestMetadata, persistPackageUsedVersionMetadata, record_latest, ensureLatestVersion,
    recordStableVersionRef, recordLatestDistTagRef, upsertPackageVersion, upsertPackageIdentity, insert_package, insert_or_nothing,
    upsertPackageVersionRef; cbn zeta; ticks_walk.
Qed.
(** What running one report shows. *)
Definition persisted (rep : freshness_report) (n : nat) (db : catalog_db) : Prop :=
  exists r n' db', persist rep (n, db) = (r, (n', db')) /\ fresh_ok n' db' /\
    forall v, latest_of v db' = from_option (observe (latest_of v db)) (latest_of v db) (observation v rep).

(** A report that is dropped, or whose transaction is rolled back. *)
Lemma persisted_none rep n db r s' :
  fresh_ok n db -> persist rep (n, db) = (r, s') -> s'.2 = db -> (forall v, observation v rep = None) -> persisted rep n db.
Proof.
  intros Hok Hr Hdb Hnone. pose proof (proj1 (ticks_spec _) (persist_ticks rep) n db) as Hle. rewrite Hr in Hle.
  destruct s' as [n' db']. cbn in *. subst db'. exists r, n', db. split; [done|]. split; [|intros v; by rewrite Hnone].
  destruct Hok as [[H1 H2 H3 H4 H5 H6] Hp]. split; [|done]. split; try done. intros k Hk. apply H5. lia.
Qed.

Lemma not_about v identity : classified (id_ecosystem identity) = false -> about v identity = false.
Proof. intros Hc. unfold about. by rewrite Hc, andb_false_r. Qed.

Lemma latest_report_run msg n db : fresh_ok n db -> persisted (latest_report msg) n db.
Proof using uuid_inj uuid_plain.
  intros Hok. destruct (complete (latest_identity msg)) as [version|] eqn:Ec;
    [destruct (parseRequiredTimestamp (lm_observed_at msg)) as [t|] eqn:Et|];
    [|eapply persisted_none; [done|cbn [persist]; unfold persistPackageLatestMetadata; rewrite Ec, ?Et; reflexivity|done|
       intros v; unfold observation; by rewrite Ec, ?Et]..].
  pose proof (record_latest_run (latest_identity msg) version (parseTimestamp (lm_latest_published_at msg)) t n db Hok) as Hr.
  cbn zeta in Hr. destruct (classified (id_ecosystem (latest_identity msg))) eqn:El.
  - destruct Hr as (pid & n' & db' & Hr & Hok' & Hm). exists (Ok tt), n', db'. split; [|split; [done|]].
    + cbn [persist]. unfold persistPackageLatestMetadata. rewrite Ec, Et. apply returns_transaction, returns_bind.
      eexists _, _. split; [exact Hr|]. by apply returns_ret.
    + intros v. rewrite (moved_about v _ _ _ _ Hm El). unfold observation. by rewrite Ec, Et.
  - destruct Hr as (m & s' & Hr). apply (persisted_none _ _ _ (Throw m) (s'.1, db)); [done| |done|].
    + cbn [persist]. unfold persistPackageLatestMetadata. rewrite Ec, Et. eapply transaction_throws, bind_throws, Hr.
    + intros v. unfold observation. rewrite Ec, Et. cbn. by rewrite not_about.
Qed.

(** The package of a report on a used version. *)
Lemma used_package_run identity latest pub t n db :
  fresh_ok n db ->
  let v := (id_ecosystem identity, id_package identity) in
  let e := match latest with Some l => record_latest identity l pub t | None => upsertPackageIdentity v None None end in
  (exists pid n' db', returns e (n, db) pid (n', db') /\ fresh_ok n' db' /\ moved v ((t,.) <$> latest) db db') \/
  classified (id_ecosystem identity) = false /\ exists m s', e (n, db) = (Throw m, s').
Proof using uuid_inj uuid_plain.
  intros Hok v e. subst e. destruct latest as [l|].
  - pose proof (record_latest_run identity l pub t n db Hok) as Hr. cbn zeta in Hr. destruct (classified _); [left|right]; done.
  - left. destruct (upsertPackageIdentity_run v None n db Hok) as (p & n' & rows & Hr & Hok' & _ & Hl & Ho).
    eexists _, _, _. split; [exact Hr|]. split; [done|]. split; [|done]. rewrite Hl. cbn. by destruct (latest_of v db).
Qed.

Lemma used_report_run msg n db : fresh_ok n db -> persisted (used_report msg) n db.
Proof using uuid_inj uuid_plain.
  intros Hok. set (identity := version_identity msg (um_used_version msg)).
  destruct (complete identity) as [version|] eqn:Ec; [destruct (named_latest msg) as [latest|] eqn:En;
    [destruct (parseRequiredTimestamp (um_observed_at msg)) as [t|] eqn:Et|]|];
    [|eapply persisted_none; [done|cbn [persist]; unfold persistPackageUsedVersionMetadata; fold identity; rewrite Ec, ?En, ?Et; reflexivity|
       done|intros v; unfold observation; fold identity; by rewrite Ec, ?En, ?Et]..].
  destruct (used_package_run identity latest (parseTimestamp (um_latest_published_at msg)) t n db Hok)
    as [(pid & n1 & db1 & H1 & Hok1 & Hm)|(Hc & m & s' & Hr)].
  - destruct (upsertPackageVersion_run pid version (parseTimestamp (um_used_version_published_at msg)) None (Some t) n1 db1 Hok1)
      as (vid & rows & H2 & Hok2 & _ & _ & Hs2).
    pose proof (recordStableVersionRef_run (id_ecosystem identity) pid vid version t (S n1) _ Hok2) as H3.
    destruct (classified (id_ecosystem identity)) eqn:El.
    + destruct H3 as (db3 & H3 & Hok3 & Hs3). exists (Ok tt), (S n1), db3. split; [|split; [done|]].
      * cbn [persist]. unfold persistPackageUsedVersionMetadata. fold identity. rewrite Ec, En, Et. apply returns_transaction, returns_bind.
        eexists _, _. split; [exact H1|]. apply returns_bind. eexists _, _. split; [exact H2|exact H3].
      * intros v. assert (Hm' : moved (id_ecosystem identity, id_package identity) ((t,.) <$> latest) db db3).
        { eapply moved_same; [exact Hm|]. intros w. by rewrite Hs3, Hs2. }
        rewrite (moved_about v _ _ _ _ Hm' El). unfold observation. fold identity. rewrite Ec, En, Et. by destruct latest.
    + destruct H3 as (m & H3). eapply (persisted_none _ _ _ (Throw m) (_, db)); [done| |done|].
      * cbn [persist]. unfold persistPackageUsedVersionMetadata. fold identity. rewrite Ec, En, Et. eapply transaction_throws.
        rewrite (bind_returns _ _ _ _ _ H1), (bind_returns _ _ _ _ _ H2). exact H3.
      * intros v. unfold observation. fold identity. rewrite Ec, En, Et. destruct latest; cbn; [by rewrite not_about|done].
  - apply (persisted_none _ _ _ (Throw m) (s'.1, db)); [done| |done|].
    + cbn [persist]. unfold persistPackageUsedVersionMetadata. fold identity. rewrite Ec, En, Et. eapply transaction_throws, bind_throws, Hr.
    + intros v. unfold observation. fold identity. rewrite Ec, En, Et. destruct latest; cbn; [by rewrite not_about|done].
Qed.

(** Reports run one after another; a failing one does not stop the next. *)
Definition persist_all (rs : list freshness_report) : CM (list (res unit)) := mapM_ (fun r => attempt (persist r)) rs.

Lemma persist_all_run rs n db :
  fresh_ok n db ->
  exists outcomes n' db', returns (persist_all rs) (n, db) outcomes (n', db') /\ fresh_ok n' db' /\
    forall v, latest_of v db' = foldl observe (latest_of v db) (omap (observation v) rs).
Proof using uuid_inj uuid_plain.
  revert n db. induction rs as [|rep rs IH]; intros n db Hok; [by exists [], n, db|].
  assert (Hp : persisted rep n db) by (destruct rep; [by apply latest_report_run|by apply used_report_run]).
  destruct Hp as (r & n1 & db1 & Hr & Hok1 & Hl1). destruct (IH n1 db1 Hok1) as (rs' & n2 & db2 & H2 & Hok2 & Hl2).
  exists (r :: rs'), n2, db2. split; [|split; [done|]].
  - unfold persist_all. cbn [mapM_]. apply returns_bind. exists r, (n1, db1). split; [by apply returns_attempt|].
    apply returns_bind. eexists _, _. split; [exact H2|]. by apply returns_ret.
  - intros v. rewrite Hl2, Hl1. cbn. by destruct (observation v rep).
Qed.

(** ** Orders of arrival *)

Lemma observe_comm s a b : a.1 <> b.1 -> observe (observe s a) b = observe (observe s b) a.
Proof.
  intros Hne. destruct s as [[t|] l], a as [ta va], b as [tb vb]. all: unfold observe; cbn in *.
  - destruct (Z.leb_spec t ta), (Z.leb_spec t tb); cbn; repeat (case_match; rewrite ?Z.leb_le, ?Z.leb_gt in * ); cbn in *; try done; lia.
  - repeat (case_match; rewrite ?Z.leb_le, ?Z.leb_gt in * ); cbn in *; try done; lia.
Qed.

Lemma observe_perm l k s : l ≡ₚ k -> NoDup l.*1 -> foldl observe s l = foldl observe s k.
Proof.
  intros Hp. revert s. induction Hp as [|x l k Hp IH|x y l|l k m Hp IH Hq IH']; intros s Hnd; cbn in *.
  - done.
  - apply NoDup_cons in Hnd as [_ Hnd]. by rewrite IH.
  - rewrite observe_comm; [done|]. apply NoDup_cons in Hnd as [Hnd _]. intros E. apply Hnd. rewrite E. apply list_elem_of_here.
  - rewrite IH, IH'; [done| |done]. by rewrite <- Hp.
Qed.

(** The last of the newest observations, if one is not older than what was seen. *)
Definition newest (s s' : freshness) (obs : list (timestamp * string)) : Prop :=
  s' = s /\ (forall o, o ∈ obs -> exists t, s.1 = Some t /\ o.1 < t) \/
  exists before t version after, obs = before ++ (t, version) :: after /\ s' = (Some t, Some version) /\
    (forall o, o ∈ before -> o.1 <= t) /\ (forall o, o ∈ after -> o.1 < t) /\ (forall t0, s.1 = Some t0 -> t0 <= t).

Lemma observe_newest s obs : newest s (foldl observe s obs) obs.
Proof.
  induction obs as [|[t version] obs IH] using rev_ind; [left; split; [done|by intros ? ?%not_elem_of_nil]|].
  rewrite foldl_app. cbn [foldl]. destruct IH as [[-> Hold]|(before & t' & version' & after & -> & -> & Hb & Ha & Hs)].
  - unfold observe. cbn [fst snd]. destruct (from_option (fun t' => t' <=? t) true s.1) eqn:E.
    + right. exists obs, t, version, []. split_and!; try done.
      * intros o Ho. destruct (Hold o Ho) as (t0 & Hs & Hlt). rewrite Hs in E. apply Z.leb_le in E. lia.
      * by intros o ?%not_elem_of_nil.
      * intros t0 Hs. rewrite Hs in E. by apply Z.leb_le in E.
    + left. split; [done|]. intros o [Ho| ->%list_elem_of_singleton]%elem_of_app; [by apply Hold|].
      destruct s.1 as [t0|]; [|done]. apply Z.leb_gt in E. by exists t0.
  - unfold observe. cbn [fst snd from_option]. right. destruct (Z.leb_spec t' t) as [Hle|Hlt].
    + exists (before ++ (t', version') :: after), t, version, []. split_and!; try done.
      * intros o [Ho%Hb|[->|Ho%Ha]%elem_of_cons]%elem_of_app; cbn; lia.
      * by intros o ?%not_elem_of_nil.
      * intros t0 Ht0%Hs. lia.
    + exists before, t', version', (after ++ [(t, version)]). split_and!; try done; [by rewrite <- app_assoc|].
      intros o [Ho%Ha| ->%list_elem_of_singleton]%elem_of_app; done.
Qed.

(** C12: The catalogue's latest versions follow the reports: persisting any sequence
    of reports succeeds as a whole, keeps the catalogue well formed, and leaves each
    package with the latest version of the report that was observed last (the last
    to arrive, where two were observed at the same time), or with what it had, when
    all reports on it are older; invalid and failing reports change nothing. *)
Theorem latest_follows_observations (rs : list freshness_report) (n : nat) (db : catalog_db) (Hok : fresh_ok n db) :
  exists outcomes n' db', returns (persist_all rs) (n, db) outcomes (n', db') /\ fresh_ok n' db' /\
    forall v, newest (latest_of v db) (latest_of v db') (omap (observation v) rs).
Proof using uuid_inj uuid_plain.
  destruct (persist_all_run rs n db Hok) as (outcomes & n' & db' & Hr & Hok' & Hl). exists outcomes, n', db'.
  split; [done|]. split; [done|]. intros v. rewrite Hl. apply observe_newest.
Qed.

(** The order reports arrive in does not matter: where the reports on a package
    were observed at different times, any two orders of them leave it with the same
    latest version, seen at the same time. *)
Theorem latest_ignores_arrival_order (rs rs' : list freshness_report) (v : string * string) (n : nat) (db : catalog_db)
  (outcomes outcomes' : list (res unit)) (s s' : nat * catalog_db)
  (Hok : fresh_ok n db) (Hperm : rs ≡ₚ rs') (Htimes : NoDup (omap (observation v) rs).*1)
  (Hrun : returns (persist_all rs) (n, db) outcomes s) (Hrun' : returns (persist_all rs') (n, db) outcomes' s') :
  latest_of v s.2 = latest_of v s'.2.
Proof using uuid_inj uuid_plain.
  destruct (persist_all_run rs n db Hok) as (o1 & n1 & db1 & H1 & _ & L1). destruct (persist_all_run rs' n db Hok) as (o2 & n2 & db2 & H2 & _ & L2).
  unfold returns in *. rewrite Hrun in H1. rewrite Hrun' in H2. injection H1 as _ ->. injection H2 as _ ->. cbn [snd].
  rewrite L1, L2. apply observe_perm; [by rewrite Hperm|done].
Qed.
End freshness.

(** ** Witnesses *)

Definition freshness_example_report (version at_ : string) : freshness_report :=
  latest_report {| lm_ecosystem := "docker"; lm_package := "library/nginx"; lm_latest_version := version;
                   lm_latest_published_at := None; lm_observed_at := at_ |}.

Definition freshness_example_used : freshness_report :=
  used_report {| um_ecosystem := "docker"; um_package := "library/nginx"; um_used_version := "1.0"; um_used_version_published_at := None;
                 um_observed_at := "2024-01-02T00:00:00.000Z"; um_latest_version := Some "1.1"; um_latest_published_at := None |}.

(** A late report of the first day, one of the third and one on a used version between them. *)
Definition freshness_example_reports : list freshness_report :=
  [freshness_example_report "1.2" "2024-01-03T00:00:00.000Z"; freshness_example_used;
   freshness_example_report "1.0" "2024-01-01T00:00:00.000Z"].

Definition freshness_example_package : string * string := ("docker", "library/nginx").

Lemma freshness_example_ok : @fresh_ok example_env 0 catalog_example_db.
Proof. split; [exact catalog_example_ok|]. intros p id Hp Hl. apply list_elem_of_singleton in Hp as ->. discriminate Hl. Qed.

Lemma latest_follows_observations_witness :
  exists outcomes n' db', @persist_all example_env freshness_example_reports (0%nat, catalog_example_db) = (Ok outcomes, (n', db')) /\
    newest (None, None) (latest_of freshness_example_package db') (omap (observation freshness_example_package) freshness_example_reports).
Proof.
  destruct (@latest_follows_observations example_env example_uuid_inj example_uuid_plain freshness_example_reports 0%nat catalog_example_db)
    as (outcomes & n' & db' & Hr & _ & Hl); [exact freshness_example_ok|].
  exists outcomes, n', db'. split; [exact Hr|]. exact (Hl freshness_example_package).
Defined.

Lemma latest_ignores_arrival_order_witness :
  latest_of freshness_example_package (@persist_all example_env freshness_example_reports (0%nat, catalog_example_db)).2.2
  = latest_of freshness_example_package (@persist_all example_env (reverse freshness_example_reports) (0%nat, catalog_example_db)).2.2.
Proof.
  destruct (@persist_all example_env freshness_example_reports (0%nat, catalog_example_db)) as [r s] eqn:E.
  destruct (@persist_all example_env (reverse freshness_example_reports) (0%nat, catalog_example_db)) as [r' s'] eqn:E'.
  assert (Hr : r = Ok [Ok tt; Ok tt; Ok tt]) by (vm_compute in E; congruence). assert (Hr' : r' = Ok [Ok tt; Ok tt; Ok tt]) by (vm_compute in E'; congruence). subst r r'.
  apply (@latest_ignores_arrival_order example_env example_uuid_inj example_uuid_plain freshness_example_reports (reverse freshness_example_reports)
    freshness_example_package 0%nat catalog_example_db [Ok tt; Ok tt; Ok tt] [Ok tt; Ok tt; Ok tt] s s').
  - exact freshness_example_ok.
  - symmetry. apply reverse_Permutation.
  - vm_compute. repeat (apply NoDup_cons; split; [intros Hx; repeat (apply elem_of_cons in Hx as [Hx|Hx]; [discriminate Hx|]); by apply not_elem_of_nil in Hx|]). apply NoDup_nil. exact I.
  - exact E.
  - exact E'.
Defined.
