(* ===== verification/Scorer.v ===== *)
(** * Contributor risk score (services/api/src/connectors/contributor/scorer.ts)

    The factors, their decay with the age of the release and their clamped sum,
    in double arithmetic.  Counts are integers, whose products by small constants
    are exact.  The score is proved equal to an integer point total plus the age
    multiplier, which gives its bounds and its monotonicity. *)

From S2P Require Import Prelude JsString JsNum JsValue Sql JsDate ConnectorTypes.
Local Open Scope string_scope.
Local Open Scope list_scope.
Local Open Scope Z_scope.

Definition SCORE_MODEL_VERSION : string := "3.0".

Record ContributorSignals := {
  cs_version : string; cs_publishedAt : timestamp; publisher : option string;
  publisherSeenBeforePackage : option bool; publisherSeenCountBefore : option Z;
  publisherMatchesPriorVersion : option bool; priorVersionPublisher : option string;
  maintainerSetChanged : option bool; newMaintainerCount : option Z;
  removedMaintainerCount : option Z; maintainerCount : option Z; hasInstallScripts : option bool;
  hasProvenance : option bool; hasTrustedPublisher : option bool;
  releaseVelocity7d : option Z; releaseVelocity30d : option Z; historyComplete : option bool
}.

Record ScoredContributorSignals := {
  signals : ContributorSignals; sc_score : num; scoreModelVersion : string;
  rawFactors : list (string * option num); signalsAvailable : list string
}.

(** ** Factors *)

Definition contributorAgeDecayMultiplier (publishedAt now : timestamp) : num :=
  let ageDays := elapsed now publishedAt MS_PER_DAY in
  if num_leb ageDays (num_of_Z 30) then num_of_Z 1
  else if num_leb ageDays (num_of_Z 90) then num_of_decimal 75 (-2)
  else if num_leb ageDays (num_of_Z 180) then num_of_decimal 5 (-1)
  else if num_leb ageDays (num_of_Z 365) then num_of_decimal 25 (-2)
  else num_of_decimal 1 (-1).

Definition decay (value : Z) (multiplier : num) : num :=
  math_round (num_mul (num_of_Z value) multiplier).

Definition decayFactor (value : option Z) (multiplier : num) : option num :=
  v ← value; Some (decay v multiplier).

Fixpoint first_threshold (value : Z) (thresholds : list (Z * Z)) : Z :=
  match thresholds with
  | [] => 0
  | (minimum, score) :: rest => if minimum <=? value then score else first_threshold value rest
  end.

Definition velocityFactor (value : option Z) (thresholds : list (Z * Z)) : option Z :=
  v ← value; Some (first_threshold v thresholds).

Definition is_true (b : option bool) : bool := bool_decide (b = Some true).
Definition is_false (b : option bool) : bool := bool_decide (b = Some false).

(** [Number(x.toFixed(2))] for a number in range. *)
Definition toFixed2 (x : num) : num :=
  match num_ratio x with
  | Some (n, d) => num_of_decimal ((200 * n + Zpos d) / (2 * Zpos d)) (-2)
  | None => x
  end.

Definition THRESHOLDS_7D : list (Z * Z) := [(5, 12); (3, 8); (2, 4)].
Definition THRESHOLDS_30D : list (Z * Z) := [(12, 8); (8, 5)].

Definition raw_factors (s : ContributorSignals) (m : num) : list (string * option num) :=
  [("first_time_publisher",
     decayFactor (Some (if is_false (publisherSeenBeforePackage s) then 25 else 0)) m);
   ("publisher_changed",
     decayFactor (Some (if is_false (publisherMatchesPriorVersion s) then 20 else 0)) m);
   ("maintainer_set_changed",
     decayFactor (Some (if is_true (maintainerSetChanged s) then 12 else 0)) m);
   ("new_maintainers", c ← newMaintainerCount s; decayFactor (Some (Z.min (c * 8) 24)) m);
   ("removed_maintainers", c ← removedMaintainerCount s; decayFactor (Some (Z.min (c * 4) 12)) m);
   ("install_scripts", Some (num_of_Z (if is_true (hasInstallScripts s) then 25 else 0)));
   ("missing_provenance", Some (num_of_Z (if is_false (hasProvenance s) then 10 else 0)));
   ("release_velocity_7d", decayFactor (velocityFactor (releaseVelocity7d s) THRESHOLDS_7D) m);
   ("release_velocity_30d", decayFactor (velocityFactor (releaseVelocity30d s) THRESHOLDS_30D) m);
   ("trusted_publisher_reduction",
     Some (num_of_Z (if is_true (hasTrustedPublisher s) then -10 else 0)));
   ("age_decay_multiplier", Some (toFixed2 m))]%string.

(** [Object.values(rawFactors).reduce((sum, value) => sum + (value ?? 0), 0)] *)
Definition sum_factors (l : list (option num)) : num :=
  foldl (fun sum value => num_add sum (default num_zero value)) num_zero l.

Definition clamp_score (x : num) : num := math_max num_zero (math_min (num_of_Z 100) x).

(** The keys of the signals whose value is not null, in the order the signals are
    loaded in. *)
Definition signals_available (s : ContributorSignals) : list string :=
  let key {A} (k : string) (o : option A) := match o with Some _ => [k] | None => [] end in
  (["version"; "publishedAt"]
   ++ key "publisher" (publisher s)
   ++ key "publisherSeenBeforePackage" (publisherSeenBeforePackage s)
   ++ key "publisherSeenCountBefore" (publisherSeenCountBefore s)
   ++ key "publisherMatchesPriorVersion" (publisherMatchesPriorVersion s)
   ++ key "priorVersionPublisher" (priorVersionPublisher s)
   ++ key "maintainerSetChanged" (maintainerSetChanged s)
   ++ key "newMaintainerCount" (newMaintainerCount s)
   ++ key "removedMaintainerCount" (removedMaintainerCount s)
   ++ key "maintainerCount" (maintainerCount s)
   ++ key "hasInstallScripts" (hasInstallScripts s)
   ++ key "hasProvenance" (hasProvenance s)
   ++ key "hasTrustedPublisher" (hasTrustedPublisher s)
   ++ key "releaseVelocity7d" (releaseVelocity7d s)
   ++ key "releaseVelocity30d" (releaseVelocity30d s)
   ++ key "historyComplete" (historyComplete s)).

Definition score_signals (s : ContributorSignals) (now : timestamp) : ScoredContributorSignals :=
  let rawFactors := raw_factors s (contributorAgeDecayMultiplier (cs_publishedAt s) now) in
  {| signals := s;
     sc_score := clamp_score (sum_factors rawFactors.*2);
     scoreModelVersion := SCORE_MODEL_VERSION;
     rawFactors := rawFactors;
     signalsAvailable := signals_available s |}.

(** ** Tiers (contributor/index.ts) *)

Definition TIER_HIGH : Z := 80.
Definition TIER_MEDIUM : Z := 40.

Definition scoreToTier (score : num) : VulnSeverity :=
  if num_leb (num_of_Z TIER_HIGH) score then HIGH
  else if num_leb (num_of_Z TIER_MEDIUM) score then MEDIUM
  else if num_ltb num_zero score then LOW
  else NONE.

(** ** The integer point total *)

(** The age multipliers in percent. *)
Definition MULTIPLIERS : list Z := [100; 75; 50; 25; 10].

Definition percent (q : Z) : num := num_of_decimal q (-2).

(** [value] points decayed to [q] percent, rounded half up. *)
Definition decayed (value q : Z) : Z := (2 * value * q + 100) / 200.

(** The points of the nine risk factors, then the trusted-publisher credit. *)
Definition risk_points (s : ContributorSignals) (q : Z) : list Z :=
  [decayed (if is_false (publisherSeenBeforePackage s) then 25 else 0) q;
   decayed (if is_false (publisherMatchesPriorVersion s) then 20 else 0) q;
   decayed (if is_true (maintainerSetChanged s) then 12 else 0) q;
   decayed (from_option (fun c => Z.min (c * 8) 24) 0 (newMaintainerCount s)) q;
   decayed (from_option (fun c => Z.min (c * 4) 12) 0 (removedMaintainerCount s)) q;
   if is_true (hasInstallScripts s) then 25 else 0;
   if is_false (hasProvenance s) then 10 else 0;
   decayed (from_option (fun v => first_threshold v THRESHOLDS_7D) 0 (releaseVelocity7d s)) q;
   decayed (from_option (fun v => first_threshold v THRESHOLDS_30D) 0 (releaseVelocity30d s)) q].

Definition trusted_points (s : ContributorSignals) : Z :=
  if is_true (hasTrustedPublisher s) then -10 else 0.

Definition points (s : ContributorSignals) (q : Z) : Z :=
  foldl Z.add 0 (risk_points s q) + trusted_points s.

Definition age_percent (publishedAt now : timestamp) : Z :=
  let ageDays := elapsed now publishedAt MS_PER_DAY in
  if num_leb ageDays (num_of_Z 30) then 100
  else if num_leb ageDays (num_of_Z 90) then 75
  else if num_leb ageDays (num_of_Z 180) then 50
  else if num_leb ageDays (num_of_Z 365) then 25 else 10.

Definition counts_ok (s : ContributorSignals) : Prop :=
  (forall c, newMaintainerCount s = Some c -> 0 <= c) /\
  (forall c, removedMaintainerCount s = Some c -> 0 <= c).

Definition zrange (lo hi : Z) : list Z := List.map (fun i => lo + Z.of_nat i) (seq 0 (Z.to_nat (hi - lo + 1))).

Lemma elem_of_zrange lo hi x : x ∈ zrange lo hi <-> lo <= x <= hi.
Proof.
  unfold zrange. rewrite list_elem_of_In, in_map_iff. setoid_rewrite in_seq. split.
  - intros (i & <- & Hi). lia.
  - intros H. exists (Z.to_nat (x - lo)). lia.
Qed.

(** The finite facts about doubles the proofs use, each one computed. *)
Lemma decay_table :
  forallb (fun q => forallb (fun v => bool_decide (decay v (percent q) = num_of_Z (decayed v q)))
    (zrange 0 25)) MULTIPLIERS = true.
Proof. vm_compute. reflexivity. Qed.

Lemma add_table :
  forallb (fun a => forallb (fun b => bool_decide (num_add (num_of_Z a) (num_of_Z b) = num_of_Z (a + b)))
    (zrange (-10) 25)) (zrange 0 225) = true.
Proof. vm_compute. reflexivity. Qed.

Definition total_score (total q : Z) : num := clamp_score (num_add (num_of_Z total) (percent q)).

Definition total_ok (q t : Z) : bool :=
  let s := total_score t q in
  num_leb num_zero s && num_leb s (num_of_Z 100)
  && num_leb s (total_score (t + 1) q)
  && Bool.eqb (bool_decide (scoreToTier s = NONE)) (t <? 0)
  && Bool.eqb (bool_decide (scoreToTier s = HIGH)) (80 * 100 <=? t * 100 + q)
  && Bool.eqb (bool_decide (toFixed2 (percent q) = percent q)) true.

Lemma total_table :
  forallb (fun q => forallb (total_ok q) (zrange (-10) 225)) MULTIPLIERS = true.
Proof. vm_compute. reflexivity. Qed.

(** ** Lemmas *)

Lemma age_percent_multiplier p now :
  contributorAgeDecayMultiplier p now = percent (age_percent p now) /\ age_percent p now ∈ MULTIPLIERS.
Proof.
  unfold contributorAgeDecayMultiplier, age_percent.
  do 4 (case_match; [split; [vm_compute; reflexivity|set_solver]|]).
  split; [vm_compute; reflexivity|set_solver].
Qed.

Lemma decayed_bounds v q : q ∈ MULTIPLIERS -> 0 <= v <= 25 -> 0 <= decayed v q <= 25.
Proof.
  intros Hq Hv. unfold decayed. unfold MULTIPLIERS in Hq.
  repeat (apply elem_of_cons in Hq as [->|Hq]; [split; [apply Z.div_pos; lia|apply Z.lt_succ_r, Z.div_lt_upper_bound; lia]|]).
  by apply not_elem_of_nil in Hq.
Qed.

Lemma decay_points v q :
  q ∈ MULTIPLIERS -> 0 <= v <= 25 -> decay v (percent q) = num_of_Z (decayed v q).
Proof.
  intros Hq Hv. assert (H := decay_table). rewrite forallb_elem_of in H. specialize (H q Hq).
  cbv beta in H. rewrite forallb_elem_of in H. specialize (H v (proj2 (elem_of_zrange _ _ _) Hv)).
  by apply bool_decide_eq_true in H.
Qed.

Lemma add_points a b :
  0 <= a <= 225 -> -10 <= b <= 25 -> num_add (num_of_Z a) (num_of_Z b) = num_of_Z (a + b).
Proof.
  intros Ha Hb. assert (H := add_table). rewrite forallb_elem_of in H.
  specialize (H a (proj2 (elem_of_zrange _ _ _) Ha)). cbv beta in H. rewrite forallb_elem_of in H.
  specialize (H b (proj2 (elem_of_zrange _ _ _) Hb)). by apply bool_decide_eq_true in H.
Qed.

Lemma total_ok_spec q t :
  total_ok q t = true ->
  num_leb num_zero (total_score t q) = true /\ num_leb (total_score t q) (num_of_Z 100) = true /\
  num_leb (total_score t q) (total_score (t + 1) q) = true /\
  (scoreToTier (total_score t q) = NONE <-> t < 0) /\
  (scoreToTier (total_score t q) = HIGH <-> 80 * 100 <= t * 100 + q) /\
  toFixed2 (percent q) = percent q.
Proof.
  unfold total_ok. rewrite !andb_true_iff. intros [[[[[H1 H2] H3] H4] H5] H6].
  apply eqb_prop in H4, H5, H6. apply bool_decide_eq_true in H6.
  rewrite <- Z.ltb_lt, <- Z.leb_le, <- H4, <- H5, !bool_decide_eq_true. done.
Qed.

Lemma total_facts t q :
  q ∈ MULTIPLIERS -> -10 <= t <= 225 ->
  num_leb num_zero (total_score t q) = true /\ num_leb (total_score t q) (num_of_Z 100) = true /\
  num_leb (total_score t q) (total_score (t + 1) q) = true /\
  (scoreToTier (total_score t q) = NONE <-> t < 0) /\
  (scoreToTier (total_score t q) = HIGH <-> 80 * 100 <= t * 100 + q) /\
  toFixed2 (percent q) = percent q.
Proof.
  intros Hq Ht. apply total_ok_spec. assert (H := total_table).
  rewrite forallb_elem_of in H. specialize (H q Hq). rewrite forallb_elem_of in H.
  apply H. by apply elem_of_zrange.
Qed.

Lemma first_threshold_bounds v l :
  (forall m s, (m, s) ∈ l -> 0 <= s <= 25) -> 0 <= first_threshold v l <= 25.
Proof.
  intros H. induction l as [|[m s] l IH]; cbn; [lia|].
  case_match; [apply (H m); set_solver|apply IH; set_solver].
Qed.

Lemma thresholds_small v : 0 <= first_threshold v THRESHOLDS_7D <= 25 /\ 0 <= first_threshold v THRESHOLDS_30D <= 25.
Proof. split; apply first_threshold_bounds; intros m s H; repeat (apply elem_of_cons in H as [[= _ ->]|H]; [lia|]); by apply not_elem_of_nil in H. Qed.

Definition points_of (o : option num) (z : Z) : Prop := default num_zero o = num_of_Z z /\ 0 <= z <= 25.

Lemma decayFactor_points o v q :
  q ∈ MULTIPLIERS -> 0 <= v <= 25 -> (o = Some v \/ o = None /\ v = 0) ->
  points_of (decayFactor o (percent q)) (decayed v q).
Proof.
  intros Hq Hv [->|[-> ->]]; (split; [|by apply decayed_bounds]).
  - cbn. by apply decay_points.
  - cbn. unfold decayed. by rewrite Z.mul_0_r, Z.mul_0_l.
Qed.

Lemma raw_factors_points s q :
  counts_ok s -> q ∈ MULTIPLIERS ->
  exists fs, (raw_factors s (percent q)).*2
    = fs ++ [Some (num_of_Z (trusted_points s)); Some (toFixed2 (percent q))] /\
  Forall2 points_of fs (risk_points s q).
Proof.
  intros [Hn Hr] Hq. eexists [_; _; _; _; _; _; _; _; _]. split; [reflexivity|]. unfold risk_points.
  repeat (apply List.Forall2_cons; [|]); [..|constructor].
  - apply decayFactor_points; [done|case_match; lia|by left].
  - apply decayFactor_points; [done|case_match; lia|by left].
  - apply decayFactor_points; [done|case_match; lia|by left].
  - destruct (newMaintainerCount s) as [c|]; cbn [from_option mbind option_bind].
    + specialize (Hn c eq_refl). apply decayFactor_points; [done|lia|by left].
    + apply (decayFactor_points None 0); [done|lia|by right].
  - destruct (removedMaintainerCount s) as [c|]; cbn [from_option mbind option_bind].
    + specialize (Hr c eq_refl). apply decayFactor_points; [done|lia|by left].
    + apply (decayFactor_points None 0); [done|lia|by right].
  - split; [done|]. case_match; lia.
  - split; [done|]. case_match; lia.
  - destruct (releaseVelocity7d s) as [v|]; cbn [from_option velocityFactor mbind option_bind].
    + apply decayFactor_points; [done|apply thresholds_small|by left].
    + apply decayFactor_points; [done|lia|by right].
  - destruct (releaseVelocity30d s) as [v|]; cbn [from_option velocityFactor mbind option_bind].
    + apply decayFactor_points; [done|apply thresholds_small|by left].
    + apply decayFactor_points; [done|lia|by right].
Qed.

Lemma sum_points fs zs acc :
  Forall2 points_of fs zs -> 0 <= acc -> acc + 25 * Z.of_nat (length zs) <= 225 ->
  foldl (fun sum value => num_add sum (default num_zero value)) (num_of_Z acc) fs
    = num_of_Z (foldl Z.add acc zs) /\ acc <= foldl Z.add acc zs <= 225.
Proof.
  intros H. revert acc. induction H as [|o z fs zs [Ho Hz] _ IH]; intros acc Ha Hb; cbn [foldl length] in *;
    [split; [done|lia]|].
  rewrite Ho, add_points by lia. destruct (IH (acc + z)) as [-> Hs]; [lia..|]. split; [done|lia].
Qed.

Lemma risk_points_bounds s q :
  counts_ok s -> q ∈ MULTIPLIERS -> 0 <= foldl Z.add 0 (risk_points s q) <= 225.
Proof.
  intros Hc Hq. destruct (raw_factors_points s q Hc Hq) as (fs & _ & HF).
  by apply (sum_points fs _ 0 HF).
Qed.

(** The score is the clamped sum of the integer points and the age multiplier. *)
Lemma score_total s now :
  counts_ok s ->
  let q := age_percent (cs_publishedAt s) now in
  sc_score (score_signals s now) = total_score (points s q) q /\ q ∈ MULTIPLIERS /\
  -10 <= points s q <= 225.
Proof.
  intros Hc q. destruct (age_percent_multiplier (cs_publishedAt s) now) as [Hm Hq]. fold q in Hm, Hq.
  assert (Hb := risk_points_bounds s q Hc Hq).
  assert (Ht : -10 <= trusted_points s <= 0) by (unfold trusted_points; case_match; lia).
  split; [|split; [done|unfold points; lia]].
  unfold score_signals, total_score. cbn [sc_score]. rewrite Hm.
  destruct (raw_factors_points s q Hc Hq) as (fs & -> & HF). f_equal.
  unfold sum_factors. rewrite foldl_app.
  assert (Hs : foldl (fun sum value => num_add sum (default num_zero value)) num_zero fs
               = num_of_Z (foldl Z.add 0 (risk_points s q))) by (by apply (sum_points fs _ 0 HF)).
  rewrite Hs.
  cbn [foldl default from_option id]. rewrite add_points by lia. fold (points s q). f_equal.
  by apply (total_facts 0 q Hq ltac:(lia)).
Qed.

Lemma total_score_mono q t t' :
  q ∈ MULTIPLIERS -> -10 <= t -> t <= t' -> t' <= 225 ->
  num_leb (total_score t q) (total_score t' q) = true.
Proof.
  intros Hq Ht Hle. replace t' with (t + Z.of_nat (Z.to_nat (t' - t))) by lia.
  generalize (Z.to_nat (t' - t)); clear t' Hle. intros n. induction n as [|n IH]; intros Hb.
  - rewrite Z.add_0_r. destruct (total_facts t q Hq ltac:(lia)) as [H0 _].
    by apply num_leb_refl, (num_leb_not_nan num_zero).
  - eapply num_leb_trans; [apply IH; lia|].
    destruct (total_facts (t + Z.of_nat n) q Hq ltac:(lia)) as (_ & _ & Hs & _).
    by replace (t + Z.of_nat (S n)) with (t + Z.of_nat n + 1) by lia.
Qed.

(** [riskier s s']: every signal of [s'] is at least as bad as that of [s]. *)
Definition riskier (s s' : ContributorSignals) : Prop :=
  cs_publishedAt s = cs_publishedAt s' /\
  implb (is_false (publisherSeenBeforePackage s)) (is_false (publisherSeenBeforePackage s')) = true /\
  implb (is_false (publisherMatchesPriorVersion s)) (is_false (publisherMatchesPriorVersion s')) = true /\
  implb (is_true (maintainerSetChanged s)) (is_true (maintainerSetChanged s')) = true /\
  default 0 (newMaintainerCount s) <= default 0 (newMaintainerCount s') /\
  default 0 (removedMaintainerCount s) <= default 0 (removedMaintainerCount s') /\
  implb (is_true (hasInstallScripts s)) (is_true (hasInstallScripts s')) = true /\
  implb (is_false (hasProvenance s)) (is_false (hasProvenance s')) = true /\
  default 0 (releaseVelocity7d s) <= default 0 (releaseVelocity7d s') /\
  default 0 (releaseVelocity30d s) <= default 0 (releaseVelocity30d s') /\
  implb (is_true (hasTrustedPublisher s')) (is_true (hasTrustedPublisher s)) = true.

Lemma decayed_mono v v' q : q ∈ MULTIPLIERS -> v <= v' -> decayed v q <= decayed v' q.
Proof.
  intros Hq Hv. unfold decayed. apply Z.div_le_mono; [lia|].
  assert (0 <= q). { unfold MULTIPLIERS in Hq. repeat (apply elem_of_cons in Hq as [->|Hq]; [lia|]). by apply not_elem_of_nil in Hq. }
  nia.
Qed.

Lemma velocity_mono o o' l :
  (l = THRESHOLDS_7D \/ l = THRESHOLDS_30D) -> default 0 o <= default 0 o' ->
  from_option (fun v => first_threshold v l) 0 o <= from_option (fun v => first_threshold v l) 0 o'.
Proof.
  intros Hl H.
  assert (Hd : forall o, from_option (fun v => first_threshold v l) 0 o = first_threshold (default 0 o) l)
    by (intros [v|]; [done|by destruct Hl as [-> | ->]]).
  rewrite !Hd. destruct Hl as [-> | ->]; cbn; repeat case_match; lia.
Qed.

Lemma flag_mono (b b' : bool) (n : Z) : implb b b' = true -> 0 <= n -> (if b then n else 0) <= (if b' then n else 0).
Proof. destruct b, b'; cbn; lia || discriminate. Qed.

Lemma count_mono o o' k m :
  default 0 o <= default 0 o' -> 0 <= k -> 0 <= m ->
  from_option (fun c => Z.min (c * k) m) 0 o <= from_option (fun c => Z.min (c * k) m) 0 o'.
Proof. destruct o, o'; cbn; nia. Qed.

Lemma points_mono s s' q : q ∈ MULTIPLIERS -> riskier s s' -> points s q <= points s' q.
Proof.
  intros Hq (_ & H1 & H2 & H3 & H4 & H5 & H6 & H7 & H8 & H9 & H10).
  unfold points, risk_points, trusted_points. cbn [foldl].
  apply (flag_mono _ _ 25) in H1, H6; try lia. apply (flag_mono _ _ 20) in H2; try lia.
  apply (flag_mono _ _ 12) in H3; try lia. apply (flag_mono _ _ 10) in H7; try lia.
  apply (count_mono _ _ 8 24) in H4; try lia. apply (count_mono _ _ 4 12) in H5; try lia.
  apply (velocity_mono _ _ THRESHOLDS_7D) in H8; [|by left].
  apply (velocity_mono _ _ THRESHOLDS_30D) in H9; [|by right].
  apply (decayed_mono _ _ q Hq) in H1, H2, H3, H4, H5, H8, H9.
  assert (H11 : (if is_true (hasTrustedPublisher s) then -10 else 0)
                <= if is_true (hasTrustedPublisher s') then -10 else 0)
    by (clear -H10; destruct (is_true _), (is_true _); done).
  lia.
Qed.

Definition example_signals (seen trusted scripts : option bool) (added : option Z) : ContributorSignals :=
  {| cs_version := "1.0.0"; cs_publishedAt := 0; publisher := Some "alice";
     publisherSeenBeforePackage := seen; publisherSeenCountBefore := Some 3;
     publisherMatchesPriorVersion := Some true; priorVersionPublisher := Some "alice";
     maintainerSetChanged := Some false; newMaintainerCount := added;
     removedMaintainerCount := Some 0; maintainerCount := Some 2; hasInstallScripts := scripts;
     hasProvenance := Some true; hasTrustedPublisher := trusted;
     releaseVelocity7d := Some 0; releaseVelocity30d := Some 1; historyComplete := Some true |}.

(** ** Properties *)

(** The score is within 0 and 100 and is monotone in risk: worsening any signal
    of a release (an unseen publisher, more new maintainers, install scripts, a
    higher release velocity, no trusted publisher) never lowers its score. *)
Theorem score_bounded_monotone s s' now :
  counts_ok s -> counts_ok s' -> riskier s s' ->
  num_leb num_zero (sc_score (score_signals s now)) = true /\
  num_leb (sc_score (score_signals s' now)) (num_of_Z 100) = true /\
  num_leb (sc_score (score_signals s now)) (sc_score (score_signals s' now)) = true.
Proof.
  intros Hc Hc' Hr. destruct (score_total s now Hc) as (-> & Hq & Hb).
  destruct (score_total s' now Hc') as (-> & _ & Hb'). rewrite <- (proj1 Hr) in *.
  assert (Hm := points_mono s s' _ Hq Hr).
  destruct (total_facts _ _ Hq Hb) as [H0 _], (total_facts _ _ Hq Hb') as (_ & H100 & _).
  split; [done|]. split; [done|]. apply total_score_mono; [done|lia..].
Qed.

Lemma score_bounded_monotone_witness :
  num_leb (sc_score (score_signals (example_signals (Some true) (Some true) None None) 0))
    (sc_score (score_signals (example_signals (Some false) None (Some true) (Some 2)) 0)) = true.
Proof.
  refine (proj2 (proj2 (score_bounded_monotone _ _ 0 _ _ _))).
  - split; cbn; intros c [= <-]; discriminate.
  - split; cbn; intros c [= <-]; discriminate.
  - repeat split; discriminate.
Defined.

(** The age multiplier is scored as if it were a risk factor: a release is in
    tier NONE only when its risk points are negative (a trusted publisher), and in
    tier HIGH from 80 points counting the multiplier (1 for a release of the last
    30 days), so a spotless old release is LOW and 79 points are enough for HIGH. *)
Theorem age_multiplier_is_scored s now :
  counts_ok s ->
  let q := age_percent (cs_publishedAt s) now in
  let tier := scoreToTier (sc_score (score_signals s now)) in
  (tier = NONE <-> points s q < 0) /\ (tier = HIGH <-> 80 * 100 <= points s q * 100 + q).
Proof.
  intros Hc. destruct (score_total s now Hc) as (-> & Hq & Hb). cbv zeta.
  destruct (total_facts _ _ Hq Hb) as (_ & _ & _ & Hn & Hh & _). by split.
Qed.

(** Five years after publication, without a single adverse signal. *)
Lemma age_multiplier_is_scored_witness :
  let s := example_signals (Some true) None (Some false) (Some 0) in
  let now := 5 * 365 * MS_PER_DAY in
  points s (age_percent 0 now) = 0 /\ scoreToTier (sc_score (score_signals s now)) <> NONE.
Proof.
  intros s now. split; [vm_compute; reflexivity|]. intros Ht.
  assert (Hp : points s (age_percent (cs_publishedAt s) now) < 0).
  { refine (proj1 (proj1 (age_multiplier_is_scored s now _)) Ht).
    split; cbn; intros c [= <-]; discriminate. }
  revert Hp. vm_compute. discriminate.
Defined.
