(* ===== verification/Contributor.v ===== *)
(** * The contributor connector (services/api/src/connectors/contributor/index.ts)

    Its subscription and support check, the stored release facts it reads, the
    result it builds from a score, the cache lifetime by release age, its
    catalogue, its snapshot normalisation and its presentation. *)

From Stdlib Require Import Ascii.
From S2P Require Import Prelude JsString JsNum JsValue Sql JsDate Identity ConnectorTypes Presentation Scorer Schema.
Local Open Scope string_scope.
Local Open Scope list_scope.
Local Open Scope Z_scope.

Definition CONTRIBUTOR_ID : string := "contributor".

Definition SUPPORTED_ECOSYSTEMS : list string := ["npm"].

Definition CONTRIBUTOR_FACTS_UNAVAILABLE_ERROR : string := "contributor_facts_unavailable".

Record ContributorConnector := {
  contributor_enabled : bool; contributor_cacheTtlSeconds : Z; cacheTtlOverrideSeconds : option Z
}.

Definition contributor_supportsEvent (event : ConnectorEvent) : bool :=
  existsb (String.eqb (toLowerCase (e_ecosystem event))) SUPPORTED_ECOSYSTEMS
  && bool_decide (e_kind event = artifact_request)
  && bool_decide (e_version event <> None).

(** ** Results *)

Definition versionAgeTtlSeconds (publishedAt now : timestamp) (config : ContributorConnector) : Z :=
  match cacheTtlOverrideSeconds config with
  | Some ttl => ttl
  | None =>
      let ageDays := elapsed now publishedAt MS_PER_DAY in
      if num_ltb ageDays (num_of_Z 1) then 3600
      else if num_ltb ageDays (num_of_Z 7) then 21600
      else if num_ltb ageDays (num_of_Z 30) then 86400
      else 259200
  end.

Definition risk_summary (tier : VulnSeverity) (score : num) (count : Z) : ConnectorResultSummary :=
  {| s_risk := Some {| tier := tier; score := Some score |}; s_findings := Some count;
     s_remediation := Some {| available := false; best := None |};
     s_vulnerability := None; s_intelligence := None |}.

Definition contributor_emptyResult : ConnectorResult :=
  {| findings := []; summary := Some (risk_summary NONE num_zero 0); ttlSeconds := None; legacy := None |}.

Definition contributor_attributes (scored : ScoredContributorSignals) (normalizedScore : num)
  : list (string * jsval) :=
  let s := signals scored in
  [("score", JNum normalizedScore); ("score_model_version", JStr SCORE_MODEL_VERSION);
   ("publisher", str_or_null (publisher s));
   ("publisher_seen_before_package", bool_or_null (publisherSeenBeforePackage s));
   ("publisher_seen_count_before", int_or_null (publisherSeenCountBefore s));
   ("publisher_matches_prior_version", bool_or_null (publisherMatchesPriorVersion s));
   ("prior_version_publisher", str_or_null (priorVersionPublisher s));
   ("maintainer_set_changed", bool_or_null (maintainerSetChanged s));
   ("new_maintainer_count", int_or_null (newMaintainerCount s));
   ("removed_maintainer_count", int_or_null (removedMaintainerCount s));
   ("maintainer_count", int_or_null (maintainerCount s));
   ("has_install_scripts", bool_or_null (hasInstallScripts s));
   ("has_provenance", bool_or_null (hasProvenance s));
   ("has_trusted_publisher", bool_or_null (hasTrustedPublisher s));
   ("release_velocity_7d", int_or_null (releaseVelocity7d s));
   ("release_velocity_30d", int_or_null (releaseVelocity30d s));
   ("history_complete", bool_or_null (historyComplete s));
   ("published_at", JStr (toISOString (cs_publishedAt s)));
   ("raw_factors", JObj ((fun kv => (kv.1, num_or_null kv.2)) <$> rawFactors scored));
   ("signals_available", JArr (JStr <$> signalsAvailable scored))].

Definition scoreToConnectorResult (ecosystem pkg version : string) (scored : ScoredContributorSignals)
    (scoreTier : VulnSeverity) (ttlSeconds : option Z) : ConnectorResult :=
  let normalizedScore := math_round (sc_score scored) in
  {| summary := Some (risk_summary scoreTier normalizedScore 1);
     findings :=
       [{| findingId := ecosystem +:+ ":" +:+ pkg +:+ "@" +:+ version +:+ ":contributor_signals";
           f_severity := scoreTier;
           f_title := Some ("Contributor risk score: " +:+ num_to_string normalizedScore);
           publishedAt := Some (Some (cs_publishedAt (signals scored)));
           attributes := contributor_attributes scored normalizedScore |}];
     ttlSeconds := ttlSeconds; legacy := None |}.

(** ** Stored signals *)

Definition facts_match (identity : CanonicalPackageIdentity)
    (row : (release_facts_row * package_version_row) * package_row) : bool :=
  String.eqb (pk_ecosystem row.2) (id_ecosystem identity)
  && String.eqb (pk_package row.2) (id_package identity)
  && opt_eq (id_version identity) (pv_version row.1.2).

(** The signals in a row of facts, published at a time. *)
Definition signals_of_row (version : string) (at_ : timestamp) (f : release_facts_row) : ContributorSignals :=
  {| cs_version := version; cs_publishedAt := at_; publisher := rf_publish_actor f;
     publisherSeenBeforePackage := rf_publisher_seen_before_package f;
     publisherSeenCountBefore := rf_publisher_seen_count_before f;
     publisherMatchesPriorVersion := rf_publisher_matches_prior_version f;
     priorVersionPublisher := rf_prior_version_publish_actor f;
     maintainerSetChanged := rf_maintainer_set_changed f;
     newMaintainerCount := rf_new_maintainer_count f;
     removedMaintainerCount := rf_removed_maintainer_count f;
     maintainerCount := rf_maintainer_count f;
     hasInstallScripts := rf_has_install_scripts f;
     hasProvenance := rf_has_provenance f;
     hasTrustedPublisher := rf_has_trusted_publisher f;
     releaseVelocity7d := rf_release_velocity_7d f;
     releaseVelocity30d := rf_release_velocity_30d f;
     historyComplete := rf_history_complete f |}.

(** The facts of the identity's version: the joined rows are unique by the tables'
    keys, so the first one is the only one. *)
Definition loadStoredSignals (db : catalog_db) (facts : list release_facts_row)
    (ecosystem pkg version : string) : option ContributorSignals :=
  let identity := canonicalizePackageIdentity
    {| i_ecosystem := ecosystem; i_package := pkg; i_version := Some version |} in
  match id_version identity with
  | None => None
  | Some _ =>
      row ← head (List.filter (facts_match identity)
        (inner_join (fun fv p => String.eqb (pk_id p) (pv_package_id fv.2))
           (inner_join (fun f v => String.eqb (pv_id v) (rf_package_version_id f))
              facts (package_versions db))
           (packages db)));
      let f := row.1.1 in
      at_ ← rf_published_at f;
      Some (signals_of_row version at_ f)
  end.

Definition contributor_fetchArtifactSignals (db : catalog_db)
    (facts : list release_facts_row) (config : ContributorConnector) (ecosystem pkg version : string)
    (now : timestamp) : res ConnectorResult :=
  let identity := canonicalizePackageIdentity
    {| i_ecosystem := ecosystem; i_package := pkg; i_version := Some version |} in
  if negb (existsb (String.eqb (id_ecosystem identity)) SUPPORTED_ECOSYSTEMS) then
    Ok contributor_emptyResult
  else
    match id_version identity with
    | None => Ok contributor_emptyResult
    | Some v =>
        match loadStoredSignals db facts (id_ecosystem identity) (id_package identity) v with
        | None => Throw CONTRIBUTOR_FACTS_UNAVAILABLE_ERROR
        | Some stored =>
            let scored := score_signals stored now in
            Ok (scoreToConnectorResult (id_ecosystem identity) (id_package identity) v scored
                  (scoreToTier (sc_score scored))
                  (Some (versionAgeTtlSeconds (cs_publishedAt stored) now config)))
        end
    end.

Definition contributor_handleEvent (db : catalog_db) (facts : list release_facts_row)
    (config : ContributorConnector) (event : ConnectorEvent) (now : timestamp)
  : res (option ConnectorResult) :=
  if negb (contributor_supportsEvent event) then Ok None
  else
    match e_version event with
    | None => Ok None
    | Some v =>
        Some <$> contributor_fetchArtifactSignals db facts config (e_ecosystem event)
                   (e_packageName event) v now
    end.

(** ** Snapshots *)

(** [attributes.k ?? null], on an object that may lack the property. *)
Definition attribute (attributes : list (string * jsval)) (k : string) : jsval :=
  nullish (default (inherited k) (own k attributes)) JNull.

Definition contributor_fields (result : ConnectorResult) (context : EntityContext)
  : list (string * jsval) :=
  let attributes := from_option attributes [] (head (findings result)) in
  let risk := s ← summary result; s_risk s in
  let same k := (k, attribute attributes k) in
  [("contributor_risk_score", JNum (default num_zero (r ← risk; score r)));
   ("score_tier", JStr (severity_name (from_option tier NONE risk)));
   ("score_model_version",
     nullish (attribute attributes "score_model_version") (JStr SCORE_MODEL_VERSION));
   same "publisher_seen_before_package"; same "publisher_seen_count_before";
   same "publisher_matches_prior_version"; same "maintainer_set_changed";
   same "new_maintainer_count"; same "removed_maintainer_count"; same "maintainer_count";
   same "has_install_scripts"; same "has_provenance"; same "has_trusted_publisher";
   same "release_velocity_7d"; same "release_velocity_30d"; same "history_complete";
   ("scan_age_hours", num_or_null (c_cacheAgeHours context))].

Definition contributor_normalizeToSnapshot (result : option ConnectorResult) (context : EntityContext)
    (failureStatus : option connector_status) (errorCode : option string) (now : timestamp)
  : ConnectorSnapshot :=
  let m := build_meta context failureStatus errorCode in
  match result, failureStatus with
  | Some r, None => build_snapshot CONTRIBUTOR_ID context m (contributor_fields r context) now
  | _, _ => build_snapshot CONTRIBUTOR_ID context m [] now
  end.

(** ** Presentation *)

(** [s.replaceAll("_", " ")] *)
Definition spaced (s : string) : string :=
  map_string (fun c => if Ascii.eqb c "_" then " "%char else c) s.

Definition contributor_buildSummary (result : option ConnectorResult) (snapshot : ConnectorSnapshot)
  : ConnectorUiSummary :=
  let status := m_status (meta snapshot) in
  if negb (is_ready snapshot) then
    {| ui_status := status; headline := "Contributor: " +:+ spaced (status_name status);
       ui_disposition := Some d_unavailable; ui_score := None;
       badges := Some (buildStatusBadges snapshot); keyFacts := Some (buildStatusFacts snapshot) |}
  else
    let risk := r ← result; s ← summary r; s_risk s in
    let score_ := default num_zero (r ← risk; score r) in
    let tier_ := from_option tier NONE risk in
    let attributes := from_option attributes [] (r ← result; head (findings r)) in
    let number_fact label k :=
      match own k attributes with
      | Some (JNum n) => [{| fact_label := label; fact_value := num_to_string n |}]
      | _ => []
      end in
    {| ui_status := status;
       headline := if num_eqb score_ num_zero then "Contributor risk score 0"
                   else "Contributor risk score " +:+ num_to_string score_;
       ui_disposition := Some match tier_ with HIGH => d_elevated | MEDIUM => d_warning | _ => d_clean end;
       ui_score := Some score_;
       badges := Some
         (buildStatusBadges snapshot
          ++ [{| badge_label := severity_name tier_ +:+ " tier";
                 badge_tone := match tier_ with HIGH => bad | MEDIUM => warn | _ => good end |}]);
       keyFacts := Some
         ([{| fact_label := "Risk score"; fact_value := num_to_string score_ |}]
          ++ match own "publisher" attributes with
             | Some (JStr p) => if nonempty p then [{| fact_label := "Publisher"; fact_value := p |}] else []
             | _ => []
             end
          ++ number_fact "New maintainers" "new_maintainer_count"
          ++ number_fact "Releases (30d)" "release_velocity_30d") |}.

(** ** Catalogue *)

Definition contributor_data_fields : list ConnectorField :=
  [catalog_field CONTRIBUTOR_ID "contributor_risk_score" "source.contributor.contributor_risk_score" "Contributor Risk Score"
     (Some "Composite risk score 0–100 based on publish-history and maintainer continuity signals") "integer" intOps None;
   catalog_field CONTRIBUTOR_ID "score_tier" "source.contributor.score_tier" "Risk Tier"
     (Some "Bucketed contributor risk tier") "string" strOps (Some ["NONE"; "LOW"; "MEDIUM"; "HIGH"]);
   catalog_field CONTRIBUTOR_ID "score_model_version" "source.contributor.score_model_version" "Score Model Version"
     (Some "Contributor score model version used for this evaluation") "string" strOps None;
   catalog_field CONTRIBUTOR_ID "publisher_seen_before_package" "source.contributor.publisher_seen_before_package" "Publisher Seen Before"
     (Some "True when this publish actor was already seen on an earlier version of the same package") "boolean" boolOps None;
   catalog_field CONTRIBUTOR_ID "publisher_seen_count_before" "source.contributor.publisher_seen_count_before" "Prior Publisher Uses"
     (Some "How many earlier versions of this package were published by the same actor") "integer" intOps None;
   catalog_field CONTRIBUTOR_ID "publisher_matches_prior_version" "source.contributor.publisher_matches_prior_version" "Publisher Matches Prior Version"
     (Some "True when the publish actor matches the immediately prior version") "boolean" boolOps None;
   catalog_field CONTRIBUTOR_ID "maintainer_set_changed" "source.contributor.maintainer_set_changed" "Maintainer Set Changed"
     (Some "True when the maintainer set differs from the immediately prior version") "boolean" boolOps None;
   catalog_field CONTRIBUTOR_ID "new_maintainer_count" "source.contributor.new_maintainer_count" "New Maintainer Count"
     (Some "Number of maintainers added versus the prior version") "integer" intOps None;
   catalog_field CONTRIBUTOR_ID "removed_maintainer_count" "source.contributor.removed_maintainer_count" "Removed Maintainer Count"
     (Some "Number of maintainers removed versus the prior version") "integer" intOps None;
   catalog_field CONTRIBUTOR_ID "maintainer_count" "source.contributor.maintainer_count" "Maintainer Count"
     (Some "Maintainer count observed on this version") "integer" intOps None;
   catalog_field CONTRIBUTOR_ID "has_install_scripts" "source.contributor.has_install_scripts" "Has Install Scripts"
     (Some "Whether install, preinstall, or postinstall scripts were observed") "boolean" boolOps None;
   catalog_field CONTRIBUTOR_ID "has_provenance" "source.contributor.has_provenance" "Has Provenance"
     (Some "Whether provenance or attestation data was observed") "boolean" boolOps None;
   catalog_field CONTRIBUTOR_ID "has_trusted_publisher" "source.contributor.has_trusted_publisher" "Trusted Publisher"
     (Some "Whether the release used a trusted publisher flow") "boolean" boolOps None;
   catalog_field CONTRIBUTOR_ID "release_velocity_7d" "source.contributor.release_velocity_7d" "Release Velocity 7d"
     (Some "How many releases landed in the prior seven-day window at publish time") "integer" intOps None;
   catalog_field CONTRIBUTOR_ID "release_velocity_30d" "source.contributor.release_velocity_30d" "Release Velocity 30d"
     (Some "How many releases landed in the prior 30-day window at publish time") "integer" intOps None;
   catalog_field CONTRIBUTOR_ID "history_complete" "source.contributor.history_complete" "History Complete"
     (Some "Whether contributor history for this package is known to be complete") "boolean" boolOps None;
   catalog_field CONTRIBUTOR_ID "scan_age_hours" "source.contributor.scan_age_hours" "Scan Age (hours)"
     (Some "How old the cached contributor score is") "float" floatOps None].

Definition contributor_meta_fields : list ConnectorField :=
  [catalog_field CONTRIBUTOR_ID "_meta.status" "source.contributor._meta.status" "Connector Status"
     (Some "Contributor connector response status") "string" metaStrOps (Some STATUSES);
   catalog_field CONTRIBUTOR_ID "_meta.response_time_ms" "source.contributor._meta.response_time_ms" "Response Time (ms)"
     (Some "Contributor connector evaluation latency") "integer" intOps None;
   catalog_field CONTRIBUTOR_ID "_meta.cache_age_hours" "source.contributor._meta.cache_age_hours" "Cache Age (hours)"
     (Some "Hours since the cached contributor score was written") "float" floatOps None;
   catalog_field CONTRIBUTOR_ID "_meta.is_cache_hit" "source.contributor._meta.is_cache_hit" "Is Cache Hit"
     (Some "True when the contributor result came from cache") "boolean" boolOps None;
   catalog_field CONTRIBUTOR_ID "_meta.error_code" "source.contributor._meta.error_code" "Error Code"
     (Some "Machine-readable connector error code") "string" anyOps None].

Definition contributor_getFieldCatalog : list ConnectorField :=
  contributor_data_fields ++ contributor_meta_fields.

Definition contributor_getFindingSchema : list ConnectorFindingField :=
  [finding_field "score" "Risk Score" "integer" (Some "number");
   finding_field "publisher" "Publisher" "string" (Some "code");
   finding_field "publisher_seen_before_package" "Publisher Seen Before" "boolean" (Some "badge");
   finding_field "publisher_matches_prior_version" "Publisher Matches Prior" "boolean" (Some "badge");
   finding_field "new_maintainer_count" "New Maintainers" "integer" (Some "number");
   finding_field "removed_maintainer_count" "Removed Maintainers" "integer" (Some "number");
   finding_field "has_install_scripts" "Install Scripts" "boolean" (Some "badge");
   finding_field "has_provenance" "Provenance" "boolean" (Some "badge");
   finding_field "release_velocity_7d" "Releases (7d)" "integer" (Some "number");
   finding_field "release_velocity_30d" "Releases (30d)" "integer" (Some "number")].

Definition contributor_buildPresentation (result : option ConnectorResult) (snapshot : ConnectorSnapshot)
  : res ConnectorPresentation :=
  buildDefaultConnectorPresentation result snapshot contributor_getFindingSchema "Contributor"
    (Some contributor_buildSummary).

#[export] Instance contributor_connector : PackageIntelligenceConnector ContributorConnector := {
  connector_id _ := CONTRIBUTOR_ID;
  cacheTtlSeconds := contributor_cacheTtlSeconds;
  supportedEcosystems _ := only SUPPORTED_ECOSYSTEMS;
  subscribedEvents _ :=
    [{| sub_kind := artifact_request; executionMode := async_preferred |}];
  readSnapshots _ := false;
  supportsEvent _ := contributor_supportsEvent;
  normalizeToSnapshot _ := contributor_normalizeToSnapshot;
  getFieldCatalog _ := contributor_getFieldCatalog
}.

#[export] Instance contributor_lawful : LawfulConnector ContributorConnector.
Proof.
  constructor; cbn; unfold contributor_normalizeToSnapshot.
  - intros _ [] ? [] ? ?; done.
  - intros _ [] ? [] ? ?; done.
  - intros _ [] ? [] ? ?; done.
  - done.
  - intros _ result ctx failure err now k v Hin.
    destruct result as [r|], failure; try by apply not_elem_of_nil in Hin.
    cbn in Hin. repeat (apply elem_of_cons in Hin as [[= -> _]|Hin]; [done|]).
    by apply not_elem_of_nil in Hin.
  - intros _ result ctx failure err now. destruct result as [r|], failure; cbn; try apply NoDup_nil_2.
    apply (bool_decide_unpack _). by vm_compute.
Qed.
