(* ===== verification/Intelligence.v ===== *)
(** * The intelligence connector (services/api/src/connectors/intelligence/index.ts)

    Typosquat verdicts: the result built from a service response, its catalogue,
    its snapshot normalisation and its presentation.  The HTTP call and the
    validation of its answer are a parameter. *)

From Stdlib Require Import Ascii.
From S2P Require Import Prelude JsString JsNum JsValue Sql JsDate Identity ConnectorTypes Presentation.
Local Open Scope string_scope.
Local Open Scope list_scope.
Local Open Scope Z_scope.

Definition INTELLIGENCE_ID : string := "intelligence".

Record IntelligenceConnector := { intelligence_cacheTtlSeconds : Z }.

(** ** The service's answer, as validated *)

Inductive match_quality : Type := weak | ambiguous | strong.
Inductive recommended_action : Type := allow | review | block.
Inductive level : Type := low | medium | high.
Inductive verdict_source : Type := stub | vector_search.

Definition match_quality_name (m : match_quality) : string :=
  match m with weak => "weak" | ambiguous => "ambiguous" | strong => "strong" end.
Definition action_name (a : recommended_action) : string :=
  match a with allow => "allow" | review => "review" | block => "block" end.
Definition level_name (l : level) : string :=
  match l with low => "low" | medium => "medium" | high => "high" end.
Definition source_name (s : verdict_source) : string :=
  match s with stub => "stub" | vector_search => "vector_search" end.

Record IntelligenceCheckResponse := {
  r_is_suspicious : bool; r_nearest_match : option string; r_match_quality : match_quality;
  r_recommended_action : recommended_action; r_llm_verdict : option string; r_confidence : level;
  r_latency_ms : Z; r_source : verdict_source; r_similarity_score : option num;
  r_lexical_similarity_score : option num; r_candidate_source_rank : option Z;
  r_candidate_score_final : option num; r_candidate_trust : option level;
  r_adjacent_name_found_in_corpus : bool; r_judge_cache_hit : option bool
}.

(** ** Results *)

(** The summary block, an [IntelligenceSummary]. *)
Definition intelligence_block (r : IntelligenceCheckResponse) : list (string * jsval) :=
  [("is_suspicious", JBool (r_is_suspicious r)); ("nearest_match", str_or_null (r_nearest_match r));
   ("match_quality", JStr (match_quality_name (r_match_quality r)));
   ("recommended_action", JStr (action_name (r_recommended_action r)));
   ("llm_verdict", str_or_null (r_llm_verdict r)); ("confidence", JStr (level_name (r_confidence r)));
   ("latency_ms", JInt (r_latency_ms r)); ("source", JStr (source_name (r_source r)));
   ("semantic_score", num_or_null (r_similarity_score r));
   ("lexical_similarity_score", num_or_null (r_lexical_similarity_score r));
   ("candidate_source_rank", int_or_null (r_candidate_source_rank r));
   ("candidate_score_final", num_or_null (r_candidate_score_final r));
   ("candidate_trust", str_or_null (level_name <$> r_candidate_trust r));
   ("adjacent_name_found_in_corpus", JBool (r_adjacent_name_found_in_corpus r));
   ("judge_cache_hit", bool_or_null (r_judge_cache_hit r))].

Definition intelligence_summary (blk : list (string * jsval)) : ConnectorResultSummary :=
  {| s_risk := None; s_findings := None; s_remediation := None; s_vulnerability := None;
     s_intelligence := Some blk |}.

Definition intelligence_emptyResult : ConnectorResult :=
  {| summary := Some (intelligence_summary
       [("is_suspicious", JBool false); ("nearest_match", JNull); ("match_quality", JStr "weak");
        ("recommended_action", JStr "allow"); ("llm_verdict", JNull); ("confidence", JStr "low");
        ("latency_ms", JInt 0); ("source", JStr "vector_search"); ("semantic_score", JNull);
        ("lexical_similarity_score", JNull); ("candidate_source_rank", JNull);
        ("candidate_score_final", JNull); ("candidate_trust", JNull);
        ("adjacent_name_found_in_corpus", JBool false); ("judge_cache_hit", JNull)]);
     findings := []; ttlSeconds := None; legacy := None |}.

Definition severityFromVerdict (recommendedAction : recommended_action) (matchQuality : match_quality)
  : VulnSeverity :=
  match recommendedAction with
  | block => match matchQuality with strong => HIGH | _ => MEDIUM end
  | review => MEDIUM
  | allow => LOW
  end.

Definition mapResponseToResult (ecosystem pkg : string) (response : IntelligenceCheckResponse)
  : ConnectorResult :=
  let summary_ := intelligence_block response in
  {| summary := Some (intelligence_summary summary_);
     findings :=
       if negb (r_is_suspicious response) then []
       else
         [{| findingId := ecosystem +:+ ":" +:+ pkg +:+ ":typosquat_candidate";
             f_severity := severityFromVerdict (r_recommended_action response) (r_match_quality response);
             f_title := Some match present (r_nearest_match response) with
                             | Some m => "Possible typosquat of " +:+ m
                             | None => "Possible typosquat package: " +:+ pkg
                             end;
             publishedAt := None;
             attributes := spread [("ecosystem", JStr ecosystem); ("package", JStr pkg)] summary_ |}];
     ttlSeconds := None; legacy := None |}.

Definition intelligence_supportsEvent (event : ConnectorEvent) : bool :=
  existsb (String.eqb (toLowerCase (e_ecosystem event))) ["npm"].

(** The service call: its answer for an ecosystem and a package, on behalf of the
    event's tenant and project. *)
Definition intelligence_check : Type :=
  string -> string -> option ConnectorEventContext -> res IntelligenceCheckResponse.

Definition fetchPackageSignals (check : intelligence_check) (ecosystem pkg : string)
    (requestContext : option ConnectorEventContext) : res ConnectorResult :=
  let normalizedEcosystem := toLowerCase ecosystem in
  if negb (existsb (String.eqb normalizedEcosystem) ["npm"]) then Ok intelligence_emptyResult
  else
    let! parsed := check normalizedEcosystem pkg requestContext in
    Ok (mapResponseToResult normalizedEcosystem pkg parsed).

Definition intelligence_handleEvent (check : intelligence_check) (event : ConnectorEvent)
  : res (option ConnectorResult) :=
  if negb (intelligence_supportsEvent event) then Ok None
  else Some <$> fetchPackageSignals check (e_ecosystem event) (e_packageName event) (e_context event).

(** ** Snapshots *)

Definition parseResultSummary (result : option ConnectorResult) : option (list (string * jsval)) :=
  r ← result; s ← summary r; s_intelligence s.

(** [summary?.k ?? d] *)
Definition block_field (blk : option (list (string * jsval))) (k : string) (d : jsval) : jsval :=
  nullish (default JUndef (b ← blk; own k b)) d.

Definition intelligence_fields (result : ConnectorResult) : list (string * jsval) :=
  let summary_ := parseResultSummary (Some result) in
  let field k d := (k, block_field summary_ k d) in
  [field "is_suspicious" (JBool false); field "nearest_match" JNull; field "match_quality" (JStr "weak");
   field "recommended_action" (JStr "allow"); field "confidence" (JStr "low");
   field "llm_verdict" JNull; field "source" (JStr "vector_search"); field "latency_ms" (JInt 0);
   field "semantic_score" JNull; field "lexical_similarity_score" JNull;
   field "candidate_source_rank" JNull; field "candidate_score_final" JNull;
   field "candidate_trust" JNull; field "adjacent_name_found_in_corpus" (JBool false);
   field "judge_cache_hit" JNull].

(** Unlike the other connectors, a failure status does not empty the fields. *)
Definition intelligence_normalizeToSnapshot (result : option ConnectorResult) (context : EntityContext)
    (failureStatus : option connector_status) (errorCode : option string) (now : timestamp)
  : ConnectorSnapshot :=
  let m := build_meta context failureStatus errorCode in
  match result with
  | None => build_snapshot INTELLIGENCE_ID context m [] now
  | Some r => build_snapshot INTELLIGENCE_ID context m (intelligence_fields r) now
  end.

(** ** Presentation *)

Definition dispositionTone (value : string) : tone :=
  if existsb (String.eqb value) ["block"; "high"; "strong"] then bad
  else if existsb (String.eqb value) ["review"; "medium"; "ambiguous"] then warn
  else good.

(** [x.toFixed(3)] below 10^21. *)
Definition toFixed3 (x : num) : string :=
  match num_ratio x with
  | Some (n, d) =>
      let thousandths := (2000 * Z.abs n + Zpos d) / (2 * Zpos d) in
      (if n <? 0 then "-" else EmptyString)
      +:+ digits (thousandths / 1000) +:+ "." +:+ pad 3 (thousandths mod 1000)
  | None => num_to_string x
  end.

(** [s.replaceAll("_", " ")] *)
Definition underscores_spaced (s : string) : string :=
  map_string (fun c => if Ascii.eqb c "_" then " "%char else c) s.

Definition text_of (v : jsval) : option string :=
  match v with JStr s => present (Some s) | _ => None end.

(** The block's values are taken at their declared types. *)
Definition intelligence_buildSummary (result : option ConnectorResult) (snapshot : ConnectorSnapshot)
  : ConnectorUiSummary :=
  let status := m_status (meta snapshot) in
  if negb (is_ready snapshot) then
    {| ui_status := status; headline := "Intelligence: " +:+ underscores_spaced (status_name status);
       ui_disposition := Some d_unavailable; ui_score := None;
       badges := Some (buildStatusBadges snapshot); keyFacts := Some (buildStatusFacts snapshot) |}
  else
    let summary_ := parseResultSummary result in
    let action := to_str (block_field summary_ "recommended_action" (JStr "allow")) in
    let confidence := to_str (block_field summary_ "confidence" (JStr "low")) in
    let quality := to_str (block_field summary_ "match_quality" (JStr "weak")) in
    let nearest := text_of (block_field summary_ "nearest_match" JNull) in
    let fixed_fact label k :=
      match block_field summary_ k JNull with
      | JNum n => [{| fact_label := label; fact_value := toFixed3 n |}]
      | _ => []
      end in
    {| ui_status := status;
       headline :=
         if truthy (block_field summary_ "is_suspicious" JUndef) then
           match nearest with
           | Some m => "Possible typosquat of " +:+ m
           | None => "Possible typosquat detected"
           end
         else "No typosquat signal detected";
       ui_disposition := Some
         (if String.eqb action "block" then d_blocked
          else if String.eqb action "review" then d_warning else d_clean);
       ui_score := None;
       badges := Some
         (buildStatusBadges snapshot
          ++ [{| badge_label := action; badge_tone := dispositionTone action |};
              {| badge_label := confidence +:+ " confidence"; badge_tone := dispositionTone confidence |};
              {| badge_label := quality +:+ " match"; badge_tone := dispositionTone quality |}]
          ++ match text_of (block_field summary_ "candidate_trust" JNull) with
             | Some t => [{| badge_label := t +:+ " trust"; badge_tone := dispositionTone t |}]
             | None => []
             end);
       keyFacts := Some
         (match nearest with
          | Some m => [{| fact_label := "Nearest match"; fact_value := m |}]
          | None => []
          end
          ++ fixed_fact "Semantic score" "semantic_score"
          ++ fixed_fact "Lexical score" "lexical_similarity_score"
          ++ match block_field summary_ "candidate_source_rank" JNull with
             | JUndef | JNull => []
             | v => [{| fact_label := "Candidate rank"; fact_value := to_str v |}]
             end) |}.

(** ** Catalogue *)

Definition intelligence_data_fields : list ConnectorField :=
  [catalog_field INTELLIGENCE_ID "is_suspicious" "source.intelligence.is_suspicious" "Suspicious Package"
     (Some "Whether the intelligence service flagged this package as suspicious.") "boolean" boolOps None;
   catalog_field INTELLIGENCE_ID "nearest_match" "source.intelligence.nearest_match" "Nearest Match"
     (Some "Closest known package returned by the intelligence service.") "string" anyOps None;
   catalog_field INTELLIGENCE_ID "match_quality" "source.intelligence.match_quality" "Match Quality"
     (Some "Strength of the nearest package match.") "string" strOps (Some ["weak"; "ambiguous"; "strong"]);
   catalog_field INTELLIGENCE_ID "recommended_action" "source.intelligence.recommended_action" "Recommended Action"
     (Some "Action recommended by the intelligence service.") "string" strOps (Some ["allow"; "review"; "block"]);
   catalog_field INTELLIGENCE_ID "confidence" "source.intelligence.confidence" "Confidence"
     (Some "Confidence level for the intelligence verdict.") "string" strOps (Some ["low"; "medium"; "high"]);
   catalog_field INTELLIGENCE_ID "semantic_score" "source.intelligence.semantic_score" "Semantic Score"
     (Some "Embedding similarity score for the selected candidate.") "float" floatOps None;
   catalog_field INTELLIGENCE_ID "lexical_similarity_score" "source.intelligence.lexical_similarity_score" "Lexical Score"
     (Some "Lexical similarity score for the selected candidate.") "float" floatOps None;
   catalog_field INTELLIGENCE_ID "candidate_source_rank" "source.intelligence.candidate_source_rank" "Candidate Source Rank"
     (Some "Source rank of the selected candidate package.") "integer" intOps None;
   catalog_field INTELLIGENCE_ID "candidate_score_final" "source.intelligence.candidate_score_final" "Candidate Score"
     (Some "Final ranking score for the selected candidate package.") "float" floatOps None;
   catalog_field INTELLIGENCE_ID "candidate_trust" "source.intelligence.candidate_trust" "Candidate Trust"
     (Some "Trust tier of the selected candidate package.") "string" strOps (Some ["low"; "medium"; "high"]);
   catalog_field INTELLIGENCE_ID "adjacent_name_found_in_corpus" "source.intelligence.adjacent_name_found_in_corpus" "Adjacent Name Found"
     (Some "Whether a related adjacent package name exists in the corpus.") "boolean" boolOps None;
   catalog_field INTELLIGENCE_ID "judge_cache_hit" "source.intelligence.judge_cache_hit" "Judge Cache Hit"
     (Some "Whether the intelligence judge response came from cache.") "boolean" boolOps None].

Definition intelligence_meta_fields : list ConnectorField :=
  [catalog_field INTELLIGENCE_ID "_meta.status" "source.intelligence._meta.status" "Connector Status"
     (Some "Response status of the intelligence connector for this request.") "string" metaStrOps (Some STATUSES);
   catalog_field INTELLIGENCE_ID "_meta.response_time_ms" "source.intelligence._meta.response_time_ms" "Connector Response Time (ms)"
     (Some "How long the connector call took for this request.") "integer" intOps None;
   catalog_field INTELLIGENCE_ID "_meta.cache_age_hours" "source.intelligence._meta.cache_age_hours" "Cache Age (hours)"
     (Some "How old the cached connector result is, when served from cache.") "float" floatOps None;
   catalog_field INTELLIGENCE_ID "_meta.is_cache_hit" "source.intelligence._meta.is_cache_hit" "Cache Hit"
     (Some "Whether the connector result came from cache.") "boolean" boolOps None;
   catalog_field INTELLIGENCE_ID "_meta.error_code" "source.intelligence._meta.error_code" "Connector Error Code"
     (Some "Connector-specific error code when the request did not complete cleanly.") "string" anyOps None].

Definition intelligence_getFieldCatalog : list ConnectorField :=
  intelligence_data_fields ++ intelligence_meta_fields.

Definition intelligence_getFindingSchema : list ConnectorFindingField :=
  [finding_field "package" "Package" "string" (Some "code");
   finding_field "nearest_match" "Nearest Match" "string" (Some "code");
   finding_field "match_quality" "Match Quality" "string" (Some "badge");
   finding_field "recommended_action" "Recommended Action" "string" (Some "badge");
   finding_field "confidence" "Confidence" "string" (Some "badge");
   finding_field "semantic_score" "Semantic Score" "float" (Some "number");
   finding_field "lexical_similarity_score" "Lexical Score" "float" (Some "number");
   finding_field "candidate_source_rank" "Candidate Rank" "integer" (Some "number");
   finding_field "candidate_score_final" "Candidate Score" "float" (Some "number");
   finding_field "candidate_trust" "Candidate Trust" "string" (Some "badge");
   finding_field "adjacent_name_found_in_corpus" "Adjacent Name Found" "boolean" (Some "badge");
   finding_field "judge_cache_hit" "Judge Cache Hit" "boolean" (Some "badge");
   finding_field "llm_verdict" "Judge Verdict" "string" None;
   finding_field "source" "Source" "string" (Some "badge");
   finding_field "latency_ms" "Latency (ms)" "integer" (Some "number")].

Definition intelligence_buildPresentation (result : option ConnectorResult) (snapshot : ConnectorSnapshot)
  : res ConnectorPresentation :=
  buildDefaultConnectorPresentation result snapshot intelligence_getFindingSchema "Intelligence"
    (Some intelligence_buildSummary).

#[export] Instance intelligence_connector : PackageIntelligenceConnector IntelligenceConnector := {
  connector_id _ := INTELLIGENCE_ID;
  cacheTtlSeconds := intelligence_cacheTtlSeconds;
  supportedEcosystems _ := only ["npm"];
  subscribedEvents _ :=
    [{| sub_kind := package_metadata; executionMode := async_preferred |};
     {| sub_kind := artifact_request; executionMode := async_preferred |}];
  readSnapshots _ := true;
  supportsEvent _ := intelligence_supportsEvent;
  normalizeToSnapshot _ := intelligence_normalizeToSnapshot;
  getFieldCatalog _ := intelligence_getFieldCatalog
}.

#[export] Instance intelligence_lawful : LawfulConnector IntelligenceConnector.
Proof.
  constructor; cbn; unfold intelligence_normalizeToSnapshot.
  - intros _ [] ? ? ? ?; done.
  - intros _ [] ? ? ? ?; done.
  - intros _ [] ? ? ? ?; done.
  - done.
  - intros _ result ctx failure err now k v Hin.
    destruct result as [r|]; [|by apply not_elem_of_nil in Hin].
    cbn in Hin. repeat (apply elem_of_cons in Hin as [[= -> _]|Hin]; [done|]).
    by apply not_elem_of_nil in Hin.
  - intros _ result ctx failure err now. destruct result as [r|]; cbn; [|apply NoDup_nil_2].
    apply (bool_decide_unpack _). by vm_compute.
Qed.
