(* ===== verification/Evaluation.v ===== *)
(** * Connector evaluation (services/api/src/connect/check-service.ts)

    What a check does with its connectors: each supported one is answered from the
    cache, by a package-scoped cached result, or by a fetch with a deadline; its
    snapshot and findings are stored; and the stored snapshots are resolved into
    the fields the rules are evaluated on.

    A fetch that misses the deadline goes on in the background: the evaluation
    returns it as a [late_fetch], which [settleLateFetch] completes.  The
    connectors of a group run at the same time in the program; the model runs them
    in their order. *)

From S2P Require Import Prelude JsString JsNum JsValue Sql Effects JsDate Identity Schema ConnectorTypes Jsonb Cache Findings Snapshots Resolver Contributor.
Local Open Scope string_scope.
Local Open Scope list_scope.
Local Open Scope Z_scope.

(** ** The request and the tables *)

Record ContributorVersionInput := {
  cx_version : string; cx_published_at : string; cx_publisher : option string; cx_maintainers : list string;
  cx_has_install_scripts : bool; cx_has_attestation : bool; cx_raw_payload_json : option string
}.

Record ContributorContext := {
  cx_requested_version : string; cx_slice_extracted_at : string; cx_slice_window_days : Z;
  cx_slice_history_complete : bool; cx_slice_oldest_included_published_at : option string;
  cx_package_metadata_fingerprint : option string; cx_slice_fingerprint : option string;
  cx_versions : list ContributorVersionInput
}.

(** The parts of a [CheckRequest] the evaluation reads. *)
Record EvaluationRequest := {
  rq_identity : PackageIdentityInput; rq_request_id : string; rq_trace_id : string;
  rq_contributor_context : option ContributorContext
}.

Record check_db := {
  connector_cache : list CacheRow; connector_snapshots : list snapshot_row; finding_tables : findings_db;
  catalog_tables : catalog_db; release_facts : list release_facts_row; package_facts : list package_facts_row
}.

Definition set_cache (l : list CacheRow) (db : check_db) : check_db :=
  {| connector_cache := l; connector_snapshots := connector_snapshots db; finding_tables := finding_tables db;
     catalog_tables := catalog_tables db; release_facts := release_facts db;
     package_facts := package_facts db |}.
Definition set_snapshots (l : list snapshot_row) (db : check_db) : check_db :=
  {| connector_cache := connector_cache db; connector_snapshots := l; finding_tables := finding_tables db;
     catalog_tables := catalog_tables db; release_facts := release_facts db;
     package_facts := package_facts db |}.
Definition set_finding_tables (t : findings_db) (db : check_db) : check_db :=
  {| connector_cache := connector_cache db; connector_snapshots := connector_snapshots db; finding_tables := t;
     catalog_tables := catalog_tables db; release_facts := release_facts db;
     package_facts := package_facts db |}.
Definition set_catalog (t : catalog_db) (db : check_db) : check_db :=
  {| connector_cache := connector_cache db; connector_snapshots := connector_snapshots db;
     finding_tables := finding_tables db; catalog_tables := t; release_facts := release_facts db;
     package_facts := package_facts db |}.
Definition set_release_facts (l : list release_facts_row) (db : check_db) : check_db :=
  {| connector_cache := connector_cache db; connector_snapshots := connector_snapshots db;
     finding_tables := finding_tables db; catalog_tables := catalog_tables db; release_facts := l;
     package_facts := package_facts db |}.
Definition set_package_facts (l : list package_facts_row) (db : check_db) : check_db :=
  {| connector_cache := connector_cache db; connector_snapshots := connector_snapshots db;
     finding_tables := finding_tables db; catalog_tables := catalog_tables db; release_facts := release_facts db;
     package_facts := l |}.

Definition EM : Type -> Type := M check_db.

Definition on_cache {A} : M (list CacheRow) A -> EM A := zoom connector_cache set_cache.
Definition on_snapshots {A} : M (list snapshot_row) A -> EM A := zoom connector_snapshots set_snapshots.
Definition on_findings {A} : M findings_db A -> EM A := zoom finding_tables set_finding_tables.
Definition on_catalog {A} : M catalog_db A -> EM A := zoom catalog_tables set_catalog.

(** ** Errors *)

Definition isConnectorUnavailableError (message : string) : bool :=
  existsb (String.eqb message)
    [CONTRIBUTOR_FACTS_UNAVAILABLE_ERROR; "intelligence_http_429"; "intelligence_http_503"].

Section evaluation.
Context `{Env} {C : Type} `{PackageIntelligenceConnector C}.
Context (handleEvent : C -> ConnectorEvent -> check_db -> timestamp -> fetch_outcome).

(** ** Events *)

Definition event_identity_of (artifact : ArtifactIdentity) : event_identity :=
  {| ei_package_id := package_id (catalog artifact); ei_package_version_id := package_version_id (catalog artifact);
     ei_ecosystem := id_ecosystem (identity artifact); ei_package := id_package (identity artifact);
     ei_version := id_version (identity artifact) |}.

Definition request_context (req : EvaluationRequest) (tenantId projectId : string) : ConnectorEventContext :=
  {| ctx_tenantId := Some tenantId; ctx_projectId := Some projectId; ctx_requestId := Some (rq_request_id req);
     ctx_traceId := Some (rq_trace_id req); ctx_proxyId := None |}.

Definition artifact_event (artifact : ArtifactIdentity) (context : ConnectorEventContext) : EM ConnectorEvent :=
  id ← fresh; at_ ← now_;
  of_res (buildArtifactRequestEvent (event_identity_of artifact) "proxy" (Some context) id at_).

Definition metadata_event (artifact : ArtifactIdentity) (context : option ConnectorEventContext) : EM ConnectorEvent :=
  id ← fresh; at_ ← now_;
  of_res (buildPackageMetadataEvent (event_identity_of artifact) "proxy" context id at_).

Definition connectorRequiresSynchronousArtifactEvaluation (connector : C) : bool :=
  match getConnectorSubscription connector artifact_request with
  | Some s => bool_decide (executionMode s = sync_required)
  | None => false
  end.

Definition connectorSupportsArtifactRequest (artifact : ArtifactIdentity) (context : ConnectorEventContext)
    (connector : C) : EM bool :=
  event ← attempt (artifact_event artifact context);
  mret (match event with Ok event => connectorSupportsEvent connector event | Throw _ => false end).

(** ** Storing what a connector says *)

(** One evaluation: who asks, of which connector, about what. *)
Record evaluation := {
  ev_connector : C; ev_tenantId : string; ev_projectId : string; ev_event : ConnectorEvent; ev_displayName : string
}.

(** The snapshot of the artifact a result, or a failure, gives; reads the clock. *)
Definition snapshot_now (ev : evaluation) (result : option ConnectorResult) (responseTimeMs : Z)
    (failure : option connector_status) (errorCode : option string) : EM ConnectorSnapshot :=
  observedAt ← now_;
  mret (normalizeToSnapshot (ev_connector ev) result
          (eventEntityContext (ev_event ev) (ev_displayName ev) false responseTimeMs None) failure errorCode observedAt).

Definition findings_input (ev : evaluation) (cacheId : option string) (snapshot : ConnectorSnapshot)
    (fs : list ConnectorFinding) : UpsertProjectFindingsInput :=
  {| in_tenantId := ev_tenantId ev; in_projectId := ev_projectId ev;
     in_connectorKey := connector_id (ev_connector ev); in_connectorCacheId := cacheId;
     in_packageId := packageId snapshot; in_packageVersionId := packageVersionId snapshot; in_findings := fs |}.

Definition store_snapshot (ev : evaluation) (snapshot : ConnectorSnapshot) : EM unit :=
  on_snapshots (upsertConnectorSnapshot (ev_tenantId ev) (ev_projectId ev) snapshot).

Definition persistConnectorResult (ev : evaluation) (result : ConnectorResult) (responseTimeMs : Z)
  : EM ConnectorSnapshot :=
  cacheRow ← on_cache (upsertCachedResult (ev_connector ev) (ev_event ev) result None);
  snapshot ← snapshot_now ev (Some result) responseTimeMs None None;
  _ ← store_snapshot ev snapshot;
  _ ← on_findings (upsertProjectFindingsForEntity
        (findings_input ev (cr_id <$> cacheRow) snapshot (findings result)));
  mret snapshot.

(** ** Answers from the cache *)

(** What the caches have: a stored snapshot, or a result to persist. *)
Inductive cached_answer : Type :=
| cached_snapshot (s : ConnectorSnapshot)
| package_scoped (r : ConnectorResult)
| not_cached.

(** The first part of the try block, the same in both evaluations. *)
Definition answerFromCache (ev : evaluation) (artifact : ArtifactIdentity) (context : ConnectorEventContext)
  : EM cached_answer :=
  cached ← on_cache (buildCachedSnapshot (ev_connector ev) (ev_event ev) (ev_displayName ev));
  match cached with
  | Some c =>
      _ ← store_snapshot ev (snapshot c);
      _ ← on_findings (upsertProjectFindingsForEntity
            (findings_input ev (connectorCacheId c) (snapshot c) (cached_findings c)));
      mret (cached_snapshot (snapshot c))
  | None =>
      metadataEvent ← metadata_event artifact (Some context);
      result ← if connectorSupportsEvent (ev_connector ev) metadataEvent
               then on_cache (getPackageScopedCachedResult (ev_connector ev) metadataEvent)
               else mret None;
      mret (match result with Some r => package_scoped r | None => not_cached end)
  end.

(** ** Fetching *)

(** A fetch still under way when its check is answered. *)
Record late_fetch := { lf_evaluation : evaluation; lf_startMs : timestamp; lf_settles : res (option ConnectorResult) }.

(** The background continuation of such a fetch; its errors are only logged. *)
Definition settleLateFetch (lf : late_fetch) : EM unit :=
  match lf_settles lf with
  | Ok (Some result) =>
      now ← now_;
      _ ← attempt (persistConnectorResult (lf_evaluation lf) result (now - lf_startMs lf));
      mret tt
  | _ => mret tt
  end.

(** The catch block: the snapshot of a failure, and the fetch left behind by a
    deadline.  [fetch] is the outcome of the fetch, if it was started. *)
Definition evaluationFailed (ev : evaluation) (fetchStartMs : timestamp) (fetch : option fetch_outcome)
    (message : string) : EM (ConnectorSnapshot * option late_fetch) :=
  let isTimeout := String.eqb message "response_timeout" in
  let waiting := if isTimeout then fetch else None in
  let failureStatus :=
    match waiting with
    | Some _ => st_background_pending
    | None => if isConnectorUnavailableError message then st_unavailable else st_error
    end in
  now ← now_;
  snapshot ← snapshot_now ev None (now - fetchStartMs) (Some failureStatus) (Some message);
  _ ← store_snapshot ev snapshot;
  mret (snapshot,
        (fun f => {| lf_evaluation := ev; lf_startMs := fetchStartMs; lf_settles := settles f |}) <$> waiting).

(** The race of the fetch against the deadline. *)
Definition race (f : fetch_outcome) : res (option ConnectorResult) :=
  if in_time f then settles f else Throw "response_timeout".

Definition evaluateConnectorForRequest (req : EvaluationRequest) (artifact : ArtifactIdentity)
    (tenantId projectId : string) (connector : C) : EM (ConnectorSnapshot * option late_fetch) :=
  let context := request_context req tenantId projectId in
  event ← artifact_event artifact context;
  if negb (connectorSupportsEvent connector event) then
    now ← now_; mret (unavailableSnapshot (connector_id connector) now, None)
  else
    let ev := {| ev_connector := connector; ev_tenantId := tenantId; ev_projectId := projectId;
                 ev_event := event; ev_displayName := display_name artifact |} in
    fetchStartMs ← now_;
    answer ← attempt (answerFromCache ev artifact context);
    match answer with
    | Throw message => evaluationFailed ev fetchStartMs None message
    | Ok (cached_snapshot s) => mret (s, None)
    | Ok (package_scoped result) => s ← persistConnectorResult ev result 0; mret (s, None)
    | Ok not_cached =>
        db ← gets (fun db => db);
        now ← now_;
        let fetch := handleEvent connector event db now in
        match race fetch with
        | Throw message => evaluationFailed ev fetchStartMs (Some fetch) message
        | Ok None => now ← now_; mret (unavailableSnapshot (connector_id connector) now, None)
        | Ok (Some result) =>
            now ← now_;
            s ← persistConnectorResult ev result (now - fetchStartMs);
            mret (s, None)
        end
    end.

Definition evaluateCachedConnectorForRequest (req : EvaluationRequest) (artifact : ArtifactIdentity)
    (tenantId projectId : string) (connector : C) : EM (option ConnectorSnapshot) :=
  let context := request_context req tenantId projectId in
  event ← artifact_event artifact context;
  if negb (connectorSupportsEvent connector event) then mret None
  else
    let ev := {| ev_connector := connector; ev_tenantId := tenantId; ev_projectId := projectId;
                 ev_event := event; ev_displayName := display_name artifact |} in
    answer ← attempt (answerFromCache ev artifact context);
    match answer with
    | Ok (cached_snapshot s) => mret (Some s)
    | Ok (package_scoped result) => s ← persistConnectorResult ev result 0; mret (Some s)
    | Ok not_cached | Throw _ => mret None
    end.

(** ** The release context *)

Definition toIsoTimestamp (value : option timestamp) : option string := toISOString <$> value.

Definition ageDays (isoTimestamp : option string) : EM (option num) :=
  match present isoTimestamp with
  | None => mret None
  | Some iso =>
      match date_parse iso with
      | None => mret None
      | Some publishedAt => now ← now_; mret (Some (math_max num_zero (elapsed now publishedAt 86400000)))
      end
  end.

(** The publication dates of the version and of the package's latest version. *)
Definition release_row (identity : CanonicalPackageIdentity) (version : string) (db : catalog_db)
  : option (option timestamp * option timestamp) :=
  '(v, p) ← head (List.filter
       (fun r => String.eqb (pk_ecosystem r.2) (id_ecosystem identity)
                 && String.eqb (pk_package r.2) (id_package identity)
                 && String.eqb (pv_version r.1) version)
       (inner_join (fun v p => String.eqb (pk_id p) (pv_package_id v)) (package_versions db) (packages db)));
  let latest :=
    id ← pk_latest_package_version_id p;
    l ← head (List.filter (fun l => String.eqb (pv_id l) id) (package_versions db));
    pv_published_at l in
  Some (pv_published_at v, latest).

Definition loadPackageReleaseContext (req : EvaluationRequest) : EM (option string * option num * option string) :=
  let identity := canonicalizePackageIdentity (rq_identity req) in
  match id_version identity with
  | None => mret (None, None, None)
  | Some version =>
      row ← gets (fun db => release_row identity version (catalog_tables db));
      let versionPublishedAt := toIsoTimestamp (r ← row; r.1) in
      let latestVersionPublishedAt := toIsoTimestamp (r ← row; r.2) in
      versionAgeDays ← ageDays versionPublishedAt;
      mret (versionPublishedAt, versionAgeDays, latestVersionPublishedAt)
  end.

(** ** The fields of a check *)

Fixpoint filter_supported (supports : C -> EM bool) (connectors : list C) : EM (list C) :=
  match connectors with
  | [] => mret []
  | c :: cs => b ← supports c; cs ← filter_supported supports cs; mret (if b : bool then c :: cs else cs)
  end.

(** The loop over the supported connectors: a missing snapshot is made up, and
    each connector's meta recorded. *)
Fixpoint complete_snapshots (connectors : list C) (snapshots : list ConnectorSnapshot)
    (connectorMeta : list (string * ConnectorSnapshotMeta))
  : EM (list ConnectorSnapshot * list (string * ConnectorSnapshotMeta)) :=
  match connectors with
  | [] => mret (snapshots, connectorMeta)
  | c :: cs =>
      match js_find (fun s => String.eqb (connectorKey s) (connector_id c)) snapshots with
      | Some s => complete_snapshots cs snapshots (map_set (connector_id c) (meta s) connectorMeta)
      | None =>
          now ← now_;
          let s := unavailableSnapshot (connector_id c) now in
          complete_snapshots cs (snapshots ++ [s]) (map_set (connector_id c) (meta s) connectorMeta)
      end
  end.

(** What a check evaluates its rules on: the fields, the meta blocks, and the
    fetches it leaves behind.  [prefetch] takes in the request's contributor
    slice before the connectors run. *)
Record evaluation_fields := {
  ef_fields : list (string * jsval); ef_connectorMeta : list (string * ConnectorSnapshotMeta);
  ef_late : list late_fetch
}.

Definition collectConnectorEvaluationFields (prefetch : EM unit) (req : EvaluationRequest) (connectors : list C)
    (tenantId projectId : string) (artifact : ArtifactIdentity) : EM evaluation_fields :=
  supported ← filter_supported
    (connectorSupportsArtifactRequest artifact (request_context req tenantId projectId)) connectors;
  let sync := List.filter connectorRequiresSynchronousArtifactEvaluation supported in
  let async := List.filter (fun c => negb (connectorRequiresSynchronousArtifactEvaluation c)) supported in
  _ ← prefetch;
  syncs ← mapM_ (evaluateConnectorForRequest req artifact tenantId projectId) sync;
  asyncs ← mapM_ (evaluateCachedConnectorForRequest req artifact tenantId projectId) async;
  let connectorMeta := map_entries (map (fun s => (connectorKey s, meta s)) (syncs.*1 ++ omap id asyncs)) in
  snapshots ← match supported with
              | [] => mret []
              | _ => on_snapshots (loadSnapshots projectId artifact "artifact")
              end;
  completed ← complete_snapshots supported snapshots connectorMeta;
  release ← loadPackageReleaseContext req;
  now ← now_;
  let '(versionPublishedAt, versionAgeDays, latestVersionPublishedAt) := release in
  mret {| ef_fields := resolveFields completed.1
            {| a_ecosystem := i_ecosystem (rq_identity req); a_pkg := i_package (rq_identity req);
               a_version := default EmptyString (i_version (rq_identity req));
               versionPublishedAt := versionPublishedAt; versionAgeDays := versionAgeDays;
               latestVersionPublishedAt := latestVersionPublishedAt |} now;
          ef_connectorMeta := completed.2; ef_late := omap snd syncs |}.

(** ** Warming the package-scoped cache *)

(** The background task started for one connector by a metadata request. *)
Definition warm_connector (event : ConnectorEvent) (connector : C) : EM unit :=
  if negb (connectorSupportsEvent connector event) then mret tt
  else
    _ ← attempt
      (cached ← on_cache (getPackageScopedCachedResult connector event);
       match cached with
       | Some _ => mret tt
       | None =>
           db ← gets (fun db => db);
           now ← now_;
           result ← of_res (settles (handleEvent connector event db now));
           match result with
           | Some r => _ ← on_cache (upsertPackageScopedCachedResult connector event r None); mret tt
           | None => mret tt
           end
       end);
    mret tt.

Definition warmPackageScopedConnectors (artifact : ArtifactIdentity) (connectors : list C)
    (context : ConnectorEventContext) : EM unit :=
  match present (package_id (catalog artifact)) with
  | None => mret tt
  | Some _ =>
      event ← metadata_event artifact (Some context);
      _ ← mapM_ (warm_connector event) connectors;
      mret tt
  end.
End evaluation.
