(* ===== verification/EvaluationCorrect.v ===== *)
(** * Correctness of the connector evaluation

    The invariant of the tables an evaluation writes, and what one evaluation
    does to them on each of its paths. *)

From S2P Require Import Prelude JsString JsNum JsValue Sql Effects JsDate Identity Schema ConnectorTypes Jsonb Cache Findings FindingsCorrect Snapshots Resolver Contributor Evaluation.
Local Open Scope string_scope.
Local Open Scope list_scope.
Local Open Scope Z_scope.

Section correct.
Context `{Env} (uuid_inj : forall m n, uuid m = uuid n -> m = n).
Context {C : Type} `{LawfulConnector C}.
Context (handleEvent : C -> ConnectorEvent -> check_db -> timestamp -> fetch_outcome).
Context (owner : string -> string).

(** ** Updates of one table *)

Lemma set_cache_same db : set_cache (connector_cache db) db = db.
Proof. by destruct db. Qed.

Lemma set_snapshots_same db : set_snapshots (connector_snapshots db) db = db.
Proof. by destruct db. Qed.

Lemma on_table_run {T A} (get : check_db -> T) (set : T -> check_db -> check_db) (e : M T A) n db a n' t :
  returns e (n, get db) a (n', t) -> returns (zoom get set e) (n, db) a (n', set t db).
Proof. intros Hr. apply returns_zoom. by exists (n', t). Qed.

(** ** The artifact of a check *)

(** An identity the catalogue resolved: its version belongs to its package. *)
Record catalogued (artifact : ArtifactIdentity) (vid version : string) : Prop := {
  ca_package : package_id (catalog artifact) = Some (owner vid);
  ca_version : package_version_id (catalog artifact) = Some vid;
  ca_name : id_version (identity artifact) = Some version;
  ca_nonempty : owner vid <> EmptyString /\ vid <> EmptyString /\ version <> EmptyString
}.

(** The event of a check of such an artifact. *)
Record artifact_request_of (vid : string) (event : ConnectorEvent) : Prop := {
  ar_kind : e_kind event = artifact_request;
  ar_package : e_packageId event = owner vid;
  ar_version : e_packageVersionId event = Some vid;
  ar_nonempty : owner vid <> EmptyString /\ vid <> EmptyString
}.

Lemma artifact_event_run artifact vid v context n db :
  catalogued artifact vid v ->
  exists event, artifact_request_of vid event /\ returns (artifact_event artifact context) (n, db) event (S (S n), db).
Proof.
  intros [Hp Hv Hn (Hne1 & Hne2 & Hne3)].
  assert (Hb : exists e, artifact_request_of vid e /\
    buildArtifactRequestEvent (event_identity_of artifact) "proxy" (Some context) (uuid n) (clock (S n)) = Ok e).
  { unfold buildArtifactRequestEvent, event_identity_of. cbn [ei_package_id ei_package_version_id ei_version].
    rewrite Hp, Hv, Hn.
    rewrite !(proj2 (present_some _ _)) by done. eexists. split; [|done]. by split. }
  destruct Hb as (e & He & Hb). exists e. split; [done|]. unfold artifact_event.
  apply returns_bind. eexists _, _. split; [by apply returns_fresh|]. apply returns_bind. eexists _, _.
  split; [by apply returns_now|]. apply returns_of_res. by split.
Qed.

Lemma metadata_event_run artifact vid v context n db :
  catalogued artifact vid v ->
  exists event, e_kind event = package_metadata /\ e_packageId event = owner vid /\ e_packageVersionId event = None /\
    returns (metadata_event artifact context) (n, db) event (S (S n), db).
Proof.
  intros [Hp Hv Hn (Hne1 & Hne2 & Hne3)].
  assert (Hb : exists e, (e_kind e = package_metadata /\ e_packageId e = owner vid /\ e_packageVersionId e = None) /\
    buildPackageMetadataEvent (event_identity_of artifact) "proxy" context (uuid n) (clock (S n)) = Ok e).
  { unfold buildPackageMetadataEvent, event_identity_of. cbn [ei_package_id]. rewrite Hp.
    rewrite (proj2 (present_some _ (owner vid))) by done.
    eexists. split; [|reflexivity]. by repeat split. }
  destruct Hb as (e & (E1 & E2 & E3) & Hb). exists e. split; [done|]. split; [done|]. split; [done|]. unfold metadata_event.
  apply returns_bind. eexists _, _. split; [by apply returns_fresh|]. apply returns_bind. eexists _, _.
  split; [by apply returns_now|]. apply returns_of_res. by split.
Qed.

Lemma request_well_formed vid event : artifact_request_of vid event -> well_formed_event event = true.
Proof.
  intros [_ _ Hv [_ Hne]]. unfold well_formed_event. rewrite Hv. unfold nonempty. by rewrite (proj2 (String.eqb_neq _ _)).
Qed.

Lemma request_key c vid event : artifact_request_of vid event -> event_key c event = (connector_id c, true, vid).
Proof. intros [_ _ Hv _]. unfold event_key. by rewrite Hv. Qed.

(** ** Snapshots *)

(** A snapshot of a connector made for an event of the artifact. *)
Definition snapshot_for (c : C) (vid : string) (s : ConnectorSnapshot) : Prop :=
  connectorKey s = connector_id c /\ entityType s = "artifact" /\
  packageId s = Some (owner vid) /\ packageVersionId s = Some vid.

Lemma normalized_for c vid event name hit ms age result failure err now :
  artifact_request_of vid event ->
  snapshot_for c vid (normalizeToSnapshot c result (eventEntityContext event name hit ms age) failure err now).
Proof.
  intros [_ Hp Hv _]. unfold snapshot_for. rewrite snapshot_key.
  destruct (snapshot_identity c result (eventEntityContext event name hit ms age) failure err now) as (E1 & E2 & E3).
  cbn zeta in *. rewrite E1, E2, E3. cbn. by rewrite Hp, Hv.
Qed.

Definition stored_as (ev : @evaluation C) (vid : string) (s : ConnectorSnapshot) (db : check_db) : Prop :=
  exists id t, stored_snapshot (ev_projectId ev) (connector_id (ev_connector ev)) "artifact" vid (connector_snapshots db)
               = Some (snapshot_columns id t (ev_projectId ev) s).

(** Other connectors' snapshots, and those of other artifacts and projects. *)
Definition others_kept (ev : @evaluation C) (vid : string) (rows rows' : list snapshot_row) : Prop :=
  forall p c e v, (p, c, e, v) <> (ev_projectId ev, connector_id (ev_connector ev), "artifact", vid) ->
  stored_snapshot p c e v rows' = stored_snapshot p c e v rows.

Lemma store_snapshot_run ev vid s n db :
  snapshot_for (ev_connector ev) vid s -> snapshots_ok owner (connector_snapshots db) ->
  exists n' rows, returns (store_snapshot ev s) (n, db) tt (n', set_snapshots rows db) /\ (n <= n')%nat /\
    snapshots_ok owner rows /\ stored_as ev vid s (set_snapshots rows db) /\
    others_kept ev vid (connector_snapshots db) rows.
Proof.
  intros (E1 & E2 & E3 & E4) Hok.
  destruct (upsertConnectorSnapshot_ok owner (ev_tenantId ev) (ev_projectId ev) s vid E3 E4 n _ Hok)
    as (n' & rows & Hr & Hn & Hok' & (id & t & Hs) & Ho).
  rewrite E1, E2 in *. exists n', rows. split; [by apply on_table_run|]. split; [done|]. split; [done|].
  split; [by exists id, t|exact Ho].
Qed.

(** ** A failed evaluation *)

(** The status and the error code a failure is reported with. *)
Definition failure_status (fetch : option fetch_outcome) (message : string) : connector_status :=
  if String.eqb message "response_timeout" then
    match fetch with Some _ => st_background_pending | None => st_error end
  else if isConnectorUnavailableError message then st_unavailable else st_error.

Lemma evaluationFailed_run ev vid start fetch m n db :
  artifact_request_of vid (ev_event ev) -> snapshots_ok owner (connector_snapshots db) ->
  exists s n' rows,
    returns (evaluationFailed ev start fetch m) (n, db)
      (s, if String.eqb m "response_timeout"
          then (fun f => {| lf_evaluation := ev; lf_startMs := start; lf_settles := settles f |}) <$> fetch else None)
      (n', set_snapshots rows db) /\ (n <= n')%nat /\
    snapshot_for (ev_connector ev) vid s /\ m_status (meta s) = failure_status fetch m /\ fields s = [] /\
    snapshots_ok owner rows /\ stored_as ev vid s (set_snapshots rows db) /\
    others_kept ev vid (connector_snapshots db) rows.
Proof.
  intros Har Hok. unfold evaluationFailed.
  set (status := match _ with Some _ => _ | None => _ end).
  set (s := normalizeToSnapshot (ev_connector ev) None
    (eventEntityContext (ev_event ev) (ev_displayName ev) false (clock n - start) None) (Some status) (Some m) (clock (S n))).
  assert (Hs : snapshot_for (ev_connector ev) vid s) by (by apply normalized_for).
  destruct (store_snapshot_run ev vid s (S (S n)) db Hs Hok) as (n' & rows & Hr & Hn & Hok' & Hst & Ho).
  exists s, n', rows. split; [|split; [lia|split; [done|split; [|split; [|done]]]]].
  - apply returns_bind. eexists _, _. split; [by apply returns_now|]. apply returns_bind. eexists _, _. split.
    { unfold snapshot_now. apply returns_bind. eexists _, _. split; [by apply returns_now|]. by apply returns_ret. }
    apply returns_bind. eexists _, _. split; [exact Hr|]. apply returns_ret. split; [|done].
    f_equal. by destruct (String.eqb m "response_timeout").
  - unfold s. rewrite snapshot_status. cbn. unfold status, failure_status.
    destruct (String.eqb_spec m "response_timeout") as [->|]; [by destruct fetch|done].
  - apply snapshot_no_result.
Qed.

(** ** Nothing cached *)

Definition nothing_cached (c : C) (vid : string) (db : check_db) : Prop :=
  List.filter (has_key (connector_id c, true, vid)) (connector_cache db) = [] /\
  List.filter (has_key (connector_id c, false, owner vid)) (connector_cache db) = [].

Lemma findFreshCacheRow_none c e n rows :
  well_formed_event e = true -> List.filter (has_key (event_key c e)) rows = [] ->
  exists n', returns (findFreshCacheRow c e) (n, rows) None (n', rows) /\ (n <= n')%nat.
Proof.
  intros He Hf. destruct (cache_row_matches_key c e He) as (p & Hp & Hk). exists n. split; [|lia].
  unfold findFreshCacheRow. rewrite Hp. unfold returns, mbind, eff_bind, gets. cbn [snd].
  rewrite (List.filter_ext _ _ Hk), Hf. done.
Qed.

Lemma answerFromCache_none ev artifact vid v context n db :
  catalogued artifact vid v -> artifact_request_of vid (ev_event ev) -> nothing_cached (ev_connector ev) vid db ->
  exists n', returns (answerFromCache ev artifact context) (n, db) not_cached (n', db) /\ (n <= n')%nat.
Proof.
  intros Hca Har [Hc1 Hc2]. unfold answerFromCache.
  assert (Ha : exists n1, returns (on_cache (buildCachedSnapshot (ev_connector ev) (ev_event ev) (ev_displayName ev)))
                            (n, db) None (n1, db) /\ (n <= n1)%nat).
  { unfold buildCachedSnapshot. destruct (negb (readSnapshots (ev_connector ev))).
    - exists n. split; [|lia]. rewrite <- (set_cache_same db) at 2. by apply on_table_run.
    - destruct (findFreshCacheRow_none (ev_connector ev) (ev_event ev) n (connector_cache db)) as (n1 & Hr & Hn);
        [by eapply request_well_formed|by rewrite (request_key _ vid)|].
      exists n1. split; [|done]. rewrite <- (set_cache_same db) at 2. apply on_table_run.
      apply returns_bind. eexists _, _. split; [exact Hr|]. by apply returns_ret. }
  destruct Ha as (n1 & Hr1 & Hn1).
  destruct (metadata_event_run artifact vid v (Some context) n1 db Hca) as (me & E1 & E2 & E3 & Hr2).
  assert (Hb : exists n2, returns (if connectorSupportsEvent (ev_connector ev) me
     then on_cache (getPackageScopedCachedResult (ev_connector ev) me) else mret None) (S (S n1), db) None (n2, db)
     /\ (n1 <= n2)%nat).
  { destruct (connectorSupportsEvent _ me); [|eexists; split; [by apply returns_ret|lia]].
    destruct (findFreshCacheRow_none (ev_connector ev) me (S (S n1)) (connector_cache db)) as (n2 & Hr & Hn).
    - unfold well_formed_event. rewrite E3, E1, E2. destruct (ca_nonempty _ _ _ Hca) as (Hne & _). unfold nonempty.
      by rewrite (proj2 (String.eqb_neq _ _)).
    - unfold event_key. by rewrite E3, E2.
    - exists n2. split; [|lia]. rewrite <- (set_cache_same db) at 2. apply on_table_run.
      apply returns_bind. eexists _, _. split; [exact Hr|]. by apply returns_ret. }
  destruct Hb as (n2 & Hr3 & Hn2). exists n2. split; [|lia].
  apply returns_bind. eexists _, _. split; [exact Hr1|]. apply returns_bind. eexists _, _. split; [exact Hr2|].
  apply returns_bind. eexists _, _. split; [exact Hr3|]. by apply returns_ret.
Qed.

(** ** Reaching the fetch *)

(** The evaluation of one connector of a check. *)
Definition evaluation_of (artifact : ArtifactIdentity) (tenantId projectId : string) (event : ConnectorEvent) (c : C)
  : @evaluation C :=
  {| ev_connector := c; ev_tenantId := tenantId; ev_projectId := projectId; ev_event := event;
     ev_displayName := display_name artifact |}.

(** What the evaluation does once its fetch has settled or run late. *)
Definition after_fetch (ev : @evaluation C) (start : timestamp) (fetch : fetch_outcome)
  : EM (ConnectorSnapshot * option late_fetch) :=
  match race fetch with
  | Throw message => evaluationFailed ev start (Some fetch) message
  | Ok None => now ← now_; mret (unavailableSnapshot (connector_id (ev_connector ev)) now, None)
  | Ok (Some result) =>
      now ← now_; s ← persistConnectorResult ev result (now - start); mret (s, None)
  end.

Lemma evaluate_fetches req artifact tenantId projectId c vid v n db :
  catalogued artifact vid v ->
  (forall event, artifact_request_of vid event -> connectorSupportsEvent c event = true) ->
  nothing_cached c vid db ->
  exists event start m, artifact_request_of vid event /\ (n <= m)%nat /\
    evaluateConnectorForRequest handleEvent req artifact tenantId projectId c (n, db)
    = after_fetch (evaluation_of artifact tenantId projectId event c) start (handleEvent c event db (clock m)) (S m, db).
Proof.
  intros Hca Hsup Hnc. set (context := request_context req tenantId projectId).
  destruct (artifact_event_run artifact vid v context n db Hca) as (event & Har & Hr).
  set (ev := evaluation_of artifact tenantId projectId event c).
  destruct (answerFromCache_none ev artifact vid v context (S (S (S n))) db Hca Har Hnc) as (m & Hr2 & Hm).
  exists event, (clock (S (S n))), m. split; [done|]. split; [lia|].
  unfold evaluateConnectorForRequest. cbn zeta. rewrite (bind_returns (S := check_db) _ _ _ _ _ Hr), Hsup by done. cbn [negb].
  erewrite (bind_returns (S := check_db)) by (by apply returns_now). cbn [fst snd].
  erewrite (bind_returns (S := check_db)).
  2:{ apply returns_attempt. exact Hr2. }
  cbn [fst snd]. erewrite (bind_returns (S := check_db)) by (by apply returns_gets). erewrite (bind_returns (S := check_db)) by (by apply returns_now).
  done.
Qed.

(** ** Storing a result *)

Record evaluation_ok (b : Z) (n : nat) (db : check_db) : Prop := {
  eo_cache : cache_unique (connector_cache db);
  eo_snapshots : snapshots_ok owner (connector_snapshots db);
  eo_findings : findings_ok n (finding_tables db);
  eo_times : times_ok b n (finding_tables db)
}.

(** A result the cache's columns can hold. *)
Definition storable (r : ConnectorResult) : bool :=
  is_ok (cache_data r) && is_ok (integer_column (score (riskSummaryFromResult r (vulnerabilitySummaryFromResult r)))).

Lemma upsertCachedResult_run c e r ttl n rows :
  storable r = true -> exists row n' rows', returns (upsertCachedResult c e r ttl) (n, rows) row (n', rows') /\ (n <= n')%nat.
Proof.
  unfold storable. intros [(d & Hd)%is_ok_spec (k & Hk)%is_ok_spec]%andb_prop. unfold upsertCachedResult.
  eexists _, _, _. split.
  - apply returns_bind. eexists _, _. split; [by apply returns_of_res|].
    apply returns_bind. eexists _, _. split; [by apply returns_now|].
    apply returns_bind. eexists _, _. split; [by apply returns_now|].
    apply returns_bind. eexists _, _. split; [by apply returns_of_res|].
    apply returns_bind. eexists _, _. split; [by apply returns_fresh|].
    apply returns_bind. eexists _, _. split; [by apply returns_gets|].
    apply returns_bind. eexists _, _. split; [by apply returns_modify|]. by apply returns_ret.
  - cbn. lia.
Qed.

Lemma times_ok_mono b n m db : (n <= m)%nat -> times_ok b n db -> times_ok b m db.
Proof. intros Hn [T1 T2 T3 T4]. split; [done..|]. intros r k Hk. apply T4. lia. Qed.

(** The cache after a result was written for a version, at the reading [m]. *)
Record cached_for (c : C) (vid : string) (r : ConnectorResult) (m : nat) (rows : list CacheRow) : Prop := {
  cf_unique : cache_unique rows;
  cf_row : exists w d, List.filter (has_key (connector_id c, true, vid)) rows = [w] /\
    cache_data r = Ok d /\ data w = Some d /\ ttl_seconds w = ttlSeconds r /\ queried_at w = clock m /\
    finding_count w = findingsSummaryFromResult r
}.

Lemma persist_run b ev vid r ms n db :
  artifact_request_of vid (ev_event ev) -> evaluation_ok b n db -> storable r = true ->
  b + Z.of_nat (length (findings r)) + 1 < VALID_TO_INFINITY ->
  exists s t n' db', returns (persistConnectorResult ev r ms) (n, db) s (n', db') /\
    s = normalizeToSnapshot (ev_connector ev) (Some r)
          (eventEntityContext (ev_event ev) (ev_displayName ev) false ms None) None None t /\
    (exists m, (n <= m <= S n)%nat /\ cached_for (ev_connector ev) vid r m (connector_cache db')) /\
    snapshots_ok owner (connector_snapshots db') /\ stored_as ev vid s db' /\
    others_kept ev vid (connector_snapshots db) (connector_snapshots db') /\
    findings_ok n' (finding_tables db') /\
    (forall id ext, open_external (findings_input ev id s (findings r)) (owner vid) (finding_tables db') ext <->
                    ext ∈ map findingId (findings r)).
Proof.
  intros Har [Hc Hs Hf Ht] Hst Hb. pose proof (request_well_formed _ _ Har) as Hwf.
  destruct (upsertCachedResult_run (ev_connector ev) (ev_event ev) r None n (connector_cache db) Hst)
    as (row & n1 & crows & Hr1 & Hn1).
  destruct (upsertCachedResult_rows _ _ _ _ _ _ _ _ _ Hwf Hc Hr1)
    as (w & d & -> & Hcd & Hdata & Httl & Hq & Hfc & Hsame & Hother).
  set (db1 := set_cache crows db).
  set (s := normalizeToSnapshot (ev_connector ev) (Some r)
          (eventEntityContext (ev_event ev) (ev_displayName ev) false ms None) None None (clock n1)).
  assert (Hsf : snapshot_for (ev_connector ev) vid s) by (by apply normalized_for).
  destruct (store_snapshot_run ev vid s (S n1) db1 Hsf Hs) as (n2 & rows & Hr2 & Hn2 & Hs' & Hsa & Hok).
  set (db2 := set_snapshots rows db1).
  set (input := findings_input ev (Some (cr_id w)) s (findings r)).
  destruct Hsf as (_ & _ & Hpid & Hvid).
  assert (Hv : present (in_packageVersionId input) = in_packageVersionId input).
  { unfold input, findings_input. cbn [in_packageVersionId]. rewrite Hvid. apply present_some. split; [done|]. apply Har. }
  assert (Hp : present (in_packageId input) = Some (owner vid)).
  { unfold input, findings_input. cbn [in_packageId]. rewrite Hpid. apply present_some. split; [done|].
    apply Har. }
  destruct (run_sync uuid_inj input (owner vid) Hv b n2 (finding_tables db2)) as (ys & n3 & fdb1 & frows & Hr3 & Hok3 & (n4 & Hok4) & Hall & Hclosed).
  { apply (findings_ok_mono n); [lia|exact Hf]. }
  { by apply (times_ok_mono b n); [lia|]. }
  { exact Hb. }
  { exact Hp. }
  eexists s, (clock n1), n3, (set_finding_tables (set_project_findings (fun _ => frows) fdb1) db2). split; [|split; [done|split; [|split; [done|split; [exact Hsa|split; [exact Hok|split]]]]]].
  - unfold persistConnectorResult. apply returns_bind. eexists _, _. split; [apply on_table_run; exact Hr1|].
    apply returns_bind. eexists _, _. split.
    { unfold snapshot_now. apply returns_bind. eexists _, _. split; [by apply returns_now|]. by apply returns_ret. }
    apply returns_bind. eexists _, _. split; [exact Hr2|]. apply returns_bind. eexists _, _.
    split; [apply on_table_run; exact Hr3|]. apply returns_ret. split; reflexivity.
  - assert (Hm : exists m, (n <= m <= S n)%nat /\ queried_at w = clock m) by (destruct Hq as [Hq|Hq]; eexists; (split; [|exact Hq]); lia).
    destruct Hm as (m & Hm & Hqm). exists m. split; [done|]. split.
    + intros k. destruct (decide (k = event_key (ev_connector ev) (ev_event ev))) as [->|Hk].
      * cbn. rewrite Hsame. cbn. lia.
      * cbn. rewrite Hother by done. apply Hc.
    + exists w, d. rewrite <- (request_key _ _ _ Har). done.
  - exact Hok3.
  - intros id ext. exact (sync_open input (owner vid) Hv (finding_tables db2) ys n4 fdb1 frows Hok4 Hall Hclosed ext).
Qed.
End correct.
