(* ===== verification/EvaluationSpec.v ===== *)
(** * What a check can rely on from its connectors

    Failures of a connector stay with it and are visible to the rules; a late
    fetch arrives; the fields are the stored snapshots. *)

From S2P Require Import Prelude JsString JsNum JsValue Sql Effects JsDate Identity Schema ConnectorTypes Jsonb Cache Findings FindingsCorrect Snapshots Expression Resolver Contributor Evaluation EvaluationCorrect.
Local Open Scope string_scope.
Local Open Scope list_scope.
Local Open Scope Z_scope.

Section spec.
Context `{Env} {C : Type} `{LawfulConnector C}.
Context (handleEvent : C -> ConnectorEvent -> check_db -> timestamp -> fetch_outcome).

Lemma evaluationFailed_ok ev start fetch m s : exists a s', evaluationFailed ev start fetch m s = (Ok a, s').
Proof. destruct s as [n db]. by eexists _, _. Qed.

(** A connector can fail a check only through the tables: the evaluation of a
    connector throws only when the identity gives no event, or when a result that
    is at hand cannot be stored; an error while reading the caches or
    fetching never escapes.  (The promise of [persistConnectorResult] is returned
    without being awaited, so its rejection is not caught.) *)
Theorem evaluation_throws_only_on_storing req artifact tenantId projectId c s m s' :
  evaluateConnectorForRequest handleEvent req artifact tenantId projectId c s = (Throw m, s') ->
  (exists id t, buildArtifactRequestEvent (event_identity_of artifact) "proxy"
                  (Some (request_context req tenantId projectId)) id t = Throw m) \/
  (exists ev r ms s1, ev_connector ev = c /\ persistConnectorResult ev r ms s1 = (Throw m, s')).
Proof.
  unfold evaluateConnectorForRequest. intros Hr. unfold mbind, eff_bind at 1 in Hr.
  destruct (artifact_event _ _ s) as [[event|m1] s1] eqn:E1.
  2:{ left. injection Hr as -> ->. unfold artifact_event, mbind, eff_bind, fresh, now_, of_res in E1.
      cbn [fst snd] in E1. injection E1 as E1 _. by eexists _, _. }
  right. destruct (negb (connectorSupportsEvent c event)); [done|].
  unfold mbind, eff_bind, now_ in Hr. cbn [fst snd] in Hr. unfold attempt in Hr.
  destruct (answerFromCache _ _ _ _) as [[[snap|r|]|m1] s2]; cbn [mret eff_ret] in Hr.
  - done.
  - match type of Hr with context [persistConnectorResult ?ev ?r ?ms ?s] =>
      exists ev, r, ms, s; destruct (persistConnectorResult ev r ms s) as [[x|m1] s3] eqn:E3; [done|] end.
    split; [done|]. congruence.
  - unfold gets in Hr. cbn [fst snd] in Hr. destruct (race _) as [[r|]|m1].
    + cbn [fst snd] in Hr.
      match type of Hr with context [persistConnectorResult ?ev ?r ?ms ?s] =>
        exists ev, r, ms, s; destruct (persistConnectorResult ev r ms s) as [[x|m2] s3] eqn:E3; [done|] end.
      split; [done|]. congruence.
    + done.
    + match type of Hr with evaluationFailed ?ev ?st ?f ?m ?s = _ =>
        destruct (evaluationFailed_ok ev st f m s) as (a & s4 & E4); rewrite E4 in Hr; done end.
  - match type of Hr with evaluationFailed ?ev ?st ?f ?m ?s = _ =>
      destruct (evaluationFailed_ok ev st f m s) as (a & s4 & E4); rewrite E4 in Hr; done end.
Qed.

Context (owner : string -> string).

(** The snapshot of a connector in a check's view of the stored ones. *)
Definition loaded (projectId : string) (artifact : ArtifactIdentity) (key : string) (db : check_db)
  : option ConnectorSnapshot :=
  js_find (fun s => String.eqb (connectorKey s) key)
    (map (snapshot_of_row artifact)
       (List.filter (artifact_rows projectId (catalog artifact) "artifact") (connector_snapshots db))).

Lemma loaded_stored artifact vid v projectId key db :
  catalogued owner artifact vid v ->
  loaded projectId artifact key db
  = snapshot_of_row artifact <$> stored_snapshot projectId key "artifact" vid (connector_snapshots db).
Proof.
  intros [Hp Hv _ (Hn1 & Hn2 & _)]. unfold loaded. apply (find_loaded _ _ (owner vid)); [rewrite Hp|rewrite Hv];
    by apply present_some.
Qed.

(** A failed fetch is visible: when nothing is cached for a connector and its
    fetch rejects or misses the deadline, the evaluation returns, changes no table
    but the snapshots and there only the connector's own row; and what the check
    then loads for the connector has no data field and says what happened:
    background_pending for a missed deadline, unavailable for the connector's own
    outage errors, else error, with the message as its code. *)
Theorem failed_fetch_reported req artifact tenantId projectId c vid v m n db :
  catalogued owner artifact vid v ->
  (forall event, artifact_request_of owner vid event -> connectorSupportsEvent c event = true) ->
  nothing_cached owner c vid db -> snapshots_ok owner (connector_snapshots db) ->
  (forall event t, race (handleEvent c event db t) = Throw m) ->
  exists s late n' rows,
    returns (evaluateConnectorForRequest handleEvent req artifact tenantId projectId c) (n, db) (s, late)
      (n', set_snapshots rows db) /\
    fields s = [] /\
    (exists s2, loaded projectId artifact (connector_id c) (set_snapshots rows db) = Some s2 /\ fields s2 = [] /\
       m_status (meta s2) = (if String.eqb m "response_timeout" then st_background_pending
                             else if isConnectorUnavailableError m then st_unavailable else st_error)) /\
    (m <> "response_timeout" -> late = None) /\
    (forall key, key <> connector_id c ->
       loaded projectId artifact key (set_snapshots rows db) = loaded projectId artifact key db).
Proof.
  intros Hca Hsup Hnc Hok Hf.
  destruct (evaluate_fetches handleEvent owner req artifact tenantId projectId c vid v n db Hca Hsup Hnc)
    as (event & start & k & Har & Hk & He).
  set (ev := evaluation_of artifact tenantId projectId event c) in *.
  destruct (evaluationFailed_run owner ev vid start (Some (handleEvent c event db (clock k))) m (S k) db Har Hok)
    as (s & n' & rows & Hr & _ & _ & Hst & Hfs & _ & (id & t & Hsa) & Ho).
  eexists s, _, n', rows. split; [|split; [done|split; [|split]]].
  - unfold returns. rewrite He. unfold after_fetch. rewrite Hf. exact Hr.
  - rewrite (loaded_stored _ vid v) by done. subst ev. cbn [evaluation_of ev_projectId ev_connector] in Hsa.
    rewrite Hsa. eexists. split; [done|]. cbn. rewrite Hfs. split; [done|].
    rewrite Hst. unfold failure_status. by destruct (String.eqb m "response_timeout").
  - intros Hm. by rewrite (proj2 (String.eqb_neq m _)).
  - intros key Hkey. rewrite !(loaded_stored _ vid v) by done. cbn. rewrite Ho; [done|]. cbn. congruence.
Qed.

(** A row written for a result is a cache hit while its lifetime lasts, unless it
    claims findings and has none. *)
Lemma buildCachedSnapshot_hit c vid event name r m n db :
  artifact_request_of owner vid event -> cached_for c vid r m (connector_cache db) -> readSnapshots c = true ->
  (findings r = [] -> findingsSummaryFromResult r <= 0) -> forallb (fun f => iso_date (publishedAt f)) (findings r) = true ->
  clock n < clock m + 1000 * default (cacheTtlSeconds c) (ttlSeconds r) ->
  exists cs n', returns (on_cache (buildCachedSnapshot c event name)) (n, db) (Some cs) (n', db) /\
    m_status (meta (snapshot cs)) = st_cache_hit /\ cached_findings cs = map stored_finding (findings r).
Proof.
  intros Har [_ (w & d & Hrow & Hcd & Hdata & Httl & Hq & Hfc)] Hread Hne Hiso Hclock.
  destruct (cache_data_findings r d Hiso Hcd) as [Hm _].
  assert (Hfind : returns (findFreshCacheRow c event) (n, connector_cache db) (Some w) (S n, connector_cache db)).
  { destruct (cache_row_matches_key c event) as (p & Hp & Hk); [by eapply request_well_formed|].
    unfold findFreshCacheRow. rewrite Hp. apply returns_bind. eexists _, _. split; [by apply returns_gets|]. cbn [snd].
    rewrite (List.filter_ext _ _ Hk), (request_key owner c vid), Hrow by done.
    apply returns_bind. eexists _, _. split; [by apply returns_now|]. apply returns_ret. split; [|done]. cbn [fst].
    rewrite is_fresh_spec, Httl, Hq. by rewrite (proj2 (Z.ltb_lt _ _)) by lia. }
  assert (Hcount : (0 <? finding_count w) && Nat.eqb (length (default [] (cd_findings d))) 0 = false).
  { apply (f_equal length) in Hm. rewrite !length_map in Hm. rewrite Hm, Hfc. destruct (findings r) as [|f fs]; [|by rewrite andb_false_r].
    specialize (Hne eq_refl). by rewrite (proj2 (Z.ltb_ge _ _) Hne). }
  eexists _, (S (S (S n))). split; [|split].
  - rewrite <- (set_cache_same db) at 2. apply on_table_run. unfold buildCachedSnapshot. rewrite Hread. cbn [negb].
    apply returns_bind. eexists _, _. split; [exact Hfind|].
    apply returns_bind. eexists _, _. split.
    { unfold interpretCacheRow. apply returns_bind. eexists _, _. split; [by apply returns_now|].
      rewrite Hdata. cbn [default from_option id]. cbn [andb]. rewrite Hcount. apply returns_ret. split; reflexivity. }
    cbn [fst snd]. apply returns_bind. eexists _, _. split; [by apply returns_now|]. apply returns_ret. split; reflexivity.
  - cbn. by rewrite snapshot_status.
  - cbn. exact Hm.
Qed.

(** A connector that keeps out of the cache of snapshots is asked anew. *)
Lemma buildCachedSnapshot_unread c event name n db :
  readSnapshots c = false -> returns (on_cache (buildCachedSnapshot c event name)) (n, db) None (n, db).
Proof.
  intros Hread. rewrite <- (set_cache_same db) at 2. apply on_table_run. unfold buildCachedSnapshot. rewrite Hread. by apply returns_ret.
Qed.

(** C37: a late fetch arrives: when a fetch misses the response deadline, the check
    goes on with the status background_pending and no data; once the fetch
    settles, its background continuation stores the result at a reading [m] of the
    clock.  From then on the connector's stored snapshot is the fetched one.  For a
    connector whose cache policy lets snapshots be read (every one but the contributor
    connector), each lookup whose own reading of the clock is within the lifetime of
    the result is a cache hit with the fetched findings, none for a clean package (a
    result that claims findings and has none is not served); a connector whose policy
    forbids it is never answered from there. *)
Theorem late_fetch_arrives b req artifact tenantId projectId c vid v r n db
    (uuid_inj : forall m n, uuid m = uuid n -> m = n) :
  catalogued owner artifact vid v ->
  (forall event, artifact_request_of owner vid event -> connectorSupportsEvent c event = true) ->
  nothing_cached owner c vid db -> evaluation_ok owner b n db ->
  storable r = true -> b + Z.of_nat (length (findings r)) + 1 < VALID_TO_INFINITY ->
  (forall event t, handleEvent c event db t = {| settles := Ok (Some r); in_time := false |}) ->
  forallb (fun f => iso_date (publishedAt f)) (findings r) = true ->
  exists s lf s1 s2 m,
    returns (evaluateConnectorForRequest handleEvent req artifact tenantId projectId c) (n, db) (s, Some lf) s1 /\
    m_status (meta s) = st_background_pending /\ fields s = [] /\
    returns (settleLateFetch lf) s1 tt s2 /\ (s1.1 < m <= S (S s1.1))%nat /\
    (exists snap ctx t, loaded projectId artifact (connector_id c) s2.2 = Some snap /\ m_status (meta snap) = st_ok /\
       fields snap = jsonb_fields (fields (normalizeToSnapshot c (Some r) ctx None None t))) /\
    (forall event name k, artifact_request_of owner vid event ->
       readSnapshots c = true -> (findings r = [] -> findingsSummaryFromResult r <= 0) ->
       clock k < clock m + 1000 * default (cacheTtlSeconds c) (ttlSeconds r) ->
       exists cs k', returns (on_cache (buildCachedSnapshot c event name)) (k, s2.2) (Some cs) (k', s2.2) /\
         m_status (meta (snapshot cs)) = st_cache_hit /\ cached_findings cs = map stored_finding (findings r)) /\
    (forall event name k, readSnapshots c = false ->
       returns (on_cache (buildCachedSnapshot c event name)) (k, s2.2) None (k, s2.2)).
Proof.
  intros Hca Hsup Hnc [Hc Hs Hf Ht] Hst Hb Hhandle Hiso.
  destruct (evaluate_fetches handleEvent owner req artifact tenantId projectId c vid v n db Hca Hsup Hnc)
    as (event & start & k & Har & Hk & He).
  rewrite Hhandle in He. set (ev := evaluation_of artifact tenantId projectId event c) in *.
  destruct (evaluationFailed_run owner ev vid start (Some {| settles := Ok (Some r); in_time := false |}) "response_timeout" (S k) db Har Hs)
    as (s & n1 & rows & Hr & Hn1 & _ & Hstat & Hfs & Hs1 & _).
  set (lf := {| lf_evaluation := ev; lf_startMs := start; lf_settles := Ok (Some r) |}).
  destruct (persist_run uuid_inj owner b ev vid r (clock n1 - start) (S n1) (set_snapshots rows db) Har)
    as (s3 & t & n2 & db2 & Hr2 & Hs3 & (m & Hm & Hcf) & _ & (id & t' & Hsa) & _); [|done..|].
  { split; [done|done|apply (findings_ok_mono n); [lia|done]|apply (times_ok_mono b n); [lia|done]]. }
  exists s, lf, (n1, set_snapshots rows db), (n2, db2), m.
  split; [|split; [done|split; [done|split; [|split; [cbn; lia|split; [|split]]]]]].
  - unfold returns. rewrite He. unfold after_fetch, race. cbn [in_time]. exact Hr.
  - unfold settleLateFetch. cbn [lf_settles lf]. apply returns_bind. eexists _, _. split; [by apply returns_now|].
    cbn [fst snd lf_evaluation lf_startMs lf]. apply returns_bind. eexists _, _.
    split; [apply returns_attempt; exact Hr2|]. by apply returns_ret.
  - eexists _, _, t. split; [|split].
    + rewrite (loaded_stored _ vid v) by done. subst ev lf. cbn [evaluation_of ev_projectId ev_connector snd] in Hsa |- *.
      by rewrite Hsa.
    + cbn. rewrite Hs3, snapshot_status. done.
    + cbn. rewrite Hs3. reflexivity.
  - intros e name j Hje Hread Hne Hclock. by eapply buildCachedSnapshot_hit.
  - intros e name j. apply buildCachedSnapshot_unread.
Qed.
End spec.

(** ** Witnesses *)

(** A project's check of [left-pad@1.3.0] with a connector that reports how many
    advisories it found, on tables without any answer for it. *)
Definition evaluation_example_connector : plain_connector :=
  {| plain_id := "osv"; plain_ttl := 3600; plain_mode := sync_required |}.

Definition evaluation_example_input : PackageIdentityInput :=
  {| i_ecosystem := "npm"; i_package := "left-pad"; i_version := Some "1.3.0" |}.

Definition evaluation_example_artifact : ArtifactIdentity :=
  buildArtifactIdentity
    {| ai_input := evaluation_example_input; ai_source := None; ai_parser_version := None |}
    {| package_id := Some "P"; package_version_id := Some "V" |}.

Definition evaluation_example_request : EvaluationRequest :=
  {| rq_identity := evaluation_example_input; rq_request_id := "r"; rq_trace_id := "t"; rq_contributor_context := None |}.

Definition evaluation_example_db : check_db :=
  {| connector_cache := []; connector_snapshots := []; finding_tables := {| t_findings := []; finding_versions := []; project_findings := [] |};
     catalog_tables := {| packages := []; package_versions := []; package_version_refs := [];
                          package_version_metadata := []; package_version_relationships := [] |};
     release_facts := []; package_facts := [] |}.

Definition evaluation_example_result : ConnectorResult :=
  example_result [example_finding "CVE-1" HIGH []]%string.

(** A result whose risk score is no integer, which the cache's column refuses. *)
Definition evaluation_example_fraction : ConnectorResult :=
  {| findings := []; ttlSeconds := None; legacy := None;
     summary := Some {| s_risk := Some {| tier := LOW; score := Some (num_of_ratio 3 2) |}; s_findings := None;
                        s_remediation := None; s_vulnerability := None; s_intelligence := None |} |}.

Definition evaluation_example_run (outcome : fetch_outcome) :=
  @evaluateConnectorForRequest example_env _ _ (fun _ _ _ _ => outcome)
    evaluation_example_request evaluation_example_artifact "t" "pr" evaluation_example_connector
    (0%nat, evaluation_example_db).

Lemma evaluation_example_catalogued : catalogued (fun _ => "P") evaluation_example_artifact "V" "1.3.0".
Proof. by split. Qed.

Lemma evaluation_example_empty : @nothing_cached _ plain_interface (fun _ => "P") evaluation_example_connector "V" evaluation_example_db.
Proof. by split. Qed.

Lemma evaluation_example_snapshots : snapshots_ok (fun _ => "P") [].
Proof. split; [by intros r vid ?%not_elem_of_nil|]. intros. cbn. lia. Qed.

Lemma evaluation_example_ok : @evaluation_ok example_env (fun _ => "P") 1000000 0 evaluation_example_db.
Proof.
  split.
  - intros k. cbn. lia.
  - apply evaluation_example_snapshots.
  - apply findings_ok_empty.
  - split; [intros m; apply Z.le_min_r|intros v Hv; by apply not_elem_of_nil in Hv..|
      intros r m _ Hr; by apply not_elem_of_nil in Hr].
Qed.

Lemma evaluation_throws_only_on_storing_witness :
  exists m s' ev r ms s1, evaluation_example_run {| settles := Ok (Some evaluation_example_fraction); in_time := true |} = (Throw m, s') /\
    @persistConnectorResult example_env plain_connector _ ev r ms s1 = (Throw m, s').
Proof.
  destruct (evaluation_example_run _) as [[a|m] s'] eqn:E; [vm_compute in E; discriminate E|].
  exists m, s'.
  destruct (@evaluation_throws_only_on_storing example_env plain_connector _
    (fun _ _ _ _ => {| settles := Ok (Some evaluation_example_fraction); in_time := true |})
    evaluation_example_request evaluation_example_artifact "t" "pr" evaluation_example_connector
    (0%nat, evaluation_example_db) m s' E) as [(id & t & Hb)|(ev & r & ms & s1 & _ & Hp)].
  - discriminate Hb.
  - exists ev, r, ms, s1. split; [reflexivity|exact Hp].
Defined.

Lemma failed_fetch_reported_witness :
  exists s late s', evaluation_example_run {| settles := Throw "intelligence_http_503"; in_time := true |} = (Ok (s, late), s') /\
    fields s = [] /\ late = None.
Proof.
  destruct (@failed_fetch_reported example_env plain_connector _ _
    (fun _ _ _ _ => {| settles := Throw "intelligence_http_503"; in_time := true |}) (fun _ => "P")
    evaluation_example_request evaluation_example_artifact "t" "pr" evaluation_example_connector "V" "1.3.0"
    "intelligence_http_503" 0 evaluation_example_db)
    as (s & late & n' & rows & Hr & Hf & _ & Hl & _).
  - exact evaluation_example_catalogued.
  - intros event [Hk _ _ _]. unfold connectorSupportsEvent. rewrite Hk. reflexivity.
  - exact evaluation_example_empty.
  - exact evaluation_example_snapshots.
  - reflexivity.
  - exists s, late, (n', set_snapshots rows evaluation_example_db). split; [exact Hr|]. split; [exact Hf|].
    apply Hl. discriminate.
Defined.

Definition evaluation_example_clean : ConnectorResult := example_result [].

Definition evaluation_example_event : ConnectorEvent :=
  {| e_id := "e"; e_kind := artifact_request; e_packageId := "P"; e_packageVersionId := Some "V"; e_ecosystem := "npm";
     e_packageName := "left-pad"; e_version := Some "1.3.0"; e_source := "proxy"; e_observedAt := 0; e_context := None |}.

Lemma evaluation_example_requested : artifact_request_of (fun _ => "P") "V" evaluation_example_event.
Proof. by split. Qed.

(** A result with a finding, and a clean one; the next request finds either. *)
Lemma late_fetch_arrives_witness :
  Forall (fun r => exists s lf s1 s2,
    evaluation_example_run {| settles := Ok (Some r); in_time := false |} = (Ok (s, Some lf), s1) /\
    m_status (meta s) = st_background_pending /\
    @returns check_db _ (@settleLateFetch example_env plain_connector _ lf) s1 tt s2 /\
    exists cs k',
      @returns check_db _ (on_cache (@buildCachedSnapshot example_env plain_connector _ evaluation_example_connector
        evaluation_example_event "left-pad@1.3.0")) s2 (Some cs) (k', s2.2) /\
      m_status (meta (snapshot cs)) = st_cache_hit /\ cached_findings cs = map stored_finding (findings r))
    [evaluation_example_result; evaluation_example_clean].
Proof.
  apply Forall_forall. intros r Hr.
  assert (Hcases : r = evaluation_example_result \/ r = evaluation_example_clean).
  { apply elem_of_cons in Hr as [->|Hr]; [left; reflexivity|right]. by apply list_elem_of_singleton in Hr. }
  destruct (@late_fetch_arrives example_env plain_connector _ _
    (fun _ _ _ _ => {| settles := Ok (Some r); in_time := false |}) (fun _ => "P") 1000000
    evaluation_example_request evaluation_example_artifact "t" "pr" evaluation_example_connector "V" "1.3.0"
    r 0 evaluation_example_db example_uuid_inj)
    as (s & lf & s1 & s2 & m & Hrun & Hs & _ & Hl & _ & _ & Hhit & _).
  - exact evaluation_example_catalogued.
  - intros event [Hk _ _ _]. unfold connectorSupportsEvent. rewrite Hk. reflexivity.
  - exact evaluation_example_empty.
  - exact evaluation_example_ok.
  - destruct Hcases as [-> | ->]; vm_compute; reflexivity.
  - destruct Hcases as [-> | ->]; vm_compute; reflexivity.
  - reflexivity.
  - destruct Hcases as [-> | ->]; vm_compute; reflexivity.
  - exists s, lf, s1, s2. split; [exact Hrun|]. split; [exact Hs|]. split; [exact Hl|].
    destruct (Hhit evaluation_example_event "left-pad@1.3.0" s2.1) as (cs & k' & Hcs & Hst & Hf).
    + exact evaluation_example_requested.
    + reflexivity.
    + destruct Hcases as [-> | ->]; [discriminate|intros _; vm_compute; discriminate].
    + destruct Hcases as [-> | ->]; unfold example_env; cbn [clock];
        change (default _ _) with 3600; lia.
    + exists cs, k'. rewrite <- surjective_pairing in Hcs. split; [exact Hcs|]. split; [exact Hst|exact Hf].
Defined.
