(* ===== verification/Ingestion.v ===== *)
(** * The ingestion of contributor metadata
    (services/api/src/features/contributors/ingestion-service.ts)

    A proxy reports what a registry's manifest says of a package's releases: who
    published them, who maintained them, when.  [ingestContributorMetadata] stores
    the package and its versions, and for each release the facts the contributor
    connector scores, with the score itself in the connector cache, in one
    transaction.  Facts of a better quality are not overwritten.

    The columns only the database fills (creation and update times, row
    identifiers nothing refers to) are left out. *)

From S2P Require Import Prelude JsString JsNum JsValue Json Jsonb Sql Effects JsDate Identity Schema Catalog ConnectorTypes Cache Scorer Contributor Findings Snapshots Effective Evaluation.
Local Open Scope string_scope.
Local Open Scope list_scope.
Local Open Scope Z_scope.

(** ** Events (connectors/contributor/types.ts) *)

Record ContributorManifestVersion := {
  mv_version : string; mv_publishedAt : string; mv_publisher : option string; mv_maintainers : list string;
  mv_hasInstallScripts : bool; mv_hasAttestation : bool; mv_rawPayloadJson : option string
}.

Record ContributorManifestEvent := {
  me_ecosystem : string; me_package : string; me_extractedAt : string; me_fingerprint : option string;
  me_packageMetadataFingerprint : option string; me_sliceFingerprint : option string;
  me_requestedVersion : option string; me_latestVersion : option string; me_latestPublishedAt : option string;
  me_historyComplete : bool; me_oldestIncludedPublishedAt : option string;
  me_versions : list ContributorManifestVersion
}.

Record UpsertedVersion := {
  uv_packageVersionId : string; uv_version : string; uv_publishedAt : timestamp; uv_publisher : option string;
  uv_maintainers : list string; uv_hasInstallScripts : bool; uv_hasAttestation : bool;
  uv_rawPayloadJson : option string
}.

(** ** Dates and payloads *)

Definition parseRequiredDate (value : string) : option timestamp := date_parse value.

Definition parseNullableDate (value : option string) : option timestamp := v ← present value; parseRequiredDate v.

(** [GREATEST(COALESCE(column, '-infinity'), value)] *)
Definition greatest (column : option timestamp) (value : timestamp) : option timestamp :=
  Some (from_option (fun t => Z.max t value) value column).

Definition parseRawPayload (rawPayloadJson : option string) (fallback : jsval) : jsval :=
  match present rawPayloadJson with
  | None => fallback
  | Some raw =>
      match json_parse raw with
      | Some parsed => if is_object parsed then parsed else fallback
      | None => fallback
      end
  end.

Definition normalizeMaintainers (maintainers : list string) : list string :=
  js_sort str_leb (set_of (List.filter nonempty (map trim maintainers))).

Definition sameMembers (left right : list string) : bool :=
  Nat.eqb (length left) (length right)
  && forallb (fun '(i, value) => bool_decide (right !! i = Some value)) (imap pair left).

Definition difference (source other : list string) : list string :=
  List.filter (fun value => negb (existsb (String.eqb value) other)) source.

Definition countVersionsInWindow (versions : list UpsertedVersion) (pivot : timestamp) (days : Z) : Z :=
  let cutoff := pivot - days * 86400000 in
  Z.of_nat (length (List.filter (fun v => (cutoff <=? uv_publishedAt v) && (uv_publishedAt v <=? pivot)) versions)).

(** The versions with a date, in the order they were published. *)
Definition normalizeManifestVersions (versions : list ContributorManifestVersion)
  : list (ContributorManifestVersion * timestamp) :=
  js_sort (fun a b => a.2 <=? b.2)
    (omap (fun v => (fun t => (v, t)) <$> parseRequiredDate (mv_publishedAt v)) versions).

(** ** The quality of facts *)

Record ContributorFactQuality := {
  q_historyComplete : option bool; q_oldestIncludedPublishedAt : option timestamp; q_observedAt : option timestamp
}.

Definition shouldReplaceContributorFacts (incoming existing : ContributorFactQuality) : bool :=
  if negb (is_true (q_historyComplete existing)) && is_true (q_historyComplete incoming) then true
  else if is_true (q_historyComplete existing) && negb (is_true (q_historyComplete incoming)) then false
  else
    let observed :=
      match q_observedAt incoming, q_observedAt existing with
      | None, existingObserved => bool_decide (existingObserved = None)
      | Some _, None => true
      | Some i, Some e => e <=? i
      end in
    match q_oldestIncludedPublishedAt incoming, q_oldestIncludedPublishedAt existing with
    | Some _, None => true
    | None, Some _ => false
    | Some i, Some e => if negb (i =? e) then i <? e else observed
    | None, None => observed
    end.

Definition shouldProcessMatchingContributorFingerprint (historyComplete : bool) (oldest : option timestamp)
    (existing : package_facts_row) : bool :=
  if negb (cf_history_complete existing) && historyComplete then true
  else
    match oldest, cf_oldest_included_published_at existing with
    | Some i, Some e => i <? e
    | Some _, None => true
    | None, _ => false
    end.

(** ** Packages and versions *)

Section ingestion.
Context `{Env}.

Definition seen_package (observedAt : timestamp) (v : string * string) (id : string) : package_row :=
  {| pk_id := id; pk_ecosystem := v.1; pk_package := v.2; pk_latest_package_version_id := None;
     pk_last_metadata_seen_at := Some observedAt |}.

Definition upsertPackageIdentity (ecosystem packageName : string) (observedAt : timestamp) : CM string :=
  let ecosystem := canonicalizeEcosystem ecosystem in
  let v := (ecosystem, canonicalizePackageName ecosystem packageName) in
  inserted ← insert_or_nothing packages (fun rows => set_packages (fun _ => rows)) package_is (seen_package observedAt) v;
  match inserted with
  | Some row => mret (pk_id row)
  | None =>
      row ← gets (fun db => head (List.filter (package_is v) (packages db)));
      match row with
      | Some row => mret (pk_id row)
      | None => throw "package_identity_resolution_failed"
      end
  end.

(** The row of a version on insertion, and its update in place. *)
Definition published_version (packageId version : string) (publishedAt observedAt : timestamp) (id : string)
  : package_version_row :=
  {| pv_id := id; pv_package_id := packageId; pv_version := version; pv_version_kind := "version";
     pv_artifact_kind := "package_release"; pv_display_role := "primary"; pv_published_at := Some publishedAt;
     pv_last_metadata_seen_at := Some observedAt; pv_last_used_at := None |}.

Definition republished (publishedAt observedAt : timestamp) (r : package_version_row) : package_version_row :=
  {| pv_id := pv_id r; pv_package_id := pv_package_id r; pv_version := pv_version r;
     pv_version_kind := pv_version_kind r; pv_artifact_kind := pv_artifact_kind r; pv_display_role := pv_display_role r;
     pv_published_at := Some publishedAt; pv_last_metadata_seen_at := Some observedAt;
     pv_last_used_at := pv_last_used_at r |}.

Definition is_version (packageId version : string) (r : package_version_row) : bool :=
  String.eqb (pv_package_id r) packageId && String.eqb (pv_version r) version.

Definition upsertPackageVersion (packageId version : string) (publishedAt observedAt : timestamp) : CM string :=
  let version := canonicalizePackageVersion version in
  id ← fresh;
  let write := upsert (is_version packageId version) (republished publishedAt observedAt)
                 (published_version packageId version publishedAt observedAt id) in
  row ← gets (fun db => (write (package_versions db)).2);
  _ ← modify (set_package_versions (fun rows => (write rows).1));
  mret (pv_id row).

(** [LEFT JOIN] on the latest version: its date, when the package has one. *)
Definition latest_published_at (packageId : string) (db : catalog_db) : option timestamp :=
  p ← head (List.filter (fun p => String.eqb (pk_id p) packageId) (packages db));
  id ← pk_latest_package_version_id p;
  v ← head (List.filter (fun v => String.eqb (pv_id v) id) (package_versions db));
  pv_published_at v.

Definition updatePackageMetadata (packageId : string) (latestPackageVersionId : option string)
    (latestPublishedAt : option timestamp) (observedAt : timestamp) : CM unit :=
  current ← gets (latest_published_at packageId);
  let shouldUpdateLatest :=
    bool_decide (is_Some latestPackageVersionId)
    && match current, latestPublishedAt with
       | Some c, Some l => c <=? l
       | _, _ => true
       end in
  modify (set_packages (update_where (fun p => String.eqb (pk_id p) packageId)
    (fun p => {| pk_id := pk_id p; pk_ecosystem := pk_ecosystem p; pk_package := pk_package p;
                 pk_latest_package_version_id :=
                   if shouldUpdateLatest then latestPackageVersionId else pk_latest_package_version_id p;
                 pk_last_metadata_seen_at := greatest (pk_last_metadata_seen_at p) observedAt |}))).

(** ** The facts of the package *)

Definition on_release_facts {A} : M (list release_facts_row) A -> EM A := zoom release_facts set_release_facts.
Definition on_package_facts {A} : M (list package_facts_row) A -> EM A := zoom package_facts set_package_facts.

Definition package_quality (r : package_facts_row) : ContributorFactQuality :=
  {| q_historyComplete := Some (cf_history_complete r);
     q_oldestIncludedPublishedAt := cf_oldest_included_published_at r; q_observedAt := cf_observed_at r |}.

Definition of_package (packageId : string) (r : package_facts_row) : bool := String.eqb (cf_package_id r) packageId.

Definition upsertContributorPackageFacts (packageId : string) (fingerprint : option string) (historyComplete : bool)
    (oldestIncludedPublishedAt : option timestamp) (observedAt : timestamp) : M (list package_facts_row) unit :=
  let values := {| cf_package_id := packageId; cf_fingerprint := fingerprint; cf_history_complete := historyComplete;
                   cf_oldest_included_published_at := oldestIncludedPublishedAt; cf_observed_at := Some observedAt |} in
  existing ← gets (fun rows => head (List.filter (of_package packageId) rows));
  match existing with
  | Some e =>
      if negb (shouldReplaceContributorFacts (package_quality values) (package_quality e)) then mret tt
      else modify (fun rows => (upsert (of_package packageId) (fun _ => values) values rows).1)
  | None => modify (fun rows => (upsert (of_package packageId) (fun _ => values) values rows).1)
  end.

(** Facts that were seen again. *)
Definition seen_at (t : timestamp) (r : package_facts_row) : package_facts_row :=
  {| cf_package_id := cf_package_id r; cf_fingerprint := cf_fingerprint r; cf_history_complete := cf_history_complete r;
     cf_oldest_included_published_at := cf_oldest_included_published_at r; cf_observed_at := greatest (cf_observed_at r) t |}.

(** Facts with the same fingerprint that the event does not extend are only
    marked as seen again; tells whether that was so. *)
Definition touchUnchangedContributorManifest (ecosystem packageName : string) (fingerprint : option string)
    (historyComplete : bool) (oldestIncludedPublishedAt : option timestamp) (observedAt : timestamp) : EM bool :=
  match present fingerprint with
  | None => mret false
  | Some f =>
      existing ← gets (fun db => head (List.filter
        (fun r => package_is (ecosystem, packageName) r.1 && opt_eq (cf_fingerprint r.2) f)
        (inner_join (fun p c => String.eqb (cf_package_id c) (pk_id p)) (packages (catalog_tables db)) (package_facts db))));
      match existing with
      | None => mret false
      | Some (p, c) =>
          if shouldProcessMatchingContributorFingerprint historyComplete oldestIncludedPublishedAt c then mret false
          else
            _ ← (if from_option (fun t => t <? observedAt) true (pk_last_metadata_seen_at p)
                 then on_catalog (modify (set_packages (update_where (fun r => String.eqb (pk_id r) (pk_id p))
                   (fun r => {| pk_id := pk_id r; pk_ecosystem := pk_ecosystem r; pk_package := pk_package r;
                                pk_latest_package_version_id := pk_latest_package_version_id r;
                                pk_last_metadata_seen_at := greatest (pk_last_metadata_seen_at r) observedAt |}))))
                 else mret tt);
            _ ← (if from_option (fun t => t <? observedAt) true (cf_observed_at c)
                 then on_package_facts (modify (update_where (of_package (pk_id p)) (seen_at observedAt)))
                 else mret tt);
            mret true
      end
  end.

(** ** The facts of the releases *)

(** What the loop carries from one release to the next. *)
Record release_history := {
  seenPublishers : list (string * Z); priorVersionPublisher_ : option string; priorMaintainers : list string
}.

Definition no_history : release_history :=
  {| seenPublishers := []; priorVersionPublisher_ := None; priorMaintainers := [] |}.

Definition next_history (h : release_history) (v : UpsertedVersion) : release_history :=
  {| seenPublishers :=
       match present (uv_publisher v) with
       | Some p => map_set p (default 0 (map_get p (seenPublishers h)) + 1) (seenPublishers h)
       | None => seenPublishers h
       end;
     priorVersionPublisher_ := uv_publisher v; priorMaintainers := uv_maintainers v |}.

(** The signals of one release, from what came before it. *)
Definition storedSignals (all : list UpsertedVersion) (historyComplete : bool) (h : release_history) (index : nat)
    (v : UpsertedVersion) : ContributorSignals :=
  let publisherSeenCountBefore :=
    (fun p => default 0 (map_get p (seenPublishers h))) <$> present (uv_publisher v) in
  {| cs_version := uv_version v; cs_publishedAt := uv_publishedAt v; publisher := uv_publisher v;
     publisherSeenBeforePackage :=
       (fun _ => 0 <? default 0 publisherSeenCountBefore) <$> present (uv_publisher v);
     publisherSeenCountBefore := publisherSeenCountBefore;
     publisherMatchesPriorVersion :=
       match priorVersionPublisher_ h, uv_publisher v with
       | Some p, Some q => Some (String.eqb p q)
       | _, _ => None
       end;
     priorVersionPublisher := priorVersionPublisher_ h;
     maintainerSetChanged :=
       if Nat.eqb index 0 then None else Some (negb (sameMembers (uv_maintainers v) (priorMaintainers h)));
     newMaintainerCount := Some (Z.of_nat (length (difference (uv_maintainers v) (priorMaintainers h))));
     removedMaintainerCount := Some (Z.of_nat (length (difference (priorMaintainers h) (uv_maintainers v))));
     maintainerCount := Some (Z.of_nat (length (uv_maintainers v)));
     hasInstallScripts := Some (uv_hasInstallScripts v); hasProvenance := Some (uv_hasAttestation v);
     hasTrustedPublisher := None;
     releaseVelocity7d := Some (countVersionsInWindow all (uv_publishedAt v) 7);
     releaseVelocity30d := Some (countVersionsInWindow all (uv_publishedAt v) 30);
     historyComplete := Some historyComplete |}.

(** What the releases of one event share. *)
Record release_batch := {
  rb_event : ContributorManifestEvent; rb_ecosystem : string; rb_packageName : string; rb_packageId : string;
  rb_observedAt : timestamp; rb_requestedVersion : option string; rb_upsertedVersions : list UpsertedVersion;
  rb_config : ContributorConnector
}.

Definition normalized_payload (b : release_batch) (v : UpsertedVersion) : jsval :=
  JObj [("ecosystem", JStr (rb_ecosystem b)); ("package", JStr (rb_packageName b)); ("version", JStr (uv_version v));
        ("published_at", JStr (toISOString (uv_publishedAt v))); ("publisher", str_or_null (uv_publisher v));
        ("maintainers", JArr (map JStr (uv_maintainers v)));
        ("scripts", JObj [("has_install_scripts", JBool (uv_hasInstallScripts v))]);
        ("provenance", JObj [("has_attestation", JBool (uv_hasAttestation v))])].

Definition firstPublishedAt (b : release_batch) : timestamp :=
  from_option uv_publishedAt (rb_observedAt b) (head (rb_upsertedVersions b)).

Definition isRequestedVersion (b : release_batch) (v : UpsertedVersion) : bool :=
  bool_decide (rb_requestedVersion b = Some (uv_version v)).

Definition sliceFingerprint (b : release_batch) (v : UpsertedVersion) : option string :=
  if isRequestedVersion b v then me_sliceFingerprint (rb_event b) else None.

Definition sliceObservedAt (b : release_batch) (v : UpsertedVersion) : option timestamp :=
  if isRequestedVersion b v && bool_decide (is_Some (present (me_sliceFingerprint (rb_event b))))
  then Some (rb_observedAt b) else None.

(** The columns of a release; [old] is the row they replace, whose slice and
    trusted publisher stay. *)
Definition releaseValues (b : release_batch) (h : release_history) (index : nat) (v : UpsertedVersion)
    (old : option release_facts_row) : release_facts_row :=
  let s := storedSignals (rb_upsertedVersions b) (me_historyComplete (rb_event b)) h index v in
  let named (k : string) := (fun _ => k) <$> present (uv_publisher v) in
  {| rf_package_version_id := uv_packageVersionId v; rf_published_at := Some (uv_publishedAt v);
     rf_source_kind := Some "npm_manifest"; rf_source_payload_version := Some "1";
     rf_source_payload := Some (jsonb (parseRawPayload (uv_rawPayloadJson v) (normalized_payload b v)));
     rf_source_observed_at := Some (rb_observedAt b);
     rf_publish_actor := uv_publisher v; rf_publish_actor_kind := named "publisher";
     rf_publisher_username := uv_publisher v; rf_publisher_source := named "npm__npmUser.name";
     rf_maintainer_count := maintainerCount s; rf_maintainers := Some (uv_maintainers v);
     rf_maintainer_source := Some "npm_maintainers";
     rf_has_install_scripts := hasInstallScripts s; rf_has_provenance := hasProvenance s;
     rf_has_trusted_publisher := old ≫= rf_has_trusted_publisher;
     rf_publisher_seen_before_package := publisherSeenBeforePackage s;
     rf_publisher_seen_count_before := publisherSeenCountBefore s;
     rf_publisher_matches_prior_version := publisherMatchesPriorVersion s;
     rf_prior_package_version_id :=
       if (0 <? index)%nat then uv_packageVersionId <$> rb_upsertedVersions b !! (index - 1)%nat else None;
     rf_prior_version_publish_actor := priorVersionPublisher s; rf_maintainer_set_changed := maintainerSetChanged s;
     rf_maintainers_added := Some (difference (uv_maintainers v) (priorMaintainers h));
     rf_maintainers_removed := Some (difference (priorMaintainers h) (uv_maintainers v));
     rf_new_maintainer_count := newMaintainerCount s; rf_removed_maintainer_count := removedMaintainerCount s;
     rf_release_velocity_7d := releaseVelocity7d s; rf_release_velocity_30d := releaseVelocity30d s;
     rf_first_published_at_for_package := Some (firstPublishedAt b);
     rf_package_release_index := Some (Z.of_nat index); rf_history_complete := historyComplete s;
     rf_contributor_slice_fingerprint :=
       match sliceFingerprint b v with Some f => Some f | None => old ≫= rf_contributor_slice_fingerprint end;
     rf_contributor_slice_observed_at :=
       match sliceObservedAt b v with Some t => Some t | None => old ≫= rf_contributor_slice_observed_at end;
     rf_observed_at := Some (rb_observedAt b) |}.

Definition release_quality (r : release_facts_row) : ContributorFactQuality :=
  {| q_historyComplete := rf_history_complete r; q_oldestIncludedPublishedAt := rf_first_published_at_for_package r;
     q_observedAt := rf_observed_at r |}.

Definition batch_quality (b : release_batch) : ContributorFactQuality :=
  {| q_historyComplete := Some (me_historyComplete (rb_event b));
     q_oldestIncludedPublishedAt := Some (firstPublishedAt b); q_observedAt := Some (rb_observedAt b) |}.

Definition of_release (packageVersionId : string) (r : release_facts_row) : bool :=
  String.eqb (rf_package_version_id r) packageVersionId.

(** The event of the cached result, and the result. *)
Definition release_event (b : release_batch) (v : UpsertedVersion) : ConnectorEvent :=
  {| e_id := CONTRIBUTOR_ID +:+ ":" +:+ uv_packageVersionId v; e_kind := artifact_request;
     e_packageId := rb_packageId b; e_packageVersionId := Some (uv_packageVersionId v);
     e_ecosystem := rb_ecosystem b; e_packageName := rb_packageName b; e_version := Some (uv_version v);
     e_source := "proxy"; e_observedAt := rb_observedAt b; e_context := None |}.

Definition release_result (b : release_batch) (v : UpsertedVersion) (s : ContributorSignals)
    (scoredAt ttlAt : timestamp) : ConnectorResult :=
  let scored := score_signals s scoredAt in
  scoreToConnectorResult (rb_ecosystem b) (rb_packageName b) (uv_version v) scored (scoreToTier (sc_score scored))
    (Some (versionAgeTtlSeconds (uv_publishedAt v) ttlAt (rb_config b))).

(** The loop body: the history for the next release. *)
Definition upsert_release (b : release_batch) (h : release_history) (index : nat) (v : UpsertedVersion)
  : EM release_history :=
  existingRelease ← gets (fun db => head (List.filter (of_release (uv_packageVersionId v)) (release_facts db)));
  if from_option (fun e => negb (shouldReplaceContributorFacts (batch_quality b) (release_quality e))) false existingRelease
  then mret (next_history h v)
  else
    _ ← on_release_facts (modify (fun rows =>
          (upsert (of_release (uv_packageVersionId v)) (fun old => releaseValues b h index v (Some old))
             (releaseValues b h index v None) rows).1));
    scoredAt ← now_;
    ttlAt ← now_;
    _ ← on_cache (upsertCachedResult (rb_config b) (release_event b v)
          (release_result b v (storedSignals (rb_upsertedVersions b) (me_historyComplete (rb_event b)) h index v)
             scoredAt ttlAt) None);
    mret (next_history h v).

Fixpoint upsert_releases (b : release_batch) (h : release_history) (index : nat) (todo : list UpsertedVersion)
  : EM unit :=
  match todo with
  | [] => mret tt
  | v :: todo => h' ← upsert_release b h index v; upsert_releases b h' (S index) todo
  end.

Definition upsertContributorReleaseFacts (b : release_batch) : EM unit :=
  upsert_releases b no_history 0 (rb_upsertedVersions b).

(** ** The ingestion *)

Definition upsert_manifest_version (packageId : string) (observedAt : timestamp)
    (x : ContributorManifestVersion * timestamp) : EM UpsertedVersion :=
  let canonicalVersion := canonicalizePackageVersion (mv_version x.1) in
  id ← on_catalog (upsertPackageVersion packageId canonicalVersion x.2 observedAt);
  mret {| uv_packageVersionId := id; uv_version := canonicalVersion; uv_publishedAt := x.2;
          uv_publisher := present (trim <$> mv_publisher x.1);
          uv_maintainers := normalizeMaintainers (mv_maintainers x.1);
          uv_hasInstallScripts := mv_hasInstallScripts x.1; uv_hasAttestation := mv_hasAttestation x.1;
          uv_rawPayloadJson := mv_rawPayloadJson x.1 |}.

Definition find_version (version : string) (upserted : list UpsertedVersion) : option UpsertedVersion :=
  js_find (fun v => String.eqb (uv_version v) version) upserted.

(** The first of the releases published last. *)
Definition latestVersion (inputVersions : list (ContributorManifestVersion * timestamp))
  : option (ContributorManifestVersion * timestamp) :=
  head (js_sort (fun a b => b.2 <=? a.2) inputVersions).

Definition fingerprint_of (event : ContributorManifestEvent) : option string :=
  match me_packageMetadataFingerprint event with Some f => Some f | None => me_fingerprint event end.

(** What the transaction is given. *)
Record manifest := {
  mf_event : ContributorManifestEvent; mf_config : ContributorConnector; mf_ecosystem : string;
  mf_packageName : string; mf_observedAt : timestamp; mf_versions : list (ContributorManifestVersion * timestamp)
}.

(** The version the event calls the latest, when it is not among its releases. *)
Definition upsert_latest (m : manifest) (packageId : string) (upserted : list UpsertedVersion) : EM unit :=
  match present (canonicalizePackageVersion <$> present (me_latestVersion (mf_event m))),
        parseNullableDate (me_latestPublishedAt (mf_event m)) with
  | Some version, Some publishedAt =>
      match find_version version upserted with
      | Some _ => mret tt
      | None =>
          id ← on_catalog (upsertPackageVersion packageId version publishedAt (mf_observedAt m));
          on_catalog (updatePackageMetadata packageId (Some id) (Some publishedAt) (mf_observedAt m))
      end
  | _, _ => mret tt
  end.

Definition ingestTx (m : manifest) : EM unit :=
  packageId ← on_catalog (upsertPackageIdentity (mf_ecosystem m) (mf_packageName m) (mf_observedAt m));
  upserted ← mapM_ (upsert_manifest_version packageId (mf_observedAt m)) (mf_versions m);
  let latest := latestVersion (mf_versions m) in
  _ ← on_catalog (updatePackageMetadata packageId
        (l ← latest; uv_packageVersionId <$> find_version (mv_version l.1) upserted) (snd <$> latest) (mf_observedAt m));
  let oldest := parseNullableDate (me_oldestIncludedPublishedAt (mf_event m)) in
  _ ← on_package_facts (upsertContributorPackageFacts packageId (fingerprint_of (mf_event m))
        (me_historyComplete (mf_event m))
        (match oldest with Some t => Some t | None => uv_publishedAt <$> head upserted end) (mf_observedAt m));
  _ ← upsertContributorReleaseFacts
        {| rb_event := mf_event m; rb_ecosystem := mf_ecosystem m; rb_packageName := mf_packageName m;
           rb_packageId := packageId; rb_observedAt := mf_observedAt m;
           rb_requestedVersion := canonicalizePackageVersion <$> present (me_requestedVersion (mf_event m));
           rb_upsertedVersions := upserted; rb_config := mf_config m |};
  upsert_latest m packageId upserted.

Definition ingestContributorMetadata (event : ContributorManifestEvent) (config : ContributorConnector) : EM unit :=
  if negb (contributor_enabled config) then mret tt
  else
    let ecosystem := canonicalizeEcosystem (me_ecosystem event) in
    if negb (existsb (String.eqb ecosystem) SUPPORTED_ECOSYSTEMS) then mret tt
    else
      let packageName := canonicalizePackageName ecosystem (me_package event) in
      match parseRequiredDate (me_extractedAt event) with
      | None => mret tt
      | Some observedAt =>
          match normalizeManifestVersions (me_versions event) with
          | [] => mret tt
          | inputVersions =>
              unchanged ← touchUnchangedContributorManifest ecosystem packageName (fingerprint_of event)
                (me_historyComplete event) (parseNullableDate (me_oldestIncludedPublishedAt event)) observedAt;
              if unchanged : bool then mret tt
              else transaction (ingestTx
                     {| mf_event := event; mf_config := config; mf_ecosystem := ecosystem;
                        mf_packageName := packageName; mf_observedAt := observedAt; mf_versions := inputVersions |})
          end
      end.
End ingestion.
