(* ===== verification/IngestionCorrect.v ===== *)
(** * Correctness of the ingestion of contributor metadata

    The loop over the releases as a function on the table of facts, the history it
    carries, and the cached results. *)

From S2P Require Import Prelude JsString JsNum JsValue Json Jsonb Sql Effects JsDate Identity Schema Catalog ConnectorTypes Cache Scorer Contributor Findings FindingsCorrect Snapshots Effective Evaluation EvaluationCorrect Ingestion.
Local Open Scope string_scope.
Local Open Scope list_scope.
Local Open Scope Z_scope.

(** ** The result of a release can be cached *)

(** Every score the factors can give rounds to an integer. *)
Lemma rounded_table :
  forallb (fun q => forallb (fun t => num_is_integer (math_round (total_score t q))) (zrange (-10) 225)) MULTIPLIERS = true.
Proof. vm_compute. reflexivity. Qed.

Lemma rounded_score s now : counts_ok s -> num_is_integer (math_round (sc_score (score_signals s now))) = true.
Proof.
  intros Hc. destruct (score_total s now Hc) as (-> & Hq & Ht). assert (H := rounded_table).
  rewrite forallb_elem_of in H. specialize (H _ Hq). rewrite forallb_elem_of in H. apply H. by apply elem_of_zrange.
Qed.

Lemma release_result_storable b v s t1 t2 : counts_ok s -> storable (release_result b v s t1 t2) = true.
Proof.
  intros Hc. unfold storable. apply andb_true_iff. split; [done|].
  change (is_ok (integer_column (Some (math_round (sc_score (score_signals s t1))))) = true).
  unfold integer_column. by rewrite rounded_score.
Qed.

Lemma stored_counts_ok all hc h i v : counts_ok (storedSignals all hc h i v).
Proof. split; cbn; intros c [= <-]; lia. Qed.

(** ** The loop *)

Section loop.
Context `{Env} (b : release_batch).

(** Whether the facts of a release are kept as they are. *)
Definition kept (old : option release_facts_row) : bool :=
  from_option (fun e => negb (shouldReplaceContributorFacts (batch_quality b) (release_quality e))) false old.

Definition facts_of (id : string) (rows : list release_facts_row) : option release_facts_row :=
  head (List.filter (of_release id) rows).

Definition with_release (h : release_history) (i : nat) (v : UpsertedVersion) (rows : list release_facts_row)
  : list release_facts_row :=
  if kept (facts_of (uv_packageVersionId v) rows) then rows
  else (upsert (of_release (uv_packageVersionId v)) (fun old => releaseValues b h i v (Some old))
          (releaseValues b h i v None) rows).1.

Fixpoint with_releases (h : release_history) (i : nat) (todo : list UpsertedVersion) (rows : list release_facts_row)
  : list release_facts_row :=
  match todo with
  | [] => rows
  | v :: todo => with_releases (next_history h v) (S i) todo (with_release h i v rows)
  end.

Definition set_facts_and_cache (facts : list release_facts_row) (cache : list CacheRow) (db : check_db) : check_db :=
  set_cache cache (set_release_facts facts db).

Lemma upsert_release_run h i v n db :
  exists n' cache, (n <= n')%nat /\
    returns (upsert_release b h i v) (n, db) (next_history h v)
      (n', set_facts_and_cache (with_release h i v (release_facts db)) cache db).
Proof.
  unfold upsert_release, with_release, kept, facts_of. set (old := head _). destruct (from_option _ false old) eqn:Ek.
  - exists n, (connector_cache db). split; [done|]. apply returns_bind. eexists _, _. split; [apply returns_gets; split; reflexivity|].
    cbn [snd]. fold old. rewrite Ek. apply returns_ret. split; [done|]. by destruct db.
  - set (s := storedSignals (rb_upsertedVersions b) (me_historyComplete (rb_event b)) h i v).
    destruct (upsertCachedResult_run (rb_config b) (release_event b v) (release_result b v s (clock n) (clock (S n))) None
      (S (S n)) (connector_cache db)) as (row & n' & cache & Hr & Hn).
    { apply release_result_storable, stored_counts_ok. }
    exists n', cache. split; [lia|]. apply returns_bind. eexists _, _. split; [apply returns_gets; split; reflexivity|].
    cbn [snd]. fold old. rewrite Ek. apply returns_bind. eexists _, _. split.
    { apply returns_zoom. eexists (_, _). split; [apply returns_modify; split; reflexivity|reflexivity]. }
    apply returns_bind. eexists _, _. split; [apply returns_now; split; reflexivity|].
    apply returns_bind. eexists _, _. split; [apply returns_now; split; reflexivity|]. cbn [fst snd].
    apply returns_bind. eexists _, _. split; [apply returns_zoom; eexists (_, _); split; [exact Hr|reflexivity]|].
    by apply returns_ret.
Qed.

Lemma upsert_releases_run h i todo n db :
  exists n' cache, (n <= n')%nat /\
    returns (upsert_releases b h i todo) (n, db) tt
      (n', set_facts_and_cache (with_releases h i todo (release_facts db)) cache db).
Proof.
  revert h i n db. induction todo as [|v todo IH]; intros h i n db; cbn [upsert_releases with_releases].
  - exists n, (connector_cache db). split; [done|]. apply returns_ret. split; [done|]. by destruct db.
  - destruct (upsert_release_run h i v n db) as (n1 & c1 & Hn1 & Hr1).
    destruct (IH (next_history h v) (S i) n1 (set_facts_and_cache (with_release h i v (release_facts db)) c1 db))
      as (n2 & c2 & Hn2 & Hr2).
    exists n2, c2. split; [lia|]. apply returns_bind. eexists _, _. split; [exact Hr1|exact Hr2].
Qed.

(** ** The table of facts *)

Definition release_after (h : release_history) (i : nat) (v : UpsertedVersion) (old : option release_facts_row)
  : option release_facts_row :=
  if kept old then old else Some (releaseValues b h i v old).

Lemma with_release_same h i v rows :
  facts_of (uv_packageVersionId v) (with_release h i v rows) = release_after h i v (facts_of (uv_packageVersionId v) rows).
Proof.
  unfold with_release, release_after. destruct (kept _); [done|]. unfold facts_of.
  rewrite upsert_head; [by destruct (head _)|..]; intros; apply String.eqb_refl.
Qed.

Lemma with_release_other h i v rows id :
  id <> uv_packageVersionId v -> facts_of id (with_release h i v rows) = facts_of id rows.
Proof.
  intros Hid. unfold with_release. destruct (kept _); [done|]. unfold facts_of. rewrite upsert_others; [done|..].
  - intros r _ Hr%String.eqb_eq. apply String.eqb_neq. congruence.
  - intros r. by apply String.eqb_neq.
  - by apply String.eqb_neq.
Qed.

Lemma with_releases_other h i todo rows id :
  id ∉ map uv_packageVersionId todo -> facts_of id (with_releases h i todo rows) = facts_of id rows.
Proof.
  revert h i rows. induction todo as [|v todo IH]; intros h i rows Hid; [done|]. cbn [with_releases].
  apply not_elem_of_cons in Hid as [Hv Hid]. rewrite IH by done. by apply with_release_other.
Qed.

Lemma with_releases_at h i todo rows j v :
  NoDup (map uv_packageVersionId todo) -> todo !! j = Some v ->
  facts_of (uv_packageVersionId v) (with_releases h i todo rows) =
  release_after (foldl next_history h (take j todo)) (i + j) v (facts_of (uv_packageVersionId v) rows).
Proof.
  revert h i rows j. induction todo as [|x todo IH]; intros h i rows j Hnd Hv; [done|].
  cbn in Hnd. apply NoDup_cons in Hnd as [Hx Hnd]. destruct j as [|j]; cbn in Hv.
  - injection Hv as ->. cbn [with_releases take foldl]. rewrite with_releases_other by done.
    rewrite with_release_same. by rewrite Nat.add_0_r.
  - cbn [with_releases take foldl]. rewrite (IH (next_history h x) (S i) _ j Hnd Hv).
    rewrite with_release_other; [by replace (S i + j)%nat with (i + S j)%nat by lia|].
    intros He. apply Hx. rewrite <- He. apply list_elem_of_fmap_2. by eapply list_elem_of_lookup_2.
Qed.
End loop.

(** ** The history *)

Definition history (all : list UpsertedVersion) (i : nat) : release_history :=
  foldl next_history no_history (take i all).

(** How many of some releases a publisher published. *)
Definition published_by (p : string) (l : list UpsertedVersion) : nat :=
  length (List.filter (fun v => bool_decide (uv_publisher v = Some p)) l).

Lemma next_history_seen h v p :
  p <> EmptyString ->
  default 0 (map_get p (seenPublishers (next_history h v))) =
  default 0 (map_get p (seenPublishers h)) + (if bool_decide (uv_publisher v = Some p) then 1 else 0).
Proof.
  intros Hp. unfold next_history. cbn [seenPublishers]. destruct (present (uv_publisher v)) as [q|] eqn:Eq.
  - apply present_some in Eq as [Hq _]. rewrite Hq, map_get_set. destruct (String.eqb_spec p q) as [->|Hn].
    + by rewrite bool_decide_eq_true_2.
    + rewrite bool_decide_eq_false_2 by congruence. by rewrite Z.add_0_r.
  - rewrite bool_decide_eq_false_2; [by rewrite Z.add_0_r|]. intros Hv. rewrite Hv in Eq.
    assert (Hs : present (Some p) = Some p) by (by apply present_some). congruence.
Qed.

Lemma history_snoc all i v : all !! i = Some v -> history all (S i) = next_history (history all i) v.
Proof. intros Hv. unfold history. rewrite (take_S_r _ _ _ Hv), foldl_app. done. Qed.

Lemma history_seen all i p :
  p <> EmptyString -> default 0 (map_get p (seenPublishers (history all i))) = Z.of_nat (published_by p (take i all)).
Proof.
  intros Hp. induction i as [|i IH]; [done|]. destruct (all !! i) as [v|] eqn:E.
  - rewrite (history_snoc _ _ _ E), next_history_seen, IH, (take_S_r _ _ _ E) by done. unfold published_by.
    rewrite List.filter_app, length_app. cbn. destruct (bool_decide _); cbn; lia.
  - apply lookup_ge_None in E. unfold history in *. rewrite !take_ge in * by lia. exact IH.
Qed.

(** The release before. *)
Definition prior_release (all : list UpsertedVersion) (i : nat) : option UpsertedVersion := last (take i all).

Lemma history_prior all i :
  priorVersionPublisher_ (history all i) = prior_release all i ≫= uv_publisher /\
  priorMaintainers (history all i) = from_option uv_maintainers [] (prior_release all i).
Proof.
  unfold prior_release. destruct (decide (take i all = [])) as [E|E]; [unfold history; by rewrite E|].
  apply exists_last in E as (l & v & E). unfold history. rewrite E, foldl_app, last_snoc. done.
Qed.
