(* ===== verification/Violations.v ===== *)
(** * Recording an evaluation (services/api/src/connect/check-service.ts)

    After a check is answered, [recordPolicyEvaluationWithViolations] records, in
    one transaction, the evaluation, the verdict of each policy and rule, and the
    violations it found: a violation seen before is updated, a new one created,
    each gets an occurrence for this evaluation, and the open findings of the
    version are linked to it as evidence.  A violation that matches a suppression
    is recorded as suppressed.

    The unique indexes of the tables are modelled: an insert that breaks one
    throws and the transaction is rolled back.  The generated key columns of the
    active-violation index replace nulls by the zero identifier, which no row has;
    the model compares the nullable columns themselves.  Foreign keys and the
    identifiers that only the database uses are left out. *)

From S2P Require Import Prelude JsString JsNum JsValue Jsonb Sql Effects Identity ConnectorTypes Findings Snapshots Effective Decision.
Local Open Scope string_scope.
Local Open Scope list_scope.
Local Open Scope Z_scope.

(** ** Tables *)

Record evaluation_row := {
  pe_id : string; pe_tenant_id : string; pe_project_id : string; pe_entity_type : string;
  pe_package_id : option string; pe_package_version_id : option string; pe_decision : string;
  pe_policies_evaluated : Z; pe_rules_evaluated : Z; pe_rules_matched : Z;
  pe_connector_snapshot_meta : list (string * ConnectorSnapshotMeta);
  pe_field_values_at_evaluation : list (string * jsval); pe_duration_ms : Z; pe_event_id : option string;
  pe_evaluated_at : timestamp
}.

Record evaluation_policy_row := {
  pp_tenant_id : string; pp_project_id : string; pp_evaluation_id : string; pp_policy_id : string;
  pp_policy_project_binding_id : option string; pp_effective_enforcement_mode : string; pp_result : string;
  pp_order_index : Z
}.

Record evaluation_rule_row := {
  pu_tenant_id : string; pu_project_id : string; pu_evaluation_id : string; pu_policy_id : string;
  pu_policy_rule_binding_id : string; pu_rule_id : string; pu_policy_project_binding_id : option string;
  pu_matched : bool; pu_result : string
}.

Record violation_row := {
  vi_id : string; vi_tenant_id : string; vi_project_id : string; vi_rule_id : option string;
  vi_policy_id : option string; vi_policy_rule_binding_id : option string;
  vi_policy_project_binding_id : option string; vi_recommended_remediation : option string;
  vi_entity_type : string; vi_package_id : option string; vi_package_version_id : option string;
  vi_severity : string; vi_code : string; vi_message : string; vi_enforcement_mode : string;
  vi_blocked : bool; vi_status : string; vi_status_note : option string;
  vi_first_seen_at : timestamp; vi_last_seen_at : timestamp
}.

Record occurrence_row := {
  vo_id : string; vo_tenant_id : string; vo_project_id : string; vo_violation_id : string;
  vo_evaluation_id : string; vo_project_token_id : option string; vo_source_event_id : option string;
  vo_status_at_occurrence : string; vo_suppression_id : option string; vo_occurred_at : timestamp
}.

Record violation_finding_row := {
  vn_tenant_id : string; vn_project_id : string; vn_violation_id : string; vn_project_finding_id : string;
  vn_finding_version_id : string; vn_connector_cache_id : option string; vn_relationship_type : string
}.

Record suppression_row := {
  su_id : string; su_tenant_id : string; su_project_id : option string; su_package_id : option string;
  su_package_version_id : option string; su_rule_key : option string; su_expires_at : option timestamp
}.

(** The tables the recording writes, and the suppressions. *)
Record record_db := {
  policy_evaluations : list evaluation_row; policy_evaluation_policies : list evaluation_policy_row;
  policy_evaluation_rules : list evaluation_rule_row; violations : list violation_row;
  violation_occurrences : list occurrence_row; violation_findings : list violation_finding_row;
  violation_suppressions : list suppression_row
}.

Definition set_evaluations (l : list evaluation_row) (db : record_db) : record_db :=
  {| policy_evaluations := l; policy_evaluation_policies := policy_evaluation_policies db;
     policy_evaluation_rules := policy_evaluation_rules db; violations := violations db;
     violation_occurrences := violation_occurrences db; violation_findings := violation_findings db;
     violation_suppressions := violation_suppressions db |}.
Definition set_evaluation_policies (l : list evaluation_policy_row) (db : record_db) : record_db :=
  {| policy_evaluations := policy_evaluations db; policy_evaluation_policies := l;
     policy_evaluation_rules := policy_evaluation_rules db; violations := violations db;
     violation_occurrences := violation_occurrences db; violation_findings := violation_findings db;
     violation_suppressions := violation_suppressions db |}.
Definition set_evaluation_rules (l : list evaluation_rule_row) (db : record_db) : record_db :=
  {| policy_evaluations := policy_evaluations db; policy_evaluation_policies := policy_evaluation_policies db;
     policy_evaluation_rules := l; violations := violations db;
     violation_occurrences := violation_occurrences db; violation_findings := violation_findings db;
     violation_suppressions := violation_suppressions db |}.
Definition set_violations (l : list violation_row) (db : record_db) : record_db :=
  {| policy_evaluations := policy_evaluations db; policy_evaluation_policies := policy_evaluation_policies db;
     policy_evaluation_rules := policy_evaluation_rules db; violations := l;
     violation_occurrences := violation_occurrences db; violation_findings := violation_findings db;
     violation_suppressions := violation_suppressions db |}.
Definition set_occurrences (l : list occurrence_row) (db : record_db) : record_db :=
  {| policy_evaluations := policy_evaluations db; policy_evaluation_policies := policy_evaluation_policies db;
     policy_evaluation_rules := policy_evaluation_rules db; violations := violations db;
     violation_occurrences := l; violation_findings := violation_findings db;
     violation_suppressions := violation_suppressions db |}.
Definition set_violation_findings (l : list violation_finding_row) (db : record_db) : record_db :=
  {| policy_evaluations := policy_evaluations db; policy_evaluation_policies := policy_evaluation_policies db;
     policy_evaluation_rules := policy_evaluation_rules db; violations := violations db;
     violation_occurrences := violation_occurrences db; violation_findings := l;
     violation_suppressions := violation_suppressions db |}.

(** ** The evaluation to record *)

Record CollectedViolationForWrite := {
  w_violation : violation; w_project_token_id : option string; w_tenant_id : string; w_project_id : string;
  w_entity_type : string; w_evaluation_id : string; w_evaluated_at : timestamp
}.

Record recorded_evaluation := {
  re_evaluationId : string; re_tenant_id : string; re_project_id : string; re_artifact : ArtifactIdentity;
  re_decision : string; re_policiesEvaluated : Z; re_rulesEvaluated : Z; re_rulesMatched : Z;
  re_connectorSnapshotMeta : list (string * ConnectorSnapshotMeta); re_durationMs : Z;
  re_eventId : option string; re_fieldValues : list (string * jsval);
  re_policySnapshot : PolicySnapshot; re_violations : list CollectedViolationForWrite
}.

(** What the database driver sends for a value bound to a text column, [None] for
    a null.  A rule's action may hold any JSON where the program's types say
    string. *)
Class TextDriver : Type := { text_column : jsval -> option string }.

(** The driver's documented treatment of strings and of null. *)
Class LawfulTextDriver `{TextDriver} : Prop := {
  text_string s : text_column (JStr s) = Some s;
  text_null v : text_column v = None -> is_nullish v = true
}.

(** An example driver, which sends every other value's text. *)
Definition example_driver : TextDriver := {| text_column v := if is_nullish v then None else Some (to_str v) |}.

Lemma example_driver_lawful : @LawfulTextDriver example_driver.
Proof. split; [done|]. intros v. cbn. by destruct (is_nullish v). Qed.

Section violations.
Context `{Env} `{TextDriver}.

Definition VM : Type -> Type := M record_db.

(** A text column that must not be null. *)
Definition required_text (v : jsval) : res string :=
  match text_column v with Some s => Ok s | None => Throw "not_null_violation" end.

(** ** The evaluation, its policies and rules *)

Definition evaluation_columns (e : recorded_evaluation) (evaluatedAt : timestamp) : evaluation_row :=
  {| pe_id := re_evaluationId e; pe_tenant_id := re_tenant_id e; pe_project_id := re_project_id e;
     pe_entity_type := "artifact"; pe_package_id := package_id (catalog (re_artifact e));
     pe_package_version_id := package_version_id (catalog (re_artifact e)); pe_decision := re_decision e;
     pe_policies_evaluated := re_policiesEvaluated e; pe_rules_evaluated := re_rulesEvaluated e;
     pe_rules_matched := re_rulesMatched e;
     pe_connector_snapshot_meta := map (fun kv => (kv.1, jsonb_meta kv.2)) (re_connectorSnapshotMeta e);
     pe_field_values_at_evaluation := jsonb_fields (re_fieldValues e); pe_duration_ms := re_durationMs e;
     pe_event_id := re_eventId e; pe_evaluated_at := evaluatedAt |}.

Definition insert_evaluation : evaluation_row -> VM unit :=
  insert_unique policy_evaluations set_evaluations (fun new r => String.eqb (pe_id r) (pe_id new)).

(** [blockingViolationsByPolicyId] *)
Definition blockingPolicies (collected : list CollectedViolationForWrite) : list string :=
  omap (fun w => present (policy_id (w_violation w)))
    (List.filter (fun w => blocked (w_violation w)) collected).

(** [matchedViolationsByBindingId] *)
Definition matchedViolations (collected : list CollectedViolationForWrite)
  : list (string * CollectedViolationForWrite) :=
  map_entries (omap (fun w => (fun b => (b, w)) <$> present (policy_rule_binding_id (w_violation w))) collected).

Definition policy_columns (e : recorded_evaluation) (blocking : list string) (x : nat * SnapshotPolicy)
  : res evaluation_policy_row :=
  let! mode := required_text (sp_enforcementMode x.2) in
  Ok {| pp_tenant_id := re_tenant_id e; pp_project_id := re_project_id e; pp_evaluation_id := re_evaluationId e;
        pp_policy_id := sp_id x.2; pp_policy_project_binding_id := sp_policyProjectBindingId x.2;
        pp_effective_enforcement_mode := mode;
        pp_result := if existsb (String.eqb (sp_id x.2)) blocking then "block" else "allow";
        pp_order_index := Z.of_nat x.1 |}.

Definition rule_columns (e : recorded_evaluation) (matched : list (string * CollectedViolationForWrite))
    (rule : ResolvedRule) : evaluation_rule_row :=
  let m := map_get (policyRuleBindingId rule) matched in
  {| pu_tenant_id := re_tenant_id e; pu_project_id := re_project_id e; pu_evaluation_id := re_evaluationId e;
     pu_policy_id := policyId rule; pu_policy_rule_binding_id := policyRuleBindingId rule; pu_rule_id := id rule;
     pu_policy_project_binding_id := policyProjectBindingId rule;
     pu_matched := bool_decide (is_Some m);
     pu_result := match m with
                  | Some w => if blocked (w_violation w) then "block" else "advisory"
                  | None => "pass"
                  end |}.

(** ** Violations *)

(** The key of the index over active violations. *)
Definition violation_key (r : violation_row) :=
  (vi_tenant_id r, vi_project_id r, vi_entity_type r, (vi_package_id r, vi_package_version_id r),
   (vi_policy_id r, vi_rule_id r), (vi_policy_rule_binding_id r, vi_policy_project_binding_id r),
   vi_enforcement_mode r, vi_code r).

Definition is_active (r : violation_row) : bool :=
  String.eqb (vi_status r) "open" || String.eqb (vi_status r) "suppressed".

(** The index, and the primary key. *)
Definition violation_conflict (new r : violation_row) : bool :=
  String.eqb (vi_id r) (vi_id new)
  || (is_active new && is_active r && bool_decide (violation_key r = violation_key new)).

(** The columns of a new violation. *)
Definition violation_columns (ids : PackageCatalogReference) (w : CollectedViolationForWrite) (suppressed : bool)
    (id : string) : res violation_row :=
  let v := w_violation w in
  let! severity_ := required_text (severity v) in
  let! code_ := required_text (code v) in
  let! mode := required_text (enforcement_mode v) in
  Ok {| vi_id := id; vi_tenant_id := w_tenant_id w; vi_project_id := w_project_id w; vi_rule_id := rule_id v;
        vi_policy_id := policy_id v; vi_policy_rule_binding_id := policy_rule_binding_id v;
        vi_policy_project_binding_id := policy_project_binding_id v;
        vi_recommended_remediation := text_column (recommended_remediation v); vi_entity_type := w_entity_type w;
        vi_package_id := package_id ids; vi_package_version_id := package_version_id ids;
        vi_severity := severity_; vi_code := code_; vi_message := message v; vi_enforcement_mode := mode;
        vi_blocked := blocked v; vi_status := if suppressed then "suppressed" else "open"; vi_status_note := None;
        vi_first_seen_at := w_evaluated_at w; vi_last_seen_at := w_evaluated_at w |}.

(** The update of an active violation that is seen again, from those columns. *)
Definition seen_again (new r : violation_row) : violation_row :=
  {| vi_id := vi_id r; vi_tenant_id := vi_tenant_id r; vi_project_id := vi_project_id r; vi_rule_id := vi_rule_id new;
     vi_policy_id := vi_policy_id new; vi_policy_rule_binding_id := vi_policy_rule_binding_id new;
     vi_policy_project_binding_id := vi_policy_project_binding_id new;
     vi_recommended_remediation := vi_recommended_remediation new; vi_entity_type := vi_entity_type r;
     vi_package_id := vi_package_id new; vi_package_version_id := vi_package_version_id new;
     vi_severity := vi_severity new; vi_code := vi_code r; vi_message := vi_message new;
     vi_enforcement_mode := vi_enforcement_mode r; vi_blocked := vi_blocked new; vi_status := vi_status new;
     vi_status_note := vi_status_note r; vi_first_seen_at := vi_first_seen_at r;
     vi_last_seen_at := vi_last_seen_at new |}.

(** [ORDER BY CASE WHEN status = 'suppressed' THEN 0 ELSE 1 END, last_seen_at DESC];
    the index leaves at most one row, so ties do not matter. *)
Definition suppressed_rank (r : violation_row) : Z := if String.eqb (vi_status r) "suppressed" then 0 else 1.
Definition active_before (a b : violation_row) : bool :=
  if suppressed_rank a =? suppressed_rank b then vi_last_seen_at b <=? vi_last_seen_at a
  else suppressed_rank a <=? suppressed_rank b.

(** The active violation with the key of a new one. *)
Definition activeViolation (new : violation_row) (db : record_db) : option violation_row :=
  head (js_sort active_before
    (List.filter (fun r => bool_decide (violation_key r = violation_key new) && is_active r) (violations db))).

Definition insert_violation : violation_row -> VM unit := insert_unique violations set_violations violation_conflict.

Definition update_violation (id : string) (new : violation_row) : VM unit :=
  modify (fun db => set_violations (update_where (fun r => String.eqb (vi_id r) id) (seen_again new) (violations db)) db).

(** Finds the active violation and updates it, or creates one; its identifier. *)
Definition write_violation (ids : PackageCatalogReference) (w : CollectedViolationForWrite) (suppressed : bool)
    (wanted : violation_row) : VM string :=
  active ← gets (activeViolation wanted);
  match present (vi_id <$> active) with
  | Some id => _ ← update_violation id wanted; mret id
  | None => id ← fresh; new ← of_res (violation_columns ids w suppressed id); _ ← insert_violation new; mret id
  end.

(** ** Suppressions, occurrences and evidence *)

(** The suppressions of the artifact in force, and the first that covers a violation. *)
Definition suppressions_in_force (e : recorded_evaluation) (evaluatedAt : timestamp) (db : record_db)
  : list suppression_row :=
  List.filter (fun s =>
      String.eqb (su_tenant_id s) (re_tenant_id e)
      && bool_decide (su_package_id s = package_id (catalog (re_artifact e)))
      && bool_decide (su_package_version_id s = package_version_id (catalog (re_artifact e)))
      && from_option (Z.ltb evaluatedAt) true (su_expires_at s))
    (violation_suppressions db).

Definition covers (w : CollectedViolationForWrite) (s : suppression_row) : bool :=
  (bool_decide (su_project_id s = None) || bool_decide (su_project_id s = Some (w_project_id w)))
  && (bool_decide (su_rule_key s = None) || bool_decide (su_rule_key s = rule_key (w_violation w))).

Definition matchingSuppression (suppressed : list suppression_row) (w : CollectedViolationForWrite)
  : option suppression_row := js_find (covers w) suppressed.

Definition occurrence_columns (e : recorded_evaluation) (w : CollectedViolationForWrite)
    (suppression : option suppression_row) (violationId id : string) : occurrence_row :=
  {| vo_id := id; vo_tenant_id := w_tenant_id w; vo_project_id := w_project_id w;
     vo_violation_id := violationId; vo_evaluation_id := w_evaluation_id w;
     vo_project_token_id := w_project_token_id w; vo_source_event_id := re_eventId e;
     vo_status_at_occurrence := if bool_decide (is_Some suppression) then "suppressed" else "open";
     vo_suppression_id := su_id <$> suppression; vo_occurred_at := w_evaluated_at w |}.

Definition insert_occurrence : occurrence_row -> VM unit :=
  insert_unique violation_occurrences set_occurrences
    (fun new r => String.eqb (vo_id r) (vo_id new)
                  || (String.eqb (vo_violation_id r) (vo_violation_id new)
                      && String.eqb (vo_evaluation_id r) (vo_evaluation_id new))).

(** The project's findings of the version that are open at the time, with their
    current versions. *)
Definition currentProjectFindings (e : recorded_evaluation) (evaluatedAt : timestamp) (findings : findings_db)
  : list (project_finding_row * finding_version_row) :=
  match package_version_id (catalog (re_artifact e)) with
  | None => []
  | Some vid =>
      inner_join (fun f v => String.eqb (pf_current_finding_version_id f) (fv_id v))
        (List.filter (fun f => String.eqb (pf_project_id f) (re_project_id e)
                               && String.eqb (pf_tenant_id f) (re_tenant_id e)
                               && opt_eq (pf_package_version_id f) vid && (evaluatedAt <? pf_observed_to f))
           (project_findings findings))
        (finding_versions findings)
  end.

Definition evidence (w : CollectedViolationForWrite) (violationId : string)
    (f : project_finding_row * finding_version_row) : violation_finding_row :=
  {| vn_tenant_id := w_tenant_id w; vn_project_id := w_project_id w; vn_violation_id := violationId;
     vn_project_finding_id := pf_id f.1; vn_finding_version_id := pf_current_finding_version_id f.1;
     vn_connector_cache_id := fv_connector_cache_id f.2; vn_relationship_type := "evidence" |}.

Definition evidence_key (r : violation_finding_row) : string * string * string :=
  (vn_violation_id r, vn_project_finding_id r, vn_finding_version_id r).

(** [insert ... on conflict do nothing], row by row. *)
Definition add_evidence (rows : list violation_finding_row) (new : violation_finding_row) : list violation_finding_row :=
  if existsb (fun r => bool_decide (evidence_key r = evidence_key new)) rows then rows else rows ++ [new].

(** The loop body for one violation. *)
Definition record_violation (e : recorded_evaluation) (suppressed : list suppression_row)
    (found : list (project_finding_row * finding_version_row)) (w : CollectedViolationForWrite) : VM unit :=
  let suppression := matchingSuppression suppressed w in
  let suppressedStatus := bool_decide (is_Some suppression) in
  let ids := catalog (re_artifact e) in
  wanted ← of_res (violation_columns ids w suppressedStatus EmptyString);
  violationId ← write_violation ids w suppressedStatus wanted;
  occurrenceId ← fresh;
  _ ← insert_occurrence (occurrence_columns e w suppression violationId occurrenceId);
  modify (fun db => set_violation_findings
                      (foldl add_evidence (violation_findings db) (map (evidence w violationId) found)) db).

(** ** The transaction *)

(** [findings] are the project findings tables, which the transaction only reads. *)
Definition recordEvaluationTx (findings : findings_db) (e : recorded_evaluation) (evaluatedAt : timestamp) : VM unit :=
  _ ← insert_evaluation (evaluation_columns e evaluatedAt);
  let snapshot := re_policySnapshot e in
  policies ← of_res (map_res (policy_columns e (blockingPolicies (re_violations e)))
                       (imap pair (snap_policies snapshot)));
  _ ← modify (fun db => set_evaluation_policies (policy_evaluation_policies db ++ policies) db);
  _ ← modify (fun db => set_evaluation_rules (policy_evaluation_rules db
                 ++ map (rule_columns e (matchedViolations (re_violations e))) (allRules snapshot)) db);
  match re_violations e with
  | [] => mret tt
  | _ =>
      let found := currentProjectFindings e evaluatedAt findings in
      suppressed ← gets (suppressions_in_force e evaluatedAt);
      _ ← mapM_ (record_violation e suppressed found) (re_violations e);
      mret tt
  end.

(** Not awaited by the check; an error is only logged. *)
Definition recordPolicyEvaluationWithViolations (findings : findings_db) (e : recorded_evaluation) : VM unit :=
  evaluatedAt ← now_;
  _ ← attempt (transaction (recordEvaluationTx findings e evaluatedAt));
  mret tt.
End violations.
