(* ===== verification/ViolationsCorrect.v ===== *)
(** * Correctness of the recording of evaluations

    The invariant of the violation tables and what recording one violation does. *)

From S2P Require Import Prelude JsString JsNum JsValue Jsonb Sql Effects Identity ConnectorTypes Findings Snapshots Effective Decision Violations.
Local Open Scope string_scope.
Local Open Scope list_scope.
Local Open Scope Z_scope.

Section correct.
Context `{Env} (uuid_inj : forall m n, uuid m = uuid n -> m = n) (uuid_nonempty : forall n, uuid n <> EmptyString).
Context `{TextDriver}.

Definition active_with k (r : violation_row) : bool := bool_decide (violation_key r = k) && is_active r.

(** Identifiers are unique and not yet drawn again, each key has at most one
    active violation, and occurrences are of violations. *)
Record record_ok (n : nat) (db : record_db) : Prop := {
  rk_fresh m : (n <= m)%nat -> (uuid m ∉ map vi_id (violations db)) /\ (uuid m ∉ map vo_id (violation_occurrences db));
  rk_ids : NoDup (map vi_id (violations db));
  rk_nonempty r : r ∈ violations db -> vi_id r <> EmptyString;
  rk_active k : (length (List.filter (active_with k) (violations db)) <= 1)%nat;
  rk_references o : o ∈ violation_occurrences db -> vo_violation_id o ∈ map vi_id (violations db)
}.

(** ** The columns of a violation *)

(** The key of a collected violation; [None] when a required column is null. *)
Definition collected_key (ids : PackageCatalogReference) (w : CollectedViolationForWrite) :=
  match violation_columns ids w false EmptyString with
  | Ok r => Some (violation_key r)
  | Throw _ => None
  end.

Lemma violation_columns_shape ids w s id r :
  violation_columns ids w s id = Ok r ->
  vi_id r = id /\ vi_status r = (if s then "suppressed" else "open") /\ is_active r = true /\
  vi_first_seen_at r = w_evaluated_at w /\ vi_last_seen_at r = w_evaluated_at w /\
  vi_message r = message (w_violation w) /\ vi_blocked r = blocked (w_violation w) /\
  collected_key ids w = Some (violation_key r).
Proof.
  unfold collected_key, violation_columns. destruct (required_text (severity _)); [|done].
  destruct (required_text (code _)); [|done]. destruct (required_text (enforcement_mode _)); [|done].
  cbn. intros [= <-]. repeat split. unfold is_active. cbn. by destruct s.
Qed.

(** The identifier only goes into its own column. *)
Lemma violation_columns_id ids w s id id' r :
  violation_columns ids w s id = Ok r ->
  exists r', violation_columns ids w s id' = Ok r' /\ violation_key r' = violation_key r /\
    forall old, seen_again r' old = seen_again r old.
Proof.
  unfold violation_columns. destruct (required_text (severity _)); [|done].
  destruct (required_text (code _)); [|done]. destruct (required_text (enforcement_mode _)); [|done].
  cbn. intros [= <-]. by eexists.
Qed.

Lemma violation_columns_ok ids w k s id :
  collected_key ids w = Some k -> exists r, violation_columns ids w s id = Ok r.
Proof.
  unfold collected_key, violation_columns. destruct (required_text (severity _)); [|done].
  destruct (required_text (code _)); [|done]. destruct (required_text (enforcement_mode _)); [|done].
  cbn. intros _. by eexists.
Qed.

(** The rule binding in the key of a violation is that of its rule. *)
Lemma collected_key_binding ids w w' k :
  collected_key ids w = Some k -> collected_key ids w' = Some k ->
  policy_rule_binding_id (w_violation w) = policy_rule_binding_id (w_violation w').
Proof.
  assert (Hb : forall w, collected_key ids w = Some k -> policy_rule_binding_id (w_violation w) = k.1.1.2.1).
  { clear w w'. intros w. unfold collected_key, violation_columns. destruct (required_text (severity _)); [|done].
    destruct (required_text (code _)); [|done]. destruct (required_text (enforcement_mode _)); [|done].
    cbn. by intros [= <-]. }
  intros Hw Hw'. by rewrite (Hb w Hw), (Hb w' Hw').
Qed.

(** An update of an active violation with its key keeps key and identifier. *)
Lemma seen_again_key new r : violation_key r = violation_key new -> violation_key (seen_again new r) = violation_key r.
Proof. unfold violation_key. destruct new, r. cbn. intros [= -> -> -> -> -> -> -> -> -> -> ->]. done. Qed.

Lemma activeViolation_spec n db new :
  record_ok n db -> activeViolation new db = head (List.filter (active_with (violation_key new)) (violations db)).
Proof.
  intros Hok. unfold activeViolation.
  change (fun r => bool_decide (violation_key r = violation_key new) && is_active r) with (active_with (violation_key new)).
  specialize (rk_active _ _ Hok (violation_key new)).
  destruct (List.filter _ _) as [|r [|]]; [done|done|cbn; lia].
Qed.

(** ** The two writes *)

Section update.
Context (n : nat) (db : record_db) (Hok : record_ok n db) (new old : violation_row).
Hypothesis Hold : List.filter (active_with (violation_key new)) (violations db) = [old].
Hypothesis Hactive : is_active new = true.

Definition updated_rows : list violation_row :=
  update_where (fun r => String.eqb (vi_id r) (vi_id old)) (seen_again new) (violations db).

Lemma old_in : old ∈ violations db /\ violation_key old = violation_key new /\ is_active old = true.
Proof using Hold.
  assert (Hin : old ∈ [old]) by apply list_elem_of_here. rewrite <- Hold in Hin.
  apply elem_of_filter_b in Hin as [? [Hk ?]%andb_prop]. by apply bool_decide_eq_true in Hk.
Qed.

Lemma by_id r : r ∈ violations db -> String.eqb (vi_id r) (vi_id old) = true -> r = old.
Proof using Hold Hok.
  intros Hr He%String.eqb_eq. apply (NoDup_map_inj vi_id (violations db)); [by eapply rk_ids|done|apply old_in|done].
Qed.

Lemma update_filter (p : violation_row -> bool) :
  p old = p (seen_again new old) -> List.filter p updated_rows = update_where (fun r => String.eqb (vi_id r) (vi_id old)) (seen_again new) (List.filter p (violations db)).
Proof using Hold Hok. intros Hp. apply filter_update_where_on. intros r Hr He. by rewrite (by_id r Hr He). Qed.

Lemma update_active k : active_with k (seen_again new old) = active_with k old.
Proof using Hold Hactive.
  destruct old_in as (_ & Hk & Ha). unfold active_with. rewrite seen_again_key by done. f_equal.
  rewrite Ha. unfold is_active in *. cbn. done.
Qed.

Lemma update_length k : length (List.filter (active_with k) updated_rows) = length (List.filter (active_with k) (violations db)).
Proof using Hold Hok Hactive. rewrite update_filter by (by rewrite update_active). apply length_map. Qed.

Lemma update_new : List.filter (active_with (violation_key new)) updated_rows = [seen_again new old].
Proof using Hold Hok Hactive.
  rewrite update_filter by (by rewrite update_active). rewrite Hold. unfold update_where. cbn. by rewrite String.eqb_refl.
Qed.

(** Rows that are not the updated one's key, and inactive ones, are untouched. *)
Lemma update_other (p : violation_row -> bool) : p old = false -> p (seen_again new old) = false -> List.filter p updated_rows = List.filter p (violations db).
Proof using Hold Hok.
  intros H1 H2. apply update_where_filter_other. intros r Hr He. rewrite (by_id r Hr He). done.
Qed.

Lemma update_ids : map vi_id updated_rows = map vi_id (violations db).
Proof. by apply update_where_map. Qed.
End update.

(** What is stored for a collected violation: a new row, or the active one updated. *)
Definition recorded_as (ids : PackageCatalogReference) (w : CollectedViolationForWrite) (suppressed : bool)
    (before : list violation_row) (r : violation_row) : Prop :=
  exists new, violation_columns ids w suppressed (vi_id r) = Ok new /\
    ((List.filter (active_with (violation_key new)) before = [] /\ r = new) \/
     exists old, List.filter (active_with (violation_key new)) before = [old] /\ r = seen_again new old).

(** What a write leaves: only the active row of the key is new or changed. *)
Record written (ids : PackageCatalogReference) (w : CollectedViolationForWrite) (s : bool) (k : _)
    (before after : list violation_row) (r : violation_row) : Prop := {
  wr_row : List.filter (active_with k) after = [r];
  wr_recorded : recorded_as ids w s before r;
  wr_others p : (forall x, active_with k x = true -> p x = false) -> List.filter p after = List.filter p before;
  wr_ids : map vi_id before ⊆ map vi_id after
}.

Lemma update_write ids w s wanted old n db :
  record_ok n db -> violation_columns ids w s EmptyString = Ok wanted ->
  List.filter (active_with (violation_key wanted)) (violations db) = [old] ->
  exists rows, update_violation (vi_id old) wanted (n, db) = (Ok tt, (n, set_violations rows db)) /\
    record_ok n (set_violations rows db) /\
    written ids w s (violation_key wanted) (violations db) rows (seen_again wanted old).
Proof.
  intros Hok Hw Hf. destruct (violation_columns_shape _ _ _ _ _ Hw) as (_ & _ & Ha & _).
  exists (updated_rows db wanted old). split; [done|]. split.
  - destruct Hok as [H1 H2 H3 H4 H5]. split; cbn; rewrite ?update_ids; try done.
    + intros r (r0 & Hr0 & ->)%elem_of_update_where. specialize (H3 r0 Hr0). by destruct (String.eqb _ _).
    + intros k. by rewrite (update_length n).
  - split.
    + by apply (update_new n).
    + destruct (violation_columns_id _ _ _ _ (vi_id old) _ Hw) as (new & Hnew & Hk & Hs). exists new. split; [done|].
      right. exists old. by rewrite Hk, Hs.
    + intros p Hp. destruct (old_in db wanted old Hf) as (_ & Hk & Hao). apply (update_other n); [done..| |]; apply Hp.
      * unfold active_with. by rewrite Hk, bool_decide_eq_true_2.
      * rewrite (update_active db wanted old Hf Ha). unfold active_with. by rewrite Hk, bool_decide_eq_true_2.
    + by rewrite update_ids.
Qed.

Lemma create_write ids w s wanted n db :
  record_ok n db -> violation_columns ids w s EmptyString = Ok wanted ->
  List.filter (active_with (violation_key wanted)) (violations db) = [] ->
  exists new, violation_columns ids w s (uuid n) = Ok new /\ vi_id new = uuid n /\
    returns (insert_violation new) (Datatypes.S n, db) tt (Datatypes.S n, set_violations (violations db ++ [new]) db) /\
    record_ok (Datatypes.S n) (set_violations (violations db ++ [new]) db) /\
    written ids w s (violation_key wanted) (violations db) (violations db ++ [new]) new.
Proof using uuid_inj uuid_nonempty.
  intros [H1 H2 H3 H4 H5] Hw Hf. destruct (violation_columns_id _ _ _ _ (uuid n) _ Hw) as (new & Hnew & Hk & _).
  destruct (violation_columns_shape _ _ _ _ _ Hnew) as (Hid & _ & Ha & _).
  exists new. split; [done|]. split; [done|].
  assert (Hnk : forall k, active_with k new = bool_decide (k = violation_key wanted)).
  { intros k. unfold active_with. rewrite Ha, Hk, andb_true_r. by apply bool_decide_ext. }
  split; [|split].
  - apply insert_unique_run. apply not_true_iff_false. intros (r & Hr & Hc)%existsb_exists.
    apply list_elem_of_In in Hr. unfold violation_conflict in Hc. rewrite Hid, Ha in Hc.
    apply orb_true_iff in Hc as [He%String.eqb_eq|[Har Hkr]%andb_prop].
    + destruct (H1 n (le_n n)) as [Hn _]. apply Hn. rewrite <- He. by apply list_elem_of_fmap_2.
    + apply bool_decide_eq_true in Hkr. assert (Hin : r ∈ List.filter (active_with (violation_key wanted)) (violations db)).
      { apply elem_of_filter_b. split; [done|]. unfold active_with. rewrite <- Hk, Hkr, bool_decide_eq_true_2 by done. exact Har. }
      rewrite Hf in Hin. by apply not_elem_of_nil in Hin.
  - split; cbn.
    + intros m Hm. destruct (H1 m) as [Ho Hc]; [lia|]. split; [|done]. rewrite map_app, not_elem_of_app. split; [done|].
      cbn. rewrite Hid. intros He%list_elem_of_singleton%uuid_inj. lia.
    + rewrite map_app. cbn. apply NoDup_app. split; [done|]. split; [|apply NoDup_singleton].
      intros i Hi ->%list_elem_of_singleton. rewrite Hid in Hi. by destruct (H1 n (le_n n)).
    + intros r [Hr|Hr%list_elem_of_singleton]%elem_of_app; [by apply H3|]. rewrite Hr, Hid. apply uuid_nonempty.
    + intros k. rewrite List.filter_app, length_app. cbn. rewrite Hnk. destruct (decide (k = violation_key wanted)) as [->|Hne].
      * rewrite Hf, bool_decide_eq_true_2 by done. cbn. lia.
      * rewrite bool_decide_eq_false_2 by done. cbn. specialize (H4 k). lia.
    + intros o Ho. rewrite map_app. apply elem_of_app. left. by apply H5.
  - split.
    + rewrite List.filter_app, Hf. cbn. by rewrite Hnk, bool_decide_eq_true_2.
    + exists new. rewrite Hid. split; [done|]. left. by rewrite Hk.
    + intros p Hp. rewrite List.filter_app. cbn. rewrite Hp; [by rewrite app_nil_r|]. by rewrite Hnk, bool_decide_eq_true_2.
    + rewrite map_app. intros i Hi. apply elem_of_app. by left.
Qed.

Lemma write_violation_run ids w s wanted n db :
  record_ok n db -> violation_columns ids w s EmptyString = Ok wanted ->
  exists r n' rows, returns (write_violation ids w s wanted) (n, db) (vi_id r) (n', set_violations rows db) /\
    (n <= n')%nat /\ record_ok n' (set_violations rows db) /\
    written ids w s (violation_key wanted) (violations db) rows r.
Proof using uuid_inj uuid_nonempty.
  intros Hok Hw. assert (Hl := rk_active _ _ Hok (violation_key wanted)).
  destruct (List.filter _ (violations db)) as [|old [|]] eqn:Hf; [| |cbn in Hl; lia].
  - destruct (create_write ids w s wanted n db Hok Hw Hf) as (new & Hnew & Hid & Hr & Hok' & Hwr).
    exists new, (Datatypes.S n), (violations db ++ [new]). split; [|split; [lia|done]].
    rewrite Hid. unfold write_violation. apply returns_bind. eexists _, _. split; [by apply returns_gets|]. cbn [snd].
    rewrite (activeViolation_spec n) by done. rewrite Hf. cbn [head fmap option_fmap option_map present mbind option_bind].
    apply returns_bind. eexists _, _. split; [apply returns_fresh; split; reflexivity|]. cbn [fst snd].
    apply returns_bind. eexists _, _. split; [apply returns_of_res; split; [exact Hnew|reflexivity]|].
    apply returns_bind. eexists _, _. split; [exact Hr|]. by apply returns_ret.
  - destruct (update_write ids w s wanted old n db Hok Hw Hf) as (rows & Hr & Hok' & Hwr).
    exists (seen_again wanted old), n, rows. split; [|split; [lia|done]].
    unfold write_violation. apply returns_bind. eexists _, _. split; [by apply returns_gets|]. cbn [snd].
    rewrite (activeViolation_spec n) by done. rewrite Hf. cbn [head fmap option_fmap option_map].
    rewrite (proj2 (present_some _ (vi_id old))).
    2:{ split; [done|]. apply (rk_nonempty n db Hok). by apply (old_in db wanted old). }
    apply returns_bind. eexists _, _. split; [exact Hr|]. by apply returns_ret.
Qed.

(** ** Evidence *)

Lemma add_evidence_in rows new : rows ⊆ add_evidence rows new /\ exists x, x ∈ add_evidence rows new /\ evidence_key x = evidence_key new.
Proof.
  unfold add_evidence. destruct (existsb _ rows) eqn:E.
  - split; [done|]. apply existsb_exists in E as (x & Hx & Hk). apply bool_decide_eq_true in Hk.
    exists x. by rewrite list_elem_of_In.
  - split; [intros x Hx; apply elem_of_app; by left|]. exists new. split; [|done]. apply elem_of_app. right. apply list_elem_of_here.
Qed.

Lemma foldl_evidence rows news :
  rows ⊆ foldl add_evidence rows news /\
  forall y, y ∈ news -> exists x, x ∈ foldl add_evidence rows news /\ evidence_key x = evidence_key y.
Proof.
  revert rows. induction news as [|z news IH]; intros rows; cbn; [split; [done|by intros y ?%not_elem_of_nil]|].
  destruct (add_evidence_in rows z) as [Hs (x & Hx & Hk)]. destruct (IH (add_evidence rows z)) as [Hsub Hall]. split.
  - by etrans.
  - intros y [->|Hy]%elem_of_cons; [exists x; split; [by apply Hsub|done]|by apply Hall].
Qed.

(** ** One violation *)

Lemma written_only ids w s k before after r r0 :
  written ids w s k before after r -> NoDup (map vi_id after) -> r0 ∈ before -> vi_id r0 = vi_id r ->
  active_with k r0 = true.
Proof.
  intros [Hrow _ Ho _] Hnd Hr0 Hid. destruct (active_with k r0) eqn:E; [done|].
  assert (Hr : r ∈ List.filter (active_with k) after) by (rewrite Hrow; apply list_elem_of_here).
  apply elem_of_filter_b in Hr as [Hr Ha].
  assert (Hr0' : r0 ∈ List.filter (fun x => negb (active_with k x)) after).
  { rewrite Ho by (intros x ->; done). apply elem_of_filter_b. by rewrite E. }
  apply elem_of_filter_b in Hr0' as [Hr0' _]. rewrite (NoDup_map_inj vi_id after r0 r) in E by done. congruence.
Qed.

Lemma record_violation_run e suppressed found w k n db :
  let ids := catalog (re_artifact e) in
  let s := matchingSuppression suppressed w in
  record_ok n db -> collected_key ids w = Some k ->
  (forall o r, o ∈ violation_occurrences db -> vo_evaluation_id o = w_evaluation_id w -> r ∈ violations db ->
     vi_id r = vo_violation_id o -> active_with k r = false) ->
  exists r i n' rows vf,
    let db' := set_violation_findings vf (set_occurrences
                 (violation_occurrences db ++ [occurrence_columns e w s (vi_id r) i]) (set_violations rows db)) in
    returns (record_violation e suppressed found w) (n, db) tt (n', db') /\ (n <= n')%nat /\ record_ok n' db' /\
    written ids w (bool_decide (is_Some s)) k (violations db) rows r /\
    violation_findings db ⊆ vf /\
    (forall f, f ∈ found -> exists x, x ∈ vf /\ evidence_key x = evidence_key (evidence w (vi_id r) f)).
Proof using uuid_inj uuid_nonempty.
  intros ids s Hok Hkey Hocc.
  destruct (violation_columns_ok _ _ _ (bool_decide (is_Some s)) EmptyString Hkey) as (wanted & Hw).
  destruct (violation_columns_shape _ _ _ _ _ Hw) as (_ & _ & _ & _ & _ & _ & _ & Hk). rewrite Hkey in Hk. injection Hk as ->.
  destruct (write_violation_run ids w _ wanted n db Hok Hw) as (r & n1 & rows & Hr & Hn1 & Hok1 & Hwr).
  assert (Hrin : r ∈ rows).
  { assert (Hr' : r ∈ [r]) by apply list_elem_of_here. rewrite <- (wr_row _ _ _ _ _ _ _ Hwr) in Hr'.
    by apply elem_of_filter_b in Hr' as [? _]. }
  set (occ := occurrence_columns e w s (vi_id r) (uuid n1)).
  set (vf := foldl add_evidence (violation_findings db) (map (evidence w (vi_id r)) found)).
  exists r, (uuid n1), (Datatypes.S n1), rows, vf. cbn zeta. split; [|split; [lia|split; [|split; [done|]]]].
  - unfold record_violation. fold s ids. apply returns_bind. eexists _, _. split; [apply returns_of_res; split; [exact Hw|reflexivity]|].
    apply returns_bind. eexists _, _. split; [exact Hr|].
    apply returns_bind. eexists _, _. split; [apply returns_fresh; split; reflexivity|]. cbn [fst snd].
    apply returns_bind. eexists _, _. split.
    { apply insert_unique_run. cbn. apply not_true_iff_false. intros (o & Ho & Hc)%existsb_exists.
      apply list_elem_of_In in Ho. apply orb_true_iff in Hc as [He%String.eqb_eq|[Hv%String.eqb_eq He%String.eqb_eq]%andb_prop].
      - destruct (rk_fresh _ _ Hok1 n1 (le_n n1)) as [_ Hf]. apply Hf. rewrite <- He. by apply list_elem_of_fmap_2.
      - apply (rk_references _ _ Hok) in Ho as Hin. apply list_elem_of_fmap in Hin as (r0 & Hid & Hr0).
        assert (Ha : active_with (violation_key wanted) r0 = true).
        { eapply written_only; [exact Hwr|exact (rk_ids _ _ Hok1)|done|]. by rewrite <- Hid. }
        rewrite (Hocc o r0) in Ha by done. done. }
    apply returns_modify. split; reflexivity.
  - destruct Hok1 as [H1 H2 H3 H4 H5]. split; cbn; [|done..|].
    + intros m Hm. destruct (H1 m) as [Ha Hb]; [lia|]. split; [done|]. rewrite map_app, not_elem_of_app. split; [done|].
      cbn. intros He%list_elem_of_singleton%uuid_inj. lia.
    + intros o [Ho|Ho%list_elem_of_singleton]%elem_of_app; [by apply H5|]. rewrite Ho. cbn. by apply list_elem_of_fmap_2.
  - destruct (foldl_evidence (violation_findings db) (map (evidence w (vi_id r)) found)) as [Hsub Hall]. split; [done|].
    intros f Hf. apply Hall. by apply list_elem_of_fmap_2.
Qed.
End correct.
