(* ===== verification/ViolationsSpec.v ===== *)
(** * What a recorded evaluation leaves in the tables

    Every collected violation is stored once, with one occurrence; nothing else
    changes; and two violations of one key abort the whole recording. *)

From S2P Require Import Prelude JsString JsNum JsValue Jsonb Sql Effects Constants Identity ConnectorTypes Findings Snapshots Effective Decision Violations ViolationsCorrect.
Local Open Scope string_scope.
Local Open Scope list_scope.
Local Open Scope Z_scope.

Section spec.
Context `{Env} (uuid_inj : forall m n, uuid m = uuid n -> m = n) (uuid_nonempty : forall n, uuid n <> EmptyString).
Context `{TextDriver}.

Section loop.
Context (e : recorded_evaluation) (suppressed : list suppression_row).
Context (found : list (project_finding_row * finding_version_row)).
#[local] Abbreviation ids := (catalog (re_artifact e)).

(** A collected violation and its occurrence: the one active violation of its key
    is the new one or an update of the one there was; the occurrence is of it; and
    the open findings are linked to it. *)
Definition recorded (db db' : record_db) (w : CollectedViolationForWrite) (o : occurrence_row) : Prop :=
  let s := matchingSuppression suppressed w in
  exists k r, collected_key ids w = Some k /\ List.filter (active_with k) (violations db') = [r] /\
    recorded_as ids w (bool_decide (is_Some s)) (violations db) r /\
    (exists i, o = occurrence_columns e w s (vi_id r) i) /\
    forall f, f ∈ found -> exists x, x ∈ violation_findings db' /\ evidence_key x = evidence_key (evidence w (vi_id r) f).

(** Rows that are not the active violation of a collected key. *)
Definition not_of (ws : list CollectedViolationForWrite) (p : violation_row -> bool) : Prop :=
  forall w k x, w ∈ ws -> collected_key ids w = Some k -> active_with k x = true -> p x = false.

(** The tables the recording of violations leaves alone. *)
Definition other_tables (db : record_db) :=
  (policy_evaluations db, policy_evaluation_policies db, policy_evaluation_rules db, violation_suppressions db).

Record loop_ok (db : record_db) (ws : list CollectedViolationForWrite) (n' : nat) (db' : record_db) : Prop := {
  lo_ok : record_ok n' db';
  lo_tables : other_tables db' = other_tables db;
  lo_recorded : exists occs, violation_occurrences db' = violation_occurrences db ++ occs /\ Forall2 (recorded db db') ws occs;
  lo_others p : not_of ws p -> List.filter p (violations db') = List.filter p (violations db);
  lo_evidence : violation_findings db ⊆ violation_findings db'
}.

Lemma active_with_inj k k' x : active_with k x = true -> active_with k' x = true -> k = k'.
Proof. unfold active_with. intros [H1%bool_decide_eq_true _]%andb_prop [H2%bool_decide_eq_true _]%andb_prop. congruence. Qed.

Lemma recorded_as_filter w s before before' r k :
  collected_key ids w = Some k -> List.filter (active_with k) before = List.filter (active_with k) before' ->
  recorded_as ids w s before r -> recorded_as ids w s before' r.
Proof.
  intros Hk Hf (new & Hn & Hr). exists new. split; [done|].
  destruct (violation_columns_shape _ _ _ _ _ Hn) as (_ & _ & _ & _ & _ & _ & _ & Hk'). rewrite Hk in Hk'. injection Hk' as ->.
  by rewrite <- Hf.
Qed.

Lemma loop_step db ws w k n1 db1 :
  (forall o, o ∈ violation_occurrences db -> vo_evaluation_id o <> w_evaluation_id w) ->
  collected_key ids w = Some k -> (forall w', w' ∈ ws -> collected_key ids w' <> Some k) ->
  loop_ok db ws n1 db1 ->
  exists n2 db2, returns (record_violation e suppressed found w) (n1, db1) tt (n2, db2) /\ (n1 <= n2)%nat /\
    loop_ok db (ws ++ [w]) n2 db2.
Proof using uuid_inj uuid_nonempty.
  intros Hnew Hk Hdist [Hok Htab (occs & Hocc & Hrec) Hoth Hev].
  assert (Hsame : List.filter (active_with k) (violations db1) = List.filter (active_with k) (violations db)).
  { apply Hoth. intros w' k' x Hw' Hk' Hx. apply not_true_iff_false. intros Hx'. apply (Hdist w' Hw').
    rewrite Hk'. f_equal. by eapply active_with_inj. }
  destruct (record_violation_run uuid_inj uuid_nonempty e suppressed found w k n1 db1 Hok Hk)
    as (r & i & n2 & rows & vf & Hr & Hn & Hok2 & Hwr & Hsub & Hall).
  { intros o r Ho He Hr Hid. rewrite Hocc in Ho. apply elem_of_app in Ho as [Ho|Ho]; [by destruct (Hnew o Ho)|].
    destruct (Forall2_elem_of_r _ _ _ _ Hrec Ho) as (w' & Hw' & k' & r' & Hk' & Hf' & _ & (i' & Ho') & _).
    apply not_true_iff_false. intros Ha. apply (Hdist w' Hw'). rewrite Hk'. f_equal.
    assert (Hr' : r' ∈ [r']) by apply list_elem_of_here. rewrite <- Hf' in Hr'. apply elem_of_filter_b in Hr' as [Hr' Ha'].
    rewrite Ho' in Hid. cbn in Hid.
    rewrite (NoDup_map_inj vi_id _ r r' (rk_ids _ _ Hok) Hr Hr' Hid) in Ha. by eapply active_with_inj. }
  cbn zeta in Hr. eexists n2, _. split; [exact Hr|]. split; [done|]. split.
  - exact Hok2.
  - exact Htab.
  - eexists (occs ++ [_]). cbn. rewrite Hocc, <- app_assoc. split; [done|]. apply Forall2_app.
    + eapply Forall2_impl_elem; [exact Hrec|]. intros w' o Hw' _ (k' & r' & Hk' & Hf' & Hra' & Hoc' & Hev').
      exists k', r'. split; [done|]. split; [|split; [done|split; [done|]]].
      * cbn. rewrite (wr_others _ _ _ _ _ _ _ Hwr); [done|]. intros x Hx. apply not_true_iff_false. intros Hx'.
        apply (Hdist w' Hw'). rewrite Hk'. f_equal. by eapply active_with_inj.
      * intros f Hf. destruct (Hev' f Hf) as (x & Hx & Hxk). exists x. split; [by apply Hsub|done].
    + constructor; [|done]. exists k, r. split; [done|]. split; [apply (wr_row _ _ _ _ _ _ _ Hwr)|].
      split; [eapply recorded_as_filter; [exact Hk|exact Hsame|apply (wr_recorded _ _ _ _ _ _ _ Hwr)]|].
      split; [by exists i|exact Hall].
  - intros p Hp. cbn. rewrite (wr_others _ _ _ _ _ _ _ Hwr).
    + apply Hoth. intros w' k' x Hw'. apply Hp. apply elem_of_app. by left.
    + intros x. apply (Hp w); [|done]. apply elem_of_app. right. apply list_elem_of_here.
  - cbn. by etrans.
Qed.

Lemma loop_run db n ws :
  (forall o, o ∈ violation_occurrences db -> vo_evaluation_id o <> re_evaluationId e) ->
  (forall w, w ∈ ws -> w_evaluation_id w = re_evaluationId e) ->
  (forall w, w ∈ ws -> is_Some (collected_key ids w)) -> NoDup (map (collected_key ids) ws) -> record_ok n db ->
  exists us n' db', returns (mapM_ (record_violation e suppressed found) ws) (n, db) us (n', db') /\ (n <= n')%nat /\ loop_ok db ws n' db'.
Proof using uuid_inj uuid_nonempty.
  intros Hnew Heval Hsome Hnd Hok.
  destruct (mapM_returns (record_violation e suppressed found) (fun ws s => (n <= s.1)%nat /\ loop_ok db ws s.1 s.2) ws (n, db))
    as (us & [n' db'] & Hr & Hn & Hl).
  - intros ws1 w ws2 [n1 db1] -> [Hn1 Hl1]. destruct (Hsome w) as [k Hk]; [apply elem_of_app; right; apply list_elem_of_here|].
    destruct (loop_step db ws1 w k n1 db1) as (n2 & db2 & Hr & Hn2 & Hl2).
    + intros o Ho. rewrite Heval by (apply elem_of_app; right; apply list_elem_of_here). by apply Hnew.
    + done.
    + intros w' Hw' Hk'. rewrite map_app in Hnd. apply NoDup_app in Hnd as (_ & Hd & _).
      apply (Hd (collected_key ids w')); [by apply list_elem_of_fmap_2|]. cbn. rewrite Hk', Hk. apply list_elem_of_here.
    + exact Hl1.
    + exists tt, (n2, db2). split; [done|]. cbn in *. split; [lia|done].
  - cbn. split; [lia|]. split; try done. exists []. by rewrite app_nil_r.
  - by exists us, n', db'.
Qed.
End loop.

(** ** The whole recording *)

(** The collected violations are of this evaluation, have different keys and fit
    the columns; and the policies' modes do. *)
Record recordable (e : recorded_evaluation) : Prop := {
  rc_evaluation w : w ∈ re_violations e -> w_evaluation_id w = re_evaluationId e;
  rc_keys w : w ∈ re_violations e -> is_Some (collected_key (catalog (re_artifact e)) w);
  rc_distinct : NoDup (map (collected_key (catalog (re_artifact e))) (re_violations e));
  rc_modes p : p ∈ snap_policies (re_policySnapshot e) -> is_ok (required_text (sp_enforcementMode p)) = true
}.

(** No row of the tables is of this evaluation. *)
Definition unrecorded (e : recorded_evaluation) (db : record_db) : Prop :=
  existsb (fun r => String.eqb (pe_id r) (re_evaluationId e)) (policy_evaluations db) = false /\
  forall o, o ∈ violation_occurrences db -> vo_evaluation_id o <> re_evaluationId e.

Lemma policy_rows_ok e : recordable e ->
  exists rows, map_res (policy_columns e (blockingPolicies (re_violations e))) (imap pair (snap_policies (re_policySnapshot e))) = Ok rows.
Proof.
  intros Hrc. apply is_ok_spec, map_res_total. intros [i p] Hp. apply list_elem_of_lookup in Hp as [j Hj].
  rewrite list_lookup_imap in Hj. destruct (snap_policies _ !! j) as [q|] eqn:E; [|done]. cbn in Hj. injection Hj as <- <-.
  unfold policy_columns. cbn [snd]. apply list_elem_of_lookup_2 in E. apply (rc_modes e Hrc) in E.
  by destruct (required_text (sp_enforcementMode q)).
Qed.

Lemma record_run findings e n db :
  record_ok n db -> unrecorded e db -> recordable e ->
  let at_ := clock n in
  let suppressed := suppressions_in_force e at_ db in
  exists n' db' occs, returns (recordPolicyEvaluationWithViolations findings e) (n, db) tt (n', db') /\
    record_ok n' db' /\
    policy_evaluations db' = policy_evaluations db ++ [evaluation_columns e at_] /\
    violation_occurrences db' = violation_occurrences db ++ occs /\
    Forall2 (recorded e suppressed (currentProjectFindings e at_ findings) db db') (re_violations e) occs /\
    (forall p, not_of e (re_violations e) p -> List.filter p (violations db') = List.filter p (violations db)).
Proof using uuid_inj uuid_nonempty.
  intros Hok [Hun1 Hun2] Hrc at_ suppressed. destruct (policy_rows_ok e Hrc) as (rows & Hrows).
  set (db1 := set_evaluations (policy_evaluations db ++ [evaluation_columns e at_]) db).
  set (db2 := set_evaluation_policies (policy_evaluation_policies db1 ++ rows) db1).
  set (db3 := set_evaluation_rules (policy_evaluation_rules db2
    ++ map (rule_columns e (matchedViolations (re_violations e))) (allRules (re_policySnapshot e))) db2).
  assert (Hok3 : record_ok (S n) db3).
  { destruct Hok as [H1 H2 H3 H4 H5]. split; cbn; [|done..]. intros m Hm. apply H1. lia. }
  destruct (loop_run e suppressed (currentProjectFindings e at_ findings) db3 (S n) (re_violations e))
    as (us & n' & db' & Hr & _ & [Hok' Htab (occs & Hocc & Hrec) Hoth _]);
    [exact Hun2|apply Hrc|apply Hrc|apply Hrc|exact Hok3|].
  exists n', db', occs. split; [|split; [done|split; [|split; [exact Hocc|split; [exact Hrec|exact Hoth]]]]].
  - unfold recordPolicyEvaluationWithViolations. apply returns_bind. eexists _, _. split; [apply returns_now; split; reflexivity|].
    cbn [fst snd]. apply returns_bind. exists (Ok tt), (n', db'). split; [|by apply returns_ret].
    apply returns_attempt. apply returns_transaction. fold at_. unfold recordEvaluationTx.
    apply returns_bind. eexists _, _. split; [by apply insert_unique_run|]. fold db1.
    apply returns_bind. eexists _, _. split; [apply returns_of_res; split; [exact Hrows|reflexivity]|].
    apply returns_bind. eexists _, _. split; [apply returns_modify; split; reflexivity|]. cbn [fst snd]. fold db2.
    apply returns_bind. eexists _, _. split; [apply returns_modify; split; reflexivity|]. cbn [fst snd]. fold db3.
    destruct (re_violations e) as [|w ws] eqn:E.
    { cbn [mapM_] in Hr. apply returns_ret in Hr as [-> [= -> ->]]. by apply returns_ret. }
    rewrite <- E in *. apply returns_bind. eexists _, _. split; [apply returns_gets; split; reflexivity|]. cbn [snd].
    apply returns_bind. exists us, (n', db'). split; [exact Hr|]. by apply returns_ret.
  - injection Htab as Ht _ _ _. exact Ht.
Qed.

(** C28: an evaluation is recorded whole: when its violations have different keys,
    the transaction commits; the evaluation gets one row; every collected violation
    ends as the one active violation of its key, which was updated if there was one
    and created otherwise, is suppressed exactly when a suppression in force covers
    it, and gets one occurrence; the version's open findings are linked to it; every
    other violation stays as it was. *)
Theorem violations_recorded findings e n db :
  record_ok n db -> unrecorded e db -> recordable e ->
  let at_ := clock n in
  let suppressed := suppressions_in_force e at_ db in
  exists n' db' occs, returns (recordPolicyEvaluationWithViolations findings e) (n, db) tt (n', db') /\
    record_ok n' db' /\
    policy_evaluations db' = policy_evaluations db ++ [evaluation_columns e at_] /\
    violation_occurrences db' = violation_occurrences db ++ occs /\
    Forall2 (recorded e suppressed (currentProjectFindings e at_ findings) db db') (re_violations e) occs /\
    (forall p, not_of e (re_violations e) p -> List.filter p (violations db') = List.filter p (violations db)).
Proof using uuid_inj uuid_nonempty. by apply record_run. Qed.
End spec.

(** ** Witness *)

(** Two violations of a version of which one is active already. *)
Definition violations_example_artifact : ArtifactIdentity :=
  buildArtifactIdentity
    {| ai_input := {| i_ecosystem := "npm"; i_package := "left-pad"; i_version := Some "1.3.0" |};
       ai_source := None; ai_parser_version := None |}
    {| package_id := Some "P"; package_version_id := Some "V" |}.

Definition violations_example_violation (rule binding : string) : CollectedViolationForWrite :=
  {| w_violation := {| rule_id := Some rule; rule_key := Some "rk"; policy_id := Some "pol";
       policy_rule_binding_id := Some binding; policy_project_binding_id := None; recommended_remediation := JNull;
       severity := JStr "high"; code := JStr "CRIT"; message := "no"; enforcement_mode := JStr "enforcing";
       blocked := true |};
     w_project_token_id := None; w_tenant_id := "ten"; w_project_id := "proj"; w_entity_type := "artifact";
     w_evaluation_id := "E"; w_evaluated_at := 7 |}.

Definition violations_example_evaluation : recorded_evaluation :=
  {| re_evaluationId := "E"; re_tenant_id := "ten"; re_project_id := "proj"; re_artifact := violations_example_artifact;
     re_decision := DECISION.BLOCK; re_policiesEvaluated := 1; re_rulesEvaluated := 2; re_rulesMatched := 2;
     re_connectorSnapshotMeta := []; re_durationMs := 5; re_eventId := None; re_fieldValues := [];
     re_policySnapshot := {| resolvedAt := 0; snap_tenantId := "ten"; snap_projectId := "proj"; snap_policies := []; allRules := [] |};
     re_violations := [violations_example_violation "r1" "rb1"; violations_example_violation "r2" "rb2"] |}.

Definition violations_example_db : record_db :=
  {| policy_evaluations := []; policy_evaluation_policies := []; policy_evaluation_rules := [];
     violations := match @violation_columns example_driver (catalog violations_example_artifact)
                           (violations_example_violation "r1" "rb1") false "0" with Ok r => [r] | _ => [] end;
     violation_occurrences := []; violation_findings := [];
     violation_suppressions := [{| su_id := "S"; su_tenant_id := "ten"; su_project_id := None; su_package_id := Some "P";
                                   su_package_version_id := Some "V"; su_rule_key := Some "rk"; su_expires_at := None |}] |}.

Lemma violations_example_ok : @record_ok example_env 1 violations_example_db.
Proof.
  split.
  - intros m Hm. split; [|apply not_elem_of_nil]. intros Hin%list_elem_of_singleton.
    apply (example_uuid_inj m 0) in Hin. lia.
  - apply NoDup_singleton.
  - by intros r ->%list_elem_of_singleton.
  - intros k. etrans; [apply filter_length_le|]. cbn. lia.
  - intros o Ho. by apply not_elem_of_nil in Ho.
Qed.

Lemma violations_recorded_witness :
  exists n' db' occs, @returns record_db _ (@recordPolicyEvaluationWithViolations example_env example_driver
      {| t_findings := []; finding_versions := []; project_findings := [] |} violations_example_evaluation)
      (1%nat, violations_example_db) tt (n', db') /\
    violation_occurrences db' = occs /\ length occs = 2%nat.
Proof.
  destruct (@violations_recorded example_env example_uuid_inj example_uuid_nonempty example_driver
    {| t_findings := []; finding_versions := []; project_findings := [] |} violations_example_evaluation 1 violations_example_db)
    as (n' & db' & occs & Hr & _ & _ & Hocc & Hrec & _).
  - exact violations_example_ok.
  - split; [reflexivity|]. intros o Ho. by apply not_elem_of_nil in Ho.
  - split.
    + intros w [->|[->|[]%not_elem_of_nil]%elem_of_cons]%elem_of_cons; reflexivity.
    + intros w [->|[->|[]%not_elem_of_nil]%elem_of_cons]%elem_of_cons; by eexists.
    + apply (bool_decide_unpack _). vm_compute. exact I.
    + intros p Hp. by apply not_elem_of_nil in Hp.
  - exists n', db', occs. split; [exact Hr|]. split; [exact Hocc|]. by rewrite <- (Forall2_length _ _ _ Hrec).
Defined.
