(* ===== verification/Tenancy.v ===== *)
(** * Tables of the tenants (services/api/src/db/schema/tenancy.ts)

    Members, projects and their tokens, without the times rows were created and
    updated at.  A project that is not deleted is in force until
    [VALID_TO_INFINITY]. *)

From S2P Require Import Prelude Sql.

Record membership_row := { mb_id : string; mb_tenant_id : string; mb_user_id : string; mb_role : string }.

Record project_row := { pj_id : string; pj_tenant_id : string; pj_name : string; pj_effective_to : timestamp }.

Record project_member_row := { pmb_id : string; pmb_project_id : string; pmb_tenant_id : string; pmb_user_id : string }.

Record project_token_row := {
  tk_id : string; tk_project_id : string; tk_tenant_id : string; tk_name : string;
  tk_owner_user_id : string; tk_created_by_user_id : string; tk_token_hash : string; tk_token_prefix : string;
  tk_last_used_at : option timestamp; tk_expires_at : option timestamp; tk_revoked_at : option timestamp;
  tk_revoked_by_user_id : option string
}.

Record entitlement_row := {
  te_tenant_id : string; te_allowed_ecosystems : option (list string); te_serve_mode : string;
  te_cache_ttl_seconds : Z
}.

(** A token used at a time, and one revoked. *)
Definition used_token (at_ : timestamp) (t : project_token_row) : project_token_row :=
  {| tk_id := tk_id t; tk_project_id := tk_project_id t; tk_tenant_id := tk_tenant_id t; tk_name := tk_name t;
     tk_owner_user_id := tk_owner_user_id t; tk_created_by_user_id := tk_created_by_user_id t;
     tk_token_hash := tk_token_hash t; tk_token_prefix := tk_token_prefix t; tk_last_used_at := Some at_;
     tk_expires_at := tk_expires_at t; tk_revoked_at := tk_revoked_at t;
     tk_revoked_by_user_id := tk_revoked_by_user_id t |}.

Definition revoked_token (at_ : timestamp) (by_ : string) (t : project_token_row) : project_token_row :=
  {| tk_id := tk_id t; tk_project_id := tk_project_id t; tk_tenant_id := tk_tenant_id t; tk_name := tk_name t;
     tk_owner_user_id := tk_owner_user_id t; tk_created_by_user_id := tk_created_by_user_id t;
     tk_token_hash := tk_token_hash t; tk_token_prefix := tk_token_prefix t; tk_last_used_at := tk_last_used_at t;
     tk_expires_at := Some at_; tk_revoked_at := Some at_; tk_revoked_by_user_id := Some by_ |}.

Record tenancy_db := {
  memberships : list membership_row; projects : list project_row; project_members : list project_member_row;
  project_tokens : list project_token_row; tenant_entitlements : list entitlement_row
}.

Definition set_memberships (l : list membership_row) (db : tenancy_db) : tenancy_db :=
  {| memberships := l; projects := projects db; project_members := project_members db;
     project_tokens := project_tokens db; tenant_entitlements := tenant_entitlements db |}.
Definition set_projects (l : list project_row) (db : tenancy_db) : tenancy_db :=
  {| memberships := memberships db; projects := l; project_members := project_members db;
     project_tokens := project_tokens db; tenant_entitlements := tenant_entitlements db |}.
Definition set_project_members (l : list project_member_row) (db : tenancy_db) : tenancy_db :=
  {| memberships := memberships db; projects := projects db; project_members := l;
     project_tokens := project_tokens db; tenant_entitlements := tenant_entitlements db |}.
Definition set_tokens (l : list project_token_row) (db : tenancy_db) : tenancy_db :=
  {| memberships := memberships db; projects := projects db; project_members := project_members db;
     project_tokens := l; tenant_entitlements := tenant_entitlements db |}.
