(* ===== verification/Rbac.v ===== *)
(** * Roles and capabilities (services/api/src/middleware/rbac.ts, http/guards.ts)

    What a member of a tenant may do: the capabilities of its role, the projects
    it can reach, and the guards the routes put before their work.  A guard
    returns the value a route goes on with or the error response it ends with.

    The checks of the validation library on the formats of identifiers and
    addresses are a class of predicates; the roles of a request body are checked by
    the program's own predicates. *)

From S2P Require Import Prelude JsString Sql Effects Tenancy.
Local Open Scope string_scope.
Local Open Scope list_scope.
Local Open Scope Z_scope.

(** ** Roles *)

Inductive TenantRole : Type := owner | admin | demo | member | guest.

#[export] Instance TenantRole_eq_dec : EqDecision TenantRole.
Proof. solve_decision. Defined.

(** The names of the roles, in the order of [TENANT_ROLE_METADATA]. *)
Definition TENANT_ROLES : list TenantRole := [owner; admin; demo; member; guest].

Definition role_name (r : TenantRole) : string :=
  match r with owner => "owner" | admin => "admin" | demo => "demo" | member => "member" | guest => "guest" end.

Record role_metadata := {
  inviteAssignable : bool; directCreateAssignable : bool; ownerLevel : bool; implicitProjectAccess : bool
}.

Definition TENANT_ROLE_METADATA (r : TenantRole) : role_metadata :=
  match r with
  | owner => {| inviteAssignable := false; directCreateAssignable := false; ownerLevel := true; implicitProjectAccess := true |}
  | admin => {| inviteAssignable := true; directCreateAssignable := true; ownerLevel := true; implicitProjectAccess := true |}
  | demo => {| inviteAssignable := false; directCreateAssignable := true; ownerLevel := false; implicitProjectAccess := true |}
  | member => {| inviteAssignable := true; directCreateAssignable := true; ownerLevel := false; implicitProjectAccess := false |}
  | guest => {| inviteAssignable := true; directCreateAssignable := true; ownerLevel := false; implicitProjectAccess := false |}
  end.

(** [isTenantRole], with the role a name stands for. *)
Definition tenant_role (role : string) : option TenantRole := js_find (fun r => String.eqb (role_name r) role) TENANT_ROLES.

Definition with_role (role : string) (p : TenantRole -> bool) : bool := from_option p false (tenant_role role).

Definition isTenantRole (role : string) : bool := with_role role (fun _ => true).
Definition isAssignableTenantRole (role : string) : bool :=
  with_role role (fun r => inviteAssignable (TENANT_ROLE_METADATA r)).
Definition isDirectCreatableTenantRole (role : string) : bool :=
  with_role role (fun r => directCreateAssignable (TENANT_ROLE_METADATA r)).
Definition isManageableTenantRole (role : string) : bool := with_role role (fun r => negb (bool_decide (r = owner))).
Definition isOwnerOrAdmin (role : string) : bool := with_role role (fun r => ownerLevel (TENANT_ROLE_METADATA r)).
Definition hasImplicitProjectAccess (role : string) : bool :=
  with_role role (fun r => implicitProjectAccess (TENANT_ROLE_METADATA r)).

Definition ASSIGNABLE_TENANT_ROLES : list TenantRole :=
  List.filter (fun r => inviteAssignable (TENANT_ROLE_METADATA r)) TENANT_ROLES.
Definition DIRECT_CREATABLE_TENANT_ROLES : list TenantRole :=
  List.filter (fun r => directCreateAssignable (TENANT_ROLE_METADATA r)) TENANT_ROLES.

(** ** Capabilities *)

Definition CAPABILITY_KEYS : list string :=
  ["overview.read"; "projects.read"; "projects.create"; "projects.delete"; "events.read_tenant"; "events.read_project";
   "performance.read"; "policy.read_tenant"; "policy.read_project"; "policy.write_tenant"; "policy.write_project";
   "rules.read"; "rules.write"; "policy_assignments.read"; "policy_assignments.write"; "policy_preview.read";
   "connectors.read"; "connectors.write"; "security.read_tenant"; "security.read_project"; "security.write";
   "packages.read_tenant"; "packages.read_project"; "packages.rebuild"; "tokens.read_all"; "tokens.read_own";
   "tokens.create"; "tokens.revoke_any"; "tokens.revoke_own"; "tokens.rotate_any"; "tokens.rotate_own"; "members.read";
   "members.invite"; "members.invite_admin"; "members.invite_unscoped"; "members.write_roles";
   "members.create_password_user"; "members.reset_password"; "settings.read"; "settings.write"; "tenant.name.write";
   "proxies.read"; "proxies.write"; "platform.proxies.set_all_tenants"; "mcp.read"; "mcp.connect"; "mcp.use_project";
   "mcp.use_tenant"; "violations.read_tenant"; "violations.read_project"; "violations.write"].

Definition ROLE_CAPABILITIES (r : TenantRole) : list string :=
  match r with
  | owner => CAPABILITY_KEYS
  | admin => List.filter (fun c => negb (existsb (String.eqb c)
                ["mcp.use_tenant"; "members.create_password_user"; "tenant.name.write"])) CAPABILITY_KEYS
  | demo =>
      ["overview.read"; "projects.read"; "events.read_tenant"; "events.read_project"; "performance.read";
       "policy.read_tenant"; "policy.read_project"; "rules.read"; "policy_assignments.read"; "policy_preview.read";
       "connectors.read"; "security.read_tenant"; "security.read_project"; "packages.read_tenant";
       "packages.read_project"; "tokens.read_own"; "tokens.create"; "settings.read"; "proxies.read"; "mcp.read";
       "mcp.connect"; "mcp.use_project"; "violations.read_tenant"; "violations.read_project"]
  | member =>
      ["overview.read"; "projects.read"; "projects.create"; "events.read_project"; "policy.read_tenant";
       "policy.read_project"; "rules.read"; "policy_assignments.read"; "policy_preview.read"; "connectors.read";
       "security.read_project"; "packages.read_project"; "tokens.read_own"; "tokens.create"; "tokens.revoke_own";
       "tokens.rotate_own"; "members.invite"; "members.invite_unscoped"; "proxies.read"; "mcp.read"; "mcp.connect";
       "mcp.use_project"; "violations.read_project"]
  | guest =>
      ["overview.read"; "projects.read"; "events.read_project"; "security.read_project"; "packages.read_project";
       "violations.read_project"]
  end.

Record CapabilityContext := {
  cap_hasProjectAccess : option bool; cap_tenantKind : option string; cap_ownsToken : option bool
}.

Definition no_context : CapabilityContext :=
  {| cap_hasProjectAccess := None; cap_tenantKind := None; cap_ownsToken := None |}.

Definition canPerform (role : TenantRole) (capability : string) (context : CapabilityContext) : bool :=
  if startsWith capability "platform." && negb (bool_decide (cap_tenantKind context = Some "platform")) then false
  else if negb (existsb (String.eqb capability) (ROLE_CAPABILITIES role)) then false
  else if existsb (String.eqb capability)
            ["security.read_project"; "packages.read_project"; "violations.read_project"; "policy.read_project";
             "events.read_project"; "mcp.use_project"] then default true (cap_hasProjectAccess context)
  else if existsb (String.eqb capability) ["tokens.revoke_own"; "tokens.rotate_own"] then default false (cap_ownsToken context)
  else true.

Definition getInvitableTenantRoles (role : TenantRole) : list TenantRole :=
  if canPerform role "members.invite_admin" no_context then ASSIGNABLE_TENANT_ROLES
  else List.filter (fun candidate => negb (bool_decide (candidate = admin))) ASSIGNABLE_TENANT_ROLES.

Definition canInviteTenantRole (actorRole targetRole : TenantRole) : bool :=
  existsb (fun r => bool_decide (r = targetRole)) (getInvitableTenantRoles actorRole).

Definition canInviteWithoutProjectScope (role : TenantRole) : bool := canPerform role "members.invite_unscoped" no_context.

Definition getDirectCreatableTenantRoles (role : TenantRole) : list TenantRole :=
  if canPerform role "members.create_password_user" no_context then DIRECT_CREATABLE_TENANT_ROLES else [].

Definition canDirectCreateTenantRole (actorRole targetRole : TenantRole) : bool :=
  existsb (fun r => bool_decide (r = targetRole)) (getDirectCreatableTenantRoles actorRole).

Definition shouldAutoJoinCreatedProject (role : TenantRole) : bool := bool_decide (role = member).

(** ** Responses (http/responses.ts) *)

Record error_response := { er_status : Z; er_code : string; er_message : string; er_detail : option string }.

(** [HttpResult]: what a route goes on with, or the response it ends with. *)
Definition HttpResult (A : Type) : Type := A + error_response.

Definition okResult {A} (a : A) : HttpResult A := inl a.
Definition errorResult {A} (status : Z) (code message : string) (detail : option string) : HttpResult A :=
  inr {| er_status := status; er_code := code; er_message := message; er_detail := detail |}.

(** [if (!result.ok) return result.response] *)
Definition http_bind {S A B} (e : M S (HttpResult A)) (k : A -> M S (HttpResult B)) : M S (HttpResult B) :=
  r ← e;
  match r with
  | inl a => k a
  | inr err => mret (inr err)
  end.

Notation "'let?' x ':=' e 'in' k" := (http_bind e (fun x => k))
  (at level 10, x pattern, e at level 150, k at level 200,
   format "'let?'  x  ':='  e  'in' '//' k").

(** The formats the validation library checks. *)
Class Formats : Type := { is_uuid : string -> bool; is_email : string -> bool }.

(** ** The caller (middleware/auth.ts), with the parameters of the path *)

Record AuthContext := {
  au_tenantId : string; au_tenantKind : string; au_userId : string; au_role : string;
  au_param : string -> option string
}.

Section guards.
Context `{Formats}.

Definition validateUuidParam (c : AuthContext) (name label : string) : HttpResult string :=
  match au_param c name with
  | Some value => if is_uuid value then okResult value else errorResult 400 "BAD_REQUEST" (label +:+ " must be a valid UUID") None
  | None => errorResult 400 "BAD_REQUEST" (label +:+ " must be a valid UUID") None
  end.

Definition requireTenantParamAccess (c : AuthContext) : HttpResult string :=
  match validateUuidParam c "tenant_id" "Tenant ID" with
  | inr err => inr err
  | inl tenantId =>
      if String.eqb tenantId (au_tenantId c) then okResult tenantId
      else errorResult 403 "FORBIDDEN" "Access denied to this tenant" None
  end.

Definition requireOwnerOrAdmin (c : AuthContext) : HttpResult unit :=
  if isOwnerOrAdmin (au_role c) then okResult tt else errorResult 403 "FORBIDDEN" "Owner or admin role required" None.

Definition requireTenantOwnerOrAdminAccess (c : AuthContext) : HttpResult string :=
  match requireTenantParamAccess c with
  | inr err => inr err
  | inl tenantId => match requireOwnerOrAdmin c with inr err => inr err | inl _ => okResult tenantId end
  end.

Definition tenant_context (c : AuthContext) : CapabilityContext :=
  {| cap_hasProjectAccess := None; cap_tenantKind := Some (au_tenantKind c); cap_ownsToken := None |}.

Definition requireTenantCapability (c : AuthContext) (capability message : string) : HttpResult unit :=
  if with_role (au_role c) (fun r => canPerform r capability (tenant_context c)) then okResult tt
  else errorResult 403 "FORBIDDEN" message None.

Definition requireTenantCapabilityAccess (c : AuthContext) (capability message : string) : HttpResult string :=
  match requireTenantParamAccess c with
  | inr err => inr err
  | inl tenantId => match requireTenantCapability c capability message with inr err => inr err | inl _ => okResult tenantId end
  end.

(** ** Projects *)

Definition is_current (projectId tenantId : string) (p : project_row) : bool :=
  String.eqb (pj_id p) projectId && String.eqb (pj_tenant_id p) tenantId && (pj_effective_to p =? VALID_TO_INFINITY).

Definition is_member (userId projectId tenantId : string) (m : project_member_row) : bool :=
  String.eqb (pmb_project_id m) projectId && String.eqb (pmb_tenant_id m) tenantId && String.eqb (pmb_user_id m) userId.

Definition checkProjectAccess (userId projectId tenantId role : string) : M tenancy_db bool :=
  if hasImplicitProjectAccess role then mret true
  else gets (fun db => existsb (is_member userId projectId tenantId) (project_members db)).

Definition resolveProjectWithAccess (projectId tenantId userId role : string) (hideForbiddenAsNotFound : bool)
  : M tenancy_db (HttpResult project_row) :=
  project ← gets (fun db => head (List.filter (is_current projectId tenantId) (projects db)));
  match project with
  | None => mret (errorResult 404 "NOT_FOUND" "Project not found" (Some projectId))
  | Some project =>
      hasAccess ← checkProjectAccess userId projectId tenantId role;
      mret (if hasAccess : bool then okResult project
            else if hideForbiddenAsNotFound then errorResult 404 "NOT_FOUND" "Project not found" (Some projectId)
            else errorResult 403 "FORBIDDEN" "Access denied to this project" None)
  end.

Definition requireResolvedProjectAccess (c : AuthContext) (projectId : string) (hideForbiddenAsNotFound : bool)
  : M tenancy_db (HttpResult (string * project_row)) :=
  let? project := resolveProjectWithAccess projectId (au_tenantId c) (au_userId c) (au_role c) hideForbiddenAsNotFound in
  mret (okResult (projectId, project)).

Definition requireProjectAccess (c : AuthContext) (hideForbiddenAsNotFound : bool)
  : M tenancy_db (HttpResult (string * project_row)) :=
  let? projectId := mret (validateUuidParam c "project_id" "Project ID") in
  requireResolvedProjectAccess c projectId hideForbiddenAsNotFound.

(** No list means all projects. *)
Definition listAccessibleProjectIds (c : AuthContext) : M tenancy_db (option (list string)) :=
  if hasImplicitProjectAccess (au_role c) then mret None
  else gets (fun db => Some (map pmb_project_id
         (List.filter (fun m => String.eqb (pmb_user_id m) (au_userId c) && String.eqb (pmb_tenant_id m) (au_tenantId c))
            (project_members db)))).
End guards.
