(* ===== verification/Members.v ===== *)
(** * Members of a tenant (services/api/src/features/tenants/invite-routes.ts,
    member-routes.ts, shared.ts; services/api/src/auth/admin-service.ts)

    Granting access to a tenant, creating accounts, changing roles and resetting
    passwords.  The accounts live in an authentication service the program calls
    over HTTP; its operations are a class over an abstract state, and a call may
    fail at any time.

    The body of a request has passed its schema: the schema's test of the role is
    the program's own and is part of the route. *)

From S2P Require Import Prelude JsString Sql Effects Tenancy Rbac.
Local Open Scope string_scope.
Local Open Scope list_scope.
Local Open Scope Z_scope.

(** ** The authentication service *)

Record AuthAdminUser := { us_id : string; us_email : option string; us_email_confirmed_at : option string; us_provider : option string }.

(** [AuthAdminServiceError], and the failures of the connection. *)
Inductive auth_error : Type := misconfigured | upstream (status : Z) | unreachable.

Definition auth_result (A : Type) : Type := A + auth_error.

(** The requests of admin-service.ts, on the service's accounts. *)
Class AuthService : Type := {
  accounts : Type;
  list_users : accounts -> auth_result (list AuthAdminUser) * accounts;
  invite_user (email : string) : accounts -> auth_result AuthAdminUser * accounts;
  create_user (email password : string) : accounts -> auth_result AuthAdminUser * accounts;
  delete_user (id : string) : accounts -> auth_result unit * accounts;
  get_user (id : string) : accounts -> auth_result AuthAdminUser * accounts;
  update_password (id password : string) : accounts -> auth_result unit * accounts
}.

Section members.
Context `{Env} `{Formats} `{AuthService}.

(** The tables and the accounts. *)
Record access_db := { tenancy : tenancy_db; auth : accounts }.

Definition set_tenancy_of (t : tenancy_db) (db : access_db) : access_db := {| tenancy := t; auth := auth db |}.
Definition set_auth (a : accounts) (db : access_db) : access_db := {| tenancy := tenancy db; auth := a |}.

Definition AM : Type -> Type := M access_db.

Definition on_tenancy_of {A} : M tenancy_db A -> AM A := zoom tenancy set_tenancy_of.

(** One request to the service. *)
Definition call {A} (request : accounts -> auth_result A * accounts) : AM (auth_result A) :=
  r ← gets (fun db => request (auth db));
  _ ← modify (set_auth r.2);
  mret r.1.

Definition findUserByEmail (email : string) : AM (auth_result (option AuthAdminUser)) :=
  let normalizedEmail := toLowerCase (trim email) in
  if negb (nonempty normalizedEmail) then mret (inl None)
  else
    users ← call list_users;
    mret (match users with
          | inl users => inl (js_find (fun u => opt_eq ((fun e => toLowerCase (trim e)) <$> us_email u) normalizedEmail) users)
          | inr err => inr err
          end).

(** [null] for an account that does not exist. *)
Definition getUser (userId : string) : AM (auth_result (option AuthAdminUser)) :=
  r ← call (get_user userId);
  mret (match r with
        | inl user => inl (Some user)
        | inr (upstream 404) => inl None
        | inr err => inr err
        end).

(** The response to a failed call. *)
Definition auth_failure {A} (err : auth_error) (misconfiguredMessage code message : string) : HttpResult A :=
  match err with
  | misconfigured => errorResult 500 "SERVER_MISCONFIGURED" misconfiguredMessage None
  | _ => errorResult 500 code message None
  end.

(** ** Rows *)

Definition new_membership (tenantId userId role id : string) : membership_row :=
  {| mb_id := id; mb_tenant_id := tenantId; mb_user_id := userId; mb_role := role |}.

Definition same_membership (new r : membership_row) : bool :=
  String.eqb (mb_tenant_id r) (mb_tenant_id new) && String.eqb (mb_user_id r) (mb_user_id new).

Definition new_project_member (projectId tenantId userId id : string) : project_member_row :=
  {| pmb_id := id; pmb_project_id := projectId; pmb_tenant_id := tenantId; pmb_user_id := userId |}.

Definition same_project_member (new r : project_member_row) : bool :=
  String.eqb (pmb_project_id r) (pmb_project_id new) && String.eqb (pmb_user_id r) (pmb_user_id new).

Definition insert_membership (tenantId userId role : string) : M tenancy_db unit :=
  id ← fresh;
  insert_unique memberships set_memberships same_membership (new_membership tenantId userId role id).

Definition insert_project_member (projectId tenantId userId : string) : M tenancy_db unit :=
  id ← fresh;
  insert_unique project_members set_project_members same_project_member (new_project_member projectId tenantId userId id).

(** The membership of a user in a tenant. *)
Definition membership_of (userId tenantId : string) (db : tenancy_db) : option membership_row :=
  head (List.filter (fun m => String.eqb (mb_user_id m) userId && String.eqb (mb_tenant_id m) tenantId) (memberships db)).

(** The transaction that records a new member. *)
Definition record_membership (tenantId userId role : string) (scopedProjectId : option string) : M tenancy_db unit :=
  transaction
    (_ ← insert_membership tenantId userId role;
     match scopedProjectId with
     | Some projectId => insert_project_member projectId tenantId userId
     | None => mret tt
     end).

(** A role that reaches every project is not given one. *)
Definition scoped_project (role : string) (project_id : option string) : option string :=
  if hasImplicitProjectAccess role then None else present project_id.

(** A named role in quotes. *)
Definition in_quotes (s : string) : string := String quote s +:+ String quote EmptyString.

(** ** Granting access *)

Record invite_body := { iv_email : string; iv_role : string; iv_project_id : option string }.

Record access_granted := { ag_status : Z; ag_outcome : string; ag_email : string; ag_role : string }.

Definition granted (status : Z) (outcome email role : string) : HttpResult access_granted :=
  okResult {| ag_status := status; ag_outcome := outcome; ag_email := email; ag_role := role |}.

(** A user the service knows. *)
Definition grant_known (tenantId : string) (body : invite_body) (scopedProjectId : option string) (user : AuthAdminUser)
  : AM (HttpResult access_granted) :=
  existing ← gets (fun db => membership_of (us_id user) tenantId (tenancy db));
  match existing with
  | Some m =>
      projectAdded ← match scopedProjectId with
        | Some projectId =>
            inserted ← on_tenancy_of (insert_or_nothing project_members set_project_members
              (fun v => same_project_member (new_project_member v.1 tenantId v.2 EmptyString))
              (fun v => new_project_member v.1 tenantId v.2) (projectId, us_id user));
            mret (bool_decide (is_Some inserted))
        | None => mret false
        end;
      mret (granted 200
        (if bool_decide (is_Some (present (iv_project_id body)))
         then if projectAdded : bool then "project_access_added" else "already_had_project_access"
         else "already_in_tenant") (iv_email body) (mb_role m))
  | None =>
      _ ← on_tenancy_of (record_membership tenantId (us_id user) (iv_role body) scopedProjectId);
      mret (granted 201
        (if bool_decide (is_Some scopedProjectId) then "tenant_and_project_access_added" else "tenant_access_added")
        (iv_email body) (iv_role body))
  end.

(** A user it does not know is invited; an account the invitation created is
    deleted when it cannot be recorded. *)
Definition grant_invited (tenantId : string) (body : invite_body) (scopedProjectId : option string)
  : AM (HttpResult access_granted) :=
  invited ← call (invite_user (iv_email body));
  match invited with
  | inr err => mret (auth_failure err "Invite service is not configured" "INVITE_FAILED" "Failed to send invite email")
  | inl user =>
      let userPreExisted := bool_decide (is_Some (present (us_email_confirmed_at user))) in
      recorded ← attempt (on_tenancy_of (record_membership tenantId (us_id user) (iv_role body) scopedProjectId));
      match recorded with
      | Ok _ => mret (granted 201 "invite_sent" (iv_email body) (iv_role body))
      | Throw _ =>
          _ ← (if userPreExisted then mret tt else _ ← call (delete_user (us_id user)); mret tt);
          mret (errorResult 500 "INVITE_FAILED" "Failed to record membership for invited user" None)
      end
  end.

Definition grantTenantAccess (c : AuthContext) (body : invite_body) : AM (HttpResult access_granted) :=
  let? tenantId := mret (requireTenantParamAccess c) in
  let scopedProjectId := scoped_project (iv_role body) (iv_project_id body) in
  let? _ := mret (requireTenantCapability c "members.invite" "You do not have access to manage tenant access") in
  if negb (with_role (au_role c) (fun actor => with_role (iv_role body) (canInviteTenantRole actor))) then
    mret (errorResult 403 "FORBIDDEN" ("You do not have access to grant users the role " +:+ in_quotes (iv_role body)) None)
  else if with_role (au_role c) (fun actor => negb (canInviteWithoutProjectScope actor)) && bool_decide (scopedProjectId = None) then
    mret (errorResult 400 "BAD_REQUEST" "You must specify a project_id for your current access level" None)
  else
    let? _ := match scopedProjectId with
              | Some projectId =>
                  let? _ := on_tenancy_of (requireResolvedProjectAccess c projectId false) in mret (okResult tt)
              | None => mret (okResult tt)
              end in
    resolved ← findUserByEmail (iv_email body);
    match resolved with
    | inr err => mret (auth_failure err "Auth service is not configured" "LOOKUP_FAILED" "Failed to resolve user by email")
    | inl (Some user) => grant_known tenantId body scopedProjectId user
    | inl None => grant_invited tenantId body scopedProjectId
    end.

(** The route, after [inviteMemberSchema]. *)
Definition invite_route (c : AuthContext) (body : invite_body) : AM (HttpResult access_granted) :=
  if isAssignableTenantRole (iv_role body) then grantTenantAccess c body
  else mret (errorResult 400 EmptyString "Invalid assignable role" None).

(** ** Creating an account *)

Record member_body := { nb_email : string; nb_password : string; nb_role : string; nb_project_id : option string }.

Definition create_member (c : AuthContext) (body : member_body) : AM (HttpResult (string * string)) :=
  let? tenantId := mret (requireTenantParamAccess c) in
  let scopedProjectId := scoped_project (nb_role body) (nb_project_id body) in
  let? _ := mret (requireTenantCapability c "members.create_password_user" "You do not have access to create tenant accounts") in
  if negb (with_role (au_role c) (fun actor => with_role (nb_role body) (canDirectCreateTenantRole actor))) then
    mret (errorResult 403 "FORBIDDEN" ("You do not have access to create users with role " +:+ in_quotes (nb_role body)) None)
  else
    let? _ := match scopedProjectId with
              | Some projectId =>
                  let? _ := on_tenancy_of (requireResolvedProjectAccess c projectId false) in mret (okResult tt)
              | None => mret (okResult tt)
              end in
    created ← call (create_user (nb_email body) (nb_password body));
    match created with
    | inr (upstream status) =>
        if (status =? 400) || (status =? 409) || (status =? 422)
        then mret (errorResult 409 "USER_EXISTS" "A user with that email already exists" None)
        else mret (errorResult 500 "CREATE_MEMBER_FAILED" "Failed to create user" None)
    | inr err => mret (auth_failure err "Auth service is not configured" "CREATE_MEMBER_FAILED" "Failed to create user")
    | inl user =>
        recorded ← attempt (on_tenancy_of (record_membership tenantId (us_id user) (nb_role body) scopedProjectId));
        match recorded with
        | Ok _ => mret (okResult (nb_email body, nb_role body))
        | Throw _ =>
            _ ← call (delete_user (us_id user));
            mret (errorResult 500 "CREATE_MEMBER_FAILED" "Failed to record membership for the new user" None)
        end
    end.

(** The route, after [createMemberSchema]. *)
Definition create_route (c : AuthContext) (body : member_body) : AM (HttpResult (string * string)) :=
  if isDirectCreatableTenantRole (nb_role body) then create_member c body
  else mret (errorResult 400 EmptyString "Invalid direct-creatable role" None).

(** ** Changing a role *)

Definition with_membership_role (role : string) (m : membership_row) : membership_row :=
  {| mb_id := mb_id m; mb_tenant_id := mb_tenant_id m; mb_user_id := mb_user_id m; mb_role := role |}.

Definition patch_member (c : AuthContext) (role : string) : AM (HttpResult membership_row) :=
  let? tenantId := mret (requireTenantParamAccess c) in
  let? targetUserId := mret (validateUuidParam c "user_id" "User ID") in
  let? _ := mret (requireTenantCapability c "members.write_roles" "Access denied") in
  existing ← gets (fun db => membership_of targetUserId tenantId (tenancy db));
  match existing with
  | None => mret (errorResult 404 "NOT_FOUND" "User not found in this tenant" None)
  | Some m =>
      if String.eqb (mb_role m) "owner" then
        mret (errorResult 409 "INVALID_STATE" "Owner role cannot be changed through member management" None)
      else
        _ ← on_tenancy_of (modify (fun db => set_memberships
              (update_where (fun m => String.eqb (mb_user_id m) targetUserId && String.eqb (mb_tenant_id m) tenantId)
                 (with_membership_role role) (memberships db)) db));
        mret (okResult (with_membership_role role m))
  end.

(** The route, after [patchMemberRoleSchema]. *)
Definition patch_route (c : AuthContext) (role : string) : AM (HttpResult membership_row) :=
  if isManageableTenantRole role then patch_member c role
  else mret (errorResult 400 EmptyString "Invalid manageable role" None).

(** ** Resetting a password *)

Definition reset_password (c : AuthContext) (password : string) : AM (HttpResult unit) :=
  let? tenantId := mret (requireTenantParamAccess c) in
  let? targetUserId := mret (validateUuidParam c "user_id" "User ID") in
  let? _ := mret (requireTenantCapability c "members.reset_password" "Access denied") in
  membership ← gets (fun db => membership_of targetUserId tenantId (tenancy db));
  match membership with
  | None => mret (errorResult 404 "NOT_FOUND" "User not found in this tenant" None)
  | Some _ =>
      user ← getUser targetUserId;
      match user with
      | inr err => mret (auth_failure err "Auth service is not configured" "RESET_FAILED" "Failed to reset password")
      | inl None => mret (errorResult 404 "USER_NOT_FOUND" "User not found in auth system" None)
      | inl (Some user) =>
          if negb (bool_decide (us_provider user = Some "email")) then
            mret (errorResult 400 "SSO_ACCOUNT" "Cannot reset password for SSO-managed accounts" None)
          else
            updated ← call (update_password targetUserId password);
            match updated with
            | inl _ => mret (okResult tt)
            | inr err => mret (auth_failure err "Auth service is not configured" "RESET_FAILED" "Failed to reset password")
            end
      end
  end.
End members.
