(* ===== verification/Tokens.v ===== *)
(** * Projects and their tokens (services/api/src/features/projects/service.ts,
    routes.ts; services/api/src/features/tokens/service.ts, routes.ts)

    Creating and deleting projects; creating, revoking and rotating the tokens a
    project's builds authenticate with.  A token is stored as its hash; the random
    bytes and the hash function are parameters.  What the routes only read for the
    dashboard (the lists of projects and tokens) is left out. *)

From S2P Require Import Prelude JsString Sql Effects JsDate Tenancy Rbac Members.
Local Open Scope string_scope.
Local Open Scope list_scope.
Local Open Scope Z_scope.

(** [String.prototype.slice(-6)] *)
Definition last6 (s : string) : string := drop_str (String.length s - 6) s.

Section tokens.
Context `{Env} `{Formats} (randomBytesHex : nat -> string) (hashProjectToken : string -> string).

Definition TM : Type -> Type := M tenancy_db.

(** ** Projects *)

Definition new_project (tenantId name id : string) : project_row :=
  {| pj_id := id; pj_tenant_id := tenantId; pj_name := name; pj_effective_to := VALID_TO_INFINITY |}.

Definition createProject (tenantId userId role name : string) : TM project_row :=
  transaction
    (id ← fresh;
     let row := new_project tenantId name id in
     _ ← modify (fun db => set_projects (projects db ++ [row]) db);
     _ ← (if with_role role shouldAutoJoinCreatedProject then insert_project_member (pj_id row) tenantId userId else mret tt);
     mret row).

Definition ended_project (at_ : timestamp) (p : project_row) : project_row :=
  {| pj_id := pj_id p; pj_tenant_id := pj_tenant_id p; pj_name := pj_name p; pj_effective_to := at_ |}.

(** The tokens of a project that are not revoked, and one of them. *)
Definition unrevoked (projectId : string) (t : project_token_row) : bool :=
  String.eqb (tk_project_id t) projectId && bool_decide (tk_revoked_at t = None).

Definition unrevoked_token (tokenId projectId : string) (t : project_token_row) : bool :=
  String.eqb (tk_id t) tokenId && unrevoked projectId t.

Definition deleteProject (projectId userId : string) : TM (option string) :=
  now ← now_;
  transaction
    (let current p := String.eqb (pj_id p) projectId && (pj_effective_to p =? VALID_TO_INFINITY) in
     deleted ← gets (fun db => head (List.filter current (projects db)));
     _ ← modify (fun db => set_projects (update_where current (ended_project now) (projects db)) db);
     match deleted with
     | None => mret None
     | Some p =>
         _ ← modify (fun db => set_tokens (update_where (unrevoked projectId) (revoked_token now userId) (project_tokens db)) db);
         mret (Some (pj_id p))
     end).

Definition create_project_route (c : AuthContext) (name : string) : TM (HttpResult project_row) :=
  let? tenantId := mret (requireTenantParamAccess c) in
  let? _ := mret (requireTenantCapability c "projects.create" "You do not have access to create projects") in
  project ← createProject tenantId (au_userId c) (au_role c) name;
  mret (okResult project).

Definition delete_project_route (c : AuthContext) : TM (HttpResult string) :=
  let? access := requireProjectAccess c true in
  let? _ := mret (requireTenantCapability c "projects.delete" "You do not have access to delete projects") in
  deleted ← deleteProject access.1 (au_userId c);
  match deleted with
  | None => mret (errorResult 404 "NOT_FOUND" "Project not found" (Some access.1))
  | Some id => mret (okResult id)
  end.

(** ** Tokens *)

Definition canCreateProjectToken (role : string) : bool := with_role role (fun r => canPerform r "tokens.create" no_context).

Inductive token_action : Type := revoke | rotate.

Definition owns (ownsToken : bool) : CapabilityContext :=
  {| cap_hasProjectAccess := None; cap_tenantKind := None; cap_ownsToken := Some ownsToken |}.

Definition canManageExistingToken (role : string) (action : token_action) (ownsToken : bool) : bool :=
  with_role role (fun r =>
    match action with
    | revoke => canPerform r "tokens.revoke_any" no_context || canPerform r "tokens.revoke_own" (owns ownsToken)
    | rotate => canPerform r "tokens.rotate_any" no_context || canPerform r "tokens.rotate_own" (owns ownsToken)
    end).

(** What a caller gets to see of a new token, once. *)
Record new_token := { nt_token : string; nt_id : string; nt_prefix : string; nt_expires_at : option string }.

Definition token_columns (projectId tenantId name ownerUserId createdByUserId token : string) (expiresAt : option timestamp)
    (id : string) : project_token_row :=
  {| tk_id := id; tk_project_id := projectId; tk_tenant_id := tenantId; tk_name := name; tk_owner_user_id := ownerUserId;
     tk_created_by_user_id := createdByUserId; tk_token_hash := hashProjectToken token; tk_token_prefix := last6 token;
     tk_last_used_at := None; tk_expires_at := expiresAt; tk_revoked_at := None; tk_revoked_by_user_id := None |}.

Definition same_hash (new t : project_token_row) : bool := String.eqb (tk_token_hash t) (tk_token_hash new).

Definition shown (token : string) (row : project_token_row) : new_token :=
  {| nt_token := token; nt_id := tk_id row; nt_prefix := tk_token_prefix row; nt_expires_at := toISOString <$> tk_expires_at row |}.

Definition createProjectToken (projectId tenantId userId name : string) (expiresAt : option timestamp) : TM new_token :=
  token ← draw randomBytesHex;
  id ← fresh;
  let row := token_columns projectId tenantId name userId userId token expiresAt id in
  _ ← insert_unique project_tokens set_tokens same_hash row;
  mret (shown token row).

Definition load_token (tokenId projectId : string) : TM (option project_token_row) :=
  gets (fun db => head (List.filter (fun t => String.eqb (tk_id t) tokenId && String.eqb (tk_project_id t) projectId) (project_tokens db))).

Definition revokeProjectToken (tokenId projectId userId : string) : TM (option string) :=
  now ← now_;
  revoked ← gets (fun db => tk_id <$> head (List.filter (unrevoked_token tokenId projectId) (project_tokens db)));
  _ ← modify (fun db => set_tokens (update_where (unrevoked_token tokenId projectId) (revoked_token now userId) (project_tokens db)) db);
  mret revoked.

Definition rotateProjectToken (tokenId projectId tenantId userId : string) (existing : project_token_row) : TM new_token :=
  token ← draw randomBytesHex;
  now ← now_;
  transaction
    (id ← fresh;
     let row := token_columns projectId tenantId (tk_name existing) (tk_owner_user_id existing) userId token (tk_expires_at existing) id in
     _ ← insert_unique project_tokens set_tokens same_hash row;
     _ ← modify (fun db => set_tokens (update_where (unrevoked_token tokenId projectId) (revoked_token now userId) (project_tokens db)) db);
     mret (shown token row)).

(** The project of a token route, which hides the projects a caller cannot reach. *)
Definition visible_project (c : AuthContext) (projectId : string) : TM (HttpResult unit) :=
  let? _ := resolveProjectWithAccess projectId (au_tenantId c) (au_userId c) (au_role c) true in mret (okResult tt).

Record token_body := { tb_name : string; tb_expires_at : option timestamp }.

Definition create_token_route (c : AuthContext) (projectId : string) (body : token_body) : TM (HttpResult new_token) :=
  let? _ := visible_project c projectId in
  if negb (canCreateProjectToken (au_role c)) then
    mret (errorResult 403 "FORBIDDEN" "Access denied to create project tokens" None)
  else
    token ← createProjectToken projectId (au_tenantId c) (au_userId c) (tb_name body) (tb_expires_at body);
    mret (okResult token).

(** The token a caller may act on, as it was read. *)
Definition manageable_token (c : AuthContext) (projectId tokenId : string) (action : token_action)
  : TM (HttpResult project_token_row) :=
  let? _ := visible_project c projectId in
  existing ← load_token tokenId projectId;
  mret (match existing with
        | Some t =>
            if negb (bool_decide (tk_revoked_at t = None)) then errorResult 404 "NOT_FOUND" "Token not found or already revoked" None
            else if canManageExistingToken (au_role c) action (String.eqb (tk_owner_user_id t) (au_userId c)) then okResult t
            else errorResult 403 "FORBIDDEN" "Access denied to this token" None
        | None => errorResult 404 "NOT_FOUND" "Token not found or already revoked" None
        end).

Definition revoke_token_route (c : AuthContext) (projectId tokenId : string) : TM (HttpResult string) :=
  let? _ := manageable_token c projectId tokenId revoke in
  revoked ← revokeProjectToken tokenId projectId (au_userId c);
  match revoked with
  | None => mret (errorResult 404 "NOT_FOUND" "Token not found or already revoked" None)
  | Some id => mret (okResult id)
  end.

Definition rotate_token_route (c : AuthContext) (projectId tokenId : string) : TM (HttpResult new_token) :=
  let? existing := manageable_token c projectId tokenId rotate in
  rotated ← rotateProjectToken tokenId projectId (au_tenantId c) (au_userId c) existing;
  mret (okResult rotated).
End tokens.
