(* ===== verification/AccessCorrect.v ===== *)
(** * Correctness of the access routes

    The invariant of the tenants' tables; what a request leaves alone; and whom it
    gives a role. *)

From S2P Require Import Prelude JsString Sql Effects JsDate Tenancy Rbac Members Tokens.
Local Open Scope string_scope.
Local Open Scope list_scope.
Local Open Scope Z_scope.

(** ** Guards *)

(** A guard only reads; what it establishes holds for the rest of the route. *)
Lemma keeps_guard {S A B} (I : nat -> S -> Prop) (F : A -> nat -> S -> Prop) (e : M S (HttpResult A)) (k : A -> M S (HttpResult B)) :
  (forall n s, I n s -> exists r, e (n, s) = (Ok r, (n, s)) /\ forall a, r = inl a -> F a n s) ->
  (forall a, keeps (fun n s => I n s /\ F a n s) (k a)) -> keeps I (http_bind e k).
Proof.
  intros He Hk n s Hi. destruct (He n s Hi) as (r & Hr & Hf). unfold http_bind, mbind, eff_bind. rewrite Hr.
  destruct r as [a|err]; cbn; [|by auto]. specialize (Hk a n s (conj Hi (Hf a eq_refl))).
  destruct (k a (n, s)) as [x [n' s']]. naive_solver.
Qed.

(** A guard on the caller alone. *)
Lemma keeps_check {S A B} (I : nat -> S -> Prop) (r : HttpResult A) (k : A -> M S (HttpResult B)) :
  (forall a, r = inl a -> keeps I (k a)) -> keeps I (http_bind (mret r) k).
Proof.
  intros Hk n s Hi. unfold http_bind, mbind, eff_bind. cbn. destruct r as [a|err]; cbn; [|by auto]. by apply (Hk a).
Qed.

Lemma http_read {S A B} (e : M S (HttpResult A)) (k : A -> M S (HttpResult B)) n s r :
  e (n, s) = (Ok r, (n, s)) ->
  http_bind e k (n, s) = match r with inl a => k a (n, s) | inr err => (Ok (inr err), (n, s)) end.
Proof. intros He. unfold http_bind, mbind, eff_bind. rewrite He. by destruct r. Qed.

Lemma http_bind_inl {S A B} (e : M S (HttpResult A)) (k : A -> M S (HttpResult B)) s b s' :
  returns (http_bind e k) s (inl b) s' -> exists a s1, returns e s (inl a) s1 /\ returns (k a) s1 (inl b) s'.
Proof. intros ([a|err] & s1 & He & Hk)%returns_bind; [by exists a, s1|]. by apply returns_ret in Hk as [? _]. Qed.

Lemma requireTenantParamAccess_inl `{Formats} c tenantId :
  requireTenantParamAccess c = inl tenantId -> tenantId = au_tenantId c.
Proof.
  unfold requireTenantParamAccess. destruct (validateUuidParam c "tenant_id" "Tenant ID") as [x|]; [|done].
  destruct (String.eqb_spec x (au_tenantId c)); [|done]. unfold okResult. congruence.
Qed.

Lemma with_role_true role p : with_role role p = true <-> exists r, tenant_role role = Some r /\ p r = true.
Proof. unfold with_role. destruct (tenant_role role) as [r|]; cbn; naive_solver. Qed.

Lemma requireTenantCapability_inl c capability message u :
  requireTenantCapability c capability message = inl u ->
  exists r, tenant_role (au_role c) = Some r /\ canPerform r capability (tenant_context c) = true.
Proof. unfold requireTenantCapability. destruct (with_role _ _) eqn:E; [|done]. intros _. by apply with_role_true in E. Qed.

Lemma tenant_role_name r : tenant_role (role_name r) = Some r.
Proof. by destruct r. Qed.

Lemma tenant_role_some role r : tenant_role role = Some r -> role = role_name r.
Proof. unfold tenant_role. intros [_ He%String.eqb_eq]%js_find_some. done. Qed.

(** ** The invariant *)

Section correct.
Context `{Env} (uuid_inj : forall m n, uuid m = uuid n -> m = n).

(** A project of a tenant. *)
Definition owned (projectId tenantId : string) (db : tenancy_db) : Prop :=
  exists p, p ∈ projects db /\ pj_id p = projectId /\ pj_tenant_id p = tenantId.

(** Projects have identifiers of their own, and a token belongs to the tenant of
    its project. *)
Record tenancy_wf (n : nat) (db : tenancy_db) : Prop := {
  wf_projects : NoDup (map pj_id (projects db));
  wf_fresh p m : p ∈ projects db -> (n <= m)%nat -> pj_id p <> uuid m;
  wf_tokens t : t ∈ project_tokens db -> owned (tk_project_id t) (tk_tenant_id t) db
}.

Lemma wf_monotone : monotone tenancy_wf.
Proof. intros n m db Hnm [H1 H2 H3]. split; [done| |done]. intros p k Hp Hk. apply H2; [done|lia]. Qed.

Lemma owned_unique n db projectId t1 t2 :
  tenancy_wf n db -> owned projectId t1 db -> owned projectId t2 db -> t1 = t2.
Proof.
  intros Hwf (p & Hp & Hid & <-) (q & Hq & Hid' & <-). f_equal.
  eapply (NoDup_map_inj pj_id); [apply Hwf|done|done|congruence].
Qed.

(** What the tables hold of one tenant. *)
Definition tenant_rows (t : string) (db : tenancy_db) :=
  (List.filter (fun r => String.eqb (mb_tenant_id r) t) (memberships db),
   List.filter (fun r => String.eqb (pj_tenant_id r) t) (projects db),
   List.filter (fun r => String.eqb (pmb_tenant_id r) t) (project_members db),
   List.filter (fun r => String.eqb (tk_tenant_id r) t) (project_tokens db)).

(** ** What a request of one tenant leaves of another *)

Section isolation.
Context (T t : string) (apart : T <> t) (rows0 : list membership_row * list project_row * list project_member_row * list project_token_row).

Definition isolated (n : nat) (db : tenancy_db) : Prop := tenancy_wf n db /\ tenant_rows t db = rows0.

Lemma isolated_monotone : monotone isolated.
Proof. intros n m db Hnm [Hwf Hr]. split; [by apply (wf_monotone n)|done]. Qed.

Lemma filter_app_other {R} (f : R -> string) (l : list R) x :
  f x <> t -> List.filter (fun r => String.eqb (f r) t) (l ++ [x]) = List.filter (fun r => String.eqb (f r) t) l.
Proof. intros Hx. rewrite List.filter_app. cbn. apply String.eqb_neq in Hx. rewrite Hx. apply app_nil_r. Qed.

(** Updates in place of rows of the caller's tenant. *)
Lemma filter_update_other {R} (f : R -> string) (q : R -> bool) (g : R -> R) (l : list R) :
  (forall r, f (g r) = f r) -> (forall r, r ∈ l -> q r = true -> f r = T) ->
  List.filter (fun r => String.eqb (f r) t) (update_where q g l) = List.filter (fun r => String.eqb (f r) t) l.
Proof using apart.
  intros Hg Hq. apply update_where_filter_other. intros r Hr Hqr. rewrite Hg, (Hq r Hr Hqr).
  by split; apply String.eqb_neq.
Qed.

Lemma isolated_memberships n db l :
  List.filter (fun r => String.eqb (mb_tenant_id r) t) l = List.filter (fun r => String.eqb (mb_tenant_id r) t) (memberships db) ->
  isolated n db -> isolated n (set_memberships l db).
Proof. intros Hl [[H1 H2 H3] Hr]. split; [by split|]. unfold tenant_rows in *. cbn. by rewrite Hl. Qed.

Lemma isolated_project_members n db l :
  List.filter (fun r => String.eqb (pmb_tenant_id r) t) l = List.filter (fun r => String.eqb (pmb_tenant_id r) t) (project_members db) ->
  isolated n db -> isolated n (set_project_members l db).
Proof. intros Hl [[H1 H2 H3] Hr]. split; [by split|]. unfold tenant_rows in *. cbn. by rewrite Hl. Qed.

Lemma isolated_tokens n db l :
  List.filter (fun r => String.eqb (tk_tenant_id r) t) l = List.filter (fun r => String.eqb (tk_tenant_id r) t) (project_tokens db) ->
  (forall x, x ∈ l -> owned (tk_project_id x) (tk_tenant_id x) db) ->
  isolated n db -> isolated n (set_tokens l db).
Proof. intros Hl Ho [[H1 H2 H3] Hr]. split; [by split|]. unfold tenant_rows in *. cbn. by rewrite Hl. Qed.

Lemma isolated_projects n db l :
  List.filter (fun r => String.eqb (pj_tenant_id r) t) l = List.filter (fun r => String.eqb (pj_tenant_id r) t) (projects db) ->
  (forall id T', owned id T' db -> owned id T' (set_projects l db)) -> NoDup (map pj_id l) ->
  (forall p m, p ∈ l -> (n <= m)%nat -> pj_id p <> uuid m) ->
  isolated n db -> isolated n (set_projects l db).
Proof.
  intros Hl Ho Hnd Hf [[H1 H2 H3] Hr]. split; [split; [done..|]|].
  - intros x Hx. by apply Ho, H3.
  - unfold tenant_rows in *. cbn. by rewrite Hl.
Qed.

(** *** The writes *)

Lemma membership_isolated user role : keeps isolated (insert_membership T user role).
Proof using apart.
  apply keeps_bind; [apply keeps_fresh, isolated_monotone|]. intros id. unfold insert_unique. keeps_walk.
  apply isolated_memberships; [|done]. apply filter_app_other. done.
Qed.

Lemma project_member_isolated projectId user : keeps isolated (insert_project_member projectId T user).
Proof using apart.
  apply keeps_bind; [apply keeps_fresh, isolated_monotone|]. intros id. unfold insert_unique. keeps_walk.
  apply isolated_project_members; [|done]. apply filter_app_other. done.
Qed.

Lemma record_membership_isolated user role scoped : keeps isolated (record_membership T user role scoped).
Proof using apart.
  apply keeps_rolled_back; [apply isolated_monotone|]. apply keeps_bind; [apply membership_isolated|]. intros _.
  destruct scoped; [apply project_member_isolated|apply keeps_ret].
Qed.

Lemma patched_isolated user role :
  keeps isolated (modify (fun db => set_memberships
    (update_where (fun m => String.eqb (mb_user_id m) user && String.eqb (mb_tenant_id m) T) (with_membership_role role)
       (memberships db)) db)).
Proof using apart.
  apply keeps_modify. intros n db Hi. apply isolated_memberships; [|done]. apply filter_update_other; [done|].
  intros r _ Hr. apply andb_prop in Hr as [_ Hr]. by apply String.eqb_eq.
Qed.

(** Revoking tokens of one of the caller's projects. *)
Lemma revoking_isolated projectId (q : project_token_row -> bool) at_ by_ :
  (forall x, q x = true -> tk_project_id x = projectId) ->
  keeps (fun n db => isolated n db /\ owned projectId T db)
    (modify (fun db => set_tokens (update_where q (revoked_token at_ by_) (project_tokens db)) db)).
Proof using apart.
  intros Hq. apply keeps_modify. intros n db [Hi Ho]. split; [|exact Ho].
  apply isolated_tokens; [apply filter_update_other; [done|]| |done].
  - intros x Hx He. eapply owned_unique; [apply Hi|apply Hi, Hx|]. by rewrite (Hq x He).
  - intros x (x0 & Hx0 & ->)%elem_of_update_where. destruct (q x0); cbn; by apply Hi.
Qed.

Lemma token_isolated projectId row :
  tk_project_id row = projectId -> tk_tenant_id row = T ->
  keeps (fun n db => isolated n db /\ owned projectId T db) (insert_unique project_tokens set_tokens same_hash row).
Proof using apart.
  intros Hp Ht. unfold insert_unique. keeps_walk. match goal with H : _ /\ _ |- _ => destruct H as [Hi Ho] end. split; [|exact Ho].
  apply isolated_tokens; [|intros x [Hx|Hx%list_elem_of_singleton]%elem_of_app; [by apply Hi|by subst x; rewrite Hp, Ht]|done].
  apply filter_app_other. by rewrite Ht.
Qed.

Lemma owned_monotone projectId : monotone (fun n db => isolated n db /\ owned projectId T db).
Proof. intros n m db Hnm [Hi Ho]. split; [by apply (isolated_monotone n)|done]. Qed.

Lemma createProject_isolated user role name : keeps isolated (createProject T user role name).
Proof using apart uuid_inj.
  apply keeps_rolled_back; [apply isolated_monotone|]. intros n db Hi.
  set (row := new_project T name (uuid n)).
  assert (H1 : isolated (S n) (set_projects (projects db ++ [row]) db)).
  { apply isolated_projects; [by apply filter_app_other| | | |by apply (isolated_monotone n); [lia|]].
    - intros id T' (p & Hp & Hid). exists p. split; [|done]. apply elem_of_app. by left.
    - rewrite map_app. apply NoDup_app. split; [apply Hi|]. split; [|apply NoDup_singleton].
      intros id (p & -> & Hp)%list_elem_of_fmap He%list_elem_of_singleton. by apply (wf_fresh n db) with p n; [apply Hi|..].
    - intros p m [Hp|Hp%list_elem_of_singleton]%elem_of_app Hm; [by apply (wf_fresh n db); [apply Hi|done|lia]|].
      subst p. intros He%uuid_inj. cbn in He. lia. }
  assert (Hk : keeps isolated (_ ← (if with_role role shouldAutoJoinCreatedProject then insert_project_member (pj_id row) T user else mret tt); mret row)).
  { apply keeps_bind; [|intros _; apply keeps_ret]. destruct (with_role _ _); [apply project_member_isolated|apply keeps_ret]. }
  specialize (Hk (S n) _ H1). unfold mbind, eff_bind, fresh, modify. cbn [fst snd]. fold row.
  match goal with |- let '(_, _) := ?x in _ => match type of Hk with let '(_, _) := ?y in _ => change x with y end end.
  match goal with |- let '(_, _) := ?x in _ => destruct x as [r [n' s']] end. destruct Hk. split; [lia|done].
Qed.

(** The update of a project keeps who owns it. *)
Lemma owned_ended id T' q at_ db :
  owned id T' db -> owned id T' (set_projects (update_where q (ended_project at_) (projects db)) db).
Proof.
  intros (p & Hp & <- & <-). exists (if q p then ended_project at_ p else p). split; [|by destruct (q p)].
  apply elem_of_update_where. by exists p.
Qed.

Lemma deleteProject_isolated projectId user :
  keeps (fun n db => isolated n db /\ owned projectId T db) (deleteProject projectId user).
Proof using apart.
  apply keeps_bind; [apply keeps_now, owned_monotone|]. intros now.
  apply keeps_rolled_back; [apply owned_monotone|]. cbv zeta. apply keeps_bind; [apply keeps_gets|]. intros deleted.
  apply keeps_bind.
  - apply keeps_modify. intros n db [Hi Ho]. split; [|by apply owned_ended]. apply isolated_projects; [|intros; by apply owned_ended| | |done].
    + apply filter_update_other; [done|]. intros p Hp [He%String.eqb_eq _]%andb_prop. eapply (owned_unique n db projectId); [apply Hi|by exists p|done].
    + rewrite update_where_map by done. apply Hi.
    + intros p m (p0 & Hp & ->)%elem_of_update_where Hm. assert (H1 : pj_id p0 <> uuid m) by (by apply (wf_fresh n db); [apply Hi|..]).
      by destruct (_ && _).
  - intros _. destruct deleted; [|apply keeps_ret]. apply keeps_bind; [|intros _; apply keeps_ret].
    apply (revoking_isolated projectId). intros x [He%String.eqb_eq _]%andb_prop. done.
Qed.

Context (randomBytesHex : nat -> string) (hashProjectToken : string -> string).

Lemma createProjectToken_isolated projectId user name expires :
  keeps (fun n db => isolated n db /\ owned projectId T db)
    (createProjectToken randomBytesHex hashProjectToken projectId T user name expires).
Proof using apart.
  apply keeps_bind; [apply keeps_draw, owned_monotone|]. intros token.
  apply keeps_bind; [apply keeps_fresh, owned_monotone|]. intros id. cbv zeta.
  apply keeps_bind; [by apply token_isolated|]. intros _. apply keeps_ret.
Qed.

Lemma revokeProjectToken_isolated tokenId projectId user :
  keeps (fun n db => isolated n db /\ owned projectId T db) (revokeProjectToken tokenId projectId user).
Proof using apart.
  apply keeps_bind; [apply keeps_now, owned_monotone|]. intros now. apply keeps_bind; [apply keeps_gets|]. intros r.
  apply keeps_bind; [|intros _; apply keeps_ret]. apply (revoking_isolated projectId).
  intros x [_ [He%String.eqb_eq _]%andb_prop]%andb_prop. done.
Qed.

Lemma rotateProjectToken_isolated tokenId projectId user existing :
  keeps (fun n db => isolated n db /\ owned projectId T db)
    (rotateProjectToken randomBytesHex hashProjectToken tokenId projectId T user existing).
Proof using apart.
  apply keeps_bind; [apply keeps_draw, owned_monotone|]. intros token.
  apply keeps_bind; [apply keeps_now, owned_monotone|]. intros now.
  apply keeps_rolled_back; [apply owned_monotone|]. apply keeps_bind; [apply keeps_fresh, owned_monotone|]. intros id. cbv zeta.
  apply keeps_bind; [by apply token_isolated|]. intros _. apply keeps_bind; [|intros _; apply keeps_ret].
  apply (revoking_isolated projectId). intros x [_ [He%String.eqb_eq _]%andb_prop]%andb_prop. done.
Qed.
End isolation.
End correct.

(** ** The guards on projects *)

Lemma checkProjectAccess_read userId projectId tenantId role n db :
  exists b, checkProjectAccess userId projectId tenantId role (n, db) = (Ok b, (n, db)).
Proof. unfold checkProjectAccess. destruct (hasImplicitProjectAccess role); by eexists. Qed.

Lemma resolveProject_read projectId tenantId userId role hide n db :
  exists r, resolveProjectWithAccess projectId tenantId userId role hide (n, db) = (Ok r, (n, db)) /\
    forall p, r = inl p -> owned projectId tenantId db.
Proof.
  unfold resolveProjectWithAccess, mbind at 1, eff_bind at 1, gets at 1. cbn [fst snd].
  destruct (head _) as [p|] eqn:Eh; [|by eexists].
  destruct (checkProjectAccess_read userId projectId tenantId role n db) as [b Hb].
  unfold mbind, eff_bind. rewrite Hb. eexists. split; [reflexivity|]. intros p' Hp'.
  apply head_Some_elem_of, elem_of_filter_b in Eh as [Hin [[Hid%String.eqb_eq Ht%String.eqb_eq]%andb_prop _]%andb_prop].
  by exists p.
Qed.

Lemma requireResolved_read c projectId hide n db :
  exists r, requireResolvedProjectAccess c projectId hide (n, db) = (Ok r, (n, db)) /\
    forall p, r = inl p -> p.1 = projectId /\ owned projectId (au_tenantId c) db.
Proof.
  destruct (resolveProject_read projectId (au_tenantId c) (au_userId c) (au_role c) hide n db) as (r & Hr & Ho).
  unfold requireResolvedProjectAccess. rewrite (http_read _ _ _ _ _ Hr). destruct r as [p|err]; cbn; eexists; (split; [done|]); [|done].
  intros q [= <-]. split; [done|by apply (Ho p)].
Qed.

Lemma requireProject_read `{Formats} c hide n db :
  exists r, requireProjectAccess c hide (n, db) = (Ok r, (n, db)) /\
    forall p, r = inl p -> owned p.1 (au_tenantId c) db.
Proof.
  unfold requireProjectAccess. rewrite (http_read _ _ n db (validateUuidParam c "project_id" "Project ID")) by done.
  destruct (validateUuidParam c "project_id" "Project ID") as [pid|err]; [|by eexists].
  destruct (requireResolved_read c pid hide n db) as (r & Hr & Ho). exists r. split; [done|].
  intros p Hp. destruct (Ho p Hp) as [-> Ho']. done.
Qed.

Lemma visible_read c projectId n db :
  exists r, visible_project c projectId (n, db) = (Ok r, (n, db)) /\ forall u, r = inl u -> owned projectId (au_tenantId c) db.
Proof.
  destruct (resolveProject_read projectId (au_tenantId c) (au_userId c) (au_role c) true n db) as (r & Hr & Ho).
  unfold visible_project. rewrite (http_read _ _ _ _ _ Hr). destruct r as [p|err]; cbn; eexists; (split; [done|]); [|done].
  intros u _. by apply (Ho p).
Qed.

(** The token a route goes on with: unrevoked, of a project of the caller. *)
Lemma manageable_read c projectId tokenId action n db :
  exists r, manageable_token c projectId tokenId action (n, db) = (Ok r, (n, db)) /\
    forall t, r = inl t -> owned projectId (au_tenantId c) db /\ t ∈ project_tokens db /\
      unrevoked_token tokenId projectId t = true /\
      canManageExistingToken (au_role c) action (String.eqb (tk_owner_user_id t) (au_userId c)) = true.
Proof.
  destruct (visible_read c projectId n db) as (r & Hr & Ho). unfold manageable_token. rewrite (http_read _ _ _ _ _ Hr).
  destruct r as [u|err]; [|by eexists]. unfold mbind, eff_bind, load_token, gets. cbn [fst snd]. eexists. split; [reflexivity|].
  intros t. destruct (head _) as [x|] eqn:Eh; [|done]. destruct (negb _) eqn:Er; [done|]. destruct (canManageExistingToken _ _ _) eqn:Ec; [|done].
  intros [= ->]. apply head_Some_elem_of, elem_of_filter_b in Eh as [Hin [Hid Hp]%andb_prop]. apply negb_false_iff in Er.
  split; [by apply (Ho u)|]. split; [done|]. split; [|done]. unfold unrevoked_token, unrevoked. by rewrite Hid, Hp, Er.
Qed.
