(* ===== verification/AccessSpec.v ===== *)
(** * What the access routes guarantee

    Requests of one tenant leave the others alone; no member gives a role that can
    do more than its own; and what the guards do not prevent. *)

From Stdlib Require Import Ascii FunctionalExtensionality.
From stdpp Require Import pretty.
From S2P Require Import Prelude JsString Sql Effects JsDate Tenancy Rbac Members Tokens AccessCorrect.
Local Open Scope string_scope.
Local Open Scope list_scope.
Local Open Scope Z_scope.

(** ** Requests *)

(** The requests that change who may do what. *)
Inductive access_request : Type :=
| grant_access (body : invite_body)
| create_account (body : member_body)
| change_role (role : string)
| change_password (password : string)
| create_project (name : string)
| delete_project
| create_token (projectId : string) (body : token_body)
| revoke_token (projectId tokenId : string)
| rotate_token (projectId tokenId : string).

Section requests.
Context `{Env} `{Formats} `{AuthService} (randomBytesHex : nat -> string) (hashProjectToken : string -> string).

Definition discard {S A} (e : M S (HttpResult A)) : M S (HttpResult unit) := let? _ := e in mret (okResult tt).

Definition perform (c : AuthContext) (r : access_request) : AM (HttpResult unit) :=
  match r with
  | grant_access body => discard (invite_route c body)
  | create_account body => discard (create_route c body)
  | change_role role => discard (patch_route c role)
  | change_password password => reset_password c password
  | create_project name => discard (on_tenancy_of (create_project_route c name))
  | delete_project => discard (on_tenancy_of (delete_project_route c))
  | create_token projectId body => discard (on_tenancy_of (create_token_route randomBytesHex hashProjectToken c projectId body))
  | revoke_token projectId tokenId => discard (on_tenancy_of (revoke_token_route c projectId tokenId))
  | rotate_token projectId tokenId => discard (on_tenancy_of (rotate_token_route randomBytesHex hashProjectToken c projectId tokenId))
  end.

(** A sequence of requests, each of which may fail. *)
Fixpoint perform_all (rs : list (AuthContext * access_request)) (s : nat * access_db) : nat * access_db :=
  match rs with
  | [] => s
  | (c, r) :: rs => perform_all rs (perform c r s).2
  end.

Lemma keeps_discard {S A} (I : nat -> S -> Prop) (e : M S (HttpResult A)) : keeps I e -> keeps I (discard e).
Proof.
  intros He. apply keeps_bind; [exact He|]. intros [a|err]; apply keeps_ret.
Qed.

Lemma keeps_tenancy {A} (I : nat -> tenancy_db -> Prop) (e : M tenancy_db A) :
  keeps I e -> keeps (fun n db => I n (tenancy db)) (on_tenancy_of e).
Proof. intros He. by apply (keeps_zoom I tenancy set_tenancy_of). Qed.

(** The service's accounts are apart from the tables. *)
Lemma keeps_call {A} (I : nat -> tenancy_db -> Prop) (request : accounts -> auth_result A * accounts) :
  keeps (fun n db => I n (tenancy db)) (call request).
Proof. apply keeps_bind; [apply keeps_gets|]. intros r. apply keeps_bind; [|intros _; apply keeps_ret]. by apply keeps_modify. Qed.

Lemma keeps_findUserByEmail (I : nat -> tenancy_db -> Prop) email : keeps (fun n db => I n (tenancy db)) (findUserByEmail email).
Proof.
  unfold findUserByEmail. destruct (negb _); [apply keeps_ret|]. apply keeps_bind; [apply keeps_call|]. intros [u|e]; apply keeps_ret.
Qed.

Lemma keeps_getUser (I : nat -> tenancy_db -> Prop) id : keeps (fun n db => I n (tenancy db)) (getUser id).
Proof. apply keeps_bind; [apply keeps_call|]. intros r. apply keeps_ret. Qed.

(** A route keeps what its writes keep: [writes c] are those of a caller's tenant. *)
Section writes.
Context (I : nat -> tenancy_db -> Prop) (c : AuthContext).

(** The role a caller may give by each route. *)
Definition may_give (role : string) : Prop :=
  (exists a r, tenant_role (au_role c) = Some a /\ tenant_role role = Some r /\
     (canPerform a "members.invite" (tenant_context c) = true /\ canInviteTenantRole a r = true \/
      canDirectCreateTenantRole a r = true)).

Hypothesis keeps_record : forall user role scoped, may_give role -> keeps I (record_membership (au_tenantId c) user role scoped).
Hypothesis keeps_member : forall projectId user, keeps I (insert_or_nothing project_members set_project_members
  (fun v => same_project_member (new_project_member v.1 (au_tenantId c) v.2 EmptyString))
  (fun v => new_project_member v.1 (au_tenantId c) v.2) (projectId, user)).

Let AI (n : nat) (db : access_db) : Prop := I n (tenancy db).

Lemma keeps_scope scopedProjectId : keeps AI
  (match scopedProjectId with
   | Some projectId => let? _ := on_tenancy_of (requireResolvedProjectAccess c projectId false) in mret (okResult tt)
   | None => mret (okResult tt)
   end).
Proof.
  destruct scopedProjectId as [pid|]; [|apply keeps_ret]. apply keeps_discard, keeps_tenancy.
  intros n db Hi. destruct (requireResolved_read c pid false n db) as (r & -> & _). auto.
Qed.

Lemma keeps_http_bind {A B} (e : AM (HttpResult A)) (k : A -> AM (HttpResult B)) :
  keeps AI e -> (forall a, keeps AI (k a)) -> keeps AI (http_bind e k).
Proof. intros He Hk. apply keeps_bind; [exact He|]. intros [a|err]; [apply Hk|apply keeps_ret]. Qed.

Lemma keeps_grant body : keeps AI (invite_route c body).
Proof using keeps_record keeps_member.
  unfold invite_route. destruct (isAssignableTenantRole _); [|apply keeps_ret]. unfold grantTenantAccess.
  apply keeps_check. intros tenantId ->%requireTenantParamAccess_inl. apply keeps_check. intros invites Hcap.
  destruct (negb _) eqn:En; [apply keeps_ret|]. destruct (_ && _); [apply keeps_ret|].
  assert (Hm : may_give (iv_role body)).
  { apply requireTenantCapability_inl in Hcap as (a0 & Ha0 & Hcap).
    apply negb_false_iff, with_role_true in En as (a & Ha & (r & Hr & Hc)%with_role_true).
    exists a, r. split; [done|]. split; [done|]. left. split; [congruence|done]. }
  apply keeps_http_bind; [apply keeps_scope|]. intros _. apply keeps_bind; [apply keeps_findUserByEmail|].
  intros [[user|]|err]; [| |apply keeps_ret].
  - apply keeps_bind; [apply keeps_gets|]. intros [m|].
    + apply keeps_bind; [|intros b; apply keeps_ret]. destruct (scoped_project _ _) as [pid|]; [|apply keeps_ret].
      apply keeps_bind; [apply keeps_tenancy, keeps_member|]. intros x. apply keeps_ret.
    + apply keeps_bind; [by apply keeps_tenancy, keeps_record|]. intros _. apply keeps_ret.
  - apply keeps_bind; [apply keeps_call|]. intros [user|err]; [|apply keeps_ret].
    apply keeps_bind; [by apply keeps_attempt, keeps_tenancy, keeps_record|]. intros [u|m]; [apply keeps_ret|].
    apply keeps_bind; [|intros _; apply keeps_ret]. destruct (bool_decide _); [apply keeps_ret|].
    apply keeps_bind; [apply keeps_call|]. intros x. apply keeps_ret.
Qed.

Lemma keeps_create body : keeps AI (create_route c body).
Proof using keeps_record.
  unfold create_route. destruct (isDirectCreatableTenantRole _); [|apply keeps_ret]. unfold create_member.
  apply keeps_check. intros tenantId ->%requireTenantParamAccess_inl. apply keeps_check. intros _ _.
  destruct (negb _) eqn:En; [apply keeps_ret|].
  assert (Hm : may_give (nb_role body)).
  { apply negb_false_iff, with_role_true in En as (a & Ha & (r & Hr & Hc)%with_role_true). exists a, r. auto. }
  apply keeps_http_bind; [apply keeps_scope|]. intros _. apply keeps_bind; [apply keeps_call|].
  intros [user|err].
  - apply keeps_bind; [by apply keeps_attempt, keeps_tenancy, keeps_record|]. intros [u|m]; [apply keeps_ret|].
    apply keeps_bind; [apply keeps_call|]. intros x. apply keeps_ret.
  - destruct err; try apply keeps_ret. destruct (_ || _); apply keeps_ret.
Qed.

Lemma keeps_reset password : keeps AI (reset_password c password).
Proof.
  unfold reset_password. apply keeps_check. intros tenantId _. apply keeps_check. intros target _. apply keeps_check. intros _ _.
  apply keeps_bind; [apply keeps_gets|]. intros [m|]; [|apply keeps_ret]. apply keeps_bind; [apply keeps_getUser|].
  intros [[user|]|err]; try apply keeps_ret. destruct (negb _); [apply keeps_ret|].
  apply keeps_bind; [apply keeps_call|]. intros [u|err]; apply keeps_ret.
Qed.
End writes.

(** ** Tenants are apart *)

Section isolation.
Context (uuid_inj : forall m n, uuid m = uuid n -> m = n) (c : AuthContext) (t : string) (apart : au_tenantId c <> t).
Context (rows0 : list membership_row * list project_row * list project_member_row * list project_token_row).

Let I : nat -> tenancy_db -> Prop := isolated t rows0.

Lemma member_isolated projectId user : keeps I (insert_or_nothing project_members set_project_members
  (fun v => same_project_member (new_project_member v.1 (au_tenantId c) v.2 EmptyString))
  (fun v => new_project_member v.1 (au_tenantId c) v.2) (projectId, user)).
Proof using apart.
  apply keeps_bind; [apply keeps_gets|]. intros [|]; [apply keeps_ret|]. apply keeps_bind; [apply keeps_fresh, isolated_monotone|].
  intros id. apply keeps_bind; [|intros _; apply keeps_ret]. apply keeps_modify. intros n db Hi.
  apply isolated_project_members; [|exact Hi]. by apply filter_app_other.
Qed.

(** Going on with a guard's project: [owned] holds from then on. *)
Lemma isolated_owning {A B} projectId (e : M tenancy_db (HttpResult A)) (k : A -> M tenancy_db (HttpResult B)) :
  (forall n db, exists r, e (n, db) = (Ok r, (n, db)) /\ forall a, r = inl a -> owned (projectId a) (au_tenantId c) db) ->
  (forall a, keeps (fun n db => I n db /\ owned (projectId a) (au_tenantId c) db) (k a)) -> keeps I (http_bind e k).
Proof.
  intros He Hk. apply (keeps_guard I (fun a _ db => owned (projectId a) (au_tenantId c) db)); [|exact Hk].
  intros n db _. apply He.
Qed.

Lemma patch_isolated role : keeps (fun n db => I n (tenancy db)) (patch_route c role).
Proof using apart.
  unfold patch_route. destruct (isManageableTenantRole role); [|apply keeps_ret]. unfold patch_member.
  apply keeps_check. intros tenantId ->%requireTenantParamAccess_inl. apply keeps_check. intros target _. apply keeps_check. intros _ _.
  apply keeps_bind; [apply keeps_gets|]. intros [m|]; [|apply keeps_ret]. destruct (String.eqb _ _); [apply keeps_ret|].
  apply keeps_bind; [|intros _; apply keeps_ret]. apply keeps_tenancy. by apply patched_isolated.
Qed.

Lemma project_routes_isolated :
  (forall name, keeps I (create_project_route c name)) /\ keeps I (delete_project_route c).
Proof using All.
  split; [intros name|].
  - unfold create_project_route. apply keeps_check. intros tenantId ->%requireTenantParamAccess_inl. apply keeps_check. intros _ _.
    apply keeps_bind; [by apply createProject_isolated|]. intros p. apply keeps_ret.
  - unfold delete_project_route. apply (isolated_owning fst); [apply requireProject_read|]. intros p. apply keeps_check. intros _ _.
    apply keeps_bind; [by apply deleteProject_isolated|]. intros [id|]; apply keeps_ret.
Qed.

Lemma token_routes_isolated projectId :
  (forall body, keeps I (create_token_route randomBytesHex hashProjectToken c projectId body)) /\
  (forall tokenId, keeps I (revoke_token_route c projectId tokenId)) /\
  (forall tokenId, keeps I (rotate_token_route randomBytesHex hashProjectToken c projectId tokenId)).
Proof using All.
  split; [|split].
  - intros body. unfold create_token_route. apply (isolated_owning (fun _ => projectId)); [apply visible_read|]. intros _.
    destruct (negb _); [apply keeps_ret|]. apply keeps_bind; [by apply createProjectToken_isolated|]. intros x. apply keeps_ret.
  - intros tokenId. unfold revoke_token_route. apply (isolated_owning (fun _ => projectId)).
    { intros n db. destruct (manageable_read c projectId tokenId revoke n db) as (r & Hr & Ho). exists r. split; [done|]. intros a Ha. by apply (Ho a). }
    intros _. apply keeps_bind; [by apply revokeProjectToken_isolated|]. intros [id|]; apply keeps_ret.
  - intros tokenId. unfold rotate_token_route. apply (isolated_owning (fun _ => projectId)).
    { intros n db. destruct (manageable_read c projectId tokenId rotate n db) as (r & Hr & Ho). exists r. split; [done|]. intros a Ha. by apply (Ho a). }
    intros x. apply keeps_bind; [by apply rotateProjectToken_isolated|]. intros y. apply keeps_ret.
Qed.

Lemma perform_isolated r : keeps (fun n db => I n (tenancy db)) (perform c r).
Proof using All.
  destruct project_routes_isolated as [Hp1 Hp2].
  destruct r as [body|body|role|password|name| |pid body|pid tid|pid tid]; cbn [perform];
    try apply keeps_discard; try (apply keeps_tenancy; apply token_routes_isolated).
  - apply keeps_grant; [|apply member_isolated]. intros user role scoped _. by apply record_membership_isolated.
  - apply keeps_create. intros user role scoped _. by apply record_membership_isolated.
  - apply patch_isolated.
  - apply keeps_reset.
  - apply keeps_tenancy, Hp1.
  - apply keeps_tenancy, Hp2.
Qed.
End isolation.

(** C4: tenants are isolated: requests of members of other tenants, in any number,
    order and outcome, leave a tenant's memberships, projects, project members and
    tokens as they were, whatever identifiers they name. *)
Theorem tenants_isolated t rs s :
  (forall m n, uuid m = uuid n -> m = n) -> tenancy_wf s.1 (tenancy s.2) ->
  (forall c r, (c, r) ∈ rs -> au_tenantId c <> t) ->
  tenant_rows t (tenancy (perform_all rs s).2) = tenant_rows t (tenancy s.2).
Proof.
  intros Hinj Hwf Hrs. set (rows0 := tenant_rows t (tenancy s.2)).
  enough (Hk : isolated t rows0 (perform_all rs s).1 (tenancy (perform_all rs s).2)) by apply Hk.
  assert (Hs : isolated t rows0 s.1 (tenancy s.2)) by done. clearbody rows0. clear Hwf. revert s Hs.
  induction rs as [|[c r] rs IH]; intros s Hs; [done|]. cbn [perform_all]. apply IH.
  - intros c' r' Hin. apply (Hrs c' r'). by apply list_elem_of_further.
  - assert (Hk := perform_isolated Hinj c t (Hrs c r (list_elem_of_here _ _)) rows0 r s.1 s.2 Hs).
    destruct s as [n db]. cbn [fst snd] in Hk. destruct (perform c r (n, db)) as [x [n' db']]. apply Hk.
Qed.

(** ** Roles *)

(** A role that can do no more than another. *)
Definition weaker (r a : TenantRole) : bool :=
  forallb (fun k => existsb (String.eqb k) (ROLE_CAPABILITIES a)) (ROLE_CAPABILITIES r).

Lemma weaker_spec r a : weaker r a = true <-> forall k, k ∈ ROLE_CAPABILITIES r -> k ∈ ROLE_CAPABILITIES a.
Proof.
  unfold weaker. rewrite forallb_elem_of. split; intros Hw k Hk; specialize (Hw k Hk); by rewrite existsb_eqb in *.
Qed.

Lemma invites_weaker a r context :
  canPerform a "members.invite" context = true -> canInviteTenantRole a r = true -> r <> owner /\ weaker r a = true.
Proof.
  intros Hi Hc. destruct a; try (by vm_compute in Hi); destruct r; try (by vm_compute in Hc); by split; [|vm_compute].
Qed.

Lemma creates_weaker a r : canDirectCreateTenantRole a r = true -> r <> owner /\ weaker r a = true.
Proof. intros Hc. destruct a, r; try (by vm_compute in Hc); by split; [|vm_compute]. Qed.

Lemma writes_weaker a r context : canPerform a "members.write_roles" context = true -> r <> owner -> weaker r a = true.
Proof. intros Hc Hne. destruct a; try (by vm_compute in Hc); destruct r; try done; by vm_compute. Qed.

(** A membership a caller may have given. *)
Definition given (c : AuthContext) (m : membership_row) : Prop :=
  mb_tenant_id m = au_tenantId c /\
  exists a r, tenant_role (au_role c) = Some a /\ tenant_role (mb_role m) = Some r /\ r <> owner /\
    forall k, k ∈ ROLE_CAPABILITIES r -> k ∈ ROLE_CAPABILITIES a.

Definition member_key (m : membership_row) : string * string := (mb_tenant_id m, mb_user_id m).
Definition is_owner (m : membership_row) : bool := String.eqb (mb_role m) "owner".

Section roles.
Context (owners0 : list membership_row) (known : membership_row -> Prop) (c : AuthContext).
Context (given_known : forall m, given c m -> known m).

(** One membership per user and tenant; the owners; and where the others come from. *)
Record roles_ok (n : nat) (db : tenancy_db) : Prop := {
  ro_unique : NoDup (map member_key (memberships db));
  ro_owners : List.filter is_owner (memberships db) = owners0;
  ro_known m : m ∈ memberships db -> known m
}.

(** What does not write memberships. *)
Lemma roles_untouched n db db' : memberships db' = memberships db -> roles_ok n db -> roles_ok n db'.
Proof. intros He [K1 K2 K3]. split; rewrite He; done. Qed.

Lemma may_give_given role tenant user id :
  may_give c role -> tenant = au_tenantId c -> given c (new_membership tenant user role id).
Proof.
  intros (a & r & Ha & Hr & Hc) ->. split; [done|]. exists a, r. split; [done|]. split; [done|]. rewrite <- weaker_spec.
  destruct Hc as [[Hi Hc]|Hc]; [by eapply invites_weaker|by apply creates_weaker].
Qed.

Lemma not_owner_given m : given c m -> is_owner m = false.
Proof.
  intros (_ & a & r & _ & Hr & Hne & _). apply String.eqb_neq. intros He. rewrite He in Hr. injection Hr as <-. done.
Qed.

Lemma member_roles projectId tenant user : keeps roles_ok (insert_project_member projectId tenant user).
Proof. apply keeps_bind; [apply keeps_fresh; intros ? ? ? ? [? ? ?]; by split|]. intros id. unfold insert_unique. keeps_walk. eapply roles_untouched; [|eassumption]; done. Qed.

Lemma roles_monotone : monotone roles_ok.
Proof. intros n m db _ [K1 K2 K3]. by split. Qed.

Lemma insert_roles user role : may_give c role -> keeps roles_ok (insert_membership (au_tenantId c) user role).
Proof using given_known.
  intros Hm. apply keeps_bind; [apply keeps_fresh, roles_monotone|]. intros id. set (row := new_membership (au_tenantId c) user role id).
  assert (Hg : given c row) by by apply may_give_given.
  intros n db Hok. unfold insert_unique, mbind, eff_bind, gets. cbn [fst snd]. destruct (existsb _ _) eqn:E; cbn; (split; [lia|]); [done|].
  destruct Hok as [K1 K2 K3]. split; cbn [memberships set_memberships].
  - rewrite map_app. apply NoDup_app. split; [done|]. split; [|apply NoDup_singleton].
    intros k (m & -> & Hin)%list_elem_of_fmap Hk%list_elem_of_singleton. unfold member_key in Hk. injection Hk as Ht Hu. cbn in Ht, Hu.
    apply not_true_iff_false in E. apply E, existsb_exists. exists m. split; [by apply list_elem_of_In|].
    unfold same_membership. cbn. rewrite Ht, Hu. by rewrite !String.eqb_refl.
  - rewrite List.filter_app, K2. cbn [List.filter]. fold row. by rewrite (not_owner_given row Hg), app_nil_r.
  - intros m [Hin|Hin%list_elem_of_singleton]%elem_of_app; [by apply K3|]. subst m. by apply given_known.
Qed.

Lemma record_roles user role scoped : may_give c role -> keeps roles_ok (record_membership (au_tenantId c) user role scoped).
Proof using given_known.
  intros Hm. apply keeps_rolled_back; [apply roles_monotone|]. apply keeps_bind; [by apply insert_roles|]. intros _.
  destruct scoped; [apply member_roles|apply keeps_ret].
Qed.

Lemma patch_roles role : keeps (fun n db => roles_ok n (tenancy db)) (patch_route c role).
Proof using given_known.
  unfold patch_route. destruct (isManageableTenantRole role) eqn:Er; [|apply keeps_ret]. unfold patch_member.
  apply with_role_true in Er as (r & Hr & Hne%negb_true_iff%bool_decide_eq_false_1).
  apply keeps_check. intros tenantId ->%requireTenantParamAccess_inl. apply keeps_check. intros target _.
  apply keeps_check. intros writes (a & Ha & Hcap)%requireTenantCapability_inl.
  set (q := fun m => String.eqb (mb_user_id m) target && String.eqb (mb_tenant_id m) (au_tenantId c)).
  assert (Hg : forall m, q m = true -> given c (with_membership_role role m)).
  { intros m [_ Ht%String.eqb_eq]%andb_prop. split; [done|]. exists a, r. split; [done|]. split; [done|]. split; [done|].
    apply weaker_spec. by eapply writes_weaker. }
  intros n db Hok. unfold mbind at 1, eff_bind at 1, gets at 1. cbn [fst snd]. unfold membership_of. fold q.
  destruct (head (List.filter q (memberships (tenancy db)))) as [m|] eqn:Eh; [|by cbn].
  destruct (String.eqb (mb_role m) "owner") eqn:Eo; [by cbn|].
  unfold mbind, eff_bind, on_tenancy_of, zoom, modify. cbn [fst snd]. split; [done|]. destruct Hok as [K1 K2 K3].
  apply head_Some_elem_of, elem_of_filter_b in Eh as [Hin Hqm].
  assert (Hone : forall x, x ∈ memberships (tenancy db) -> q x = true -> x = m).
  { intros x Hx Hqx. eapply (NoDup_map_inj member_key); [done..|]. unfold member_key.
    apply andb_prop in Hqx as [->%String.eqb_eq ->%String.eqb_eq]. by apply andb_prop in Hqm as [->%String.eqb_eq ->%String.eqb_eq]. }
  split; cbn [tenancy set_tenancy_of memberships set_memberships].
  - by rewrite update_where_map.
  - rewrite update_where_filter_other; [exact K2|]. intros x Hx Hqx. rewrite (Hone x Hx Hqx). split; [exact Eo|].
    apply not_owner_given, Hg, Hqm.
  - intros x (x0 & Hx0 & ->)%elem_of_update_where. destruct (q x0) eqn:E; [by apply given_known, Hg|by apply K3].
Qed.

Ltac roles_walk :=
  repeat lazymatch goal with
         | |- keeps _ (transaction _) => apply keeps_rolled_back; [apply roles_monotone|]
         | |- keeps _ now_ => apply keeps_now, roles_monotone
         | |- keeps _ fresh => apply keeps_fresh, roles_monotone
         | |- keeps _ (draw _) => apply keeps_draw, roles_monotone
         | |- keeps _ (insert_project_member _ _ _) => apply member_roles
         | |- keeps _ (http_bind _ _) => unfold http_bind
         | |- _ => keeps_step
         end;
  try (eapply roles_untouched; [|eassumption]; done).

Lemma other_routes_roles :
  (forall name, keeps roles_ok (create_project_route c name)) /\ keeps roles_ok (delete_project_route c) /\
  (forall pid body, keeps roles_ok (create_token_route randomBytesHex hashProjectToken c pid body)) /\
  (forall pid tokenId, keeps roles_ok (revoke_token_route c pid tokenId)) /\
  (forall pid tokenId, keeps roles_ok (rotate_token_route randomBytesHex hashProjectToken c pid tokenId)).
Proof.
  unfold create_project_route, createProject, delete_project_route, deleteProject, requireProjectAccess, requireResolvedProjectAccess,
    create_token_route, createProjectToken, revoke_token_route, revokeProjectToken, rotate_token_route, rotateProjectToken,
    manageable_token, visible_project, resolveProjectWithAccess, checkProjectAccess, load_token, insert_unique.
  split; [|split; [|split; [|split]]]; intros; roles_walk.
Qed.

Lemma member_added_roles projectId user : keeps roles_ok (insert_or_nothing project_members set_project_members
  (fun v => same_project_member (new_project_member v.1 (au_tenantId c) v.2 EmptyString))
  (fun v => new_project_member v.1 (au_tenantId c) v.2) (projectId, user)).
Proof.
  apply keeps_bind; [apply keeps_gets|]. intros [|]; [apply keeps_ret|]. apply keeps_bind; [apply keeps_fresh, roles_monotone|].
  intros id. apply keeps_bind; [|intros _; apply keeps_ret]. apply keeps_modify. intros n db Hok. eapply roles_untouched; [|exact Hok]; done.
Qed.

Lemma perform_roles r : keeps (fun n db => roles_ok n (tenancy db)) (perform c r).
Proof using given_known.
  destruct other_routes_roles as (Hp & Hd & Hct & Hrt & Hot).
  destruct r as [body|body|role|password|name| |pid body|pid tid|pid tid]; cbn [perform]; try apply keeps_discard;
    try (apply keeps_tenancy; auto).
  - apply keeps_grant; [|apply member_added_roles]. intros user role scoped Hm. by apply record_roles.
  - apply keeps_create. intros user role scoped Hm. by apply record_roles.
  - apply patch_roles.
  - apply keeps_reset.
Qed.
End roles.

(** C5: no member gives a role that can do more than its own: after any sequence of
    requests, of any callers, a user has at most one membership per tenant, the
    owners of every tenant are those it had, and every membership that was not
    there before was given by a caller of its tenant, in a role whose capabilities
    are among those of the caller's. *)
Theorem roles_never_escalate rs s :
  NoDup (map member_key (memberships (tenancy s.2))) ->
  let before := memberships (tenancy s.2) in
  let after := memberships (tenancy (perform_all rs s).2) in
  NoDup (map member_key after) /\ List.filter is_owner after = List.filter is_owner before /\
  forall m, m ∈ after -> m ∈ before \/ exists c r, (c, r) ∈ rs /\ given c m.
Proof.
  intros Hnd before after.
  set (known := fun m => m ∈ before \/ exists c r, (c, r) ∈ rs /\ given c m).
  enough (Hk : roles_ok (List.filter is_owner before) known (perform_all rs s).1 (tenancy (perform_all rs s).2)).
  { destruct Hk as [K1 K2 K3]. done. }
  assert (Hs : roles_ok (List.filter is_owner before) known s.1 (tenancy s.2)) by (split; [done..|by left]).
  assert (Hrs : forall c r m, (c, r) ∈ rs -> given c m -> known m) by (intros; right; eauto).
  clearbody known before. clear after Hnd. revert s Hs.
  induction rs as [|[c r] rs IH]; intros s Hs; [done|]. cbn [perform_all]. apply IH.
  - intros c' r' m Hin. apply (Hrs c' r'). by apply list_elem_of_further.
  - assert (Hk := perform_roles (List.filter is_owner before) known c (fun m => Hrs c r m (list_elem_of_here _ _)) r s.1 s.2 Hs).
    destruct s as [n db]. cbn [fst snd] in Hk. destruct (perform c r (n, db)) as [x [n' db']]. apply Hk.
Qed.

(** ** Accounts *)

(** A membership that can be inserted. *)
Lemma insert_membership_run tenantId userId role n db :
  membership_of userId tenantId db = None ->
  returns (insert_membership tenantId userId role) (n, db) tt
    (S n, set_memberships (memberships db ++ [new_membership tenantId userId role (uuid n)]) db).
Proof.
  intros Hm. apply returns_bind. exists (uuid n), (S n, db). split; [done|]. apply insert_unique_run.
  unfold membership_of in Hm. apply head_None, filter_b_nil in Hm. rewrite <- Hm. unfold same_membership. cbn.
  f_equal. extensionality r. apply andb_comm.
Qed.

Lemma http_check {S A B} (a : A) (k : A -> M S (HttpResult B)) s b s' :
  returns (k a) s b s' -> returns (http_bind (mret (inl a)) k) s b s'.
Proof. intros Hk. apply returns_bind. by exists (inl a), s. Qed.

Lemma call_run {A} (request : accounts -> auth_result A * accounts) n db :
  call request (n, db) = (Ok (request (auth db)).1, (n, set_auth (request (auth db)).2 db)).
Proof. done. Qed.

(** An administrator can take over any account that signs in with a password:
    granting access adds the account of an email address to the caller's tenant
    without its consent, and a member's password can be reset.  Two requests that
    succeed leave the service with the password of the caller's choice, whatever
    other tenants the account is a member or the owner of. *)
Theorem any_account_taken_over c email password u users a1 u' a2 a3 n db :
  tenant_role (au_role c) = Some admin ->
  au_param c "tenant_id" = Some (au_tenantId c) -> is_uuid (au_tenantId c) = true ->
  au_param c "user_id" = Some (us_id u) -> is_uuid (us_id u) = true ->
  membership_of (us_id u) (au_tenantId c) (tenancy db) = None ->
  list_users (auth db) = (inl users, a1) ->
  nonempty (toLowerCase (trim email)) = true ->
  js_find (fun u => opt_eq ((fun e => toLowerCase (trim e)) <$> us_email u) (toLowerCase (trim email))) users = Some u ->
  get_user (us_id u) a1 = (inl u', a2) -> us_provider u' = Some "email" ->
  update_password (us_id u) password a2 = (inl tt, a3) ->
  exists s1 s2,
    returns (perform c (grant_access {| iv_email := email; iv_role := "guest"; iv_project_id := None |})) (n, db) (inl tt) s1 /\
    returns (perform c (change_password password)) s1 (inl tt) s2 /\ auth s2.2 = a3 /\
    forall m, m ∈ memberships (tenancy db) -> m ∈ memberships (tenancy s2.2).
Proof.
  intros Hrole Hpt Ht Hpu Hu Hm Hl He Hf Hg Hprov Hup.
  assert (Hparam : requireTenantParamAccess c = inl (au_tenantId c)).
  { unfold requireTenantParamAccess, validateUuidParam. rewrite Hpt, Ht. cbn. by rewrite String.eqb_refl. }
  assert (Hcap : forall k message, canPerform admin k (tenant_context c) = true -> requireTenantCapability c k message = inl tt).
  { intros k message Hk. unfold requireTenantCapability, with_role. rewrite Hrole. cbn [from_option]. by rewrite Hk. }
  assert (Hgive : with_role (au_role c) (fun actor => with_role "guest" (canInviteTenantRole actor)) = true).
  { unfold with_role at 1. by rewrite Hrole. }
  assert (Hscope : with_role (au_role c) (fun actor => negb (canInviteWithoutProjectScope actor)) = false).
  { unfold with_role. by rewrite Hrole. }
  set (row := new_membership (au_tenantId c) (us_id u) "guest" (uuid n)).
  set (db1 := {| tenancy := set_memberships (memberships (tenancy db) ++ [row]) (tenancy db); auth := a1 |}).
  exists (S n, db1), (S n, set_auth a3 db1). split; [|split; [|split; [done|]]].
  - cbn [perform]. unfold discard, invite_route, grantTenantAccess. cbn [iv_role iv_email iv_project_id].
    change (isAssignableTenantRole "guest") with true. cbv iota. rewrite Hparam, (Hcap "members.invite") by done.
    apply returns_bind. eexists (granted 201 _ _ _), (S n, db1). split; [|done]. apply http_check. cbv zeta. apply http_check.
    rewrite Hgive, Hscope. cbn [negb andb]. change (scoped_project "guest" None) with (@None string). apply http_check.
    apply returns_bind. exists (inl (Some u)), (n, set_auth a1 db). split.
    { unfold findUserByEmail. rewrite He. cbn [negb]. unfold returns, mbind, eff_bind. rewrite call_run, Hl. cbn. by rewrite Hf. }
    unfold grant_known. apply returns_bind. exists None, (n, set_auth a1 db). split; [unfold returns, gets; cbn; by rewrite Hm|].
    apply returns_bind. exists tt, (S n, db1). split; [|done]. apply returns_zoom.
    exists (S n, tenancy db1). split; [|done]. apply returns_transaction, returns_bind. exists tt, (S n, tenancy db1). split; [|done].
    by apply insert_membership_run.
  - cbn [perform]. unfold reset_password. rewrite Hparam, (Hcap "members.reset_password") by done.
    unfold validateUuidParam. rewrite Hpu, Hu. apply http_check, http_check, http_check.
    assert (Hmem : membership_of (us_id u) (au_tenantId c) (tenancy db1) = Some row).
    { unfold membership_of, db1 in *. cbn [tenancy memberships set_memberships]. rewrite List.filter_app.
      apply head_None in Hm. rewrite Hm. cbn. by rewrite !String.eqb_refl. }
    apply returns_bind. exists (Some row), (S n, db1). split; [unfold returns, gets; cbn [fst snd]; by rewrite Hmem|].
    apply returns_bind. exists (inl (Some u')), (S n, set_auth a2 db1). split.
    { unfold getUser. apply returns_bind. eexists (inl u'), _. split; [unfold returns; rewrite call_run; cbn; by rewrite Hg|done]. }
    cbv beta iota. rewrite Hprov. cbn - [call]. apply returns_bind. exists (inl tt), (S n, set_auth a3 db1).
    split; [|done]. unfold returns. rewrite call_run. cbn. by rewrite Hup.
  - intros m Hin. cbn. apply elem_of_app. by left.
Qed.
End requests.

(** ** Witnesses *)

(** Identifiers of any form, and a service that keeps accounts with passwords. *)
Definition any_format : Formats := {| is_uuid _ := true; is_email _ := true |}.

Definition example_account (id email : string) : AuthAdminUser :=
  {| us_id := id; us_email := Some email; us_email_confirmed_at := Some "2024-01-01T00:00:00Z"; us_provider := Some "email" |}.

Definition example_service : AuthService := {|
  accounts := list (AuthAdminUser * string);
  list_users a := (inl (map fst a), a);
  invite_user email a := let u := example_account email email in (inl u, a ++ [(u, EmptyString)]);
  create_user email password a := let u := example_account email email in (inl u, a ++ [(u, password)]);
  delete_user id a := (inl tt, List.filter (fun x => negb (String.eqb (us_id x.1) id)) a);
  get_user id a := (match js_find (fun u => String.eqb (us_id u) id) (map fst a) with
                    | Some u => inl u | None => inr (upstream 404) end, a);
  update_password id password a := (inl tt, map (fun x => if String.eqb (us_id x.1) id then (x.1, password) else x) a)
|}.

(** Two tenants: an administrator of "A", the owner of "B" and her project. *)
Definition access_example_db : @access_db example_service :=
  @Build_access_db example_service
    {| memberships := [{| mb_id := "m1"; mb_tenant_id := "A"; mb_user_id := "alice"; mb_role := "admin" |};
                       {| mb_id := "m2"; mb_tenant_id := "B"; mb_user_id := "bob"; mb_role := "owner" |}];
       projects := [{| pj_id := "PA"; pj_tenant_id := "A"; pj_name := "a"; pj_effective_to := VALID_TO_INFINITY |};
                    {| pj_id := "PB"; pj_tenant_id := "B"; pj_name := "b"; pj_effective_to := VALID_TO_INFINITY |}];
       project_members := [];
       project_tokens := [{| tk_id := "TB"; tk_project_id := "PB"; tk_tenant_id := "B"; tk_name := "ci"; tk_owner_user_id := "bob";
                             tk_created_by_user_id := "bob"; tk_token_hash := "h"; tk_token_prefix := "h"; tk_last_used_at := None;
                             tk_expires_at := None; tk_revoked_at := None; tk_revoked_by_user_id := None |}];
       tenant_entitlements := [] |}
    [(example_account "alice" "alice@a.io", "secret"); (example_account "bob" "bob@b.io", "hidden")].

Definition access_example_caller (role user : string) : AuthContext :=
  {| au_tenantId := "A"; au_tenantKind := "customer"; au_userId := "alice"; au_role := role;
     au_param := fun name => if String.eqb name "tenant_id" then Some "A" else if String.eqb name "user_id" then Some user
                             else Some "PB" |}.

(** Requests of the administrator of "A", some of them for what is of "B". *)
Definition access_example_requests : list (AuthContext * access_request) :=
  let c := access_example_caller "admin" "bob" in
  [(c, delete_project); (c, revoke_token "PB" "TB"); (c, rotate_token "PA" "TB"); (c, create_project "new");
   (c, create_token "PA" {| tb_name := "ci"; tb_expires_at := None |}); (c, revoke_token "PA" "TB");
   (c, grant_access {| iv_email := "bob@b.io"; iv_role := "member"; iv_project_id := Some "PA" |}); (c, change_role "admin")].

Definition access_example_run :=
  @perform_all example_env any_format example_service (fun n => pretty n) (fun token => token) access_example_requests
    (0%nat, access_example_db).

Lemma tenants_isolated_witness :
  tenant_rows "B" (tenancy access_example_run.2) = tenant_rows "B" (tenancy access_example_db) /\
  map (fun m => (mb_user_id m, mb_role m)) (memberships (tenancy access_example_run.2)) =
    [("alice", "admin"); ("bob", "owner"); ("bob", "admin")].
Proof.
  split.
  - apply (@tenants_isolated example_env any_format example_service); [exact example_uuid_inj| |].
    + split; cbn.
      * repeat constructor; set_solver.
      * intros p m Hp _. repeat (apply elem_of_cons in Hp as [->|Hp];
          [by apply (example_uuid_other "P"); [intros d; unfold pretty_N_char; repeat case_match|]|]). by apply not_elem_of_nil in Hp.
      * intros t [->|[]%not_elem_of_nil]%elem_of_cons. exists {| pj_id := "PB"; pj_tenant_id := "B"; pj_name := "b"; pj_effective_to := VALID_TO_INFINITY |}.
        split; [set_solver|done].
    + intros c r Hin. unfold access_example_requests in Hin. cbn in Hin.
      repeat (apply elem_of_cons in Hin as [[= -> ->]|Hin]; [discriminate|]). by apply not_elem_of_nil in Hin.
  - vm_compute. reflexivity.
Defined.

Lemma roles_never_escalate_witness :
  List.filter is_owner (memberships (tenancy access_example_run.2)) = [{| mb_id := "m2"; mb_tenant_id := "B"; mb_user_id := "bob"; mb_role := "owner" |}].
Proof.
  destruct (@roles_never_escalate example_env any_format example_service (fun n => pretty n) (fun token => token)
    access_example_requests (0%nat, access_example_db)) as (_ & He & _).
  - cbn. repeat constructor; set_solver.
  - exact He.
Defined.

(** The owner of "B" is made a guest of "A" and loses her password. *)
Lemma any_account_taken_over_witness :
  exists s2, js_find (fun x => String.eqb (us_id x.1) "bob") (@auth example_service s2.2) = Some (example_account "bob" "bob@b.io", "mine") /\
    {| mb_id := "m2"; mb_tenant_id := "B"; mb_user_id := "bob"; mb_role := "owner" |} ∈ memberships (@tenancy example_service (@snd nat _ s2)).
Proof.
  destruct (@any_account_taken_over example_env any_format example_service (fun n => pretty n) (fun token => token)
    (access_example_caller "admin" "bob") "bob@b.io" "mine" (example_account "bob" "bob@b.io")
    [example_account "alice" "alice@a.io"; example_account "bob" "bob@b.io"] (@auth example_service access_example_db)
    (example_account "bob" "bob@b.io") (@auth example_service access_example_db)
    [(example_account "alice" "alice@a.io", "secret"); (example_account "bob" "bob@b.io", "mine")]
    0%nat access_example_db) as (s1 & s2 & _ & _ & Ha & Hm); try reflexivity.
  exists s2. split; [rewrite Ha; reflexivity|]. apply Hm. cbn. set_solver.
Defined.
