(* ===== verification/CheckService.v ===== *)
(** * The check of a request (services/api/src/connect/check-service.ts)

    [handleCheck] answers a proxy that asks whether a package version may be
    served: it authorises the project token, resolves the package in the
    catalogue, checks the plan, loads the policy, evaluates the connectors and the
    rules, and records the request, the evaluation and its violations.

    What the program starts without awaiting runs here where it is started; the
    fetches left behind are returned with the answer.  Timings and logs are left
    out.  The hash of a token and the ingestion of a contributor slice are
    parameters. *)

From S2P Require Import Prelude JsString JsNum JsValue Sql Effects JsDate Constants Identity Schema Tenancy Catalog ConnectorTypes Jsonb Cache Findings Snapshots Effective Decision Resolver Evaluation Violations.
Local Open Scope string_scope.
Local Open Scope list_scope.
Local Open Scope Z_scope.

(** ** Requests and answers *)

(** connect/proxy-context.ts *)
Record VerifiedProxyContext := {
  px_proxyId : string; px_tenantId : string; px_tenantScope : option string; px_proxyIp : option string
}.

Definition proxyAllowsTenant (proxy : VerifiedProxyContext) (tenantId : string) : bool :=
  bool_decide (px_tenantScope proxy = Some TENANT_PROXY_SCOPE_ALL_TENANTS) || String.eqb tenantId (px_tenantId proxy).

Record CheckRequest := {
  cq_project_token : string; cq_ecosystem : string; cq_package : string; cq_version : string;
  cq_trace_id : string; cq_request_id : string; cq_span_id : string;
  cq_client_ip : option string; cq_proxy_ip : option string;
  cq_requested_ref : option string; cq_resolved_ref : option string; cq_ref_resolution_source : option string;
  cq_related_versions : option (list PackageVersionRelatedVersionInput);
  cq_contributor_context : option ContributorContext
}.

Record CheckOutcome := {
  oc_decision : Z; oc_reason : string; oc_detail : string; oc_cache_ttl_seconds : Z;
  oc_serve_mode : ServeMode; oc_tenant_id : string; oc_project_id : string
}.

(** ** Tables *)

Record event_row := {
  ev_id : string; ev_tenant_id : string; ev_project_id : option string; ev_proxy_id : string;
  ev_package_id : option string; ev_package_version_id : option string; ev_decision : string;
  ev_reason : option string; ev_source : string; ev_event_type : string; ev_trace_id : option string;
  ev_span_id : option string; ev_request_id : option string; ev_serve_mode : option string;
  ev_project_token_id : option string; ev_client_ip : option string; ev_proxy_ip : option string;
  ev_raw_identity : option RawArtifactIdentity; ev_requested_ref : option string; ev_resolved_ref : option string;
  ev_ref_resolution_source : option string; ev_decision_cache : option bool; ev_bytes_transferred : option Z;
  ev_duration_ms : option Z; ev_decision_path : option string; ev_requested_at : timestamp; ev_created_at : timestamp
}.

(** What a connected dashboard is sent of an event (types/event.ts). *)
Record EventPayload := {
  ep_id : string; ep_tenant_id : string; ep_project_id : option string; ep_source : string;
  ep_event_type : string; ep_proxy_id : string; ep_ecosystem : string; ep_package : string;
  ep_version : string; ep_decision : string; ep_reason : option string; ep_serve_mode : option string;
  ep_decision_cache : option bool; ep_bytes_transferred : option Z;
  ep_trace_id : option string; ep_span_id : option string; ep_request_id : option string;
  ep_requested_ref : option string; ep_resolved_ref : option string; ep_ref_resolution_source : option string;
  ep_project_token_id : option string; ep_client_ip : option string; ep_proxy_ip : option string;
  ep_requested_at : string; ep_created_at : string; ep_cve_severity : option string; ep_fix_version : option string
}.

(** The tables of a check; [published] are the events handed to the subscription
    manager, with the tenant they are for. *)
Record gateway_db := {
  tenancy_tables : tenancy_db; policy_tables : policy_db; check_tables : check_db;
  record_tables : record_db; events : list event_row; published : list (string * EventPayload)
}.

Definition set_tenancy (t : tenancy_db) (db : gateway_db) : gateway_db :=
  {| tenancy_tables := t; policy_tables := policy_tables db; check_tables := check_tables db;
     record_tables := record_tables db; events := events db; published := published db |}.
Definition set_check_tables (t : check_db) (db : gateway_db) : gateway_db :=
  {| tenancy_tables := tenancy_tables db; policy_tables := policy_tables db; check_tables := t;
     record_tables := record_tables db; events := events db; published := published db |}.
Definition set_record_tables (t : record_db) (db : gateway_db) : gateway_db :=
  {| tenancy_tables := tenancy_tables db; policy_tables := policy_tables db; check_tables := check_tables db;
     record_tables := t; events := events db; published := published db |}.
Definition set_events (l : list event_row) (db : gateway_db) : gateway_db :=
  {| tenancy_tables := tenancy_tables db; policy_tables := policy_tables db; check_tables := check_tables db;
     record_tables := record_tables db; events := l; published := published db |}.
Definition set_published (l : list (string * EventPayload)) (db : gateway_db) : gateway_db :=
  {| tenancy_tables := tenancy_tables db; policy_tables := policy_tables db; check_tables := check_tables db;
     record_tables := record_tables db; events := events db; published := l |}.

Definition GM : Type -> Type := M gateway_db.

Definition on_tenancy {A} : M tenancy_db A -> GM A := zoom tenancy_tables set_tenancy.
Definition on_check {A} : EM A -> GM A := zoom check_tables set_check_tables.
Definition on_records {A} : M record_db A -> GM A := zoom record_tables set_record_tables.

Definition buildCheckOutcome (decision : Z) (reason detail : string) (cacheTtlSeconds : Z) (serveMode : ServeMode)
    (tenantId projectId : option string) : CheckOutcome :=
  {| oc_decision := decision; oc_reason := reason; oc_detail := detail; oc_cache_ttl_seconds := cacheTtlSeconds;
     oc_serve_mode := serveMode; oc_tenant_id := default EmptyString tenantId;
     oc_project_id := default EmptyString projectId |}.

(** The request with its canonical identity. *)
Definition normalized_request (req : CheckRequest) (artifact : ArtifactIdentity) : CheckRequest :=
  {| cq_project_token := cq_project_token req; cq_ecosystem := id_ecosystem (identity artifact);
     cq_package := id_package (identity artifact); cq_version := default EmptyString (id_version (identity artifact));
     cq_trace_id := cq_trace_id req; cq_request_id := cq_request_id req; cq_span_id := cq_span_id req;
     cq_client_ip := cq_client_ip req; cq_proxy_ip := cq_proxy_ip req; cq_requested_ref := cq_requested_ref req;
     cq_resolved_ref := cq_resolved_ref req; cq_ref_resolution_source := cq_ref_resolution_source req;
     cq_related_versions := cq_related_versions req; cq_contributor_context := cq_contributor_context req |}.

Definition request_identity (req : CheckRequest) : PackageIdentityInput :=
  {| i_ecosystem := cq_ecosystem req; i_package := cq_package req; i_version := Some (cq_version req) |}.

Definition evaluation_request (req : CheckRequest) : EvaluationRequest :=
  {| rq_identity := request_identity req; rq_request_id := cq_request_id req; rq_trace_id := cq_trace_id req;
     rq_contributor_context := cq_contributor_context req |}.

Section check.
Context `{Env} `{SqlOrder} `{TextDriver} {C : Type} `{PackageIntelligenceConnector C}.
Context (handleEvent : C -> ConnectorEvent -> check_db -> timestamp -> fetch_outcome).
Context (hashProjectToken : string -> string) (prefetch : CheckRequest -> list C -> EM unit).

(** ** Authorisation *)

(** The rows of a token whose project is current. *)
Definition token_rows (tokenHash : string) (db : tenancy_db) : list project_token_row :=
  (List.filter (fun r => String.eqb (tk_token_hash r.1) tokenHash && (pj_effective_to r.2 =? VALID_TO_INFINITY))
     (inner_join (fun t p => String.eqb (tk_project_id t) (pj_id p)) (project_tokens db) (projects db))).*1.

Definition loadAuthorizedProjectToken (proxy : VerifiedProxyContext) (projectToken : string)
  : GM (option project_token_row) :=
  row ← gets (fun db => head (token_rows (hashProjectToken projectToken) (tenancy_tables db)));
  match row with
  | None => mret None
  | Some t =>
      if negb (proxyAllowsTenant proxy (tk_tenant_id t)) then mret None
      else match tk_revoked_at t with
           | Some _ => mret None
           | None =>
               match tk_expires_at t with
               | None => mret (Some t)
               | Some expires => now ← now_; mret (if expires <=? now then None else Some t)
               end
           end
  end.

Definition scheduleProjectTokenLastUsedUpdate (tokenRow : project_token_row) : GM unit :=
  now ← now_;
  on_tenancy (modify (fun db => set_tokens
    (update_where (fun t => String.eqb (tk_id t) (tk_id tokenRow)) (used_token now) (project_tokens db)) db)).

Record CheckContext := {
  cc_tokenRow : project_token_row; cc_tenantId : string; cc_projectId : string; cc_defaultCacheTtl : Z;
  cc_serveMode : ServeMode; cc_entitledEcosystems : option (list string)
}.

Definition loadCheckContext (proxy : VerifiedProxyContext) (req : CheckRequest) : GM (option CheckContext) :=
  tokenRow ← loadAuthorizedProjectToken proxy (cq_project_token req);
  match tokenRow with
  | None => mret None
  | Some t =>
      _ ← scheduleProjectTokenLastUsedUpdate t;
      e ← gets (fun db => head (List.filter (fun e => String.eqb (te_tenant_id e) (tk_tenant_id t)) (tenant_entitlements (tenancy_tables db))));
      mret (Some {| cc_tokenRow := t; cc_tenantId := tk_tenant_id t; cc_projectId := tk_project_id t;
                    cc_defaultCacheTtl := from_option te_cache_ttl_seconds 300 e;
                    cc_serveMode := if from_option (fun e => String.eqb (te_serve_mode e) SERVE_MODE.PULL) false e
                                    then PULL_MODE else REDIRECT_MODE;
                    cc_entitledEcosystems := e ≫= te_allowed_ecosystems |})
  end.

(** ** Recording the request *)

Definition event_columns (proxy : VerifiedProxyContext) (tenantId projectId : string) (tokenRow : project_token_row)
    (req : CheckRequest) (artifact : ArtifactIdentity) (decision : Z) (reason : string) (serveMode : ServeMode)
    (eventId : string) (requestedAt createdAt : timestamp) : event_row :=
  {| ev_id := eventId; ev_tenant_id := tenantId; ev_project_id := Some projectId; ev_proxy_id := px_proxyId proxy;
     ev_package_id := package_id (catalog artifact); ev_package_version_id := package_version_id (catalog artifact);
     ev_decision := if decision =? DECISION_ALLOW then DECISION.ALLOW else DECISION.BLOCK;
     ev_reason := Some reason; ev_source := "policy_engine"; ev_event_type := "proxy_request";
     ev_trace_id := present (Some (cq_trace_id req)); ev_span_id := present (Some (cq_span_id req));
     ev_request_id := present (Some (cq_request_id req));
     ev_serve_mode := if decision =? DECISION_ALLOW then serveModeToString serveMode else None;
     ev_project_token_id := Some (tk_id tokenRow); ev_client_ip := cq_client_ip req; ev_proxy_ip := cq_proxy_ip req;
     ev_raw_identity := Some (raw artifact); ev_requested_ref := present (cq_requested_ref req);
     ev_resolved_ref := present (cq_resolved_ref req);
     ev_ref_resolution_source := present (cq_ref_resolution_source req);
     ev_decision_cache := None; ev_bytes_transferred := None; ev_duration_ms := None; ev_decision_path := None;
     ev_requested_at := requestedAt; ev_created_at := createdAt |}.

Definition event_payload (artifact : ArtifactIdentity) (row : event_row) : EventPayload :=
  {| ep_id := ev_id row; ep_tenant_id := ev_tenant_id row;
     ep_project_id := Some (default EmptyString (ev_project_id row)); ep_source := ev_source row;
     ep_event_type := ev_event_type row; ep_proxy_id := ev_proxy_id row;
     ep_ecosystem := id_ecosystem (identity artifact); ep_package := id_package (identity artifact);
     ep_version := default EmptyString (id_version (identity artifact)); ep_decision := ev_decision row;
     ep_reason := ev_reason row; ep_serve_mode := ev_serve_mode row;
     ep_decision_cache := None; ep_bytes_transferred := None; ep_trace_id := ev_trace_id row;
     ep_span_id := ev_span_id row; ep_request_id := ev_request_id row; ep_requested_ref := ev_requested_ref row;
     ep_resolved_ref := ev_resolved_ref row; ep_ref_resolution_source := ev_ref_resolution_source row;
     ep_project_token_id := ev_project_token_id row; ep_client_ip := ev_client_ip row; ep_proxy_ip := ev_proxy_ip row;
     ep_requested_at := toISOString (ev_requested_at row); ep_created_at := toISOString (ev_created_at row);
     ep_cve_severity := None; ep_fix_version := None |}.

(** The event's id, or [None] when the insert failed. *)
Definition recordCheckEvent (proxy : VerifiedProxyContext) (tenantId projectId : string) (tokenRow : project_token_row)
    (req : CheckRequest) (artifact : ArtifactIdentity) (decision : Z) (reason : string) (serveMode : ServeMode)
    (eventId : option string) (publishToSse : bool) : GM (option string) :=
  eventId ← match eventId with Some id => mret id | None => fresh end;
  requestedAt ← now_;
  try_catch
    (createdAt ← now_;
     let row := event_columns proxy tenantId projectId tokenRow req artifact decision reason serveMode eventId
                  requestedAt createdAt in
     _ ← insert_unique events set_events (fun new r => String.eqb (ev_id r) (ev_id new)) row;
     _ ← if publishToSse
         then modify (fun db => set_published (published db ++ [(tenantId, event_payload artifact row)]) db)
         else mret tt;
     mret (Some eventId))
    (fun _ => mret None).

(** The evaluation of a project without rules; an error is only logged. *)
Definition recordPolicyEvaluation (e : recorded_evaluation) : GM unit :=
  evaluatedAt ← now_;
  _ ← attempt (on_records (insert_evaluation (evaluation_columns e evaluatedAt)));
  mret tt.

(** ** The check *)

(** What the proxy is told, the evaluation if there was one, and the fetches left
    behind. *)
Definition checked : Type := CheckOutcome * list (@late_fetch C).

Definition empty_snapshot (tenantId projectId : string) (at_ : timestamp) : PolicySnapshot :=
  {| resolvedAt := at_; snap_tenantId := tenantId; snap_projectId := projectId; snap_policies := []; allRules := [] |}.

(** The branch of a request without a version. *)
Definition answerMetadataRequest (proxy : VerifiedProxyContext) (cc : CheckContext) (req : CheckRequest)
    (artifact : ArtifactIdentity) (connectors : list C) : GM checked :=
  _ ← on_check (warmPackageScopedConnectors handleEvent artifact connectors
        {| ctx_tenantId := Some (cc_tenantId cc); ctx_projectId := Some (cc_projectId cc); ctx_requestId := None;
           ctx_traceId := None; ctx_proxyId := None |});
  _ ← recordCheckEvent proxy (cc_tenantId cc) (cc_projectId cc) (cc_tokenRow cc) req artifact DECISION_ALLOW
        "metadata_request" (cc_serveMode cc) None false;
  mret (buildCheckOutcome DECISION_ALLOW "metadata_request" "Package metadata request — no version to evaluate"
          (cc_defaultCacheTtl cc) (cc_serveMode cc) (Some (cc_tenantId cc)) (Some (cc_projectId cc)), []).

(** The branch of a project without rules. *)
Definition answerWithoutPolicy (proxy : VerifiedProxyContext) (cc : CheckContext) (req : CheckRequest)
    (artifact : ArtifactIdentity) (evalStart : timestamp) : GM checked :=
  now ← now_;
  evaluationId ← fresh;
  eventId ← fresh;
  insertedEventId ← recordCheckEvent proxy (cc_tenantId cc) (cc_projectId cc) (cc_tokenRow cc) req artifact
    DECISION_BLOCK "no_policy" UNSPECIFIED (Some eventId) false;
  _ ← recordPolicyEvaluation
        {| re_evaluationId := evaluationId; re_tenant_id := cc_tenantId cc; re_project_id := cc_projectId cc;
           re_artifact := artifact; re_decision := DECISION.BLOCK; re_policiesEvaluated := 0; re_rulesEvaluated := 0;
           re_rulesMatched := 0; re_connectorSnapshotMeta := []; re_durationMs := now - evalStart;
           re_eventId := insertedEventId; re_fieldValues := [];
           re_policySnapshot := empty_snapshot (cc_tenantId cc) (cc_projectId cc) now; re_violations := [] |};
  mret (buildCheckOutcome DECISION_BLOCK "no_policy" "No active policy configured for this project or tenant" 0
          UNSPECIFIED (Some (cc_tenantId cc)) (Some (cc_projectId cc)), []).

Definition decision_name (decision : Z) : string :=
  if decision =? DECISION_ALLOW then DECISION.ALLOW else DECISION.BLOCK.

(** A recorded violation with what the check knows of it; reads the clock. *)
Definition collected_for_write (cc : CheckContext) (evaluationId : string) (v : violation)
  : GM CollectedViolationForWrite :=
  evaluatedAt ← now_;
  mret {| w_violation := v; w_project_token_id := Some (tk_id (cc_tokenRow cc)); w_tenant_id := cc_tenantId cc;
          w_project_id := cc_projectId cc; w_entity_type := "artifact"; w_evaluation_id := evaluationId;
          w_evaluated_at := evaluatedAt |}.

(** The branch of a version with rules. *)
Definition answerByPolicy (proxy : VerifiedProxyContext) (cc : CheckContext) (req : CheckRequest)
    (artifact : ArtifactIdentity) (connectors : list C) (evalStart : timestamp) (snapshot : PolicySnapshot) : GM checked :=
  collected ← on_check (collectConnectorEvaluationFields handleEvent (prefetch req connectors)
    (evaluation_request req) connectors (cc_tenantId cc) (cc_projectId cc) artifact);
  d ← of_res (evaluatePolicyDecision (allRules snapshot) (ef_fields collected) (cc_defaultCacheTtl cc) (cc_serveMode cc));
  evaluationId ← fresh;
  eventId ← fresh;
  now ← now_;
  insertedEventId ← recordCheckEvent proxy (cc_tenantId cc) (cc_projectId cc) (cc_tokenRow cc) req artifact
    (decision d) (reason d) (serveMode d) (Some eventId) true;
  ws ← mapM_ (collected_for_write cc evaluationId) (collectedViolations d);
  findings ← gets (fun db => finding_tables (check_tables db));
  _ ← on_records (recordPolicyEvaluationWithViolations findings
        {| re_evaluationId := evaluationId; re_tenant_id := cc_tenantId cc; re_project_id := cc_projectId cc;
           re_artifact := artifact; re_decision := decision_name (decision d);
           re_policiesEvaluated := Z.of_nat (length (snap_policies snapshot));
           re_rulesEvaluated := Z.of_nat (rulesEvaluated d); re_rulesMatched := Z.of_nat (rulesMatched d);
           re_connectorSnapshotMeta := ef_connectorMeta collected; re_durationMs := now - evalStart;
           re_eventId := insertedEventId; re_fieldValues := ef_fields collected;
           re_policySnapshot := snapshot; re_violations := ws |});
  mret (buildCheckOutcome (decision d) (reason d) (detail d) (cacheTtl d) (serveMode d)
          (Some (cc_tenantId cc)) (Some (cc_projectId cc)), ef_late collected).

(** The references and related versions a request shows. *)
Definition recordReferences (req : CheckRequest) (artifact : ArtifactIdentity) : EM unit :=
  _ ← match present (cq_requested_ref req) with
      | None => mret tt
      | Some _ =>
          on_catalog (recordObservedPackageVersionRefs
            {| or_ecosystem := id_ecosystem (identity artifact); or_package_id := package_id (catalog artifact);
               or_package_version_id := package_version_id (catalog artifact); or_version := id_version (identity artifact);
               or_requested_ref := cq_requested_ref req; or_resolved_ref := cq_resolved_ref req;
               or_ref_resolution_source := cq_ref_resolution_source req; or_observed_at := None |})
      end;
  on_catalog (recordPackageVersionRelatedVersions
    {| rl_ecosystem := id_ecosystem (identity artifact); rl_package := id_package (identity artifact);
       rl_package_id := package_id (catalog artifact); rl_package_version_id := package_version_id (catalog artifact);
       rl_related_versions := cq_related_versions req; rl_observed_at := None |}).

(** Whether the plan includes an ecosystem; no list means all. *)
Definition entitled (cc : CheckContext) (ecosystem : string) : bool :=
  match cc_entitledEcosystems cc with
  | None => true
  | Some allowed => existsb (String.eqb ecosystem) allowed
  end.

Definition invalidToken : CheckOutcome :=
  buildCheckOutcome DECISION_BLOCK "invalid_token" "Token not found, expired, or has been revoked" 0 UNSPECIFIED None None.

Definition handleCheck (proxy : VerifiedProxyContext) (req : CheckRequest) (connectors : list C) : GM checked :=
  checkContext ← loadCheckContext proxy req;
  match checkContext with
  | None => mret (invalidToken, [])
  | Some cc =>
      artifact ← on_check (on_catalog (resolveArtifactIdentity
        {| ai_input := request_identity req; ai_source := Some "check"; ai_parser_version := None |}));
      _ ← on_check (recordReferences req artifact);
      let req := normalized_request req artifact in
      if negb (entitled cc (cq_ecosystem req)) then
        mret (buildCheckOutcome DECISION_BLOCK "ecosystem_not_permitted"
                (cq_ecosystem req +:+ " is not available on your current plan") (cc_defaultCacheTtl cc) UNSPECIFIED
                (Some (cc_tenantId cc)) (Some (cc_projectId cc)), [])
      else if negb (nonempty (cq_version req)) then answerMetadataRequest proxy cc req artifact connectors
      else
        evalStart ← now_;
        resolvedAt ← now_;
        snapshot ← gets (fun db => loadEffectivePolicy (policy_tables db) (cc_tenantId cc) (cc_projectId cc) resolvedAt);
        snapshot ← of_res snapshot;
        match allRules snapshot with
        | [] => answerWithoutPolicy proxy cc req artifact evalStart
        | _ => answerByPolicy proxy cc req artifact connectors evalStart snapshot
        end
  end.
End check.
