(* ===== verification/Proxies.v ===== *)
(** * Proxies and their credentials (services/api/src/features/proxies/,
    features/internal-proxy-auth/, connect/proxy-auth.ts, auth/proxy-jwt.ts,
    auth/internal-service-jwt.ts, connect/record-proxy-status-service.ts)

    A tenant registers proxies; each has a secret, stored as its hash, which it
    exchanges for short-lived runtime tokens.  Every call of a proxy carries one.
    The random bytes, the hash function and the library that signs and verifies
    tokens are parameters; logs and the list for the dashboard are left out. *)

From S2P Require Import Prelude JsString Sql Effects Constants Tenancy Rbac CheckService.
Local Open Scope string_scope.
Local Open Scope list_scope.
Local Open Scope Z_scope.

(** ** Tables *)

Record proxy_row := {
  py_id : string; py_tenant_id : string; py_proxy_id : string; py_name : string; py_status : string; py_tenant_scope : string;
  py_secret_hash : string; py_secret_prev_hash : option string; py_secret_prev_expires_at : option timestamp;
  py_secret_prefix : string; py_disabled_at : option timestamp; py_secret_rotated_at : option timestamp;
  py_last_seen_at : option timestamp
}.

Record proxy_status_event_row := {
  se_tenant_id : string; se_proxy_id : string; se_proxy_ip : option string; se_event_type : string;
  se_actor_user_id : option string; se_detail : option string
}.

Record proxy_db := { proxies : list proxy_row; proxy_status_events : list proxy_status_event_row }.

Definition set_proxies (l : list proxy_row) (db : proxy_db) : proxy_db :=
  {| proxies := l; proxy_status_events := proxy_status_events db |}.
Definition set_status_events (l : list proxy_status_event_row) (db : proxy_db) : proxy_db :=
  {| proxies := proxies db; proxy_status_events := l |}.

Definition PM : Type -> Type := M proxy_db.

Inductive TenantProxyScope : Type := OWNER_ONLY | ALL_TENANTS.

#[export] Instance TenantProxyScope_eq_dec : EqDecision TenantProxyScope.
Proof. solve_decision. Defined.

Definition scope_name (s : TenantProxyScope) : string :=
  match s with OWNER_ONLY => "owner_only" | ALL_TENANTS => TENANT_PROXY_SCOPE_ALL_TENANTS end.

(** ** status-events.ts *)

Definition PROXY_STATUS_EVENT_TYPES : list string :=
  ["proxy_service_running"; "proxy_service_stopped"; "control_plane_unavailable"; "control_plane_available";
   "token_exchange_attempt"; "token_issued"; "token_exchange_failed"; "proxy_disabled"; "proxy_enabled"; "secret_rotated";
   "proxy_revoked"].

Definition assertProxyStatusEventType (eventType : string) : res unit :=
  if existsb (String.eqb eventType) PROXY_STATUS_EVENT_TYPES then Ok tt
  else Throw ("unknown proxy status event type: " +:+ (if nonempty eventType then eventType else "<empty>")).

Definition insertProxyStatusEvent (e : proxy_status_event_row) : PM unit :=
  _ ← of_res (assertProxyStatusEventType (se_event_type e));
  modify (fun db => set_status_events (proxy_status_events db ++ [e]) db).

Definition handleRecordProxyStatus (proxy : VerifiedProxyContext) (eventType : string) : PM unit :=
  _ ← of_res (assertProxyStatusEventType eventType);
  insertProxyStatusEvent
    {| se_tenant_id := px_tenantId proxy; se_proxy_id := px_proxyId proxy; se_proxy_ip := px_proxyIp proxy;
       se_event_type := eventType; se_actor_user_id := None; se_detail := None |}.

(** ** lifecycle-service.ts *)

Record LifecycleInput := { li_tenantId : string; li_proxyId : string; li_actorUserId : string }.

Definition lifecycle_event (input : LifecycleInput) (eventType : string) : proxy_status_event_row :=
  {| se_tenant_id := li_tenantId input; se_proxy_id := li_proxyId input; se_proxy_ip := None; se_event_type := eventType;
     se_actor_user_id := Some (li_actorUserId input); se_detail := None |}.

Definition own_proxy (tenantId proxyId : string) (r : proxy_row) : bool :=
  String.eqb (py_proxy_id r) proxyId && String.eqb (py_tenant_id r) tenantId.

(** [db.update(proxies).set(...).where(...).returning(...)], of which the first row
    is used. *)
Definition update_proxies (p : proxy_row -> bool) (f : proxy_row -> proxy_row) : PM (option proxy_row) :=
  row ← gets (fun db => head (map f (List.filter p (proxies db))));
  _ ← modify (fun db => set_proxies (update_where p f (proxies db)) db);
  mret row.

Definition with_status (status : string) (at_ : timestamp) (r : proxy_row) : proxy_row :=
  {| py_id := py_id r; py_tenant_id := py_tenant_id r; py_proxy_id := py_proxy_id r; py_name := py_name r; py_status := status;
     py_tenant_scope := py_tenant_scope r; py_secret_hash := py_secret_hash r; py_secret_prev_hash := py_secret_prev_hash r;
     py_secret_prev_expires_at := py_secret_prev_expires_at r; py_secret_prefix := py_secret_prefix r;
     py_disabled_at := if String.eqb status "disabled" || String.eqb status "revoked" then Some at_ else None;
     py_secret_rotated_at := py_secret_rotated_at r; py_last_seen_at := py_last_seen_at r |}.

Definition with_secret (hash prefix : string) (previousSecretExpiresAt rotatedAt : timestamp) (r : proxy_row) : proxy_row :=
  {| py_id := py_id r; py_tenant_id := py_tenant_id r; py_proxy_id := py_proxy_id r; py_name := py_name r; py_status := py_status r;
     py_tenant_scope := py_tenant_scope r; py_secret_hash := hash; py_secret_prev_hash := Some (py_secret_hash r);
     py_secret_prev_expires_at := Some previousSecretExpiresAt; py_secret_prefix := prefix; py_disabled_at := py_disabled_at r;
     py_secret_rotated_at := Some rotatedAt; py_last_seen_at := py_last_seen_at r |}.

Definition with_scope (scope : TenantProxyScope) (r : proxy_row) : proxy_row :=
  {| py_id := py_id r; py_tenant_id := py_tenant_id r; py_proxy_id := py_proxy_id r; py_name := py_name r; py_status := py_status r;
     py_tenant_scope := scope_name scope; py_secret_hash := py_secret_hash r; py_secret_prev_hash := py_secret_prev_hash r;
     py_secret_prev_expires_at := py_secret_prev_expires_at r; py_secret_prefix := py_secret_prefix r;
     py_disabled_at := py_disabled_at r; py_secret_rotated_at := py_secret_rotated_at r; py_last_seen_at := py_last_seen_at r |}.

Definition seen_proxy (at_ : timestamp) (r : proxy_row) : proxy_row :=
  {| py_id := py_id r; py_tenant_id := py_tenant_id r; py_proxy_id := py_proxy_id r; py_name := py_name r; py_status := py_status r;
     py_tenant_scope := py_tenant_scope r; py_secret_hash := py_secret_hash r; py_secret_prev_hash := py_secret_prev_hash r;
     py_secret_prev_expires_at := py_secret_prev_expires_at r; py_secret_prefix := py_secret_prefix r;
     py_disabled_at := py_disabled_at r; py_secret_rotated_at := py_secret_rotated_at r; py_last_seen_at := Some at_ |}.

(** What a secret is shown as, once. *)
Record new_secret := { ns_proxy_id : string; ns_secret : string; ns_prefix : string }.

Section proxies.
Context `{Env} `{Formats} (randomBytesHex : nat -> string) (hashSecret : string -> string).

(** The raw secret, its hash and its prefix. *)
Definition generateProxySecret : PM (string * string * string) :=
  hex ← draw randomBytesHex;
  let rawSecret := "cxp_" +:+ hex in
  mret (rawSecret, hashSecret rawSecret, take_str 12 rawSecret).

Definition setProxyStatus (tenantId proxyId nextStatus : string) : PM (option proxy_row) :=
  now ← now_;
  update_proxies (own_proxy tenantId proxyId) (with_status nextStatus now).

(** A change of status and the event that tells of it. *)
Definition change_status (input : LifecycleInput) (status eventType : string) : PM (option proxy_row) :=
  row ← setProxyStatus (li_tenantId input) (li_proxyId input) status;
  match row with
  | None => mret None
  | Some row => _ ← insertProxyStatusEvent (lifecycle_event input eventType); mret (Some row)
  end.

Definition disableProxy (input : LifecycleInput) : PM (option proxy_row) := change_status input "disabled" "proxy_disabled".
Definition enableProxy (input : LifecycleInput) : PM (option proxy_row) := change_status input "active" "proxy_enabled".
Definition revokeProxy (input : LifecycleInput) : PM (option proxy_row) := change_status input "revoked" "proxy_revoked".

Definition rotateProxySecret (input : LifecycleInput) : PM (option new_secret) :=
  secret ← generateProxySecret;
  let '(rawSecret, secretHash, secretPrefix) := secret in
  now ← now_;
  let previousSecretExpiresAt := now + 60 * 60 * 1000 in
  rotatedAt ← now_;
  row ← update_proxies (own_proxy (li_tenantId input) (li_proxyId input))
          (with_secret secretHash secretPrefix previousSecretExpiresAt rotatedAt);
  match row with
  | None => mret None
  | Some row =>
      _ ← insertProxyStatusEvent (lifecycle_event input "secret_rotated");
      mret (Some {| ns_proxy_id := py_proxy_id row; ns_secret := rawSecret; ns_prefix := secretPrefix |})
  end.

(** ** service.ts *)

Definition new_proxy (tenantId proxyId name secretHash secretPrefix id : string) : proxy_row :=
  {| py_id := id; py_tenant_id := tenantId; py_proxy_id := proxyId; py_name := name; py_status := "active";
     py_tenant_scope := scope_name OWNER_ONLY; py_secret_hash := secretHash; py_secret_prev_hash := None;
     py_secret_prev_expires_at := None; py_secret_prefix := secretPrefix; py_disabled_at := None;
     py_secret_rotated_at := None; py_last_seen_at := None |}.

Definition createProxy (tenantId name : string) : PM new_secret :=
  proxyId ← fresh;
  secret ← generateProxySecret;
  let '(rawSecret, secretHash, secretPrefix) := secret in
  id ← fresh;
  _ ← insert_unique proxies set_proxies (fun new r => String.eqb (py_proxy_id r) (py_proxy_id new))
        (new_proxy tenantId proxyId name secretHash secretPrefix id);
  mret {| ns_proxy_id := proxyId; ns_secret := rawSecret; ns_prefix := secretPrefix |}.

Definition updateProxyTenantScope (tenantId proxyId : string) (tenantScope : TenantProxyScope) : PM (option proxy_row) :=
  update_proxies (own_proxy tenantId proxyId) (with_scope tenantScope).

(** ** routes.ts *)

Definition may_manage_proxies (c : AuthContext) : HttpResult unit :=
  requireTenantCapability c "proxies.write" "You do not have access to manage proxies".

Definition proxy_not_found {A} : HttpResult A := errorResult 404 "NOT_FOUND" "Proxy not found" None.

Definition create_proxy_route (c : AuthContext) (name : string) : PM (HttpResult new_secret) :=
  let? _ := mret (may_manage_proxies c) in
  proxy ← createProxy (au_tenantId c) name;
  mret (okResult proxy).

(** A route on one proxy of the caller's tenant. *)
Definition proxy_route {A} (c : AuthContext) (op : LifecycleInput -> PM (option A)) : PM (HttpResult A) :=
  let? proxyId := mret (validateUuidParam c "proxyId" "Proxy ID") in
  let? _ := mret (may_manage_proxies c) in
  row ← op {| li_tenantId := au_tenantId c; li_proxyId := proxyId; li_actorUserId := au_userId c |};
  match row with
  | None => mret proxy_not_found
  | Some row => mret (okResult row)
  end.

Definition disable_proxy_route (c : AuthContext) : PM (HttpResult proxy_row) := proxy_route c disableProxy.
Definition enable_proxy_route (c : AuthContext) : PM (HttpResult proxy_row) := proxy_route c enableProxy.
Definition revoke_proxy_route (c : AuthContext) : PM (HttpResult proxy_row) := proxy_route c revokeProxy.
Definition rotate_secret_route (c : AuthContext) : PM (HttpResult new_secret) := proxy_route c rotateProxySecret.

Definition proxy_scope_route (c : AuthContext) (tenant_scope : TenantProxyScope) : PM (HttpResult proxy_row) :=
  let? proxyId := mret (validateUuidParam c "proxyId" "Proxy ID") in
  let? _ := mret (may_manage_proxies c) in
  let? _ := mret (if bool_decide (tenant_scope = ALL_TENANTS)
                  then requireTenantCapability c "platform.proxies.set_all_tenants"
                         "You do not have access to share proxies across tenants"
                  else okResult tt) in
  row ← updateProxyTenantScope (au_tenantId c) proxyId tenant_scope;
  match row with
  | None => mret proxy_not_found
  | Some row => mret (okResult row)
  end.

(** ** proxy-auth.ts: the registration secret *)

Record ProxyCredentials := { cr_proxySecret : option string; cr_proxyId : option string; cr_proxyIp : option string }.

Definition hashesMatch (expectedHex : option string) (providedHex : string) : bool :=
  match present expectedHex with Some expected => String.eqb expected providedHex | None => false end.

(** [proxyRow.secret_prev_expires_at > new Date()] *)
Definition previous_still_valid (row : proxy_row) (secretHash : string) : PM bool :=
  if hashesMatch (py_secret_prev_hash row) secretHash then
    match py_secret_prev_expires_at row with
    | Some expires => now ← now_; mret (now <? expires)
    | None => mret false
    end
  else mret false.

Definition named_proxy (proxyId : string) (db : proxy_db) : option proxy_row :=
  head (List.filter (fun r => String.eqb (py_proxy_id r) proxyId) (proxies db)).

Definition requireBootstrapAuthenticatedProxy (input : ProxyCredentials) : PM proxy_row :=
  match present (cr_proxySecret input), present (cr_proxyId input) with
  | Some proxySecret, Some proxyId =>
      let secretHash := hashSecret proxySecret in
      row ← gets (named_proxy proxyId);
      match row with
      | None => throw "unregistered_proxy"
      | Some row =>
          previousSecretStillValid ← previous_still_valid row secretHash;
          if negb (hashesMatch (Some (py_secret_hash row)) secretHash) && negb previousSecretStillValid
          then throw "invalid_proxy_secret" else mret row
      end
  | _, _ => throw "unregistered_proxy"
  end.

(** ** bootstrap-auth-service.ts *)

Record BootstrapAuthFailure := {
  bf_status : Z; bf_code : string; bf_message : string; bf_detail : option string;
  bf_auditProxy : option (string * string); bf_auditDetail : string
}.

Definition refused_proxy (row : proxy_row) (code message detail : string) : BootstrapAuthFailure :=
  {| bf_status := 403; bf_code := code; bf_message := message; bf_detail := None;
     bf_auditProxy := Some (py_tenant_id row, py_proxy_id row); bf_auditDetail := detail |}.

Definition unauthenticated (input : ProxyCredentials) (err : string) : PM BootstrapAuthFailure :=
  let code := if String.eqb err "invalid_proxy_secret" then "INVALID_PROXY_SECRET" else "UNREGISTERED_PROXY" in
  proxy ← match present (cr_proxyId input) with Some proxyId => gets (named_proxy proxyId) | None => mret None end;
  mret {| bf_status := 401; bf_code := code;
          bf_message := if String.eqb code "INVALID_PROXY_SECRET" then "Proxy secret is incorrect" else "Proxy is not registered";
          bf_detail := None; bf_auditProxy := (fun r => (py_tenant_id r, py_proxy_id r)) <$> proxy; bf_auditDetail := err |}.

Definition authenticateBootstrapProxy (input : ProxyCredentials) : PM (proxy_row + BootstrapAuthFailure) :=
  try_catch
    (proxy ← requireBootstrapAuthenticatedProxy input;
     if String.eqb (py_status proxy) "disabled"
     then mret (inr (refused_proxy proxy "PROXY_DISABLED" "Proxy is disabled" "proxy_disabled"))
     else if String.eqb (py_status proxy) "revoked"
     then mret (inr (refused_proxy proxy "PROXY_REVOKED" "Proxy is revoked" "proxy_revoked"))
     else mret (inl proxy))
    (fun err => failure ← unauthenticated input err; mret (inr failure)).

End proxies.
