(* ===== verification/RuntimeTokens.v ===== *)
(** * Runtime tokens of proxies (services/api/src/auth/internal-service-jwt.ts,
    auth/proxy-jwt.ts, features/internal-proxy-auth/token-exchange-service.ts,
    connect/proxy-auth.ts)

    A proxy exchanges its secret for a signed token, with which it calls the control
    plane until the token expires.  Signing and verifying are operations of the
    library that implements them, with the laws its documentation states; the key
    and its algorithm are part of that library's configuration. *)

From S2P Require Import Prelude JsString Sql Effects Constants Rbac CheckService Proxies.
Local Open Scope string_scope.
Local Open Scope list_scope.
Local Open Scope Z_scope.

(** The claims of a token that the program reads.  A claim of another type than the
    program expects is one it does not have. *)
Record JwtPayload := {
  jp_iss : string; jp_aud : string; jp_sub : option string; jp_jti : option string; jp_exp : option Z;
  jp_service : option string; jp_tenant_id : option string; jp_project_id : option string; jp_scope : list string;
  jp_proxy_id : option string; jp_tenant_scope : option string
}.

(** Seconds since the epoch, as tokens have them. *)
Definition epoch (t : timestamp) : Z := t / 1000.

(** The library: [jwt_sign] may use random bits; [jwt_verify] checks the signature,
    the issuer, the audience and, where there is one, the expiry. *)
Class Jose : Type := {
  jwt_sign : nat -> JwtPayload -> string;
  jwt_verify : string -> string -> string -> timestamp -> option JwtPayload;
  jwt_verify_signed n p issuer audience now :
    jwt_verify (jwt_sign n p) issuer audience now =
    if String.eqb (jp_iss p) issuer && String.eqb (jp_aud p) audience && from_option (fun exp => epoch now <? exp) true (jp_exp p)
    then Some p else None;
  jwt_plain n p : trim (jwt_sign n p) = jwt_sign n p /\ jwt_sign n p <> EmptyString
}.

Definition ISSUER : string := "customs-control-plane".
Definition proxy_audience : string := "customs-proxy-rpc".

(** ** internal-service-jwt.ts *)

Record InternalServiceClaims := {
  ic_service : string; ic_tenantId : option string; ic_projectId : option string; ic_scope : list string;
  ic_subject : string; ic_audience : string; ic_proxy_id : option string; ic_tenant_scope : option string
}.

Record RuntimeToken := { rt_accessToken : string; rt_expiresAt : timestamp; rt_refreshAfter : timestamp }.

Record VerifiedInternalServiceJwtClaims := {
  vc_subject : string; vc_service : string; vc_jti : string; vc_expiresAt : timestamp; vc_tenantId : option string;
  vc_projectId : option string; vc_scope : list string; vc_claims : JwtPayload
}.

Record VerifiedProxyJwtClaims := {
  vp_proxyId : string; vp_tenantId : string; vp_tenantScope : TenantProxyScope; vp_jti : string; vp_expiresAt : timestamp
}.

Definition parseTenantScope (value : option string) : TenantProxyScope :=
  if bool_decide (value = Some TENANT_PROXY_SCOPE_ALL_TENANTS) then ALL_TENANTS else OWNER_ONLY.

Section runtime.
Context `{Env} `{Jose} (hashSecret : string -> string) (proxyJwtTtlSeconds : Z).

Definition issueInternalServiceRuntimeToken {S} (input : InternalServiceClaims) : M S RuntimeToken :=
  now ← now_;
  let expiresAt := now + proxyJwtTtlSeconds * 1000 in
  jti ← fresh;
  accessToken ← draw (fun n => jwt_sign n
    {| jp_iss := ISSUER; jp_aud := ic_audience input; jp_sub := Some (ic_subject input); jp_jti := Some jti;
       jp_exp := Some (epoch expiresAt); jp_service := Some (ic_service input); jp_tenant_id := present (ic_tenantId input);
       jp_project_id := present (ic_projectId input); jp_scope := ic_scope input; jp_proxy_id := ic_proxy_id input;
       jp_tenant_scope := ic_tenant_scope input |});
  mret {| rt_accessToken := accessToken; rt_expiresAt := expiresAt;
          rt_refreshAfter := now + proxyJwtTtlSeconds * 8 / 10 * 1000 |}.

Definition verifyInternalServiceRuntimeToken (token audience : string) (now : timestamp) : res VerifiedInternalServiceJwtClaims :=
  match jwt_verify token ISSUER audience now with
  | None => Throw "JWSSignatureVerificationFailed"
  | Some p =>
      match jp_sub p, jp_service p, jp_jti p, jp_exp p with
      | Some sub, Some service, Some jti, Some exp =>
          Ok {| vc_subject := sub; vc_service := service; vc_jti := jti; vc_expiresAt := exp * 1000;
                vc_tenantId := jp_tenant_id p; vc_projectId := jp_project_id p; vc_scope := jp_scope p; vc_claims := p |}
      | _, _, _, _ => Throw "internal_service_jwt_missing_claims"
      end
  end.

(** ** proxy-jwt.ts *)

Definition issueProxyRuntimeToken {S} (proxyId tenantId tenantScope : string) : M S RuntimeToken :=
  issueInternalServiceRuntimeToken
    {| ic_service := "proxy"; ic_tenantId := Some tenantId; ic_projectId := None; ic_scope := []; ic_subject := proxyId;
       ic_audience := proxy_audience; ic_proxy_id := Some proxyId; ic_tenant_scope := Some tenantScope |}.

Definition verifyProxyRuntimeToken (token : string) (now : timestamp) : res VerifiedProxyJwtClaims :=
  let! claims := verifyInternalServiceRuntimeToken token proxy_audience now in
  match jp_proxy_id (vc_claims claims), vc_tenantId claims with
  | Some proxyId, Some tenantId =>
      if String.eqb (vc_service claims) "proxy"
      then Ok {| vp_proxyId := proxyId; vp_tenantId := tenantId; vp_tenantScope := parseTenantScope (jp_tenant_scope (vc_claims claims));
                 vp_jti := vc_jti claims; vp_expiresAt := vc_expiresAt claims |}
      else Throw "proxy_jwt_missing_claims"
  | _, _ => Throw "proxy_jwt_missing_claims"
  end.

(** ** proxy-auth.ts: the interceptor *)

Record rpc_headers := { rh_authorization : option string; rh_remote_addr : option string }.

Definition bearer_token (h : rpc_headers) : string :=
  let authorization := default EmptyString (rh_authorization h) in
  if startsWith authorization "Bearer " then trim (drop_str 7 authorization) else EmptyString.

Definition proxyJwtAuth {S} (h : rpc_headers) : M S VerifiedProxyContext :=
  let token := bearer_token h in
  if negb (nonempty token) then throw "invalid_proxy_token"
  else
    now ← now_;
    match verifyProxyRuntimeToken token now with
    | Ok claims => mret {| px_proxyId := vp_proxyId claims; px_tenantId := vp_tenantId claims;
                           px_tenantScope := Some (scope_name (vp_tenantScope claims)); px_proxyIp := present (rh_remote_addr h) |}
    | Throw _ => throw "invalid_proxy_token"
    end.

(** ** token-exchange-service.ts *)

Definition exchange_event (tenantId proxyId : string) (proxyIp : option string) (eventType : string) (detail : option string)
  : proxy_status_event_row :=
  {| se_tenant_id := tenantId; se_proxy_id := proxyId; se_proxy_ip := proxyIp; se_event_type := eventType;
     se_actor_user_id := None; se_detail := detail |}.

Record ExchangeFailure := { ef_status : Z; ef_code : string; ef_message : string; ef_detail : option string }.

(** The events of a refused exchange with a known proxy. *)
Definition audit_failure (input : ProxyCredentials) (f : BootstrapAuthFailure) : PM unit :=
  match bf_auditProxy f with
  | None => mret tt
  | Some (tenantId, proxyId) =>
      _ ← (if String.eqb (bf_code f) "PROXY_DISABLED" || String.eqb (bf_code f) "PROXY_REVOKED"
           then insertProxyStatusEvent (exchange_event tenantId proxyId (cr_proxyIp input) "token_exchange_attempt" None)
           else mret tt);
      insertProxyStatusEvent (exchange_event tenantId proxyId (cr_proxyIp input) "token_exchange_failed" (Some (bf_auditDetail f)))
  end.

Definition exchangeProxyRuntimeToken (input : ProxyCredentials) : PM (RuntimeToken + ExchangeFailure) :=
  authResult ← authenticateBootstrapProxy hashSecret input;
  match authResult with
  | inr f =>
      _ ← audit_failure input f;
      mret (inr {| ef_status := bf_status f; ef_code := bf_code f; ef_message := bf_message f; ef_detail := bf_detail f |})
  | inl proxy =>
      let event type := exchange_event (py_tenant_id proxy) (py_proxy_id proxy) (cr_proxyIp input) type None in
      _ ← insertProxyStatusEvent (event "token_exchange_attempt");
      token ← issueProxyRuntimeToken (py_proxy_id proxy) (py_tenant_id proxy) (py_tenant_scope proxy);
      seen ← now_;
      _ ← modify (fun db => set_proxies (update_where (fun r => String.eqb (py_id r) (py_id proxy)) (seen_proxy seen) (proxies db)) db);
      _ ← insertProxyStatusEvent (event "token_issued");
      mret (inl token)
  end.

(** ** routes/internal.ts: the token route *)

(** [proxyTokenHeaderSchema] *)
Definition parseProxyTokenHeaders `{Formats} (proxyId proxySecret proxyIp : option string) : HttpResult ProxyCredentials :=
  match proxyId, proxySecret with
  | Some id, Some secret =>
      if is_uuid id && nonempty secret && (Z.of_nat (String.length secret) <=? 512)
         && from_option (fun ip => Z.of_nat (String.length ip) <=? 255) true proxyIp
      then okResult {| cr_proxySecret := Some secret; cr_proxyId := Some id; cr_proxyIp := proxyIp |}
      else errorResult 400 "BAD_REQUEST" "Proxy authentication headers are invalid" None
  | _, _ => errorResult 400 "BAD_REQUEST" "Proxy authentication headers are invalid" None
  end.

Definition proxy_token_route `{Formats} (proxyId proxySecret proxyIp : option string) : PM (HttpResult RuntimeToken) :=
  let? credentials := mret (parseProxyTokenHeaders proxyId proxySecret proxyIp) in
  result ← exchangeProxyRuntimeToken credentials;
  match result with
  | inl token => mret (okResult token)
  | inr f => mret (errorResult (ef_status f) (ef_code f) (ef_message f) (ef_detail f))
  end.
End runtime.
