(* ===== verification/ProxySpec.v ===== *)
(** * What the credentials of proxies guarantee

    Only a registered proxy that is in force gets runtime tokens, and only with its
    current or just rotated secret; a token stands for its proxy until it expires; a
    proxy that serves other tenants was shared by a platform operator. *)

From Stdlib Require Import Ascii.
From S2P Require Import Prelude JsString Sql Effects Constants Tenancy Rbac AccessCorrect AccessSpec CheckService Proxies RuntimeTokens.
Local Open Scope string_scope.
Local Open Scope list_scope.
Local Open Scope Z_scope.

Section proxies.
Context `{Env} `{Formats} `{Jose} (randomBytesHex : nat -> string) (hashSecret : string -> string) (ttl : Z).

(** ** Exchanges *)

Lemma insert_event_inv e s u s' :
  returns (insertProxyStatusEvent e) s u s' ->
  s' = (s.1, set_status_events (proxy_status_events s.2 ++ [e]) s.2) /\ se_event_type e ∈ PROXY_STATUS_EVENT_TYPES.
Proof.
  intros Hr. apply returns_bind in Hr as (x & s1 & Ha & Hr). apply returns_of_res in Ha as [Ha ->].
  apply returns_modify in Hr as [_ ->]. split; [done|]. unfold assertProxyStatusEventType in Ha.
  destruct (existsb _ _) eqn:E; [|done]. by apply existsb_eqb in E.
Qed.

(** The secret of a proxy: the current one, or the one before while it is valid. *)
Definition opens (row : proxy_row) (secret : string) (at_ : timestamp) : Prop :=
  py_secret_hash row = hashSecret secret \/
  py_secret_prev_hash row = Some (hashSecret secret) /\ exists expires, py_secret_prev_expires_at row = Some expires /\ at_ < expires.

Lemma hashesMatch_spec expected provided : hashesMatch expected provided = true <-> expected = Some provided /\ provided <> EmptyString.
Proof.
  unfold hashesMatch. destruct (present expected) as [e|] eqn:E.
  - apply present_some in E as [-> He]. rewrite String.eqb_eq. split; [by intros <-|by intros [[= ->] _]].
  - split; [done|]. intros [-> Hp]. by destruct provided.
Qed.

(** What the first part of an exchange finds. *)
Lemma require_inv input s row s' :
  returns (requireBootstrapAuthenticatedProxy hashSecret input) s row s' ->
  s'.2 = s.2 /\ exists secret proxyId, cr_proxySecret input = Some secret /\ cr_proxyId input = Some proxyId /\
    named_proxy proxyId s.2 = Some row /\ opens row secret (clock s.1).
Proof.
  intros Hr. unfold requireBootstrapAuthenticatedProxy in Hr.
  destruct (present (cr_proxySecret input)) as [secret|] eqn:Es; [|by apply returns_throw in Hr].
  destruct (present (cr_proxyId input)) as [proxyId|] eqn:Ei; [|by apply returns_throw in Hr].
  apply present_some in Es as [Es _], Ei as [Ei _].
  apply returns_bind in Hr as (o & s1 & Hg & Hr). apply returns_gets in Hg as [-> ->].
  destruct (named_proxy proxyId s.2) as [r|] eqn:En; [|by apply returns_throw in Hr].
  apply returns_bind in Hr as (valid & s2 & Hv & Hr). run_if Eh; [by apply returns_throw in Hr|]. apply returns_ret in Hr as [-> ->].
  assert (Hvalid : s2.2 = s.2 /\ (valid = true -> opens r secret (clock s.1))).
  { unfold previous_still_valid in Hv. destruct (hashesMatch (py_secret_prev_hash r) _) eqn:Ep; [|by apply returns_ret in Hv as [-> ->]].
    destruct (py_secret_prev_expires_at r) as [expires|] eqn:Ee; [|by apply returns_ret in Hv as [-> ->]].
    apply returns_bind in Hv as (now & s3 & Hn & Hv). apply returns_now in Hn as [-> ->]. apply returns_ret in Hv as [-> ->].
    split; [done|]. intros Hlt%Z.ltb_lt. apply hashesMatch_spec in Ep as [Ep _]. right. split; [done|]. by exists expires. }
  destruct Hvalid as [Hs Hvalid]. split; [done|]. exists secret, proxyId. split_and!; try done.
  apply andb_false_iff in Eh as [Eh%negb_false_iff|Eh%negb_false_iff]; [|by apply Hvalid].
  apply hashesMatch_spec in Eh as [[= Eh] _]. by left.
Qed.

Definition in_force (row : proxy_row) : Prop := py_status row <> "disabled" /\ py_status row <> "revoked".

Lemma unauthenticated_inv input err s f s' : returns (unauthenticated input err) s f s' -> s' = s.
Proof.
  intros Hr. apply returns_bind in Hr as (o & s1 & Hg & Hr). apply returns_ret in Hr as [_ ->].
  destruct (present (cr_proxyId input)); [by apply returns_gets in Hg as [_ ->]|by apply returns_ret in Hg as [_ ->]].
Qed.

Lemma authenticate_inv input s row s' :
  returns (authenticateBootstrapProxy hashSecret input) s (inl row) s' ->
  in_force row /\ s'.2 = s.2 /\ exists secret proxyId, cr_proxySecret input = Some secret /\ cr_proxyId input = Some proxyId /\
    named_proxy proxyId s.2 = Some row /\ opens row secret (clock s.1).
Proof.
  intros Hr. apply returns_try in Hr as [Hr|(m & s1 & _ & Hr)].
  - apply returns_bind in Hr as (r & s2 & Hq & Hr). apply require_inv in Hq as [Hs Hq].
    run_if E1; [by apply returns_ret in Hr as [? _]|]. run_if E2; [by apply returns_ret in Hr as [? _]|].
    apply returns_ret in Hr as [[= ->] ->]. apply String.eqb_neq in E1, E2. done.
  - apply returns_bind in Hr as (f & s2 & _ & Hr). by apply returns_ret in Hr as [? _].
Qed.

(** The claims of a proxy's token. *)
Definition proxy_claims (row : proxy_row) (jti : string) (expiresAt : timestamp) : JwtPayload :=
  {| jp_iss := ISSUER; jp_aud := proxy_audience; jp_sub := Some (py_proxy_id row); jp_jti := Some jti;
     jp_exp := Some (epoch expiresAt); jp_service := Some "proxy"; jp_tenant_id := present (Some (py_tenant_id row));
     jp_project_id := None; jp_scope := []; jp_proxy_id := Some (py_proxy_id row); jp_tenant_scope := Some (py_tenant_scope row) |}.

Lemma exchange_inv input s token s' :
  returns (exchangeProxyRuntimeToken hashSecret ttl input) s (inl token) s' ->
  exists row secret proxyId n m jti seen,
    cr_proxySecret input = Some secret /\ cr_proxyId input = Some proxyId /\ named_proxy proxyId (s.2) = Some row /\
    in_force row /\ opens row secret (clock s.1) /\
    rt_expiresAt token = clock n + ttl * 1000 /\ rt_accessToken token = jwt_sign m (proxy_claims row jti (rt_expiresAt token)) /\
    proxies s'.2 = update_where (fun r => String.eqb (py_id r) (py_id row)) (seen_proxy seen) (proxies s.2) /\
    proxy_status_events s'.2 = proxy_status_events s.2 ++
      [exchange_event (py_tenant_id row) (py_proxy_id row) (cr_proxyIp input) "token_exchange_attempt" None;
       exchange_event (py_tenant_id row) (py_proxy_id row) (cr_proxyIp input) "token_issued" None].
Proof.
  intros Hr. apply returns_bind in Hr as (a & s1 & Ha & Hr). destruct a as [row|f].
  - apply authenticate_inv in Ha as (Hf & Hs & secret & proxyId & K1 & K2 & K3 & K4).
    apply returns_bind in Hr as (u & s2 & He & Hr). apply insert_event_inv in He as [-> _].
    apply returns_bind in Hr as (tok & s3 & Ht & Hr). apply returns_bind in Hr as (seen & s4 & Hn & Hr). apply returns_now in Hn as [-> ->].
    apply returns_bind in Hr as (u2 & s5 & Hm & Hr). apply returns_modify in Hm as [_ ->].
    apply returns_bind in Hr as (u3 & s6 & He & Hr). apply insert_event_inv in He as [-> _]. apply returns_ret in Hr as [[= ->] ->].
    apply returns_bind in Ht as (now & s7 & Hn & Ht). apply returns_now in Hn as [-> ->].
    apply returns_bind in Ht as (jti & s8 & Hn & Ht). apply returns_fresh in Hn as [-> ->].
    apply returns_bind in Ht as (acc & s9 & Hd & Ht). apply returns_draw in Hd as [-> ->]. apply returns_ret in Ht as [-> ->].
    cbn [fst snd]. rewrite Hs. do 7 eexists. split_and!; [exact K1|exact K2|exact K3|exact Hf|exact K4|reflexivity|reflexivity|reflexivity|].
    cbn. rewrite <- app_assoc. done.
  - apply returns_bind in Hr as (u & s2 & _ & Hr). by apply returns_ret in Hr as [? _].
Qed.

(** The headers of a call with a token. *)
Definition with_token (token : string) (addr : option string) : rpc_headers :=
  {| rh_authorization := Some ("Bearer " +:+ token); rh_remote_addr := addr |}.

Definition proxy_context (row : proxy_row) (addr : option string) : VerifiedProxyContext :=
  {| px_proxyId := py_proxy_id row; px_tenantId := py_tenant_id row;
     px_tenantScope := Some (scope_name (parseTenantScope (Some (py_tenant_scope row)))); px_proxyIp := present addr |}.

Lemma token_accepted {S} row jti expiresAt m addr (s : nat * S) :
  py_tenant_id row <> EmptyString ->
  proxyJwtAuth (with_token (jwt_sign m (proxy_claims row jti expiresAt)) addr) s =
  (if epoch (clock s.1) <? epoch expiresAt then Ok (proxy_context row addr) else Throw "invalid_proxy_token",
   (Datatypes.S s.1, s.2)).
Proof.
  intros Ht. set (p := proxy_claims row jti expiresAt). destruct (jwt_plain m p) as [Htrim Hne].
  assert (Hb : bearer_token (with_token (jwt_sign m p) addr) = jwt_sign m p).
  { change (bearer_token _) with (let a := "Bearer " +:+ jwt_sign m p in if startsWith a "Bearer " then trim (drop_str 7 a) else EmptyString).
    cbn zeta. by rewrite startsWith_app, (drop_str_app "Bearer "). }
  unfold proxyJwtAuth. rewrite Hb. destruct (nonempty (jwt_sign m p)) eqn:En; [|by destruct (jwt_sign m p)].
  cbn [negb]. unfold mbind, eff_bind, now_. cbn [fst snd]. unfold verifyProxyRuntimeToken, verifyInternalServiceRuntimeToken.
  rewrite jwt_verify_signed. cbn [p jp_iss jp_aud jp_exp proxy_claims from_option]. rewrite !String.eqb_refl. cbn [andb].
  assert (Hp : present (Some (py_tenant_id row)) = Some (py_tenant_id row)) by by apply present_some.
  destruct (epoch (clock s.1) <? epoch expiresAt); [|done]. unfold p. cbn -[present]. by rewrite Hp.
Qed.

(** C13: A runtime token is issued only to a registered proxy in force that shows its
    current secret, or the one before while it is valid; the exchange and the issue
    are recorded; and until it expires, the lifetime configured after its issue,
    the token, and from then on it does not, stands for that proxy, its tenant and
    the scope it had, on any call. *)
Theorem exchange_authenticates (input : ProxyCredentials) (n : nat) (db : proxy_db) (token : RuntimeToken) (n' : nat) (db' : proxy_db)
  (Htenants : forall r, r ∈ proxies db -> py_tenant_id r <> EmptyString)
  (Hrun : returns (exchangeProxyRuntimeToken hashSecret ttl input) (n, db) (inl token) (n', db')) :
  exists row secret proxyId issued,
    cr_proxySecret input = Some secret /\ cr_proxyId input = Some proxyId /\
    row ∈ proxies db /\ py_proxy_id row = proxyId /\ in_force row /\ opens row secret (clock n) /\
    rt_expiresAt token = clock issued + ttl * 1000 /\
    map se_event_type (proxy_status_events db') = map se_event_type (proxy_status_events db) ++ ["token_exchange_attempt"; "token_issued"] /\
    forall S addr (s : nat * S),
      proxyJwtAuth (with_token (rt_accessToken token) addr) s =
      (if epoch (clock s.1) <? epoch (rt_expiresAt token) then Ok (proxy_context row addr) else Throw "invalid_proxy_token",
       (Datatypes.S s.1, s.2)).
Proof.
  apply exchange_inv in Hrun as (row & secret & proxyId & issued & m & jti & seen & Hs & Hi & Hn & Hf & Ho & He & Ht & _ & Hev).
  assert (Hrow : row ∈ proxies db /\ py_proxy_id row = proxyId).
  { by apply head_filter in Hn as [Hin Hid%String.eqb_eq]. }
  destruct Hrow as [Hrow Hid]. exists row, secret, proxyId, issued. split_and!; try done.
  - cbn [snd] in Hev. rewrite Hev, map_app. done.
  - intros S addr s. rewrite Ht. apply token_accepted. by apply Htenants.
Qed.

(** ** Requests *)

Inductive proxy_request : Type :=
| create_request (c : AuthContext) (name : string)
| disable_request (c : AuthContext)
| enable_request (c : AuthContext)
| revoke_request (c : AuthContext)
| rotate_request (c : AuthContext)
| scope_request (c : AuthContext) (scope : TenantProxyScope)
| token_request (proxyId proxySecret proxyIp : option string)
| status_request (proxy : VerifiedProxyContext) (eventType : string).

Definition discard {A} (e : PM A) : PM unit := _ ← e; mret tt.

Definition perform (r : proxy_request) : PM unit :=
  match r with
  | create_request c name => discard (create_proxy_route randomBytesHex hashSecret c name)
  | disable_request c => discard (disable_proxy_route c)
  | enable_request c => discard (enable_proxy_route c)
  | revoke_request c => discard (revoke_proxy_route c)
  | rotate_request c => discard (rotate_secret_route randomBytesHex hashSecret c)
  | scope_request c scope => discard (proxy_scope_route c scope)
  | token_request id secret ip => discard (proxy_token_route hashSecret ttl id secret ip)
  | status_request proxy eventType => handleRecordProxyStatus proxy eventType
  end.

(** Requests one after another, whatever becomes of each. *)
Definition perform_all (rs : list proxy_request) : PM (list (res unit)) := mapM_ (fun r => attempt (perform r)) rs.

(** What a request writes to the table of proxies: a row of a new proxy, or other
    values of some columns of rows. *)
Section writes.
Context (I : list proxy_row -> Prop).

Definition kept (_ : nat) (db : proxy_db) : Prop := I (proxies db).

Lemma kept_mono : monotone kept.
Proof. by intros n m db _ Hk. Qed.

Lemma keeps_event e : keeps kept (insertProxyStatusEvent e).
Proof. unfold insertProxyStatusEvent. keeps_walk. done. Qed.

Lemma keeps_update p f : (forall l, I l -> I (update_where p f l)) -> keeps kept (update_proxies p f).
Proof. intros Hf. unfold update_proxies. keeps_walk. by apply Hf. Qed.

Lemma keeps_change_status input status event :
  (forall t l, I l -> I (update_where (own_proxy (li_tenantId input) (li_proxyId input)) (with_status status t) l)) ->
  keeps kept (change_status input status event).
Proof.
  intros Hf. unfold change_status, setProxyStatus.
  apply keeps_bind; [apply keeps_bind; [apply keeps_now, kept_mono|intros t; apply keeps_update; intros l; apply Hf]|].
  intros [row|]; [|apply keeps_ret]. apply keeps_bind; [apply keeps_event|]. intros _. apply keeps_ret.
Qed.

Lemma keeps_rotate input :
  (forall hash prefix e t l, I l -> I (update_where (own_proxy (li_tenantId input) (li_proxyId input)) (with_secret hash prefix e t) l)) ->
  keeps kept (rotateProxySecret randomBytesHex hashSecret input).
Proof.
  intros Hf. unfold rotateProxySecret, generateProxySecret.
  apply keeps_bind; [apply keeps_bind; [apply keeps_draw, kept_mono|intros hex; apply keeps_ret]|]. intros [[raw hash] prefix].
  apply keeps_bind; [apply keeps_now, kept_mono|]. intros now. apply keeps_bind; [apply keeps_now, kept_mono|]. intros at_.
  apply keeps_bind; [apply keeps_update; intros l; apply Hf|]. intros [row|]; [|apply keeps_ret].
  apply keeps_bind; [apply keeps_event|]. intros _. apply keeps_ret.
Qed.

Lemma keeps_proxy_route {A} c (op : LifecycleInput -> PM (option A)) :
  (forall proxyId, au_param c "proxyId" = Some proxyId ->
     keeps kept (op {| li_tenantId := au_tenantId c; li_proxyId := proxyId; li_actorUserId := au_userId c |})) ->
  keeps kept (proxy_route c op).
Proof.
  intros Hop. unfold proxy_route. apply keeps_check. intros proxyId Hid. apply keeps_check. intros _ _.
  unfold validateUuidParam in Hid. destruct (au_param c "proxyId") as [v|]; [|done]. destruct (is_uuid v); [|done]. injection Hid as <-.
  apply keeps_bind; [by apply Hop|]. intros [row|]; apply keeps_ret.
Qed.

Lemma keeps_proxy_create c name :
  (forall hash prefix proxyId id l, I l -> existsb (fun r => String.eqb (py_proxy_id r) proxyId) l = false ->
     I (l ++ [new_proxy (au_tenantId c) proxyId name hash prefix id])) ->
  keeps kept (create_proxy_route randomBytesHex hashSecret c name).
Proof.
  intros Hc. unfold create_proxy_route. apply keeps_check. intros _ _. apply keeps_bind; [|intros x; apply keeps_ret].
  unfold createProxy, generateProxySecret. apply keeps_bind; [apply keeps_fresh, kept_mono|]. intros proxyId.
  apply keeps_bind; [apply keeps_bind; [apply keeps_draw, kept_mono|intros hex; apply keeps_ret]|]. intros [[raw hash] prefix].
  apply keeps_bind; [apply keeps_fresh, kept_mono|]. intros id. apply keeps_bind; [|intros _; apply keeps_ret].
  intros n db Hk. unfold insert_unique, mbind, eff_bind, gets. cbn [fst snd].
  destruct (existsb _ (proxies db)) eqn:E; cbn; [by split; [lia|]|]. split; [lia|]. by apply Hc.
Qed.

Lemma keeps_scope_route c scope :
  (forall proxyId l, I l -> scope = OWNER_ONLY \/ with_role (au_role c) (fun r => canPerform r "platform.proxies.set_all_tenants" (tenant_context c)) = true ->
     I (update_where (own_proxy (au_tenantId c) proxyId) (with_scope scope) l)) ->
  keeps kept (proxy_scope_route c scope).
Proof.
  intros Hs. unfold proxy_scope_route. apply keeps_check. intros proxyId _. apply keeps_check. intros _ _.
  apply keeps_check. intros u Hg. apply keeps_bind; [|intros [row|]; apply keeps_ret].
  apply keeps_update. intros l Hl. apply Hs; [done|].
  case_bool_decide as Ec; [|left; by destruct scope]. right. unfold requireTenantCapability in Hg. by destruct (with_role _ _).
Qed.

Lemma keeps_exchange input :
  (forall id t l, I l -> I (update_where (fun r => String.eqb (py_id r) id) (seen_proxy t) l)) ->
  keeps kept (exchangeProxyRuntimeToken hashSecret ttl input).
Proof.
  intros Hs. unfold exchangeProxyRuntimeToken, authenticateBootstrapProxy, requireBootstrapAuthenticatedProxy, previous_still_valid,
    unauthenticated, audit_failure, issueProxyRuntimeToken, issueInternalServiceRuntimeToken.
  repeat first [apply keeps_event | apply keeps_try; [|intros ?] | apply keeps_now, kept_mono | apply keeps_fresh, kept_mono
               | apply keeps_draw, kept_mono | keeps_step | (match goal with |- keeps _ (let '(_, _) := ?x in _) => destruct x end)].
  by apply Hs.
Qed.
End writes.

(** ** Refused proxies *)

Definition by_proxy_id (p : string) (r : proxy_row) : bool := String.eqb (py_proxy_id r) p.

(** The proxy [p] is disabled or revoked. *)
Definition out_of_force (p : string) (l : list proxy_row) : Prop :=
  exists r, head (List.filter (by_proxy_id p) l) = Some r /\ (py_status r = "disabled" \/ py_status r = "revoked").

Lemma named_update p q f l :
  (forall r, py_proxy_id (f r) = py_proxy_id r) ->
  head (List.filter (by_proxy_id p) (update_where q f l)) = (fun r => if q r then f r else r) <$> head (List.filter (by_proxy_id p) l).
Proof.
  intros Hf. rewrite filter_update_where by (intros r; unfold by_proxy_id; by rewrite Hf). by destruct (List.filter _ l).
Qed.

Lemma out_of_force_update p q f l :
  (forall r, py_proxy_id (f r) = py_proxy_id r) ->
  (forall r, q r = true -> by_proxy_id p r = true -> py_status (f r) = py_status r \/ py_status (f r) = "disabled" \/ py_status (f r) = "revoked") ->
  out_of_force p l -> out_of_force p (update_where q f l).
Proof.
  intros Hid Hs (r & Hr & Hst). apply head_filter in Hr as Hin. destruct Hin as [_ Hp].
  exists (if q r then f r else r). rewrite named_update, Hr by done. split; [done|].
  destruct (q r) eqn:Eq; [|done]. by destruct (Hs r Eq Hp) as [->|[->| ->]]; [|left|right].
Qed.

Definition enables (p : string) (r : proxy_request) : Prop :=
  match r with enable_request c => au_param c "proxyId" = Some p | _ => False end.

Lemma keeps_proxy_discard {A} (I : nat -> proxy_db -> Prop) (e : PM A) : keeps I e -> keeps I (discard e).
Proof. intros He. apply keeps_bind; [done|]. intros _. apply keeps_ret. Qed.

Lemma perform_out_of_force p r : ~ enables p r -> keeps (kept (out_of_force p)) (perform r).
Proof.
  intros Hno. destruct r as [c name|c|c|c|c|c scope|id secret ip|proxy event]; cbn [perform]; try apply keeps_proxy_discard.
  - apply keeps_proxy_create. intros hash prefix proxyId id l (r & Hr & Hst) _. exists r. rewrite List.filter_app. split; [|done].
    by destruct (List.filter _ l).
  - apply keeps_proxy_route. intros proxyId _. apply keeps_change_status. intros t l. apply out_of_force_update; [done|]. intros r _ _. by right; left.
  - apply keeps_proxy_route. intros proxyId Hid. apply keeps_change_status. intros t l. apply out_of_force_update; [done|].
    intros r [Hq _]%andb_prop Hp%String.eqb_eq. apply String.eqb_eq in Hq. cbn in Hq. destruct Hno. cbn. congruence.
  - apply keeps_proxy_route. intros proxyId _. apply keeps_change_status. intros t l. apply out_of_force_update; [done|]. intros r _ _. by right; right.
  - apply keeps_proxy_route. intros proxyId _. apply keeps_rotate. intros hash prefix e t l. apply out_of_force_update; [done|]. intros r _ _. by left.
  - apply keeps_scope_route. intros proxyId l Hl _. revert Hl. apply out_of_force_update; [done|]. intros r _ _. by left.
  - unfold proxy_token_route. apply keeps_check. intros input _. apply keeps_bind; [|intros [x|f]; apply keeps_ret].
    apply keeps_exchange. intros x t l. apply out_of_force_update; [done|]. intros r _ _. by left.
  - unfold handleRecordProxyStatus. apply keeps_bind; [apply keeps_of_res|]. intros _. apply keeps_event.
Qed.

Lemma perform_all_keeps I rs : (forall r, r ∈ rs -> keeps I (perform r)) -> keeps I (perform_all rs).
Proof.
  induction rs as [|r rs IH]; intros Hr; [apply keeps_ret|]. unfold perform_all. cbn [mapM_].
  apply keeps_bind; [apply keeps_attempt, Hr, list_elem_of_here|]. intros x. apply keeps_bind; [|intros xs; apply keeps_ret].
  apply IH. intros r' Hr'. apply Hr. by apply list_elem_of_further.
Qed.

(** C14: A proxy that is disabled or revoked gets no tokens: whatever requests come, of
    whomever, as long as none enables it, every exchange in its name is refused,
    whatever secret it shows. *)
Theorem refused_out_of_force (p : string) (rs : list proxy_request) (n : nat) (db : proxy_db) (outcomes : list (res unit)) (s1 : nat * proxy_db)
  (secret ip : option string) (result : RuntimeToken + ExchangeFailure) (s2 : nat * proxy_db)
  (Hout : out_of_force p (proxies db)) (Hno : forall r, r ∈ rs -> ~ enables p r)
  (Hrun : returns (perform_all rs) (n, db) outcomes s1)
  (Hexchange : returns (exchangeProxyRuntimeToken hashSecret ttl {| cr_proxySecret := secret; cr_proxyId := Some p; cr_proxyIp := ip |}) s1 result s2) :
  exists f, result = inr f.
Proof.
  destruct result as [token|f]; [|by exists f]. exfalso.
  apply (returns_keeps (kept (out_of_force p))) in Hrun as [_ (r & Hr & Hst)]; [| |done].
  - apply exchange_inv in Hexchange as (row & _ & proxyId & _ & _ & _ & _ & _ & [= <-] & Hn & [Hd Hv] & _).
    unfold named_proxy in Hn. change (head (List.filter (by_proxy_id p) (proxies s1.2)) = Some row) in Hn. rewrite Hr in Hn.
    injection Hn as ->. by destruct Hst.
  - apply perform_all_keeps. intros r Hr. apply perform_out_of_force, Hno, Hr.
Qed.

(** ** Revocation *)

Lemma head_filter_sub {A} (P Q : A -> bool) l x :
  (forall y, Q y = true -> P y = true) -> head (List.filter P l) = Some x -> Q x = true -> head (List.filter Q l) = Some x.
Proof.
  intros Hsub. induction l as [|y l IH]; [done|]. cbn. intros Hx Hq. destruct (P y) eqn:Ep.
  - injection Hx as ->. by rewrite Hq.
  - destruct (Q y) eqn:Eq; [by rewrite (Hsub y Eq) in Ep|]. by apply IH.
Qed.

Lemma own_proxy_spec t p r : own_proxy t p r = true <-> py_proxy_id r = p /\ py_tenant_id r = t.
Proof. unfold own_proxy. by rewrite andb_true_iff, !String.eqb_eq. Qed.

(** What a lifecycle route of a caller allowed to does to a proxy. *)
Lemma lifecycle_route_run c p status event n db row :
  may_manage_proxies c = inl tt -> validateUuidParam c "proxyId" "Proxy ID" = inl p -> event ∈ PROXY_STATUS_EVENT_TYPES ->
  named_proxy p db = Some row -> py_tenant_id row = au_tenantId c ->
  exists t db', returns (proxy_route c (fun input => change_status input status event)) (n, db) (inl (with_status status t row)) (Datatypes.S n, db') /\
    named_proxy p db' = Some (with_status status t row).
Proof.
  intros Hc Hp He Hrow Ht. exists (clock n). apply head_filter in Hrow as Hin. destruct Hin as [_ Hid%String.eqb_eq].
  assert (Hown : own_proxy (au_tenantId c) p row = true) by by apply own_proxy_spec.
  assert (Hhead : head (List.filter (own_proxy (au_tenantId c) p) (proxies db)) = Some row).
  { eapply head_filter_sub; [|exact Hrow|done]. intros r [<- _]%own_proxy_spec. apply String.eqb_refl. }
  set (db1 := set_proxies (update_where (own_proxy (au_tenantId c) p) (with_status status (clock n)) (proxies db)) db).
  eexists (set_status_events (proxy_status_events db1 ++ [_]) db1). split.
  - unfold proxy_route. rewrite Hp, Hc. unfold http_bind, returns, mbind, eff_bind, mret, eff_ret. cbn [fst snd li_tenantId li_proxyId].
    unfold change_status, setProxyStatus, update_proxies, mbind, eff_bind, now_, gets, modify, mret, eff_ret. cbn [fst snd li_tenantId li_proxyId].
    destruct (List.filter (own_proxy (au_tenantId c) p) (proxies db)) as [|r0 l0]; [done|]. injection Hhead as ->. cbn [map head].
    unfold insertProxyStatusEvent, assertProxyStatusEventType, mbind, eff_bind, of_res, modify. cbn [fst snd se_event_type lifecycle_event].
    rewrite (proj2 (existsb_eqb _ _) He). cbn [fst snd]. reflexivity.
  - unfold named_proxy. cbn [proxies set_status_events db1 set_proxies].
    change (head (List.filter (by_proxy_id p) (update_where (own_proxy (au_tenantId c) p) (with_status status (clock n)) (proxies db)))
            = Some (with_status status (clock n) row)).
    rewrite named_update by done. change (head (List.filter (by_proxy_id p) (proxies db)) = Some row) in Hrow. rewrite Hrow. cbn. by rewrite Hown.
Qed.

(** An exchange of a proxy in force with its current secret. *)
Lemma exchange_run p secret ip n db row :
  named_proxy p db = Some row -> in_force row -> py_secret_hash row = hashSecret secret -> hashSecret secret <> EmptyString ->
  secret <> EmptyString -> p <> EmptyString ->
  exists token s', returns (exchangeProxyRuntimeToken hashSecret ttl {| cr_proxySecret := Some secret; cr_proxyId := Some p; cr_proxyIp := ip |})
                     (n, db) (inl token) s'.
Proof.
  intros Hrow [Hd Hv] Hhash Hne Hs Hp.
  assert (Ha : exists n1, authenticateBootstrapProxy hashSecret {| cr_proxySecret := Some secret; cr_proxyId := Some p; cr_proxyIp := ip |} (n, db)
                = (Ok (inl row), (n1, db))).
  { unfold authenticateBootstrapProxy, try_catch, requireBootstrapAuthenticatedProxy. cbn [cr_proxySecret cr_proxyId].
    rewrite (proj2 (present_some _ _) (conj eq_refl Hs)), (proj2 (present_some _ _) (conj eq_refl Hp)).
    unfold mbind, eff_bind, gets. cbn [fst snd]. rewrite Hrow.
    assert (Hh : hashesMatch (Some (py_secret_hash row)) (hashSecret secret) = true) by (apply hashesMatch_spec; by rewrite Hhash).
    rewrite Hh. cbn [negb andb].
    assert (Hpv : exists b n1, previous_still_valid row (hashSecret secret) (n, db) = (Ok b, (n1, db))).
    { unfold previous_still_valid. destruct (hashesMatch (py_secret_prev_hash row) (hashSecret secret)); [|exists false, n; reflexivity]. destruct (py_secret_prev_expires_at row); [|exists false, n; reflexivity].
      by eexists _, (Datatypes.S n). }
    destruct Hpv as (b & n1 & ->). exists n1. cbn. by rewrite (proj2 (String.eqb_neq _ _) Hd), (proj2 (String.eqb_neq _ _) Hv). }
  destruct Ha as [n1 Ha]. eexists _, _. unfold returns, exchangeProxyRuntimeToken. unfold mbind at 1, eff_bind at 1. rewrite Ha.
  unfold insertProxyStatusEvent, issueProxyRuntimeToken, issueInternalServiceRuntimeToken, mbind, eff_bind, of_res, modify, now_, fresh, draw, mret, eff_ret.
  cbn [fst snd]. reflexivity.
Qed.

(** A revocation is not permanent: a manager of the tenant who enables a revoked
    proxy, which the route allows as for a disabled one, makes it exchange its old
    secret for tokens again. *)
Theorem revocation_undone_by_enabling (c c' : AuthContext) (p secret : string) (ip : option string) (n : nat) (db : proxy_db) (row : proxy_row)
  (Hmanages : may_manage_proxies c = inl tt /\ may_manage_proxies c' = inl tt)
  (Hparam : validateUuidParam c "proxyId" "Proxy ID" = inl p /\ validateUuidParam c' "proxyId" "Proxy ID" = inl p)
  (Hrow : named_proxy p db = Some row) (Htenant : py_tenant_id row = au_tenantId c /\ py_tenant_id row = au_tenantId c')
  (Hsecret : py_secret_hash row = hashSecret secret /\ hashSecret secret <> EmptyString)
  (Hgiven : secret <> EmptyString /\ p <> EmptyString) :
  exists revoked s1 enabled s2 token s3,
    returns (revoke_proxy_route c) (n, db) (inl revoked) s1 /\ py_status revoked = "revoked" /\
    returns (enable_proxy_route c') s1 (inl enabled) s2 /\
    returns (exchangeProxyRuntimeToken hashSecret ttl {| cr_proxySecret := Some secret; cr_proxyId := Some p; cr_proxyIp := ip |}) s2 (inl token) s3.
Proof.
  destruct Hmanages as [Hm Hm'], Hparam as [Hp Hp'], Htenant as [Ht Ht'], Hsecret as [Hh Hne], Hgiven as [Hs Hpn].
  destruct (lifecycle_route_run c p "revoked" "proxy_revoked" n db row Hm Hp) as (t & db1 & K1 & Hrow1); [apply (proj1 (existsb_eqb _ _)); reflexivity|done..|].
  destruct (lifecycle_route_run c' p "active" "proxy_enabled" (Datatypes.S n) db1 (with_status "revoked" t row) Hm' Hp') as (t' & db2 & K2 & Hrow2);
    [apply (proj1 (existsb_eqb _ _)); reflexivity|exact Hrow1|done|].
  destruct (exchange_run p secret ip (Datatypes.S (Datatypes.S n)) db2 (with_status "active" t' (with_status "revoked" t row)) Hrow2) as (token & s3 & H3); [done..|].
  do 6 eexists. split; [exact K1|]. split; [done|]. split; [exact K2|exact H3].
Qed.

(** ** Sharing *)

Definition unshared (l : list proxy_row) : Prop := forall r, r ∈ l -> py_tenant_scope r <> TENANT_PROXY_SCOPE_ALL_TENANTS.

Lemma unshared_update q f l :
  (forall r, py_tenant_scope (f r) = py_tenant_scope r \/ py_tenant_scope (f r) <> TENANT_PROXY_SCOPE_ALL_TENANTS) ->
  unshared l -> unshared (update_where q f l).
Proof.
  intros Hf Hl r (r0 & Hr & ->)%elem_of_update_where. destruct (q r0); [|by apply Hl]. destruct (Hf r0) as [->|?]; [by apply Hl|done].
Qed.

(** A request to share a proxy by someone of a tenant that is not the platform's. *)
Definition shares (r : proxy_request) : Prop :=
  match r with scope_request c ALL_TENANTS => au_tenantKind c = "platform" | _ => False end.

Lemma perform_unshared r : ~ shares r -> keeps (kept unshared) (perform r).
Proof.
  intros Hno. destruct r as [c name|c|c|c|c|c scope|id secret ip|proxy event]; cbn [perform]; try apply keeps_proxy_discard.
  - apply keeps_proxy_create. intros hash prefix proxyId id l Hl _ r [Hr| ->%list_elem_of_singleton]%elem_of_app; [by apply Hl|done].
  - apply keeps_proxy_route. intros proxyId _. apply keeps_change_status. intros t l. apply unshared_update. intros r. by left.
  - apply keeps_proxy_route. intros proxyId _. apply keeps_change_status. intros t l. apply unshared_update. intros r. by left.
  - apply keeps_proxy_route. intros proxyId _. apply keeps_change_status. intros t l. apply unshared_update. intros r. by left.
  - apply keeps_proxy_route. intros proxyId _. apply keeps_rotate. intros hash prefix e t l. apply unshared_update. intros r. by left.
  - apply keeps_scope_route. intros proxyId l Hl [->|Hcap]; [revert Hl; apply unshared_update; intros r; by right|].
    destruct scope; [revert Hl; apply unshared_update; intros r; by right|]. destruct Hno. cbn.
    unfold with_role in Hcap. destruct (tenant_role (au_role c)) as [role|]; [|done]. cbn -[existsb ROLE_CAPABILITIES] in Hcap.
    unfold canPerform in Hcap. cbn [cap_tenantKind tenant_context] in Hcap.
    destruct (startsWith "platform.proxies.set_all_tenants" "platform.") eqn:E; [|by vm_compute in E]. cbn [andb] in Hcap.
    case_bool_decide as Ek; [by injection Ek|done].
  - unfold proxy_token_route. apply keeps_check. intros input _. apply keeps_bind; [|intros [x|f]; apply keeps_ret].
    apply keeps_exchange. intros x t l. apply unshared_update. intros r. by left.
  - unfold handleRecordProxyStatus. apply keeps_bind; [apply keeps_of_res|]. intros _. apply keeps_event.
Qed.

(** Only the platform shares proxies: where no proxy is shared, whatever requests
    follow, as long as none is that of a member of a platform tenant to share one,
    every token then issued lets its proxy act for its own tenant alone. *)
Theorem sharing_needs_platform (rs : list proxy_request) (n : nat) (db : proxy_db) (outcomes : list (res unit)) (s1 s2 s3 : nat * proxy_db)
  (input : ProxyCredentials) (token : RuntimeToken) (addr : option string) (ctx : VerifiedProxyContext) (tenant : string)
  (Hunshared : unshared (proxies db)) (Hno : forall r, r ∈ rs -> ~ shares r)
  (Hrun : returns (perform_all rs) (n, db) outcomes s1)
  (Htenants : forall r, r ∈ proxies s1.2 -> py_tenant_id r <> EmptyString)
  (Hexchange : returns (exchangeProxyRuntimeToken hashSecret ttl input) s1 (inl token) s2)
  (Hcall : returns (proxyJwtAuth (with_token (rt_accessToken token) addr)) s2 ctx s3)
  (Hallowed : proxyAllowsTenant ctx tenant = true) :
  exists row, row ∈ proxies s1.2 /\ cr_proxyId input = Some (py_proxy_id row) /\ px_proxyId ctx = py_proxy_id row /\ tenant = py_tenant_id row.
Proof.
  apply (returns_keeps (kept unshared)) in Hrun as [_ Hun]; [|apply perform_all_keeps; intros r Hr; apply perform_unshared, Hno, Hr|done].
  apply exchange_inv in Hexchange as (row & secret & p & issued & m & jti & seen & _ & Hi & Hn & _ & _ & _ & Ht & _).
  apply head_filter in Hn as [Hrow Hid%String.eqb_eq]. exists row. unfold returns in Hcall. rewrite Ht in Hcall.
  rewrite token_accepted in Hcall by by apply Htenants. destruct (_ <? _); [|done]. injection Hcall as <- <-.
  split_and!; [done|by rewrite Hid|done|]. unfold proxyAllowsTenant in Hallowed. cbn -[String.eqb] in Hallowed.
  unfold parseTenantScope in Hallowed. rewrite (bool_decide_eq_false_2 (Some (py_tenant_scope row) = _)) in Hallowed.
  - cbn -[String.eqb] in Hallowed. by apply String.eqb_eq in Hallowed.
  - intros [= Hs]. by apply (Hun row).
Qed.
End proxies.

(** ** An example library

    Tokens that spell out their claims: enough for the laws. *)

Section codec.
Local Open Scope char_scope.

(** A reader that undoes a writer, and leaves what follows. *)
Definition undoes {A} (write : A -> string) (read : string -> option (A * string)) : Prop :=
  forall a rest, read (write a +:+ rest) = Some (a, rest).

Fixpoint write_string (s : string) : string :=
  match s with EmptyString => "."%string | String a s => String "c" (String a (write_string s)) end.

Fixpoint read_string (t : string) : option (string * string) :=
  match t with
  | String "c" (String a t) => x ← read_string t; Some (String a x.1, x.2)
  | String "." t => Some (EmptyString, t)
  | _ => None
  end.

Lemma string_undone : undoes write_string read_string.
Proof.
  intros s rest. induction s as [|a s IH]; [done|].
  change (read_string (write_string (String a s) +:+ rest))
    with (x ← read_string (write_string s +:+ rest); Some (String a x.1, x.2)). by rewrite IH.
Qed.

Definition write_option {A} (write : A -> string) (o : option A) : string :=
  match o with None => "n" | Some a => String "s" (write a) end.

Definition read_option {A} (read : string -> option (A * string)) (t : string) : option (option A * string) :=
  match t with
  | String "n" t => Some (None, t)
  | String "s" t => x ← read t; Some (Some x.1, x.2)
  | _ => None
  end.

Lemma option_undone {A} (write : A -> string) read : undoes write read -> undoes (write_option write) (read_option read).
Proof.
  intros Hu [a|] rest; [|done]. change (read_option read (write_option write (Some a) +:+ rest))
    with (x ← read (write a +:+ rest); Some (Some x.1, x.2)). by rewrite Hu.
Qed.

Fixpoint write_list (l : list string) : string :=
  match l with [] => "." | s :: l => String "c" (write_string s +:+ write_list l) end.

Fixpoint read_list (fuel : nat) (t : string) : option (list string * string) :=
  match fuel, t with
  | S fuel, String "c" t => x ← read_string t; xs ← read_list fuel x.2; Some (x.1 :: xs.1, xs.2)
  | _, String "." t => Some ([], t)
  | _, _ => None
  end.

Lemma list_undone l rest fuel : (length l <= fuel)%nat -> read_list fuel (write_list l +:+ rest) = Some (l, rest).
Proof.
  revert fuel. induction l as [|s l IH]; intros fuel Hl; [by destruct fuel|]. destruct fuel as [|fuel]; [cbn in Hl; lia|].
  change (read_list (S fuel) (write_list (s :: l) +:+ rest))
    with (x ← read_string ((write_string s +:+ write_list l) +:+ rest); xs ← read_list fuel x.2; Some (x.1 :: xs.1, xs.2)).
  rewrite app_assoc_str, string_undone. cbn [mbind option_bind fst snd]. rewrite IH; [done|]. cbn in Hl. lia.
Qed.

Fixpoint write_positive (p : positive) : string :=
  match p with xH => "e" | xO p => String "0" (write_positive p) | xI p => String "1" (write_positive p) end.

Fixpoint read_positive (t : string) : option (positive * string) :=
  match t with
  | String "e" t => Some (xH, t)
  | String "0" t => x ← read_positive t; Some (xO x.1, x.2)
  | String "1" t => x ← read_positive t; Some (xI x.1, x.2)
  | _ => None
  end.

Lemma positive_undone : undoes write_positive read_positive.
Proof.
  intros p rest. induction p as [p IH|p IH|]; [| |done].
  - change (read_positive (write_positive p~1 +:+ rest)) with (x ← read_positive (write_positive p +:+ rest); Some (xI x.1, x.2)). by rewrite IH.
  - change (read_positive (write_positive p~0 +:+ rest)) with (x ← read_positive (write_positive p +:+ rest); Some (xO x.1, x.2)). by rewrite IH.
Qed.

Definition write_Z (z : Z) : string :=
  match z with Z0 => "z" | Zpos p => String "p" (write_positive p) | Zneg p => String "m" (write_positive p) end.

Definition read_Z (t : string) : option (Z * string) :=
  match t with
  | String "z" t => Some (Z0, t)
  | String "p" t => x ← read_positive t; Some (Zpos x.1, x.2)
  | String "m" t => x ← read_positive t; Some (Zneg x.1, x.2)
  | _ => None
  end.

Lemma Z_undone : undoes write_Z read_Z.
Proof.
  intros [|p|p] rest; [done| |].
  - change (read_Z (write_Z (Zpos p) +:+ rest)) with (x ← read_positive (write_positive p +:+ rest); Some (Zpos x.1, x.2)). by rewrite positive_undone.
  - change (read_Z (write_Z (Zneg p) +:+ rest)) with (x ← read_positive (write_positive p +:+ rest); Some (Zneg x.1, x.2)). by rewrite positive_undone.
Qed.
End codec.

Definition write_payload (p : JwtPayload) : string :=
  "t" +:+ write_string (jp_iss p) +:+ write_string (jp_aud p) +:+ write_option write_string (jp_sub p)
  +:+ write_option write_string (jp_jti p) +:+ write_option write_Z (jp_exp p) +:+ write_option write_string (jp_service p)
  +:+ write_option write_string (jp_tenant_id p) +:+ write_option write_string (jp_project_id p) +:+ write_list (jp_scope p)
  +:+ write_option write_string (jp_proxy_id p) +:+ write_option write_string (jp_tenant_scope p) +:+ ".".

Definition read_payload (t : string) : option JwtPayload :=
  iss ← read_string (drop_str 1 t); aud ← read_string iss.2; sub ← read_option read_string aud.2;
  jti ← read_option read_string sub.2; exp ← read_option read_Z jti.2; service ← read_option read_string exp.2;
  tenant ← read_option read_string service.2; project ← read_option read_string tenant.2;
  scope ← read_list (String.length project.2) project.2; proxy ← read_option read_string scope.2;
  tscope ← read_option read_string proxy.2;
  Some {| jp_iss := iss.1; jp_aud := aud.1; jp_sub := sub.1; jp_jti := jti.1; jp_exp := exp.1; jp_service := service.1;
          jp_tenant_id := tenant.1; jp_project_id := project.1; jp_scope := scope.1; jp_proxy_id := proxy.1; jp_tenant_scope := tscope.1 |}.

Lemma write_list_length l rest : (length l <= String.length (write_list l +:+ rest))%nat.
Proof.
  induction l as [|s l IH]; [cbn [length]; lia|].
  change (S (length l) <= S (String.length ((write_string s +:+ write_list l) +:+ rest)))%nat. rewrite app_assoc_str.
  rewrite length_app_str. lia.
Qed.

Lemma payload_undone p : read_payload (write_payload p) = Some p.
Proof.
  unfold read_payload, write_payload. rewrite (drop_str_app "t").
  rewrite string_undone. cbn [mbind option_bind fst snd]. rewrite string_undone. cbn [mbind option_bind fst snd].
  do 2 (rewrite (option_undone _ _ string_undone); cbn [mbind option_bind fst snd]).
  rewrite (option_undone _ _ Z_undone). cbn [mbind option_bind fst snd].
  do 3 (rewrite (option_undone _ _ string_undone); cbn [mbind option_bind fst snd]).
  rewrite list_undone by apply write_list_length. cbn [mbind option_bind fst snd].
  do 2 (rewrite (option_undone _ _ string_undone); cbn [mbind option_bind fst snd]). by destruct p.
Qed.

Lemma trimEnd_stop s : trimEnd (s +:+ ".") = s +:+ ".".
Proof. induction s as [|c s IH]; [done|]. rewrite app_cons. cbn. rewrite IH. by destruct s. Qed.

Definition write_body (p : JwtPayload) : string :=
  write_string (jp_iss p) +:+ write_string (jp_aud p) +:+ write_option write_string (jp_sub p)
  +:+ write_option write_string (jp_jti p) +:+ write_option write_Z (jp_exp p) +:+ write_option write_string (jp_service p)
  +:+ write_option write_string (jp_tenant_id p) +:+ write_option write_string (jp_project_id p) +:+ write_list (jp_scope p)
  +:+ write_option write_string (jp_proxy_id p) +:+ write_option write_string (jp_tenant_scope p).

Lemma payload_plain p : trim (write_payload p) = write_payload p /\ write_payload p <> EmptyString.
Proof.
  split; [|done]. assert (E : write_payload p = String "t" (write_body p +:+ ".")).
  { unfold write_payload, write_body. by rewrite !app_assoc_str. }
  rewrite E. change (trim (String "t" (write_body p +:+ "."))) with (trimEnd (String "t" (write_body p +:+ "."))).
  by rewrite trimEnd_cons, trimEnd_stop.
Qed.

Definition example_jose : Jose.
Proof.
  refine {| jwt_sign n p := write_payload p;
            jwt_verify t issuer audience now :=
              p ← read_payload t;
              if String.eqb (jp_iss p) issuer && String.eqb (jp_aud p) audience && from_option (fun exp => epoch now <? exp) true (jp_exp p)
              then Some p else None |}.
  - intros n p issuer audience now. by rewrite payload_undone.
  - intros n p. apply payload_plain.
Defined.

(** ** Witnesses *)

Definition proxy_example_row (status : string) : proxy_row :=
  {| py_id := "row"; py_tenant_id := "A"; py_proxy_id := "P"; py_name := "edge"; py_status := status; py_tenant_scope := "owner_only";
     py_secret_hash := "new"; py_secret_prev_hash := Some "old"; py_secret_prev_expires_at := Some 500; py_secret_prefix := "cxp_";
     py_disabled_at := None; py_secret_rotated_at := None; py_last_seen_at := None |}.

Definition proxy_example_db (status : string) : proxy_db := {| proxies := [proxy_example_row status]; proxy_status_events := [] |}.

Definition proxy_example_caller : AuthContext :=
  {| au_tenantId := "A"; au_tenantKind := "customer"; au_userId := "alice"; au_role := "admin"; au_param := fun _ => Some "P" |}.

Definition proxy_example_credentials (secret : string) : ProxyCredentials :=
  {| cr_proxySecret := Some secret; cr_proxyId := Some "P"; cr_proxyIp := None |}.

Definition proxy_example_exchange (secret : string) (s : nat * proxy_db) :=
  @exchangeProxyRuntimeToken example_env example_jose (fun secret => secret) 900 (proxy_example_credentials secret) s.

(** The secret of before the rotation still opens the proxy; its token is accepted on the next call. *)
Lemma exchange_authenticates_witness :
  exists token s', proxy_example_exchange "old" (0%nat, proxy_example_db "active") = (Ok (inl token), s') /\
    exists ctx, (@proxyJwtAuth example_env example_jose _ (with_token (rt_accessToken token) None) s').1 = Ok ctx /\ px_tenantId ctx = "A".
Proof.
  destruct (proxy_example_exchange "old" (0%nat, proxy_example_db "active")) as [r [n' db']] eqn:E.
  destruct r as [[token|f]|m]; [|vm_compute in E; discriminate E..].
  destruct (@exchange_authenticates example_env example_jose (fun secret => secret) 900 (proxy_example_credentials "old") 0%nat
    (proxy_example_db "active") token n' db') as (row & secret & p & issued & _ & _ & Hrow & _ & _ & _ & He & _ & Hcall).
  - intros r Hr. apply list_elem_of_singleton in Hr. subst r. discriminate.
  - exact E.
  - exists token, (n', db'). split; [reflexivity|]. exists (proxy_context row None). rewrite Hcall.
    assert (Ht : (epoch (@clock example_env n') <? epoch (rt_expiresAt token)) = true) by (vm_compute in E; injection E as <- <- <-; vm_compute; reflexivity).
    cbn [fst snd]. rewrite Ht. split; [reflexivity|]. apply list_elem_of_singleton in Hrow. rewrite Hrow. reflexivity.
Defined.

(** A revoked proxy whose secret is rotated and whose scope is changed. *)
Lemma refused_out_of_force_witness :
  exists s1 f s2,
    @perform_all example_env any_format example_jose (fun n => "x") (fun secret => secret) 900
      [rotate_request proxy_example_caller; disable_request proxy_example_caller] (0%nat, proxy_example_db "revoked")
    = (Ok [Ok tt; Ok tt], s1) /\ proxy_example_exchange "cxp_x" s1 = (Ok (inr f), s2).
Proof.
  destruct (@perform_all example_env any_format example_jose (fun n => "x") (fun secret => secret) 900
      [rotate_request proxy_example_caller; disable_request proxy_example_caller] (0%nat, proxy_example_db "revoked")) as [o s1] eqn:E1.
  assert (Ho : o = Ok [Ok tt; Ok tt]) by (vm_compute in E1; congruence). subst o.
  destruct (proxy_example_exchange "cxp_x" s1) as [r s2] eqn:E2.
  destruct r as [result|m]; [|vm_compute in E1; injection E1 as <-; vm_compute in E2; discriminate E2].
  destruct (@refused_out_of_force example_env any_format example_jose (fun n => "x") (fun secret => secret) 900 "P"
    [rotate_request proxy_example_caller; disable_request proxy_example_caller] 0%nat (proxy_example_db "revoked") [Ok tt; Ok tt] s1
    (Some "cxp_x") None result s2) as [f ->].
  - exists (proxy_example_row "revoked"). split; [reflexivity|]. right. reflexivity.
  - intros r Hr. apply elem_of_cons in Hr as [->|Hr]; [exact id|]. apply list_elem_of_singleton in Hr as ->. exact id.
  - exact E1.
  - exact E2.
  - exists s1, f, s2. split; [reflexivity|exact E2].
Defined.

Lemma revocation_undone_by_enabling_witness :
  exists s1 s2 token s3,
    (@revoke_proxy_route example_env any_format proxy_example_caller (0%nat, proxy_example_db "active")).2 = s1 /\
    (@enable_proxy_route example_env any_format proxy_example_caller s1).2 = s2 /\ proxy_example_exchange "new" s2 = (Ok (inl token), s3).
Proof.
  destruct (@revocation_undone_by_enabling example_env any_format example_jose (fun secret => secret) 900 proxy_example_caller proxy_example_caller
    "P" "new" None 0%nat (proxy_example_db "active") (proxy_example_row "active")) as (revoked & s1 & enabled & s2 & token & s3 & K1 & _ & K2 & K3).
  - split; reflexivity.
  - split; reflexivity.
  - reflexivity.
  - split; reflexivity.
  - split; [reflexivity|discriminate].
  - split; discriminate.
  - exists s1, s2, token, s3. unfold returns in K1, K2. rewrite K1. split; [reflexivity|]. cbn [snd]. rewrite K2. split; [reflexivity|exact K3].
Defined.

(** Someone of a tenant that is not the platform's tries to share the proxy. *)
Lemma sharing_needs_platform_witness :
  exists outcomes s1 token s2 ctx s3,
    @perform_all example_env any_format example_jose (fun n => "x") (fun secret => secret) 900
      [scope_request proxy_example_caller ALL_TENANTS] (0%nat, proxy_example_db "active") = (Ok outcomes, s1) /\
    proxy_example_exchange "new" s1 = (Ok (inl token), s2) /\
    @proxyJwtAuth example_env example_jose _ (with_token (rt_accessToken token) None) s2 = (Ok ctx, s3) /\
    forall tenant, proxyAllowsTenant ctx tenant = true -> exists row, row ∈ proxies s1.2 /\ tenant = py_tenant_id row.
Proof.
  destruct (@perform_all example_env any_format example_jose (fun n => "x") (fun secret => secret) 900
      [scope_request proxy_example_caller ALL_TENANTS] (0%nat, proxy_example_db "active")) as [o s1] eqn:E1.
  assert (Ho : o = Ok [Ok tt] /\ s1 = (0%nat, proxy_example_db "active")) by (vm_compute in E1; injection E1 as <- <-; split; reflexivity).
  destruct Ho as [-> Hs1].
  destruct (proxy_example_exchange "new" s1) as [r s2] eqn:E2. destruct r as [[token|f]|m]; [|subst s1; vm_compute in E2; discriminate E2..].
  destruct (@proxyJwtAuth example_env example_jose _ (with_token (rt_accessToken token) None) s2) as [[ctx|m] s3] eqn:E3;
    [|subst s1; vm_compute in E2; injection E2 as <- <-; vm_compute in E3; discriminate E3].
  exists [Ok tt], s1, token, s2, ctx, s3. split; [reflexivity|]. split; [exact E2|]. split; [exact E3|]. intros tenant Hallowed.
  destruct (@sharing_needs_platform example_env any_format example_jose (fun n => "x") (fun secret => secret) 900
    [scope_request proxy_example_caller ALL_TENANTS] 0%nat (proxy_example_db "active") [Ok tt] s1 s2 s3 (proxy_example_credentials "new")
    token None ctx tenant) as (row & Hrow & _ & _ & ->).
  - intros r Hr. apply list_elem_of_singleton in Hr. subst r. discriminate.
  - intros r Hr. apply list_elem_of_singleton in Hr. subst r. discriminate.
  - exact E1.
  - intros r Hr. subst s1. apply list_elem_of_singleton in Hr. subst r. discriminate.
  - exact E2.
  - exact E3.
  - exact Hallowed.
  - exists row. split; [exact Hrow|reflexivity].
Defined.
