(* ===== verification/Webhook.v ===== *)
(** * Authenticity of the sign-in hook
    (services/api/src/features/internal-auth-hook/verification.ts)

    The authentication service calls the token hook with a signed message; the
    program checks the signature and the time stamp, and remembers the messages it
    accepted, to refuse replays.  The keyed hash and the reading of base 64 are
    parameters.  Byte strings are strings; equal lengths and [timingSafeEqual] are
    equality.

    Time stamps are read exactly: one that the program's numbers would round is
    beyond any clock, and out of the window either way. *)

From Stdlib Require Import Ascii.
From S2P Require Import Prelude JsString JsNum.
Local Open Scope string_scope.
Local Open Scope list_scope.
Local Open Scope Z_scope.

Definition WEBHOOK_MAX_SKEW_SECONDS : Z := 300.
Definition WEBHOOK_ID_TTL_MS : Z := WEBHOOK_MAX_SKEW_SECONDS * 1000.

(** [recentWebhookIds]: when each message was accepted. *)
Definition webhook_ids : Type := list (string * Z).

Inductive HookVerificationResult : Type :=
| hook_ok
| hook_refused (status : Z) (code message : string).

#[export] Instance HookVerificationResult_eq_dec : EqDecision HookVerificationResult.
Proof. solve_decision. Defined.

Record hook_input := { hi_body : string; hi_webhookId : string; hi_webhookTimestamp : string; hi_webhookSignature : string }.

Definition pruneRecentWebhookIds (nowMs : Z) (ids : webhook_ids) : webhook_ids :=
  List.filter (fun e => negb (WEBHOOK_ID_TTL_MS <? nowMs - e.2)) ids.

(** The first signature of the header, without its version. *)
Definition signature_base64 (webhookSignature : string) : string :=
  default EmptyString
    (js_find nonempty
       (map (fun segment => if startsWith segment "v1," then drop_str 3 segment else segment)
          (split " "%char webhookSignature))).

Definition hook_unauthorized (message : string) : HookVerificationResult := hook_refused 401 "UNAUTHORIZED" message.

Section webhook.
Context (hmac_sha256 : string -> string -> string) (from_base64 : string -> string) (secret : string).

Definition signed_payload (i : hook_input) : string :=
  hi_webhookId i +:+ "." +:+ hi_webhookTimestamp i +:+ "." +:+ hi_body i.

Definition signature_valid (i : hook_input) : bool :=
  let sigBase64 := signature_base64 (hi_webhookSignature i) in
  nonempty sigBase64 && String.eqb (from_base64 sigBase64) (hmac_sha256 secret (signed_payload i)).

Definition verifyTokenHookRequest (nowMs : Z) (i : hook_input) (ids : webhook_ids) : HookVerificationResult * webhook_ids :=
  if negb (signature_valid i) then (hook_unauthorized "Invalid hook signature", ids)
  else
    match parseInt10 (hi_webhookTimestamp i) with
    | None => (hook_unauthorized "Invalid webhook timestamp", ids)
    | Some webhookTsSeconds =>
        let nowSeconds := nowMs / 1000 in
        if negb (num_is_finite (num_of_Z webhookTsSeconds)) then (hook_unauthorized "Invalid webhook timestamp", ids)
        else if WEBHOOK_MAX_SKEW_SECONDS <? Z.abs (nowSeconds - webhookTsSeconds)
        then (hook_unauthorized "Webhook timestamp is outside the allowed skew window", ids)
        else
          let ids := pruneRecentWebhookIds nowMs ids in
          let webhookId := hi_webhookId i in
          if nonempty webhookId && bool_decide (is_Some (map_get webhookId ids))
          then (hook_refused 409 "REPLAYED_WEBHOOK" "Duplicate webhook delivery rejected", ids)
          else (hook_ok, if nonempty webhookId then map_set webhookId nowMs ids else ids)
    end.

(** The messages of a sequence of deliveries that are accepted, with their times. *)
Fixpoint accepted (ids : webhook_ids) (deliveries : list (Z * hook_input)) : list (Z * hook_input) :=
  match deliveries with
  | [] => []
  | (nowMs, i) :: rest =>
      let '(r, ids) := verifyTokenHookRequest nowMs i ids in
      if decide (r = hook_ok) then (nowMs, i) :: accepted ids rest else accepted ids rest
  end.

(** ** Lemmas *)

(** The accepted deliveries of a message. *)
Definition times_of (id : string) (l : list (Z * hook_input)) : list Z :=
  map fst (List.filter (fun d => String.eqb (hi_webhookId d.2) id) l).

(** The signatures of a header are separated by spaces and may carry the version "v1,";
    the first one that is not empty counts. *)
Definition versioned (segment sig : string) : Prop :=
  segment = "v1," +:+ sig \/ segment = sig /\ forall t, segment <> "v1," +:+ t.

Definition header_signature (header sig : string) : Prop :=
  sig <> EmptyString /\
  exists before segment after, header = join " " (before ++ segment :: after) /\ versioned segment sig /\
    Forall (fun skipped => versioned skipped EmptyString) before.

(** A message that may be accepted: the hash of its id, time stamp and body under the
    secret is the first signature of its header, and the time stamp is within 300
    seconds. *)
Definition authentic (nowMs : Z) (i : hook_input) : Prop :=
  (exists sig, header_signature (hi_webhookSignature i) sig /\
     from_base64 sig = hmac_sha256 secret (hi_webhookId i +:+ "." +:+ hi_webhookTimestamp i +:+ "." +:+ hi_body i)) /\
  exists seconds, parseInt10 (hi_webhookTimestamp i) = Some seconds /\ Z.abs (nowMs / 1000 - seconds) <= 300.

Lemma versioned_spec segment sig :
  versioned segment sig <-> (if startsWith segment "v1," then drop_str 3 segment else segment) = sig.
Proof.
  destruct (startsWith segment "v1,") eqn:E.
  - apply startsWith_spec in E as [t ->]. change 3%nat with (String.length "v1,"). rewrite drop_str_app. split.
    + intros [Hs|[_ Hs]]; [|by destruct (Hs t)]. by injection Hs.
    + intros ->. by left.
  - split; [|intros ->; right; split; [done|]; intros t ->; by rewrite startsWith_app in E].
    intros [->|[-> _]]; [|done]. by rewrite startsWith_app in E.
Qed.

(** What the program reads of the header is its signature. *)
Lemma signature_base64_header header :
  nonempty (signature_base64 header) = true -> header_signature header (signature_base64 header).
Proof.
  unfold signature_base64. set (f := fun segment => _). rewrite <- (join_split " "%char header) at 2.
  generalize (split " "%char header) as segments. intros segments Hne. split.
  { apply String.eqb_neq, negb_true_iff, Hne. }
  revert Hne. induction segments as [|segment segments IH]; [done|]. cbn [map js_find List.find].
  destruct (nonempty (f segment)) eqn:E; cbn [default from_option id]; intros Hne.
  - exists [], segment, segments. split; [done|]. split; [by apply versioned_spec|constructor].
  - destruct (IH Hne) as (before & seg & after & Hj & Hv & Hb). exists (segment :: before), seg, after. split.
    + cbn [app]. change (join " " (segment :: segments)) with (join (String " "%char EmptyString) (segment :: segments)).
      destruct segments as [|s1 segments]; [done|]. destruct (before ++ seg :: after) as [|s2 l] eqn:El; [by destruct before|].
      change (segment +:+ " " +:+ join " " (s1 :: segments) = segment +:+ " " +:+ join " " (s2 :: l)). by rewrite Hj.
    + split; [done|]. constructor; [|done]. apply versioned_spec. apply negb_false_iff, String.eqb_eq in E. exact E.
Qed.

Lemma signature_valid_authentic i :
  signature_valid i = true ->
  exists sig, header_signature (hi_webhookSignature i) sig /\
    from_base64 sig = hmac_sha256 secret (hi_webhookId i +:+ "." +:+ hi_webhookTimestamp i +:+ "." +:+ hi_body i).
Proof.
  intros [Hn Hs%String.eqb_eq]%andb_prop. exists (signature_base64 (hi_webhookSignature i)). split; [by apply signature_base64_header|exact Hs].
Qed.

Lemma verify_ok nowMs i ids ids' :
  verifyTokenHookRequest nowMs i ids = (hook_ok, ids') ->
  authentic nowMs i /\
  (hi_webhookId i <> EmptyString ->
     map_get (hi_webhookId i) (pruneRecentWebhookIds nowMs ids) = None /\ map_get (hi_webhookId i) ids' = Some nowMs).
Proof.
  unfold verifyTokenHookRequest. destruct (signature_valid i) eqn:Es; cbn [negb]; [|done]. apply signature_valid_authentic in Es.
  destruct (parseInt10 _) as [seconds|] eqn:Ep; [|done]. destruct (num_is_finite _); cbn [negb]; [|done].
  destruct (WEBHOOK_MAX_SKEW_SECONDS <? _) eqn:Ew; [done|]. apply Z.ltb_ge in Ew.
  unfold nonempty. destruct (String.eqb_spec (hi_webhookId i) EmptyString) as [He|He]; cbn [negb andb].
  - intros [= <-]. split; [by split; [done|exists seconds]|]. by intros [].
  - case_bool_decide as Hs; [done|]. intros [= <-]. split; [by split; [done|exists seconds]|].
    intros _. split; [by apply eq_None_not_Some|]. by rewrite map_get_set, String.eqb_refl.
Qed.

Lemma prune_get nowMs ids id seen :
  map_get id ids = Some seen -> nowMs - seen <= WEBHOOK_ID_TTL_MS -> map_get id (pruneRecentWebhookIds nowMs ids) = Some seen.
Proof.
  intros Hg Ht. induction ids as [|[j w] ids IH]; [done|]. cbn in Hg |- *.
  destruct (String.eqb_spec id j) as [->|Hne].
  - injection Hg as ->. replace (WEBHOOK_ID_TTL_MS <? nowMs - seen) with false by (symmetry; apply Z.ltb_ge; lia).
    cbn. by rewrite String.eqb_refl.
  - destruct (negb _); [|auto]. cbn. rewrite (proj2 (String.eqb_neq _ _) Hne). auto.
Qed.

Lemma prune_NoDup nowMs ids : NoDup ids.*1 -> NoDup (pruneRecentWebhookIds nowMs ids).*1.
Proof. intros Hn. eapply sublist_NoDup; [exact Hn|]. apply map_sublist, filter_b_sublist. Qed.

Lemma prune_old nowMs ids id seen :
  NoDup ids.*1 -> map_get id ids = Some seen -> WEBHOOK_ID_TTL_MS < nowMs - seen ->
  map_get id (pruneRecentWebhookIds nowMs ids) = None.
Proof.
  intros Hnd Hg Ht. destruct (map_get id (pruneRecentWebhookIds nowMs ids)) as [w|] eqn:E; [|done].
  apply map_get_elem, elem_of_filter_b in E as [Hin Hf]. apply map_get_NoDup in Hin; [|done].
  assert (w = seen) as -> by congruence. apply negb_true_iff, Z.ltb_ge in Hf. cbn in Hf. lia.
Qed.

(** A remembered message is refused, and stays remembered, while its entry is young. *)
Lemma verify_remembers nowMs i ids id seen :
  map_get id ids = Some seen -> nowMs - seen <= WEBHOOK_ID_TTL_MS -> id <> EmptyString ->
  let '(r, ids') := verifyTokenHookRequest nowMs i ids in
  map_get id ids' = Some seen /\ (hi_webhookId i = id -> r <> hook_ok).
Proof.
  intros Hg Ht Hid. assert (Hp := prune_get nowMs ids id seen Hg Ht). unfold verifyTokenHookRequest.
  destruct (signature_valid i); cbn [negb]; [|done]. destruct (parseInt10 _) as [seconds|]; [|done].
  destruct (num_is_finite _); cbn [negb]; [|done]. destruct (WEBHOOK_MAX_SKEW_SECONDS <? _); [done|].
  unfold nonempty. destruct (String.eqb_spec (hi_webhookId i) EmptyString) as [He|He]; cbn [negb andb].
  { split; [done|]. congruence. }
  case_bool_decide as Hs; [done|]. rewrite map_get_set. destruct (String.eqb_spec id (hi_webhookId i)) as [->|Hne].
  - destruct Hs. eauto.
  - split; [done|]. congruence.
Qed.

(** Accepted deliveries are deliveries. *)
Lemma accepted_sublist ids deliveries : accepted ids deliveries `sublist_of` deliveries.
Proof.
  revert ids. induction deliveries as [|[t i] rest IH]; intros ids; [constructor|]. cbn [accepted].
  destruct (verifyTokenHookRequest t i ids) as [r ids']. destruct (decide _); constructor; apply IH.
Qed.

Lemma times_of_bound (P : Z -> Prop) id l : Forall P (map fst l) -> Forall P (times_of id l).
Proof. intros Hl. eapply sublist_Forall; [|exact Hl]. apply map_sublist, filter_b_sublist. Qed.

Lemma accepted_bound (P : Z -> Prop) id ids deliveries :
  Forall P (map fst deliveries) -> Forall P (times_of id (accepted ids deliveries)).
Proof. intros Hl. apply times_of_bound. eapply sublist_Forall; [|exact Hl]. apply map_sublist, accepted_sublist. Qed.

(** A message accepted at a time is not accepted again while it is remembered. *)
Lemma accepted_after id ids deliveries since :
  id <> EmptyString -> StronglySorted Z.le (map fst deliveries) -> map_get id ids = Some since ->
  Forall (fun t => since + WEBHOOK_ID_TTL_MS < t) (times_of id (accepted ids deliveries)).
Proof.
  intros Hid Hs. revert ids. induction deliveries as [|[t i] rest IH]; intros ids Hg; [constructor|].
  destruct (decide (t - since <= WEBHOOK_ID_TTL_MS)) as [Hyoung|Hold].
  - cbn [map fst] in Hs. apply StronglySorted_inv in Hs as [Hs _].
    assert (Hv := verify_remembers t i ids id since Hg Hyoung Hid). cbn [accepted].
    destruct (verifyTokenHookRequest t i ids) as [r ids']. destruct Hv as [Hg' Hr]. destruct (decide _) as [->|_]; [|by apply IH].
    unfold times_of. cbn [List.filter snd]. destruct (String.eqb_spec (hi_webhookId i) id) as [He|_]; [by destruct (Hr He)|].
    by apply IH.
  - apply accepted_bound. cbn [map fst] in Hs |- *. apply StronglySorted_inv in Hs as [_ Hle].
    constructor; [lia|]. eapply Forall_impl; [exact Hle|]. cbn. lia.
Qed.

Lemma accepted_spaced id ids deliveries :
  id <> EmptyString -> StronglySorted Z.le (map fst deliveries) ->
  StronglySorted (fun s t => s + WEBHOOK_ID_TTL_MS < t) (times_of id (accepted ids deliveries)).
Proof.
  intros Hid. revert ids. induction deliveries as [|[t i] rest IH]; intros ids Hs; [constructor|].
  cbn [map fst] in Hs. apply StronglySorted_inv in Hs as [Hs _]. cbn [accepted].
  destruct (verifyTokenHookRequest t i ids) as [r ids'] eqn:Ev. destruct (decide _) as [->|_]; [|by apply IH].
  unfold times_of. cbn [List.filter snd]. destruct (String.eqb_spec (hi_webhookId i) id) as [<-|_]; [|by apply IH].
  constructor; [by apply IH|]. apply accepted_after; [done..|]. apply verify_ok in Ev as [_ Hm]. by apply Hm.
Qed.

Lemma accepted_authentic ids deliveries : Forall (fun d => authentic d.1 d.2) (accepted ids deliveries).
Proof.
  revert ids. induction deliveries as [|[t i] rest IH]; intros ids; [constructor|]. cbn [accepted].
  destruct (verifyTokenHookRequest t i ids) as [r ids'] eqn:Ev. destruct (decide _) as [->|_]; [|by apply IH].
  constructor; [|by apply IH]. by apply verify_ok in Ev as [Ha _].
Qed.

(** ** Properties *)

(** C18: a message is accepted only when the first signature of its header decodes to
    the hash of its id, time stamp and body under the shared secret, within 300 seconds
    of its time stamp, and the deliveries of a message that are accepted are more than
    300 seconds apart: at most three are. *)
Theorem webhook_deliveries_bounded id stamp ids deliveries :
  id <> EmptyString -> StronglySorted Z.le (map fst deliveries) ->
  Forall (fun d => hi_webhookId d.2 = id -> hi_webhookTimestamp d.2 = stamp) deliveries ->
  Forall (fun d => authentic d.1 d.2) (accepted ids deliveries) /\
  StronglySorted (fun s t => s + 300000 < t) (times_of id (accepted ids deliveries)) /\
  (length (times_of id (accepted ids deliveries)) <= 3)%nat.
Proof.
  intros Hid Hs Hstamp. split; [apply accepted_authentic|]. assert (Hsp := accepted_spaced id ids deliveries Hid Hs).
  split; [exact Hsp|].
  assert (Hw : Forall (fun t => exists seconds, parseInt10 stamp = Some seconds /\
                 Z.abs (t / 1000 - seconds) <= 300) (times_of id (accepted ids deliveries))).
  { assert (Ha := accepted_authentic ids deliveries).
    assert (Hst := sublist_Forall _ _ _ (accepted_sublist ids deliveries) Hstamp). clear -Ha Hst. unfold times_of.
    induction (accepted ids deliveries) as [|d l IH]; [constructor|]. apply Forall_cons in Ha as [[_ Ha] Hal].
    apply Forall_cons in Hst as [Hd Hst]. cbn [List.filter]. destruct (String.eqb_spec (hi_webhookId d.2) id) as [He|_]; [|auto].
    cbn [map]. constructor; [|auto]. by rewrite <- (Hd He). }
  destruct (times_of id (accepted ids deliveries)) as [|a [|b [|c [|d l]]]]; cbn; try lia. exfalso.
  apply StronglySorted_inv in Hsp as [Hbc Hab]. apply StronglySorted_inv in Hbc as [Hcd Hbc].
  apply StronglySorted_inv in Hcd as [_ Hcd]. apply Forall_cons in Hab as [Hab _]. apply Forall_cons in Hbc as [Hbc _].
  apply Forall_cons in Hcd as [Hcd _]. rewrite !Forall_cons in Hw.
  destruct Hw as ((x & Hx & Ha) & _ & _ & (y & Hy & Hd) & _). rewrite Hx in Hy. injection Hy as <-.
  unfold WEBHOOK_ID_TTL_MS, WEBHOOK_MAX_SKEW_SECONDS in *.
  pose proof (Z.div_mod a 1000). pose proof (Z.mod_pos_bound a 1000). pose proof (Z.div_mod d 1000).
  pose proof (Z.mod_pos_bound d 1000). lia.
Qed.
End webhook.

(** A concrete deployment: the hash and its encoding are the text itself. *)
Definition example_hmac (secret payload : string) : string := secret +:+ payload.

Definition example_delivery : hook_input :=
  {| hi_body := "{}"; hi_webhookId := "m1"; hi_webhookTimestamp := "1000";
     hi_webhookSignature := "v1,keym1.1000.{}" |}.

Definition example_deliveries : list (Z * hook_input) :=
  map (fun t => (t, example_delivery)) [700000; 1000000; 1000001; 1300001; 1300002; 1300999; 1301000].

(** One message, accepted three times. *)
Lemma webhook_deliveries_bounded_witness :
  let l := accepted example_hmac (fun s => s) "key" [] example_deliveries in
  times_of "m1" l = [700000; 1000001; 1300002] /\ (length (times_of "m1" l) <= 3)%nat.
Proof.
  cbn zeta. split; [vm_compute; reflexivity|].
  apply (webhook_deliveries_bounded example_hmac (fun s => s) "key" "m1" "1000" [] example_deliveries).
  - discriminate.
  - vm_compute. repeat first [discriminate | constructor].
  - repeat constructor.
Defined.

(** The memory is shorter than the time a message is good for: one whose first
    delivery is accepted in the second of its time stamp, or before, is accepted
    again as soon as it is forgotten, its signature and time stamp unchanged. *)
Theorem webhook_replay_accepted hmac from_base64 secret i seconds ids now ids1 :
  parseInt10 (hi_webhookTimestamp i) = Some seconds -> now < seconds * 1000 + 999 ->
  NoDup ids.*1 -> verifyTokenHookRequest hmac from_base64 secret now i ids = (hook_ok, ids1) ->
  exists ids2, verifyTokenHookRequest hmac from_base64 secret (now + 300001) i ids1 = (hook_ok, ids2).
Proof.
  intros Hp Hnow Hnd Hv. assert (Hok := verify_ok _ _ _ _ _ _ _ Hv). destruct Hok as [(_ & x & Hx & Hw) Hm].
  rewrite Hp in Hx. injection Hx as <-. unfold verifyTokenHookRequest in Hv |- *. rewrite Hp in *.
  destruct (signature_valid _ _ _ i); cbn [negb] in *; [|done].
  destruct (num_is_finite _); cbn [negb] in *; [|done]. unfold WEBHOOK_MAX_SKEW_SECONDS in *.
  rewrite (proj2 (Z.ltb_ge 300 (Z.abs ((now + 300001) / 1000 - seconds)))) by (Z.to_euclidean_division_equations; lia).
  destruct (300 <? _); [done|]. unfold nonempty in *.
  destruct (String.eqb_spec (hi_webhookId i) EmptyString) as [He|He]; cbn [negb andb] in *; [by eexists|].
  destruct (Hm He) as [_ Hg]. rewrite bool_decide_false; [by eexists|].
  rewrite (prune_old _ _ _ now); [by apply is_Some_None| |exact Hg|unfold WEBHOOK_ID_TTL_MS, WEBHOOK_MAX_SKEW_SECONDS; lia].
  destruct (bool_decide _); [done|]. injection Hv as <-. by apply map_set_NoDup, prune_NoDup.
Qed.

Lemma webhook_replay_accepted_witness :
  exists ids2, verifyTokenHookRequest example_hmac (fun s => s) "key" (1000000 + 300001) example_delivery [("m1", 1000000)] = (hook_ok, ids2).
Proof. eapply (webhook_replay_accepted _ _ _ _ 1000 []); [reflexivity|lia|constructor|reflexivity]. Defined.
