(* ===== verification/Policies.v ===== *)
(** * Policy management (services/api/src/features/policies/, features/rules/,
    features/policy-assignments/)

    Policies and rules are versioned: a change ends the row in force and adds the
    next version, with copies of the policy's rule bindings.  The tables are those
    the effective policy is loaded from ([Effective]), with the columns it does not
    read; [loaded] is what it reads.

    The unique indexes and the check that a row is in force for some time are part of
    the writes.  Bodies of requests are those the routes get from the validation
    library.  A query for one row returns the first in storage order, about which
    nothing is known. *)

From S2P Require Import Prelude JsString JsValue Jsonb Sql Effects Constants Tenancy Rbac Effective.
Local Open Scope string_scope.
Local Open Scope list_scope.
Local Open Scope Z_scope.

(** ** Tables (db/schema/policies.ts) *)

Record policy_record := {
  pr_row : policy_row; pr_description : option string; pr_category : option string; pr_version : Z;
  pr_superseded_by_id : option string; pr_created_by_user_id : option string
}.

Record rule_record := { rr_row : rule_row; rr_tenant_id : string; rr_version : Z; rr_superseded_by_id : option string }.

Record rule_binding_record := { rbr_row : rule_binding_row; rbr_tenant_id : string; rbr_required : bool }.

Record project_binding_record := {
  pbr_row : project_binding_row; pbr_binding_key : string; pbr_version : Z; pbr_superseded_by_id : option string
}.

Record policy_tables := {
  policies_table : list policy_record; rules_table : list rule_record; rule_bindings_table : list rule_binding_record;
  project_bindings_table : list project_binding_record
}.

(** The columns [loadEffectivePolicy] reads. *)
Definition loaded (t : policy_tables) : policy_db :=
  {| policies := map pr_row (policies_table t); policy_project_bindings := map pbr_row (project_bindings_table t);
     policy_rule_bindings := map rbr_row (rule_bindings_table t); rules := map rr_row (rules_table t) |}.

Definition set_policies (l : list policy_record) (t : policy_tables) : policy_tables :=
  {| policies_table := l; rules_table := rules_table t; rule_bindings_table := rule_bindings_table t;
     project_bindings_table := project_bindings_table t |}.
Definition set_rules (l : list rule_record) (t : policy_tables) : policy_tables :=
  {| policies_table := policies_table t; rules_table := l; rule_bindings_table := rule_bindings_table t;
     project_bindings_table := project_bindings_table t |}.
Definition set_rule_bindings (l : list rule_binding_record) (t : policy_tables) : policy_tables :=
  {| policies_table := policies_table t; rules_table := rules_table t; rule_bindings_table := l;
     project_bindings_table := project_bindings_table t |}.
Definition set_project_bindings (l : list project_binding_record) (t : policy_tables) : policy_tables :=
  {| policies_table := policies_table t; rules_table := rules_table t; rule_bindings_table := rule_bindings_table t;
     project_bindings_table := l |}.

Definition PM : Type -> Type := M policy_tables.

(** *** Columns of the rows *)

Definition pr_id (p : policy_record) : string := p_id (pr_row p).
Definition pr_key (p : policy_record) : string := p_policy_key (pr_row p).
Definition pr_tenant (p : policy_record) : string := p_tenant_id (pr_row p).
Definition rr_id (r : rule_record) : string := r_id (rr_row r).
Definition rr_key (r : rule_record) : string := r_rule_key (rr_row r).
Definition rbr_policy (b : rule_binding_record) : string := rb_policy_id (rbr_row b).
Definition rbr_rule (b : rule_binding_record) : string := rb_rule_id (rbr_row b).

Definition infinite (effective_to : timestamp) : bool := effective_to =? VALID_TO_INFINITY.
Definition pr_current (p : policy_record) : bool := infinite (p_effective_to (pr_row p)).
Definition rr_current (r : rule_record) : bool := infinite (r_effective_to (rr_row r)).
Definition pbr_current (b : project_binding_record) : bool := infinite (b_effective_to (pbr_row b)).

(** *** Unique indexes *)

(** [policies_pkey], [policies_policy_key_version_idx], [policies_current_policy_key_idx] *)
Definition policy_conflict (new r : policy_record) : bool :=
  String.eqb (pr_id r) (pr_id new)
  || String.eqb (pr_key r) (pr_key new) && ((pr_version r =? pr_version new) || pr_current r && pr_current new).

(** [rules_pkey], [rules_rule_key_version_idx], [rules_current_rule_key_idx] *)
Definition rule_conflict (new r : rule_record) : bool :=
  String.eqb (rr_id r) (rr_id new)
  || String.eqb (rr_key r) (rr_key new) && ((rr_version r =? rr_version new) || rr_current r && rr_current new).

(** [policy_rule_bindings_pkey], [policy_rule_bindings_policy_rule_idx],
    [policy_rule_bindings_policy_order_idx] *)
Definition rule_binding_conflict (new b : rule_binding_record) : bool :=
  String.eqb (rb_id (rbr_row b)) (rb_id (rbr_row new))
  || String.eqb (rbr_policy b) (rbr_policy new)
     && (String.eqb (rbr_rule b) (rbr_rule new) || (rb_order_index (rbr_row b) =? rb_order_index (rbr_row new))).

Definition same_project_policy (b c : project_binding_record) : bool :=
  String.eqb (b_tenant_id (pbr_row b)) (b_tenant_id (pbr_row c)) && String.eqb (b_project_id (pbr_row b)) (b_project_id (pbr_row c))
  && String.eqb (b_policy_key (pbr_row b)) (b_policy_key (pbr_row c)).

(** The four unique indexes of [policy_project_bindings]. *)
Definition project_binding_conflict (new b : project_binding_record) : bool :=
  String.eqb (b_id (pbr_row b)) (b_id (pbr_row new))
  || String.eqb (pbr_binding_key b) (pbr_binding_key new) && (pbr_version b =? pbr_version new)
  || pbr_current b && pbr_current new
     && (String.eqb (pbr_binding_key b) (pbr_binding_key new) || same_project_policy b new).

(** [UPDATE] of a table whose rows are checked. *)
Definition update_checked {S R} (get : S -> list R) (put : list R -> S -> S) (valid : R -> bool) (p : R -> bool) (f : R -> R)
  : M S unit :=
  rows ← gets get;
  if forallb (fun r => valid (f r)) (List.filter p rows) then modify (put (update_where p f rows)) else throw "check_violation".

(** The checks of the valid windows. *)
Definition policy_window (p : policy_record) : bool := p_effective_from (pr_row p) <? p_effective_to (pr_row p).
Definition rule_window (r : rule_record) : bool := r_effective_from (rr_row r) <? r_effective_to (rr_row r).
Definition binding_window (b : project_binding_record) : bool := b_effective_from (pbr_row b) <? b_effective_to (pbr_row b).

Definition update_policies : (policy_record -> bool) -> (policy_record -> policy_record) -> PM unit :=
  update_checked policies_table set_policies policy_window.
Definition update_rules : (rule_record -> bool) -> (rule_record -> rule_record) -> PM unit :=
  update_checked rules_table set_rules rule_window.
Definition update_project_bindings
  : (project_binding_record -> bool) -> (project_binding_record -> project_binding_record) -> PM unit :=
  update_checked project_bindings_table set_project_bindings binding_window.

(** *** Changes of rows *)

Definition end_policy_row (now : timestamp) (p : policy_row) : policy_row :=
  {| p_id := p_id p; p_policy_key := p_policy_key p; p_tenant_id := p_tenant_id p; p_project_id := p_project_id p;
     p_name := p_name p; p_scope := p_scope p; p_status := p_status p; p_enforcement_mode := p_enforcement_mode p;
     p_priority := p_priority p; p_effective_from := p_effective_from p; p_effective_to := now |}.
Definition end_policy (now : timestamp) (p : policy_record) : policy_record :=
  {| pr_row := end_policy_row now (pr_row p); pr_description := pr_description p; pr_category := pr_category p;
     pr_version := pr_version p; pr_superseded_by_id := pr_superseded_by_id p; pr_created_by_user_id := pr_created_by_user_id p |}.
Definition supersede_policy (by_ : string) (p : policy_record) : policy_record :=
  {| pr_row := pr_row p; pr_description := pr_description p; pr_category := pr_category p; pr_version := pr_version p;
     pr_superseded_by_id := Some by_; pr_created_by_user_id := pr_created_by_user_id p |}.

Definition end_rule_row (now : timestamp) (r : rule_row) : rule_row :=
  {| r_id := r_id r; r_rule_key := r_rule_key r; r_name := r_name r; r_description := r_description r;
     r_target_entity := r_target_entity r; r_condition := r_condition r; r_action := r_action r;
     r_effective_from := r_effective_from r; r_effective_to := now |}.
Definition end_rule (now : timestamp) (r : rule_record) : rule_record :=
  {| rr_row := end_rule_row now (rr_row r); rr_tenant_id := rr_tenant_id r; rr_version := rr_version r;
     rr_superseded_by_id := rr_superseded_by_id r |}.
Definition supersede_rule (by_ : string) (r : rule_record) : rule_record :=
  {| rr_row := rr_row r; rr_tenant_id := rr_tenant_id r; rr_version := rr_version r; rr_superseded_by_id := Some by_ |}.

Definition end_binding_row (now : timestamp) (b : project_binding_row) : project_binding_row :=
  {| b_id := b_id b; b_policy_key := b_policy_key b; b_tenant_id := b_tenant_id b; b_project_id := b_project_id b;
     b_enabled := b_enabled b; b_inheritance_mode := b_inheritance_mode b; b_severity_override := b_severity_override b;
     b_threshold_overrides := b_threshold_overrides b; b_rule_overrides := b_rule_overrides b;
     b_enforcement_mode_override := b_enforcement_mode_override b; b_effective_from := b_effective_from b;
     b_effective_to := now |}.
Definition end_binding (now : timestamp) (b : project_binding_record) : project_binding_record :=
  {| pbr_row := end_binding_row now (pbr_row b); pbr_binding_key := pbr_binding_key b; pbr_version := pbr_version b;
     pbr_superseded_by_id := pbr_superseded_by_id b |}.
Definition supersede_binding (now : timestamp) (by_ : string) (b : project_binding_record) : project_binding_record :=
  {| pbr_row := end_binding_row now (pbr_row b); pbr_binding_key := pbr_binding_key b; pbr_version := pbr_version b;
     pbr_superseded_by_id := Some by_ |}.

Definition own_policy_record (policyId tenantId : string) (p : policy_record) : bool :=
  String.eqb (pr_id p) policyId && String.eqb (pr_tenant p) tenantId.
Definition own_rule_record (ruleId tenantId : string) (r : rule_record) : bool :=
  String.eqb (rr_id r) ruleId && String.eqb (rr_tenant_id r) tenantId.
Definition own_project_binding (bindingId tenantId : string) (b : project_binding_record) : bool :=
  String.eqb (b_id (pbr_row b)) bindingId && String.eqb (b_tenant_id (pbr_row b)) tenantId.

(** ** versioning.ts *)

Record PolicyRuleBindingClone := {
  bc_rule_id : string; bc_enabled : bool; bc_required : bool; bc_order_index : Z
}.

Record policy_patch := {
  pp_name : option string; pp_description : option (option string); pp_category : option (option string);
  pp_status : option string; pp_enforcement_mode : option string; pp_priority : option Z
}.

Definition no_patch : policy_patch :=
  {| pp_name := None; pp_description := None; pp_category := None; pp_status := None; pp_enforcement_mode := None;
     pp_priority := None |}.

Definition clone_of (b : rule_binding_record) : PolicyRuleBindingClone :=
  {| bc_rule_id := rbr_rule b; bc_enabled := rb_enabled (rbr_row b); bc_required := rbr_required b;
     bc_order_index := rb_order_index (rbr_row b) |}.

Section policies.
Context `{Env} `{SqlOrder}.

Definition own_rule_binding (policyId tenantId : string) (b : rule_binding_record) : bool :=
  String.eqb (rbr_policy b) policyId && String.eqb (rbr_tenant_id b) tenantId.

Definition loadPolicyRuleBindingsForClone (policyId tenantId : string) (t : policy_tables) : list rule_binding_record :=
  order_by (fun b => rb_order_index (rbr_row b)) (List.filter (own_rule_binding policyId tenantId) (rule_bindings_table t)).

Definition binding_record (tenantId policyId : string) (c : PolicyRuleBindingClone) (id : string) : rule_binding_record :=
  {| rbr_row := {| rb_id := id; rb_policy_id := policyId; rb_rule_id := bc_rule_id c; rb_enabled := bc_enabled c;
                   rb_order_index := bc_order_index c |};
     rbr_tenant_id := tenantId; rbr_required := bc_required c |}.

Definition insert_policy : policy_record -> PM unit := insert_unique policies_table set_policies policy_conflict.
Definition insert_rule : rule_record -> PM unit := insert_unique rules_table set_rules rule_conflict.
Definition insert_rule_binding (tenantId policyId : string) (c : PolicyRuleBindingClone) : PM unit :=
  id ← fresh;
  insert_unique rule_bindings_table set_rule_bindings rule_binding_conflict (binding_record tenantId policyId c id).

(** The next version of a policy. *)
Definition next_policy (existing : policy_record) (now : timestamp) (patch : policy_patch) (id : string) : policy_record :=
  {| pr_row :=
       {| p_id := id; p_policy_key := pr_key existing; p_tenant_id := pr_tenant existing;
          p_project_id := p_project_id (pr_row existing); p_name := default (p_name (pr_row existing)) (pp_name patch);
          p_scope := p_scope (pr_row existing); p_status := default (p_status (pr_row existing)) (pp_status patch);
          p_enforcement_mode := default (p_enforcement_mode (pr_row existing)) (pp_enforcement_mode patch);
          p_priority := default (p_priority (pr_row existing)) (pp_priority patch); p_effective_from := now;
          p_effective_to := VALID_TO_INFINITY |};
     pr_description := default (pr_description existing) (pp_description patch);
     pr_category := default (pr_category existing) (pp_category patch); pr_version := pr_version existing + 1;
     pr_superseded_by_id := None; pr_created_by_user_id := pr_created_by_user_id existing |}.

Definition createNextPolicyVersion (existing : policy_record) (tenantId : string) (now : timestamp)
    (bindings : list PolicyRuleBindingClone) (patch : policy_patch) : PM policy_record :=
  let own := own_policy_record (pr_id existing) tenantId in
  _ ← update_policies own (end_policy now);
  id ← fresh;
  let newPolicy := next_policy existing now patch id in
  _ ← insert_policy newPolicy;
  _ ← mapM_ (insert_rule_binding tenantId (pr_id newPolicy)) bindings;
  _ ← update_policies own (supersede_policy (pr_id newPolicy));
  mret newPolicy.

(** ** policies/shared.ts, detail-routes.ts *)

Definition loadPolicyForTenant (policyId tenantId : string) (t : policy_tables) : option policy_record :=
  head (List.filter (own_policy_record policyId tenantId) (policies_table t)).

Context `{Formats}.

Definition not_found {A} (what : string) (id : string) : HttpResult A := errorResult 404 "NOT_FOUND" (what +:+ " not found") (Some id).

(** A route on a policy of the caller's tenant. *)
Definition policy_route {A} (c : AuthContext) (k : policy_record -> PM (HttpResult A)) : PM (HttpResult A) :=
  let? policyId := mret (validateUuidParam c "policy_id" "Policy ID") in
  existing ← gets (loadPolicyForTenant policyId (au_tenantId c));
  match existing with
  | None => mret (not_found "Policy" policyId)
  | Some existing => k existing
  end.

Definition may_write_policy (c : AuthContext) (existing : policy_record) (message : string) : HttpResult unit :=
  requireTenantCapability c
    (if String.eqb (p_scope (pr_row existing)) "project" then "policy.write_project" else "policy.write_tenant") message.

Definition archived (p : policy_record) : bool := String.eqb (p_status (pr_row p)) POLICY_STATUS.ARCHIVED.

Definition patch_policy_route (c : AuthContext) (body : policy_patch) : PM (HttpResult policy_record) :=
  policy_route c (fun existing =>
    let? _ := mret (may_write_policy c existing "You do not have access to modify this policy") in
    if archived existing then mret (errorResult 409 "INVALID_STATE" "Archived policies cannot be modified" None)
    else
      updated ← transaction (
        now ← now_;
        existingBindings ← gets (loadPolicyRuleBindingsForClone (pr_id existing) (au_tenantId c));
        createNextPolicyVersion existing (au_tenantId c) now (map clone_of existingBindings) body);
      mret (okResult updated)).

Definition delete_policy_route (c : AuthContext) : PM (HttpResult unit) :=
  policy_route c (fun existing =>
    let? _ := mret (may_write_policy c existing "You do not have access to delete this policy") in
    now ← now_;
    _ ← transaction (
      _ ← update_policies (own_policy_record (pr_id existing) (au_tenantId c)) (end_policy now);
      update_project_bindings
        (fun b => String.eqb (b_policy_key (pbr_row b)) (pr_key existing) && String.eqb (b_tenant_id (pbr_row b)) (au_tenantId c))
        (end_binding now));
    mret (okResult tt)).

(** ** rules/policy-routes.ts *)

Record create_rule_body := {
  cr_name : string; cr_description : option string; cr_target_entity : string; cr_condition : jsval; cr_action : jsval;
  cr_enabled : option bool; cr_order_index : option Z
}.

(** A rule as the routes present it. *)
Record rule_view := {
  rw_rule : rule_record; rw_policy_id : option string; rw_policy_rule_binding_id : option string; rw_enabled : bool;
  rw_order_index : Z
}.

Definition bound_view (b : rule_binding_record) (r : rule_record) : rule_view :=
  {| rw_rule := r; rw_policy_id := Some (rbr_policy b); rw_policy_rule_binding_id := Some (rb_id (rbr_row b));
     rw_enabled := rb_enabled (rbr_row b); rw_order_index := rb_order_index (rbr_row b) |}.

Definition new_rule (tenantId : string) (body : create_rule_body) (id key : string) (from : timestamp) : rule_record :=
  {| rr_row := {| r_id := id; r_rule_key := key; r_name := cr_name body; r_description := cr_description body;
                  r_target_entity := cr_target_entity body; r_condition := jsonb (cr_condition body);
                  r_action := jsonb (cr_action body); r_effective_from := from; r_effective_to := VALID_TO_INFINITY |};
     rr_tenant_id := tenantId; rr_version := 1; rr_superseded_by_id := None |}.

(** The binding of a rule to a policy. *)
Definition rule_binding_of (policyId ruleId tenantId : string) (t : policy_tables) : option rule_binding_record :=
  head (List.filter (fun b => String.eqb (rbr_policy b) policyId && String.eqb (rbr_rule b) ruleId
                              && String.eqb (rbr_tenant_id b) tenantId) (rule_bindings_table t)).

Definition create_rule_route (c : AuthContext) (body : create_rule_body) : PM (HttpResult rule_view) :=
  policy_route c (fun policy =>
    let tenantId := au_tenantId c in
    let? _ := mret (requireTenantCapability c "rules.write" "You do not have access to create rules") in
    if archived policy then mret (errorResult 409 "INVALID_STATE" "Cannot add rules to an archived policy" None)
    else
      created ← transaction (
        now ← now_;
        id ← fresh;
        key ← fresh;
        from ← now_;
        let rule := new_rule tenantId body id key from in
        _ ← insert_rule rule;
        existingBindings ← gets (loadPolicyRuleBindingsForClone (pr_id policy) tenantId);
        let nextBindings := map clone_of existingBindings ++
          [{| bc_rule_id := id; bc_enabled := default true (cr_enabled body); bc_required := false;
              bc_order_index := default (Z.of_nat (length existingBindings)) (cr_order_index body) |}] in
        nextPolicy ← createNextPolicyVersion policy tenantId now nextBindings no_patch;
        binding ← gets (rule_binding_of (pr_id nextPolicy) id tenantId);
        match binding with
        | None => throw "rule_binding_create_failed"
        | Some binding => mret (bound_view binding rule)
        end);
      mret (okResult created)).

(** The rules bound to a policy, with their bindings. *)
Definition bound_rules (policyId tenantId : string) (t : policy_tables) : list (rule_binding_record * rule_record) :=
  List.filter (fun row => String.eqb (rbr_policy row.1) policyId && String.eqb (rbr_tenant_id row.1) tenantId
                          && String.eqb (rr_tenant_id row.2) tenantId)
    (inner_join (fun b r => String.eqb (rbr_rule b) (rr_id r)) (rule_bindings_table t) (rules_table t)).

Definition list_rules (policyId tenantId : string) (t : policy_tables) : list rule_view :=
  map (fun row => bound_view row.1 row.2)
    (order_by (fun row => rb_order_index (rbr_row row.1)) (bound_rules policyId tenantId t)).

Definition reordered (order : list (string * Z)) (b : rule_binding_record) : PolicyRuleBindingClone :=
  {| bc_rule_id := rbr_rule b; bc_enabled := rb_enabled (rbr_row b); bc_required := rbr_required b;
     bc_order_index := default (rb_order_index (rbr_row b)) (map_get (rbr_rule b) (map_entries order)) |}.

(** The body is a list of rule identifiers, each with its place. *)
Definition reorder_rules_route (c : AuthContext) (order : list (string * Z)) : PM (HttpResult (list rule_view)) :=
  policy_route c (fun policy =>
    let tenantId := au_tenantId c in
    let? _ := mret (requireTenantCapability c "rules.write" "You do not have access to reorder rules") in
    existing ← gets (bound_rules (pr_id policy) tenantId);
    let unknown := List.filter (fun id => negb (existsb (fun row => String.eqb (rr_id row.2) id) existing)) order.*1 in
    if negb (Nat.eqb (length unknown) 0)
    then mret (errorResult 404 "NOT_FOUND" "Some rule IDs do not belong to this policy" (stringify (JArr (map JStr unknown))))
    else
      nextPolicy ← transaction (
        now ← now_;
        existingBindings ← gets (loadPolicyRuleBindingsForClone (pr_id policy) tenantId);
        createNextPolicyVersion policy tenantId now (map (reordered order) existingBindings) no_patch);
      updated ← gets (list_rules (pr_id nextPolicy) tenantId);
      mret (okResult updated)).

(** ** rules/detail-routes.ts *)

Record patch_rule_body := {
  pb_name : option string; pb_description : option (option string); pb_target_entity : option string;
  pb_condition : option jsval; pb_action : option jsval; pb_enabled : option bool; pb_order_index : option Z
}.

(** The rule, with one of its bindings if it has one. *)
Definition getRuleForTenant (ruleId tenantId : string) (t : policy_tables) : option (rule_record * option rule_binding_record) :=
  rule ← head (List.filter (own_rule_record ruleId tenantId) (rules_table t));
  Some (rule, head (List.filter (fun b => String.eqb (rbr_rule b) (rr_id rule) && String.eqb (rbr_tenant_id b) tenantId)
                      (rule_bindings_table t))).

Definition next_rule (existing : rule_record) (now : timestamp) (body : patch_rule_body) (id : string) : rule_record :=
  {| rr_row := {| r_id := id; r_rule_key := rr_key existing; r_name := default (r_name (rr_row existing)) (pb_name body);
                  r_description := default (r_description (rr_row existing)) (pb_description body);
                  r_target_entity := default (r_target_entity (rr_row existing)) (pb_target_entity body);
                  r_condition := jsonb (default (r_condition (rr_row existing)) (pb_condition body));
                  r_action := jsonb (default (r_action (rr_row existing)) (pb_action body)); r_effective_from := now;
                  r_effective_to := VALID_TO_INFINITY |};
     rr_tenant_id := rr_tenant_id existing; rr_version := rr_version existing + 1; rr_superseded_by_id := None |}.

(** A binding of the policy's next version, with the changed rule in its place. *)
Definition patched_clone (existing newRule : string) (body : patch_rule_body) (b : rule_binding_record) : PolicyRuleBindingClone :=
  let isChangedRule := String.eqb (rbr_rule b) existing in
  {| bc_rule_id := if isChangedRule then newRule else rbr_rule b;
     bc_enabled := if isChangedRule then default (rb_enabled (rbr_row b)) (pb_enabled body) else rb_enabled (rbr_row b);
     bc_required := rbr_required b; bc_order_index := rb_order_index (rbr_row b) |}.

(** A text compared with a column of identifiers. *)
Definition uuid_param (s : string) : PM string :=
  if nonempty s then mret s else throw "invalid input syntax for type uuid".

Definition patch_rule_route (c : AuthContext) (body : patch_rule_body) : PM (HttpResult rule_view) :=
  let? ruleId := mret (validateUuidParam c "rule_id" "Rule ID") in
  let? _ := mret (requireTenantCapability c "rules.write" "You do not have access to modify rules") in
  let tenantId := au_tenantId c in
  row ← gets (getRuleForTenant ruleId tenantId);
  match row with
  | None => mret (not_found "Rule" ruleId)
  | Some (existing, binding) =>
      let enabled := default (from_option (fun b => rb_enabled (rbr_row b)) true binding) (pb_enabled body) in
      let order_index := from_option (fun b => rb_order_index (rbr_row b)) 0 binding in
      policyId ← uuid_param (from_option rbr_policy EmptyString binding);
      policy ← gets (loadPolicyForTenant policyId tenantId);
      if from_option archived false policy
      then mret (errorResult 409 "INVALID_STATE" "Cannot modify rules of an archived policy" None)
      else
        updated ← transaction (
          now ← now_;
          _ ← update_rules (own_rule_record ruleId tenantId) (end_rule now);
          id ← fresh;
          let newRule := next_rule existing now body id in
          _ ← insert_rule newRule;
          _ ← update_rules (own_rule_record ruleId tenantId) (supersede_rule id);
          match binding with
          | None =>
              mret {| rw_rule := newRule; rw_policy_id := None; rw_policy_rule_binding_id := None; rw_enabled := enabled;
                      rw_order_index := order_index |}
          | Some binding =>
              oldPolicy ← gets (loadPolicyForTenant (rbr_policy binding) tenantId);
              match oldPolicy with
              | None => throw "policy_not_found_for_rule"
              | Some oldPolicy =>
                  oldBindings ← gets (loadPolicyRuleBindingsForClone (pr_id oldPolicy) tenantId);
                  newPolicy ← createNextPolicyVersion oldPolicy tenantId now
                                (map (patched_clone (rr_id existing) id body) oldBindings) no_patch;
                  newBinding ← gets (rule_binding_of (pr_id newPolicy) id tenantId);
                  mret {| rw_rule := newRule; rw_policy_id := Some (pr_id newPolicy);
                          rw_policy_rule_binding_id := (fun b => rb_id (rbr_row b)) <$> newBinding; rw_enabled := enabled;
                          rw_order_index := order_index |}
              end
          end);
        mret (okResult updated)
  end.

(** The policy whose version without the rule is now in force, if any. *)
Definition delete_rule_route (c : AuthContext) : PM (HttpResult (option string)) :=
  let? ruleId := mret (validateUuidParam c "rule_id" "Rule ID") in
  let? _ := mret (requireTenantCapability c "rules.write" "You do not have access to delete rules") in
  let tenantId := au_tenantId c in
  row ← gets (getRuleForTenant ruleId tenantId);
  match row with
  | None => mret (not_found "Rule" ruleId)
  | Some (existing, binding) =>
      deleted ← transaction (
        now ← now_;
        _ ← update_rules (own_rule_record ruleId tenantId) (end_rule now);
        match binding with
        | None => mret None
        | Some binding =>
            oldPolicy ← gets (loadPolicyForTenant (rbr_policy binding) tenantId);
            match oldPolicy with
            | None => mret None
            | Some oldPolicy =>
                oldBindings ← gets (loadPolicyRuleBindingsForClone (pr_id oldPolicy) tenantId);
                newPolicy ← createNextPolicyVersion oldPolicy tenantId now
                              (map clone_of (List.filter (fun b => negb (String.eqb (rbr_rule b) (rr_id existing))) oldBindings))
                              no_patch;
                mret (Some (pr_id newPolicy))
            end
        end);
      mret (okResult deleted)
  end.

(** ** policy-assignments/ *)

Record binding_mutation := {
  bm_enabled : option bool; bm_inheritance_mode : option string; bm_severity_override : option (option string);
  bm_threshold_overrides : option (option jsval); bm_rule_overrides : option (option jsval);
  bm_enforcement_mode_override : option (option string)
}.

(** A nullable JSON column: no value is SQL's null, which is read back as null. *)
Definition jsonb_column (v : option jsval) : jsval := from_option jsonb JNull v.

Definition loadBindingForTenant (bindingId tenantId : string) (t : policy_tables) : option project_binding_record :=
  head (List.filter (own_project_binding bindingId tenantId) (project_bindings_table t)).

Definition insert_project_binding : project_binding_record -> PM unit :=
  insert_unique project_bindings_table set_project_bindings project_binding_conflict.

Definition next_binding (existing : project_binding_record) (now : timestamp) (body : binding_mutation) (id : string)
  : project_binding_record :=
  let old := pbr_row existing in
  {| pbr_row :=
       {| b_id := id; b_policy_key := b_policy_key old; b_tenant_id := b_tenant_id old; b_project_id := b_project_id old;
          b_enabled := default (b_enabled old) (bm_enabled body);
          b_inheritance_mode := default (b_inheritance_mode old) (bm_inheritance_mode body);
          b_severity_override := default (b_severity_override old) (bm_severity_override body);
          b_threshold_overrides := from_option jsonb_column (b_threshold_overrides old) (bm_threshold_overrides body);
          b_rule_overrides := from_option jsonb_column (b_rule_overrides old) (bm_rule_overrides body);
          b_enforcement_mode_override := default (b_enforcement_mode_override old) (bm_enforcement_mode_override body);
          b_effective_from := now; b_effective_to := VALID_TO_INFINITY |};
     pbr_binding_key := pbr_binding_key existing; pbr_version := pbr_version existing + 1; pbr_superseded_by_id := None |}.

(** A route on a binding of the caller's tenant. *)
Definition binding_route {A} (c : AuthContext) (message : string) (k : string -> project_binding_record -> PM (HttpResult A))
  : PM (HttpResult A) :=
  let? bindingId := mret (validateUuidParam c "binding_id" "Binding ID") in
  let? _ := mret (requireTenantCapability c "policy_assignments.write" message) in
  existing ← gets (loadBindingForTenant bindingId (au_tenantId c));
  match existing with
  | None => mret (not_found "Binding" bindingId)
  | Some existing => k bindingId existing
  end.

Definition patch_binding_route (c : AuthContext) (body : binding_mutation) : PM (HttpResult project_binding_record) :=
  binding_route c "You do not have access to modify policy bindings" (fun bindingId existing =>
    updated ← transaction (
      now ← now_;
      id ← fresh;
      let nextBinding := next_binding existing now body id in
      _ ← insert_project_binding nextBinding;
      _ ← update_project_bindings (own_project_binding bindingId (au_tenantId c)) (supersede_binding now id);
      mret nextBinding);
    mret (okResult updated)).

Definition delete_binding_route (c : AuthContext) : PM (HttpResult unit) :=
  binding_route c "You do not have access to delete policy bindings" (fun bindingId _ =>
    now ← now_;
    _ ← update_project_bindings (own_project_binding bindingId (au_tenantId c)) (end_binding now);
    mret (okResult tt)).

(** ** Routes that also read the projects *)

Definition AM : Type -> Type := M (tenancy_db * policy_tables).

Definition on_tenancy {A} (e : M tenancy_db A) : AM A := zoom fst (fun t s => (t, s.2)) e.
Definition on_policies {A} (e : PM A) : AM A := zoom snd (fun t s => (s.1, t)) e.

Definition new_binding (policyKey projectId tenantId : string) (body : binding_mutation) (id key : string) (from : timestamp)
  : project_binding_record :=
  {| pbr_row :=
       {| b_id := id; b_policy_key := policyKey; b_tenant_id := tenantId; b_project_id := projectId;
          b_enabled := default true (bm_enabled body);
          b_inheritance_mode := default "inherited" (bm_inheritance_mode body);
          b_severity_override := default None (bm_severity_override body);
          b_threshold_overrides := jsonb_column (default None (bm_threshold_overrides body));
          b_rule_overrides := jsonb_column (default None (bm_rule_overrides body));
          b_enforcement_mode_override := default None (bm_enforcement_mode_override body);
          b_effective_from := from; b_effective_to := VALID_TO_INFINITY |};
     pbr_binding_key := key; pbr_version := 1; pbr_superseded_by_id := None |}.

(** The identifiers and default times of a new row are the database's. *)
Definition create_binding_route (c : AuthContext) (projectId : string) (body : binding_mutation) : AM (HttpResult project_binding_record) :=
  let tenantId := au_tenantId c in
  let? policyId := mret (validateUuidParam c "policy_id" "Policy ID") in
  policy ← on_policies (gets (loadPolicyForTenant policyId tenantId));
  match policy with
  | None => mret (not_found "Policy" policyId)
  | Some policy =>
      if negb (String.eqb (p_scope (pr_row policy)) "global")
      then mret (errorResult 400 "INVALID_REQUEST" "Only global policies can have bindings" None)
      else
        let? _ := mret (requireTenantCapability c "policy_assignments.write" "You do not have access to create policy bindings") in
        project ← on_tenancy (gets (fun db => head (List.filter (is_current projectId tenantId) (projects db))));
        match project with
        | None => mret (not_found "Project" projectId)
        | Some _ =>
            id ← fresh;
            key ← fresh;
            from ← now_;
            let created := new_binding (pr_key policy) projectId tenantId body id key from in
            _ ← on_policies (insert_project_binding created);
            mret (okResult created)
        end
  end.

(** ** policies/tenant-routes.ts, project-routes.ts *)

Record create_policy_body := {
  cp_name : string; cp_description : option string; cp_category : option string; cp_scope : string;
  cp_enforcement_mode : option string; cp_priority : option Z; cp_status : option string
}.

Definition new_policy (tenantId : string) (projectId : option string) (name : string) (description category : option string)
    (scope status enforcement_mode : string) (priority : Z) (userId : option string) (id key : string) (from : timestamp)
  : policy_record :=
  {| pr_row := {| p_id := id; p_policy_key := key; p_tenant_id := tenantId; p_project_id := projectId; p_name := name;
                  p_scope := scope; p_status := status; p_enforcement_mode := enforcement_mode; p_priority := priority;
                  p_effective_from := from; p_effective_to := VALID_TO_INFINITY |};
     pr_description := description; pr_category := category; pr_version := 1; pr_superseded_by_id := None;
     pr_created_by_user_id := userId |}.

(** A first version, with the database's identifiers and time. *)
Definition create_policy (new : string -> string -> timestamp -> policy_record) : PM policy_record :=
  id ← fresh;
  key ← fresh;
  from ← now_;
  let created := new id key from in
  _ ← insert_policy created;
  mret created.

Definition create_tenant_policy_route (c : AuthContext) (body : create_policy_body) : PM (HttpResult policy_record) :=
  let? tenantId := mret (requireTenantCapabilityAccess c "policy.write_tenant" "You do not have access to create tenant policies") in
  if negb (String.eqb (cp_scope body) POLICY_SCOPE.GLOBAL)
  then mret (errorResult 400 "INVALID_REQUEST" "Use POST /v1/projects/:id/policies for project-scoped policies" None)
  else
    created ← create_policy (new_policy tenantId None (cp_name body) (cp_description body) (cp_category body) POLICY_SCOPE.GLOBAL
                (default POLICY_STATUS.ACTIVE (cp_status body))
                (default ENFORCEMENT_MODE.ENFORCING (cp_enforcement_mode body)) (default 100 (cp_priority body))
                (Some (au_userId c)));
    mret (okResult created).

Definition create_project_policy_route (c : AuthContext) (name : string) (description enforcement_mode : option string)
    (priority : option Z) : AM (HttpResult policy_record) :=
  let? _ := mret (requireTenantCapability c "policy.write_project" "You do not have access to create project policies") in
  let? (projectId, _) := on_tenancy (requireProjectAccess c true) in
  created ← on_policies (create_policy (new_policy (au_tenantId c) (Some projectId) name description None POLICY_SCOPE.PROJECT
              POLICY_STATUS.ACTIVE (default ENFORCEMENT_MODE.ENFORCING enforcement_mode) (default 100 priority)
              (Some (au_userId c))));
  mret (okResult created).

Definition effective_policies_route (c : AuthContext) : AM (HttpResult PolicySnapshot) :=
  let? _ := mret (requireTenantCapability c "policy.read_project" "You do not have access to view project policies") in
  let? (projectId, _) := on_tenancy (requireProjectAccess c true) in
  now ← now_;
  snapshot ← on_policies (db ← gets loaded; of_res (loadEffectivePolicy db (au_tenantId c) projectId now));
  mret (okResult snapshot).
End policies.
