(* ===== verification/PolicyCorrect.v ===== *)
(** * Correctness of policy management

    The invariant of the policy tables: what their indexes and keys promise, and that
    every row is in force from a time of the clock until it ends.  It gives what the
    theorems on the effective policy assume.  The rules in force are a book of
    statutes; the next version of a policy rewrites its part of the book. *)

From S2P Require Import Prelude JsString JsValue Jsonb Sql Effects Constants Tenancy Rbac Effective Policies.
Local Open Scope string_scope.
Local Open Scope list_scope.
Local Open Scope Z_scope.

(** ** Tables with unique indexes *)

Section unique.
Context {R : Type} (conflict : R -> R -> bool).

(** No row conflicts with one that was there before it. *)
Definition unique_rows (l : list R) : Prop := StronglySorted (fun x y => conflict y x = false) l.

Lemma unique_insert l x : unique_rows l -> existsb (conflict x) l = false -> unique_rows (l ++ [x]).
Proof.
  intros Hl Hx. induction l as [|y l IH]; cbn in *; [repeat constructor|].
  apply orb_false_iff in Hx as [Hy Hx]. apply StronglySorted_inv in Hl as [Hl Hf]. constructor; [by apply IH|].
  apply Forall_app. split; [done|]. by constructor.
Qed.

Lemma unique_update (p : R -> bool) (f : R -> R) l :
  (forall x y, x ∈ l -> y ∈ l -> conflict y x = false ->
     conflict (if p y then f y else y) (if p x then f x else x) = false) ->
  unique_rows l -> unique_rows (update_where p f l).
Proof.
  intros Hc Hl. induction Hl as [|x l Hl IH Hx]; cbn; [constructor|]. constructor.
  - apply IH. intros; apply Hc; [by apply list_elem_of_further..|done].
  - apply Forall_forall. intros y (z & -> & Hz)%list_elem_of_fmap. rewrite Forall_forall in Hx.
    apply Hc; [apply list_elem_of_here|by apply list_elem_of_further|by apply Hx].
Qed.

Lemma unique_elem l (x y : R) :
  (forall a b, conflict a b = conflict b a) -> unique_rows l -> x ∈ l -> y ∈ l -> conflict x y = true -> x = y.
Proof.
  intros Hsym Hl. induction Hl as [|z l Hl IH Hz]; [by intros ?%not_elem_of_nil|]. rewrite Forall_forall in Hz.
  intros [->|Hx]%elem_of_cons [->|Hy]%elem_of_cons Hc; [done| | |by apply IH].
  - rewrite Hsym, (Hz y Hy) in Hc. discriminate Hc.
  - rewrite (Hz x Hx) in Hc. discriminate Hc.
Qed.

(** Every row conflicts with those that share its key. *)
Lemma unique_NoDup (key : R -> string) l :
  (forall a b, key a = key b -> conflict a b = true) -> unique_rows l -> NoDup (map key l).
Proof.
  intros Hk Hl. induction Hl as [|x l Hl IH Hx]; [apply NoDup_nil_2|]. cbn. apply NoDup_cons. split; [|done].
  intros (y & He & Hy)%list_elem_of_fmap. rewrite Forall_forall in Hx. specialize (Hx y Hy). cbn in Hx.
  by rewrite Hk in Hx.
Qed.
End unique.

Lemma policy_conflict_sym a b : policy_conflict a b = policy_conflict b a.
Proof.
  unfold policy_conflict. rewrite (String.eqb_sym (pr_id b)), (String.eqb_sym (pr_key b)), (Z.eqb_sym (pr_version b)).
  by rewrite (andb_comm (pr_current b)).
Qed.

Lemma rule_conflict_sym a b : rule_conflict a b = rule_conflict b a.
Proof.
  unfold rule_conflict. rewrite (String.eqb_sym (rr_id b)), (String.eqb_sym (rr_key b)), (Z.eqb_sym (rr_version b)).
  by rewrite (andb_comm (rr_current b)).
Qed.

Lemma same_project_policy_sym a b : same_project_policy a b = same_project_policy b a.
Proof.
  unfold same_project_policy. rewrite (String.eqb_sym (b_tenant_id (pbr_row a))), (String.eqb_sym (b_project_id (pbr_row a))).
  by rewrite (String.eqb_sym (b_policy_key (pbr_row a))).
Qed.

Lemma project_binding_conflict_sym a b : project_binding_conflict a b = project_binding_conflict b a.
Proof.
  unfold project_binding_conflict. rewrite (String.eqb_sym (b_id (pbr_row b))), (String.eqb_sym (pbr_binding_key b)).
  rewrite (Z.eqb_sym (pbr_version b)), (andb_comm (pbr_current b)). by rewrite (same_project_policy_sym b).
Qed.

Lemma rule_binding_conflict_sym a b : rule_binding_conflict a b = rule_binding_conflict b a.
Proof.
  unfold rule_binding_conflict. rewrite (String.eqb_sym (rb_id (rbr_row b))), (String.eqb_sym (rbr_policy b)).
  by rewrite (String.eqb_sym (rbr_rule b)), (Z.eqb_sym (rb_order_index (rbr_row b))).
Qed.

Lemma rule_binding_conflict_id a b : rb_id (rbr_row a) = rb_id (rbr_row b) -> rule_binding_conflict a b = true.
Proof. intros Hid. unfold rule_binding_conflict. by rewrite Hid, String.eqb_refl. Qed.

(** ** Runs of the writes *)

Lemma insert_unique_inv {S R} (get : S -> list R) put (conflict : R -> R -> bool) new s u s' :
  returns (insert_unique get put conflict new) s u s' ->
  existsb (conflict new) (get s.2) = false /\ s' = (s.1, put (get s.2 ++ [new]) s.2).
Proof.
  intros Hr. apply returns_bind in Hr as (taken & s1 & Hg & Hr). apply returns_gets in Hg as [-> ->].
  run_if E; [by apply returns_throw in Hr|]. by apply returns_modify in Hr as [_ ->].
Qed.

Lemma update_checked_inv {S R} (get : S -> list R) put (valid p : R -> bool) f s u s' :
  returns (update_checked get put valid p f) s u s' ->
  (forall r, r ∈ get s.2 -> p r = true -> valid (f r) = true) /\ s' = (s.1, put (update_where p f (get s.2)) s.2).
Proof.
  intros Hr. apply returns_bind in Hr as (rows & s1 & Hg & Hr). apply returns_gets in Hg as [-> ->].
  run_if E; [|by apply returns_throw in Hr]. apply returns_modify in Hr as [_ ->]. split; [|done].
  intros r Hr Hp. rewrite forallb_forall in E. apply E. apply list_elem_of_In. by apply elem_of_filter_b.
Qed.

(** ** The book of statutes *)

(** What a policy says of itself, whatever version says it. *)
Record policy_face := {
  pf_key : string; pf_tenant : string; pf_project : option string; pf_name : string; pf_scope : string; pf_status : string;
  pf_enforcement_mode : string; pf_priority : Z
}.

Definition face (p : policy_row) : policy_face :=
  {| pf_key := p_policy_key p; pf_tenant := p_tenant_id p; pf_project := p_project_id p; pf_name := p_name p;
     pf_scope := p_scope p; pf_status := p_status p; pf_enforcement_mode := p_enforcement_mode p; pf_priority := p_priority p |}.

(** A rule of a policy. *)
Record statute := { st_policy : policy_face; st_rule : rule_row; st_enabled : bool; st_order : Z }.

Definition statute_of (p : policy_row) (b : rule_binding_row) (r : rule_row) : statute :=
  {| st_policy := face p; st_rule := r; st_enabled := rb_enabled b; st_order := rb_order_index b |}.

(** The statutes in force at an instant. *)
Definition book (db : policy_db) (at_ : timestamp) (s : statute) : Prop :=
  exists p b r, p ∈ policies db /\ effective_at (p_effective_from p) (p_effective_to p) at_ = true /\
    b ∈ policy_rule_bindings db /\ rb_policy_id b = p_id p /\
    r ∈ rules db /\ r_id r = rb_rule_id b /\ effective_at (r_effective_from r) (r_effective_to r) at_ = true /\
    s = statute_of p b r.

(** Those of the current versions. *)
Definition current_book (t : policy_tables) (s : statute) : Prop :=
  exists p b r, p ∈ policies_table t /\ pr_current p = true /\ b ∈ rule_bindings_table t /\ rbr_policy b = pr_id p /\
    r ∈ rules_table t /\ rr_id r = rbr_rule b /\ rr_current r = true /\ s = statute_of (pr_row p) (rbr_row b) (rr_row r).

Section correct.
Context `{Env} `{SqlOrder}.

(** The bindings a new version gets. *)
Lemma insert_bindings_inv tenantId policyId l s us s' :
  returns (mapM_ (insert_rule_binding tenantId policyId) l) s us s' ->
  exists news, s'.2 = set_rule_bindings (rule_bindings_table s.2 ++ news) s.2 /\
    Forall2 (fun c b => exists id, b = binding_record tenantId policyId c id) l news /\
    (unique_rows rule_binding_conflict (rule_bindings_table s.2) ->
     unique_rows rule_binding_conflict (rule_bindings_table s.2 ++ news)).
Proof.
  revert s us. induction l as [|c l IH]; intros s us Hr; cbn [mapM_] in Hr.
  - apply returns_ret in Hr as [_ ->]. exists []. rewrite app_nil_r. split; [by destruct s.2|]. by split; [constructor|].
  - apply returns_bind in Hr as (u & s1 & Ha & Hr). apply returns_bind in Hr as (us' & s2 & Hb & Hr).
    apply returns_ret in Hr as [_ ->]. apply returns_bind in Ha as (id & s3 & Hi & Ha). apply returns_fresh in Hi as [-> ->].
    apply insert_unique_inv in Ha as [Hf ->]. cbn [fst snd] in *. apply IH in Hb as (news & -> & Hall & Hu). cbn [fst snd] in *.
    set (b := binding_record tenantId policyId c (uuid s.1)) in *. exists (b :: news). cbn in *. rewrite <- app_assoc in *. cbn in *.
    split; [done|]. split; [constructor; [by eexists|done]|]. intros Hs. apply Hu. by apply unique_insert.
Qed.

(** ** The invariant *)

Record policies_wf (t : policy_tables) : Prop := {
  pw_policies : unique_rows policy_conflict (policies_table t);
  pw_rules : unique_rows rule_conflict (rules_table t);
  pw_rule_bindings : unique_rows rule_binding_conflict (rule_bindings_table t);
  pw_project_bindings : unique_rows project_binding_conflict (project_bindings_table t);
  pw_first p : p ∈ policies_table t -> exists q, q ∈ policies_table t /\ pr_key q = pr_key p /\ pr_version q = 1;
  pw_tenants p q : p ∈ policies_table t -> q ∈ policies_table t -> pr_key p = pr_key q -> pr_tenant p = pr_tenant q;
  pw_policy b : b ∈ rule_bindings_table t ->
    exists p, p ∈ policies_table t /\ pr_id p = rbr_policy b /\ pr_tenant p = rbr_tenant_id b;
  pw_rule b : b ∈ rule_bindings_table t ->
    exists r, r ∈ rules_table t /\ rr_id r = rbr_rule b /\ rr_tenant_id r = rbr_tenant_id b;
  pw_one_policy b c p q : b ∈ rule_bindings_table t -> c ∈ rule_bindings_table t -> p ∈ policies_table t -> q ∈ policies_table t ->
    pr_id p = rbr_policy b -> pr_id q = rbr_policy c -> rbr_rule b = rbr_rule c -> pr_key p = pr_key q
}.

(** A row is in force from a time that has come until one that has come, or for ever. *)
Definition settled_window (at_ from to : timestamp) : Prop := from <= at_ /\ (to = VALID_TO_INFINITY \/ to <= at_).

Record settled (at_ : timestamp) (t : policy_tables) : Prop := {
  sw_policies p : p ∈ policies_table t -> settled_window at_ (p_effective_from (pr_row p)) (p_effective_to (pr_row p));
  sw_rules r : r ∈ rules_table t -> settled_window at_ (r_effective_from (rr_row r)) (r_effective_to (rr_row r));
  sw_bindings b : b ∈ project_bindings_table t -> settled_window at_ (b_effective_from (pbr_row b)) (b_effective_to (pbr_row b))
}.

Lemma settled_in_force at_ from to :
  settled_window at_ from to -> at_ < VALID_TO_INFINITY -> effective_at from to at_ = true <-> to = VALID_TO_INFINITY.
Proof using Type. intros [Hf Ht] Hat. rewrite effective_at_spec. lia. Qed.

Lemma infinite_spec to : infinite to = true <-> to = VALID_TO_INFINITY.
Proof using Type. apply Z.eqb_eq. Qed.

Section wf.
Context (t : policy_tables) (Hwf : policies_wf t).

Lemma policy_by_id p q : p ∈ policies_table t -> q ∈ policies_table t -> pr_id p = pr_id q -> p = q.
Proof using Hwf.
  intros Hp Hq Hid. apply (unique_elem policy_conflict (policies_table t)); [apply policy_conflict_sym|apply Hwf|done|done|].
  unfold policy_conflict. by rewrite Hid, String.eqb_refl.
Qed.

Lemma policy_by_key p q :
  p ∈ policies_table t -> q ∈ policies_table t -> pr_current p = true -> pr_current q = true -> pr_key p = pr_key q -> p = q.
Proof using Hwf.
  intros Hp Hq Hcp Hcq Hk. apply (unique_elem policy_conflict (policies_table t)); [apply policy_conflict_sym|apply Hwf|done|done|].
  unfold policy_conflict. by rewrite Hk, String.eqb_refl, Hcp, Hcq, orb_true_r, orb_true_r.
Qed.

Lemma rule_by_id p q : p ∈ rules_table t -> q ∈ rules_table t -> rr_id p = rr_id q -> p = q.
Proof using Hwf.
  intros Hp Hq Hid. apply (unique_elem rule_conflict (rules_table t)); [apply rule_conflict_sym|apply Hwf|done|done|].
  unfold rule_conflict. by rewrite Hid, String.eqb_refl.
Qed.
End wf.

(** ** The next version of a policy *)

(** The tables after a version [new] with bindings [news] replaced [existing]. *)
Definition next_tables (existing : policy_record) (now : timestamp) (new : policy_record) (news : list rule_binding_record)
    (t : policy_tables) : policy_tables :=
  {| policies_table :=
       update_where (own_policy_record (pr_id existing) (pr_tenant existing))
         (fun p => supersede_policy (pr_id new) (end_policy now p)) (policies_table t) ++ [new];
     rules_table := rules_table t; rule_bindings_table := rule_bindings_table t ++ news;
     project_bindings_table := project_bindings_table t |}.

Lemma update_where_compose {R} (p : R -> bool) (f g : R -> R) l x :
  (forall r, p (f r) = p r) -> p x = false -> update_where p g (update_where p f l ++ [x]) = update_where p (fun r => g (f r)) l ++ [x].
Proof using Type.
  intros Hp Hx. unfold update_where. rewrite map_app, map_map. cbn. rewrite Hx. f_equal. apply map_ext. intros r.
  destruct (p r) eqn:E; [by rewrite Hp, E|by rewrite E].
Qed.

Lemma createNext_inv existing tenantId now bs patch s new s' :
  returns (createNextPolicyVersion existing tenantId now bs patch) s new s' ->
  existing ∈ policies_table s.2 -> pr_tenant existing = tenantId ->
  new = next_policy existing now patch (pr_id new) /\ (forall p, p ∈ policies_table s.2 -> pr_id p <> pr_id new) /\
  p_effective_from (pr_row existing) < now /\
  exists news, s'.2 = next_tables existing now new news s.2 /\
    Forall2 (fun c b => exists id, b = binding_record tenantId (pr_id new) c id) bs news /\
    existsb (policy_conflict new) (update_where (own_policy_record (pr_id existing) tenantId) (end_policy now) (policies_table s.2)) = false /\
    (unique_rows rule_binding_conflict (rule_bindings_table s.2) ->
     unique_rows rule_binding_conflict (rule_bindings_table s.2 ++ news)).
Proof using Type.
  intros Hr Hex <-. unfold createNextPolicyVersion in Hr. set (own := own_policy_record _ _) in *.
  apply returns_bind in Hr as (u1 & s1 & H1 & Hr). apply update_checked_inv in H1 as [Hw ->]. cbn [fst snd] in *.
  apply returns_bind in Hr as (id & s2 & H2 & Hr). apply returns_fresh in H2 as [-> ->]. cbn zeta in Hr. cbn [fst snd] in *.
  set (new0 := next_policy existing now patch (uuid s.1)) in *.
  apply returns_bind in Hr as (u3 & s3 & H3 & Hr). apply insert_unique_inv in H3 as [Hc ->]. cbn [fst snd policies_table set_policies] in *.
  apply returns_bind in Hr as (u4 & s4 & H4 & Hr). apply insert_bindings_inv in H4 as (news & H4 & Hall & Hu). cbn [snd] in *.
  apply returns_bind in Hr as (u5 & s5 & H5 & Hr). apply update_checked_inv in H5 as [_ ->]. apply returns_ret in Hr as [-> ->].
  assert (Hids : forall p, p ∈ policies_table s.2 -> pr_id p <> pr_id new0).
  { intros p Hp Hid. rewrite existsb_none in Hc.
    assert (Hin : (if own p then end_policy now p else p) ∈ update_where own (end_policy now) (policies_table s.2)) by
      (apply elem_of_update_where; by exists p).
    specialize (Hc _ Hin). unfold policy_conflict in Hc. apply orb_false_iff in Hc as [Hc _]. apply String.eqb_neq in Hc.
    apply Hc. by destruct (own p). }
  split; [done|]. split; [done|]. split.
  { specialize (Hw existing Hex). apply Z.ltb_lt, Hw. unfold own, own_policy_record. by rewrite !String.eqb_refl. }
  exists news. split; [|done]. cbn [snd]. rewrite H4. unfold next_tables, set_policies, set_rule_bindings. cbn.
  fold own. f_equal. apply update_where_compose; [done|]. unfold own, own_policy_record.
  destruct (String.eqb_spec (pr_id new0) (pr_id existing)) as [He|]; [|done]. by destruct (Hids existing Hex).
Qed.

(** Ending rows makes no conflict. *)
Lemma policy_conflict_ended now new x y (own : policy_record -> bool) :
  now < VALID_TO_INFINITY -> policy_conflict y x = false ->
  let f := fun p => supersede_policy new (end_policy now p) in
  policy_conflict (if own y then end_policy now y else y) (if own x then end_policy now x else x) = false /\
  policy_conflict (if own y then f y else y) (if own x then f x else x) = false.
Proof using Type.
  intros Hnow Hc. cbn zeta. unfold policy_conflict in *.
  assert (Hi : infinite now = false) by (apply Z.eqb_neq; lia).
  destruct (own x), (own y); unfold pr_current in *; cbn; rewrite ?Hi; cbn; rewrite ?orb_false_r, ?andb_false_r; try done;
    apply orb_false_iff in Hc as [Hid Hc]; unfold pr_id, pr_key in *; rewrite Hid; cbn;
    apply andb_false_iff in Hc as [->|[Hv _]%orb_false_iff]; rewrite ?Hv, ?andb_false_r, ?orb_false_r, ?andb_false_r; done.
Qed.

Section next.
Context (t : policy_tables) (Hwf : policies_wf t) (existing : policy_record) (Hex : existing ∈ policies_table t).
Context (now : timestamp) (Hnow : now < VALID_TO_INFINITY) (new : policy_record) (news : list rule_binding_record).
Context (Hids : forall p, p ∈ policies_table t -> pr_id p <> pr_id new).

Let t' := next_tables existing now new news t.

Lemma next_policies p :
  p ∈ policies_table t' <->
  p = new \/ (p ∈ policies_table t /\ pr_id p <> pr_id existing) \/ p = supersede_policy (pr_id new) (end_policy now existing).
Proof using Hwf Hex Hids.
  cbn. rewrite elem_of_app, list_elem_of_singleton, elem_of_update_where. unfold own_policy_record. split.
  - intros [(q & Hq & ->)| ->]; [|by left]. destruct (String.eqb_spec (pr_id q) (pr_id existing)) as [He|Hne]; cbn.
    + assert (q = existing) as -> by (by apply (policy_by_id t)). rewrite String.eqb_refl. by right; right.
    + right. by left.
  - intros [->|[[Hp Hne]| ->]]; [by right|left; exists p|left; exists existing]; (split; [done|]).
    + by rewrite (proj2 (String.eqb_neq _ _) Hne).
    + by rewrite !String.eqb_refl.
Qed.

(** Every version was there, or is the new one. *)
Lemma next_policies_old p :
  p ∈ policies_table t' -> p = new \/ exists q, q ∈ policies_table t /\ pr_id p = pr_id q /\ pr_key p = pr_key q /\
    pr_tenant p = pr_tenant q /\ pr_version p = pr_version q.
Proof using Hwf Hex Hids. intros [->|[[Hp _]| ->]]%next_policies; [by left|right; by exists p|right; by exists existing]. Qed.

Lemma next_policies_has q :
  q ∈ policies_table t -> exists p, p ∈ policies_table t' /\ pr_id p = pr_id q /\ pr_key p = pr_key q /\
    pr_tenant p = pr_tenant q /\ pr_version p = pr_version q.
Proof using Hwf Hex Hids.
  intros Hq. destruct (decide (pr_id q = pr_id existing)) as [He|Hne].
  - assert (q = existing) as -> by (by apply (policy_by_id t)).
    exists (supersede_policy (pr_id new) (end_policy now existing)). split; [|done]. apply next_policies. by right; right.
  - exists q. split; [|done]. apply next_policies. right. by left.
Qed.

Context (Hkey : pr_key new = pr_key existing) (Htenant : pr_tenant new = pr_tenant existing).
Context (Hconflict : existsb (policy_conflict new) (update_where (own_policy_record (pr_id existing) (pr_tenant existing))
  (end_policy now) (policies_table t)) = false).
Context (bs : list PolicyRuleBindingClone) (Hnews : Forall2 (fun c b => exists id, b = binding_record (pr_tenant existing) (pr_id new) c id) bs news).
Context (Hunique : unique_rows rule_binding_conflict (rule_bindings_table t ++ news)).
Context (Hrules : forall c, c ∈ bs -> exists r, r ∈ rules_table t /\ rr_id r = bc_rule_id c /\ rr_tenant_id r = pr_tenant existing).
Context (Hsingle : forall c b q, c ∈ bs -> b ∈ rule_bindings_table t -> q ∈ policies_table t -> pr_id q = rbr_policy b ->
  rbr_rule b = bc_rule_id c -> pr_key q = pr_key existing).

(** Every binding was there, or is a copy. *)
Lemma next_binding_elem b :
  b ∈ rule_bindings_table t' -> b ∈ rule_bindings_table t \/ exists c id, c ∈ bs /\ b = binding_record (pr_tenant existing) (pr_id new) c id.
Proof using Hnews.
  cbn. intros [Hb|Hb]%elem_of_app; [by left|right]. apply list_elem_of_lookup in Hb as [i Hi].
  destruct (Forall2_lookup_r _ _ _ _ _ Hnews Hi) as (c & Hc & id & ->). exists c, id. split; [|done]. by eapply list_elem_of_lookup_2.
Qed.

Lemma next_key_of b p :
  b ∈ rule_bindings_table t' -> p ∈ policies_table t' -> pr_id p = rbr_policy b ->
  (exists q, q ∈ policies_table t /\ b ∈ rule_bindings_table t /\ pr_id q = rbr_policy b /\ pr_key p = pr_key q) \/
  (pr_key p = pr_key existing /\ exists c, c ∈ bs /\ rbr_rule b = bc_rule_id c).
Proof using Hwf Hex Hnow Hids Hkey Htenant Hconflict Hnews Hunique Hrules Hsingle.
  intros [Hb|(c & id & Hc & ->)]%next_binding_elem Hp Hid.
  - left. destruct (pw_policy t Hwf b Hb) as (q & Hq & Hqb & _). exists q. split_and!; try done.
    apply next_policies_old in Hp as [->|(p0 & Hp0 & Hpid & -> & _)]; [by destruct (Hids q Hq); congruence|].
    by rewrite (policy_by_id t Hwf p0 q) by congruence.
  - right. split; [|by exists c]. apply next_policies_old in Hp as [->|(p0 & Hp0 & Hpid & _)]; [done|].
    cbn in Hid. destruct (Hids p0 Hp0). congruence.
Qed.

Lemma next_wf : policies_wf t'.
Proof using Hwf Hex Hnow Hids Hkey Htenant Hconflict Hnews Hunique Hrules Hsingle.
  assert (Hends : forall x y, x ∈ policies_table t -> y ∈ policies_table t -> policy_conflict y x = false -> _) by
    exact (fun x y _ _ Hc => policy_conflict_ended now (pr_id new) x y
             (own_policy_record (pr_id existing) (pr_tenant existing)) Hnow Hc).
  split; [| |exact Hunique| | | | | |]; try exact (pw_rules t Hwf); try exact (pw_project_bindings t Hwf).
  - cbn. apply unique_insert; [apply unique_update; [intros x y Hx Hy Hc; apply (Hends x y Hx Hy Hc)|apply Hwf]|].
    apply existsb_none. intros r (q & Hq & ->)%elem_of_update_where. rewrite existsb_none in Hconflict.
    rewrite <- (Hconflict (if own_policy_record (pr_id existing) (pr_tenant existing) q then end_policy now q else q)) by
      (apply elem_of_update_where; by exists q). by destruct (own_policy_record _ _ q).
  - intros p [->|(q & Hq & _ & -> & _)]%next_policies_old.
    + rewrite Hkey. destruct (pw_first t Hwf existing Hex) as (f & Hf & Hfk & Hfv).
      destruct (next_policies_has f Hf) as (g & Hg & _ & Hgk & _ & Hgv). exists g. split; [done|]. by rewrite Hgk, Hgv.
    + destruct (pw_first t Hwf q Hq) as (f & Hf & Hfk & Hfv).
      destruct (next_policies_has f Hf) as (g & Hg & _ & Hgk & _ & Hgv). exists g. split; [done|]. by rewrite Hgk, Hgv.
  - intros p q Hp Hq. assert (Hof : forall p, p ∈ policies_table t' -> exists p0, p0 ∈ policies_table t /\ pr_key p = pr_key p0 /\ pr_tenant p = pr_tenant p0).
    { intros r [->|(r0 & Hr0 & _ & ? & ? & _)]%next_policies_old; [by exists existing|by exists r0]. }
    destruct (Hof p Hp) as (p0 & Hp0 & -> & ->), (Hof q Hq) as (q0 & Hq0 & -> & ->). by apply (pw_tenants t Hwf).
  - intros b [Hb|(c & id & Hc & ->)]%next_binding_elem.
    + destruct (pw_policy t Hwf b Hb) as (q & Hq & Hid & Ht). destruct (next_policies_has q Hq) as (p & Hp & Hpid & _ & Hpt & _).
      exists p. split; [done|]. by rewrite Hpid, Hpt.
    + exists new. split; [|done]. apply next_policies. by left.
  - intros b [Hb|(c & id & Hc & ->)]%next_binding_elem; [by apply (pw_rule t Hwf)|by apply Hrules].
  - intros b c p q Hb Hc Hp Hq Hbp Hcq Hbc.
    destruct (next_key_of b p Hb Hp Hbp) as [(p0 & Hp0 & Hb0 & Hbid & ->)|(-> & x & Hx & Hbx)],
      (next_key_of c q Hc Hq Hcq) as [(q0 & Hq0 & Hc0 & Hcid & ->)|(-> & y & Hy & Hcy)].
    + by apply (pw_one_policy t Hwf b c).
    + apply (Hsingle y b); [done..|congruence].
    + symmetry. apply (Hsingle x c); [done..|congruence].
    + done.
Qed.

Lemma next_settled at_ : now <= at_ -> p_effective_from (pr_row new) = now -> pr_current new = true ->
  settled at_ t -> settled at_ t'.
Proof using Hwf Hex Hids.
  intros Hat Hfrom Hto [H1 H2 H3]. split; [|exact H2|exact H3]. apply infinite_spec in Hto.
  intros p [->|[[Hp _]| ->]]%next_policies; [|by apply H1|].
  - rewrite Hfrom, Hto. split; [done|by left].
  - cbn. destruct (H1 existing Hex) as [Hf _]. split; [done|by right].
Qed.
End next.

Lemma book_current t at_ s :
  settled at_ t -> at_ < VALID_TO_INFINITY -> book (loaded t) at_ s <-> current_book t s.
Proof using Type.
  intros [Hps Hrs _] Hat. unfold book, current_book, loaded. cbn. unfold pr_current, rr_current. setoid_rewrite infinite_spec. split.
  - intros (p & b & r & (p' & -> & Hp)%list_elem_of_fmap & Hpe & (b' & -> & Hb)%list_elem_of_fmap & Hpb &
      (r' & -> & Hr)%list_elem_of_fmap & Hbr & Hre & ->).
    exists p', b', r'. rewrite settled_in_force in Hpe, Hre by eauto. done.
  - intros (p & b & r & Hp & Hpe & Hb & Hpb & Hr & Hbr & Hre & ->). exists (pr_row p), (rbr_row b), (rr_row r).
    rewrite !settled_in_force by eauto. split_and!; try done; by apply list_elem_of_fmap_2.
Qed.

Lemma own_bindings t p b :
  policies_wf t -> p ∈ policies_table t ->
  b ∈ loadPolicyRuleBindingsForClone (pr_id p) (pr_tenant p) t <-> b ∈ rule_bindings_table t /\ rbr_policy b = pr_id p.
Proof using Type.
  intros Hwf Hp. unfold loadPolicyRuleBindingsForClone. rewrite order_by_elem_of, elem_of_filter_b. unfold own_rule_binding.
  rewrite andb_true_iff, !String.eqb_eq. split; [naive_solver|]. intros [Hb Hid]. split; [done|]. split; [done|].
  destruct (pw_policy t Hwf b Hb) as (q & Hq & Hqid & <-). f_equal. by apply (policy_by_id t); congruence.
Qed.

(** The part of the book a current policy wrote. *)
Lemma own_statutes t p s :
  policies_wf t -> p ∈ policies_table t -> pr_current p = true ->
  current_book t s /\ pf_key (st_policy s) = pr_key p <->
  exists b r, b ∈ loadPolicyRuleBindingsForClone (pr_id p) (pr_tenant p) t /\ r ∈ rules_table t /\ rr_id r = rbr_rule b /\
    rr_current r = true /\ s = statute_of (pr_row p) (rbr_row b) (rr_row r).
Proof using Type.
  intros Hwf Hp Hc. setoid_rewrite own_bindings; [|done..]. split.
  - intros [(q & b & r & Hq & Hqc & Hb & Hbq & Hr & Hrb & Hrc & ->) Hk]. cbn in Hk.
    assert (q = p) as -> by (by apply (policy_by_key t)). by exists b, r.
  - intros (b & r & [Hb Hid] & Hr & Hrb & Hrc & ->). split; [|done]. by exists p, b, r.
Qed.


(** A new version rewrites the part of its policy. *)
Lemma next_book t existing now new news bs s :
  policies_wf t -> existing ∈ policies_table t -> now < VALID_TO_INFINITY -> (forall p, p ∈ policies_table t -> pr_id p <> pr_id new) ->
  pr_current existing = true -> pr_key new = pr_key existing -> pr_current new = true ->
  Forall2 (fun c b => exists id, b = binding_record (pr_tenant existing) (pr_id new) c id) bs news ->
  current_book (next_tables existing now new news t) s <->
  current_book t s /\ pf_key (st_policy s) <> pr_key existing \/
  exists c r, c ∈ bs /\ r ∈ rules_table t /\ rr_id r = bc_rule_id c /\ rr_current r = true /\
    s = {| st_policy := face (pr_row new); st_rule := rr_row r; st_enabled := bc_enabled c; st_order := bc_order_index c |}.
Proof using Type.
  intros Hwf Hex Hnow Hids Hcur Hkey Hnew Hnews.
  assert (Hpol := next_policies t Hwf existing Hex now new news Hids).
  assert (Hold : forall b, b ∈ rule_bindings_table t -> rbr_policy b <> pr_id new).
  { intros b Hb Hid. destruct (pw_policy t Hwf b Hb) as (q & Hq & Hqid & _). apply (Hids q Hq). congruence. }
  split.
  - intros (p & b & r & Hp & Hpc & Hb & Hbp & Hr & Hrb & Hrc & ->). cbn in Hr.
    apply (next_binding_elem t existing now new news bs Hnews) in Hb as [Hb|(c & id & Hc & ->)].
    + apply Hpol in Hp as [->|[[Hp Hne]| ->]]; [by destruct (Hold b Hb)| |].
      * left. split; [by exists p, b, r|]. cbn. intros Hk. apply Hne. f_equal. by apply (policy_by_key t).
      * unfold pr_current in Hpc. cbn in Hpc. apply infinite_spec in Hpc. lia.
    + right. apply Hpol in Hp as [->|[[Hp Hne]| ->]].
      * exists c, r. by rewrite Hrb.
      * cbn in Hbp. by destruct (Hids p Hp).
      * cbn in Hbp. by destruct (Hids existing Hex).
  - intros [[(p & b & r & Hp & Hpc & Hb & Hbp & Hr & Hrb & Hrc & ->) Hk]|(c & r & Hc & Hr & Hrc & Hcur' & ->)].
    + exists p, b, r. cbn in Hk. split_and!; try done; [|cbn; by apply elem_of_app; left].
      apply Hpol. right. left. split; [done|]. intros Hid. apply Hk. by rewrite (policy_by_id t Hwf p existing).
    + apply list_elem_of_lookup in Hc as [i Hi]. destruct (Forall2_lookup_l _ _ _ _ _ Hnews Hi) as (b & Hb & id & ->).
      eexists new, _, r. split_and!; [apply Hpol; by left|done|cbn; apply elem_of_app; right; by eapply list_elem_of_lookup_2|done..].
Qed.

(** What [createNextPolicyVersion] does when the rules it binds are its policy's. *)
Lemma createNext_correct existing tenantId now bs patch s new s' :
  returns (createNextPolicyVersion existing tenantId now bs patch) s new s' ->
  policies_wf s.2 -> existing ∈ policies_table s.2 -> pr_tenant existing = tenantId -> now < VALID_TO_INFINITY ->
  (forall c, c ∈ bs -> exists r, r ∈ rules_table s.2 /\ rr_id r = bc_rule_id c /\ rr_tenant_id r = tenantId) ->
  (forall c b q, c ∈ bs -> b ∈ rule_bindings_table s.2 -> q ∈ policies_table s.2 -> pr_id q = rbr_policy b ->
     rbr_rule b = bc_rule_id c -> pr_key q = pr_key existing) ->
  policies_wf s'.2 /\ (forall at_, now <= at_ -> settled at_ s.2 -> settled at_ s'.2) /\
  new = next_policy existing now patch (pr_id new) /\ new ∈ policies_table s'.2 /\ rules_table s'.2 = rules_table s.2 /\
  (pr_current existing = true -> forall st, current_book s'.2 st <->
     current_book s.2 st /\ pf_key (st_policy st) <> pr_key existing \/
     exists c r, c ∈ bs /\ r ∈ rules_table s.2 /\ rr_id r = bc_rule_id c /\ rr_current r = true /\
       st = {| st_policy := face (pr_row new); st_rule := rr_row r; st_enabled := bc_enabled c; st_order := bc_order_index c |}).
Proof using Type.
  intros Hr Hwf Hex Htn Hnow Hrules Hsingle.
  apply createNext_inv in Hr as (Hnew & Hids & _ & news & -> & Hnews & Hc & Hu); [|done..]. specialize (Hu (pw_rule_bindings _ Hwf)).
  rewrite <- Htn in *.
  assert (Hkey : pr_key new = pr_key existing) by (by rewrite Hnew). assert (Hten : pr_tenant new = pr_tenant existing) by (by rewrite Hnew).
  assert (Hcur : pr_current new = true) by (by rewrite Hnew).
  split; [by eapply next_wf|]. split; [|split; [done|split; [|split; [done|]]]].
  - intros at_ Hat. eapply next_settled; try done. by rewrite Hnew.
  - cbn. apply elem_of_app. right. by apply list_elem_of_singleton.
  - intros Hec st. by eapply next_book.
Qed.

(** The rules of a policy's bindings are its own. *)
Lemma clones_own t existing (bs : list PolicyRuleBindingClone) :
  policies_wf t -> existing ∈ policies_table t ->
  (forall c, c ∈ bs -> exists b, b ∈ rule_bindings_table t /\ rbr_policy b = pr_id existing /\ bc_rule_id c = rbr_rule b) ->
  (forall c, c ∈ bs -> exists r, r ∈ rules_table t /\ rr_id r = bc_rule_id c /\ rr_tenant_id r = pr_tenant existing) /\
  (forall c b q, c ∈ bs -> b ∈ rule_bindings_table t -> q ∈ policies_table t -> pr_id q = rbr_policy b ->
     rbr_rule b = bc_rule_id c -> pr_key q = pr_key existing).
Proof using Type.
  intros Hwf Hex Hbs. split.
  - intros c (b & Hb & Hbp & ->)%Hbs. destruct (pw_rule t Hwf b Hb) as (r & Hr & Hid & Ht). exists r. split; [done|]. split; [done|].
    destruct (pw_policy t Hwf b Hb) as (p & Hp & Hpid & Hpt). rewrite (policy_by_id t Hwf existing p) by congruence. congruence.
  - intros c b q (b0 & Hb0 & Hbp & ->)%Hbs Hb Hq Hqid Hrule. by apply (pw_one_policy t Hwf b b0).
Qed.

(** ** Changes of the other rows *)

Lemma wf_set_rules t l :
  policies_wf t -> unique_rows rule_conflict l ->
  (forall r, r ∈ rules_table t -> exists r', r' ∈ l /\ rr_id r' = rr_id r /\ rr_tenant_id r' = rr_tenant_id r) ->
  policies_wf (set_rules l t).
Proof using Type.
  intros Hwf Hu Hl. split; cbn; try apply Hwf; [done|]. intros b Hb. destruct (pw_rule t Hwf b Hb) as (r & Hr & Hid & Ht).
  destruct (Hl r Hr) as (r' & Hr' & Hid' & Ht'). exists r'. split; [done|]. by rewrite Hid', Ht'.
Qed.

Lemma rule_conflict_ended now new x y (own : rule_record -> bool) :
  now < VALID_TO_INFINITY -> rule_conflict y x = false ->
  let f := fun p => supersede_rule new (end_rule now p) in
  rule_conflict (if own y then end_rule now y else y) (if own x then end_rule now x else x) = false /\
  rule_conflict (if own y then f y else y) (if own x then f x else x) = false.
Proof using Type.
  intros Hnow Hc. cbn zeta. unfold rule_conflict in *.
  assert (Hi : infinite now = false) by (apply Z.eqb_neq; lia).
  destruct (own x), (own y); unfold rr_current in *; cbn; rewrite ?Hi; cbn; rewrite ?orb_false_r, ?andb_false_r; try done;
    apply orb_false_iff in Hc as [Hid Hc]; unfold rr_id, rr_key in *; rewrite Hid; cbn;
    apply andb_false_iff in Hc as [->|[Hv _]%orb_false_iff]; rewrite ?Hv, ?andb_false_r, ?orb_false_r, ?andb_false_r; done.
Qed.

Lemma project_binding_conflict_ended now x y (p : project_binding_record -> bool) f :
  now < VALID_TO_INFINITY -> (f = end_binding now \/ exists by_, f = supersede_binding now by_) ->
  project_binding_conflict y x = false -> project_binding_conflict (if p y then f y else y) (if p x then f x else x) = false.
Proof using Type.
  intros Hnow Hf Hc. unfold project_binding_conflict in *. assert (Hi : infinite now = false) by (apply Z.eqb_neq; lia).
  apply orb_false_iff in Hc as [[Hid Hv]%orb_false_iff Hc].
  destruct Hf as [->|[by_ ->]]; destruct (p x), (p y); unfold pbr_current in *; cbn; rewrite ?Hi, ?andb_false_r; cbn;
    rewrite ?Hid, ?Hv, ?orb_false_r; try done; by rewrite Hid, Hv.
Qed.

(** The ended rule's statutes leave the book. *)
Lemma book_rule_ended t own f s :
  policies_wf t -> (forall r, rr_id (f r) = rr_id r /\ rr_current (f r) = false) ->
  (forall r q, r ∈ rules_table t -> q ∈ rules_table t -> rr_id r = rr_id q -> own r = own q) ->
  current_book (set_rules (update_where own f (rules_table t)) t) s <->
  current_book t s /\ forall r, r ∈ rules_table t -> own r = true -> r_id (st_rule s) <> rr_id r.
Proof using Type.
  intros Hwf Hf Hown. split.
  - intros (p & b & r & Hp & Hpc & Hb & Hbp & (r0 & Hr0 & ->)%elem_of_update_where & Hrb & Hrc & ->). cbn in Hr0.
    destruct (own r0) eqn:E; [by rewrite (proj2 (Hf r0)) in Hrc|]. split; [by exists p, b, r0|]. cbn.
    intros r Hr Ho Hid. rewrite (Hown r r0) in Ho by done. congruence.
  - intros [(p & b & r & Hp & Hpc & Hb & Hbp & Hr & Hrb & Hrc & ->) Hn]. exists p, b, r. split_and!; try done.
    apply elem_of_update_where. exists r. split; [done|]. destruct (own r) eqn:E; [|done]. by destruct (Hn r Hr E).
Qed.

Lemma wf_set_policies t l :
  policies_wf t -> unique_rows policy_conflict l ->
  (forall p, p ∈ l -> exists q, q ∈ policies_table t /\ pr_id q = pr_id p /\ pr_key q = pr_key p /\ pr_tenant q = pr_tenant p /\
     pr_version q = pr_version p) ->
  (forall q, q ∈ policies_table t -> exists p, p ∈ l /\ pr_id p = pr_id q /\ pr_key p = pr_key q /\ pr_tenant p = pr_tenant q /\
     pr_version p = pr_version q) ->
  policies_wf (set_policies l t).
Proof using Type.
  intros Hwf Hu Hof Hto. split; cbn; try apply Hwf; [done|..].
  - intros p Hp. destruct (Hof p Hp) as (q & Hq & _ & <- & _). destruct (pw_first t Hwf q Hq) as (f & Hf & <- & Hv).
    destruct (Hto f Hf) as (g & Hg & _ & Hk & _ & Hgv). exists g. by rewrite Hk, Hgv.
  - intros p q Hp Hq. destruct (Hof p Hp) as (p0 & Hp0 & _ & <- & <- & _), (Hof q Hq) as (q0 & Hq0 & _ & <- & <- & _).
    by apply (pw_tenants t Hwf).
  - intros b Hb. destruct (pw_policy t Hwf b Hb) as (q & Hq & Hid & Ht). destruct (Hto q Hq) as (p & Hp & Hpid & _ & Hpt & _).
    exists p. by rewrite Hpid, Hpt.
  - intros b c p q Hb Hc Hp Hq Hbp Hcq Hr. destruct (Hof p Hp) as (p0 & Hp0 & Hpi & <- & _), (Hof q Hq) as (q0 & Hq0 & Hqi & <- & _).
    apply (pw_one_policy t Hwf b c); congruence || done.
Qed.

Lemma wf_end_policy t own now :
  policies_wf t -> now < VALID_TO_INFINITY -> policies_wf (set_policies (update_where own (end_policy now) (policies_table t)) t).
Proof using Type.
  intros Hwf Hnow. apply wf_set_policies; [done|..].
  - apply unique_update; [|apply Hwf]. intros x y _ _ Hc. by apply (policy_conflict_ended now EmptyString x y own Hnow).
  - intros p (q & Hq & ->)%elem_of_update_where. exists q. split; [done|]. by destruct (own q).
  - intros q Hq. exists (if own q then end_policy now q else q). split; [apply elem_of_update_where; by exists q|]. by destruct (own q).
Qed.

Lemma wf_set_project_bindings t l :
  policies_wf t -> unique_rows project_binding_conflict l -> policies_wf (set_project_bindings l t).
Proof using Type. intros Hwf Hl. split; cbn; try apply Hwf. done. Qed.

Lemma wf_end_binding t p now f :
  policies_wf t -> now < VALID_TO_INFINITY -> (f = end_binding now \/ exists by_, f = supersede_binding now by_) ->
  policies_wf (set_project_bindings (update_where p f (project_bindings_table t)) t).
Proof using Type.
  intros Hwf Hnow Hf. apply wf_set_project_bindings; [done|]. apply unique_update; [|apply Hwf].
  intros x y _ _ Hc. by apply (project_binding_conflict_ended now x y p f).
Qed.

Lemma wf_end_rule t own now :
  policies_wf t -> now < VALID_TO_INFINITY -> policies_wf (set_rules (update_where own (end_rule now) (rules_table t)) t).
Proof using Type.
  intros Hwf Hnow. apply wf_set_rules; [done|..].
  - apply unique_update; [|apply Hwf]. intros x y _ _ Hc. by apply (rule_conflict_ended now EmptyString x y own Hnow).
  - intros q Hq. exists (if own q then end_rule now q else q). split; [apply elem_of_update_where; by exists q|]. by destruct (own q).
Qed.

Lemma wf_add_rule t r :
  policies_wf t -> existsb (rule_conflict r) (rules_table t) = false -> policies_wf (set_rules (rules_table t ++ [r]) t).
Proof using Type.
  intros Hwf Hr. apply wf_set_rules; [done|by apply unique_insert; [apply Hwf|]|].
  intros q Hq. exists q. split; [|done]. apply elem_of_app. by left.
Qed.

(** A rule that no policy has is not in the book. *)
Lemma book_add_rule t r s :
  policies_wf t -> (forall q, q ∈ rules_table t -> rr_id q <> rr_id r) ->
  current_book (set_rules (rules_table t ++ [r]) t) s <-> current_book t s.
Proof using Type.
  intros Hwf Hr. unfold current_book. cbn. split; intros (p & b & q & Hp & Hpc & Hb & Hbp & Hq & Hqb & Hqc & ->); exists p, b, q.
  - split_and!; try done. apply elem_of_app in Hq as [Hq|Hq%list_elem_of_singleton]; [done|]. subst q.
    destruct (pw_rule t Hwf b Hb) as (q & Hq & Hid & _). destruct (Hr q Hq). congruence.
  - split_and!; try done. apply elem_of_app. by left.
Qed.

Lemma settled_end_binding at_ t p now f :
  now <= at_ -> (f = end_binding now \/ exists by_, f = supersede_binding now by_) -> settled at_ t ->
  settled at_ (set_project_bindings (update_where p f (project_bindings_table t)) t).
Proof using Type.
  intros Hnow Hf [H1 H2 H3]. split; [exact H1|exact H2|]. cbn. intros b (q & Hq & ->)%elem_of_update_where.
  destruct (H3 q Hq) as [Hfrom Hto]. destruct (p q); [|by apply H3].
  destruct Hf as [->|[by_ ->]]; cbn; (split; [done|by right]).
Qed.

Lemma settled_end_policy at_ t own now :
  now <= at_ -> settled at_ t -> settled at_ (set_policies (update_where own (end_policy now) (policies_table t)) t).
Proof using Type.
  intros Hnow [H1 H2 H3]. split; [|exact H2|exact H3]. cbn. intros b (q & Hq & ->)%elem_of_update_where.
  destruct (H1 q Hq) as [Hfrom Hto]. destruct (own q); [|by apply H1]. split; [done|by right].
Qed.

Lemma settled_end_rule at_ t own now f :
  now <= at_ -> (f = end_rule now \/ exists by_, f = (fun r => supersede_rule by_ (end_rule now r))) -> settled at_ t ->
  settled at_ (set_rules (update_where own f (rules_table t)) t).
Proof using Type.
  intros Hnow Hf [H1 H2 H3]. split; [exact H1| |exact H3]. cbn. intros b (q & Hq & ->)%elem_of_update_where.
  destruct (H2 q Hq) as [Hfrom Hto]. destruct (own q); [|by apply H2].
  destruct Hf as [->|[by_ ->]]; cbn; (split; [done|by right]).
Qed.

Lemma settled_add_rule at_ t r :
  r_effective_from (rr_row r) <= at_ -> rr_current r = true -> settled at_ t -> settled at_ (set_rules (rules_table t ++ [r]) t).
Proof using Type.
  intros Hat Hto%infinite_spec [H1 H2 H3]. split; [exact H1| |exact H3]. cbn.
  intros q [Hq|Hq%list_elem_of_singleton]%elem_of_app; [by apply H2|]. subst q. rewrite Hto. split; [done|by left].
Qed.

Lemma current_book_bindings t l s : current_book (set_project_bindings l t) s <-> current_book t s.
Proof using Type. done. Qed.

Lemma book_policy_ended t p now s :
  policies_wf t -> now < VALID_TO_INFINITY -> p ∈ policies_table t -> pr_current p = true ->
  current_book (set_policies (update_where (own_policy_record (pr_id p) (pr_tenant p)) (end_policy now) (policies_table t)) t) s <->
  current_book t s /\ pf_key (st_policy s) <> pr_key p.
Proof using Type.
  intros Hwf Hnow Hp Hc. split.
  - intros (q & b & r & (q0 & Hq0 & ->)%elem_of_update_where & Hqc & Hb & Hbp & Hr & Hrb & Hrc & ->). cbn in Hb, Hr.
    destruct (own_policy_record _ _ q0) eqn:E.
    { unfold pr_current in Hqc. cbn in Hqc. apply infinite_spec in Hqc. lia. }
    split; [by exists q0, b, r|]. cbn. intros Hk. assert (q0 = p) as -> by (by apply (policy_by_key t)).
    unfold own_policy_record in E. by rewrite !String.eqb_refl in E.
  - intros [(q & b & r & Hq & Hqc & Hb & Hbp & Hr & Hrb & Hrc & ->) Hk]. exists q, b, r. split_and!; try done.
    apply elem_of_update_where. exists q. split; [done|]. unfold own_policy_record.
    destruct (String.eqb_spec (pr_id q) (pr_id p)) as [Hid|]; [|done]. rewrite (policy_by_id t Hwf q p) in Hk by done. done.
Qed.

(** ** The next version of a rule *)

Lemma wf_next_rule t own now new :
  policies_wf t -> now < VALID_TO_INFINITY ->
  existsb (rule_conflict new) (update_where own (end_rule now) (rules_table t)) = false ->
  policies_wf (set_rules (update_where own (fun r => supersede_rule (rr_id new) (end_rule now r)) (rules_table t) ++ [new]) t).
Proof using Type.
  intros Hwf Hnow Hc. apply wf_set_rules; [done|..].
  - apply unique_insert.
    + apply unique_update; [|apply Hwf]. intros x y _ _ Hxy. by apply (rule_conflict_ended now (rr_id new) x y own Hnow).
    + apply existsb_none. intros r (q & Hq & ->)%elem_of_update_where. rewrite existsb_none in Hc.
      rewrite <- (Hc (if own q then end_rule now q else q)) by (apply elem_of_update_where; by exists q). by destruct (own q).
  - intros q Hq. exists (if own q then supersede_rule (rr_id new) (end_rule now q) else q).
    split; [apply elem_of_app; left; apply elem_of_update_where; by exists q|]. by destruct (own q).
Qed.

Section next_rule.
Context (t t1 : policy_tables) (Hwf : policies_wf t) (ruleId : string) (p : policy_record).
Context (Hp : p ∈ policies_table t) (Hcp : pr_current p = true) (new : policy_record) (Hface : face (pr_row new) = face (pr_row p)).
Context (Hpolicies : policies_table t1 = policies_table t) (Hbindings : rule_bindings_table t1 = rule_bindings_table t).
Context (old : rule_record -> Prop).
Context (Hold : forall b, b ∈ rule_bindings_table t -> forall r, rr_id r = rbr_rule b -> old r).
Context (Hrules : forall r, old r -> r ∈ rules_table t1 /\ rr_current r = true <-> r ∈ rules_table t /\ rr_current r = true /\ rr_id r <> ruleId).

(** The statutes of the other rules, in the other policies and copied. *)
Lemma other_statutes st :
  current_book t1 st /\ pf_key (st_policy st) <> pr_key p \/
  (exists b r, b ∈ loadPolicyRuleBindingsForClone (pr_id p) (pr_tenant p) t /\ rbr_rule b <> ruleId /\ r ∈ rules_table t1 /\
     rr_id r = rbr_rule b /\ rr_current r = true /\
     st = {| st_policy := face (pr_row new); st_rule := rr_row r; st_enabled := rb_enabled (rbr_row b);
             st_order := rb_order_index (rbr_row b) |}) <->
  current_book t st /\ r_id (st_rule st) <> ruleId.
Proof using Hwf Hp Hcp Hface Hpolicies Hbindings Hold Hrules.
  split.
  - intros [[(q & b & r & Hq & Hqc & Hb & Hbq & Hr & Hrb & Hrc & ->) Hk]|(b & r & Hb & Hne & Hr & Hrb & Hrc & ->)].
    + rewrite Hpolicies in Hq. rewrite Hbindings in Hb. destruct (proj1 (Hrules r (Hold b Hb r Hrb))) as (Hr0 & _ & Hid); [done|].
      split; [by exists q, b, r|done].
    + apply own_bindings in Hb as [Hb Hbp]; [|done..]. destruct (proj1 (Hrules r (Hold b Hb r Hrb))) as (Hr0 & _ & Hid); [done|].
      split; [|done]. exists p, b, r. split_and!; try done. unfold statute_of. by rewrite Hface.
  - intros [(q & b & r & Hq & Hqc & Hb & Hbq & Hr & Hrb & Hrc & ->) Hid]. cbn in Hid.
    destruct (proj2 (Hrules r (Hold b Hb r Hrb))) as [Hr1 _]; [done|].
    destruct (decide (pr_key q = pr_key p)) as [Hk|Hk].
    + assert (q = p) as -> by (by apply (policy_by_key t)). right. exists b, r. rewrite own_bindings by done. split_and!; try done.
      * rewrite <- Hrb. done.
      * unfold statute_of. by rewrite Hface.
    + left. split; [|done]. exists q, b, r. by rewrite Hpolicies, Hbindings.
Qed.
End next_rule.
End correct.
