(* ===== verification/PolicyRefine.v ===== *)
(** * What policy management guarantees

    The requests that change policies and their rules amend the book of statutes,
    each in its own way and nothing else; they keep what the theorems on the
    effective policy assume; and some of them cannot succeed, or undo more than they
    say. *)

From S2P Require Import Prelude JsString JsValue Jsonb Sql Effects Constants Tenancy Rbac AccessCorrect Effective Policies PolicyCorrect.
Local Open Scope string_scope.
Local Open Scope list_scope.
Local Open Scope Z_scope.

(** ** Requests *)

Inductive policy_request : Type :=
| patch_policy (body : policy_patch)
| delete_policy
| create_rule (body : create_rule_body)
| reorder_rules (order : list (string * Z))
| patch_rule (body : patch_rule_body)
| delete_rule.

Section spec.
Context `{Env} `{SqlOrder} `{Formats}.

(** Handling a request, with the rule it answers with. *)
Definition serve (c : AuthContext) (req : policy_request) : PM (HttpResult (option rule_view)) :=
  match req with
  | patch_policy body => let? _ := patch_policy_route c body in mret (okResult None)
  | delete_policy => let? _ := delete_policy_route c in mret (okResult None)
  | create_rule body => let? v := create_rule_route c body in mret (okResult (Some v))
  | reorder_rules order => let? _ := reorder_rules_route c order in mret (okResult None)
  | patch_rule body => let? v := patch_rule_route c body in mret (okResult (Some v))
  | delete_rule => let? _ := delete_rule_route c in mret (okResult None)
  end.

(** The policy version a request is about: the one it names, or the one whose binding
    of the rule the database finds, and then that rule. *)
Definition about_rule (c : AuthContext) (t : policy_tables) : option (policy_record * option rule_record) :=
  ruleId ← au_param c "rule_id";
  row ← getRuleForTenant ruleId (au_tenantId c) t;
  binding ← row.2;
  policy ← loadPolicyForTenant (rbr_policy binding) (au_tenantId c) t;
  Some (policy, Some row.1).

Definition about (c : AuthContext) (req : policy_request) (t : policy_tables) : option (policy_record * option rule_record) :=
  match req with
  | patch_rule _ | delete_rule => about_rule c t
  | _ => policyId ← au_param c "policy_id"; policy ← loadPolicyForTenant policyId (au_tenantId c) t; Some (policy, None)
  end.

(** ** Amendments of the book *)

Definition patched_face (patch : policy_patch) (f : policy_face) : policy_face :=
  {| pf_key := pf_key f; pf_tenant := pf_tenant f; pf_project := pf_project f; pf_name := default (pf_name f) (pp_name patch);
     pf_scope := pf_scope f; pf_status := default (pf_status f) (pp_status patch);
     pf_enforcement_mode := default (pf_enforcement_mode f) (pp_enforcement_mode patch);
     pf_priority := default (pf_priority f) (pp_priority patch) |}.

Definition with_face (f : policy_face) (s : statute) : statute :=
  {| st_policy := f; st_rule := st_rule s; st_enabled := st_enabled s; st_order := st_order s |}.
Definition with_order (order : list (string * Z)) (s : statute) : statute :=
  {| st_policy := st_policy s; st_rule := st_rule s; st_enabled := st_enabled s;
     st_order := default (st_order s) (map_get (r_id (st_rule s)) (map_entries order)) |}.
Definition with_rule (r : rule_row) (enabled : option bool) (s : statute) : statute :=
  {| st_policy := st_policy s; st_rule := r; st_enabled := default (st_enabled s) enabled; st_order := st_order s |}.

(** Statutes of a policy replaced, one by one. *)
Definition replaced (which : statute -> Prop) `{forall s, Decision (which s)} (f : statute -> statute) (B : statute -> Prop)
    (s : statute) : Prop :=
  exists s0, B s0 /\ s = if decide (which s0) then f s0 else s0.

(** A first version of a rule, as the body of the request has it. *)
Record rule_written (body : create_rule_body) (r : rule_record) : Prop := {
  wn_name : r_name (rr_row r) = cr_name body;
  wn_description : r_description (rr_row r) = cr_description body;
  wn_target_entity : r_target_entity (rr_row r) = cr_target_entity body;
  wn_condition : r_condition (rr_row r) = jsonb (cr_condition body);
  wn_action : r_action (rr_row r) = jsonb (cr_action body);
  wn_version : rr_version r = 1;
  wn_current : rr_current r = true
}.

(** The version of a rule after [old]: what the body names is as the body has it, the
    rest as it was. *)
Record rule_rewritten (body : patch_rule_body) (old r : rule_record) : Prop := {
  rn_key : rr_key r = rr_key old;
  rn_name : r_name (rr_row r) = default (r_name (rr_row old)) (pb_name body);
  rn_description : r_description (rr_row r) = default (r_description (rr_row old)) (pb_description body);
  rn_target_entity : r_target_entity (rr_row r) = default (r_target_entity (rr_row old)) (pb_target_entity body);
  rn_condition : r_condition (rr_row r) = jsonb (default (r_condition (rr_row old)) (pb_condition body));
  rn_action : r_action (rr_row r) = jsonb (default (r_action (rr_row old)) (pb_action body));
  rn_version : rr_version r = rr_version old + 1;
  rn_current : rr_current r = true
}.

(** The place of a rule added without one: the number of the policy's rules. *)
Definition rules_of (p : policy_record) (t : policy_tables) : list rule_binding_record :=
  List.filter (fun b => String.eqb (rbr_policy b) (pr_id p)) (rule_bindings_table t).
Definition place_of (p : policy_record) (t : policy_tables) (body : create_rule_body) : Z :=
  default (Z.of_nat (length (rules_of p t))) (cr_order_index body).

(** A rule of the policy's tenant that was not there. *)
Definition new_rule_of (p : policy_record) (t : policy_tables) (r : rule_record) : Prop :=
  rr_tenant_id r = pr_tenant p /\ forall q, q ∈ rules_table t -> rr_id q <> rr_id r.

(** The answer to a request: the rule it wrote, if it writes one. *)
Definition answered (p : policy_record) (o : option rule_record) (t : policy_tables) (req : policy_request)
    (answer : option rule_view) : Prop :=
  match req, o, answer with
  | create_rule body, _, Some v =>
      rule_written body (rw_rule v) /\ new_rule_of p t (rw_rule v) /\
      rw_enabled v = default true (cr_enabled body) /\ rw_order_index v = place_of p t body
  | patch_rule body, Some r, Some v =>
      rule_rewritten body r (rw_rule v) /\ new_rule_of p t (rw_rule v) /\
      forall enabled, pb_enabled body = Some enabled -> rw_enabled v = enabled
  | create_rule _, _, None | patch_rule _, _, _ => False
  | _, _, _ => answer = None
  end.

(** What a request does to the book, given its policy, the rule it is about, that
    which it writes, and the place of a rule added. *)
Definition amended (p : policy_record) (o : option rule_record) (place : create_rule_body -> Z) (req : policy_request)
    (written : option rule_view) (B : statute -> Prop) (s : statute) : Prop :=
  match req, o, written with
  | patch_policy body, _, _ => replaced (fun s => pf_key (st_policy s) = pr_key p) (fun s => with_face (patched_face body (st_policy s)) s) B s
  | delete_policy, _, _ => B s /\ pf_key (st_policy s) <> pr_key p
  | create_rule body, _, Some v =>
      B s \/ s = {| st_policy := face (pr_row p); st_rule := rr_row (rw_rule v); st_enabled := default true (cr_enabled body);
                    st_order := place body |}
  | reorder_rules order, _, _ => replaced (fun s => pf_key (st_policy s) = pr_key p) (with_order order) B s
  | patch_rule body, Some r, Some v =>
      replaced (fun s => r_id (st_rule s) = rr_id r) (with_rule (rr_row (rw_rule v)) (pb_enabled body)) B s
  | delete_rule, Some r, _ => B s /\ r_id (st_rule s) <> rr_id r
  | _, _, _ => False
  end.

(** ** Runs of the routes *)

Lemma loadPolicy_some policyId tenantId t p :
  loadPolicyForTenant policyId tenantId t = Some p -> p ∈ policies_table t /\ pr_id p = policyId /\ pr_tenant p = tenantId.
Proof using Type.
  intros Hp%head_filter. destruct Hp as [Hp Ho]. apply andb_true_iff in Ho as [?%String.eqb_eq ?%String.eqb_eq]. done.
Qed.

Lemma getRule_some ruleId tenantId t r b :
  getRuleForTenant ruleId tenantId t = Some (r, b) ->
  r ∈ rules_table t /\ rr_id r = ruleId /\ rr_tenant_id r = tenantId /\
  forall b', b = Some b' -> b' ∈ rule_bindings_table t /\ rbr_rule b' = ruleId.
Proof using Type.
  intros (r' & Hr & [= <- <-])%bind_Some. apply head_filter in Hr as [Hr Ho].
  apply andb_true_iff in Ho as [Hid%String.eqb_eq Ht%String.eqb_eq]. split_and!; [done..|].
  intros b' Hb%head_filter. destruct Hb as [Hb Ho]. apply andb_true_iff in Ho as [Hbr%String.eqb_eq _]. by rewrite Hbr.
Qed.

Lemma uuid_param_inv c name label x : validateUuidParam c name label = inl x -> au_param c name = Some x.
Proof using Type. unfold validateUuidParam. destruct (au_param c name); [|done]. destruct (is_uuid _); [|done]. by intros [= ->]. Qed.

Lemma check_inv {S A B} (r : HttpResult A) (k : A -> M S (HttpResult B)) s b s' :
  returns (http_bind (mret r) k) s (inl b) s' -> exists a, r = inl a /\ returns (k a) s (inl b) s'.
Proof using Type. intros (a & s1 & Hr & Hk)%http_bind_inl. apply returns_ret in Hr as [<- ->]. by exists a. Qed.

(** A route on a policy goes on with the one it names. *)
Lemma policy_route_inv {A} c (k : policy_record -> PM (HttpResult A)) s a s' :
  returns (policy_route c k) s (inl a) s' ->
  exists p, (policyId ← au_param c "policy_id"; loadPolicyForTenant policyId (au_tenantId c) s.2) = Some p /\
    p ∈ policies_table s.2 /\ pr_tenant p = au_tenantId c /\ returns (k p) s (inl a) s'.
Proof using Type.
  intros (pid & Hv%uuid_param_inv & Hr)%check_inv. apply returns_bind in Hr as (o & s1 & Hg & Hr).
  apply returns_gets in Hg as [-> ->]. destruct (loadPolicyForTenant pid _ _) as [p|] eqn:Ep; [|by apply returns_ret in Hr as [? _]].
  apply loadPolicy_some in Ep as Hp. exists p. rewrite Hv. cbn. naive_solver.
Qed.

Lemma createNext_ticks existing tenantId now bs patch : ticks (createNextPolicyVersion existing tenantId now bs patch).
Proof using Type.
  unfold createNextPolicyVersion, update_policies, update_checked, insert_policy, insert_rule_binding, insert_unique. ticks_walk.
Qed.

(** ** The invariant over time *)

Context (clock_bounded : forall m, clock m < VALID_TO_INFINITY).

Definition past (n : nat) (at_ : timestamp) : Prop := forall m, (m < n)%nat -> clock m <= at_.

Definition policies_inv (n : nat) (t : policy_tables) : Prop := policies_wf t /\ forall at_, past n at_ -> settled at_ t.

Lemma past_le n m at_ : (n <= m)%nat -> past m at_ -> past n at_.
Proof using Type. intros Hnm Hp k Hk. apply Hp. lia. Qed.

Lemma inv_monotone : monotone policies_inv.
Proof using Type. intros n m t Hnm [Hwf Hs]. split; [done|]. intros at_ Hp. apply Hs. by apply (past_le n m). Qed.

(** A new version in a state reached from one that had the invariant. *)
Lemma createNext_inv_kept existing tenantId m bs patch s new s' :
  returns (createNextPolicyVersion existing tenantId (clock m) bs patch) s new s' -> (m < s.1)%nat ->
  policies_inv s.1 s.2 -> existing ∈ policies_table s.2 -> pr_tenant existing = tenantId ->
  (forall c, c ∈ bs -> exists r, r ∈ rules_table s.2 /\ rr_id r = bc_rule_id c /\ rr_tenant_id r = tenantId) ->
  (forall c b q, c ∈ bs -> b ∈ rule_bindings_table s.2 -> q ∈ policies_table s.2 -> pr_id q = rbr_policy b ->
     rbr_rule b = bc_rule_id c -> pr_key q = pr_key existing) ->
  policies_inv s'.1 s'.2 /\ new = next_policy existing (clock m) patch (pr_id new) /\ new ∈ policies_table s'.2 /\
  rules_table s'.2 = rules_table s.2 /\
  (pr_current existing = true -> forall st, current_book s'.2 st <->
     current_book s.2 st /\ pf_key (st_policy st) <> pr_key existing \/
     exists c r, c ∈ bs /\ r ∈ rules_table s.2 /\ rr_id r = bc_rule_id c /\ rr_current r = true /\
       st = {| st_policy := face (pr_row new); st_rule := rr_row r; st_enabled := bc_enabled c; st_order := bc_order_index c |}).
Proof using clock_bounded.
  intros Hr Hm [Hwf Hs] Hex Ht Hrules Hsingle.
  destruct (returns_keeps _ _ _ _ _ (createNext_ticks _ _ _ _ _) Hr I) as [Hle _].
  destruct (createNext_correct _ _ _ _ _ _ _ _ Hr Hwf Hex Ht (clock_bounded m) Hrules Hsingle) as (Hwf' & Hs' & Hnew & Hin & Hrt & Hb).
  split; [|done]. split; [done|]. intros at_ Hp. apply Hs'; [apply Hp; lia|]. apply Hs. by eapply past_le.
Qed.

(** Statutes of a current policy replaced: those of other policies, and the new ones. *)
Lemma replaced_part t p f st :
  policies_wf t -> p ∈ policies_table t -> pr_current p = true ->
  replaced (fun s => pf_key (st_policy s) = pr_key p) f (current_book t) st <->
  current_book t st /\ pf_key (st_policy st) <> pr_key p \/
  exists b r, b ∈ loadPolicyRuleBindingsForClone (pr_id p) (pr_tenant p) t /\ r ∈ rules_table t /\ rr_id r = rbr_rule b /\
    rr_current r = true /\ st = f (statute_of (pr_row p) (rbr_row b) (rr_row r)).
Proof using Type.
  intros Hwf Hp Hc. unfold replaced. split.
  - intros (s0 & Hs0 & ->). destruct (decide _) as [Hk|Hk]; [right|by left].
    destruct (proj1 (own_statutes t p s0 Hwf Hp Hc) (conj Hs0 Hk)) as (b & r & Hb & Hr & Hrb & Hrc & ->). by exists b, r.
  - intros [[Hs Hk]|(b & r & Hb & Hr & Hrb & Hrc & ->)].
    + exists st. split; [done|]. by rewrite decide_False.
    + destruct (proj2 (own_statutes t p (statute_of (pr_row p) (rbr_row b) (rr_row r)) Hwf Hp Hc)) as [Hs Hk]; [by exists b, r|].
      eexists. split; [exact Hs|]. by rewrite decide_True.
Qed.

(** Copies of the bindings of a current policy, each changed by [g]. *)
Lemma copied_part t p (g : rule_binding_record -> PolicyRuleBindingClone) new f st :
  policies_wf t -> p ∈ policies_table t -> pr_current p = true -> (forall b, bc_rule_id (g b) = rbr_rule b) ->
  (forall b r, rr_id r = rbr_rule b ->
     f (statute_of (pr_row p) (rbr_row b) (rr_row r)) =
     {| st_policy := face (pr_row new); st_rule := rr_row r; st_enabled := bc_enabled (g b); st_order := bc_order_index (g b) |}) ->
  current_book t st /\ pf_key (st_policy st) <> pr_key p \/
  (exists c r, c ∈ map g (loadPolicyRuleBindingsForClone (pr_id p) (pr_tenant p) t) /\ r ∈ rules_table t /\ rr_id r = bc_rule_id c /\
     rr_current r = true /\
     st = {| st_policy := face (pr_row new); st_rule := rr_row r; st_enabled := bc_enabled c; st_order := bc_order_index c |}) <->
  replaced (fun s => pf_key (st_policy s) = pr_key p) f (current_book t) st.
Proof using Type.
  intros Hwf Hp Hc Hg Hf. rewrite replaced_part by done. apply Morphisms_Prop.or_iff_morphism; [done|]. split.
  - intros (c & r & (b & -> & Hb)%list_elem_of_fmap & Hr & Hrc & Hcur & ->). rewrite Hg in Hrc. exists b, r. by rewrite Hf.
  - intros (b & r & Hb & Hr & Hrb & Hcur & ->). exists (g b), r. rewrite Hg, Hf by done. split; [|done]. by apply list_elem_of_fmap_2.
Qed.

(** Plain copies under a version that says the same leave the book as it is. *)
Lemma copied_same t p new st :
  policies_wf t -> p ∈ policies_table t -> pr_current p = true -> face (pr_row new) = face (pr_row p) ->
  current_book t st /\ pf_key (st_policy st) <> pr_key p \/
  (exists c r, c ∈ map clone_of (loadPolicyRuleBindingsForClone (pr_id p) (pr_tenant p) t) /\ r ∈ rules_table t /\
     rr_id r = bc_rule_id c /\ rr_current r = true /\
     st = {| st_policy := face (pr_row new); st_rule := rr_row r; st_enabled := bc_enabled c; st_order := bc_order_index c |}) <->
  current_book t st.
Proof using Type.
  intros Hwf Hp Hc Hf. rewrite (copied_part t p clone_of new (fun s => s)); [|done..|by rewrite Hf].
  unfold replaced. split; [intros (s0 & Hs0 & ->); by destruct (decide _)|]. intros Hs. exists st. split; [done|]. by destruct (decide _).
Qed.

(** Copies of bindings bind rules of the policy. *)
Lemma copies_own t p (g : rule_binding_record -> PolicyRuleBindingClone) c :
  policies_wf t -> p ∈ policies_table t -> (forall b, bc_rule_id (g b) = rbr_rule b) ->
  c ∈ map g (loadPolicyRuleBindingsForClone (pr_id p) (pr_tenant p) t) ->
  exists b, b ∈ rule_bindings_table t /\ rbr_policy b = pr_id p /\ bc_rule_id c = rbr_rule b.
Proof using Type.
  intros Hwf Hp Hg (b & -> & [Hb Hid]%own_bindings)%list_elem_of_fmap; [|done..]. by exists b.
Qed.

Lemma patch_policy_refines c body n t new n' t' :
  returns (patch_policy_route c body) (n, t) (inl new) (n', t') -> policies_inv n t ->
  policies_inv n' t' /\
  exists p, about c (patch_policy body) t = Some (p, None) /\
    (pr_current p = true -> forall s, current_book t' s <-> amended p None (place_of p t) (patch_policy body) None (current_book t) s).
Proof using clock_bounded.
  intros (p & Hab & Hp & Ht & Hr)%policy_route_inv Hinv. apply check_inv in Hr as (u & _ & Hr). run_if Ea; [by apply returns_ret in Hr as [? _]|].
  apply returns_bind in Hr as (new' & s1 & Htx & Hr). apply returns_ret in Hr as [[= <-] <-]. apply (proj1 (returns_transaction _ _ _ _)) in Htx.
  apply returns_bind in Htx as (now & s2 & Hn & Htx). apply returns_now in Hn as [-> ->].
  apply returns_bind in Htx as (bs & s3 & Hg & Htx). apply returns_gets in Hg as [-> ->]. cbn [fst snd] in *.
  rewrite <- Ht in Htx. destruct (clones_own t p (map clone_of (loadPolicyRuleBindingsForClone (pr_id p) (pr_tenant p) t))) as [Hrules Hsingle];
    [apply Hinv|done|intros; by eapply (copies_own _ _ clone_of); [apply Hinv|..]|].
  apply createNext_inv_kept in Htx as (Hinv' & Hnew & _ & _ & Hb); [|cbn; lia|by apply (inv_monotone n); [cbn; lia|]|done..].
  split; [done|]. exists p. split.
  { cbn in Hab |- *. destruct (au_param c "policy_id"); cbn in *; [|done]. by rewrite Hab. }
  intros Hc s. cbn in Hb. rewrite (Hb Hc). apply copied_part; try done; [apply Hinv|]. intros b r _. by rewrite Hnew.
Qed.

(** The policy a route on policies is about. *)
Lemma about_policy c req t p :
  (match req with patch_rule _ | delete_rule => False | _ => True end) ->
  (policyId ← au_param c "policy_id"; loadPolicyForTenant policyId (au_tenantId c) t) = Some p -> about c req t = Some (p, None).
Proof using Type. intros Hreq Hab. destruct req; cbn in *; try done; destruct (au_param c "policy_id"); cbn in *; try done; by rewrite Hab. Qed.

Lemma reorder_rules_refines c order n t v n' t' :
  returns (reorder_rules_route c order) (n, t) (inl v) (n', t') -> policies_inv n t ->
  policies_inv n' t' /\
  exists p, about c (reorder_rules order) t = Some (p, None) /\
    (pr_current p = true -> forall s, current_book t' s <-> amended p None (place_of p t) (reorder_rules order) None (current_book t) s).
Proof using clock_bounded.
  intros (p & Hab & Hp & Ht & Hr)%policy_route_inv Hinv. apply check_inv in Hr as (u & _ & Hr).
  apply returns_bind in Hr as (rows & s1 & Hg & Hr). apply returns_gets in Hg as [_ ->]. cbn zeta in Hr.
  run_if Ea; [by apply returns_ret in Hr as [? _]|].
  apply returns_bind in Hr as (new & s1 & Htx & Hr). apply (proj1 (returns_transaction _ _ _ _)) in Htx.
  apply returns_bind in Hr as (views & s2 & Hg & Hr). apply returns_gets in Hg as [_ ->]. apply returns_ret in Hr as [_ <-].
  apply returns_bind in Htx as (now & s2 & Hn & Htx). apply returns_now in Hn as [-> ->].
  apply returns_bind in Htx as (bs & s3 & Hg & Htx). apply returns_gets in Hg as [-> ->]. cbn [fst snd] in *.
  rewrite <- Ht in Htx. destruct (clones_own t p (map (reordered order) (loadPolicyRuleBindingsForClone (pr_id p) (pr_tenant p) t)))
    as [Hrules Hsingle]; [apply Hinv|done|intros; by eapply (copies_own _ _ (reordered order)); [apply Hinv|..]|].
  apply createNext_inv_kept in Htx as (Hinv' & Hnew & _ & _ & Hb); [|cbn; lia|by apply (inv_monotone n); [cbn; lia|]|done..].
  split; [done|]. exists p. split; [by apply about_policy|]. intros Hc s. cbn in Hb. rewrite (Hb Hc).
  apply copied_part; try done; [apply Hinv|]. intros b r Hbr. rewrite Hnew. unfold with_order. cbn. by rewrite <- Hbr.
Qed.

Lemma delete_policy_refines c n t u n' t' :
  returns (delete_policy_route c) (n, t) (inl u) (n', t') -> policies_inv n t ->
  policies_inv n' t' /\
  exists p, about c delete_policy t = Some (p, None) /\
    (pr_current p = true -> forall s, current_book t' s <-> amended p None (place_of p t) delete_policy None (current_book t) s).
Proof using clock_bounded.
  intros (p & Hab & Hp & Ht & Hr)%policy_route_inv [Hwf Hs]. apply check_inv in Hr as (w & _ & Hr).
  apply returns_bind in Hr as (now & s1 & Hn & Hr). apply returns_now in Hn as [-> ->].
  apply returns_bind in Hr as (new & s1 & Htx & Hr). apply (proj1 (returns_transaction _ _ _ _)) in Htx.
  apply returns_ret in Hr as [_ <-]. apply returns_bind in Htx as (w1 & s2 & K1 & Htx). apply update_checked_inv in K1 as [_ ->].
  apply update_checked_inv in Htx as [_ [= -> ->]]. cbn [fst snd] in *. rewrite <- Ht. pose proof (clock_bounded n) as Hnow.
  assert (Hwf1 := wf_end_policy t (own_policy_record (pr_id p) (pr_tenant p)) (clock n) Hwf Hnow).
  split; [split|].
  - exact (wf_end_binding _ _ _ _ Hwf1 Hnow (or_introl eq_refl)).
  - intros at_ Hat. assert (Hle : clock n <= at_) by (apply Hat; lia).
    refine (settled_end_binding at_ _ _ _ _ Hle (or_introl eq_refl) _).
    apply settled_end_policy; [done|]. apply Hs. eapply past_le; [|exact Hat]. lia.
  - exists p. split; [by apply about_policy|]. intros Hc s. rewrite current_book_bindings. by apply book_policy_ended.
Qed.

(** The run of a successful addition of a rule. *)
Definition last_clone (t : policy_tables) (p : policy_record) (body : create_rule_body) (id : string) : PolicyRuleBindingClone :=
  {| bc_rule_id := id; bc_enabled := default true (cr_enabled body); bc_required := false;
     bc_order_index := default (Z.of_nat (length (loadPolicyRuleBindingsForClone (pr_id p) (pr_tenant p) t))) (cr_order_index body) |}.

Lemma create_rule_run c body n t v s' :
  returns (create_rule_route c body) (n, t) (inl v) s' ->
  let rule := new_rule (au_tenantId c) body (uuid (S n)) (uuid (S (S n))) (clock (S (S (S n)))) in
  let t1 := set_rules (rules_table t ++ [rule]) t in
  exists p new b, about c (create_rule body) t = Some (p, None) /\ p ∈ policies_table t /\ pr_tenant p = au_tenantId c /\
    existsb (rule_conflict rule) (rules_table t) = false /\ v = bound_view b rule /\
    b ∈ rule_bindings_table s'.2 /\ rbr_policy b = pr_id new /\ rbr_rule b = rr_id rule /\
    returns (createNextPolicyVersion p (pr_tenant p) (clock n)
      (map clone_of (loadPolicyRuleBindingsForClone (pr_id p) (pr_tenant p) t) ++ [last_clone t p body (rr_id rule)]) no_patch)
      (S (S (S (S n))), t1) new s'.
Proof using Type.
  intros (p & Hab & Hp & Ht & Hr)%policy_route_inv. cbn zeta. apply (about_policy c (create_rule body) t p I) in Hab.
  apply check_inv in Hr as (u & _ & Hr). run_if Ea; [by apply returns_ret in Hr as [? _]|].
  apply returns_bind in Hr as (v' & s1 & Htx & Hr). apply (proj1 (returns_transaction _ _ _ _)) in Htx. apply returns_ret in Hr as [[= <-] ->].
  apply returns_bind in Htx as (now & s2 & Hn & Htx). apply returns_now in Hn as [-> ->].
  apply returns_bind in Htx as (id & s2 & Hn & Htx). apply returns_fresh in Hn as [-> ->].
  apply returns_bind in Htx as (key & s2 & Hn & Htx). apply returns_fresh in Hn as [-> ->].
  apply returns_bind in Htx as (from & s2 & Hn & Htx). apply returns_now in Hn as [-> ->]. cbn zeta in Htx. cbn [fst snd] in Htx.
  set (rule := new_rule _ _ _ _ _) in *.
  apply returns_bind in Htx as (w & s2 & Hn & Htx). apply insert_unique_inv in Hn as [Hf ->]. cbn [fst snd] in *.
  apply returns_bind in Htx as (bs & s3 & Hg & Htx). apply returns_gets in Hg as [-> ->]. cbn [fst snd] in *.
  apply returns_bind in Htx as (new & s3 & Hnext & Htx). apply returns_bind in Htx as (b & s4 & Hg & Htx).
  apply returns_gets in Hg as [Hb ->]. destruct b as [b|]; [|by apply returns_throw in Htx]. apply returns_ret in Htx as [-> <-].
  symmetry in Hb. apply head_filter in Hb as [Hb Hbo]. rewrite !andb_true_iff, !String.eqb_eq in Hbo. destruct Hbo as [[Hbp Hbr] _].
  exists p, new, b. unfold last_clone. rewrite Ht. split_and!; done.
Qed.

Lemma rules_of_length t p :
  policies_wf t -> p ∈ policies_table t ->
  length (loadPolicyRuleBindingsForClone (pr_id p) (pr_tenant p) t) = length (rules_of p t).
Proof using Type.
  intros Hwf Hp. unfold loadPolicyRuleBindingsForClone. rewrite order_by_perm. unfold rules_of. f_equal. apply filter_ext_in.
  intros b Hb%list_elem_of_In. unfold own_rule_binding. destruct (String.eqb_spec (rbr_policy b) (pr_id p)) as [He|]; [|done].
  destruct (pw_policy t Hwf b Hb) as (q & Hq & Hid & Ht). rewrite <- Ht, (policy_by_id t Hwf q p) by congruence. cbn. apply String.eqb_refl.
Qed.

(** Copies of a policy's bindings, and one of a rule no policy has. *)
Lemma added_rule_book t t' p rule new body st :
  let t1 := set_rules (rules_table t ++ [rule]) t in
  let bs := map clone_of (loadPolicyRuleBindingsForClone (pr_id p) (pr_tenant p) t) in
  let last := last_clone t p body (rr_id rule) in
  policies_wf t -> p ∈ policies_table t -> pr_current p = true -> face (pr_row new) = face (pr_row p) ->
  (forall q, q ∈ rules_table t -> rr_id q <> rr_id rule) -> rr_current rule = true -> policies_wf t1 ->
  (forall st, current_book t' st <-> current_book t1 st /\ pf_key (st_policy st) <> pr_key p \/
     exists c r, c ∈ bs ++ [last] /\ r ∈ rules_table t1 /\ rr_id r = bc_rule_id c /\ rr_current r = true /\
       st = {| st_policy := face (pr_row new); st_rule := rr_row r; st_enabled := bc_enabled c; st_order := bc_order_index c |}) ->
  current_book t' st <-> current_book t st \/
    st = {| st_policy := face (pr_row p); st_rule := rr_row rule; st_enabled := default true (cr_enabled body);
            st_order := place_of p t body |}.
Proof using Type.
  cbn zeta. set (t1 := set_rules _ t). set (bs := map clone_of _). set (last := last_clone t p body (rr_id rule)).
  intros Hwf Hp Hc Hface Hfresh Hrc Hwf1 Hbook.
  assert (Hrule : rule ∈ rules_table t1) by (apply elem_of_app; right; by apply list_elem_of_singleton).
  assert (Hplace : bc_order_index last = place_of p t body) by (cbn; unfold place_of; by rewrite rules_of_length).
  assert (Hsame := copied_same t1 p new st Hwf1 Hp Hc Hface). change (map clone_of _) with bs in Hsame.
  rewrite Hbook, <- Hplace, <- (book_add_rule t rule st Hwf Hfresh). fold t1. split.
  - intros [Hs0|(x & r & [Hx|Hx%list_elem_of_singleton]%elem_of_app & Hr & Hid & Hcur & ->)]; [left; apply Hsame; by left| |].
    + left. apply Hsame. right. by exists x, r.
    + subst x. right. assert (r = rule) as -> by (by apply (rule_by_id t1)). by rewrite Hface.
  - intros [[Hs0|(x & r & Hx & Hr & Hid & Hcur & ->)]%Hsame| ->]; [by left|right..].
    + exists x, r. split; [apply elem_of_app; by left|done].
    + exists last, rule. split; [apply elem_of_app; right; by apply list_elem_of_singleton|]. rewrite Hface. by split_and!.
Qed.

(** The binding of the new rule is as its statute says. *)
Lemma new_binding_says t t' p rule body new b :
  policies_wf t -> (forall q, q ∈ rules_table t -> rr_id q <> rr_id rule) ->
  new ∈ policies_table t' -> pr_current new = true -> b ∈ rule_bindings_table t' -> rbr_policy b = pr_id new ->
  rule ∈ rules_table t' -> rbr_rule b = rr_id rule -> rr_current rule = true ->
  (forall st, current_book t' st <-> current_book t st \/
    st = {| st_policy := face (pr_row p); st_rule := rr_row rule; st_enabled := default true (cr_enabled body);
            st_order := place_of p t body |}) ->
  rb_enabled (rbr_row b) = default true (cr_enabled body) /\ rb_order_index (rbr_row b) = place_of p t body.
Proof using Type.
  intros Hwf Hfresh Hin Hcur Hb Hbp Hr Hbr Hrc Hbook.
  destruct (proj1 (Hbook (statute_of (pr_row new) (rbr_row b) (rr_row rule)))) as [(q & c & r & _ & _ & _ & _ & Hrt & _ & _ & Heq)|Heq].
  - exists new, b, rule. by split_and!.
  - destruct (Hfresh r Hrt). exact (f_equal (fun s => r_id (st_rule s)) (eq_sym Heq)).
  - split; [exact (f_equal st_enabled Heq)|exact (f_equal st_order Heq)].
Qed.

Lemma create_rule_refines c body n t v n' t' :
  returns (create_rule_route c body) (n, t) (inl v) (n', t') -> policies_inv n t ->
  policies_inv n' t' /\
  exists p, about c (create_rule body) t = Some (p, None) /\
    (pr_current p = true -> answered p None t (create_rule body) (Some v) /\
     forall s, current_book t' s <-> amended p None (place_of p t) (create_rule body) (Some v) (current_book t) s).
Proof using clock_bounded.
  intros (p & new & b & Hab & Hp & Ht & Hf & -> & Hb & Hbp & Hbr & Hnext)%create_rule_run [Hwf Hs]. cbn zeta in *.
  set (rule := new_rule _ _ _ _ _) in *. set (t1 := set_rules _ t) in *. cbn [snd] in *.
  assert (Hfresh : forall q, q ∈ rules_table t -> rr_id q <> rr_id rule).
  { rewrite existsb_none in Hf. intros q Hq Hid. specialize (Hf q Hq). unfold rule_conflict in Hf. by rewrite Hid, String.eqb_refl in Hf. }
  assert (Hwf1 : policies_wf t1) by (by apply wf_add_rule).
  assert (Hinv1 : policies_inv (S (S (S (S n)))) t1).
  { split; [done|]. intros at_ Hat. apply settled_add_rule; [apply Hat; lia|done|]. apply Hs. eapply past_le; [|exact Hat]. lia. }
  set (bs := map clone_of _) in *.
  assert (Hbs : forall x, x ∈ bs -> bc_rule_id x <> rr_id rule).
  { intros x (y & -> & [Hy _]%own_bindings)%list_elem_of_fmap; [|exact Hwf|exact Hp]. destruct (pw_rule t Hwf y Hy) as (q & Hq & Hid & _).
    cbn. rewrite <- Hid. by apply Hfresh. }
  assert (Hrule : rule ∈ rules_table t1) by (apply elem_of_app; right; by apply list_elem_of_singleton).
  destruct (clones_own t1 p bs Hwf1 Hp) as [Hrules Hsingle]; [intros; by eapply (copies_own _ _ clone_of)|].
  apply createNext_inv_kept in Hnext as (Hinv' & Hnew & Hin & Hrt & Hbook); [|cbn; lia|done..| |].
  - split; [done|]. exists p. split; [exact Hab|]. intros Hc. cbn [amended answered rw_order_index rw_enabled rw_rule bound_view].
    assert (Hadded := fun s => added_rule_book t t' p rule new body s Hwf Hp Hc ltac:(by rewrite Hnew) Hfresh eq_refl Hwf1 (Hbook Hc)).
    split; [|exact Hadded]. split; [by split|]. split; [by split|].
    apply (new_binding_says t t' p rule body new b); try done; [by rewrite Hnew|cbn [snd] in Hrt; by rewrite Hrt].
  - intros x [Hx|Hx%list_elem_of_singleton]%elem_of_app; [by apply Hrules|]. subst x. exists rule. split; [done|by rewrite Ht].
  - intros x y q [Hx|Hx%list_elem_of_singleton]%elem_of_app Hy Hq Hid Hyr; [by apply (Hsingle x y q)|]. subst x.
    destruct (pw_rule t Hwf y Hy) as (r & Hr & Hrid & _). destruct (Hfresh r Hr). rewrite Hrid, Hyr. done.
Qed.

(** The rule a route on rules is about. *)
Lemma about_rule_some c req t ruleId r b p :
  (match req with patch_rule _ | delete_rule => True | _ => False end) -> au_param c "rule_id" = Some ruleId ->
  getRuleForTenant ruleId (au_tenantId c) t = Some (r, Some b) -> loadPolicyForTenant (rbr_policy b) (au_tenantId c) t = Some p ->
  about c req t = Some (p, Some r).
Proof using Type. intros Hreq Hpar Hget Hload. destruct req; try done; cbn; unfold about_rule; by rewrite Hpar; cbn; rewrite Hget; cbn; rewrite Hload. Qed.

Lemma own_rule_spec t r q :
  policies_wf t -> r ∈ rules_table t -> q ∈ rules_table t -> own_rule_record (rr_id r) (rr_tenant_id r) q = true <-> rr_id q = rr_id r.
Proof using Type.
  intros Hwf Hr Hq. unfold own_rule_record. rewrite andb_true_iff, !String.eqb_eq. split; [by intros [? _]|]. intros Hid. split; [done|].
  by rewrite (rule_by_id t Hwf q r).
Qed.

Lemma delete_rule_refines c n t v n' t' :
  returns (delete_rule_route c) (n, t) (inl v) (n', t') -> policies_inv n t ->
  policies_inv n' t' /\
  forall p r, about c delete_rule t = Some (p, Some r) -> pr_current p = true -> rr_current r = true ->
    forall s, current_book t' s <-> amended p (Some r) (place_of p t) delete_rule None (current_book t) s.
Proof using clock_bounded.
  intros Hr Hinv. apply check_inv in Hr as (ruleId & Hpar%uuid_param_inv & Hr). apply check_inv in Hr as (u & _ & Hr). cbn zeta in Hr.
  apply returns_bind in Hr as (row & s1 & Hg & Hr). apply returns_gets in Hg as [-> ->]. cbn [fst snd] in Hr.
  destruct (getRuleForTenant _ _ t) as [[r b]|] eqn:Eg; [|by apply returns_ret in Hr as [? _]].
  apply getRule_some in Eg as Hg. destruct Hg as (Hrt & Hid & Hten & Hbr).
  apply returns_bind in Hr as (o & s1 & Htx & Hr). apply (proj1 (returns_transaction _ _ _ _)) in Htx. apply returns_ret in Hr as [_ <-].
  apply returns_bind in Htx as (now & s2 & Hn & Htx). apply returns_now in Hn as [-> ->].
  apply returns_bind in Htx as (w & s2 & Hn & Htx). apply update_checked_inv in Hn as [_ ->]. cbn [fst snd] in *.
  set (t1 := set_rules _ t) in *. destruct Hinv as [Hwf Hs].
  assert (Hinv1 : policies_inv (S n) t1).
  { split; [by apply wf_end_rule|]. intros at_ Hat. refine (settled_end_rule at_ t _ _ _ _ (or_introl eq_refl) _); [apply Hat; lia|].
    apply Hs. eapply past_le; [|exact Hat]. lia. }
  destruct b as [b|]; [|apply returns_ret in Htx as [_ [= -> ->]]; split; [done|]; cbn; unfold about_rule; rewrite Hpar; cbn; by rewrite Eg].
  apply returns_bind in Htx as (op & s2 & Hg & Htx). apply returns_gets in Hg as [-> ->]. cbn [fst snd] in *.
  change (loadPolicyForTenant (rbr_policy b) (au_tenantId c) t1) with (loadPolicyForTenant (rbr_policy b) (au_tenantId c) t) in Htx.
  destruct (loadPolicyForTenant (rbr_policy b) _ t) as [p|] eqn:Ep.
  2:{ apply returns_ret in Htx as [_ [= -> ->]]; split; [done|]; cbn; unfold about_rule; rewrite Hpar; cbn; rewrite Eg; cbn. by rewrite Ep. }
  apply loadPolicy_some in Ep as Hp. destruct Hp as (Hp & Hpid & Hpt).
  apply returns_bind in Htx as (bs & s3 & Hg & Htx). apply returns_gets in Hg as [-> ->]. cbn [fst snd] in *.
  apply returns_bind in Htx as (new & s3 & Hnext & Htx). apply returns_ret in Htx as [_ <-]. rewrite <- Hpt in Hnext.
  set (bs := map clone_of _) in Hnext.
  assert (Hbs : forall x, x ∈ bs <-> exists b, b ∈ loadPolicyRuleBindingsForClone (pr_id p) (pr_tenant p) t /\ rbr_rule b <> ruleId /\ x = clone_of b).
  { intros x. unfold bs. rewrite list_elem_of_fmap. setoid_rewrite elem_of_filter_b. setoid_rewrite negb_true_iff.
    setoid_rewrite String.eqb_neq. rewrite Hid. naive_solver. }
  destruct (clones_own t1 p bs (proj1 Hinv1) Hp) as [Hrules Hsingle].
  { intros x (y & Hy & _ & ->)%Hbs. apply own_bindings in Hy as [Hy Hyp]; [|done..]. by exists y. }
  apply createNext_inv_kept in Hnext as (Hinv' & Hnew & Hin & Hrt' & Hbook); [|cbn; lia|done..].
  split; [done|]. intros p' r' Hab Hc Hrc. rewrite (about_rule_some c delete_rule t ruleId r b p I Hpar Eg Ep) in Hab.
  injection Hab as <- <-. intros s. cbn [fst snd] in Hbook. rewrite (Hbook Hc). cbn [amended]. rewrite Hid.
  rewrite <- (other_statutes t t1 Hwf ruleId p Hp Hc new ltac:(by rewrite Hnew) eq_refl eq_refl (fun _ => True)); [|done|].
  - apply Morphisms_Prop.or_iff_morphism; [done|]. setoid_rewrite Hbs. naive_solver.
  - intros q _. cbn. unfold t1. cbn. rewrite elem_of_update_where. split.
    + intros [(q0 & Hq0 & ->) Hq]. destruct (own_rule_record ruleId (au_tenantId c) q0) eqn:E.
      { apply infinite_spec in Hq. cbn in Hq. pose proof (clock_bounded n). lia. }
      split; [done|]. split; [done|]. intros Hq0id. rewrite <- Hid, <- Hten in E. apply not_true_iff_false in E. apply E.
      apply (own_rule_spec t r q0 Hwf Hrt Hq0). congruence.
    + intros (Hq & Hqc & Hne). split; [|done]. exists q. split; [done|]. unfold own_rule_record. by rewrite (proj2 (String.eqb_neq _ _) Hne).
Qed.

Lemma patched_other ruleId id body b : rbr_rule b <> ruleId -> patched_clone ruleId id body b = clone_of b.
Proof using Type. intros Hne. unfold patched_clone. by rewrite (proj2 (String.eqb_neq _ _) Hne). Qed.

(** The book with a rule of a policy replaced. *)
Lemma patched_rule_book t t1 p r newRule body new st :
  policies_wf t -> p ∈ policies_table t -> pr_current p = true -> r ∈ rules_table t -> rr_current r = true ->
  face (pr_row new) = face (pr_row p) -> rr_current newRule = true ->
  (forall q, q ∈ rules_table t -> rr_id q <> rr_id newRule) ->
  (exists b, b ∈ rule_bindings_table t /\ rbr_policy b = pr_id p /\ rbr_rule b = rr_id r) ->
  policies_table t1 = policies_table t -> rule_bindings_table t1 = rule_bindings_table t ->
  (forall q, q ∈ rules_table t1 /\ rr_current q = true <->
     q = newRule \/ q ∈ rules_table t /\ rr_current q = true /\ rr_id q <> rr_id r) ->
  current_book t1 st /\ pf_key (st_policy st) <> pr_key p \/
  (exists c q, c ∈ map (patched_clone (rr_id r) (rr_id newRule) body) (loadPolicyRuleBindingsForClone (pr_id p) (pr_tenant p) t) /\
     q ∈ rules_table t1 /\ rr_id q = bc_rule_id c /\ rr_current q = true /\
     st = {| st_policy := face (pr_row new); st_rule := rr_row q; st_enabled := bc_enabled c; st_order := bc_order_index c |}) <->
  replaced (fun s => r_id (st_rule s) = rr_id r) (with_rule (rr_row newRule) (pb_enabled body)) (current_book t) st.
Proof using Type.
  intros Hwf Hp Hc Hr Hrc Hface Hnc Hfresh (b0 & Hb0 & Hbp0 & Hbr0) Hpol Hbin Hrules.
  assert (Hbound : forall b, b ∈ rule_bindings_table t -> rbr_rule b <> rr_id newRule).
  { intros b Hb Hid. destruct (pw_rule t Hwf b Hb) as (q & Hq & Hqid & _). apply (Hfresh q Hq). congruence. }
  assert (Hothers := other_statutes t t1 Hwf (rr_id r) p Hp Hc new Hface Hpol Hbin (fun q => rr_id q <> rr_id newRule)).
  specialize (Hothers ltac:(intros b Hb q Hq; cbn; rewrite Hq; by apply Hbound)). specialize (Hothers ltac:(intros q Hq; rewrite Hrules; naive_solver) st).
  unfold replaced. split.
  - intros [Hs|(c & q & (b & -> & Hb)%list_elem_of_fmap & Hq & Hqc & Hcur & ->)].
    + destruct (proj1 Hothers (or_introl Hs)) as [Ho Hne]. exists st. split; [done|]. by rewrite decide_False.
    + destruct (decide (rbr_rule b = rr_id r)) as [He|Hne].
      * assert (q = newRule) as ->.
        { cbn in Hqc. rewrite He, String.eqb_refl in Hqc. destruct (proj1 (Hrules q) (conj Hq Hcur)) as [->|(Hq0 & _)]; [done|].
          by destruct (Hfresh q Hq0). }
        apply own_bindings in Hb as [Hb Hbp]; [|done..]. exists (statute_of (pr_row p) (rbr_row b) (rr_row r)).
        split; [by exists p, b, r|]. rewrite decide_True by done. unfold with_rule, patched_clone. cbn. by rewrite He, String.eqb_refl, Hface.
      * rewrite patched_other in * by done. destruct (proj1 Hothers) as [Ho Hid]; [right; exists b, q; done|].
        eexists. split; [exact Ho|]. by rewrite decide_False.
  - intros (s0 & Hs0 & ->). destruct (decide _) as [Hid|Hne].
    + destruct Hs0 as (q & b & r0 & Hq & Hqc & Hb & Hbq & Hr0 & Hrb & Hrc0 & ->). cbn in Hid.
      assert (r0 = r) as -> by (by apply (rule_by_id t)).
      assert (q = p) as -> by (apply (policy_by_key t); try done; apply (pw_one_policy t Hwf b b0); congruence || done).
      right. exists (patched_clone (rr_id r) (rr_id newRule) body b), newRule. split.
      { apply list_elem_of_fmap_2. by apply own_bindings. }
      destruct (proj2 (Hrules newRule) (or_introl eq_refl)) as [Hn _]. unfold patched_clone. rewrite <- Hrb, String.eqb_refl. cbn.
      split_and!; try done. unfold with_rule. cbn. by rewrite Hface.
    + destruct (proj2 Hothers (conj Hs0 Hne)) as [Hl|(b & q & Hb & Hbne & Hq & Hqb & Hqc & Heq)]; [by left|right].
      exists (clone_of b), q. split; [|done]. rewrite <- (patched_other (rr_id r) (rr_id newRule) body b Hbne). by apply list_elem_of_fmap_2.
Qed.

(** The tables with the next version of a rule, before its policy's. *)
Definition with_next_rule (ruleId tenantId : string) (now : timestamp) (new : rule_record) (t : policy_tables) : policy_tables :=
  set_rules (update_where (own_rule_record ruleId tenantId) (fun q => supersede_rule (rr_id new) (end_rule now q)) (rules_table t) ++ [new]) t.

Lemma next_rule_inv n t r now new :
  policies_inv n t -> (exists m, (m < n)%nat /\ now = clock m) -> r ∈ rules_table t ->
  r_effective_from (rr_row new) = now -> rr_current new = true -> rr_tenant_id new = rr_tenant_id r ->
  existsb (rule_conflict new) (update_where (own_rule_record (rr_id r) (rr_tenant_id r)) (end_rule now) (rules_table t)) = false ->
  let t1 := with_next_rule (rr_id r) (rr_tenant_id r) now new t in
  policies_inv n t1 /\ (forall q, q ∈ rules_table t -> rr_id q <> rr_id new) /\
  forall q, q ∈ rules_table t1 /\ rr_current q = true <->
     q = new \/ q ∈ rules_table t /\ rr_current q = true /\ rr_id q <> rr_id r.
Proof using clock_bounded.
  intros [Hwf Hs] (m & Hm & ->) Hr Hfrom Hto Hten Hc. cbn zeta. split; [split|split].
  - by apply wf_next_rule.
  - intros at_ Hat. assert (Hle : clock m <= at_) by (by apply Hat).
    apply (settled_add_rule at_ (set_rules _ t) new); [by rewrite Hfrom|done|].
    apply (settled_end_rule at_ t _ (clock m)); [done| |by apply Hs]. right. by exists (rr_id new).
  - intros q Hq Hid. rewrite existsb_none in Hc. set (own := own_rule_record _ _) in Hc.
    specialize (Hc (if own q then end_rule (clock m) q else q)). unfold rule_conflict in Hc.
    assert (He : rr_id (if own q then end_rule (clock m) q else q) = rr_id new) by (by destruct (own q)).
    rewrite He, String.eqb_refl in Hc. discriminate Hc. apply elem_of_update_where. by exists q.
  - intros q. unfold with_next_rule. cbn. rewrite elem_of_app, list_elem_of_singleton, elem_of_update_where. split.
    + intros [[(q0 & Hq0 & ->)| ->] Hq]; [|by left]. right. destruct (own_rule_record _ _ q0) eqn:E.
      { apply infinite_spec in Hq. cbn in Hq. pose proof (clock_bounded m). lia. }
      split; [done|]. split; [done|]. intros Hid. apply not_true_iff_false in E. apply E. by apply (own_rule_spec t r q0).
    + intros [->|(Hq & Hqc & Hne)]; [split; [by right|done]|]. split; [|done]. left. exists q. split; [done|].
      unfold own_rule_record. by rewrite (proj2 (String.eqb_neq _ _) Hne).
Qed.

(** The rules that copies with a changed rule bind. *)
Lemma patched_rules t t1 p r newRule body :
  policies_wf t -> policies_wf t1 -> p ∈ policies_table t -> policies_table t1 = policies_table t -> rule_bindings_table t1 = rule_bindings_table t ->
  newRule ∈ rules_table t1 -> rr_tenant_id newRule = pr_tenant p -> (forall q, q ∈ rules_table t -> rr_id q <> rr_id newRule) ->
  let bs := map (patched_clone (rr_id r) (rr_id newRule) body) (loadPolicyRuleBindingsForClone (pr_id p) (pr_tenant p) t) in
  (forall c, c ∈ bs -> exists q, q ∈ rules_table t1 /\ rr_id q = bc_rule_id c /\ rr_tenant_id q = pr_tenant p) /\
  (forall c b q, c ∈ bs -> b ∈ rule_bindings_table t1 -> q ∈ policies_table t1 -> pr_id q = rbr_policy b ->
     rbr_rule b = bc_rule_id c -> pr_key q = pr_key p).
Proof using Type.
  intros Hwf Hwf1 Hp Hpol Hbin Hnew Hten Hfresh. cbn zeta.
  assert (Hcases : forall c, c ∈ map (patched_clone (rr_id r) (rr_id newRule) body) (loadPolicyRuleBindingsForClone (pr_id p) (pr_tenant p) t) ->
    bc_rule_id c = rr_id newRule \/ exists b, b ∈ rule_bindings_table t1 /\ rbr_policy b = pr_id p /\ bc_rule_id c = rbr_rule b).
  { intros c (b & -> & [Hb Hbp]%own_bindings)%list_elem_of_fmap; [|done..]. unfold patched_clone. cbn.
    destruct (String.eqb_spec (rbr_rule b) (rr_id r)); [by left|right]. exists b. by rewrite Hbin. }
  split.
  - intros c [Hid|(b & Hb & Hbp & ->)]%Hcases; [by exists newRule|].
    destruct (pw_rule t1 Hwf1 b Hb) as (q & Hq & Hqid & Hqt). exists q. split; [done|]. split; [done|]. rewrite Hqt.
    destruct (pw_policy t1 Hwf1 b Hb) as (p1 & Hp1 & Hid1 & <-). rewrite Hpol in Hp1. f_equal. apply (policy_by_id t); congruence || done.
  - intros c b q [Hid|(b0 & Hb0 & Hbp & Hcb)]%Hcases Hb Hq Hqid Hrule.
    + exfalso. rewrite Hbin in Hb. destruct (pw_rule t Hwf b Hb) as (x & Hx & Hxid & _). apply (Hfresh x Hx). congruence.
    + apply (pw_one_policy t1 Hwf1 b b0); congruence || done.
Qed.

(** The run of a successful change of a rule. *)
Lemma patch_rule_run c body n t v s' :
  returns (patch_rule_route c body) (n, t) (inl v) s' ->
  exists ruleId r b p new, au_param c "rule_id" = Some ruleId /\ getRuleForTenant ruleId (au_tenantId c) t = Some (r, Some b) /\
    loadPolicyForTenant (rbr_policy b) (au_tenantId c) t = Some p /\
    let newRule := next_rule r (clock n) body (uuid (S n)) in
    let own := own_rule_record ruleId (au_tenantId c) in
    let t1 := set_rules (update_where own (supersede_rule (uuid (S n))) (update_where own (end_rule (clock n)) (rules_table t) ++ [newRule])) t in
    existsb (rule_conflict newRule) (update_where own (end_rule (clock n)) (rules_table t)) = false /\ rw_rule v = newRule /\
    (forall enabled, pb_enabled body = Some enabled -> rw_enabled v = enabled) /\
    returns (createNextPolicyVersion p (au_tenantId c) (clock n)
      (map (patched_clone (rr_id r) (uuid (S n)) body) (loadPolicyRuleBindingsForClone (pr_id p) (au_tenantId c) t1)) no_patch)
      (S (S n), t1) new s'.
Proof using Type.
  intros Hr. apply check_inv in Hr as (ruleId & Hpar%uuid_param_inv & Hr). apply check_inv in Hr as (u & _ & Hr). cbn zeta in Hr.
  apply returns_bind in Hr as (row & s1 & Hg & Hr). apply returns_gets in Hg as [-> ->]. cbn [fst snd] in Hr.
  destruct (getRuleForTenant _ _ t) as [[r b]|] eqn:Eg; [|by apply returns_ret in Hr as [? _]].
  apply returns_bind in Hr as (pid & s1 & Hu & Hr). unfold uuid_param in Hu.
  destruct b as [b|]; [|by apply returns_throw in Hu]. cbn [from_option] in *. destruct (nonempty _); [|by apply returns_throw in Hu].
  apply returns_ret in Hu as [-> ->]. apply returns_bind in Hr as (op & s1 & Hg & Hr). apply returns_gets in Hg as [-> ->]. cbn [fst snd] in *.
  run_if Ea; [by apply returns_ret in Hr as [? _]|].
  apply returns_bind in Hr as (v' & s1 & Htx & Hr). apply (proj1 (returns_transaction _ _ _ _)) in Htx. apply returns_ret in Hr as [[= <-] ->].
  apply returns_bind in Htx as (now & s2 & Hn & Htx). apply returns_now in Hn as [-> ->].
  apply returns_bind in Htx as (w & s2 & Hn & Htx). apply update_checked_inv in Hn as [_ ->]. cbn [fst snd] in *.
  apply returns_bind in Htx as (id & s2 & Hn & Htx). apply returns_fresh in Hn as [-> ->]. cbn [fst snd] in *. cbn zeta in Htx.
  apply returns_bind in Htx as (w1 & s2 & Hn & Htx). apply insert_unique_inv in Hn as [Hf ->]. cbn [fst snd] in *.
  apply returns_bind in Htx as (w2 & s2 & Hn & Htx). apply update_checked_inv in Hn as [_ ->]. cbn [fst snd] in *.
  apply returns_bind in Htx as (op & s2 & Hg & Htx). apply returns_gets in Hg as [-> ->]. cbn [fst snd] in *.
  match type of Htx with context [loadPolicyForTenant ?a ?b ?t1] =>
    change (loadPolicyForTenant a b t1) with (loadPolicyForTenant a b t) in Htx end.
  destruct (loadPolicyForTenant (rbr_policy b) _ t) as [p|] eqn:Ep; [|by apply returns_throw in Htx].
  apply returns_bind in Htx as (bs & s3 & Hg & Htx). apply returns_gets in Hg as [-> ->]. cbn [fst snd] in *.
  apply returns_bind in Htx as (new & s3 & Hnext & Htx). apply returns_bind in Htx as (nb & s4 & Hg & Htx).
  apply returns_gets in Hg as [_ ->]. apply returns_ret in Htx as [-> <-].
  exists ruleId, r, b, p, new. cbn zeta. cbn. split_and!; try done. by intros e ->.
Qed.

Lemma patch_rule_refines c body n t v n' t' :
  returns (patch_rule_route c body) (n, t) (inl v) (n', t') -> policies_inv n t ->
  policies_inv n' t' /\
  exists p r, about c (patch_rule body) t = Some (p, Some r) /\
    answered p (Some r) t (patch_rule body) (Some v) /\
    (pr_current p = true -> rr_current r = true ->
     forall s, current_book t' s <-> amended p (Some r) (place_of p t) (patch_rule body) (Some v) (current_book t) s).
Proof using clock_bounded.
  intros (ruleId & r & b & p & new & Hpar & Eg & Ep & Hf & Hv & He & Hnext)%patch_rule_run Hinv. cbn zeta in *.
  set (newRule := next_rule _ _ _ _) in *. set (t1 := set_rules _ _) in Hnext.
  apply getRule_some in Eg as Hg. destruct Hg as (Hrt & Hid & Hten & Hbr). destruct (Hbr b eq_refl) as [Hb Hbrule].
  apply loadPolicy_some in Ep as Hp. destruct Hp as (Hp & Hpid & Hpt). rewrite <- Hpt in Hnext.
  rewrite <- Hid, <- Hten in Hf.
  assert (Ht1 : t1 = with_next_rule (rr_id r) (rr_tenant_id r) (clock n) newRule t).
  { unfold t1, with_next_rule, set_rules. cbn. rewrite Hid, Hten. f_equal. apply update_where_compose; [done|].
    apply not_true_iff_false. intros Ho. unfold own_rule_record in Ho. apply andb_true_iff in Ho as [Ho%String.eqb_eq _].
    rewrite existsb_none in Hf. assert (Hin : end_rule (clock n) r ∈ update_where (own_rule_record (rr_id r) (rr_tenant_id r)) (end_rule (clock n)) (rules_table t)).
    { apply elem_of_update_where. exists r. unfold own_rule_record. by rewrite !String.eqb_refl. }
    specialize (Hf _ Hin). unfold rule_conflict in Hf. apply orb_false_iff in Hf as [Hf%String.eqb_neq _]. apply Hf. rewrite Ho. exact Hid. }
  destruct (next_rule_inv (S n) t r (clock n) newRule) as (Hinv1 & Hfresh & Hcases); try done.
  { by apply (inv_monotone n); [lia|]. }
  { exists n. split; [lia|done]. }
  rewrite <- Ht1 in Hinv1, Hcases.
  destruct (patched_rules t t1 p r newRule body) as [Hrules Hsingle]; try done; [apply Hinv|apply Hinv1|by apply Hcases; left|by rewrite Hpt, <- Hten|].
  change (rr_id newRule) with (uuid (S n)) in Hrules, Hsingle.
  apply createNext_inv_kept in Hnext as (Hinv' & Hnew & Hin & Hrt' & Hbook); [|cbn; lia|by apply (inv_monotone (S n)); [cbn; lia|]|done..].
  split; [done|]. exists p, r. split; [by apply (about_rule_some c (patch_rule body) t ruleId r b p I Hpar Eg Ep)|].
  split.
  { cbn [answered]. rewrite Hv. split; [by split|]. split; [|done]. split; [|done]. by rewrite Hpt, <- Hten. }
  intros Hc Hrc s. cbn [fst snd] in Hbook. rewrite (Hbook Hc). cbn [amended]. rewrite Hv.
  apply (patched_rule_book t t1 p r newRule body new); try done; [apply Hinv|by rewrite Hnew|]. exists b. split; [done|]. by rewrite Hpid, Hid.
Qed.
End spec.
