(* ===== verification/PolicySpec.v ===== *)
(** * What policy management guarantees

    Requests amend the book of statutes and nothing else; they keep what the theorems
    on the effective policy assume; one that is refused or fails changes nothing.
    Some requests that should succeed cannot. *)

From S2P Require Import Prelude JsString JsValue Jsonb Sql Effects Constants Tenancy Rbac AccessCorrect Effective Policies PolicyCorrect PolicyRefine.
Local Open Scope string_scope.
Local Open Scope list_scope.
Local Open Scope Z_scope.

(** ** Refused and failing requests *)

(** Whatever does not end with a success leaves the tables as they were. *)
Definition atomic {S A} (e : M S (HttpResult A)) : Prop :=
  forall n s, (n <= (e (n, s)).2.1)%nat /\ match (e (n, s)).1 with Ok (inl _) => True | _ => (e (n, s)).2.2 = s end.

Section atomic.
Context {S : Type}.

Lemma atomic_ret {A} (r : HttpResult A) : @atomic S A (mret r).
Proof. intros n s. cbn. by destruct r. Qed.

Lemma atomic_throw {A} m : @atomic S A (throw m).
Proof. by intros n s. Qed.

Lemma atomic_check {A B} (r : HttpResult A) (k : A -> M S (HttpResult B)) :
  (forall a, atomic (k a)) -> atomic (http_bind (mret r) k).
Proof. intros Hk n s. unfold http_bind, mbind, eff_bind, mret, eff_ret. destruct r as [a|e]; [apply Hk|]. by cbn. Qed.

Lemma atomic_pure {A B} (e : M S A) (k : A -> M S (HttpResult B)) :
  (forall n s, exists r, e (n, s) = (r, (n, s))) -> (forall a, atomic (k a)) -> atomic (e ≫= k).
Proof.
  intros He Hk n s. unfold mbind, eff_bind. destruct (He n s) as ([a|m] & ->); [apply Hk|]. by cbn.
Qed.

Lemma atomic_gets {A B} (f : S -> A) (k : A -> M S (HttpResult B)) : (forall a, atomic (k a)) -> atomic (gets f ≫= k).
Proof. intros Hk n s. unfold mbind, eff_bind, gets. cbn [fst snd]. apply Hk. Qed.

Lemma atomic_reading {A B} (e : M S A) (k : A -> M S (HttpResult B)) :
  (forall n s, exists r, e (n, s) = (r, (Datatypes.S n, s))) -> (forall a, atomic (k a)) -> atomic (e ≫= k).
Proof.
  intros He Hk n s. unfold mbind, eff_bind. destruct (He n s) as ([a|m] & ->); [|cbn; split; [lia|done]].
  destruct (Hk a (Datatypes.S n) s) as [Hn Hr]. split; [lia|done].
Qed.

(** A single write: it happens, or it fails and changes nothing. *)
Lemma atomic_write {A B} (e : M S A) (k : A -> M S (HttpResult B)) :
  ticks e -> (forall n s m s', e (n, s) = (Throw m, s') -> s'.2 = s) ->
  (forall a s, exists b, k a s = (Ok (inl b), s)) -> atomic (e ≫= k).
Proof.
  intros Ht He Hk n s. apply ticks_spec with (n := n) (s := s) in Ht. unfold mbind, eff_bind.
  destruct (e (n, s)) as [[a|m] s'] eqn:E; cbn in Ht.
  - destruct (Hk a s') as [b ->]. by cbn.
  - cbn. split; [done|]. by apply (He n s m s').
Qed.

Lemma atomic_transaction {A B} (e : M S A) (k : A -> M S (HttpResult B)) :
  ticks e -> (forall a s, exists b, k a s = (Ok (inl b), s)) -> atomic (transaction e ≫= k).
Proof.
  intros Ht Hk. apply atomic_write; [by apply ticks_transaction| |done]. intros n s m s' Htx. unfold transaction in Htx.
  destruct (e (n, s)) as [[a|m'] s1]; [done|]. by injection Htx as _ <-.
Qed.

Lemma atomic_map {A B} (e : M S (HttpResult A)) (f : A -> B) : atomic e -> atomic (let? a := e in mret (okResult (f a))).
Proof.
  intros He n s. specialize (He n s). unfold http_bind, mbind, eff_bind.
  destruct (e (n, s)) as [[[a|err]|m] s']; cbn in *; naive_solver.
Qed.
End atomic.

Ltac atomic_step :=
  match goal with
  | |- atomic (mret _) => apply atomic_ret
  | |- atomic (throw _) => apply atomic_throw
  | |- atomic (http_bind (mret _) _) => apply atomic_check; intros ?
  | |- atomic (gets _ ≫= _) => apply atomic_gets; intros ?
  | |- atomic (now_ ≫= _) => apply atomic_reading; [by eexists|intros ?]
  | |- atomic (fresh ≫= _) => apply atomic_reading; [by eexists|intros ?]
  | |- atomic (if ?b then _ else _) => destruct b
  | |- atomic (match ?x with _ => _ end) => destruct x
  end.

Section spec.
Context `{Env} `{SqlOrder} `{Formats}.

Lemma update_checked_fails {R} (get : policy_tables -> list R) put valid p f n (s : policy_tables) m s' :
  update_checked get put valid p f (n, s) = (Throw m, s') -> s'.2 = s.
Proof using Type.
  unfold update_checked, mbind, eff_bind, gets. cbn [fst snd]. destruct (forallb _ _); [done|]. by intros [= _ <-].
Qed.

Lemma serve_atomic c req : atomic (serve c req).
Proof using Type.
  destruct req as [body| |body|order|body|]; cbn [serve]; apply atomic_map.
  - unfold patch_policy_route, policy_route. repeat atomic_step. apply atomic_transaction; [|by eexists].
    ticks_walk. apply createNext_ticks.
  - unfold delete_policy_route, policy_route. repeat atomic_step. apply atomic_transaction; [|by eexists].
    unfold update_policies, update_project_bindings, update_checked. ticks_walk.
  - unfold create_rule_route, policy_route. repeat atomic_step. apply atomic_transaction; [|by eexists].
    unfold insert_rule, insert_unique. ticks_walk; apply createNext_ticks.
  - unfold reorder_rules_route, policy_route. repeat atomic_step. apply atomic_transaction; [|by eexists].
    ticks_walk. apply createNext_ticks.
  - unfold patch_rule_route. repeat atomic_step. apply atomic_pure; [|intros ?].
    { unfold uuid_param. intros n s. destruct (nonempty _); by eexists. }
    repeat atomic_step. apply atomic_transaction; [|by eexists].
    unfold update_rules, update_checked, insert_rule, insert_unique. ticks_walk; apply createNext_ticks.
  - unfold delete_rule_route. repeat atomic_step. apply atomic_transaction; [|by eexists].
    unfold update_rules, update_checked. ticks_walk; apply createNext_ticks.
Qed.

Lemma patch_binding_atomic c body : atomic (patch_binding_route c body).
Proof using Type.
  unfold patch_binding_route, binding_route. repeat atomic_step. apply atomic_transaction; [|by eexists].
  unfold insert_project_binding, insert_unique, update_project_bindings, update_checked. ticks_walk.
Qed.

Lemma delete_binding_atomic c : atomic (delete_binding_route c).
Proof using Type.
  unfold delete_binding_route, binding_route. repeat atomic_step. apply atomic_write; [unfold update_project_bindings, update_checked; ticks_walk| |by eexists].
  intros n s m s'. apply update_checked_fails.
Qed.

(** An operation that keeps the invariant when it succeeds, and changes nothing otherwise. *)
Lemma keeps_atomic {A} (I : nat -> policy_tables -> Prop) (e : PM (HttpResult A)) :
  monotone I -> atomic e -> (forall n t a n' t', returns e (n, t) (inl a) (n', t') -> I n t -> I n' t') -> keeps I e.
Proof using Type.
  intros Hm Ha He n t Hi. specialize (Ha n t). specialize (He n t). unfold returns in He.
  destruct (e (n, t)) as [[[a|err]|m] [n' t']] eqn:E; cbn in Ha; destruct Ha as [Hn Ha]; (split; [done|]).
  - by eapply He.
  - rewrite Ha. by apply (Hm n).
  - rewrite Ha. by apply (Hm n).
Qed.

Context (clock_bounded : forall m, clock m < VALID_TO_INFINITY).

Lemma serve_refines c req n t answer n' t' :
  returns (serve c req) (n, t) (inl answer) (n', t') -> policies_inv n t ->
  policies_inv n' t' /\
  forall p o, about c req t = Some (p, o) -> pr_current p = true -> (forall r, o = Some r -> rr_current r = true) ->
    answered p o t req answer /\ forall s, current_book t' s <-> amended p o (place_of p t) req answer (current_book t) s.
Proof using clock_bounded.
  intros Hr Hinv.
  destruct req as [body| |body|order|body|]; cbn [serve] in Hr; apply http_bind_inl in Hr as (v & s1 & Hr & Ha); apply returns_ret in Ha as [[= ->] <-].
  - apply (patch_policy_refines clock_bounded) in Hr as (Hi & p & Hab & Hb); [|done]. split; [done|]. intros q o Hq Hc _. simplify_eq. split; [done|auto].
  - apply (delete_policy_refines clock_bounded) in Hr as (Hi & p & Hab & Hb); [|done]. split; [done|]. intros q o Hq Hc _. simplify_eq. split; [done|auto].
  - apply (create_rule_refines clock_bounded) in Hr as (Hi & p & Hab & Hb); [|done]. split; [done|]. intros q o Hq Hc _. simplify_eq. specialize (Hb Hc). auto.
  - apply (reorder_rules_refines clock_bounded) in Hr as (Hi & p & Hab & Hb); [|done]. split; [done|]. intros q o Hq Hc _. simplify_eq. split; [done|auto].
  - apply (patch_rule_refines clock_bounded) in Hr as (Hi & p & r & Hab & Hans & Hb); [|done]. split; [done|]. intros q o Hq Hc Ho. simplify_eq. auto.
  - apply (delete_rule_refines clock_bounded) in Hr as (Hi & Hb); [|done]. split; [done|]. intros q o Hq Hc Ho.
    assert (Hso : exists r, o = Some r).
    { cbn in Hq. unfold about_rule in Hq. destruct (au_param c "rule_id"); [|done]. cbn in Hq.
      destruct (getRuleForTenant _ _ _) as [[r b]|]; [|done]. cbn in Hq. destruct b; [|done]. cbn in Hq.
      destruct (loadPolicyForTenant _ _ _); [|done]. cbn in Hq. simplify_eq. by eexists. }
    destruct Hso as [r ->]. split; [done|]. by apply Hb; auto.
Qed.

(** Amendments depend on the book alone. *)
Lemma amended_ext p o place req answer B B' s :
  (forall s, B s <-> B' s) -> amended p o place req answer B s <-> amended p o place req answer B' s.
Proof using Type.
  intros HB. destruct req, o, answer; cbn; unfold replaced; try setoid_rewrite HB; done.
Qed.

(** ** Creation, and bindings *)

Lemma inv_add_policy n t p :
  policies_inv n t -> pr_version p = 1 -> existsb (policy_conflict p) (policies_table t) = false ->
  (exists m, (m < n)%nat /\ p_effective_from (pr_row p) = clock m) -> pr_current p = true ->
  policies_inv n (set_policies (policies_table t ++ [p]) t).
Proof using Type.
  intros [Hwf Hs] Hv Hc (m & Hm & Hfrom) Hto%infinite_spec. rewrite existsb_none in Hc.
  assert (Hkey : forall q, q ∈ policies_table t -> pr_key q <> pr_key p).
  { intros q Hq Hk. destruct (pw_first t Hwf q Hq) as (f & Hf & Hfk & Hfv). specialize (Hc f Hf). unfold policy_conflict in Hc.
    rewrite Hfk, Hk, Hfv, Hv, String.eqb_refl, orb_true_r in Hc. done. }
  assert (Hcases : forall q, q ∈ policies_table t ++ [p] -> q = p \/ q ∈ policies_table t).
  { intros q [Hq|Hq%list_elem_of_singleton]%elem_of_app; [by right|by left]. }
  assert (Hold : forall q, q ∈ policies_table t -> q ∈ policies_table t ++ [p]) by (intros; apply elem_of_app; by left).
  split.
  - split; cbn; try apply Hwf.
    + apply unique_insert; [apply Hwf|by apply existsb_none].
    + intros q [->|Hq]%Hcases; [exists p; split; [apply elem_of_app; right; by apply list_elem_of_singleton|done]|].
      destruct (pw_first t Hwf q Hq) as (f & Hf & Hfk). exists f. split; [by apply Hold|done].
    + intros q r [->|Hq]%Hcases [->|Hr]%Hcases Hk; [done|by destruct (Hkey r Hr)|by destruct (Hkey q Hq)|by apply (pw_tenants t Hwf)].
    + intros b Hb. destruct (pw_policy t Hwf b Hb) as (q & Hq & Hqb). exists q. split; [by apply Hold|done].
    + assert (Hne : forall b, b ∈ rule_bindings_table t -> pr_id p <> rbr_policy b).
      { intros b Hb Hid. destruct (pw_policy t Hwf b Hb) as (q & Hq & Hqb & _). specialize (Hc q Hq). unfold policy_conflict in Hc.
        rewrite Hqb, <- Hid, String.eqb_refl in Hc. done. }
      intros b c q r Hb Hbc [->|Hq]%Hcases [->|Hr]%Hcases Hqb Hrc Hrule; [done|by destruct (Hne b Hb)|by destruct (Hne c Hbc)|].
      by apply (pw_one_policy t Hwf b c).
  - intros at_ Hat. destruct (Hs at_ Hat) as [K1 K2 K3]. split; [|done|done]. cbn. intros q [->|Hq]%Hcases; [|by apply K1].
    rewrite Hfrom, Hto. split; [by apply Hat|by left].
Qed.

Lemma inv_add_binding n t b :
  policies_inv n t -> existsb (project_binding_conflict b) (project_bindings_table t) = false ->
  (exists m, (m < n)%nat /\ b_effective_from (pbr_row b) = clock m) -> pbr_current b = true ->
  policies_inv n (set_project_bindings (project_bindings_table t ++ [b]) t).
Proof using Type.
  intros [Hwf Hs] Hc (m & Hm & Hfrom) Hto%infinite_spec. split.
  - apply wf_set_project_bindings; [done|]. apply unique_insert; [apply Hwf|done].
  - intros at_ Hat. destruct (Hs at_ Hat) as [K1 K2 K3]. split; [done|done|]. cbn.
    intros q [Hq|Hq%list_elem_of_singleton]%elem_of_app; [by apply K3|]. subst q. rewrite Hfrom, Hto. split; [by apply Hat|by left].
Qed.

Lemma create_policy_inv new n t p n' t' :
  (forall id key from, pr_version (new id key from) = 1 /\ p_effective_from (pr_row (new id key from)) = from /\
     pr_current (new id key from) = true) ->
  returns (create_policy new) (n, t) p (n', t') -> policies_inv n t -> policies_inv n' t'.
Proof using Type.
  intros Hnew Hr Hi. apply returns_bind in Hr as (id & s1 & Hn & Hr). apply returns_fresh in Hn as [-> ->].
  apply returns_bind in Hr as (key & s1 & Hn & Hr). apply returns_fresh in Hn as [-> ->].
  apply returns_bind in Hr as (from & s1 & Hn & Hr). apply returns_now in Hn as [-> ->]. cbn zeta in Hr. cbn [fst snd] in *.
  apply returns_bind in Hr as (u & s1 & Hn & Hr). apply insert_unique_inv in Hn as [Hf ->]. apply returns_ret in Hr as [_ [= -> ->]].
  destruct (Hnew (uuid n) (uuid (S n)) (clock (S (S n)))) as (Hv & Hfrom & Hc). cbn [fst snd] in *.
  apply inv_add_policy; try done; [by apply (inv_monotone n); [lia|]|]. exists (S (S n)). split; [lia|done].
Qed.

Lemma create_policy_fails new n t m s' : create_policy new (n, t) = (Throw m, s') -> s'.2 = t.
Proof using Type.
  unfold create_policy, insert_policy, insert_unique, mbind, eff_bind, fresh, now_, gets. cbn [fst snd]. destruct (existsb _ _); [|done].
  by intros [= _ <-].
Qed.

Lemma create_policy_ticks new : ticks (create_policy new).
Proof using Type. unfold create_policy, insert_policy, insert_unique. ticks_walk. Qed.

Lemma keeps_create_policy new :
  (forall id key from, pr_version (new id key from) = 1 /\ p_effective_from (pr_row (new id key from)) = from /\
     pr_current (new id key from) = true) -> keeps policies_inv (create_policy new).
Proof using Type.
  intros Hnew n t Hi. assert (Ht := proj1 (ticks_spec _) (create_policy_ticks new) n t).
  destruct (create_policy new (n, t)) as [[p|m] [n' t']] eqn:E; (split; [done|]).
  - by eapply create_policy_inv.
  - apply create_policy_fails in E. cbn in E, Ht. subst t'. by apply (inv_monotone n).
Qed.

Lemma keeps_patch_binding c body : keeps policies_inv (patch_binding_route c body).
Proof using clock_bounded.
  apply keeps_atomic; [apply inv_monotone|apply patch_binding_atomic|]. intros n t a n' t' Hr Hi.
  apply check_inv in Hr as (bid & _ & Hr). apply check_inv in Hr as (u & _ & Hr).
  apply returns_bind in Hr as (o & s1 & Hg & Hr). apply returns_gets in Hg as [-> ->].
  destruct (loadBindingForTenant _ _ _) as [b|]; [|by apply returns_ret in Hr as [? _]].
  apply returns_bind in Hr as (x & s1 & Htx & Hr). apply (proj1 (returns_transaction _ _ _ _)) in Htx. apply returns_ret in Hr as [_ <-].
  apply returns_bind in Htx as (now & s1 & Hn & Htx). apply returns_now in Hn as [-> ->].
  apply returns_bind in Htx as (id & s1 & Hn & Htx). apply returns_fresh in Hn as [-> ->]. cbn zeta in Htx. cbn [fst snd] in *.
  apply returns_bind in Htx as (w & s1 & Hn & Htx). apply insert_unique_inv in Hn as [Hf ->]. cbn [fst snd] in *.
  apply returns_bind in Htx as (w1 & s1 & Hn & Htx). apply update_checked_inv in Hn as [_ ->]. apply returns_ret in Htx as [_ [= -> ->]]. cbn [fst snd].
  assert (Hi' := inv_monotone n (S (S n)) t ltac:(lia) Hi).
  destruct (inv_add_binding (S (S n)) t (next_binding b (clock n) body (uuid (S n))) Hi' Hf) as [Hwf Hs]; [exists n; by split; [lia|]|done|].
  set (t1 := set_project_bindings _ t) in *. split.
  - eapply (wf_end_binding t1); [done|apply (clock_bounded n)|right; by eexists].
  - intros at_ Hat. eapply (settled_end_binding at_ t1 _ (clock n)); [apply Hat; lia|right; by eexists|by apply Hs].
Qed.

Lemma keeps_delete_binding c : keeps policies_inv (delete_binding_route c).
Proof using clock_bounded.
  apply keeps_atomic; [apply inv_monotone|apply delete_binding_atomic|]. intros n t a n' t' Hr [Hwf Hs].
  apply check_inv in Hr as (bid & _ & Hr). apply check_inv in Hr as (u & _ & Hr).
  apply returns_bind in Hr as (o & s1 & Hg & Hr). apply returns_gets in Hg as [-> ->].
  destruct (loadBindingForTenant _ _ _) as [b|]; [|by apply returns_ret in Hr as [? _]].
  apply returns_bind in Hr as (now & s1 & Hn & Hr). apply returns_now in Hn as [-> ->].
  apply returns_bind in Hr as (w1 & s1 & Hn & Hr). apply update_checked_inv in Hn as [_ ->]. apply returns_ret in Hr as [_ [= -> ->]]. cbn [fst snd].
  split.
  - eapply (wf_end_binding t); [done|apply (clock_bounded n)|by left].
  - intros at_ Hat. eapply (settled_end_binding at_ t _ (clock n)); [apply Hat; lia|by left|]. apply Hs. eapply past_le; [|exact Hat]. lia.
Qed.

(** ** Requests that cannot succeed *)

(** A version that has a successor cannot be replaced. *)
Lemma createNext_stale existing tenantId now bs patch s new s' :
  existing ∈ policies_table s.2 -> pr_tenant existing = tenantId ->
  (exists q, q ∈ policies_table s.2 /\ pr_key q = pr_key existing /\ pr_version q = pr_version existing + 1) ->
  ~ returns (createNextPolicyVersion existing tenantId now bs patch) s new s'.
Proof using Type.
  intros Hex Ht (q & Hq & Hk & Hv) Hr. apply createNext_inv in Hr as (Hnew & _ & _ & news & _ & _ & Hc & _); [|done..].
  rewrite existsb_none in Hc. set (own := own_policy_record _ _) in Hc.
  specialize (Hc (if own q then end_policy now q else q)). unfold policy_conflict in Hc.
  assert (Hkv : pr_key (if own q then end_policy now q else q) = pr_key new /\
                pr_version (if own q then end_policy now q else q) = pr_version new).
  { rewrite Hnew. cbn. rewrite <- Hk, <- Hv. by destruct (own q). }
  destruct Hkv as [Hk' Hv']. rewrite Hk', Hv', String.eqb_refl, Z.eqb_refl, orb_true_r in Hc. discriminate Hc.
  apply elem_of_update_where. by exists q.
Qed.

(** A rule found bound to such a version can be neither changed nor deleted. *)
Lemma rule_frozen c req t p r n answer s' :
  (match req with patch_rule _ | delete_rule => True | _ => False end) -> about c req t = Some (p, Some r) ->
  (exists q, q ∈ policies_table t /\ pr_key q = pr_key p /\ pr_version q = pr_version p + 1) ->
  ~ returns (serve c req) (n, t) (inl answer) s'.
Proof using Type.
  intros Hreq Hab (q & Hq & Hk & Hv) Hr.
  assert (Habr : about_rule c t = Some (p, Some r)) by (by destruct req). unfold about_rule in Habr.
  destruct (au_param c "rule_id") as [ruleId|] eqn:Hpar; [|done]. cbn in Habr.
  destruct (getRuleForTenant _ _ t) as [[r0 b]|] eqn:Eg; [|done]. cbn in Habr. destruct b as [b|]; [|done]. cbn in Habr.
  destruct (loadPolicyForTenant _ _ t) as [p0|] eqn:Ep; [|done]. cbn in Habr. injection Habr as -> ->.
  apply loadPolicy_some in Ep as Hp. destruct Hp as (Hp & Hpid & Hpt).
  assert (Hstale : forall rs bs m new s2, ~ returns (createNextPolicyVersion p (au_tenantId c) (clock n) bs no_patch) (m, set_rules rs t) new s2).
  { intros rs bs m new s2. apply createNext_stale; [done..|by exists q]. }
  destruct req; try done; cbn [serve] in Hr; apply http_bind_inl in Hr as (v & s1 & Hr & _).
  - apply patch_rule_run in Hr as (rid & r1 & b1 & p1 & new & Hrid & Eg1 & Ep1 & _ & _ & _ & Hnext). rewrite Hpar in Hrid. injection Hrid as <-.
    rewrite Eg in Eg1. injection Eg1 as <- <-. rewrite Ep in Ep1. injection Ep1 as <-. by apply Hstale in Hnext.
  - apply check_inv in Hr as (rid & Hrid%uuid_param_inv & Hr). rewrite Hpar in Hrid. injection Hrid as <-.
    apply check_inv in Hr as (u & _ & Hr). cbn zeta in Hr. apply returns_bind in Hr as (row & s2 & Hg & Hr).
    apply returns_gets in Hg as [-> ->]. cbn [fst snd] in Hr. rewrite Eg in Hr.
    apply returns_bind in Hr as (v' & s2 & Htx & _). apply (proj1 (returns_transaction _ _ _ _)) in Htx.
    apply returns_bind in Htx as (now & s3 & Hn & Htx). apply returns_now in Hn as [-> ->].
    apply returns_bind in Htx as (w & s3 & Hn & Htx). apply update_checked_inv in Hn as [_ ->].
    apply returns_bind in Htx as (op & s3 & Hg & Htx). apply returns_gets in Hg as [-> ->]. cbn [fst snd] in *.
    match type of Htx with context [loadPolicyForTenant ?a ?b ?t1] =>
      change (loadPolicyForTenant a b t1) with (loadPolicyForTenant a b t) in Htx end. rewrite Ep in Htx.
    apply returns_bind in Htx as (bs & s4 & Hg & Htx). apply returns_gets in Hg as [-> ->].
    apply returns_bind in Htx as (new & s4 & Hnext & _). by apply Hstale in Hnext.
Qed.

(** What a successful addition of a rule leaves. *)
Lemma create_rule_tables c body n t v s' p :
  returns (create_rule_route c body) (n, t) (inl v) s' -> about c (create_rule body) t = Some (p, None) ->
  exists rule new news, rules_table s'.2 = rules_table t ++ [rule] /\
    rule_bindings_table s'.2 = rule_bindings_table t ++ news /\
    policies_table s'.2 = update_where (own_policy_record (pr_id p) (pr_tenant p))
      (fun q => supersede_policy (pr_id new) (end_policy (clock n) q)) (policies_table t) ++ [new] /\
    pr_key new = pr_key p /\ pr_version new = pr_version p + 1 /\ (forall q, q ∈ rules_table t -> rr_id q <> rr_id rule) /\
    (unique_rows rule_binding_conflict (rule_bindings_table t) -> unique_rows rule_binding_conflict (rule_bindings_table t ++ news)) /\
    exists b, b ∈ news /\ rbr_policy b = pr_id new /\ rbr_rule b = rr_id rule /\
      rb_order_index (rbr_row b) =
        default (Z.of_nat (length (loadPolicyRuleBindingsForClone (pr_id p) (pr_tenant p) t))) (cr_order_index body) /\
      forall b0, b0 ∈ loadPolicyRuleBindingsForClone (pr_id p) (pr_tenant p) t ->
        exists b', b' ∈ news /\ rbr_policy b' = pr_id new /\ rbr_rule b' = rbr_rule b0 /\
          rb_order_index (rbr_row b') = rb_order_index (rbr_row b0).
Proof using Type.
  intros (p' & new & b & Hab & Hp & Ht & Hf & _ & _ & _ & _ & Hnext)%create_rule_run Hab'. rewrite Hab in Hab'. injection Hab' as ->.
  cbn zeta in *. set (rule := new_rule _ _ _ _ _) in *.
  apply createNext_inv in Hnext as (Hnew & _ & _ & news & -> & Hnews & _ & Hu); [|done..].
  exists rule, new, news. cbn. split_and!; try done; [by rewrite Hnew..| |].
  { rewrite existsb_none in Hf. intros q Hq Hid. specialize (Hf q Hq). unfold rule_conflict in Hf. by rewrite Hid, String.eqb_refl in Hf. }
  apply Forall2_app_inv_l in Hnews as (n1 & n2 & Hn1 & Hn2 & ->). apply Forall2_cons_inv_l in Hn2 as (b1 & n3 & [id ->] & _ & ->).
  eexists. split; [apply elem_of_app; right; apply list_elem_of_here|]. split_and!; try done.
  intros b0 (i & Hi)%list_elem_of_lookup. apply (f_equal (fmap clone_of)) in Hi. rewrite <- list_lookup_fmap in Hi.
  destruct (Forall2_lookup_l _ _ _ _ _ Hn1 Hi) as (b' & Hb' & id' & ->). eexists. split; [apply elem_of_app; left; by eapply list_elem_of_lookup_2|].
  done.
Qed.

(** What the loader of the effective policy assumes. *)
Lemma inv_loaded n t at_ :
  policies_inv n t -> past n at_ -> at_ < VALID_TO_INFINITY ->
  policy_keys (loaded t) /\ forall tenantId projectId, bindings_unique (loaded t) tenantId projectId at_.
Proof using Type.
  intros [Hwf Hs] Hat Hlt. specialize (Hs at_ Hat). split.
  - split; cbn; rewrite map_map.
    + apply (unique_NoDup policy_conflict pr_id); [|apply Hwf]. intros a b Hab. unfold policy_conflict. by rewrite Hab, String.eqb_refl.
    + apply (unique_NoDup rule_binding_conflict (fun b => rb_id (rbr_row b))); [|apply Hwf]. intros a b. apply rule_binding_conflict_id.
    + apply (unique_NoDup rule_conflict rr_id); [|apply Hwf]. intros a b Hab. unfold rule_conflict. by rewrite Hab, String.eqb_refl.
  - intros tenantId projectId b b' (x & -> & Hx)%list_elem_of_fmap (y & -> & Hy)%list_elem_of_fmap Hfx Hfy Hk. f_equal.
    unfold binding_filter in Hfx, Hfy. rewrite !andb_true_iff, !String.eqb_eq in Hfx, Hfy. destruct Hfx as [[Htx Hpx] Hex], Hfy as [[Hty Hpy] Hey].
    rewrite (settled_in_force at_) in Hex, Hey by (done || by apply Hs).
    apply (unique_elem project_binding_conflict (project_bindings_table t)); [apply project_binding_conflict_sym|apply Hwf|done|done|].
    unfold project_binding_conflict, same_project_policy, pbr_current. rewrite Htx, Hpx, Hty, Hpy, Hk, Hex, Hey, !String.eqb_refl.
    by rewrite orb_true_r, orb_true_r.
Qed.

(** Routes that also read the projects. *)
Lemma keeps_on_policies {A} (e : PM A) : keeps policies_inv e -> keeps (fun n s => policies_inv n s.2) (on_policies e).
Proof using Type. intros He. by apply (keeps_zoom policies_inv snd). Qed.

Lemma keeps_project_access {A} c hide (k : string * project_row -> AM (HttpResult A)) :
  (forall p, keeps (fun n s => policies_inv n s.2) (k p)) ->
  keeps (fun n s => policies_inv n s.2) (http_bind (on_tenancy (requireProjectAccess c hide)) k).
Proof using Type.
  intros Hk. apply (keeps_guard _ (fun _ _ _ => True)).
  - intros n [db t] _. destruct (requireProject_read c hide n db) as (r & Hr & _). exists r. split; [|done].
    unfold on_tenancy, zoom. cbn [fst snd]. by rewrite Hr.
  - intros p n s [Hi _]. specialize (Hk p n s Hi). destruct (k p (n, s)) as [r [n' s']]. naive_solver.
Qed.

Lemma am_monotone : monotone (fun n (s : tenancy_db * policy_tables) => policies_inv n s.2).
Proof using Type. intros n m s Hnm Hi. by apply (inv_monotone n). Qed.

Lemma keeps_create_binding c projectId body : keeps (fun n s => policies_inv n s.2) (create_binding_route c projectId body).
Proof using Type.
  unfold create_binding_route. apply keeps_check. intros pid _. apply keeps_bind; [apply keeps_on_policies, keeps_gets|].
  intros [p|]; [|apply keeps_ret]. destruct (negb _); [apply keeps_ret|]. apply keeps_check. intros u _.
  apply keeps_bind; [intros n [db t] Hi; cbn; by split; [lia|]|]. intros [q|]; [|apply keeps_ret].
  cbn zeta. intros n [db t] Hi. set (b := new_binding (pr_key p) projectId (au_tenantId c) body (uuid n) (uuid (S n)) (clock (S (S n)))).
  assert (Hins := insert_unique_cases project_bindings_table set_project_bindings project_binding_conflict b (S (S (S n))) t).
  unfold mbind at 1 2 3, eff_bind at 1 2 3, fresh at 1 2, now_ at 1. cbn [fst snd]. fold b.
  unfold mbind, eff_bind, on_policies, zoom, insert_project_binding. cbn [fst snd]. rewrite Hins.
  destruct (existsb (project_binding_conflict b) (project_bindings_table t)) eqn:E; cbn [fst snd mret eff_ret]; (split; [lia|]).
  - by apply (inv_monotone n); [lia|].
  - apply inv_add_binding; [by apply (inv_monotone n); [lia|]|done| |done]. exists (S (S n)). split; [lia|done].
Qed.

Lemma serve_keeps c req : keeps policies_inv (serve c req).
Proof using clock_bounded.
  apply keeps_atomic; [apply inv_monotone|apply serve_atomic|]. intros n t a n' t' Hr Hi. by destruct (serve_refines _ _ _ _ _ _ _ Hr Hi).
Qed.

Lemma keeps_create_tenant_policy c body : keeps policies_inv (create_tenant_policy_route c body).
Proof using Type.
  apply keeps_check. intros tenantId _. destruct (negb _); [apply keeps_ret|].
  apply keeps_bind; [by apply keeps_create_policy|]. intros p. apply keeps_ret.
Qed.

(** ** Properties *)

(** C15: handling a request amends the book of statutes in force, as the request says,
    and in no other way, at every instant from then on: a change of a policy changes what
    its statutes say of it, an order their places, a new rule adds one, a changed rule
    replaces its own wherever they are, a deleted rule or policy removes its own.  The
    rule written has the name, description, target, condition and action of the body; a
    change of a rule leaves what its body does not name as it was.  A rule added without
    a place comes after as many as the policy has, and a changed one keeps its place.
    The request must be about a version, and a rule, in force. *)
Theorem policy_requests_refine c req n t answer n' t' p o at_ :
  returns (serve c req) (n, t) (inl answer) (n', t') -> policies_inv n t ->
  about c req t = Some (p, o) -> pr_current p = true -> (forall r, o = Some r -> rr_current r = true) ->
  past n' at_ -> at_ < VALID_TO_INFINITY ->
  policies_inv n' t' /\
  answered p o t req answer /\
  forall s, book (loaded t') at_ s <-> amended p o (place_of p t) req answer (book (loaded t) at_) s.
Proof using clock_bounded.
  intros Hr Hi Hab Hc Ho Hat Hlt. pose proof Hr as Hr'. apply serve_refines in Hr' as [Hi' Hb]; [|done]. split; [done|].
  assert (Hn : (n <= n')%nat) by (destruct (serve_atomic c req n t) as [Hn _]; unfold returns in Hr; by rewrite Hr in Hn).
  destruct (Hb p o Hab Hc Ho) as [Hans Hbook]. split; [done|].
  intros s. rewrite book_current; [|by apply Hi'|done]. rewrite Hbook. apply amended_ext. intros s'.
  rewrite book_current; [done| |done]. apply Hi. by eapply past_le.
Qed.

(** C17: a request that is refused, or fails, changes nothing. *)
Theorem refused_policy_request_changes_nothing c req body n t :
  match (serve c req (n, t)).1 with Ok (inl _) => True | _ => (serve c req (n, t)).2.2 = t end /\
  match (patch_binding_route c body (n, t)).1 with Ok (inl _) => True | _ => (patch_binding_route c body (n, t)).2.2 = t end /\
  match (delete_binding_route c (n, t)).1 with Ok (inl _) => True | _ => (delete_binding_route c (n, t)).2.2 = t end.
Proof using Type.
  split; [apply serve_atomic|]. split; [apply patch_binding_atomic|apply delete_binding_atomic].
Qed.

(** C16: every request keeps the invariant of the policy tables, and with it what the
    theorems on the effective policy assume of them: their keys are unique, and no
    project has two bindings of a policy in force. *)
Theorem policy_tables_sound :
  (forall c req, keeps policies_inv (serve c req)) /\
  (forall c body, keeps policies_inv (create_tenant_policy_route c body)) /\
  (forall c body, keeps policies_inv (patch_binding_route c body)) /\
  (forall c, keeps policies_inv (delete_binding_route c)) /\
  (forall c name description mode priority,
     keeps (fun n s => policies_inv n s.2) (create_project_policy_route c name description mode priority)) /\
  (forall c projectId body, keeps (fun n s => policies_inv n s.2) (create_binding_route c projectId body)) /\
  (forall n t at_, policies_inv n t -> past n at_ -> at_ < VALID_TO_INFINITY ->
     policy_keys (loaded t) /\ forall tenantId projectId, bindings_unique (loaded t) tenantId projectId at_).
Proof using clock_bounded.
  split_and!; intros.
  - apply serve_keeps.
  - apply keeps_create_tenant_policy.
  - apply keeps_patch_binding.
  - apply keeps_delete_binding.
  - apply keeps_check. intros u _. apply keeps_project_access. intros [projectId project].
    apply keeps_bind; [by apply keeps_on_policies, keeps_create_policy|]. intros p. apply keeps_ret.
  - apply keeps_create_binding.
  - by eapply inv_loaded.
Qed.

(** The binding of a policy to a project cannot be changed while it is in force:
    its next version is inserted before it is ended, which the unique indexes refuse.
    One that was deleted can: changing it puts it in force again. *)
Theorem binding_in_force_unchangeable c body n t bindingId b u :
  policies_inv n t ->
  validateUuidParam c "binding_id" "Binding ID" = inl bindingId ->
  requireTenantCapability c "policy_assignments.write" "You do not have access to modify policy bindings" = inl u ->
  loadBindingForTenant bindingId (au_tenantId c) t = Some b ->
  (pbr_current b = true -> patch_binding_route c body (n, t) = (Throw "unique_violation", (S (S n), t))) /\
  (pbr_current b = false -> b_effective_from (pbr_row b) < clock n ->
   existsb (project_binding_conflict (next_binding b (clock n) body (uuid (S n)))) (project_bindings_table t) = false ->
   exists t', patch_binding_route c body (n, t) = (Ok (inl (next_binding b (clock n) body (uuid (S n)))), (S (S n), t')) /\
     next_binding b (clock n) body (uuid (S n)) ∈ project_bindings_table t').
Proof using Type.
  intros Hi Hv Hcap Hload. apply head_filter in Hload as Hb. destruct Hb as [Hb Hown].
  pose proof Hown as Hown'. apply andb_true_iff in Hown' as [Hid%String.eqb_eq _].
  assert (Hrun : patch_binding_route c body (n, t) = http_bind (mret (okResult b)) (fun existing =>
    updated ← transaction (
      now ← now_; id ← fresh;
      _ ← insert_project_binding (next_binding existing now body id);
      _ ← update_project_bindings (own_project_binding bindingId (au_tenantId c)) (supersede_binding now id);
      mret (next_binding existing now body id));
    mret (okResult updated)) (n, t)).
  { unfold patch_binding_route, binding_route. rewrite Hv, Hcap. unfold http_bind, mbind, eff_bind, mret, eff_ret, gets. cbn [fst snd].
    by rewrite Hload. }
  rewrite Hrun. set (nb := next_binding b (clock n) body (uuid (S n))).
  assert (Hins := insert_unique_cases project_bindings_table set_project_bindings project_binding_conflict nb (S (S n)) t).
  unfold http_bind, transaction, mbind, eff_bind, mret, eff_ret, okResult, now_, fresh, insert_project_binding. cbn [fst snd]. fold nb.
  rewrite Hins. split; [intros Hc|intros Hc Hfrom Hfree].
  - assert (Ht : existsb (project_binding_conflict nb) (project_bindings_table t) = true).
    { apply existsb_elem_of. exists b. split; [done|]. unfold project_binding_conflict, nb. cbn. rewrite Hc, String.eqb_refl.
      cbn. by rewrite orb_true_r. }
    by rewrite Ht.
  - rewrite Hfree. cbn [fst snd]. unfold update_project_bindings, update_checked, mbind, eff_bind, gets. cbn [fst snd].
    set (t1 := set_project_bindings _ t). assert (Hnew : own_project_binding bindingId (au_tenantId c) nb = false).
    { rewrite existsb_none in Hfree. specialize (Hfree b Hb). unfold project_binding_conflict in Hfree.
      apply orb_false_iff in Hfree as [[Hne%String.eqb_neq _]%orb_false_iff _]. unfold own_project_binding.
      rewrite (proj2 (String.eqb_neq (b_id (pbr_row nb)) bindingId)); [done|congruence]. }
    replace (forallb _ _) with true.
    + eexists. split; [reflexivity|]. apply elem_of_update_where. exists nb. rewrite Hnew. split; [|done].
      apply elem_of_app. right. by apply list_elem_of_singleton.
    + symmetry. apply forallb_forall. intros x Hx. apply list_elem_of_In, elem_of_filter_b in Hx as [Hx Hxo]. cbn in Hx.
      apply elem_of_app in Hx as [Hx|Hx%list_elem_of_singleton]; [|subst x; congruence].
      pose proof Hxo as Hxo'. apply andb_true_iff in Hxo' as [Hxid%String.eqb_eq _].
      assert (x = b) as ->.
      { apply (unique_elem project_binding_conflict (project_bindings_table t)); [apply project_binding_conflict_sym|apply Hi|done|done|].
        unfold project_binding_conflict. by rewrite Hid, Hxid, String.eqb_refl. }
      apply Z.ltb_lt. exact Hfrom.
Qed.

(** Once a rule is added to a policy, none of the rules it had can be changed or
    deleted: the database finds the rule's oldest binding first, that of the version
    that was replaced, and the next version of that exists. *)
Theorem rules_frozen_by_new_version c body n t v n' t' p c' req ruleId r b m answer s' :
  returns (create_rule_route c body) (n, t) (inl v) (n', t') -> policies_inv n t ->
  about c (create_rule body) t = Some (p, None) ->
  (match req with patch_rule _ | delete_rule => True | _ => False end) ->
  au_tenantId c' = au_tenantId c -> au_param c' "rule_id" = Some ruleId ->
  getRuleForTenant ruleId (au_tenantId c) t = Some (r, Some b) -> rbr_policy b = pr_id p ->
  ~ returns (serve c' req) (m, t') (inl answer) s'.
Proof using clock_bounded.
  intros Hr Hi Hab Hreq Hten Hpar Hget Hbp. pose proof Hr as Hr0. apply (create_rule_refines clock_bounded) in Hr0 as [[Hwf' _] _]; [|done].
  destruct (create_rule_tables _ _ _ _ _ _ _ Hr Hab) as (rule & new & news & Hrt & Hbt & Hpt & Hk & Hv & _). cbn [snd] in *.
  cbn in Hab. destruct (au_param c "policy_id") as [pid|]; [|done]. cbn in Hab.
  destruct (loadPolicyForTenant pid _ t) as [p0|] eqn:Ep; [|done]. cbn in Hab. injection Hab as ->.
  apply loadPolicy_some in Ep as (Hp & Hpid & Hptn). set (f := fun q => supersede_policy (pr_id new) (end_policy (clock n) q)) in *.
  assert (Hfp : f p ∈ policies_table t').
  { rewrite Hpt. apply elem_of_app. left. apply elem_of_update_where. exists p. unfold own_policy_record. by rewrite !String.eqb_refl. }
  destruct (head_filter_exists (own_policy_record (pr_id p) (au_tenantId c)) (policies_table t') (f p) Hfp) as [p' Hp'].
  { unfold own_policy_record. rewrite <- Hptn. by rewrite !String.eqb_refl. }
  assert (p' = f p) as ->.
  { apply loadPolicy_some in Hp' as (Hp'1 & Hp'2 & _). by apply (policy_by_id t'). }
  apply (rule_frozen c' req t' (f p) r); [done| |].
  - assert (Hget' : getRuleForTenant ruleId (au_tenantId c) t' = Some (r, Some b)).
    { unfold getRuleForTenant in Hget |- *. rewrite Hrt, Hbt. apply bind_Some in Hget as (r0 & Hr0 & [= -> Hb0]).
      rewrite (head_filter_app _ _ _ _ Hr0). cbn. by rewrite (head_filter_app _ _ _ _ Hb0). }
    assert (Habr : about_rule c' t' = Some (f p, Some r)).
    { unfold about_rule. rewrite Hpar. cbn. rewrite Hten, Hget'. cbn. unfold loadPolicyForTenant. rewrite Hbp, Hp'. done. }
    by destruct req.
  - exists new. split; [|done]. rewrite Hpt. apply elem_of_app. right. by apply list_elem_of_singleton.
Qed.

(** A rule cannot be added, without naming its place, to a policy that has a rule
    at the place of their number, as after a rule before it was deleted. *)
Theorem default_place_taken c body n t p b answer s' :
  policies_inv n t -> about c (create_rule body) t = Some (p, None) -> cr_order_index body = None ->
  b ∈ loadPolicyRuleBindingsForClone (pr_id p) (pr_tenant p) t ->
  rb_order_index (rbr_row b) = Z.of_nat (length (loadPolicyRuleBindingsForClone (pr_id p) (pr_tenant p) t)) ->
  ~ returns (create_rule_route c body) (n, t) (inl answer) s'.
Proof using Type.
  intros [Hwf _] Hab Hnone Hb Hlen Hr. destruct s' as [n' t'].
  destruct (create_rule_tables _ _ _ _ _ _ _ Hr Hab) as (rule & new & news & _ & _ & _ & _ & _ & Hfresh & Hu & b1 & Hb1 & Hp1 & Hr1 & Ho1 & Hall).
  specialize (Hu (pw_rule_bindings t Hwf)). destruct (Hall b Hb) as (b2 & Hb2 & Hp2 & Hr2 & Ho2).
  assert (b1 = b2) as ->.
  { apply (unique_elem rule_binding_conflict (rule_bindings_table t ++ news)); [apply rule_binding_conflict_sym|done|by apply elem_of_app; right..|].
    unfold rule_binding_conflict. rewrite Hp1, Hp2, String.eqb_refl, Ho1, Ho2, Hnone, Hlen. cbn. by rewrite Z.eqb_refl, !orb_true_r. }
  assert (Hbt : b ∈ rule_bindings_table t).
  { unfold loadPolicyRuleBindingsForClone in Hb. rewrite order_by_elem_of, elem_of_filter_b in Hb. by destruct Hb. }
  destruct (pw_rule t Hwf b Hbt) as (q & Hq & Hqid & _). apply (Hfresh q Hq). congruence.
Qed.
End spec.

(** ** A small store: one policy, to which three rules were added *)

Definition policy_formats : Formats := {| is_uuid s := nonempty s; is_email _ := true |}.

Definition policy_caller (param : string -> option string) : AuthContext :=
  {| au_tenantId := "ten"; au_tenantKind := "customer"; au_userId := "ann"; au_role := "owner"; au_param := param |}.

Definition on_policy (id : string) : AuthContext := policy_caller (fun name => if String.eqb name "policy_id" then Some id else None).
Definition on_rule (id : string) : AuthContext := policy_caller (fun name => if String.eqb name "rule_id" then Some id else None).
Definition on_tenant : AuthContext := policy_caller (fun name => if String.eqb name "tenant_id" then Some "ten" else None).
Definition on_binding (id : string) : AuthContext := policy_caller (fun name => if String.eqb name "binding_id" then Some id else None).

Definition example_rule_body (code : string) : create_rule_body :=
  {| cr_name := code; cr_description := None; cr_target_entity := "artifact"; cr_condition := JObj [("all", JArr [])];
     cr_action := JObj [("type", JStr "violation"); ("code", JStr code)]; cr_enabled := None; cr_order_index := None |}.

Definition no_tables : policy_tables :=
  {| policies_table := []; rules_table := []; rule_bindings_table := []; project_bindings_table := [] |}.

(** The state after a step that returned. *)
Definition after {A} (r : res A * (nat * policy_tables)) : nat * policy_tables := r.2.

Definition example_create (s : nat * policy_tables) : nat * policy_tables :=
  after (@create_tenant_policy_route example_env policy_formats on_tenant
    {| cp_name := "baseline"; cp_description := None; cp_category := None; cp_scope := "global"; cp_enforcement_mode := None;
       cp_priority := None; cp_status := None |} s).
Definition example_serve (c : AuthContext) (req : policy_request) (s : nat * policy_tables) : nat * policy_tables :=
  after (@serve example_env storage_order policy_formats c req s).

Definition example_state : nat * policy_tables :=
  example_serve (on_policy "13") (create_rule (example_rule_body "THIRD"))
    (example_serve (on_policy "7") (create_rule (example_rule_body "SECOND"))
      (example_serve (on_policy "0") (create_rule (example_rule_body "FIRST")) (example_create (0%nat, no_tables)))).

Lemma example_clock m : @clock example_env m < VALID_TO_INFINITY.
Proof. cbn. unfold VALID_TO_INFINITY. lia. Qed.

Lemma example_past n : @past example_env n 1000000.
Proof. intros m _. cbn. lia. Qed.

Lemma after_keeps {A} (e : PM A) s :
  keeps (@policies_inv example_env) e -> @policies_inv example_env s.1 s.2 -> @policies_inv example_env (after (e s)).1 (after (e s)).2.
Proof. intros He Hi. destruct s as [n t]. specialize (He n t Hi). unfold after. destruct (e (n, t)) as [r [n' t']]. by destruct He. Qed.

Lemma no_tables_inv : @policies_inv example_env 0 no_tables.
Proof.
  split; [split; cbn; try constructor; intros; by match goal with Hx : _ ∈ [] |- _ => apply not_elem_of_nil in Hx end|].
  intros at_ _. split; cbn; intros x Hx; by apply not_elem_of_nil in Hx.
Qed.

Lemma example_inv : @policies_inv example_env example_state.1 example_state.2.
Proof.
  unfold example_state, example_serve, example_create.
  repeat (apply after_keeps; [first [apply serve_keeps, example_clock | apply keeps_create_tenant_policy]|]). apply no_tables_inv.
Qed.

Definition one_rule : nat * policy_tables :=
  example_serve (on_policy "0") (create_rule (example_rule_body "FIRST")) (example_create (0%nat, no_tables)).

Lemma one_rule_inv : @policies_inv example_env one_rule.1 one_rule.2.
Proof.
  unfold one_rule, example_serve, example_create.
  repeat (apply after_keeps; [first [apply serve_keeps, example_clock | apply keeps_create_tenant_policy]|]). apply no_tables_inv.
Qed.

Definition example_patch : patch_rule_body :=
  {| pb_name := Some "RENAMED"; pb_description := None; pb_target_entity := None; pb_condition := None;
     pb_action := Some (JObj [("type", JStr "violation"); ("code", JStr "PATCHED")]); pb_enabled := Some false; pb_order_index := None |}.

(** A fourth rule is in the book from then on, in the fourth place; the only rule of a
    policy is there with its new name and action, disabled, and nothing is there with
    the old ones. *)
Lemma policy_requests_refine_witness :
  (exists v s' s, returns (@serve example_env storage_order policy_formats (on_policy "20") (create_rule (example_rule_body "FOURTH"))) example_state
      (inl (Some v)) s' /\ book (loaded s'.2) 1000000 s /\ r_name (st_rule s) = "FOURTH" /\ st_order s = 3 /\
      r_action (st_rule s) = JObj [("code", JStr "FOURTH"); ("type", JStr "violation")]) /\
  (exists v s' s, returns (@serve example_env storage_order policy_formats (on_rule "4") (patch_rule example_patch)) one_rule
      (inl (Some v)) s' /\ book (loaded s'.2) 1000000 s /\ r_name (st_rule s) = "RENAMED" /\ st_enabled s = false /\
      r_condition (st_rule s) = JObj [("all", JArr [])] /\ r_action (st_rule s) = JObj [("code", JStr "PATCHED"); ("type", JStr "violation")]).
Proof.
  split.
  - destruct (@serve example_env storage_order policy_formats (on_policy "20") (create_rule (example_rule_body "FOURTH")) example_state)
      as [[[[v|]|e]|m] [n' t']] eqn:E; try (vm_compute in E; discriminate E).
    destruct (about (on_policy "20") (create_rule (example_rule_body "FOURTH")) example_state.2) as [[p [o|]]|] eqn:Eab;
      try (vm_compute in Eab; discriminate Eab).
    exists v, (n', t'), {| st_policy := face (pr_row p); st_rule := rr_row (rw_rule v); st_enabled := true; st_order := 3 |}.
    split; [exact E|].
    destruct (@policy_requests_refine example_env storage_order policy_formats example_clock (on_policy "20")
                (create_rule (example_rule_body "FOURTH")) example_state.1 example_state.2 (Some v) n' t' p None 1000000)
      as (_ & [[Hname _ _ _ Haction _ _] _] & Hbook).
    + rewrite (surjective_pairing example_state) in E. exact E.
    + exact example_inv.
    + exact Eab.
    + vm_compute in Eab. injection Eab as <-. reflexivity.
    + discriminate.
    + apply example_past.
    + reflexivity.
    + split; [|split; [exact Hname|split; [reflexivity|exact Haction]]]. apply Hbook. right. vm_compute in Eab. injection Eab as <-. reflexivity.
  - destruct (@serve example_env storage_order policy_formats (on_rule "4") (patch_rule example_patch) one_rule)
      as [[[[v|]|e]|m] [n' t']] eqn:E; try (vm_compute in E; discriminate E).
    destruct (about (on_rule "4") (patch_rule example_patch) one_rule.2) as [[p [o|]]|] eqn:Eab; try (vm_compute in Eab; discriminate Eab).
    assert (Hold : exists s0, book (loaded one_rule.2) 1000000 s0 /\ r_id (st_rule s0) = rr_id o).
    { vm_compute in Eab. injection Eab as _ <-. eexists (statute_of _ _ _). split; [|shelve].
      eexists _, _, _. split; [apply (list_elem_of_lookup_2 _ 1%nat); vm_compute; reflexivity|]. split; [reflexivity|].
      split; [apply (list_elem_of_lookup_2 _ 0%nat); vm_compute; reflexivity|]. split; [reflexivity|].
      split; [apply (list_elem_of_lookup_2 _ 0%nat); vm_compute; reflexivity|]. split; [reflexivity|]. split; reflexivity.
      Unshelve. reflexivity. }
    destruct Hold as (s0 & Hs0 & Hid).
    exists v, (n', t'), (with_rule (rr_row (rw_rule v)) (Some false) s0). split; [exact E|].
    destruct (@policy_requests_refine example_env storage_order policy_formats example_clock (on_rule "4")
                (patch_rule example_patch) one_rule.1 one_rule.2 (Some v) n' t' p (Some o) 1000000)
      as (_ & [[_ Hname _ _ Hcond Haction _ _] _] & Hbook).
    + rewrite (surjective_pairing one_rule) in E. exact E.
    + exact one_rule_inv.
    + exact Eab.
    + vm_compute in Eab. injection Eab as <- _. reflexivity.
    + intros r [= <-]. vm_compute in Eab. injection Eab as _ <-. reflexivity.
    + apply example_past.
    + reflexivity.
    + split; [|split; [exact Hname|split; [reflexivity|split; [|exact Haction]]]].
      * apply Hbook. exists s0. split; [exact Hs0|]. destruct (decide _); [reflexivity|contradiction].
      * cbn. rewrite Hcond. vm_compute in Eab. injection Eab as _ <-. reflexivity.
Defined.

Lemma policy_tables_sound_witness :
  policy_keys (loaded example_state.2) /\ bindings_unique (loaded example_state.2) "ten" "proj" 1000000.
Proof.
  destruct (@policy_tables_sound example_env storage_order policy_formats example_clock) as (_ & _ & _ & _ & _ & _ & Hl).
  destruct (Hl example_state.1 example_state.2 1000000 example_inv (example_past _) eq_refl) as [Hk Hu]. split; [exact Hk|apply Hu].
Defined.

(** The binding of the example's policy to a project. *)
Definition example_project_binding (to : timestamp) : project_binding_record :=
  {| pbr_row := {| b_id := "bind"; b_policy_key := "1"; b_tenant_id := "ten"; b_project_id := "proj"; b_enabled := false;
                   b_inheritance_mode := "inherited"; b_severity_override := None; b_threshold_overrides := JNull; b_rule_overrides := JNull;
                   b_enforcement_mode_override := None; b_effective_from := 1000; b_effective_to := to |};
     pbr_binding_key := "bkey"; pbr_version := 1; pbr_superseded_by_id := None |}.

Definition example_bound (to : timestamp) : policy_tables := set_project_bindings [example_project_binding to] no_tables.

Lemma example_bound_inv to : to = VALID_TO_INFINITY \/ to <= 4000 -> @policies_inv example_env 5 (example_bound to).
Proof.
  intros Hto. split.
  - split; cbn; try (repeat constructor); intros; by match goal with Hx : _ ∈ [] |- _ => apply not_elem_of_nil in Hx end.
  - intros at_ Hat. assert (H1 := Hat 1%nat ltac:(lia)). assert (H4 := Hat 4%nat ltac:(lia)). cbn in H1, H4.
    split; cbn; intros x Hx; [by apply not_elem_of_nil in Hx..|]. apply list_elem_of_singleton in Hx. subst x. cbn. split; [done|]. lia.
Qed.

Definition enable_binding : binding_mutation :=
  {| bm_enabled := Some true; bm_inheritance_mode := None; bm_severity_override := None; bm_threshold_overrides := None;
     bm_rule_overrides := None; bm_enforcement_mode_override := None |}.

Lemma binding_in_force_unchangeable_witness :
  @patch_binding_route example_env policy_formats (on_binding "bind") enable_binding (5%nat, example_bound VALID_TO_INFINITY)
    = (Throw "unique_violation", (7%nat, example_bound VALID_TO_INFINITY)) /\
  exists t', (@patch_binding_route example_env policy_formats (on_binding "bind") enable_binding (5%nat, example_bound 3000)).2 = (7%nat, t') /\
    exists b, b ∈ project_bindings_table t' /\ pbr_current b = true.
Proof.
  split.
  - apply (@binding_in_force_unchangeable example_env policy_formats (on_binding "bind") enable_binding 5 (example_bound VALID_TO_INFINITY)
      "bind" (example_project_binding VALID_TO_INFINITY) tt); [apply example_bound_inv; by left|reflexivity..].
  - destruct (@binding_in_force_unchangeable example_env policy_formats (on_binding "bind") enable_binding 5 (example_bound 3000)
      "bind" (example_project_binding 3000) tt) as [_ Hrev]; [apply example_bound_inv; right; lia|reflexivity..|].
    destruct Hrev as (t' & Hrun & Hin); [reflexivity..|]. exists t'. rewrite Hrun. split; [reflexivity|]. eexists. split; [exact Hin|reflexivity].
Defined.

(** The first rule, once the second is added. *)
Lemma rules_frozen_by_new_version_witness :
  exists s2, (@create_rule_route example_env storage_order policy_formats (on_policy "7") (example_rule_body "SECOND") one_rule).2 = s2 /\
  forall answer s', ~ returns (@serve example_env storage_order policy_formats (on_rule "4") delete_rule) s2 (inl answer) s'.
Proof.
  destruct (@create_rule_route example_env storage_order policy_formats (on_policy "7") (example_rule_body "SECOND") one_rule)
    as [[[v|e]|m] [n' t']] eqn:E; try (vm_compute in E; discriminate E).
  exists (n', t'). split; [reflexivity|]. intros answer s'.
  destruct (about (on_policy "7") (create_rule (example_rule_body "SECOND")) one_rule.2) as [[p [o|]]|] eqn:Eab;
    try (vm_compute in Eab; discriminate Eab).
  destruct (getRuleForTenant "4" "ten" one_rule.2) as [[r [b|]]|] eqn:Eg; try (vm_compute in Eg; discriminate Eg).
  apply (@rules_frozen_by_new_version example_env storage_order policy_formats example_clock (on_policy "7") (example_rule_body "SECOND")
           one_rule.1 one_rule.2 v n' t' p (on_rule "4") delete_rule "4" r b n' answer s').
  - rewrite (surjective_pairing one_rule) in E. exact E.
  - exact one_rule_inv.
  - exact Eab.
  - exact I.
  - reflexivity.
  - reflexivity.
  - exact Eg.
  - vm_compute in Eg, Eab. injection Eg as _ <-. injection Eab as <-. reflexivity.
Defined.

(** A policy whose only rule was given the second place. *)
Definition placed_body : create_rule_body :=
  {| cr_name := "FIRST"; cr_description := None; cr_target_entity := "artifact"; cr_condition := JObj []; cr_action := JObj [];
     cr_enabled := None; cr_order_index := Some 1 |}.
Definition placed_rule : nat * policy_tables :=
  example_serve (on_policy "0") (create_rule placed_body) (example_create (0%nat, no_tables)).

Lemma placed_rule_inv : @policies_inv example_env placed_rule.1 placed_rule.2.
Proof.
  unfold placed_rule, example_serve, example_create.
  repeat (apply after_keeps; [first [apply serve_keeps, example_clock | apply keeps_create_tenant_policy]|]). apply no_tables_inv.
Qed.

Lemma default_place_taken_witness :
  forall answer s', ~ returns (@create_rule_route example_env storage_order policy_formats (on_policy "7") (example_rule_body "NEXT"))
    placed_rule (inl answer) s'.
Proof.
  intros answer s'.
  destruct (about (on_policy "7") (create_rule (example_rule_body "NEXT")) placed_rule.2) as [[p [o|]]|] eqn:Eab;
    try (vm_compute in Eab; discriminate Eab).
  destruct (head (@loadPolicyRuleBindingsForClone storage_order (pr_id p) (pr_tenant p) placed_rule.2)) as [b|] eqn:Eb.
  2:{ vm_compute in Eab. injection Eab as <-. vm_compute in Eb. discriminate Eb. }
  rewrite (surjective_pairing placed_rule).
  apply (@default_place_taken example_env storage_order policy_formats (on_policy "7") (example_rule_body "NEXT")
           placed_rule.1 placed_rule.2 p b answer s').
  - exact placed_rule_inv.
  - exact Eab.
  - reflexivity.
  - destruct (@loadPolicyRuleBindingsForClone storage_order (pr_id p) (pr_tenant p) placed_rule.2); [discriminate Eb|].
    injection Eb as ->. apply list_elem_of_here.
  - vm_compute in Eab. injection Eab as <-. vm_compute in Eb. injection Eb as <-. reflexivity.
Defined.
