(* ===== verification/Provision.v ===== *)
(** * Provisioning of tenants (services/api/src/bootstrap/tenant-provisioning.ts)

    A new tenant gets its entitlements and its first policies: copies of the platform
    tenant's global policies in force or, when there is nothing to copy, the built-in
    starter policies.  The policies are those of the tables in [Policies].

    A query for one row without an order returns the first in storage order, about
    which nothing is known; the queries here only ask whether there is one. *)

From S2P Require Import Prelude JsString JsNum JsValue Jsonb Sql Effects Constants Tenancy Effective Policies.
Local Open Scope string_scope.
Local Open Scope list_scope.
Local Open Scope Z_scope.

(** ** Tables (db/schema/tenancy.ts) *)

Record tenant_row := { tn_id : string; tn_name : string; tn_kind : string; tn_created_at : timestamp }.

Record entitlement_record := { er_row : entitlement_row; er_mcp_enabled : bool }.

Record accounts_db := {
  tenants : list tenant_row; ac_memberships : list membership_row; ac_entitlements : list entitlement_record;
  ac_policies : policy_tables
}.

Definition set_tenants (l : list tenant_row) (db : accounts_db) : accounts_db :=
  {| tenants := l; ac_memberships := ac_memberships db; ac_entitlements := ac_entitlements db; ac_policies := ac_policies db |}.
Definition set_ac_memberships (l : list membership_row) (db : accounts_db) : accounts_db :=
  {| tenants := tenants db; ac_memberships := l; ac_entitlements := ac_entitlements db; ac_policies := ac_policies db |}.
Definition set_ac_entitlements (l : list entitlement_record) (db : accounts_db) : accounts_db :=
  {| tenants := tenants db; ac_memberships := ac_memberships db; ac_entitlements := l; ac_policies := ac_policies db |}.
Definition set_ac_policies (t : policy_tables) (db : accounts_db) : accounts_db :=
  {| tenants := tenants db; ac_memberships := ac_memberships db; ac_entitlements := ac_entitlements db; ac_policies := t |}.

Definition TX : Type -> Type := M accounts_db.

(** [tenants_pkey], [tenants_single_platform_idx] *)
Definition tenant_conflict (new t : tenant_row) : bool :=
  String.eqb (tn_id t) (tn_id new)
  || String.eqb (tn_kind t) TENANT_KIND.PLATFORM && String.eqb (tn_kind new) TENANT_KIND.PLATFORM.

(** [memberships_pkey], [memberships_tenant_user_idx] *)
Definition membership_row_conflict (new m : membership_row) : bool :=
  String.eqb (mb_id m) (mb_id new)
  || String.eqb (mb_tenant_id m) (mb_tenant_id new) && String.eqb (mb_user_id m) (mb_user_id new).

(** [tenant_entitlements_tenant_id_idx] *)
Definition entitlement_conflict (new e : entitlement_record) : bool :=
  String.eqb (te_tenant_id (er_row e)) (te_tenant_id (er_row new)).

(** ** The starter policies *)

Record StarterPolicyRule := { spr_name : string; spr_description : string; spr_condition : jsval; spr_action : jsval }.

Record StarterPolicyDefinition := {
  spd_name : string; spd_description : string; spd_category : string; spd_priority : Z; spd_rules : list StarterPolicyRule
}.

Definition DEFAULT_VERSION_COOLING_PERIOD_DAYS : Z := 7.

Definition leaf_condition (field operator : string) (value : jsval) : jsval :=
  JObj [("field", JStr field); ("operator", JStr operator); ("value", value)].

Definition starter_action (severity code message_template : string) (remediation : list (string * jsval)) : jsval :=
  JObj ([("type", JStr "violation"); ("severity", JStr severity); ("code", JStr code); ("enforcement_mode", JStr "enforcing");
         ("message_template", JStr message_template)] ++ remediation).

Definition cooling_rule : StarterPolicyRule :=
  let days := string_of_Z DEFAULT_VERSION_COOLING_PERIOD_DAYS in
  {| spr_name := "Block Newly Released Package Versions";
     spr_description := "Blocks package versions during the default release cooling period so freshly published packages have time to accumulate ecosystem signals";
     spr_condition := leaf_condition "asset.version_age_days" "lt" (JInt DEFAULT_VERSION_COOLING_PERIOD_DAYS);
     spr_action := starter_action "high" "PACKAGE_VERSION_COOLING_PERIOD"
       ("Package version is {{asset.version_age_days}} day(s) old; required cooling period is " +:+ days +:+ " days")
       [("recommended_remediation",
         JStr ("Wait until this package version is at least " +:+ days
               +:+ " days old, or review and adjust the tenant policy if this release is trusted"))] |}.

Definition osv_unavailable_rule : StarterPolicyRule :=
  {| spr_name := "Block When OSV Data Unavailable";
     spr_description := "Blocks packages when the OSV connector times out or is otherwise unavailable so missing vulnerability data does not silently allow a package";
     spr_condition := leaf_condition "source.osv._meta.status" "in"
       (JArr [JStr "background_pending"; JStr "unavailable"; JStr "error"]);
     spr_action := starter_action "high" "OSV_DATA_UNAVAILABLE"
       "OSV vulnerability data unavailable (status: {{source.osv._meta.status}})" [] |}.

Definition critical_rule : StarterPolicyRule :=
  {| spr_name := "Block Critical CVEs"; spr_description := "Blocks any package with one or more critical-severity CVEs";
     spr_condition := leaf_condition "source.osv.critical_count" "gt" (JInt 0);
     spr_action := starter_action "critical" "OSV_CRITICAL_CVE" "Package has {{source.osv.critical_count}} critical CVE(s)" [] |}.

Definition high_rule : StarterPolicyRule :=
  {| spr_name := "Block High CVEs"; spr_description := "Blocks any package with one or more high-severity CVEs";
     spr_condition := leaf_condition "source.osv.high_count" "gt" (JInt 0);
     spr_action := starter_action "high" "OSV_HIGH_CVE" "Package has {{source.osv.high_count}} high CVE(s)" [] |}.

Definition contributor_rule : StarterPolicyRule :=
  {| spr_name := "Block High Contributor Risk";
     spr_description := "Blocks packages with contributor risk score >= 80 (new actor, fresh account, or high release velocity)";
     spr_condition := leaf_condition "source.contributor.contributor_risk_score" "gte" (JInt 80);
     spr_action := starter_action "high" "CONTRIBUTOR_RISK_HIGH"
       "Package has contributor risk score {{source.contributor.contributor_risk_score}} (threshold: 80)"
       [("recommended_remediation", JStr "Review the package maintainer history and recent releases before upgrading")] |}.

Definition STARTER_POLICY_DEFINITIONS : list StarterPolicyDefinition := [
  {| spd_name := "Default Security Policy";
     spd_description := "Blocks newly published package versions, packages with critical or high CVEs detected by OSV, and demonstrates fail-closed handling when OSV data is unavailable";
     spd_category := "vulnerability-management"; spd_priority := 100;
     spd_rules := [cooling_rule; osv_unavailable_rule; critical_rule; high_rule] |};
  {| spd_name := "Contributor Risk Policy";
     spd_description := "Blocks packages with elevated contributor risk scores (new maintainer, fresh account, high velocity)";
     spd_category := "supply-chain"; spd_priority := 110; spd_rules := [contributor_rule] |}].

(** ** Writing a policy with its rules *)

(** Whether the tenant has, or had, a global policy of the name. *)
Definition tenant_policy_named (tenantId name : string) (p : policy_record) : bool :=
  String.eqb (pr_tenant p) tenantId && bool_decide (p_project_id (pr_row p) = None) && String.eqb (p_name (pr_row p)) name.

Definition policy_exists (tenantId name : string) (t : policy_tables) : bool :=
  existsb (tenant_policy_named tenantId name) (policies_table t).

Definition sum (l : list Z) : Z := foldr Z.add 0 l.

Section provisioning.
Context `{Env} `{SqlOrder}.

(** One row of [insert(rules).values(...).returning({ id })]. *)
Definition insert_first_rule (tenantId : string) (body : create_rule_body) : PM string :=
  id ← fresh;
  key ← fresh;
  from ← now_;
  _ ← insert_rule (new_rule tenantId body id key from);
  mret id.

Definition rule_values (name : string) (description : option string) (target_entity : string) (condition action : jsval)
  : create_rule_body :=
  {| cr_name := name; cr_description := description; cr_target_entity := target_entity; cr_condition := condition;
     cr_action := action; cr_enabled := None; cr_order_index := None |}.

Definition starter_rule_values (rule : StarterPolicyRule) : create_rule_body :=
  rule_values (spr_name rule) (Some (spr_description rule)) RULE_TARGET_ENTITY.ARTIFACT (spr_condition rule) (spr_action rule).

Definition starter_binding (index : nat) (ruleId : string) : PolicyRuleBindingClone :=
  {| bc_rule_id := ruleId; bc_enabled := true; bc_required := false; bc_order_index := Z.of_nat index |}.

Definition starter_policy (tenantId : string) (input : StarterPolicyDefinition) : string -> string -> timestamp -> policy_record :=
  new_policy tenantId None (spd_name input) (Some (spd_description input)) (Some (spd_category input)) POLICY_SCOPE.GLOBAL
    POLICY_STATUS.ACTIVE ENFORCEMENT_MODE.ENFORCING (spd_priority input) None.

Definition ensureStarterPolicy (tenantId : string) (input : StarterPolicyDefinition) : PM Z :=
  existing ← gets (policy_exists tenantId (spd_name input));
  if existing : bool then mret 0
  else
    policy ← create_policy (starter_policy tenantId input);
    createdRules ← mapM_ (fun rule => insert_first_rule tenantId (starter_rule_values rule)) (spd_rules input);
    _ ← mapM_ (insert_rule_binding tenantId (pr_id policy)) (imap starter_binding createdRules);
    mret 1.

Definition ensureStarterPolicies (tenantId : string) : PM Z :=
  created ← mapM_ (ensureStarterPolicy tenantId) STARTER_POLICY_DEFINITIONS;
  mret (sum created).

(** ** Copying the platform's policies *)

Definition template_policies (platformTenantId : string) (now : timestamp) (t : policy_tables) : list policy_record :=
  order_by (fun p => p_priority (pr_row p))
    (List.filter (fun p => global_policy_filter platformTenantId now (pr_row p)) (policies_table t)).

(** The rules of a template, with their bindings. *)
Definition template_rules (platformTenantId policyId : string) (t : policy_tables) : list (rule_binding_record * rule_record) :=
  order_by (fun row => rb_order_index (rbr_row row.1))
    (List.filter (fun row => String.eqb (rbr_tenant_id row.1) platformTenantId && String.eqb (rbr_policy row.1) policyId
                             && String.eqb (rr_tenant_id row.2) platformTenantId)
       (inner_join (fun b r => String.eqb (rbr_rule b) (rr_id r)) (rule_bindings_table t) (rules_table t))).

Definition copied_policy (targetTenantId : string) (templatePolicy : policy_record)
  : string -> string -> timestamp -> policy_record :=
  new_policy targetTenantId None (p_name (pr_row templatePolicy)) (pr_description templatePolicy) (pr_category templatePolicy)
    POLICY_SCOPE.GLOBAL (p_status (pr_row templatePolicy)) (p_enforcement_mode (pr_row templatePolicy))
    (p_priority (pr_row templatePolicy)) None.

Definition copied_rule_values (rule : rule_record) : create_rule_body :=
  rule_values (r_name (rr_row rule)) (r_description (rr_row rule)) (r_target_entity (rr_row rule)) (r_condition (rr_row rule))
    (r_action (rr_row rule)).

Definition copied_binding (templateRules : list (rule_binding_record * rule_record)) (index : nat) (ruleId : string)
  : PolicyRuleBindingClone :=
  let templateBinding := fst <$> nth_error templateRules index in
  {| bc_rule_id := ruleId; bc_enabled := from_option (fun b => rb_enabled (rbr_row b)) true templateBinding;
     bc_required := from_option rbr_required false templateBinding;
     bc_order_index := from_option (fun b => rb_order_index (rbr_row b)) (Z.of_nat index) templateBinding |}.

(** The body of the loop over the templates. *)
Definition copyTemplate (platformTenantId targetTenantId : string) (templatePolicy : policy_record) : PM Z :=
  existingPolicy ← gets (policy_exists targetTenantId (p_name (pr_row templatePolicy)));
  if existingPolicy : bool then mret 0
  else
    createdPolicy ← create_policy (copied_policy targetTenantId templatePolicy);
    templateRules ← gets (template_rules platformTenantId (pr_id templatePolicy));
    createdRules ← mapM_ (fun row => insert_first_rule targetTenantId (copied_rule_values row.2)) templateRules;
    _ ← mapM_ (insert_rule_binding targetTenantId (pr_id createdPolicy)) (imap (copied_binding templateRules) createdRules);
    mret 1.

Definition copyPlatformPolicyTemplatesToTenant (platformTenantId targetTenantId : string) : PM Z :=
  if String.eqb platformTenantId targetTenantId then mret 0
  else
    now ← now_;
    templatePolicies ← gets (template_policies platformTenantId now);
    copied ← mapM_ (copyTemplate platformTenantId targetTenantId) templatePolicies;
    mret (sum copied).

(** ** The defaults of a tenant *)

Definition on_statutes {A} (e : PM A) : TX A := zoom ac_policies set_ac_policies e.

Definition findPlatformTenantId (db : accounts_db) : option string :=
  tn_id <$> head (order_by tn_created_at (List.filter (fun t => String.eqb (tn_kind t) TENANT_KIND.PLATFORM) (tenants db))).

Definition default_entitlements (tenantId : string) : entitlement_record :=
  {| er_row := {| te_tenant_id := tenantId; te_allowed_ecosystems := None; te_serve_mode := SERVE_MODE.REDIRECT;
                  te_cache_ttl_seconds := 300 |};
     er_mcp_enabled := true |}.

Definition ensureTenantEntitlements (tenantId : string) : TX unit :=
  existing ← gets (fun db => existsb (fun e => String.eqb (te_tenant_id (er_row e)) tenantId) (ac_entitlements db));
  if existing : bool then mret tt
  else insert_unique ac_entitlements set_ac_entitlements entitlement_conflict (default_entitlements tenantId).

Inductive TenantPolicyProvisionSource : Type := platform_template | builtin_starter.

Record TenantPolicyProvisionResult := { source : TenantPolicyProvisionSource; policiesCreated : Z }.

Definition provisionCustomerTenantDefaults (tenantId : string) (platformTenantId : option string) : TX TenantPolicyProvisionResult :=
  _ ← ensureTenantEntitlements tenantId;
  platformTenantId ← match platformTenantId with
                     | Some id => mret (Some id)
                     | None => gets findPlatformTenantId
                     end;
  copied ← match platformTenantId with
           | Some id => if nonempty id then on_statutes (copyPlatformPolicyTemplatesToTenant id tenantId) else mret 0
           | None => mret 0
           end;
  if 0 <? copied then mret {| source := platform_template; policiesCreated := copied |}
  else
    created ← on_statutes (ensureStarterPolicies tenantId);
    mret {| source := builtin_starter; policiesCreated := created |}.
End provisioning.
