(* ===== verification/ProvisionCorrect.v ===== *)
(** * Correctness of the provisioning of policies

    What writing a policy with its rules does to the book of statutes, and what the
    starter policies and the copies of the platform's policies put there. *)

From S2P Require Import Prelude JsString JsValue Jsonb Sql Effects Constants Tenancy Expression Effective Decision Policies PolicyCorrect PolicyRefine PolicySpec Provision.
Local Open Scope string_scope.
Local Open Scope list_scope.
Local Open Scope Z_scope.

Section write.
Context `{Env} `{SqlOrder}.

(** ** Rules and bindings added *)

Lemma inv_add_rule n t r m :
  policies_inv n t -> existsb (rule_conflict r) (rules_table t) = false -> (m < n)%nat -> r_effective_from (rr_row r) = clock m ->
  rr_current r = true -> policies_inv n (set_rules (rules_table t ++ [r]) t).
Proof using Type.
  intros [Hwf Hs] Hc Hm Hfrom Hcur. split; [by apply wf_add_rule|]. intros at_ Hp. apply settled_add_rule; [|done|by apply Hs].
  rewrite Hfrom. by apply Hp.
Qed.

Lemma conflict_free_id r l : existsb (rule_conflict r) l = false -> forall q, q ∈ l -> rr_id q <> rr_id r.
Proof using Type.
  rewrite existsb_none. intros Hc q Hq Hid. specialize (Hc q Hq). unfold rule_conflict in Hc. by rewrite Hid, String.eqb_refl in Hc.
Qed.

(** What the insertion of first versions does. *)
Record added_rules (tenantId : string) (bodies : list create_rule_body) (t : policy_tables) (rules : list rule_record)
    (t' : policy_tables) : Prop := {
  ar_tables : t' = set_rules (rules_table t ++ rules) t;
  ar_rules : Forall2 (fun body r => exists id key m, r = new_rule tenantId body id key (clock m)) bodies rules;
  ar_new r q : r ∈ rules -> q ∈ rules_table t -> rr_id q <> rr_id r;
  ar_book s : current_book t' s <-> current_book t s
}.

Lemma insert_first_rules_inv tenantId bodies n t ids n' t' :
  returns (mapM_ (insert_first_rule tenantId) bodies) (n, t) ids (n', t') -> policies_inv n t ->
  policies_inv n' t' /\ exists rules, ids = map rr_id rules /\ added_rules tenantId bodies t rules t'.
Proof using Type.
  revert n t ids. induction bodies as [|body bodies IH]; intros n t ids Hr Hi; cbn [mapM_] in Hr.
  - apply returns_ret in Hr as [-> [= -> ->]]. split; [done|]. exists []. split; [done|].
    split; [rewrite app_nil_r; by destruct t|constructor|by intros ? ? ?%not_elem_of_nil|done].
  - apply returns_bind in Hr as (id & s1 & Ha & Hr). apply returns_bind in Hr as (ids' & s2 & Hb & Hr).
    apply returns_ret in Hr as [-> <-]. apply returns_bind in Ha as (i & s3 & Hf & Ha). apply returns_fresh in Hf as [-> ->].
    apply returns_bind in Ha as (key & s3 & Hf & Ha). apply returns_fresh in Hf as [-> ->].
    apply returns_bind in Ha as (from & s3 & Hf & Ha). apply returns_now in Hf as [-> ->]. cbn [fst snd] in *.
    apply returns_bind in Ha as (u & s3 & Hf & Ha). apply insert_unique_inv in Hf as [Hc ->]. apply returns_ret in Ha as [-> ->].
    cbn [fst snd] in *. set (r := new_rule tenantId body (uuid n) (uuid (S n)) (clock (S (S n)))) in *.
    assert (Hi1 : policies_inv (S (S (S n))) (set_rules (rules_table t ++ [r]) t)).
    { apply (inv_add_rule _ _ _ (S (S n))); [by apply (inv_monotone n); [lia|]|done|lia|done|done]. }
    apply IH in Hb as (Hi' & rules & -> & [-> Hall Hnew Hbook]); [|done]. split; [done|]. exists (r :: rules). split; [done|].
    cbn in *. rewrite <- app_assoc. split; [done|by constructor; [eexists _, _, _|]| |].
    + intros r0 q [->|Hr0]%elem_of_cons Hq; [by eapply conflict_free_id|]. apply (Hnew r0 q Hr0). apply elem_of_app. by left.
    + intros s. rewrite <- app_assoc in Hbook. cbn in Hbook. rewrite Hbook. apply book_add_rule; [apply Hi|]. by apply conflict_free_id.
Qed.

Section bindings.
Context (t : policy_tables) (Hwf : policies_wf t) (p : policy_record) (Hp : p ∈ policies_table t).
Context (bs : list PolicyRuleBindingClone) (news : list rule_binding_record).
Context (Hnews : Forall2 (fun c b => exists id, b = binding_record (pr_tenant p) (pr_id p) c id) bs news).

Let t' := set_rule_bindings (rule_bindings_table t ++ news) t.

Lemma added_binding_elem b :
  b ∈ news -> exists c id, c ∈ bs /\ b = binding_record (pr_tenant p) (pr_id p) c id.
Proof using Hnews.
  intros Hb. apply list_elem_of_lookup in Hb as [i Hi]. destruct (Forall2_lookup_r _ _ _ _ _ Hnews Hi) as (c & Hc & id & ->).
  exists c, id. split; [|done]. by eapply list_elem_of_lookup_2.
Qed.

Lemma wf_add_bindings :
  unique_rows rule_binding_conflict (rule_bindings_table t ++ news) ->
  (forall c, c ∈ bs -> exists r, r ∈ rules_table t /\ rr_id r = bc_rule_id c /\ rr_tenant_id r = pr_tenant p) ->
  (forall c b, c ∈ bs -> b ∈ rule_bindings_table t -> rbr_rule b <> bc_rule_id c) ->
  policies_wf t'.
Proof using Hwf Hp Hnews.
  intros Hu Hrules Hfree. split; cbn; try apply Hwf; [done|..].
  - intros b [Hb|(c & id & Hc & ->)%added_binding_elem]%elem_of_app; [by apply (pw_policy t Hwf)|by exists p].
  - intros b [Hb|(c & id & Hc & ->)%added_binding_elem]%elem_of_app; [by apply (pw_rule t Hwf)|by apply Hrules].
  - intros b c q r [Hb|(x & id & Hx & ->)%added_binding_elem]%elem_of_app [Hc|(y & id' & Hy & ->)%added_binding_elem]%elem_of_app
      Hq Hr Hbq Hcr Hrule.
    + by apply (pw_one_policy t Hwf b c).
    + by destruct (Hfree y b Hy Hb).
    + by destruct (Hfree x c Hx Hc).
    + cbn in Hbq, Hcr. by rewrite (policy_by_id t Hwf q p), (policy_by_id t Hwf r p).
Qed.

Lemma book_add_bindings s :
  pr_current p = true ->
  current_book t' s <->
  current_book t s \/
  exists c r, c ∈ bs /\ r ∈ rules_table t /\ rr_id r = bc_rule_id c /\ rr_current r = true /\
    s = {| st_policy := face (pr_row p); st_rule := rr_row r; st_enabled := bc_enabled c; st_order := bc_order_index c |}.
Proof using Hwf Hp Hnews.
  intros Hcur. split.
  - intros (q & b & r & Hq & Hqc & [Hb|(c & id & Hc & ->)%added_binding_elem]%elem_of_app & Hbq & Hr & Hrb & Hrc & ->).
    + left. by exists q, b, r.
    + right. exists c, r. cbn in Hbq. by rewrite (policy_by_id t Hwf q p).
  - intros [(q & b & r & Hq & Hqc & Hb & Hbq & Hr & Hrb & Hrc & ->)|(c & r & Hc & Hr & Hrb & Hrc & ->)].
    + exists q, b, r. split_and!; try done. apply elem_of_app. by left.
    + apply list_elem_of_lookup in Hc as [i Hi]. destruct (Forall2_lookup_l _ _ _ _ _ Hnews Hi) as (b & Hb & id & ->).
      exists p, (binding_record (pr_tenant p) (pr_id p) c id), r. split_and!; try done. apply elem_of_app. right.
      by eapply list_elem_of_lookup_2.
Qed.
End bindings.

(** A policy that has no rules is not in the book. *)
Lemma book_add_policy t p s :
  policies_wf t -> existsb (policy_conflict p) (policies_table t) = false ->
  current_book (set_policies (policies_table t ++ [p]) t) s <-> current_book t s.
Proof using Type.
  intros Hwf Hc. unfold current_book. cbn. split; intros (q & b & r & Hq & Hqc & Hb & Hbq & Hr & Hrb & Hrc & ->); exists q, b, r.
  - split_and!; try done. apply elem_of_app in Hq as [Hq|Hq%list_elem_of_singleton]; [done|]. subst q. exfalso.
    destruct (pw_policy t Hwf b Hb) as (q & Hq & Hid & _). rewrite existsb_none in Hc. specialize (Hc q Hq).
    unfold policy_conflict in Hc. by rewrite Hid, Hbq, String.eqb_refl in Hc.
  - split_and!; try done. apply elem_of_app. by left.
Qed.

(** ** A policy with its rules *)

(** What writing a policy with rules, bound as [binding] has it, does. *)
Record wrote (tenantId : string) (new : string -> string -> timestamp -> policy_record) (bodies : list create_rule_body)
    (binding : nat -> string -> PolicyRuleBindingClone) (t : policy_tables) (n' : nat) (t' : policy_tables)
    (p : policy_record) (rules : list rule_record) : Prop := {
  wr_inv : policies_inv n' t';
  wr_policy : exists id key m, p = new id key (clock m);
  wr_new : forall q, q ∈ policies_table t -> pr_key q <> pr_key p /\ pr_id q <> pr_id p;
  wr_policies : policies_table t' = policies_table t ++ [p];
  wr_project_bindings : project_bindings_table t' = project_bindings_table t;
  wr_rules : Forall2 (fun body r => exists id key m, r = new_rule tenantId body id key (clock m)) bodies rules;
  wr_rules_table : rules_table t' = rules_table t ++ rules;
  wr_bindings : exists news, rule_bindings_table t' = rule_bindings_table t ++ news /\
    forall b, b ∈ news -> rbr_policy b = pr_id p /\ rbr_tenant_id b = tenantId;
  wr_book : forall s, current_book t' s <->
    current_book t s \/
    exists i r, rules !! i = Some r /\
      s = {| st_policy := face (pr_row p); st_rule := rr_row r; st_enabled := bc_enabled (binding i (rr_id r));
             st_order := bc_order_index (binding i (rr_id r)) |}
}.

Definition first_version (tenantId : string) (new : string -> string -> timestamp -> policy_record) : Prop :=
  forall id key from, pr_version (new id key from) = 1 /\ p_effective_from (pr_row (new id key from)) = from /\
    pr_current (new id key from) = true /\ pr_tenant (new id key from) = tenantId.

Lemma insert_bindings_ticks tenantId policyId bs : ticks (mapM_ (insert_rule_binding tenantId policyId) bs).
Proof using Type. unfold insert_rule_binding, insert_unique. ticks_walk. Qed.

Lemma bind_rules_inv tenantId bodies binding n t p n' t' us :
  returns (createdRules ← mapM_ (insert_first_rule tenantId) bodies;
           mapM_ (insert_rule_binding tenantId (pr_id p)) (imap binding createdRules)) (n, t) us (n', t') ->
  policies_inv n t -> p ∈ policies_table t -> pr_tenant p = tenantId -> pr_current p = true ->
  (forall i id, bc_rule_id (binding i id) = id) ->
  policies_inv n' t' /\ exists rules news,
    t' = set_rule_bindings (rule_bindings_table t ++ news) (set_rules (rules_table t ++ rules) t) /\
    Forall2 (fun body r => exists id key m, r = new_rule tenantId body id key (clock m)) bodies rules /\
    (forall b, b ∈ news -> rbr_policy b = pr_id p /\ rbr_tenant_id b = tenantId) /\
    forall s, current_book t' s <->
      current_book t s \/
      exists i r, rules !! i = Some r /\
        s = {| st_policy := face (pr_row p); st_rule := rr_row r; st_enabled := bc_enabled (binding i (rr_id r));
               st_order := bc_order_index (binding i (rr_id r)) |}.
Proof using Type.
  intros Hr Hi Hp <- Hcur Hid. apply returns_bind in Hr as (ids & [n1 t1] & Ha & Hb).
  apply insert_first_rules_inv in Ha as (Hi1 & rules & -> & [-> Hall Hnew Hbook]); [|done].
  destruct (returns_keeps _ _ _ _ _ (insert_bindings_ticks _ _ _) Hb I) as [Hle _]. cbn [fst snd] in Hle.
  apply insert_bindings_inv in Hb as (news & Ht & Hnews & Hu). cbn [fst snd] in Ht, Hu. subst t'.
  set (t1 := set_rules (rules_table t ++ rules) t) in *. destruct Hi1 as [Hwf1 Hs1]. specialize (Hu (pw_rule_bindings _ Hwf1)).
  assert (Hbs : forall c, c ∈ imap binding (map rr_id rules) <-> exists i r, rules !! i = Some r /\ c = binding i (rr_id r)).
  { intros c. rewrite list_elem_of_lookup. setoid_rewrite list_lookup_imap. setoid_rewrite list_lookup_fmap. split.
    - intros [i Hc]. destruct (rules !! i) as [r|] eqn:E; [|done]. cbn in Hc. simplify_eq. by exists i, r.
    - intros (i & r & Hr & ->). exists i. by rewrite Hr. }
  assert (Hin : forall i r, rules !! i = Some r -> r ∈ rules_table t1 /\ rr_tenant_id r = pr_tenant p /\ rr_current r = true).
  { intros i r Hl. split; [cbn; apply elem_of_app; right; by eapply list_elem_of_lookup_2|].
    destruct (Forall2_lookup_r _ _ _ _ _ Hall Hl) as (body & _ & id & key & m & ->). done. }
  split.
  - split; [|intros at_ Hpast; destruct (Hs1 at_) as [K1 K2 K3]; [by eapply past_le|by split]].
    eapply (wf_add_bindings t1 Hwf1 p Hp _ news Hnews Hu).
    + intros c (i & r & Hl & ->)%Hbs. exists r. rewrite Hid. by destruct (Hin i r Hl) as (? & ? & _).
    + intros c b (i & r & Hl & ->)%Hbs Hb. rewrite Hid. cbn in Hb. destruct (pw_rule t (proj1 Hi) b Hb) as (q & Hq & <- & _).
      apply (Hnew r q); [by eapply list_elem_of_lookup_2|done].
  - exists rules, news. split; [done|]. split; [done|]. split.
    { intros b (c & id & _ & ->)%(added_binding_elem p _ news Hnews). done. }
    intros s. rewrite (book_add_bindings t1 Hwf1 p Hp _ news Hnews s Hcur), Hbook. apply or_iff_compat_l. split.
    + intros (c & r & (i & q & Hl & ->)%Hbs & Hr & Hrc & Hcr & ->). rewrite Hid in Hrc.
      assert (r = q) as ->. { apply (rule_by_id t1 Hwf1); [done| |done]. by destruct (Hin i q Hl) as (? & _). }
      by exists i, q.
    + intros (i & r & Hl & ->). exists (binding i (rr_id r)), r. rewrite Hid. destruct (Hin i r Hl) as (? & _ & ?).
      split_and!; try done. apply Hbs. by exists i, r.
Qed.
(** The first version of a policy. *)
Lemma create_policy_wrote tenantId new n t p n' t' :
  returns (create_policy new) (n, t) p (n', t') -> first_version tenantId new -> policies_inv n t ->
  policies_inv n' t' /\ t' = set_policies (policies_table t ++ [p]) t /\ (exists id key m, p = new id key (clock m)) /\
  (forall q, q ∈ policies_table t -> pr_key q <> pr_key p /\ pr_id q <> pr_id p) /\
  (forall s, current_book t' s <-> current_book t s).
Proof using Type.
  intros Hr Hnew Hi. assert (Hi' : policies_inv n' t').
  { eapply create_policy_inv; [|exact Hr|exact Hi]. intros id key from. destruct (Hnew id key from) as (? & ? & ? & _). done. }
  split; [done|]. apply returns_bind in Hr as (id & s1 & Hn & Hr). apply returns_fresh in Hn as [-> ->].
  apply returns_bind in Hr as (key & s1 & Hn & Hr). apply returns_fresh in Hn as [-> ->].
  apply returns_bind in Hr as (from & s1 & Hn & Hr). apply returns_now in Hn as [-> ->]. cbn zeta in Hr. cbn [fst snd] in *.
  apply returns_bind in Hr as (u & s1 & Hn & Hr). apply insert_unique_inv in Hn as [Hf ->].
  apply returns_ret in Hr as [Hp Hs]. symmetry in Hp, Hs. injection Hs as <- <-. cbn [fst snd] in *. rewrite Hp in Hf.
  rewrite Hp. split; [done|]. split; [by eexists _, _, _|]. split; [|intros s; apply book_add_policy; [apply Hi|done]].
  rewrite existsb_none in Hf. intros q Hq. split.
  - intros Hk. destruct (pw_first t (proj1 Hi) q Hq) as (f & Hff & Hfk & Hfv). specialize (Hf f Hff). unfold policy_conflict in Hf.
    assert (Hv : pr_version p = 1) by (rewrite <- Hp; apply Hnew).
    rewrite Hfk, Hk, Hfv, Hv, String.eqb_refl, orb_true_r in Hf. done.
  - intros Hid. specialize (Hf q Hq). unfold policy_conflict in Hf. by rewrite Hid, String.eqb_refl in Hf.
Qed.

Lemma write_policy_inv tenantId new bodies binding n t p n1 t1 us n' t' :
  returns (create_policy new) (n, t) p (n1, t1) ->
  returns (createdRules ← mapM_ (insert_first_rule tenantId) bodies;
           mapM_ (insert_rule_binding tenantId (pr_id p)) (imap binding createdRules)) (n1, t1) us (n', t') ->
  first_version tenantId new -> policies_inv n t -> (forall i id, bc_rule_id (binding i id) = id) ->
  exists rules, wrote tenantId new bodies binding t n' t' p rules.
Proof using Type.
  intros Hc Hb Hnew Hi Hid. apply (create_policy_wrote tenantId) in Hc as (Hi1 & -> & Hp & Hfree & Hbook); [|done..].
  assert (Hface : pr_current p = true /\ pr_tenant p = tenantId).
  { destruct Hp as (id & key & m & ->). destruct (Hnew id key (clock m)) as (_ & _ & ? & ?). done. }
  apply bind_rules_inv in Hb as (Hi' & rules & news & -> & Hall & Hpol & Hb); [|done| |by apply Hface..|done].
  2: { cbn. apply elem_of_app. right. by apply list_elem_of_singleton. }
  exists rules. split; try done; cbn; [by exists news|]. intros s. by rewrite Hb, Hbook.
Qed.

(** ** The policies provisioned *)

Lemma starter_first tenantId input : first_version tenantId (starter_policy tenantId input).
Proof using Type. done. Qed.

Lemma copied_first tenantId p : first_version tenantId (copied_policy tenantId p).
Proof using Type. done. Qed.

End write.

(** ** What a tenant without assignments is held to *)

(** A resolved rule says what a statute says. *)
Record alike (r : ResolvedRule) (s : statute) : Prop := {
  al_condition : condition r = r_condition (st_rule s);
  al_action : action r = r_action (st_rule s);
  al_mode : effectiveEnforcementMode r =
    nullish (opt_prop (r_action (st_rule s)) "enforcement_mode") (JStr (pf_enforcement_mode (st_policy s)))
}.

(** The statutes every project of a tenant is held to. *)
Definition general (tenantId : string) (s : statute) : Prop :=
  pf_tenant (st_policy s) = tenantId /\ pf_status (st_policy s) = POLICY_STATUS.ACTIVE /\
  pf_scope (st_policy s) = POLICY_SCOPE.GLOBAL /\ pf_project (st_policy s) = None /\ st_enabled s = true.

(** A project with neither assignments nor policies of its own. *)
Definition plain_project (db : policy_db) (tenantId projectId : string) (at_ : timestamp) : Prop :=
  (forall b, b ∈ policy_project_bindings db -> binding_filter tenantId projectId at_ b = false) /\
  (forall p, p ∈ policies db -> project_policy_filter tenantId projectId at_ p = false).

Lemma global_filter_face tenantId at_ p :
  global_policy_filter tenantId at_ p = true <->
  pf_tenant (face p) = tenantId /\ pf_status (face p) = POLICY_STATUS.ACTIVE /\ pf_scope (face p) = POLICY_SCOPE.GLOBAL /\
  pf_project (face p) = None /\ effective_at (p_effective_from p) (p_effective_to p) at_ = true.
Proof.
  unfold global_policy_filter. rewrite !andb_true_iff, !String.eqb_eq, bool_decide_eq_true. cbn. naive_solver.
Qed.

Lemma resolve_plain p src rb rr rs :
  resolve_rule {| ep_policy := p; ep_source := src; ep_binding := None |} (rb, rr) = Ok rs ->
  exists r, rs = [r] /\ alike r (statute_of p rb rr).
Proof.
  unfold resolve_rule, rule_override. cbn [ep_binding from_option fst snd]. change (getRuleOverride JUndef _) with JNull.
  cbn [opt_prop get_prop strict_eq]. unfold resolved_action, resolved_condition. cbn.
  destruct (get_prop (r_action rr) "enforcement_mode") as [m|] eqn:E; [|done]. cbn. intros [= <-]. eexists. split; [done|].
  split; cbn; [done|done|]. by rewrite (opt_prop_ok _ _ _ E).
Qed.

Section plain.
Context `{SqlOrder} (db : policy_db) (tenantId projectId : string) (at_ : timestamp) (snap : PolicySnapshot).
Context (Hplain : plain_project db tenantId projectId at_).
Context (Hload : loadEffectivePolicy db tenantId projectId at_ = Ok snap).

Lemma plain_unique : bindings_unique db tenantId projectId at_.
Proof using Hplain. intros b b' Hb _ Hf. by rewrite (proj1 Hplain b Hb) in Hf. Qed.

Lemma plain_applicable ep :
  applicable db tenantId projectId at_ ep <->
  exists p, p ∈ policies db /\ global_policy_filter tenantId at_ p = true /\
    ep = {| ep_policy := p; ep_source := src_global; ep_binding := None |}.
Proof using Hplain.
  destruct Hplain as [Hb Hp]. split.
  - intros [p Hin Hf|p Hin Hf _|p b Hin Hf Hbin Hbf]; [by rewrite (Hp p Hin) in Hf|by exists p|by rewrite (Hb b Hbin) in Hbf].
  - intros (p & Hin & Hf & ->). apply applies_global; [done..|]. intros b Hbin Hbf. by rewrite (Hb b Hbin) in Hbf.
Qed.

(** Its effective rules are the statutes in force. *)
Lemma plain_rule_statute r : r ∈ allRules snap -> exists s, book db at_ s /\ general tenantId s /\ alike r s.
Proof using Hplain Hload.
  intros Hr. apply (effective_rules_applicable db tenantId projectId at_ snap r plain_unique Hload) in Hr as (ep & rb & rr & Hep & Hrb & Hrr & Hj & Hp & He & Hw & Hres).
  apply plain_applicable in Hep as (p & Hin & Hf & ->). cbn in Hp. apply resolve_plain in Hres as (r' & [= <-] & Ha).
  apply global_filter_face in Hf as (? & ? & ? & ? & ?). exists (statute_of p rb rr). split; [|split; [|done]].
  - exists p, rb, rr. split_and!; try done.
  - split_and!; done.
Qed.

Lemma plain_statute_rule s : book db at_ s -> general tenantId s -> exists r, r ∈ allRules snap /\ alike r s.
Proof using Hplain Hload.
  intros (p & rb & rr & Hp & Hpe & Hrb & Hpb & Hrr & Hj & Hre & ->) (? & ? & ? & ? & ?).
  assert (Hf : global_policy_filter tenantId at_ p = true) by (by apply global_filter_face).
  set (ep := {| ep_policy := p; ep_source := src_global; ep_binding := None |}).
  assert (Hep : applicable db tenantId projectId at_ ep) by (apply plain_applicable; by exists p).
  assert (Hres : exists rs, resolve_rule ep (rb, rr) = Ok rs).
  { assert (Hl := Hload). apply loadEffectivePolicy_ok in Hl as [Hps _]. cbn zeta in Hps.
    set (rows := group_by _ _) in Hps. apply (effectivePolicies_applicable db tenantId projectId at_ ep plain_unique) in Hep.
    destruct (map_res_ok_elem _ _ _ _ Hps Hep) as [sp Hsp]. unfold resolve_policy in Hsp.
    apply res_bind_ok in Hsp as (resolved & Hres & _). eapply map_res_ok_elem; [exact Hres|].
    unfold rows. rewrite group_by_lookup, elem_of_filter_b, bindingRuleRows_elem_of. cbn. rewrite String.eqb_eq.
    split_and!; try done. rewrite Hpb. apply list_elem_of_fmap. by exists ep. }
  destruct Hres as [rs Hres]. destruct (resolve_plain _ _ _ _ _ Hres) as (r & -> & Ha). exists r. split; [|done].
  apply (effective_rules_applicable db tenantId projectId at_ snap r plain_unique Hload). exists ep, rb, rr. by split_and!.
Qed.
End plain.

(** What a statute blocks. *)
Definition statute_blocks (fields : fields_t) (s : statute) : bool :=
  match evaluateCondition (r_condition (st_rule s)) fields with Ok b => b | Throw _ => false end
  && is_blocking (nullish (opt_prop (r_action (st_rule s)) "type") (JStr "violation"))
       (nullish (opt_prop (r_action (st_rule s)) "enforcement_mode") (JStr (pf_enforcement_mode (st_policy s)))).

Lemma alike_blocks fields r s : alike r s -> rule_matches fields r && rule_blocks r = statute_blocks fields s.
Proof.
  intros [Hc Ha Hm]. unfold rule_matches, rule_blocks, rule_type, action_field, statute_blocks. by rewrite Hc, Ha, Hm.
Qed.

(** The decision on a plain project. *)
Lemma plain_decision `{SqlOrder} db tenantId projectId at_ snap fields ttl mode d :
  plain_project db tenantId projectId at_ -> loadEffectivePolicy db tenantId projectId at_ = Ok snap ->
  evaluatePolicyDecision (allRules snap) fields ttl mode = Ok d ->
  decision d = DECISION_BLOCK <-> exists s, book db at_ s /\ general tenantId s /\ statute_blocks fields s = true.
Proof.
  intros Hplain Hload Hd. rewrite (evaluatePolicyDecision_verdict _ _ _ _ _ Hd), verdict_blocks. split.
  - intros (r & Hr & Hm & Hb). destruct (plain_rule_statute db tenantId projectId at_ snap Hplain Hload r Hr) as (s & Hs & Hg & Ha).
    exists s. split; [done|]. split; [done|]. by rewrite <- (alike_blocks fields r s Ha), Hm, Hb.
  - intros (s & Hs & Hg & Hb). destruct (plain_statute_rule db tenantId projectId at_ snap Hplain Hload s Hs Hg) as (r & Hr & Ha).
    exists r. split; [done|]. rewrite <- (alike_blocks fields r s Ha) in Hb. by apply andb_prop in Hb.
Qed.

(** ** Drafts

    A policy to write, with its rules.  Both loops write those drafts whose names the
    tenant does not have. *)

Record draft := {
  dr_name : string; dr_new : string -> string -> timestamp -> policy_record; dr_bodies : list create_rule_body;
  dr_binding : nat -> string -> PolicyRuleBindingClone
}.

Section drafts.
Context `{Env} `{SqlOrder} (tenantId : string).

(** A policy of the tenant that the draft makes. *)
Definition well_drafted (d : draft) : Prop :=
  first_version tenantId (dr_new d) /\ (forall i id, bc_rule_id (dr_binding d i id) = id) /\
  forall id key from, tenant_policy_named tenantId (dr_name d) (dr_new d id key from) = true.

(** What the writing of a draft states. *)
Definition states (d : draft) (i : nat) (s : statute) : Prop :=
  exists body id key from rid rkey rfrom, dr_bodies d !! i = Some body /\
    s = {| st_policy := face (pr_row (dr_new d id key from)); st_rule := rr_row (new_rule tenantId body rid rkey rfrom);
           st_enabled := bc_enabled (dr_binding d i rid); st_order := bc_order_index (dr_binding d i rid) |}.

Inductive drafted : list draft -> policy_tables -> policy_tables -> list Z -> Prop :=
| drafted_nil t : drafted [] t t []
| drafted_skip d ds t t' ks :
    policy_exists tenantId (dr_name d) t = true -> drafted ds t t' ks -> drafted (d :: ds) t t' (0 :: ks)
| drafted_write d ds t n1 t1 t' p rules ks :
    policy_exists tenantId (dr_name d) t = false ->
    wrote tenantId (dr_new d) (dr_bodies d) (dr_binding d) t n1 t1 p rules ->
    drafted ds t1 t' ks -> drafted (d :: ds) t t' (1 :: ks).

(** A name is taken by the policies there, and those drafted. *)
Lemma policy_exists_spec name t :
  policy_exists tenantId name t = true <-> exists p, p ∈ policies_table t /\ tenant_policy_named tenantId name p = true.
Proof using Type.
  unfold policy_exists. rewrite existsb_exists. split; intros (p & Hp & Hn); exists p; (split; [by apply list_elem_of_In|done]).
Qed.

Lemma named_same n1 n2 p : tenant_policy_named tenantId n1 p = true -> tenant_policy_named tenantId n2 p = true -> n1 = n2.
Proof using Type. unfold tenant_policy_named. rewrite !andb_true_iff, !String.eqb_eq. by intros [_ <-] [_ <-]. Qed.

Lemma wrote_exists d t n1 t1 p rules name :
  well_drafted d -> wrote tenantId (dr_new d) (dr_bodies d) (dr_binding d) t n1 t1 p rules ->
  policy_exists tenantId name t1 = policy_exists tenantId name t || String.eqb name (dr_name d).
Proof using Type.
  intros (_ & _ & Hn) Hw. unfold policy_exists. rewrite (wr_policies _ _ _ _ _ _ _ _ _ Hw), existsb_app. f_equal. cbn.
  rewrite orb_false_r. destruct (wr_policy _ _ _ _ _ _ _ _ _ Hw) as (id & key & m & ->). specialize (Hn id key (clock m)).
  destruct (String.eqb_spec name (dr_name d)) as [->|Hne]; [done|]. apply not_true_iff_false. intros Hn'. apply Hne. by eapply named_same.
Qed.

Lemma drafted_bindings ds t t' ks :
  drafted ds t t' ks -> project_bindings_table t' = project_bindings_table t.
Proof using Type.
  intros Hd. induction Hd as [|d ds t0 t1 ks _ _ IH|d ds t0 n1 t1 t2 p rules ks' _ Hw _ IH]; [done|done|].
  by rewrite IH, (wr_project_bindings _ _ _ _ _ _ _ _ _ Hw).
Qed.

Lemma drafted_inv ds t t' ks n :
  drafted ds t t' ks -> policies_inv n t -> exists n', policies_inv n' t'.
Proof using Type.
  intros Hd. revert n. induction Hd as [|d ds t0 t1 ks _ _ IH|d ds t0 n1 t1 t2 p rules ks' _ Hw _ IH]; intros n Hi; [by exists n|by eapply IH|].
  eapply IH. apply Hw.
Qed.

Lemma drafted_old ds t t' ks s :
  drafted ds t t' ks -> current_book t s -> current_book t' s.
Proof using Type.
  intros Hd. induction Hd as [|d ds t0 t1 ks _ _ IH|d ds t0 n1 t1 t2 p rules ks' _ Hw _ IH]; intros Hs; [done|by apply IH|].
  apply IH. apply Hw. by left.
Qed.

Lemma drafted_old_policy ds t t' ks p :
  drafted ds t t' ks -> p ∈ policies_table t -> p ∈ policies_table t'.
Proof using Type.
  intros Hd. induction Hd as [|d ds t0 t1 ks _ _ IH|d ds t0 n1 t1 t2 q rules ks' _ Hw _ IH]; intros Hs; [done|by apply IH|].
  apply IH. rewrite (wr_policies _ _ _ _ _ _ _ _ _ Hw). apply elem_of_app. by left.
Qed.

Lemma drafted_policy ds t t' ks p :
  drafted ds t t' ks -> p ∈ policies_table t' -> p ∈ policies_table t \/ exists d id key from, d ∈ ds /\ p = dr_new d id key from.
Proof using Type.
  intros Hd. induction Hd as [|d ds t0 t1 ks _ _ IH|d ds t0 n1 t1 t2 q rules ks' _ Hw _ IH]; intros Hp; [by left| |].
  - destruct (IH Hp) as [|(d' & id & key & from & Hd' & ->)]; [by left|right]. exists d', id, key, from. split; [by right|done].
  - destruct (IH Hp) as [Hq|(d' & id & key & from & Hd' & ->)]; [|right; exists d', id, key, from; split; [by right|done]].
    rewrite (wr_policies _ _ _ _ _ _ _ _ _ Hw) in Hq. apply elem_of_app in Hq as [|Hq%list_elem_of_singleton]; [by left|right].
    destruct (wr_policy _ _ _ _ _ _ _ _ _ Hw) as (id & key & m & ->). exists d, id, key, (clock m). split; [by left|done].
Qed.

Lemma drafted_rule ds t t' ks r :
  drafted ds t t' ks -> r ∈ rules_table t' ->
  r ∈ rules_table t \/ exists d body id key from, d ∈ ds /\ body ∈ dr_bodies d /\ r = new_rule tenantId body id key from.
Proof using Type.
  intros Hd. induction Hd as [|d ds t0 t1 ks _ _ IH|d ds t0 n1 t1 t2 q rules ks' _ Hw _ IH]; intros Hr; [by left| |].
  - destruct (IH Hr) as [|(d' & body & id & key & from & Hd' & Hr')]; [by left|right]. exists d', body, id, key, from. split; [by right|done].
  - destruct (IH Hr) as [Hq|(d' & body & id & key & from & Hd' & Hr')]; [|right; exists d', body, id, key, from; split; [by right|done]].
    rewrite (wr_rules_table _ _ _ _ _ _ _ _ _ Hw) in Hq. apply elem_of_app in Hq as [|Hq]; [by left|right].
    apply list_elem_of_lookup in Hq as [i Hi].
    destruct (Forall2_lookup_r _ _ _ _ _ (wr_rules _ _ _ _ _ _ _ _ _ Hw) Hi) as (body & Hb & rid & rkey & m & ->).
    exists d, body, rid, rkey, (clock m). split; [by left|]. split; [by eapply list_elem_of_lookup_2|done].
Qed.

(** The statutes written are those of the drafts. *)
Lemma drafted_new ds t t' ks s :
  drafted ds t t' ks -> current_book t' s -> current_book t s \/ exists d i, d ∈ ds /\ states d i s.
Proof using Type.
  intros Hd. induction Hd as [|d ds t0 t1 ks _ _ IH|d ds t0 n1 t1 t2 p rules ks' _ Hw _ IH]; intros Hs; [by left| |].
  - destruct (IH Hs) as [|(d' & i & Hd' & Hst)]; [by left|right]. exists d', i. split; [by right|done].
  - destruct (IH Hs) as [Hb|(d' & i & Hd' & Hst)]; [|right; exists d', i; split; [by right|done]].
    apply Hw in Hb as [|(i & r & Hr & ->)]; [by left|right]. exists d, i. split; [by left|].
    destruct (Forall2_lookup_r _ _ _ _ _ (wr_rules _ _ _ _ _ _ _ _ _ Hw) Hr) as (body & Hb & rid & rkey & m & ->).
    destruct (wr_policy _ _ _ _ _ _ _ _ _ Hw) as (id & key & m' & ->). by eexists body, id, key, _, rid, rkey, _.
Qed.

(** After them every name is taken. *)
Lemma drafted_exists ds t t' ks name :
  drafted ds t t' ks -> Forall well_drafted ds -> policy_exists tenantId name t' = policy_exists tenantId name t || existsb (fun d => String.eqb name (dr_name d)) ds.
Proof using Type.
  intros Hd. induction Hd as [|d ds' t0 t1 ks' Hx _ IH|d ds' t0 n1 t1 t2 p rules ks' Hx Hw _ IH]; intros Hok; cbn [existsb]; [by rewrite orb_false_r|..];
    inversion Hok as [|? ? Hd1 Hok']; subst; rewrite IH by done.
  - destruct (String.eqb_spec name (dr_name d)) as [->|]; [|done]. by rewrite Hx.
  - rewrite (wrote_exists _ _ _ _ _ _ name Hd1 Hw). by rewrite orb_assoc.
Qed.

(** The drafts whose names are free are written, and counted. *)
Lemma drafted_has ds t t' ks d i :
  drafted ds t t' ks -> Forall well_drafted ds -> NoDup (map dr_name ds) -> d ∈ ds -> policy_exists tenantId (dr_name d) t = false -> (i < length (dr_bodies d))%nat ->
  exists s, current_book t' s /\ states d i s.
Proof using Type.
  intros Hd. induction Hd as [|d0 ds' t0 t1 ks' Hx _ IH|d0 ds' t0 n1 t1 t2 p rules ks' Hx Hw Hd' IH]; intros Hok Hnames; [by intros ?%not_elem_of_nil|..];
    inversion Hok as [|? ? Hd1 Hok']; subst; apply NoDup_cons in Hnames as [Hn Hnames'];
    intros [->|Hin]%elem_of_cons Hf Hi; [congruence|by apply IH| |].
  - destruct (lookup_lt_is_Some_2 _ _ Hi) as [body Hb].
    destruct (Forall2_lookup_l _ _ _ _ _ (wr_rules _ _ _ _ _ _ _ _ _ Hw) Hb) as (r & Hr & rid & rkey & m & Hrule).
    destruct (wr_policy _ _ _ _ _ _ _ _ _ Hw) as (id & key & m' & Hp). eexists. split.
    + eapply drafted_old; [exact Hd'|]. apply Hw. right. exists i, r. split; [exact Hr|reflexivity].
    + rewrite Hrule, Hp. by eexists body, id, key, _, rid, rkey, _.
  - apply IH; [done..| |done]. rewrite (wrote_exists _ _ _ _ _ _ _ Hd1 Hw), Hf. cbn. apply String.eqb_neq. intros He. apply Hn.
    rewrite <- He. by apply list_elem_of_fmap_2.
Qed.

Lemma drafted_count ds t t' ks :
  drafted ds t t' ks -> Forall well_drafted ds -> NoDup (map dr_name ds) -> ks = map (fun d => if policy_exists tenantId (dr_name d) t then 0 else 1) ds.
Proof using Type.
  intros Hd. induction Hd as [|d0 ds' t0 t1 ks' Hx _ IH|d0 ds' t0 n1 t1 t2 p rules ks' Hx Hw Hd' IH]; intros Hok Hnames; [done|..];
    inversion Hok as [|? ? Hd1 Hok']; subst; apply NoDup_cons in Hnames as [Hn Hnames']; cbn; rewrite Hx; f_equal; [by apply IH|].
  rewrite IH by done. apply map_ext_in. intros d Hin. rewrite (wrote_exists _ _ _ _ _ _ _ Hd1 Hw).
  destruct (String.eqb_spec (dr_name d) (dr_name d0)) as [He|]; [|by rewrite orb_false_r]. destruct Hn. rewrite <- He.
  apply list_elem_of_fmap_2. by apply list_elem_of_In.
Qed.

(** ** The starter policies *)

Definition starter_draft (input : StarterPolicyDefinition) : draft :=
  {| dr_name := spd_name input; dr_new := starter_policy tenantId input;
     dr_bodies := map starter_rule_values (spd_rules input); dr_binding := starter_binding |}.

Lemma starter_well input : well_drafted (starter_draft input).
Proof using Type.
  split; [apply starter_first|]. split; [done|]. intros id key from. unfold tenant_policy_named. cbn. by rewrite !String.eqb_refl.
Qed.

Lemma starters_drafted inputs n t ks n' t' :
  returns (mapM_ (ensureStarterPolicy tenantId) inputs) (n, t) ks (n', t') -> policies_inv n t ->
  drafted (map starter_draft inputs) t t' ks /\ policies_inv n' t'.
Proof using Type.
  revert n t ks. induction inputs as [|input inputs IH]; intros n t ks Hr Hi; cbn [mapM_ map] in *.
  - apply returns_ret in Hr as [-> [= -> ->]]. split; [constructor|done].
  - apply returns_bind in Hr as (k & [n1 t1] & Ha & Hr). apply returns_bind in Hr as (ks' & s2 & Hb & Hr).
    apply returns_ret in Hr as [-> <-]. apply returns_bind in Ha as (ex & s1 & Hg & Ha). apply returns_gets in Hg as [-> ->].
    cbn [snd] in Ha. destruct (policy_exists tenantId (spd_name input) t) eqn:E.
    + apply returns_ret in Ha as [-> [= -> ->]]. destruct (IH _ _ _ Hb Hi) as [Hd Hi']. split; [by apply drafted_skip|done].
    + apply returns_bind in Ha as (p & [n2 t2] & Hc & Ha). apply returns_bind in Ha as (ids & s3 & Hrules & Ha).
      apply returns_bind in Ha as (us & s4 & Hbs & Ha). apply returns_ret in Ha as [-> <-].
      assert (Hw : exists rules, wrote tenantId (starter_policy tenantId input) (map starter_rule_values (spd_rules input)) starter_binding t n1 t1 p rules).
      { eapply write_policy_inv; [exact Hc| |apply starter_first|exact Hi|done].
        apply returns_bind. exists ids, s3. split; [|exact Hbs]. by rewrite <- mapM_map. }
      destruct Hw as [rules Hw]. destruct (IH _ _ _ Hb) as [Hd Hi']; [apply Hw|]. split; [|done].
      by eapply (drafted_write (starter_draft input)).
Qed.

Lemma ensureStarterPolicies_drafted n t k n' t' :
  returns (ensureStarterPolicies tenantId) (n, t) k (n', t') -> policies_inv n t ->
  exists ks, k = sum ks /\ drafted (map starter_draft STARTER_POLICY_DEFINITIONS) t t' ks /\ policies_inv n' t'.
Proof using Type.
  intros Hr Hi. apply returns_bind in Hr as (ks & s1 & Hl & Hr). apply returns_ret in Hr as [-> <-].
  exists ks. split; [done|]. by eapply starters_drafted.
Qed.

(** ** Copies of the platform's policies *)

Context (platformTenantId : string) (Hother : platformTenantId <> tenantId).

Definition copy_draft (t : policy_tables) (templatePolicy : policy_record) : draft :=
  let templateRules := template_rules platformTenantId (pr_id templatePolicy) t in
  {| dr_name := p_name (pr_row templatePolicy); dr_new := copied_policy tenantId templatePolicy;
     dr_bodies := map (fun row => copied_rule_values row.2) templateRules; dr_binding := copied_binding templateRules |}.

Lemma copy_well t p : well_drafted (copy_draft t p).
Proof using Type.
  split; [apply copied_first|]. split; [done|]. intros id key from. unfold tenant_policy_named. cbn. by rewrite !String.eqb_refl.
Qed.

(** Writing for a tenant leaves the templates as they are. *)
Lemma template_rules_kept new bodies binding t n' t' p rules policyId :
  wrote tenantId new bodies binding t n' t' p rules ->
  template_rules platformTenantId policyId t' = template_rules platformTenantId policyId t.
Proof using Hother.
  intros Hw. unfold template_rules. f_equal. rewrite (wr_rules_table _ _ _ _ _ _ _ _ _ Hw).
  destruct (wr_bindings _ _ _ _ _ _ _ _ _ Hw) as (news & -> & Hn). apply inner_join_app.
  - intros b r Hb. cbn. rewrite (proj2 (Hn b Hb)). by rewrite (proj2 (String.eqb_neq _ _)) by done.
  - intros b r Hr. cbn. apply list_elem_of_lookup in Hr as [i Hi].
    destruct (Forall2_lookup_r _ _ _ _ _ (wr_rules _ _ _ _ _ _ _ _ _ Hw) Hi) as (body & _ & id & key & m & ->). cbn.
    rewrite (proj2 (String.eqb_neq tenantId platformTenantId)) by done. by rewrite !andb_false_r.
Qed.

Lemma copies_drafted t0 templates n t ks n' t' :
  returns (mapM_ (copyTemplate platformTenantId tenantId) templates) (n, t) ks (n', t') -> policies_inv n t ->
  (forall policyId, template_rules platformTenantId policyId t = template_rules platformTenantId policyId t0) ->
  drafted (map (copy_draft t0) templates) t t' ks /\ policies_inv n' t'.
Proof using Hother.
  revert n t ks. induction templates as [|tp templates IH]; intros n t ks Hr Hi Hk; cbn [mapM_ map] in *.
  - apply returns_ret in Hr as [-> [= -> ->]]. split; [constructor|done].
  - apply returns_bind in Hr as (k & [n1 t1] & Ha & Hr). apply returns_bind in Hr as (ks' & s2 & Hb & Hr).
    apply returns_ret in Hr as [-> <-]. apply returns_bind in Ha as (ex & s1 & Hg & Ha). apply returns_gets in Hg as [-> ->].
    cbn [snd] in Ha. destruct (policy_exists tenantId (p_name (pr_row tp)) t) eqn:E.
    + apply returns_ret in Ha as [-> [= -> ->]]. destruct (IH _ _ _ Hb Hi Hk) as [Hd Hi']. split; [by apply drafted_skip|done].
    + apply returns_bind in Ha as (p & [n2 t2] & Hc & Ha). apply returns_bind in Ha as (trs & s3 & Hg & Ha).
      apply returns_gets in Hg as [-> ->]. cbn [snd] in Ha.
      assert (Ht2 : template_rules platformTenantId (pr_id tp) t2 = template_rules platformTenantId (pr_id tp) t0).
      { destruct (create_policy_wrote tenantId _ _ _ _ _ _ Hc (copied_first tenantId tp) Hi) as (_ & -> & _). apply Hk. }
      rewrite Ht2 in Ha. apply returns_bind in Ha as (ids & s3 & Hrules & Ha).
      apply returns_bind in Ha as (us & s4 & Hbs & Ha). apply returns_ret in Ha as [-> <-].
      assert (Hw : exists rules, wrote tenantId (dr_new (copy_draft t0 tp)) (dr_bodies (copy_draft t0 tp)) (dr_binding (copy_draft t0 tp)) t n1 t1 p rules).
      { eapply write_policy_inv; [exact Hc| |apply copied_first|exact Hi|done].
        apply returns_bind. exists ids, s3. split; [|exact Hbs]. cbn. by rewrite <- mapM_map. }
      destruct Hw as [rules Hw]. destruct (IH _ _ _ Hb) as [Hd Hi'];
        [apply Hw|intros policyId; by rewrite (template_rules_kept _ _ _ _ _ _ _ _ _ Hw)|].
      split; [|done]. by eapply (drafted_write (copy_draft t0 tp)).
Qed.

Lemma copy_drafted n t k n' t' :
  returns (copyPlatformPolicyTemplatesToTenant platformTenantId tenantId) (n, t) k (n', t') -> policies_inv n t ->
  exists ks, k = sum ks /\ policies_inv n' t' /\
    drafted (map (copy_draft t) (template_policies platformTenantId (clock n) t)) t t' ks.
Proof using Hother.
  intros Hr Hi. unfold copyPlatformPolicyTemplatesToTenant in Hr. rewrite (proj2 (String.eqb_neq _ _) Hother) in Hr.
  apply returns_bind in Hr as (now & s1 & Hn & Hr). apply returns_now in Hn as [-> ->].
  apply returns_bind in Hr as (tps & s1 & Hg & Hr). apply returns_gets in Hg as [-> ->]. cbn [fst snd] in Hr.
  apply returns_bind in Hr as (ks & s1 & Hl & Hr). apply returns_ret in Hr as [-> <-]. exists ks. split; [done|].
  apply (copies_drafted t) in Hl as [Hd Hi']; [done|by apply (inv_monotone n); [lia|]|done].
Qed.
End drafts.
