(* ===== verification/ProvisionSpec.v ===== *)
(** * What provisioning promises

    A new tenant is protected from its first request: with the starter policies its
    gate blocks what [starter_blocks] says and nothing else, and with copies of the
    platform's policies it decides as the platform tenant does. *)

From S2P Require Import Prelude JsString JsNum JsValue Jsonb Sql Effects Constants Tenancy Expression Effective Decision Policies PolicyCorrect PolicyRefine PolicySpec Provision ProvisionCorrect.
Local Open Scope string_scope.
Local Open Scope list_scope.
Local Open Scope Z_scope.

(** ** Specification *)

(** What the starter policies are meant to block. *)
Definition starter_blocks (fields : fields_t) : bool :=
  let field key := field_get fields key in
  let present v := negb (is_nullish v) in
  (present (field "asset.version_age_days") && js_lt (field "asset.version_age_days") (JInt 7))
  || match field "source.osv._meta.status" with
     | JStr s => existsb (String.eqb s) ["background_pending"; "unavailable"; "error"]
     | _ => false
     end
  || (present (field "source.osv.critical_count") && js_gt (field "source.osv.critical_count") (JInt 0))
  || (present (field "source.osv.high_count") && js_gt (field "source.osv.high_count") (JInt 0))
  || (present (field "source.contributor.contributor_risk_score")
      && js_ge (field "source.contributor.contributor_risk_score") (JInt 80)).

(** A tenant nothing is known of. *)
Definition blank_tenant (tenantId : string) (t : policy_tables) : Prop :=
  (forall p, p ∈ policies_table t -> pr_tenant p <> tenantId) /\
  (forall b, b ∈ project_bindings_table t -> b_tenant_id (pbr_row b) <> tenantId).

Definition actions_present (t : policy_tables) : Prop := forall r, r ∈ rules_table t -> is_nullish (r_action (rr_row r)) = false.

(** The rules a tenant's current policies bind are in force. *)
Definition bound_in_force (tenantId : string) (t : policy_tables) : Prop :=
  forall p b r, p ∈ policies_table t -> pr_current p = true -> pr_tenant p = tenantId -> b ∈ rule_bindings_table t ->
    rbr_policy b = pr_id p -> r ∈ rules_table t -> rr_id r = rbr_rule b -> rr_current r = true.

(** A JSON column reads back as it was written. *)
Definition stored (t : policy_tables) : Prop :=
  forall r, r ∈ rules_table t -> jsonb (r_condition (rr_row r)) = r_condition (rr_row r) /\ jsonb (r_action (rr_row r)) = r_action (rr_row r).

(** ** Lemmas *)

Definition starter_rules : list StarterPolicyRule := STARTER_POLICY_DEFINITIONS ≫= spd_rules.

Lemma starter_rule_of input i rule :
  input ∈ STARTER_POLICY_DEFINITIONS -> spd_rules input !! i = Some rule -> rule ∈ starter_rules.
Proof. intros Hin Hi. apply list_elem_of_bind. exists input. split; [by eapply list_elem_of_lookup_2|done]. Qed.

Lemma starter_rule_in rule : rule ∈ starter_rules -> exists input i, input ∈ STARTER_POLICY_DEFINITIONS /\ spd_rules input !! i = Some rule.
Proof. intros (input & Hr & Hin)%list_elem_of_bind. apply list_elem_of_lookup in Hr as [i Hi]. by exists input, i. Qed.

(** What a leaf says once stored. *)
Lemma leaf_stored field operator value fields :
  is_dropped value = false ->
  evaluateCondition (jsonb (leaf_condition field operator value)) fields =
  Ok (evaluateLeaf (nullish (field_get fields field) JNull) (JStr operator) (jsonb value)).
Proof.
  intros Hv. unfold leaf_condition. rewrite jsonb_obj.
  assert (Hf : jsonb_fields [("field", JStr field); ("operator", JStr operator); ("value", value)]
               = [("field", JStr field); ("value", jsonb value); ("operator", JStr operator)]).
  { unfold jsonb_fields. cbn [omap list_omap jsonb_pair is_dropped]. rewrite Hv. reflexivity. }
  rewrite Hf. reflexivity.
Qed.

Lemma nullish_null (v : jsval) : is_nullish (nullish v JNull) = is_nullish v.
Proof. unfold nullish. destruct (is_nullish v) eqn:E; [done|exact E]. Qed.

Lemma same_value_str s v : same_value_zero (JStr s) v = match v with JStr s' => String.eqb s' s | _ => false end.
Proof. destruct v; try done. cbn. apply String.eqb_sym. Qed.

Definition starter_rule_blocks (fields : fields_t) (rule : StarterPolicyRule) : bool :=
  match evaluateCondition (jsonb (spr_condition rule)) fields with Ok b => b | Throw _ => false end.

Lemma leaf_order_field v cv :
  evaluateLeaf (nullish v JNull) (JStr "lt") cv = negb (is_nullish v) && js_lt v cv /\
  evaluateLeaf (nullish v JNull) (JStr "gt") cv = negb (is_nullish v) && js_gt v cv /\
  evaluateLeaf (nullish v JNull) (JStr "gte") cv = negb (is_nullish v) && js_ge v cv.
Proof. unfold evaluateLeaf. cbn. rewrite nullish_null. unfold nullish. by destruct (is_nullish v). Qed.

Lemma leaf_in_strings v l :
  evaluateLeaf (nullish v JNull) (JStr "in") (JArr (map JStr l)) =
  match v with JStr s => existsb (String.eqb s) l | _ => false end.
Proof.
  assert (He : forall w, is_nullish w = false ->
    existsb (fun x => same_value_zero x w) (map JStr l) = match w with JStr s => existsb (String.eqb s) l | _ => false end).
  { intros w _. induction l as [|s l IH]; cbn [map existsb]; [by destruct w|]. rewrite IH, same_value_str. by destruct w. }
  unfold evaluateLeaf. cbn [is_op strict_eq]. cbn. rewrite nullish_null. destruct (is_nullish v) eqn:E; [by destruct v|].
  rewrite nullish_some by done. by apply He.
Qed.

Lemma starter_rules_block fields : existsb (starter_rule_blocks fields) starter_rules = starter_blocks fields.
Proof.
  unfold starter_rules. cbn [STARTER_POLICY_DEFINITIONS mbind list_bind spd_rules app existsb]. unfold starter_rule_blocks.
  unfold cooling_rule, osv_unavailable_rule, critical_rule, high_rule, contributor_rule. cbn [spr_condition].
  rewrite !leaf_stored by reflexivity. unfold starter_blocks.
  change (jsonb (JArr [JStr "background_pending"; JStr "unavailable"; JStr "error"]))
    with (JArr (map JStr ["background_pending"; "unavailable"; "error"])).
  unfold DEFAULT_VERSION_COOLING_PERIOD_DAYS. rewrite !jsonb_int by (unfold exact_int; lia).
  rewrite leaf_in_strings. rewrite (proj1 (leaf_order_field _ _)), !(proj1 (proj2 (leaf_order_field _ _))), (proj2 (proj2 (leaf_order_field _ _))).
  by rewrite orb_false_r, !orb_assoc.
Qed.

(** The condition and the action of a starter rule. *)
Definition says (rule : StarterPolicyRule) (s : statute) : Prop :=
  r_condition (st_rule s) = jsonb (spr_condition rule) /\ r_action (st_rule s) = jsonb (spr_action rule).

Lemma starter_action_stored rule :
  rule ∈ starter_rules ->
  exists kvs template, jsonb (spr_action rule) = JObj kvs /\ own "message_template" kvs = Some (JStr template) /\
    own "type" kvs = Some (JStr "violation") /\ own "enforcement_mode" kvs = Some (JStr "enforcing").
Proof.
  intros Hr. repeat (apply elem_of_cons in Hr as [->|Hr]; [by eexists _, _; split_and!; reflexivity|]). by apply not_elem_of_nil in Hr.
Qed.

Lemma starter_condition_runs rule fields : rule ∈ starter_rules -> is_ok (evaluateCondition (jsonb (spr_condition rule)) fields) = true.
Proof. intros Hr. repeat (apply elem_of_cons in Hr as [->|Hr]; [reflexivity|]). by apply not_elem_of_nil in Hr. Qed.

Lemma says_blocks rule s fields :
  rule ∈ starter_rules -> says rule s -> statute_blocks fields s = starter_rule_blocks fields rule.
Proof.
  intros (kvs & template & Ha & _ & Ht & Hm)%starter_action_stored [Hc Hact]. unfold statute_blocks, starter_rule_blocks.
  rewrite Hc, Hact, Ha. unfold opt_prop. rewrite (get_prop_obj_own _ _ _ Ht), (get_prop_obj_own _ _ _ Hm). cbn. apply andb_true_r.
Qed.

Lemma says_runs rule s r fields : rule ∈ starter_rules -> says rule s -> alike r s -> runs fields r.
Proof.
  intros Hr [Hc Hact] [Hrc Hra _]. destruct (starter_action_stored rule Hr) as (kvs & template & Ha & Hm & _).
  split; [rewrite Hrc, Hc; by apply starter_condition_runs|]. exists kvs. rewrite Hra, Hact, Hm. done.
Qed.

Lemma nth_error_lookup {A} (l : list A) i : nth_error l i = l !! i.
Proof. revert i. induction l as [|x l IH]; intros [|i]; cbn; auto. Qed.

(** A project of a tenant without assignments and policies of projects. *)
Lemma plain_tenant t tenantId projectId at_ :
  (forall b, b ∈ project_bindings_table t -> b_tenant_id (pbr_row b) <> tenantId) ->
  (forall p, p ∈ policies_table t -> pr_tenant p = tenantId -> p_scope (pr_row p) = POLICY_SCOPE.GLOBAL) ->
  plain_project (loaded t) tenantId projectId at_.
Proof.
  intros Hb Hp. split.
  - intros b (b' & -> & Hin)%list_elem_of_fmap. unfold binding_filter. by rewrite (proj2 (String.eqb_neq _ _) (Hb b' Hin)).
  - intros p (p' & -> & Hin)%list_elem_of_fmap. unfold project_policy_filter. destruct (String.eqb_spec (p_tenant_id (pr_row p')) tenantId) as [Ht|]; [|done].
    rewrite (Hp p' Hin Ht). cbn. by rewrite andb_false_r.
Qed.

Lemma blank_book t tenantId s : blank_tenant tenantId t -> current_book t s -> pf_tenant (st_policy s) <> tenantId.
Proof. intros [Hp _] (p & b & r & Hin & _ & _ & _ & _ & _ & _ & ->). by apply Hp. Qed.

Lemma blank_name t tenantId name : blank_tenant tenantId t -> policy_exists tenantId name t = false.
Proof.
  intros [Hp _]. apply existsb_none. intros p Hin. unfold tenant_policy_named.
  by rewrite (proj2 (String.eqb_neq _ _) (Hp p Hin)).
Qed.

Section spec.
Context `{Env} `{SqlOrder}.

Lemma drafted_zero tenantId ds t t' ks : drafted tenantId ds t t' ks -> 0 <= sum ks /\ (sum ks <= 0 -> t' = t).
Proof using Type.
  unfold sum. induction 1 as [|d ds t t' ks Hx _ [IH1 IH2]|d ds t n1 t1 t' p rules ks Hx Hw _ [IH1 IH2]]; cbn [foldr]; [done|..].
  - split; [lia|]. intros Hz. apply IH2. lia.
  - split; lia.
Qed.

Section starters.
Context (tenantId : string) (t t' : policy_tables) (ks : list Z).
Context (Hd : drafted tenantId (map (starter_draft tenantId) STARTER_POLICY_DEFINITIONS) t t' ks).
Context (Hblank : blank_tenant tenantId t).

Lemma starter_names : NoDup (map dr_name (map (starter_draft tenantId) STARTER_POLICY_DEFINITIONS)).
Proof using Type. apply (bool_decide_unpack _). vm_compute. exact I. Qed.

Lemma starters_well : Forall (well_drafted tenantId) (map (starter_draft tenantId) STARTER_POLICY_DEFINITIONS).
Proof using Type. apply Forall_forall. intros d (input & -> & _)%list_elem_of_fmap. apply starter_well. Qed.

Lemma starter_states input i s :
  input ∈ STARTER_POLICY_DEFINITIONS -> states tenantId (starter_draft tenantId input) i s ->
  general tenantId s /\ exists rule, spd_rules input !! i = Some rule /\ says rule s.
Proof using Type.
  intros Hin (body & id & key & from & rid & rkey & rfrom & Hb & ->). cbn in Hb. rewrite list_lookup_fmap in Hb.
  destruct (spd_rules input !! i) as [rule|] eqn:E; [|done]. cbn in Hb. injection Hb as <-. split; [done|]. by exists rule.
Qed.

(** The tenant's statutes are the starter rules. *)
Lemma starters_say s :
  current_book t' s -> pf_tenant (st_policy s) = tenantId -> general tenantId s /\ exists rule, rule ∈ starter_rules /\ says rule s.
Proof using Hd Hblank.
  intros Hs Ht. apply (drafted_new _ _ _ _ _ _ Hd) in Hs as [Hs|(d & i & (input & -> & Hin)%list_elem_of_fmap & Hst)];
    [by apply (blank_book _ tenantId) in Hs|].
  apply starter_states in Hst as [Hg (rule & Hr & Hsay)]; [|done]. split; [done|]. exists rule. split; [by eapply starter_rule_of|done].
Qed.

Lemma starters_said rule : rule ∈ starter_rules -> exists s, current_book t' s /\ general tenantId s /\ says rule s.
Proof using Hd Hblank.
  intros (input & i & Hin & Hi)%starter_rule_in.
  destruct (drafted_has _ _ _ _ _ (starter_draft tenantId input) i Hd starters_well starter_names) as (s & Hs & Hst).
  - by apply list_elem_of_fmap_2.
  - by apply blank_name.
  - cbn. rewrite length_map. by eapply lookup_lt_Some.
  - apply starter_states in Hst as [Hg (rule' & Hr & Hsay)]; [|done]. simplify_eq. by exists s.
Qed.

Lemma starters_gate n projectId at_ fields ttl mode snap :
  policies_inv n t' -> past n at_ -> at_ < VALID_TO_INFINITY ->
  loadEffectivePolicy (loaded t') tenantId projectId at_ = Ok snap ->
  exists d, evaluatePolicyDecision (allRules snap) fields ttl mode = Ok d /\
    (decision d = DECISION_BLOCK <-> starter_blocks fields = true).
Proof using Hd Hblank.
  intros [Hwf Hs] Hp Hat Hl. specialize (Hs at_ Hp).
  assert (Hplain : plain_project (loaded t') tenantId projectId at_).
  { apply plain_tenant; [rewrite (drafted_bindings _ _ _ _ _ Hd); apply Hblank|].
    intros p Hin Ht. apply (drafted_policy _ _ _ _ _ _ Hd) in Hin as [Hin|(d & id & key & from & (input & -> & _)%list_elem_of_fmap & ->)]; [|done].
    by destruct (proj1 Hblank p Hin). }
  assert (Hruns : Forall (runs fields) (allRules snap)).
  { apply Forall_forall. intros r Hr. destruct (plain_rule_statute _ _ _ _ _ Hplain Hl r Hr) as (s & Hb & [Ht _] & Ha).
    apply (book_current t' at_ s Hs Hat) in Hb. destruct (starters_say s Hb Ht) as (_ & rule & Hrule & Hsay). by eapply says_runs. }
  destruct (decision_total (allRules snap) fields ttl mode Hruns) as [d Hdec]. exists d. split; [done|].
  rewrite (plain_decision _ _ _ _ _ _ _ _ _ Hplain Hl Hdec), <- starter_rules_block, existsb_exists. split.
  - intros (s & Hb & [Ht _] & Hblock). apply (book_current t' at_ s Hs Hat) in Hb.
    destruct (starters_say s Hb Ht) as (_ & rule & Hrule & Hsay). exists rule. split; [by apply list_elem_of_In|].
    by rewrite <- (says_blocks rule s).
  - intros (rule & Hrule%list_elem_of_In & Hblock). destruct (starters_said rule Hrule) as (s & Hb & Hg & Hsay).
    exists s. rewrite (book_current t' at_ s Hs Hat). split; [done|]. split; [done|]. by rewrite (says_blocks rule s).
Qed.
End starters.

(** ** The defaults of a tenant *)

(** The tenant whose policies are copied. *)
Definition template_tenant (platformTenantId : option string) (db : accounts_db) : option string :=
  match platformTenantId with Some id => Some id | None => findPlatformTenantId db end.

Lemma entitlements_inv tenantId s u s' :
  returns (ensureTenantEntitlements tenantId) s u s' ->
  s'.1 = s.1 /\ tenants s'.2 = tenants s.2 /\ ac_memberships s'.2 = ac_memberships s.2 /\ ac_policies s'.2 = ac_policies s.2 /\
  (exists e, e ∈ ac_entitlements s'.2 /\ te_tenant_id (er_row e) = tenantId) /\
  (ac_entitlements s'.2 = ac_entitlements s.2 \/
   ac_entitlements s'.2 = ac_entitlements s.2 ++ [default_entitlements tenantId]).
Proof using Type.
  intros Hr. apply returns_bind in Hr as (ex & s1 & Hg & Hr). apply returns_gets in Hg as [-> ->]. run_if E.
  - apply returns_ret in Hr as [_ ->]. split_and!; try done; [|by left]. apply existsb_exists in E as (e & He%list_elem_of_In & Ht%String.eqb_eq). by exists e.
  - apply insert_unique_inv in Hr as [_ ->]. split_and!; try done; [|by right]. exists (default_entitlements tenantId). split; [|done].
    cbn. apply elem_of_app. right. by apply list_elem_of_singleton.
Qed.

Lemma on_statutes_inv {A} (e : PM A) s a s' :
  returns (on_statutes e) s a s' ->
  exists t', returns e (s.1, ac_policies s.2) a (s'.1, t') /\ s'.2 = set_ac_policies t' s.2.
Proof using Type. intros ([n t'] & Hr & ->)%returns_zoom. by exists t'. Qed.

Lemma provision_inv tenantId platformTenantId n db r n' db' :
  returns (provisionCustomerTenantDefaults tenantId platformTenantId) (n, db) r (n', db') -> policies_inv n (ac_policies db) ->
  policies_inv n' (ac_policies db') /\ tenants db' = tenants db /\ ac_memberships db' = ac_memberships db /\
  match source r with
  | platform_template => exists P ks, template_tenant platformTenantId db = Some P /\ P <> tenantId /\
      drafted tenantId (map (copy_draft tenantId P (ac_policies db)) (template_policies P (clock n) (ac_policies db)))
        (ac_policies db) (ac_policies db') ks
  | builtin_starter => exists ks,
      drafted tenantId (map (starter_draft tenantId) STARTER_POLICY_DEFINITIONS) (ac_policies db) (ac_policies db') ks
  end.
Proof using Type.
  intros Hr Hi. apply returns_bind in Hr as (u & [n1 db1] & He & Hr). apply entitlements_inv in He as (Hn & Ht & Hm & Hp & _).
  cbn [fst snd] in *. subst n1. apply returns_bind in Hr as (P & s1 & Hf & Hr).
  assert (P = template_tenant platformTenantId db /\ s1 = (n, db1)) as [-> ->].
  { destruct platformTenantId; [by apply returns_ret in Hf as [-> ->]|]. apply returns_gets in Hf as [-> ->]. split; [|done].
    cbn. unfold findPlatformTenantId. by rewrite Ht. }
  apply returns_bind in Hr as (copied & [n2 db2] & Hc & Hr).
  assert (Hc' : tenants db2 = tenants db /\ ac_memberships db2 = ac_memberships db /\ policies_inv n2 (ac_policies db2) /\
    ((copied <= 0 /\ ac_policies db2 = ac_policies db) \/
     exists P ks, template_tenant platformTenantId db = Some P /\ P <> tenantId /\ copied = sum ks /\
       drafted tenantId (map (copy_draft tenantId P (ac_policies db)) (template_policies P (clock n) (ac_policies db)))
         (ac_policies db) (ac_policies db2) ks)).
  { destruct (template_tenant platformTenantId db) as [P|]; [destruct (nonempty P)|];
      [|(apply returns_ret in Hc as [-> [= -> ->]]; rewrite Ht, Hm, Hp; split_and!; try done; by left)..].
    apply on_statutes_inv in Hc as (t' & Hc & Hdb). cbn [fst snd] in Hc, Hdb. subst db2. rewrite Hp in Hc. cbn. rewrite Ht, Hm.
    destruct (decide (P = tenantId)) as [->|Hne].
    - unfold copyPlatformPolicyTemplatesToTenant in Hc. rewrite String.eqb_refl in Hc. apply returns_ret in Hc as [-> [= -> ->]]. split_and!; try done; by left.
    - apply copy_drafted in Hc as (ks & -> & Hi' & Hd); [|done..]. split_and!; try done. right. by exists P, ks. }
  clear Hc. destruct Hc' as (Ht2 & Hm2 & Hi2 & Hcases). run_if E.
  - apply returns_ret in Hr as [-> [= -> ->]]. apply Z.ltb_lt in E. split_and!; try done. cbn.
    destruct Hcases as [[? _]|(P & ks & HP & Hne & _ & Hd)]; [lia|]. by exists P, ks.
  - apply Z.ltb_ge in E. apply returns_bind in Hr as (created & s3 & Hs & Hr). apply returns_ret in Hr as [-> <-].
    apply on_statutes_inv in Hs as (t' & Hs & Hdb). cbn [fst snd] in Hs, Hdb. subst db'.
    assert (Hp2 : ac_policies db2 = ac_policies db).
    { destruct Hcases as [[_ ?]|(P & ks & _ & _ & -> & Hd)]; [done|]. by apply (drafted_zero _ _ _ _ _ Hd). }
    rewrite Hp2 in Hs, Hi2. apply ensureStarterPolicies_drafted in Hs as (ks & _ & Hd & Hi'); [|done].
    split_and!; try done. by exists ks.
Qed.

(** ** Copies *)

Section copies.
Context (tenantId P : string) (t t' : policy_tables) (ks : list Z) (n : nat) (Hne : P <> tenantId).
Context (Hd : drafted tenantId (map (copy_draft tenantId P t) (template_policies P (clock n) t)) t t' ks).
Context (Hi : policies_inv n t) (Hclock : past n (clock n)) (Hclock_bounded : clock n < VALID_TO_INFINITY).
Context (Hblank : blank_tenant tenantId t) (Hforce : bound_in_force P t) (Hstored : stored t).

Lemma copies_well : Forall (well_drafted tenantId) (map (copy_draft tenantId P t) (template_policies P (clock n) t)).
Proof using Type. apply Forall_forall. intros d (p & -> & _)%list_elem_of_fmap. apply copy_well. Qed.

(** The templates are the platform's current global policies. *)
Lemma template_elem p :
  p ∈ template_policies P (clock n) t <->
  p ∈ policies_table t /\ pr_current p = true /\ pr_tenant p = P /\ p_status (pr_row p) = POLICY_STATUS.ACTIVE /\
  p_scope (pr_row p) = POLICY_SCOPE.GLOBAL /\ p_project_id (pr_row p) = None.
Proof using Hi Hclock Hclock_bounded.
  unfold template_policies. rewrite order_by_elem_of, elem_of_filter_b, global_filter_face. destruct Hi as [_ Hs].
  split.
  - intros [Hp (? & ? & ? & ? & He)]. apply settled_in_force in He; [|by apply (Hs _ Hclock)|done]. split_and!; try done. by apply infinite_spec.
  - intros (Hp & Hc & ? & ? & ? & ?). split_and!; try done. apply settled_in_force; [by apply (Hs _ Hclock)|done|]. by apply infinite_spec in Hc.
Qed.

Lemma template_rule_elem p b r :
  p ∈ policies_table t -> pr_tenant p = P ->
  (b, r) ∈ template_rules P (pr_id p) t <-> b ∈ rule_bindings_table t /\ r ∈ rules_table t /\ rr_id r = rbr_rule b /\ rbr_policy b = pr_id p.
Proof using Hi.
  clear - Hi. intros Hp Ht. unfold template_rules. rewrite order_by_elem_of, elem_of_filter_b, inner_join_elem_of. cbn.
  rewrite !andb_true_iff, !String.eqb_eq. split; [naive_solver|]. intros (Hb & Hr & Hrb & Hbp). destruct Hi as [Hwf _].
  destruct (pw_policy t Hwf b Hb) as (q & Hq & Hqb & Hqt). destruct (pw_rule t Hwf b Hb) as (r' & Hr' & Hrb' & Hrt).
  assert (q = p) as -> by (apply (policy_by_id t Hwf); [done..|congruence]).
  assert (r' = r) as -> by (apply (rule_by_id t Hwf); [done..|congruence]). split_and!; try done; congruence.
Qed.

(** A copy says what its original says. *)
Record copy_of (s s' : statute) : Prop := {
  co_condition : r_condition (st_rule s') = r_condition (st_rule s);
  co_action : r_action (st_rule s') = r_action (st_rule s);
  co_mode : pf_enforcement_mode (st_policy s') = pf_enforcement_mode (st_policy s);
  co_enabled : st_enabled s' = st_enabled s;
  co_status : pf_status (st_policy s') = pf_status (st_policy s)
}.

Lemma copy_blocks fields s s' : copy_of s s' -> statute_blocks fields s' = statute_blocks fields s.
Proof using Type. intros [Hc Ha Hm _ _]. unfold statute_blocks. by rewrite Hc, Ha, Hm. Qed.

Lemma copy_states p i s' :
  p ∈ policies_table t -> pr_tenant p = P -> states tenantId (copy_draft tenantId P t p) i s' ->
  exists b r, template_rules P (pr_id p) t !! i = Some (b, r) /\ copy_of (statute_of (pr_row p) (rbr_row b) (rr_row r)) s' /\
    pf_tenant (st_policy s') = tenantId /\ pf_scope (st_policy s') = POLICY_SCOPE.GLOBAL /\ pf_project (st_policy s') = None.
Proof using Hi Hstored.
  intros Hp Ht (body & id & key & from & rid & rkey & rfrom & Hb & ->). cbn in Hb. rewrite list_lookup_fmap in Hb.
  destruct (template_rules P (pr_id p) t !! i) as [[b r]|] eqn:E; [|done]. cbn in Hb. injection Hb as <-.
  assert (Hr : r ∈ rules_table t) by (by apply list_elem_of_lookup_2, template_rule_elem in E as (_ & ? & _)).
  destruct (Hstored r Hr) as [Hc Ha]. exists b, r. split; [done|]. split; [|done].
  split; try done. cbn. by rewrite nth_error_lookup, E.
Qed.

(** The statutes of the new tenant are copies of the platform's, one for each. *)
Lemma copied_statute s' :
  current_book t' s' -> general tenantId s' -> exists s, current_book t s /\ general P s /\ copy_of s s'.
Proof using All.
  intros Hs [Ht (Hst & _ & _ & Hen)]. apply (drafted_new _ _ _ _ _ _ Hd) in Hs as [Hs|(d & i & (p & -> & Hp)%list_elem_of_fmap & Hstate)];
    [by apply (blank_book _ tenantId) in Hs|].
  apply template_elem in Hp as (Hp & Hc & Hpt & Hps & Hpg & Hpp). apply copy_states in Hstate as (b & r & Hi' & Hco & _); [|done..].
  apply list_elem_of_lookup_2, template_rule_elem in Hi' as (Hb & Hr & Hrb & Hbp); [|done..].
  eexists. split; [|split; [|exact Hco]].
  - exists p, b, r. split_and!; try done. by apply (Hforce p b r).
  - split_and!; try done. by rewrite <- (co_enabled _ _ Hco).
Qed.

Lemma statute_copied s :
  NoDup (map (fun p => p_name (pr_row p)) (template_policies P (clock n) t)) ->
  current_book t s -> general P s -> exists s', current_book t' s' /\ general tenantId s' /\ copy_of s s'.
Proof using All.
  intros Hnames (p & b & r & Hp & Hc & Hb & Hbp & Hr & Hrb & Hrc & ->) (Ht & Hst & Hsc & Hpr & Hen). cbn in Ht, Hst, Hsc, Hpr, Hen.
  assert (Htr : (b, r) ∈ template_rules P (pr_id p) t) by (by apply template_rule_elem).
  apply list_elem_of_lookup in Htr as [i Hl].
  destruct (drafted_has _ _ _ _ _ (copy_draft tenantId P t p) i Hd copies_well) as (s' & Hs' & Hstate).
  - rewrite map_map. exact Hnames.
  - apply list_elem_of_fmap_2. by apply template_elem.
  - by apply blank_name.
  - cbn. rewrite length_map. by eapply lookup_lt_Some.
  - apply copy_states in Hstate as (b' & r' & Hl' & Hco & H1 & H2 & H3); [|done..]. rewrite Hl in Hl'. injection Hl' as <- <-.
    exists s'. split; [done|]. split; [|done]. split_and!; try done; [by rewrite (co_status _ _ Hco)|by rewrite (co_enabled _ _ Hco)].
Qed.
End copies.

Lemma present_kept tenantId ds t t' ks :
  drafted tenantId ds t t' ks -> actions_present t ->
  (forall d body, d ∈ ds -> body ∈ dr_bodies d -> is_nullish (jsonb (cr_action body)) = false) -> actions_present t'.
Proof using Type.
  intros Hd Ha Hds r [Hr|(d & body & id & key & from & Hin & Hb & ->)]%(drafted_rule _ _ _ _ _ _ Hd); [by apply Ha|].
  by apply (Hds d body).
Qed.

Lemma loads t tenantId projectId at_ :
  actions_present t -> exists snap, loadEffectivePolicy (loaded t) tenantId projectId at_ = Ok snap.
Proof using Type.
  intros Ha. apply is_ok_spec, effective_policy_total. intros r (r' & -> & Hr)%list_elem_of_fmap. by apply Ha.
Qed.

Lemma starters_present tenantId t t' ks :
  drafted tenantId (map (starter_draft tenantId) STARTER_POLICY_DEFINITIONS) t t' ks -> actions_present t -> actions_present t'.
Proof using Type.
  intros Hd Ha. eapply present_kept; [exact Hd|exact Ha|]. intros d body (input & -> & Hin)%list_elem_of_fmap (rule & -> & Hr)%list_elem_of_fmap.
  destruct (starter_action_stored rule) as (kvs & template & Hk & _); [|cbn; by rewrite Hk].
  apply list_elem_of_bind. by exists input.
Qed.

(** A rule for which its stored condition and action are fixed says the same copied. *)
Lemma copies_present tenantId P n t t' ks :
  drafted tenantId (map (copy_draft tenantId P t) (template_policies P (clock n) t)) t t' ks -> stored t -> actions_present t ->
  actions_present t'.
Proof using Type.
  intros Hd Hst Ha. eapply present_kept; [exact Hd|exact Ha|].
  intros d body (p & -> & _)%list_elem_of_fmap (row & -> & Hrow)%list_elem_of_fmap.
  destruct row as [b r]. unfold template_rules in Hrow. rewrite order_by_elem_of, elem_of_filter_b, inner_join_elem_of in Hrow.
  destruct Hrow as [(_ & Hr & _) _]. cbn. rewrite (proj2 (Hst r Hr)). by apply Ha.
Qed.

Lemma starters_skipped tenantId inputs m t :
  (forall input, input ∈ inputs -> policy_exists tenantId (spd_name input) t = true) ->
  returns (mapM_ (ensureStarterPolicy tenantId) inputs) (m, t) (map (fun _ => 0) inputs) (m, t).
Proof using Type.
  intros Hx. induction inputs as [|input inputs IH]; [done|]. cbn [mapM_ map]. apply returns_bind. exists 0, (m, t). split.
  - apply returns_bind. exists true, (m, t). split; [|done]. apply returns_gets. split; [|done]. symmetry. apply Hx. by left.
  - apply returns_bind. exists (map (fun _ => 0) inputs), (m, t). split; [|done]. apply IH. intros. apply Hx. by right.
Qed.

(** Provisioning again: the starter policies are there. *)
Lemma starters_once tenantId n t k n' t' m :
  returns (ensureStarterPolicies tenantId) (n, t) k (n', t') -> policies_inv n t ->
  returns (ensureStarterPolicies tenantId) (m, t') 0 (m, t').
Proof using Type.
  intros Hr Hi. apply ensureStarterPolicies_drafted in Hr as (ks & _ & Hd & _); [|done].
  apply returns_bind. eexists _, _. split; [apply starters_skipped|done].
  intros input Hin. rewrite (drafted_exists _ _ _ _ _ _ Hd (starters_well tenantId)). apply orb_true_iff. right. apply existsb_exists.
  exists (starter_draft tenantId input). split; [apply list_elem_of_In; by apply list_elem_of_fmap_2|apply String.eqb_refl].
Qed.

(** ** Properties *)

(** C19: a new tenant that gets the starter policies is protected at once: for each
    of its projects and at every time from then on the effective policy loads, its
    evaluation returns, and it blocks a package exactly when the package's version
    is less than seven days old, its vulnerability data is missing, it has critical
    or high vulnerabilities, or its contributor risk is at least 80. *)
Theorem new_tenant_gate tenantId platformTenantId n db r n' db' projectId at_ fields ttl mode :
  returns (provisionCustomerTenantDefaults tenantId platformTenantId) (n, db) r (n', db') -> source r = builtin_starter ->
  policies_inv n (ac_policies db) -> actions_present (ac_policies db) -> blank_tenant tenantId (ac_policies db) ->
  past n' at_ -> at_ < VALID_TO_INFINITY ->
  exists snap d, loadEffectivePolicy (loaded (ac_policies db')) tenantId projectId at_ = Ok snap /\
    evaluatePolicyDecision (allRules snap) fields ttl mode = Ok d /\
    (decision d = DECISION_BLOCK <-> starter_blocks fields = true).
Proof using Type.
  intros Hr Hsrc Hi Ha Hblank Hp Hat. apply provision_inv in Hr as (Hi' & _ & _ & Hd); [|done]. rewrite Hsrc in Hd.
  destruct Hd as [ks Hd]. destruct (loads _ tenantId projectId at_ (starters_present _ _ _ _ Hd Ha)) as [snap Hl].
  destruct (starters_gate _ _ _ _ Hd Hblank n' projectId at_ fields ttl mode snap Hi' Hp Hat Hl) as (d & Hdec & Hb). by exists snap, d.
Qed.

(** C20: a new tenant that gets copies of the platform's policies decides as the
    platform does: for any package, and any projects of the two tenants that have
    neither assignments nor policies of their own, both are blocked or neither is.
    The templates have different names, and what their JSON columns hold reads back
    as it was written. *)
Theorem copied_policies_decide_alike tenantId platformTenantId n db r n' db' P projectId templateProjectId at_ fields ttl mode snap snap' d d' :
  returns (provisionCustomerTenantDefaults tenantId platformTenantId) (n, db) r (n', db') -> source r = platform_template ->
  template_tenant platformTenantId db = Some P ->
  policies_inv n (ac_policies db) -> blank_tenant tenantId (ac_policies db) -> stored (ac_policies db) ->
  bound_in_force P (ac_policies db) -> past n (clock n) -> clock n < VALID_TO_INFINITY ->
  NoDup (map (fun p => p_name (pr_row p)) (template_policies P (clock n) (ac_policies db))) ->
  plain_project (loaded (ac_policies db')) P templateProjectId at_ ->
  past n' at_ -> at_ < VALID_TO_INFINITY ->
  loadEffectivePolicy (loaded (ac_policies db')) tenantId projectId at_ = Ok snap ->
  loadEffectivePolicy (loaded (ac_policies db')) P templateProjectId at_ = Ok snap' ->
  evaluatePolicyDecision (allRules snap) fields ttl mode = Ok d ->
  evaluatePolicyDecision (allRules snap') fields ttl mode = Ok d' ->
  decision d = DECISION_BLOCK <-> decision d' = DECISION_BLOCK.
Proof using Type.
  intros Hr Hsrc HP Hi Hblank Hst Hforce Hclock Hinf Hnames Hplain' Hp Hat Hl Hl' Hd Hd'.
  apply provision_inv in Hr as (Hi' & _ & _ & Hc); [|done]. rewrite Hsrc in Hc. destruct Hc as (P' & ks & HP' & Hne & Hc). simplify_eq.
  assert (Hs := proj2 Hi' at_ Hp).
  assert (Hplain : plain_project (loaded (ac_policies db')) tenantId projectId at_).
  { apply plain_tenant; [rewrite (drafted_bindings _ _ _ _ _ Hc); apply Hblank|].
    intros p Hin Ht. apply (drafted_policy _ _ _ _ _ _ Hc) in Hin as [Hin|(x & id & key & from & (q & -> & _)%list_elem_of_fmap & ->)]; [|done].
    by destruct (proj1 Hblank p Hin). }
  rewrite (plain_decision _ _ _ _ _ _ _ _ _ Hplain Hl Hd), (plain_decision _ _ _ _ _ _ _ _ _ Hplain' Hl' Hd').
  setoid_rewrite (fun s => book_current (ac_policies db') at_ s Hs Hat). split; intros (s & Hb & Hg & Hblock).
  - destruct (copied_statute tenantId P' _ _ _ n Hne Hc Hi Hclock Hinf Hblank Hforce Hst s Hb Hg) as (o & Hbo & Hgo & Hco).
    exists o. split; [by eapply drafted_old|]. split; [done|]. by rewrite <- (copy_blocks fields _ _ Hco).
  - assert (Hold : current_book (ac_policies db) s).
    { apply (drafted_new _ _ _ _ _ _ Hc) in Hb as [|(x & i & (q & -> & Hq)%list_elem_of_fmap & Hstate)]; [done|].
      destruct Hstate as (body & id & key & from & rid & rkey & rfrom & _ & ->). destruct Hg as [Ht _]. cbn in Ht. by destruct Hne. }
    destruct (statute_copied tenantId P' _ _ _ n Hne Hc Hi Hclock Hinf Hblank Hforce Hst s Hnames Hold Hg) as (c & Hbc & Hgc & Hco).
    exists c. split; [done|]. split; [done|]. by rewrite (copy_blocks fields _ _ Hco).
Qed.

End spec.

(** ** Instances *)

Definition no_accounts : accounts_db := {| tenants := []; ac_memberships := []; ac_entitlements := []; ac_policies := no_tables |}.

(** A tenant provisioned where there is no platform. *)
Definition provisioned : res TenantPolicyProvisionResult * (nat * accounts_db) :=
  Eval vm_compute in @provisionCustomerTenantDefaults example_env storage_order "ten" None (0%nat, no_accounts).

Definition risky_fields : fields_t := [("source.osv.critical_count", JInt 2)].

Lemma new_tenant_gate_witness :
  source <$> provisioned.1 = Ok builtin_starter /\
  exists snap d, @loadEffectivePolicy storage_order (loaded (ac_policies provisioned.2.2)) "ten" "proj" 1000000 = Ok snap /\
    evaluatePolicyDecision (allRules snap) risky_fields 300 PULL_MODE = Ok d /\ decision d = DECISION_BLOCK.
Proof.
  split; [reflexivity|].
  destruct (@new_tenant_gate example_env storage_order "ten" None 0 no_accounts
              {| source := builtin_starter; policiesCreated := 2 |} provisioned.2.1 provisioned.2.2 "proj" 1000000 risky_fields 300 PULL_MODE)
    as (snap & d & Hl & Hd & Hb).
  - vm_compute. reflexivity.
  - reflexivity.
  - apply no_tables_inv.
  - by intros r Hr%not_elem_of_nil.
  - split; by intros x Hx%not_elem_of_nil.
  - apply example_past.
  - reflexivity.
  - exists snap, d. split; [exact Hl|]. split; [exact Hd|]. apply Hb. vm_compute. reflexivity.
Defined.

(** A platform with the starter policies, and a tenant provisioned from it. *)
Definition platform_tables : nat * policy_tables :=
  Eval vm_compute in (@ensureStarterPolicies example_env "plat" (0%nat, no_tables)).2.

Definition platform_accounts : accounts_db :=
  {| tenants := [{| tn_id := "plat"; tn_name := "Platform"; tn_kind := "platform"; tn_created_at := 0 |}]; ac_memberships := [];
     ac_entitlements := []; ac_policies := platform_tables.2 |}.

Definition copied_provision : res TenantPolicyProvisionResult * (nat * accounts_db) :=
  Eval vm_compute in @provisionCustomerTenantDefaults example_env storage_order "ten" None (platform_tables.1, platform_accounts).

Lemma platform_inv : @policies_inv example_env platform_tables.1 platform_tables.2.
Proof.
  assert (Hr : @returns policy_tables Z (@ensureStarterPolicies example_env "plat") (0%nat, no_tables) 2 platform_tables)
    by (vm_compute; reflexivity).
  destruct platform_tables as [n t]. by apply ensureStarterPolicies_drafted in Hr as (ks & _ & _ & Hi); [|apply no_tables_inv].
Qed.

Lemma example_clock_past n : @past example_env n (@clock example_env n).
Proof. intros m Hm. cbn. lia. Qed.

Lemma map_eq_elem {A B} (f g : A -> B) l x : map f l = map g l -> x ∈ l -> f x = g x.
Proof.
  intros He Hx. induction l as [|y l IH]; [by apply not_elem_of_nil in Hx|]. injection He as Hy He.
  apply elem_of_cons in Hx as [->|Hx]; auto.
Qed.

Lemma platform_rule r : r ∈ rules_table platform_tables.2 ->
  (jsonb (r_condition (rr_row r)), jsonb (r_action (rr_row r)), rr_current r) = (r_condition (rr_row r), r_action (rr_row r), true).
Proof.
  apply (map_eq_elem (fun r => (jsonb (r_condition (rr_row r)), jsonb (r_action (rr_row r)), rr_current r))
    (fun r => (r_condition (rr_row r), r_action (rr_row r), true))). vm_compute. reflexivity.
Qed.

Lemma platform_policy p : p ∈ policies_table platform_tables.2 -> String.eqb (pr_tenant p) "plat" = true.
Proof. apply (forallb_elem_of (fun p => String.eqb (pr_tenant p) "plat")). vm_compute. reflexivity. Qed.

Lemma copied_global p : p ∈ policies_table (ac_policies copied_provision.2.2) -> String.eqb (p_scope (pr_row p)) POLICY_SCOPE.GLOBAL = true.
Proof. apply (forallb_elem_of (fun p => String.eqb (p_scope (pr_row p)) POLICY_SCOPE.GLOBAL)). vm_compute. reflexivity. Qed.

Lemma platform_blank : blank_tenant "ten" platform_tables.2.
Proof.
  split; intros x Hx; [|by apply not_elem_of_nil in Hx]. apply platform_policy, String.eqb_eq in Hx. by rewrite Hx.
Qed.

Lemma platform_stored : stored platform_tables.2 /\ bound_in_force "plat" platform_tables.2.
Proof. split; [intros r Hr|intros p b r _ _ _ _ _ Hr _]; apply platform_rule in Hr; by injection Hr. Qed.

Lemma copied_plain : plain_project (loaded (ac_policies copied_provision.2.2)) "plat" "own" 1000000.
Proof. apply plain_tenant; [by intros b Hb%not_elem_of_nil|]. intros p Hp _. by apply String.eqb_eq, copied_global. Qed.

Lemma copied_policies_decide_alike_witness :
  source <$> copied_provision.1 = Ok platform_template /\
  exists snap snap' d d',
    @loadEffectivePolicy storage_order (loaded (ac_policies copied_provision.2.2)) "ten" "proj" 1000000 = Ok snap /\
    @loadEffectivePolicy storage_order (loaded (ac_policies copied_provision.2.2)) "plat" "own" 1000000 = Ok snap' /\
    evaluatePolicyDecision (allRules snap) risky_fields 300 PULL_MODE = Ok d /\
    evaluatePolicyDecision (allRules snap') risky_fields 300 PULL_MODE = Ok d' /\
    (decision d = DECISION_BLOCK <-> decision d' = DECISION_BLOCK).
Proof.
  split; [reflexivity|].
  destruct (@loadEffectivePolicy storage_order (loaded (ac_policies copied_provision.2.2)) "ten" "proj" 1000000) as [snap|] eqn:El;
    [|vm_compute in El; discriminate El].
  destruct (@loadEffectivePolicy storage_order (loaded (ac_policies copied_provision.2.2)) "plat" "own" 1000000) as [snap'|] eqn:El';
    [|vm_compute in El'; discriminate El'].
  destruct (evaluatePolicyDecision (allRules snap) risky_fields 300 PULL_MODE) as [d|] eqn:Ed;
    [|vm_compute in El; injection El as <-; vm_compute in Ed; discriminate Ed].
  destruct (evaluatePolicyDecision (allRules snap') risky_fields 300 PULL_MODE) as [d'|] eqn:Ed';
    [|vm_compute in El'; injection El' as <-; vm_compute in Ed'; discriminate Ed'].
  exists snap, snap', d, d'. do 2 (split; [reflexivity|]). split; [exact Ed|]. split; [exact Ed'|].
  apply (@copied_policies_decide_alike example_env storage_order "ten" None platform_tables.1 platform_accounts
    {| source := platform_template; policiesCreated := 2 |} copied_provision.2.1 copied_provision.2.2 "plat" "proj" "own" 1000000
    risky_fields 300 PULL_MODE snap snap' d d'); [vm_compute; reflexivity|reflexivity|reflexivity|..]; try assumption.
  - apply platform_inv.
  - apply platform_blank.
  - apply platform_stored.
  - apply platform_stored.
  - apply example_clock_past.
  - reflexivity.
  - apply (bool_decide_unpack _). vm_compute. exact I.
  - apply copied_plain.
  - apply example_past.
  - reflexivity.
Defined.

(** A platform whose policies have names of its own: provisioned once a tenant has
    copies of them; provisioned again, as each start of the bundled deployment does, it
    gets the built-in policies too. *)
Definition house_accounts : accounts_db :=
  set_ac_policies
    (@create_policy example_env (new_policy "plat" None "House rules" None None POLICY_SCOPE.GLOBAL POLICY_STATUS.ACTIVE
       ENFORCEMENT_MODE.ENFORCING 50 None) (20%nat, no_tables)).2.2 platform_accounts.

Lemma second_provision_adds_starters :
  let first := @provisionCustomerTenantDefaults example_env storage_order "ten" None (30%nat, house_accounts) in
  let second := @provisionCustomerTenantDefaults example_env storage_order "ten" None first.2 in
  first.1 = Ok {| source := platform_template; policiesCreated := 1 |} /\
  second.1 = Ok {| source := builtin_starter; policiesCreated := 2 |}.
Proof. vm_compute. split; reflexivity. Qed.
