(* ===== verification/AuthClaims.v ===== *)
(** * Claims of access tokens (services/api/src/auth/auth-claims.ts,
    auth/jwt-verifier.ts, middleware/auth.ts)

    The tenant, the role and the memberships an access token carries, and how a request
    becomes a caller.  The verification of signatures and the reading of base 64 are
    parameters: what the library returns or how it fails, the error told by the classes
    it is an instance of.  The checks of the validation library on plain objects are
    written out; keys it does not know are dropped. *)

From Stdlib Require Import Ascii.
From S2P Require Import Prelude JsString JsValue Json Sql Effects Constants Tenancy Rbac Effective.
Local Open Scope string_scope.
Local Open Scope list_scope.
Local Open Scope Z_scope.

Record TenantInfo := { ti_tenant_id : string; ti_tenant_name : string; ti_tenant_kind : string; ti_role : string }.

Record AuthClaims := { cl_tenantId : string; cl_tenantKind : string; cl_role : string; cl_tenants : list TenantInfo }.

Record McpAccessTokenClaims := {
  mc_claims : AuthClaims; mc_audiences : list string; mc_clientId : option string; mc_sessionId : option string
}.

(** ** Schemas *)

Definition INVALID_APP_METADATA : string := "JWT app_metadata claims are invalid".
Definition INVALID_PAYLOAD : string := "JWT payload claims are invalid".

Definition string_field (kvs : list (string * jsval)) (key : string) (valid : string -> bool) : option string :=
  match own key kvs with Some (JStr s) => if valid s then Some s else None | _ => None end.

(** A field with a default for [undefined]. *)
Definition tenant_kind_field (kvs : list (string * jsval)) : option string :=
  match default JUndef (own "tenant_kind" kvs) with
  | JUndef => Some TENANT_KIND.CUSTOMER
  | JStr s => if existsb (String.eqb s) TENANT_KINDS then Some s else None
  | _ => None
  end.

Section claims.
Context `{Formats}.

Definition tenantInfoSchema (v : jsval) : option TenantInfo :=
  match v with
  | JObj kvs =>
      id ← string_field kvs "tenant_id" is_uuid;
      name ← string_field kvs "tenant_name" nonempty;
      kind ← tenant_kind_field kvs;
      role ← string_field kvs "role" isTenantRole;
      Some {| ti_tenant_id := id; ti_tenant_name := name; ti_tenant_kind := kind; ti_role := role |}
  | _ => None
  end.

Definition tenants_field (kvs : list (string * jsval)) : option (list TenantInfo) :=
  match default JUndef (own "tenants" kvs) with
  | JUndef => Some []
  | JArr l => map_option tenantInfoSchema l
  | _ => None
  end.

Definition appMetadataSchema (v : jsval) : option AuthClaims :=
  match v with
  | JObj kvs =>
      id ← string_field kvs "tenant_id" is_uuid;
      kind ← tenant_kind_field kvs;
      role ← string_field kvs "role" isTenantRole;
      tenants ← tenants_field kvs;
      Some {| cl_tenantId := id; cl_tenantKind := kind; cl_role := role; cl_tenants := tenants |}
  | _ => None
  end.

(** ** Reading the claims *)

Definition is_string (v : jsval) : bool := match v with JStr _ => true | _ => false end.

Definition parseBaseClaims (payload : jsval) : res (option AuthClaims) :=
  let appMetadata := opt_prop payload "app_metadata" in
  if negb (truthy appMetadata) || negb (is_object appMetadata) || negb (is_string (opt_prop appMetadata "tenant_id"))
  then Ok None
  else match appMetadataSchema appMetadata with
       | Some claims => Ok (Some claims)
       | None => Throw INVALID_APP_METADATA
       end.

Definition parseAccessTokenClaimsFromPayload : jsval -> res (option AuthClaims) := parseBaseClaims.

Definition read_audiences (kvs : list (string * jsval)) : option (list string) :=
  match default JUndef (own "aud" kvs) with
  | JUndef => Some []
  | JStr s => Some (if nonempty s then [s] else [])
  | JArr l => map_option (fun v => match v with JStr s => Some s | _ => None end) l
  | _ => None
  end.

Definition optional_name (kvs : list (string * jsval)) (key : string) : option (option string) :=
  match default JUndef (own key kvs) with
  | JUndef => Some None
  | JStr s => if nonempty s then Some (Some s) else None
  | _ => None
  end.

(** [jwtPayloadSchema]: the audiences, the client and the session. *)
Definition jwtPayloadSchema (payload : jsval) : option (list string * option string * option string) :=
  match payload with
  | JObj kvs =>
      audiences ← read_audiences kvs;
      clientId ← optional_name kvs "client_id";
      sessionId ← optional_name kvs "session_id";
      Some (audiences, clientId, sessionId)
  | _ => None
  end.

Definition parseMcpAccessTokenClaimsFromPayload (payload : jsval) : res (option McpAccessTokenClaims) :=
  match jwtPayloadSchema payload with
  | None => Throw INVALID_PAYLOAD
  | Some (audiences, clientId, sessionId) =>
      let! baseClaims := parseBaseClaims payload in
      Ok ((fun base => {| mc_claims := base; mc_audiences := audiences; mc_clientId := clientId; mc_sessionId := sessionId |})
            <$> baseClaims)
  end.

(** ** Reading a token *)

Section tokens.
Context (from_base64url : string -> string).

Definition decodeJwtPayload (token : string) : res jsval :=
  match split "."%char token with
  | _ :: segment :: _ =>
      if nonempty segment
      then match json_parse (from_base64url segment) with
           | Some v => Ok v
           | None => Throw "JWT payload is not valid JSON"
           end
      else Throw "JWT payload segment is missing"
  | _ => Throw "JWT payload segment is missing"
  end.

Definition parseAccessTokenClaims (token : string) : res (option AuthClaims) :=
  let! payload := decodeJwtPayload token in parseBaseClaims payload.

Definition parseMcpAccessTokenClaims (token : string) : res (option McpAccessTokenClaims) :=
  let! payload := decodeJwtPayload token in parseMcpAccessTokenClaimsFromPayload payload.
End tokens.

(** ** Verification (jwt-verifier.ts) *)

Inductive verification_kind : Type := misconfigured | invalid | expired | unavailable.

(** The classes an error of [jwtVerify] is an instance of. *)
Record jose_error := {
  je_TypeError : bool; je_JWKSNoMatchingKey : bool; je_JWSSignatureVerificationFailed : bool; je_JWTClaimValidationFailed : bool;
  je_JWSInvalid : bool; je_JWTInvalid : bool; je_JWTExpired : bool; je_JOSEError : bool
}.

Definition normalizeJwtVerificationError (e : jose_error) : verification_kind :=
  if je_TypeError e || je_JWKSNoMatchingKey e || je_JWSSignatureVerificationFailed e || je_JWTClaimValidationFailed e
     || je_JWSInvalid e || je_JWTInvalid e
  then if je_JWTExpired e then expired else invalid
  else if je_JOSEError e then invalid
  else unavailable.

Definition validateVerifiedPayload (payload : jsval) : jsval * string + verification_kind :=
  match payload with
  | JObj kvs => match string_field kvs "sub" is_uuid with Some sub => inl (payload, sub) | None => inr invalid end
  | _ => inr invalid
  end.

Section middleware.
Context (jwtVerify : string -> string -> jsval + jose_error) (authUrl gotrueUrl : bool).

Definition verifyAccessToken (token audience : string) : jsval * string + verification_kind :=
  if negb authUrl && negb gotrueUrl then inr misconfigured
  else match jwtVerify token audience with
       | inl payload => validateVerifiedPayload payload
       | inr err => inr (normalizeJwtVerificationError err)
       end.

(** ** middleware/auth.ts *)

Definition allowsQueryToken (path : string) : bool :=
  String.eqb path "/v1/events/stream"
  || match split "/"%char path with
     | [before; v1; projects; project; events; stream] =>
         String.eqb before EmptyString && String.eqb v1 "v1" && String.eqb projects "projects" && nonempty project
         && String.eqb events "events" && String.eqb stream "stream"
     | _ => false
     end.

Record auth_request := { rq_path : string; rq_authorization : option string; rq_query_token : option string }.

(** What the middleware sets for the handlers. *)
Record auth_variables := {
  av_tenantId : string; av_tenantKind : string; av_userId : string; av_role : string; av_tenants : list TenantInfo
}.

Definition request_token (r : auth_request) : string :=
  match rq_authorization r with
  | Some h => if startsWith h "Bearer " then trim (drop_str 7 h)
              else if allowsQueryToken (rq_path r) then default EmptyString (rq_query_token r) else EmptyString
  | None => if allowsQueryToken (rq_path r) then default EmptyString (rq_query_token r) else EmptyString
  end.

Definition authMiddleware (r : auth_request) : HttpResult auth_variables :=
  if nonempty (default EmptyString (rq_query_token r)) && negb (allowsQueryToken (rq_path r))
  then errorResult 400 "QUERY_TOKEN_NOT_ALLOWED" "Query-string tokens are only supported for SSE endpoints" None
  else
    let token := request_token r in
    if negb (nonempty token)
    then errorResult 401 "MISSING_TOKEN" "Authorization header with Bearer token is required" None
    else if negb gotrueUrl
    then errorResult 500 "SERVER_MISCONFIGURED" "Authentication is not configured on this server" (Some "GOTRUE_URL is required")
    else
      match verifyAccessToken token "authenticated" with
      | inl (payload, sub) =>
          match parseAccessTokenClaimsFromPayload payload with
          | Ok (Some claims) =>
              okResult {| av_tenantId := cl_tenantId claims; av_tenantKind := cl_tenantKind claims; av_userId := sub;
                          av_role := cl_role claims; av_tenants := cl_tenants claims |}
          | Ok None => errorResult 401 "NO_TENANT" "User is not associated with a tenant" None
          | Throw _ => errorResult 401 "INVALID_TOKEN" "Token is invalid or has expired" None
          end
      | inr misconfigured =>
          errorResult 500 "SERVER_MISCONFIGURED" "Authentication is not configured on this server" (Some "AUTH_URL or GOTRUE_URL is required")
      | inr unavailable => errorResult 503 "AUTH_UNAVAILABLE" "Authentication service is temporarily unavailable" None
      | inr _ => errorResult 401 "INVALID_TOKEN" "Token is invalid or has expired" None
      end.

(** The caller the routes see. *)
Definition caller (v : auth_variables) (param : string -> option string) : AuthContext :=
  {| au_tenantId := av_tenantId v; au_tenantKind := av_tenantKind v; au_userId := av_userId v; au_role := av_role v;
     au_param := param |}.
End middleware.

(** ** Lemmas *)

(** Reads the fields of a literal object. *)
Ltac own_reads :=
  repeat match goal with
  | |- context [own ?k ?kvs] => let o := eval lazy [own String.eqb Ascii.eqb Bool.eqb] in (own k kvs) in change (own k kvs) with o
  end; cbn [from_option Datatypes.id mbind option_bind].

(** What the hook writes reads back. *)
Definition encode_tenant (t : TenantInfo) : jsval :=
  JObj [("tenant_id", JStr (ti_tenant_id t)); ("tenant_name", JStr (ti_tenant_name t)); ("tenant_kind", JStr (ti_tenant_kind t));
        ("role", JStr (ti_role t))].

Definition valid_tenant (t : TenantInfo) : bool :=
  is_uuid (ti_tenant_id t) && nonempty (ti_tenant_name t) && existsb (String.eqb (ti_tenant_kind t)) TENANT_KINDS
  && isTenantRole (ti_role t).

Lemma read_tenant t : valid_tenant t = true -> tenantInfoSchema (encode_tenant t) = Some t.
Proof using Type.
  unfold valid_tenant. intros [[[Hid Hn]%andb_prop Hk]%andb_prop Hr]%andb_prop. unfold tenantInfoSchema, encode_tenant, string_field, tenant_kind_field.
  own_reads. rewrite Hid, Hn, Hr. cbn [from_option Datatypes.id mbind option_bind]. rewrite Hk. by destruct t.
Qed.

Lemma read_tenants l : Forall (fun t => valid_tenant t = true) l -> map_option tenantInfoSchema (map encode_tenant l) = Some l.
Proof using Type. induction 1 as [|t l Ht _ IH]; [done|]. cbn [map map_option]. by rewrite read_tenant, IH. Qed.

(** A caller's claims are of the schema's types. *)
Lemma map_option_Forall {A B} (f : A -> option B) (P : B -> Prop) l ys :
  (forall x y, f x = Some y -> P y) -> map_option f l = Some ys -> Forall P ys.
Proof using Type.
  intros Hf. revert ys. induction l as [|x l IH]; intros ys Hm; cbn in Hm; [by simplify_eq|].
  destruct (f x) as [y|] eqn:E; [|done]. cbn in Hm. destruct (map_option f l) as [ys'|]; [|done]. cbn in Hm. simplify_eq.
  constructor; [by eapply Hf|by apply IH].
Qed.

Lemma string_field_valid kvs key valid s : string_field kvs key valid = Some s -> valid s = true.
Proof using Type. unfold string_field. destruct (own key kvs) as [[]|]; try done. destruct (valid s0) eqn:E; [|done]. by intros [= <-]. Qed.

Lemma tenant_kind_valid kvs s : tenant_kind_field kvs = Some s -> existsb (String.eqb s) TENANT_KINDS = true.
Proof using Type.
  unfold tenant_kind_field. destruct (default JUndef (own "tenant_kind" kvs)); try done; [by intros [= <-]|].
  destruct (existsb (String.eqb s0) TENANT_KINDS) eqn:E; [|done]. by intros [= <-].
Qed.

Lemma tenantInfoSchema_valid v t : tenantInfoSchema v = Some t -> valid_tenant t = true.
Proof using Type.
  unfold tenantInfoSchema. destruct v; try done. destruct (string_field kvs "tenant_id" is_uuid) eqn:E1; [|done].
  cbn. destruct (string_field kvs "tenant_name" nonempty) eqn:E2; [|done]. cbn. destruct (tenant_kind_field kvs) eqn:E3; [|done].
  cbn. destruct (string_field kvs "role" isTenantRole) eqn:E4; [|done]. cbn. intros [= <-]. unfold valid_tenant. cbn [ti_tenant_id ti_tenant_name ti_tenant_kind ti_role].
  by rewrite (string_field_valid _ _ _ _ E1), (string_field_valid _ _ _ _ E2), (tenant_kind_valid _ _ E3), (string_field_valid _ _ _ _ E4).
Qed.

Definition valid_claims (c : AuthClaims) : Prop :=
  is_uuid (cl_tenantId c) = true /\ existsb (String.eqb (cl_tenantKind c)) TENANT_KINDS = true /\ isTenantRole (cl_role c) = true /\
  Forall (fun t => valid_tenant t = true) (cl_tenants c).

Lemma parseBaseClaims_valid payload c : parseBaseClaims payload = Ok (Some c) -> valid_claims c.
Proof using Type.
  unfold parseBaseClaims. destruct (_ || _); [done|]. unfold appMetadataSchema. destruct (opt_prop payload "app_metadata"); try done.
  destruct (string_field kvs "tenant_id" is_uuid) eqn:E1; [|done]. cbn. destruct (tenant_kind_field kvs) eqn:E2; [|done].
  cbn. destruct (string_field kvs "role" isTenantRole) eqn:E3; [|done]. cbn. destruct (tenants_field kvs) as [ts|] eqn:E4; [|done].
  cbn. intros [= <-]. split; [by eapply string_field_valid|]. split; [by eapply tenant_kind_valid|]. split; [by eapply string_field_valid|].
  cbn. unfold tenants_field in E4. destruct (default JUndef (own "tenants" kvs)); try done; [by injection E4 as <-|].
  by eapply map_option_Forall; [apply tenantInfoSchema_valid|].
Qed.
End claims.
