(* ===== verification/TokenHook.v ===== *)
(** * The sign-in hook (services/api/src/features/internal-auth-hook/token-hook-service.ts,
    the token-hook route of routes/internal.ts)

    When the authentication service issues a token the hook adds the user's tenants to
    its claims.  A user without a tenant gets one: the ownership of tenants nobody is a
    member of, when there are at most two, or a new customer tenant, and on an empty
    system a platform tenant too.

    The payload is the one the route's caller declares; its claims and addresses are any
    JSON.  The tables of the authentication service and the parser of addresses of the
    platform are parameters. *)

From Stdlib Require Import Ascii.
From S2P Require Import Prelude JsString JsValue Json Sql Effects Constants Tenancy Rbac Effective Provision AuthClaims Webhook.
Local Open Scope string_scope.
Local Open Scope list_scope.
Local Open Scope Z_scope.

Definition DEFAULT_PLATFORM_TENANT_NAME : string := "Platform".

(** [email], [user?.email] and [record?.email] are [undefined] when absent. *)
Record TokenHookPayload := {
  th_user_id : string; th_email : jsval; th_claims : option (list (string * jsval)); th_user_email : jsval; th_record_email : jsval
}.

Record MembershipRow := { mr_tenant_id : string; mr_role : string; mr_tenant_name : string; mr_tenant_kind : string }.

Record OAuthClientRow := {
  oc_registration_type : string; oc_client_type : string; oc_token_endpoint_auth_method : string; oc_redirect_uris : string
}.

(** ** The name of a tenant *)

Fixpoint readStringPath_from (current : jsval) (path : list string) : option string :=
  match path with
  | [] => match current with JStr s => Some s | _ => None end
  | segment :: path =>
      if truthy current && is_object current then readStringPath_from (opt_prop current segment) path else None
  end.

Definition readStringPath (value : option (list (string * jsval))) (path : list string) : option string :=
  readStringPath_from (from_option JObj JUndef value) path.

Definition usable_email (v : jsval) : option string :=
  match v with JStr s => if nonempty (trim s) then Some s else None | _ => None end.

Definition getPayloadEmail (payload : TokenHookPayload) : option string :=
  let claims := th_claims payload in
  let path p := from_option JStr JNull (readStringPath claims p) in
  head (omap usable_email
    [th_email payload; th_user_email payload; th_record_email payload; path ["email"]; path ["user_metadata"; "email"];
     path ["app_metadata"; "email"]]).

Definition is_alnum (c : ascii) : bool :=
  let n := code c in ((48 <=? n) && (n <=? 57) || (97 <=? n) && (n <=? 122))%N.

(** [[._+-]] and [[a-z0-9@._+-]] *)
Definition is_mark (c : ascii) : bool := existsb (Ascii.eqb c) ["."; "_"; "+"; "-"]%char.
Definition is_name_char (c : ascii) : bool := is_alnum c || Ascii.eqb c "@" || is_mark c.

(** [replace(/p+/g, "-")] *)
Fixpoint replace_runs (p : ascii -> bool) (inside : bool) (s : string) : string :=
  match s with
  | EmptyString => EmptyString
  | String c s =>
      if p c then (if inside then replace_runs p true s else String "-" (replace_runs p true s))
      else String c (replace_runs p false s)
  end.

(** [replace(/^p+/, "")] and [replace(/p+$/, "")] *)
Fixpoint strip_start (p : ascii -> bool) (s : string) : string :=
  match s with
  | String c s' => if p c then strip_start p s' else s
  | EmptyString => EmptyString
  end.

Fixpoint strip_end (p : ascii -> bool) (s : string) : string :=
  match s with
  | EmptyString => EmptyString
  | String c s =>
      match strip_end p s with
      | EmptyString => if p c then EmptyString else String c EmptyString
      | s' => String c s'
      end
  end.

Definition sanitizeTenantNameFromEmail (email : string) : option string :=
  let normalized := toLowerCase (trim email) in
  if negb (includes normalized "@") then None
  else
    let sanitized :=
      strip_end is_mark
        (take_str 80
          (strip_end is_mark (strip_start is_mark
            (replace_runs (Ascii.eqb "-") false (replace_runs (fun c => negb (is_name_char c)) false normalized))))) in
    if nonempty sanitized then Some sanitized else None.

Definition getAutoCreatedCustomerTenantName (payload : TokenHookPayload) : string :=
  default ("tenant-" +:+ take_str 8 (th_user_id payload)) (getPayloadEmail payload ≫= sanitizeTenantNameFromEmail).

(** ** Audiences *)

Section audiences.
Context (oauth_clients : string -> res (option OAuthClientRow)) (parse_url : string -> option (string * string)).

Definition isLocalhostRedirectUri (uri : string) : bool :=
  match parse_url uri with
  | Some (protocol, host) =>
      (String.eqb protocol "http:" || String.eqb protocol "https:") && (String.eqb host "localhost" || String.eqb host "127.0.0.1")
  | None => false
  end.

Definition redirect_uris (client : OAuthClientRow) : list string :=
  List.filter nonempty (map trim (split ","%char (oc_redirect_uris client))).

(** The condition on a registered client. *)
Definition eligible_client (client : OAuthClientRow) : bool :=
  String.eqb (oc_registration_type client) "dynamic" && String.eqb (oc_client_type client) "public"
  && String.eqb (oc_token_endpoint_auth_method client) "none"
  && match redirect_uris client with [] => false | uris => forallb isLocalhostRedirectUri uris end.

Definition isMcpEligibleOAuthClient (clientId : string) : res bool :=
  let! client := oauth_clients clientId in Ok (from_option eligible_client false client).

Definition nonempty_string (v : jsval) : option string :=
  match v with JStr s => if nonempty s then Some s else None | _ => None end.

Definition current_audiences (rawAud : jsval) : list string :=
  match rawAud with
  | JArr l => omap nonempty_string l
  | JStr s => if nonempty s then [s] else []
  | _ => []
  end.

(** What is kept of the audiences. *)
Definition kept_audiences (rawAud : jsval) : jsval :=
  match current_audiences rawAud with
  | [] => JUndef
  | a :: l => match rawAud with JArr _ => JArr (map JStr (a :: l)) | _ => JStr a end
  end.

Definition mergeAudiences (claims : list (string * jsval)) : res jsval :=
  let rawAud := default JUndef (own "aud" claims) in
  match nonempty_string (default JUndef (own "client_id" claims)) with
  | None => Ok (kept_audiences rawAud)
  | Some clientId =>
      let! isEligibleMcpClient := isMcpEligibleOAuthClient clientId in
      if isEligibleMcpClient : bool
      then Ok (JArr (map JStr (set_of (current_audiences rawAud ++ ["mcp"]))))
      else Ok (kept_audiences rawAud)
  end.

(** ** The tenants of a user *)

Section sign_in.
Context `{Env} `{SqlOrder}.

Definition is_customer (m : MembershipRow) : bool := String.eqb (mr_tenant_kind m) TENANT_KIND.CUSTOMER.

Definition sortMembershipsForDefaultActiveTenant : list MembershipRow -> list MembershipRow :=
  js_sort (fun a b => is_customer a || negb (is_customer b)).

Definition membership_of (m : membership_row) (t : tenant_row) : MembershipRow :=
  {| mr_tenant_id := mb_tenant_id m; mr_role := mb_role m; mr_tenant_name := tn_name t; mr_tenant_kind := tn_kind t |}.

Definition user_memberships (userId : string) (db : accounts_db) : list MembershipRow :=
  map (fun row => membership_of row.1 row.2)
    (List.filter (fun row => String.eqb (mb_user_id row.1) userId)
       (inner_join (fun m t => String.eqb (mb_tenant_id m) (tn_id t)) (ac_memberships db) (tenants db))).

(** The oldest tenants nobody is a member of, three at most. *)
Definition claimable_tenants (db : accounts_db) : list tenant_row :=
  firstn 3 (order_by tn_created_at
    (List.filter (fun t => negb (existsb (fun m => String.eqb (mb_tenant_id m) (tn_id t)) (ac_memberships db))) (tenants db))).

Definition insert_membership (userId tenantId role : string) : TX unit :=
  id ← fresh;
  insert_unique ac_memberships set_ac_memberships membership_row_conflict
    {| mb_id := id; mb_tenant_id := tenantId; mb_user_id := userId; mb_role := role |}.

Definition owner_of (t : tenant_row) : MembershipRow :=
  {| mr_tenant_id := tn_id t; mr_role := "owner"; mr_tenant_name := tn_name t; mr_tenant_kind := tn_kind t |}.

Definition createTenantOwnerMembership (userId tenantName tenantKind : string) : TX MembershipRow :=
  newTenantId ← fresh;
  at_ ← now_;
  let tenant := {| tn_id := newTenantId; tn_name := tenantName; tn_kind := tenantKind; tn_created_at := at_ |} in
  _ ← insert_unique tenants set_tenants tenant_conflict tenant;
  _ ← insert_membership userId newTenantId "owner";
  mret (owner_of tenant).

Definition claimTenantOwnerMembership (userId : string) (tenant : tenant_row) : TX MembershipRow :=
  _ ← insert_membership userId (tn_id tenant) "owner";
  mret (owner_of tenant).

Definition of_kind (kind : string) (tenants : list tenant_row) : option tenant_row :=
  js_find (fun t => String.eqb (tn_kind t) kind) tenants.

Definition when_some {A B} (o : option A) (f : A -> TX B) : TX (list B) :=
  match o with
  | Some a => b ← f a; mret [b]
  | None => mret []
  end.

(** Provisioning the customer tenants among some memberships. *)
Definition provision_customers (platformTenantId : option string) (ms : list MembershipRow) : TX unit :=
  _ ← mapM_ (fun m => if is_customer m
                      then _ ← provisionCustomerTenantDefaults (mr_tenant_id m) platformTenantId; mret tt
                      else mret tt) ms;
  mret tt.

Definition claim_initial_tenants (userId tenantName : string) (platform customer : option tenant_row) : TX (list MembershipRow) :=
  claimedPlatform ← when_some platform (claimTenantOwnerMembership userId);
  _ ← when_some platform (fun t => on_statutes (ensureStarterPolicies (tn_id t)));
  claimedCustomer ← match customer, platform with
                    | Some t, _ => m ← claimTenantOwnerMembership userId t; mret [m]
                    | None, Some _ => m ← createTenantOwnerMembership userId tenantName TENANT_KIND.CUSTOMER; mret [m]
                    | None, None => mret []
                    end;
  let claimedMemberships := claimedPlatform ++ claimedCustomer in
  _ ← provision_customers (tn_id <$> platform) claimedMemberships;
  mret (sortMembershipsForDefaultActiveTenant claimedMemberships).

Definition create_tenants (userId tenantName : string) : TX (list MembershipRow) :=
  count ← gets (fun db => length (tenants db));
  match count with
  | O =>
      platformMembership ← createTenantOwnerMembership userId DEFAULT_PLATFORM_TENANT_NAME TENANT_KIND.PLATFORM;
      _ ← on_statutes (ensureStarterPolicies (mr_tenant_id platformMembership));
      customerMembership ← createTenantOwnerMembership userId tenantName TENANT_KIND.CUSTOMER;
      _ ← provisionCustomerTenantDefaults (mr_tenant_id customerMembership) (Some (mr_tenant_id platformMembership));
      mret (sortMembershipsForDefaultActiveTenant [platformMembership; customerMembership])
  | _ =>
      customerMembership ← createTenantOwnerMembership userId tenantName TENANT_KIND.CUSTOMER;
      _ ← provisionCustomerTenantDefaults (mr_tenant_id customerMembership) None;
      mret [customerMembership]
  end.

(** The body of the transaction. *)
Definition resolve_memberships (userId tenantName : string) : TX (list MembershipRow) :=
  userMemberships ← gets (user_memberships userId);
  match userMemberships with
  | [] =>
      claimable ← gets claimable_tenants;
      let platform := of_kind TENANT_KIND.PLATFORM claimable in
      let customer := of_kind TENANT_KIND.CUSTOMER claimable in
      let canClaimInitialTenantPair :=
        (length claimable <=? 2)%nat && (bool_decide (is_Some platform) || bool_decide (is_Some customer)) in
      if canClaimInitialTenantPair then claim_initial_tenants userId tenantName platform customer
      else create_tenants userId tenantName
  | ms => mret ms
  end.

(** ** The claims *)

Definition tenant_claim (m : MembershipRow) : jsval :=
  JObj [("tenant_id", JStr (mr_tenant_id m)); ("tenant_name", JStr (mr_tenant_name m)); ("tenant_kind", JStr (mr_tenant_kind m));
        ("role", JStr (mr_role m))].

(** The membership the user prefers, or the first. *)
Definition active_membership (preferredTenantId : jsval) (ms : list MembershipRow) : option MembershipRow :=
  let preferred :=
    if truthy preferredTenantId then js_find (fun m => strict_eq (JStr (mr_tenant_id m)) preferredTenantId) ms else None in
  match preferred with Some m => Some m | None => head ms end.

Definition built_claims (claims : list (string * jsval)) (aud : jsval) (active : MembershipRow) (ms : list MembershipRow)
  : list (string * jsval) :=
  let app_metadata := default JUndef (own "app_metadata" claims) in
  spread (spread (spread [] claims) (if truthy aud then [("aud", aud)] else []))
    [("tenant_id", JStr (mr_tenant_id active));
     ("app_metadata",
      JObj (spread (spread [] (own_props app_metadata))
              [("tenant_id", JStr (mr_tenant_id active)); ("tenant_kind", JStr (mr_tenant_kind active));
               ("role", JStr (mr_role active)); ("tenants", JArr (map tenant_claim ms))]))].

Definition buildTokenHookClaims (payload : TokenHookPayload) : TX (list (string * jsval)) :=
  let userId := th_user_id payload in
  let claims := default [] (th_claims payload) in
  userMemberships ← transaction (resolve_memberships userId (getAutoCreatedCustomerTenantName payload));
  let userMemberships := sortMembershipsForDefaultActiveTenant userMemberships in
  let preferredTenantId := opt_prop (default JUndef (own "app_metadata" claims)) "preferred_tenant_id" in
  let activeMembership := active_membership preferredTenantId userMemberships in
  aud ← of_res (mergeAudiences claims);
  match activeMembership with
  | Some active => mret (built_claims claims aud active userMemberships)
  | None => throw "TypeError"
  end.

(** ** The route *)

Record hook_headers := { hh_webhookId : option string; hh_webhookTimestamp : option string; hh_webhookSignature : option string }.

Definition header_between (min_ max_ : nat) (h : option string) : option string :=
  s ← h; if ((min_ <=? String.length s) && (String.length s <=? max_))%nat then Some s else None.

Fixpoint all_digits (s : string) : bool :=
  match s with EmptyString => true | String c s => is_digit c && all_digits s end.

Definition parseTokenHookHeaders (h : hook_headers) : HttpResult (string * string * string) :=
  match header_between 1 255 (hh_webhookId h), hh_webhookTimestamp h, header_between 1 4096 (hh_webhookSignature h) with
  | Some webhookId, Some timestamp, Some signature =>
      if nonempty timestamp && all_digits timestamp then okResult (webhookId, timestamp, signature)
      else errorResult 401 "UNAUTHORIZED" "Token hook headers are invalid" None
  | _, _, _ => errorResult 401 "UNAUTHORIZED" "Token hook headers are invalid" None
  end.

Section route.
Context (hmac_sha256 : string -> string -> string) (from_base64 : string -> string).
Context (parseTokenHookPayload : string -> option TokenHookPayload).

Definition token_hook_route (secret : string) (h : hook_headers) (body : string)
  : M (webhook_ids * accounts_db) (HttpResult (list (string * jsval))) :=
  if negb (nonempty secret) then mret (errorResult 500 "SERVER_MISCONFIGURED" "Hook secret not configured" None)
  else
    let? (webhookId, timestamp, signature) := mret (parseTokenHookHeaders h) in
    nowMs ← now_;
    ids ← gets fst;
    let '(verification, ids') := verifyTokenHookRequest hmac_sha256 from_base64 secret nowMs
      {| hi_body := body; hi_webhookId := webhookId; hi_webhookTimestamp := timestamp; hi_webhookSignature := signature |} ids in
    _ ← modify (fun s => (ids', s.2));
    match verification with
    | hook_refused status code message => mret (errorResult status code message None)
    | hook_ok =>
        match parseTokenHookPayload body with
        | None => mret (errorResult 400 "BAD_REQUEST" "Invalid JSON payload" None)
        | Some payload =>
            claims ← zoom snd (fun db s => (s.1, db)) (buildTokenHookClaims payload);
            mret (okResult claims)
        end
    end.
End route.
End sign_in.
End audiences.
