(* ===== verification/TokenHookSpec.v ===== *)
(** * What the sign-in hook promises

    The name of a new tenant is well formed; the claims of a token say what the tables
    say of its user and read back by the API; a sign-in gives a tenant to a user that has
    none, adds only rows of the tenants it gives, and changes and removes none. *)

From Stdlib Require Import Ascii.
From S2P Require Import Prelude JsString JsValue Json Sql Effects Constants Tenancy Rbac Effective Policies PolicyCorrect PolicyRefine PolicySpec Provision ProvisionCorrect ProvisionSpec AuthClaims Webhook TokenHook.
Local Open Scope string_scope.
Local Open Scope list_scope.
Local Open Scope Z_scope.

(** ** Names *)

Fixpoint all_chars (p : ascii -> bool) (s : string) : bool :=
  match s with EmptyString => true | String c s => p c && all_chars p s end.

Lemma runs_chars (p q : ascii -> bool) inside s :
  q "-"%char = true -> all_chars (fun c => p c || q c) s = true -> all_chars q (replace_runs p inside s) = true.
Proof.
  intros Hd. revert inside. induction s as [|c s IH]; intros inside; cbn; [done|]. intros [Hc Hs]%andb_prop.
  destruct (p c) eqn:E; cbn in *; [destruct inside; cbn; rewrite ?Hd; by apply IH|]. rewrite Hc. by apply IH.
Qed.

Lemma all_chars_mono (p q : ascii -> bool) s : (forall c, p c = true -> q c = true) -> all_chars p s = true -> all_chars q s = true.
Proof. intros Hpq. induction s as [|c s IH]; cbn; [done|]. intros [Hc Hs]%andb_prop. by rewrite (Hpq c Hc), IH. Qed.

Lemma all_chars_any s : all_chars (fun c => negb (is_name_char c) || is_name_char c) s = true.
Proof. induction s as [|c s IH]; cbn; [done|]. rewrite IH. by destruct (is_name_char c). Qed.

Lemma strip_start_chars p q s : all_chars q s = true -> all_chars q (strip_start p s) = true.
Proof. induction s as [|c s IH]; cbn; [done|]. intros [Hc Hs]%andb_prop. destruct (p c); [by apply IH|]. cbn. by rewrite Hc, Hs. Qed.

Lemma strip_end_cons p c s :
  strip_end p (String c s) =
  if String.eqb (strip_end p s) EmptyString then (if p c then EmptyString else String c EmptyString) else String c (strip_end p s).
Proof. cbn. by destruct (strip_end p s). Qed.

Lemma strip_end_chars p q s : all_chars q s = true -> all_chars q (strip_end p s) = true.
Proof.
  induction s as [|c s IH]; [done|]. intros [Hc Hs]%andb_prop. rewrite strip_end_cons. destruct (String.eqb _ _).
  - destruct (p c); cbn; [done|]. by rewrite Hc.
  - cbn. by rewrite Hc, IH.
Qed.

Lemma take_chars q n s : all_chars q s = true -> all_chars q (take_str n s) = true.
Proof. revert s. induction n as [|n IH]; intros [|c s]; cbn; try done. intros [Hc Hs]%andb_prop. by rewrite Hc, IH. Qed.

Lemma strip_end_idem p s : strip_end p (strip_end p s) = strip_end p s.
Proof.
  induction s as [|c s IH]; [done|]. rewrite strip_end_cons. destruct (String.eqb_spec (strip_end p s) EmptyString) as [He|He].
  - destruct (p c) eqn:E; cbn; [done|]. by rewrite E.
  - rewrite strip_end_cons, IH. by rewrite (proj2 (String.eqb_neq _ _) He).
Qed.

Lemma strip_end_length p s : (String.length (strip_end p s) <= String.length s)%nat.
Proof.
  induction s as [|c s IH]; [done|]. rewrite strip_end_cons. destruct (String.eqb _ _); [destruct (p c); cbn; lia|cbn; lia].
Qed.

Lemma take_length n s : (String.length (take_str n s) <= n)%nat.
Proof. revert s. induction n as [|n IH]; intros [|c s]; cbn; try lia. specialize (IH s). lia. Qed.

(** A string that starts with a character that is not stripped. *)
Definition starts_kept (p : ascii -> bool) (s : string) : bool := match s with String c _ => negb (p c) | EmptyString => false end.

Lemma kept_end p s : starts_kept p s = true -> starts_kept p (strip_end p s) = true.
Proof.
  destruct s as [|c s]; [done|]. cbn [starts_kept]. intros Hc. rewrite strip_end_cons. apply negb_true_iff in Hc. rewrite Hc.
  destruct (String.eqb _ _); cbn; by rewrite Hc.
Qed.

Lemma kept_take p n s : starts_kept p s = true -> starts_kept p (take_str (S n) s) = true.
Proof. by destruct s. Qed.

Lemma kept_start p s : starts_kept p s = true -> strip_start p s = s.
Proof. destruct s as [|c s]; [done|]. cbn. intros Hc%negb_true_iff. by rewrite Hc. Qed.

Lemma kept_after p c s : p c = false -> no_char c s = false -> starts_kept p (strip_start p s) = true.
Proof.
  intros Hc. induction s as [|d s IH]; [done|]. rewrite no_char_cons. intros Hn. cbn. destruct (p d) eqn:E; [|cbn; by rewrite E].
  apply IH. destruct (Ascii.eqb_spec d c) as [->|]; [congruence|]. exact Hn.
Qed.

Lemma runs_keep p c inside s : p c = false -> no_char c s = false -> no_char c (replace_runs p inside s) = false.
Proof.
  intros Hc. revert inside. induction s as [|d s IH]; intros inside; [done|]. rewrite no_char_cons. intros Hn. cbn.
  destruct (p d) eqn:E.
  - assert (Hs : no_char c s = false) by (destruct (Ascii.eqb_spec d c) as [->|]; [congruence|exact Hn]).
    destruct inside; [by apply IH|]. rewrite no_char_cons, IH by done. apply andb_false_r.
  - rewrite no_char_cons. destruct (Ascii.eqb d c); [done|]. by apply IH.
Qed.

Lemma includes_char s c : includes s (String c EmptyString) = negb (no_char c s).
Proof.
  induction s as [|d s IH]; [done|]. rewrite no_char_cons. cbn [includes]. rewrite IH. cbn.
  rewrite (Ascii.eqb_sym c d). destruct (Ascii.eqb d c); by destruct s.
Qed.

(** A name a tenant may get from an address. *)
Record good_name (s : string) : Prop := {
  gn_nonempty : s <> EmptyString;
  gn_length : (String.length s <= 80)%nat;
  gn_chars : all_chars is_name_char s = true;
  gn_start : strip_start is_mark s = s;
  gn_end : strip_end is_mark s = s
}.

Lemma sanitize_cases email :
  match sanitizeTenantNameFromEmail email with
  | Some s => good_name s /\ includes (toLowerCase (trim email)) "@" = true
  | None => includes (toLowerCase (trim email)) "@" = false
  end.
Proof.
  unfold sanitizeTenantNameFromEmail. destruct (includes _ _) eqn:Ei; cbn [negb]; [|done]. rewrite includes_char in Ei. apply negb_true_iff in Ei.
  set (x := replace_runs _ _ (replace_runs _ _ _)).
  assert (Hx : all_chars is_name_char x = true).
  { apply runs_chars; [done|]. eapply all_chars_mono; [|apply runs_chars; [|apply all_chars_any]]; [|done].
    intros c Hc. cbn beta. by rewrite Hc, orb_true_r. }
  assert (Hat : no_char "@" x = false) by (by apply runs_keep, runs_keep).
  set (y := strip_end is_mark (strip_start is_mark x)).
  assert (Hy : starts_kept is_mark y = true) by (by apply kept_end, (kept_after _ "@"%char)).
  set (z := strip_end is_mark (take_str 80 y)).
  assert (Hz : starts_kept is_mark z = true) by (by apply kept_end, kept_take).
  assert (Hne : nonempty z = true) by (by destruct z). rewrite Hne. split; [split|done].
  - by destruct z.
  - transitivity (String.length (take_str 80 y)); [apply strip_end_length|apply take_length].
  - apply strip_end_chars, take_chars, strip_end_chars, strip_start_chars, Hx.
  - by apply kept_start.
  - apply strip_end_idem.
Qed.

(** ** Claims read back *)

Definition info (m : MembershipRow) : TenantInfo :=
  {| ti_tenant_id := mr_tenant_id m; ti_tenant_name := mr_tenant_name m; ti_tenant_kind := mr_tenant_kind m; ti_role := mr_role m |}.

Definition claims_of (active : MembershipRow) (ms : list MembershipRow) : AuthClaims :=
  {| cl_tenantId := mr_tenant_id active; cl_tenantKind := mr_tenant_kind active; cl_role := mr_role active;
     cl_tenants := map info ms |}.

Lemma spread_last k a b v : NoDup b.*1 -> own k b = Some v -> own k (spread a b) = Some v.
Proof. intros Hn Hk. by rewrite own_spread, Hk. Qed.

Section spec.
Context `{Formats}.

Lemma claims_read_back claims aud active ms :
  valid_tenant (info active) = true -> Forall (fun m => valid_tenant (info m) = true) ms ->
  parseAccessTokenClaimsFromPayload (JObj (built_claims claims aud active ms)) = Ok (Some (claims_of active ms)).
Proof using Type.
  intros Ha Hms. unfold parseAccessTokenClaimsFromPayload, parseBaseClaims, built_claims.
  set (app := spread (spread [] (own_props _)) _).
  assert (Hn : forall v1 v2 v3 v4 : jsval, NoDup [("tenant_id", v1); ("tenant_kind", v2); ("role", v3); ("tenants", v4)].*1).
  { intros v1 v2 v3 v4. apply (bool_decide_unpack _). vm_compute. exact I. }
  assert (Happ : opt_prop (JObj (spread (spread (spread [] claims) (if truthy aud then [("aud", aud)] else []))
    [("tenant_id", JStr (mr_tenant_id active)); ("app_metadata", JObj app)])) "app_metadata" = JObj app).
  { unfold opt_prop. rewrite (get_prop_obj_own _ _ (JObj app)); [done|]. apply spread_last; [|reflexivity].
    apply (bool_decide_unpack _). vm_compute. exact I. }
  rewrite Happ. assert (Hid : own "tenant_id" app = Some (JStr (mr_tenant_id active))) by (by apply spread_last).
  assert (Hkind : own "tenant_kind" app = Some (JStr (mr_tenant_kind active))) by (by apply spread_last).
  assert (Hrole : own "role" app = Some (JStr (mr_role active))) by (by apply spread_last).
  assert (Hts : own "tenants" app = Some (JArr (map tenant_claim ms))) by (by apply spread_last).
  unfold opt_prop. rewrite (get_prop_obj_own _ _ _ Hid). cbn [truthy is_object is_string negb orb].
  unfold appMetadataSchema, string_field, tenant_kind_field, tenants_field. rewrite Hid, Hkind, Hrole, Hts.
  unfold valid_tenant in Ha. cbn [ti_tenant_id ti_tenant_name ti_tenant_kind ti_role info] in Ha.
  apply andb_prop in Ha as [[[Hu _]%andb_prop Hk]%andb_prop Hr]. rewrite Hu, Hr. cbn [from_option Datatypes.id mbind option_bind]. rewrite Hk.
  cbn [mbind option_bind]. replace (map tenant_claim ms) with (map encode_tenant (map info ms)) by (rewrite map_map; done).
  rewrite read_tenants; [done|]. rewrite Forall_map. exact Hms.
Qed.

(** ** The tenants of a user *)

Record accounts_wf (db : accounts_db) : Prop := {
  aw_tenants : unique_rows tenant_conflict (tenants db);
  aw_memberships : unique_rows membership_row_conflict (ac_memberships db);
  aw_tenant m : m ∈ ac_memberships db -> exists t, t ∈ tenants db /\ tn_id t = mb_tenant_id m
}.

Lemma tenant_conflict_sym a b : tenant_conflict a b = tenant_conflict b a.
Proof using Type. unfold tenant_conflict. by rewrite (String.eqb_sym (tn_id b)), (andb_comm (String.eqb (tn_kind b) _)). Qed.

Lemma tenant_by_id db t u : accounts_wf db -> t ∈ tenants db -> u ∈ tenants db -> tn_id t = tn_id u -> t = u.
Proof using Type.
  intros Hwf Ht Hu Hid. apply (unique_elem tenant_conflict (tenants db)); [apply tenant_conflict_sym|apply Hwf|done|done|].
  unfold tenant_conflict. by rewrite Hid, String.eqb_refl.
Qed.

Lemma user_memberships_elem userId db m :
  m ∈ user_memberships userId db <->
  exists b t, b ∈ ac_memberships db /\ t ∈ tenants db /\ mb_tenant_id b = tn_id t /\ mb_user_id b = userId /\ m = membership_of b t.
Proof using Type.
  unfold user_memberships. rewrite list_elem_of_fmap. split.
  - intros ([b t] & -> & [Hin Hu%String.eqb_eq]%elem_of_filter_b). apply inner_join_elem_of in Hin as (Hb & Ht & Hj%String.eqb_eq). by exists b, t.
  - intros (b & t & Hb & Ht & Hj & Hu & ->). exists (b, t). split; [done|]. apply elem_of_filter_b. rewrite inner_join_elem_of. cbn.
    by rewrite Hj, Hu, !String.eqb_refl.
Qed.

(** ** What is added

    Rows are only appended, and belong to some tenants. *)

Definition appended {R} (P : R -> Prop) (l l' : list R) : Prop := exists news, l' = l ++ news /\ Forall P news.

Lemma appended_refl {R} (P : R -> Prop) l : appended P l l.
Proof using Type. exists []. by rewrite app_nil_r. Qed.

Lemma appended_one {R} (P : R -> Prop) l x : P x -> appended P l (l ++ [x]).
Proof using Type. intros Hx. exists [x]. split; [done|]. by constructor. Qed.

Lemma appended_trans {R} (P Q : R -> Prop) l1 l2 l3 :
  (forall x, P x -> Q x) -> appended P l1 l2 -> appended Q l2 l3 -> appended Q l1 l3.
Proof using Type.
  intros HPQ (n1 & -> & H1) (n2 & -> & H2). exists (n1 ++ n2). rewrite app_assoc. split; [done|].
  apply Forall_app. split; [|done]. by eapply Forall_impl.
Qed.

(** The tables of policies, with rows appended for the tenants in [mine]. *)
Record statutes_added (mine : string -> Prop) (t t' : policy_tables) : Prop := {
  sa_policies : appended (fun p => mine (pr_tenant p)) (policies_table t) (policies_table t');
  sa_rules : appended (fun r => mine (rr_tenant_id r)) (rules_table t) (rules_table t');
  sa_bindings : appended (fun b => mine (rbr_tenant_id b)) (rule_bindings_table t) (rule_bindings_table t');
  sa_project_bindings : project_bindings_table t' = project_bindings_table t
}.

(** The tables but for memberships, with rows appended for the tenants in [mine]. *)
Record tables_added (mine : string -> Prop) (db db' : accounts_db) : Prop := {
  ta_tenants : appended (fun t => mine (tn_id t)) (tenants db) (tenants db');
  ta_entitlements : appended (fun e => mine (te_tenant_id (er_row e))) (ac_entitlements db) (ac_entitlements db');
  ta_statutes : statutes_added mine (ac_policies db) (ac_policies db')
}.

Lemma statutes_added_refl mine t : statutes_added mine t t.
Proof using Type. split; [apply appended_refl..|done]. Qed.

Lemma statutes_added_trans (mine mine' : string -> Prop) t1 t2 t3 :
  (forall T, mine T -> mine' T) -> statutes_added mine t1 t2 -> statutes_added mine' t2 t3 -> statutes_added mine' t1 t3.
Proof using Type.
  intros Hm [A1 A2 A3 A4] [B1 B2 B3 B4]. split; [..|by rewrite B4].
  - eapply appended_trans; [|exact A1|exact B1]. cbn. auto.
  - eapply appended_trans; [|exact A2|exact B2]. cbn. auto.
  - eapply appended_trans; [|exact A3|exact B3]. cbn. auto.
Qed.

Lemma tables_added_refl mine db : tables_added mine db db.
Proof using Type. split; [apply appended_refl..|apply statutes_added_refl]. Qed.

Lemma tables_added_trans (mine mine' : string -> Prop) db1 db2 db3 :
  (forall T, mine T -> mine' T) -> tables_added mine db1 db2 -> tables_added mine' db2 db3 -> tables_added mine' db1 db3.
Proof using Type.
  intros Hm [A1 A2 A3] [B1 B2 B3]. split.
  - eapply appended_trans; [|exact A1|exact B1]. cbn. auto.
  - eapply appended_trans; [|exact A2|exact B2]. cbn. auto.
  - by eapply statutes_added_trans.
Qed.

Lemma tables_added_mono (mine mine' : string -> Prop) db db' :
  (forall T, mine T -> mine' T) -> tables_added mine db db' -> tables_added mine' db db'.
Proof using Type. intros Hm Ha. eapply tables_added_trans; [exact Hm|exact Ha|apply tables_added_refl]. Qed.

(** Writing the policies of a tenant only adds rows of that tenant. *)
Section writes.
Context `{Env} `{SqlOrder} (T : string) (t0 : policy_tables).

Let I (_ : nat) (t : policy_tables) : Prop := statutes_added (eq T) t0 t.

Lemma added_monotone : monotone I.
Proof using Type. by intros ? ? ?. Qed.

Lemma keeps_insert_unique {R} get put (conflict : R -> R -> bool) new :
  (forall n t, I n t -> I n (put (get t ++ [new]) t)) -> keeps I (insert_unique get put conflict new).
Proof using Type.
  intros Hput. apply keeps_bind; [apply keeps_gets|]. intros []; [apply keeps_throw|]. by apply keeps_modify.
Qed.

Lemma create_policy_adds new : (forall id key from, pr_tenant (new id key from) = T) -> keeps I (create_policy new).
Proof using Type.
  intros Hnew. unfold create_policy. apply keeps_bind; [apply keeps_fresh, added_monotone|intros id].
  apply keeps_bind; [apply keeps_fresh, added_monotone|intros key]. apply keeps_bind; [apply keeps_now, added_monotone|intros from].
  cbn zeta. apply keeps_bind; [|intros _; apply keeps_ret]. apply keeps_insert_unique. intros n t Ht.
  eapply statutes_added_trans; [|exact Ht|]; [done|]. split; cbn; [by apply appended_one|apply appended_refl..|done].
Qed.

Lemma insert_first_rule_adds body : keeps I (insert_first_rule T body).
Proof using Type.
  unfold insert_first_rule. apply keeps_bind; [apply keeps_fresh, added_monotone|intros id].
  apply keeps_bind; [apply keeps_fresh, added_monotone|intros key]. apply keeps_bind; [apply keeps_now, added_monotone|intros from].
  apply keeps_bind; [|intros _; apply keeps_ret]. apply keeps_insert_unique. intros n t Ht.
  eapply statutes_added_trans; [|exact Ht|]; [done|]. split; cbn; [apply appended_refl|by apply appended_one|apply appended_refl|done].
Qed.

Lemma insert_rule_binding_adds policyId c : keeps I (insert_rule_binding T policyId c).
Proof using Type.
  unfold insert_rule_binding. apply keeps_bind; [apply keeps_fresh, added_monotone|intros id]. apply keeps_insert_unique.
  intros n t Ht. eapply statutes_added_trans; [|exact Ht|]; [done|].
  split; cbn; [apply appended_refl..|by apply appended_one|done].
Qed.

Lemma ensureStarterPolicies_adds : keeps I (ensureStarterPolicies T).
Proof using Type.
  apply keeps_bind; [|intros ?; apply keeps_ret]. apply keeps_mapM. intros input. apply keeps_bind; [apply keeps_gets|].
  intros existing. destruct existing; [apply keeps_ret|]. apply keeps_bind; [by apply create_policy_adds|intros policy].
  apply keeps_bind; [apply keeps_mapM; intros ?; apply insert_first_rule_adds|intros ids].
  apply keeps_bind; [apply keeps_mapM; intros ?; apply insert_rule_binding_adds|intros ?; apply keeps_ret].
Qed.

Lemma copyPlatformPolicies_adds platform : keeps I (copyPlatformPolicyTemplatesToTenant platform T).
Proof using Type.
  unfold copyPlatformPolicyTemplatesToTenant. destruct (String.eqb platform T); [apply keeps_ret|].
  apply keeps_bind; [apply keeps_now, added_monotone|intros now]. apply keeps_bind; [apply keeps_gets|intros ps].
  apply keeps_bind; [|intros ?; apply keeps_ret]. apply keeps_mapM. intros p. apply keeps_bind; [apply keeps_gets|].
  intros existing. destruct existing; [apply keeps_ret|]. apply keeps_bind; [by apply create_policy_adds|intros policy].
  apply keeps_bind; [apply keeps_gets|intros rows].
  apply keeps_bind; [apply keeps_mapM; intros ?; apply insert_first_rule_adds|intros ids].
  apply keeps_bind; [apply keeps_mapM; intros ?; apply insert_rule_binding_adds|intros ?; apply keeps_ret].
Qed.
End writes.

(** The tenants of a user, by the table of memberships. *)
Definition belongs (userId : string) (db : accounts_db) (T : string) : Prop :=
  exists b, b ∈ ac_memberships db /\ mb_user_id b = userId /\ mb_tenant_id b = T.

(** What giving a user some memberships does. *)
Record grew (userId : string) (ms : list MembershipRow) (db db' : accounts_db) : Prop := {
  gr_wf : accounts_wf db -> accounts_wf db';
  gr_added : tables_added (belongs userId db') db db';
  gr_memberships : exists news, ac_memberships db' = ac_memberships db ++ news /\
    Forall2 (fun m b => mb_user_id b = userId /\ mb_tenant_id b = mr_tenant_id m /\ mb_role b = mr_role m /\ mr_role m = "owner") ms news;
  gr_rows m : m ∈ ms -> exists t, t ∈ tenants db' /\ tn_id t = mr_tenant_id m /\ tn_name t = mr_tenant_name m /\ tn_kind t = mr_tenant_kind m
}.

Lemma gr_tenants userId ms db db' : grew userId ms db db' -> tenants db ⊆ tenants db'.
Proof using Type. intros [_ [(news & -> & _) _ _] _ _] t Ht. apply elem_of_app. by left. Qed.

Lemma gr_belongs userId ms db db' T : grew userId ms db db' -> belongs userId db T -> belongs userId db' T.
Proof using Type.
  intros [_ _ (news & Hm & _) _] (b & Hb & Hu & HT). exists b. rewrite Hm. split; [|done]. apply elem_of_app. by left.
Qed.

Lemma grew_belongs userId ms db db' m : grew userId ms db db' -> m ∈ ms -> belongs userId db' (mr_tenant_id m).
Proof using Type.
  intros [_ _ (news & Hnews & Hall) _] Hm. apply list_elem_of_lookup in Hm as [i Hi].
  destruct (Forall2_lookup_l _ _ _ _ _ Hall Hi) as (b & Hb & Hu & HT & _). exists b. split; [|done]. rewrite Hnews.
  apply elem_of_app. right. by eapply list_elem_of_lookup_2.
Qed.

Lemma grew_same userId db db' :
  tables_added (belongs userId db') db db' -> tenants db' = tenants db -> ac_memberships db' = ac_memberships db ->
  grew userId [] db db'.
Proof using Type.
  intros Ha Ht Hm. split.
  - intros [H1 H2 H3]. split; rewrite ?Ht, ?Hm; done.
  - done.
  - exists []. rewrite app_nil_r. by split; [|constructor].
  - by intros m ?%not_elem_of_nil.
Qed.

Lemma grew_refl userId db : grew userId [] db db.
Proof using Type. apply grew_same; [apply tables_added_refl|done..]. Qed.

Lemma grew_app userId ms1 ms2 db db1 db2 : grew userId ms1 db db1 -> grew userId ms2 db1 db2 -> grew userId (ms1 ++ ms2) db db2.
Proof using Type.
  intros A B. assert (Hb := fun T => gr_belongs _ _ _ _ T B). assert (Ht := gr_tenants _ _ _ _ B).
  destruct A as [A1 A2 (n1 & A3 & A4) A5], B as [B1 B2 (n2 & B3 & B4) B5]. split; [auto| | |].
  - eapply tables_added_trans; [|exact A2|exact B2]. exact Hb.
  - exists (n1 ++ n2). rewrite B3, A3, app_assoc. split; [done|]. by apply Forall2_app.
  - intros m [Hm|Hm]%elem_of_app; [|by apply B5]. destruct (A5 m Hm) as (t & Hin & Ht'). exists t. split; [by apply Ht|done].
Qed.

Section runs.
Context `{Env} `{SqlOrder} (userId : string).

Lemma claim_grew tenant s m s' :
  returns (claimTenantOwnerMembership userId tenant) s m s' -> tenant ∈ tenants s.2 -> m = owner_of tenant /\ grew userId [m] s.2 s'.2.
Proof using Type.
  intros Hr Ht. apply returns_bind in Hr as (u & s1 & Hi & Hr). apply returns_ret in Hr as [-> <-]. split; [done|].
  apply returns_bind in Hi as (id & s2 & Hf & Hi). apply returns_fresh in Hf as [-> ->]. apply insert_unique_inv in Hi as [Hc ->].
  cbn [fst snd] in *. split; cbn.
  - intros [H1' H2' H3']. split; cbn; [done|by apply unique_insert|].
    intros b [Hb|Hb%list_elem_of_singleton]%elem_of_app; [by apply H3'|]. subst b. by exists tenant.
  - split; [apply appended_refl..|apply statutes_added_refl].
  - eexists. split; [done|]. by repeat constructor.
  - intros m ->%list_elem_of_singleton. by exists tenant.
Qed.

Lemma create_grew name kind s m s' :
  returns (createTenantOwnerMembership userId name kind) s m s' ->
  mr_tenant_name m = name /\ mr_tenant_kind m = kind /\ grew userId [m] s.2 s'.2.
Proof using Type.
  intros Hr. apply returns_bind in Hr as (id & s1 & Hf & Hr). apply returns_fresh in Hf as [-> ->].
  apply returns_bind in Hr as (at_ & s1 & Hf & Hr). apply returns_now in Hf as [-> ->]. cbn zeta in Hr. cbn [fst snd] in Hr.
  set (t := {| tn_id := uuid s.1; tn_name := name; tn_kind := kind; tn_created_at := clock (S s.1) |}) in *.
  apply returns_bind in Hr as (u & s1 & Hi & Hr). apply insert_unique_inv in Hi as [Hc ->]. cbn [fst snd] in *.
  assert (Hm : m = owner_of t /\ returns (claimTenantOwnerMembership userId t) (S (S s.1), set_tenants (tenants s.2 ++ [t]) s.2) m s').
  { apply returns_bind in Hr as (u' & s2 & Hi & Hr). apply returns_ret in Hr as [-> <-]. split; [done|].
    apply returns_bind. by exists u', s'. }
  destruct Hm as [-> Hm]. apply claim_grew in Hm as [_ Hg]; [|cbn; apply elem_of_app; right; by apply list_elem_of_singleton].
  split; [done|]. split; [done|]. cbn [fst snd] in Hg. assert (Hg' := Hg). destruct Hg' as [G1 G2 G3 G4]. split; [| |exact G3|exact G4].
  - intros [W1 W2 W3]. apply G1. split; cbn; [by apply unique_insert|done|].
    intros b Hb. destruct (W3 b Hb) as (t0 & Ht0 & Hid). exists t0. split; [|done]. apply elem_of_app. by left.
  - eapply (tables_added_trans (eq (tn_id t))); [| |exact G2].
    + intros T <-. apply (grew_belongs _ _ _ _ (owner_of t) Hg). by left.
    + split; cbn; [by apply appended_one|apply appended_refl|apply statutes_added_refl].
Qed.

(** Writing policies for a tenant of the user. *)
Lemma statutes_grew {A} (e : PM A) T s a s' :
  (forall t, keeps (fun _ => statutes_added (eq T) t) e) -> belongs userId s.2 T ->
  returns (on_statutes e) s a s' -> grew userId [] s.2 s'.2.
Proof using Type.
  intros Hk HT (t' & Hr & Hs)%on_statutes_inv.
  destruct (returns_keeps _ _ _ _ _ (Hk (ac_policies s.2)) Hr (statutes_added_refl _ _)) as [_ Ha]. cbn [snd] in Ha. rewrite Hs.
  apply grew_same; [|done..]. split; cbn; [apply appended_refl..|]. eapply statutes_added_trans; [|exact Ha|apply statutes_added_refl].
  by intros ? <-.
Qed.

Lemma provision_grew tenantId platform s r s' :
  returns (provisionCustomerTenantDefaults tenantId platform) s r s' -> belongs userId s.2 tenantId -> grew userId [] s.2 s'.2.
Proof using Type.
  intros Hr HT. apply returns_bind in Hr as (u & s1 & He & Hr). apply entitlements_inv in He as (_ & Ht & Hm & Hp & _ & He).
  apply returns_bind in Hr as (P & s2 & Hf & Hr).
  assert (Hs2 : s2 = s1) by (destruct platform; [by apply returns_ret in Hf as [_ ->]|by apply returns_gets in Hf as [_ ->]]). subst s2.
  apply returns_bind in Hr as (copied & s3 & Hc & Hr).
  assert (G1 : grew userId [] s.2 s1.2).
  { apply grew_same; [|done..]. assert (HT1 : belongs userId s1.2 tenantId) by (by unfold belongs; rewrite Hm). split.
    - rewrite Ht. apply appended_refl.
    - destruct He as [He|He]; rewrite He; [apply appended_refl|by apply appended_one].
    - rewrite Hp. apply statutes_added_refl. }
  assert (HT1 := gr_belongs _ _ _ _ _ G1 HT).
  assert (G2 : grew userId [] s1.2 s3.2).
  { destruct P as [P|]; [destruct (nonempty P)|];
      [|apply returns_ret in Hc as [_ ->]; apply grew_refl..].
    eapply (statutes_grew _ tenantId); [|exact HT1|exact Hc]. intros t. apply copyPlatformPolicies_adds. }
  assert (HT2 := gr_belongs _ _ _ _ _ G2 HT1).
  assert (G3 : grew userId [] s3.2 s'.2).
  { run_if E; [apply returns_ret in Hr as [_ ->]; apply grew_refl|]. apply returns_bind in Hr as (k & s4 & Hs & Hr).
    apply returns_ret in Hr as [_ ->]. eapply (statutes_grew _ tenantId); [|exact HT2|exact Hs]. intros t. apply ensureStarterPolicies_adds. }
  exact (grew_app userId [] [] _ _ _ G1 (grew_app userId [] [] _ _ _ G2 G3)).
Qed.
Lemma provision_customers_grew platform ms s u s' : 
  returns (provision_customers platform ms) s u s' -> (forall m, m ∈ ms -> belongs userId s.2 (mr_tenant_id m)) -> grew userId [] s.2 s'.2.
Proof using Type.
  intros Hr Hms. apply returns_bind in Hr as (us & s1 & Hl & Hr). apply returns_ret in Hr as [_ ->].
  assert (Hg : forall l us s0, (forall m, m ∈ l -> m ∈ ms) -> grew userId [] s.2 s0.2 ->
    returns (mapM_ (fun m => if is_customer m then _ ← provisionCustomerTenantDefaults (mr_tenant_id m) platform; mret tt else mret tt) l) s0 us s1 ->
    grew userId [] s.2 s1.2); [|by eapply (Hg ms us s); [|apply grew_refl|]].
  induction l as [|m l IH]; intros us' s0 Hin Hg Hr; cbn [mapM_] in Hr; [by apply returns_ret in Hr as [_ ->]|].
  apply returns_bind in Hr as (y & s2 & Hm & Hr). apply returns_bind in Hr as (ys & s3 & Hr & Hret). apply returns_ret in Hret as [_ ->].
  apply (IH ys s2); [intros x Hx; apply Hin; by right| |done]. apply (grew_app userId [] [] _ _ _ Hg). destruct (is_customer m).
  - apply returns_bind in Hm as (r & s4 & Hp & Hm). apply returns_ret in Hm as [_ ->]. eapply provision_grew; [exact Hp|].
    apply (gr_belongs _ _ _ _ _ Hg), Hms, Hin. by left.
  - apply returns_ret in Hm as [_ ->]. apply grew_refl.
Qed.

Lemma when_some_inv {A B} (o : option A) (f : A -> TX B) s bs s' :
  returns (when_some o f) s bs s' ->
  match o with None => bs = [] /\ s' = s | Some a => exists b, bs = [b] /\ returns (f a) s b s' end.
Proof using Type.
  intros Hr. destruct o as [a|]; [|by apply returns_ret in Hr]. apply returns_bind in Hr as (b & s1 & Hf & Hr).
  apply returns_ret in Hr as [-> ->]. by exists b.
Qed.

Lemma claim_initial_grew name platform customer s ms s' :
  returns (claim_initial_tenants userId name platform customer) s ms s' ->
  (forall t, platform = Some t \/ customer = Some t -> t ∈ tenants s.2) -> is_Some platform \/ is_Some customer ->
  exists ms0, ms ≡ₚ ms0 /\ grew userId ms0 s.2 s'.2 /\ ms0 <> [].
Proof using Type.
  intros Hr Hin Hsome. apply returns_bind in Hr as (mp & s1 & Hp & Hr). apply returns_bind in Hr as (k & s2 & He & Hr).
  apply returns_bind in Hr as (mc & s3 & Hc & Hr). apply returns_bind in Hr as (u & s4 & Hv & Hr). apply returns_ret in Hr as [-> ->].
  exists (mp ++ mc). split; [apply js_sort_perm|].
  assert (G1 : grew userId mp s.2 s1.2).
  { apply when_some_inv in Hp. destruct platform as [t|]; [|by destruct Hp as [-> ->]; apply grew_refl].
    destruct Hp as (m & -> & Hp). apply claim_grew in Hp as [_ Hg]; [done|]. apply Hin. by left. }
  assert (G2 : grew userId [] s1.2 s2.2).
  { apply when_some_inv in He. destruct platform as [t|]; [|by destruct He as [_ ->]; apply grew_refl].
    destruct He as (z & _ & He). apply when_some_inv in Hp as (m & -> & Hp). apply claim_grew in Hp as [-> _]; [|apply Hin; by left].
    eapply (statutes_grew _ (tn_id t)); [|apply (grew_belongs _ _ _ _ (owner_of t) G1); by left|exact He].
    intros t'. apply ensureStarterPolicies_adds. }
  assert (G12 := grew_app userId mp [] _ _ _ G1 G2). rewrite app_nil_r in G12.
  assert (G3 : grew userId mc s2.2 s3.2 /\ (is_Some platform \/ is_Some customer -> mc <> [] \/ mp <> [])).
  { destruct customer as [t|]; [|destruct platform as [t|]].
    - apply returns_bind in Hc as (m & s5 & Hm & Hc). apply returns_ret in Hc as [-> ->].
      apply claim_grew in Hm as [_ Hg]; [split; [done|by left]|]. apply (gr_tenants _ _ _ _ G12). apply Hin. by right.
    - apply returns_bind in Hc as (m & s5 & Hm & Hc). apply returns_ret in Hc as [-> ->].
      apply create_grew in Hm as (_ & _ & Hg). split; [done|by left].
    - apply returns_ret in Hc as [-> ->]. split; [apply grew_refl|]. by intros [[? ?]|[? ?]]. }
  destruct G3 as [G3 Hne]. assert (G123 := grew_app userId mp mc _ _ _ G12 G3).
  assert (G4 := provision_customers_grew _ _ _ _ _ Hv (fun m => grew_belongs _ _ _ _ m G123)).
  assert (G := grew_app userId _ [] _ _ _ G123 G4). rewrite app_nil_r in G.
  split; [exact G|]. intros [-> ->]%app_eq_nil. by destruct (Hne Hsome).
Qed.

Lemma create_tenants_grew name s ms s' :
  returns (create_tenants userId name) s ms s' -> exists ms0, ms ≡ₚ ms0 /\ grew userId ms0 s.2 s'.2 /\ ms0 <> [].
Proof using Type.
  intros Hr. apply returns_bind in Hr as (count & s1 & Hg & Hr). apply returns_gets in Hg as [-> ->]. destruct (length _).
  - apply returns_bind in Hr as (mp & s1 & Hp & Hr). apply create_grew in Hp as (_ & _ & G1).
    apply returns_bind in Hr as (k & s2 & Hk & Hr).
    assert (G2 := statutes_grew _ _ _ _ _ (fun t => ensureStarterPolicies_adds _ t) (grew_belongs _ _ _ _ mp G1 ltac:(by left)) Hk).
    apply returns_bind in Hr as (mc & s3 & Hc & Hr). apply create_grew in Hc as (_ & _ & G3).
    apply returns_bind in Hr as (r & s4 & Hv & Hr).
    assert (G4 := provision_grew _ _ _ _ _ Hv (grew_belongs _ _ _ _ mc G3 ltac:(by left))). apply returns_ret in Hr as [-> ->].
    exists [mp; mc]. split; [apply js_sort_perm|]. split; [|done].
    exact (grew_app userId [mp] [mc] _ _ _ (grew_app userId [mp] [] _ _ _ G1 G2) (grew_app userId [mc] [] _ _ _ G3 G4)).
  - apply returns_bind in Hr as (mc & s3 & Hc & Hr). apply create_grew in Hc as (_ & _ & G3).
    apply returns_bind in Hr as (r & s4 & Hv & Hr).
    assert (G4 := provision_grew _ _ _ _ _ Hv (grew_belongs _ _ _ _ mc G3 ltac:(by left))). apply returns_ret in Hr as [-> ->].
    exists [mc]. split; [done|]. split; [|done]. exact (grew_app userId [mc] [] _ _ _ G3 G4).
Qed.

Lemma claimable_elem db t : t ∈ claimable_tenants db -> t ∈ tenants db.
Proof using Type.
  unfold claimable_tenants. intros (i & Hi & _)%elem_of_take. apply list_elem_of_lookup_2 in Hi. rewrite order_by_elem_of in Hi.
  by apply elem_of_filter_b in Hi as [? _].
Qed.

Lemma of_kind_elem kind l t : of_kind kind l = Some t -> t ∈ l /\ tn_kind t = kind.
Proof using Type. intros [Ht Hk%String.eqb_eq]%js_find_some. done. Qed.

(** A sign-in: nothing for a user with tenants, new memberships for one without. *)
Lemma resolve_inv name s ms s' :
  returns (resolve_memberships userId name) s ms s' ->
  (user_memberships userId s.2 <> [] /\ ms = user_memberships userId s.2 /\ s' = s) \/
  (user_memberships userId s.2 = [] /\ exists ms0, ms ≡ₚ ms0 /\ grew userId ms0 s.2 s'.2 /\ ms0 <> []).
Proof using Type.
  intros Hr. apply returns_bind in Hr as (um & s1 & Hg & Hr). apply returns_gets in Hg as [-> ->].
  destruct (user_memberships userId s.2) as [|m l] eqn:Eu; [right; split; [done|]|left; by apply returns_ret in Hr as [-> ->]].
  apply returns_bind in Hr as (cl & s1 & Hg & Hr). apply returns_gets in Hg as [-> ->]. cbn zeta in Hr. run_if E.
  - apply claim_initial_grew in Hr; [done|..].
    + intros t [Ht|Ht]; apply of_kind_elem in Ht as [Ht _]; by apply claimable_elem.
    + apply andb_prop in E as [_ [E|E]%orb_prop]; apply bool_decide_eq_true in E; auto.
  - by apply create_tenants_grew in Hr.
Qed.

(** What a user without memberships is given is what the tables say afterwards. *)
Lemma grew_memberships ms db db' m :
  grew userId ms db db' -> accounts_wf db -> user_memberships userId db = [] -> m ∈ ms <-> m ∈ user_memberships userId db'.
Proof using Type.
  intros [Gwf Gt (news & Gm & Gn) Gr] Hwf Hnone. rewrite user_memberships_elem. split.
  - intros Hm. destruct (Gr m Hm) as (t & Ht & Hid & Hname & Hkind). apply list_elem_of_lookup in Hm as [i Hi].
    destruct (Forall2_lookup_l _ _ _ _ _ Gn Hi) as (b & Hb & Hu & Hbt & Hbr & _). exists b, t.
    split; [rewrite Gm; apply elem_of_app; right; by eapply list_elem_of_lookup_2|]. split; [done|]. split; [congruence|]. split; [done|].
    unfold membership_of. rewrite Hbt, Hbr, Hname, Hkind. by destruct m.
  - intros (b & t & Hb & Ht & Hj & Hu & ->). rewrite Gm in Hb. apply elem_of_app in Hb as [Hb|Hb].
    + exfalso. destruct (aw_tenant db Hwf b Hb) as (t0 & Ht0 & Hid0).
      assert (Hin : membership_of b t0 ∈ user_memberships userId db) by (apply user_memberships_elem; by exists b, t0).
      rewrite Hnone in Hin. by apply not_elem_of_nil in Hin.
    + apply list_elem_of_lookup in Hb as [i Hi]. destruct (Forall2_lookup_r _ _ _ _ _ Gn Hi) as (m & Hm & Hmu & Hbt & Hbr & _).
      apply list_elem_of_lookup_2 in Hm. destruct (Gr m Hm) as (t' & Ht' & Hid & Hname & Hkind).
      assert (t' = t) as -> by (apply (tenant_by_id db'); [auto|done|done|congruence]).
      replace (membership_of b t) with m; [done|]. unfold membership_of. rewrite Hbt, Hbr, Hname, Hkind. by destruct m.
Qed.

(** A user without memberships belongs to what it is given. *)
Lemma newly_belongs news db db' T :
  accounts_wf db -> user_memberships userId db = [] -> ac_memberships db' = ac_memberships db ++ news ->
  belongs userId db' T -> exists b, b ∈ news /\ mb_tenant_id b = T.
Proof using Type.
  intros Hwf Hnone Hm (b & Hb & Hu & HT). rewrite Hm in Hb. apply elem_of_app in Hb as [Hb|Hb]; [exfalso|by exists b].
  destruct (aw_tenant db Hwf b Hb) as (t & Ht & Hid).
  assert (Hin : membership_of b t ∈ user_memberships userId db) by (apply user_memberships_elem; by exists b, t).
  rewrite Hnone in Hin. by apply not_elem_of_nil in Hin.
Qed.

Lemma active_elem preferred ms m : active_membership preferred ms = Some m -> m ∈ ms.
Proof using Type.
  unfold active_membership. destruct (if truthy preferred then _ else None) as [x|] eqn:E.
  - intros [= <-]. destruct (truthy preferred); [|done]. by apply js_find_some in E as [? _].
  - intros Hh. destruct ms; [done|]. injection Hh as ->. by left.
Qed.
End runs.

(** ** Properties *)

(** The name given to a new tenant after the address of its user has at most 80
    characters, is not empty, has only letters, digits and the characters @ . _ + -,
    and neither begins nor ends with a mark; and an address with an @ always gives
    one. *)
Theorem tenant_name_well_formed email :
  match sanitizeTenantNameFromEmail email with
  | Some s => good_name s
  | None => includes (toLowerCase (trim email)) "@" = false
  end.
Proof using Type. assert (Hs := sanitize_cases email). by destruct (sanitizeTenantNameFromEmail email) as [s|]; [apply Hs|]. Qed.

(** C21: the claims of a token tell the truth and read back.  After a sign-in the user
    is a member of some tenant.  The tables are as they were when it was one before;
    otherwise memberships are appended that make this user an owner, and every other
    table only gets rows appended, all of the tenants those memberships are of: the
    tenants themselves, their entitlements, and their policies, rules and bindings of
    rules; no row is changed or removed, and no policy is bound to a project.  What the
    API reads from the claims is one of the user's memberships as the active one, and
    exactly the memberships the tables hold. *)
Theorem sign_in_claims_sound `{Env} `{SqlOrder} oauth_clients parse_url payload n db claims n' db' :
  returns (buildTokenHookClaims oauth_clients parse_url payload) (n, db) claims (n', db') -> accounts_wf db ->
  accounts_wf db' /\
  (user_memberships (th_user_id payload) db <> [] -> db' = db) /\
  (exists news, ac_memberships db' = ac_memberships db ++ news /\
     Forall (fun b => mb_user_id b = th_user_id payload /\ mb_role b = "owner") news /\
     tables_added (fun tenant => exists b, b ∈ news /\ mb_tenant_id b = tenant) db db') /\
  (Forall (fun m => valid_tenant (info m) = true) (user_memberships (th_user_id payload) db') ->
   exists active ms, active ∈ ms /\ (forall m, m ∈ ms <-> m ∈ user_memberships (th_user_id payload) db') /\
     parseAccessTokenClaimsFromPayload (JObj claims) = Ok (Some (claims_of active ms))).
Proof using Type.
  intros Hr Hwf. unfold buildTokenHookClaims in Hr. set (userId := th_user_id payload) in *.
  apply returns_bind in Hr as (ms & [n1 db1] & Ht & Hr). apply (proj1 (returns_transaction _ _ _ _)) in Ht. cbn zeta in Hr.
  apply returns_bind in Hr as (aud & s2 & Ha & Hr). apply returns_of_res in Ha as [_ ->].
  destruct (active_membership _ _) as [active|] eqn:Eact; [|by apply returns_throw in Hr]. apply returns_ret in Hr as [-> [= -> ->]].
  apply active_elem in Eact. apply resolve_inv in Ht. cbn [fst snd] in Ht.
  assert (Hms : accounts_wf db1 /\ (user_memberships userId db <> [] -> db1 = db) /\
    (exists news, ac_memberships db1 = ac_memberships db ++ news /\ Forall (fun b => mb_user_id b = userId /\ mb_role b = "owner") news /\
       tables_added (fun tenant => exists b, b ∈ news /\ mb_tenant_id b = tenant) db db1) /\
    forall m, m ∈ ms <-> m ∈ user_memberships userId db1).
  { destruct Ht as [(Hne & -> & [= -> ->])|(Hnone & ms0 & Hperm & Hg & _)].
    - split; [done|]. split; [done|]. split; [exists []; rewrite app_nil_r|done].
      split_and!; [done|done|apply tables_added_refl].
    - split; [by apply (gr_wf _ _ _ _ Hg)|]. split; [by rewrite Hnone|]. split.
      + destruct (gr_memberships _ _ _ _ Hg) as (news & Hm & Hn). exists news. split; [done|]. split.
        { apply Forall_forall. intros b Hb. apply list_elem_of_lookup in Hb as [i Hi].
          destruct (Forall2_lookup_r _ _ _ _ _ Hn Hi) as (m & _ & ? & _ & -> & ?). done. }
        eapply tables_added_mono; [|exact (gr_added _ _ _ _ Hg)]. intros T. by apply (newly_belongs userId news db).
      + intros m. rewrite Hperm. by eapply grew_memberships. }
  destruct Hms as (Hwf1 & Hsame & Hnews & Helem). split; [done|]. split; [done|]. split; [done|].
  intros Hvalid. exists active, (sortMembershipsForDefaultActiveTenant ms).
  assert (Hsort : forall m, m ∈ sortMembershipsForDefaultActiveTenant ms <-> m ∈ user_memberships userId db1).
  { intros m. unfold sortMembershipsForDefaultActiveTenant. by rewrite js_sort_elem_of. }
  split; [done|]. split; [done|]. rewrite Forall_forall in Hvalid. apply claims_read_back.
  - apply Hvalid, Hsort, Eact.
  - apply Forall_forall. intros m Hm. by apply Hvalid, Hsort.
Qed.
End spec.

(** ** Instances *)

#[local] Existing Instances policy_formats example_env.

Definition no_clients : string -> res (option OAuthClientRow) := fun _ => Ok None.
Definition no_urls : string -> option (string * string) := fun _ => None.

Definition hook_payload (userId email : string) : TokenHookPayload :=
  {| th_user_id := userId; th_email := JStr email; th_claims := Some [("aud", JStr "authenticated"); ("app_metadata", JObj [("provider", JStr "email")])];
     th_user_email := JUndef; th_record_email := JUndef |}.

(** The first user of an empty system. *)
Definition first_sign_in : res (list (string * jsval)) * (nat * accounts_db) :=
  Eval vm_compute in buildTokenHookClaims no_clients no_urls (hook_payload "alice" " Alice.Doe@Example.com ") (0%nat, no_accounts).

Lemma no_accounts_wf : accounts_wf no_accounts.
Proof. split; [constructor..|]. by intros m ?%not_elem_of_nil. Qed.

(** Bob comes after her. *)
Definition second_sign_in : res (list (string * jsval)) * (nat * accounts_db) :=
  Eval vm_compute in buildTokenHookClaims no_clients no_urls (hook_payload "bob" "bob@example.com") first_sign_in.2.

(** Alice owns a platform tenant and a customer tenant.  Bob is given a tenant of his
    own, with its entitlements and policies, and hers keep theirs. *)
Lemma sign_in_claims_sound_witness :
  exists claims active ms news, second_sign_in.1 = Ok claims /\
    parseAccessTokenClaimsFromPayload (JObj claims) = Ok (Some (claims_of active ms)) /\
    (forall m, m ∈ ms <-> m ∈ user_memberships "bob" second_sign_in.2.2) /\
    map mr_tenant_name (user_memberships "alice" second_sign_in.2.2) = ["Platform"; "alice.doe@example.com"] /\
    map mr_tenant_name (user_memberships "bob" second_sign_in.2.2) = ["bob@example.com"] /\
    ac_memberships second_sign_in.2.2 = ac_memberships first_sign_in.2.2 ++ news /\
    tables_added (fun tenant => exists b, b ∈ news /\ mb_tenant_id b = tenant) first_sign_in.2.2 second_sign_in.2.2.
Proof.
  destruct first_sign_in.1 as [claims1|] eqn:E1; [|vm_compute in E1; discriminate E1].
  destruct (sign_in_claims_sound no_clients no_urls (hook_payload "alice" " Alice.Doe@Example.com ") 0 no_accounts claims1
              first_sign_in.2.1 first_sign_in.2.2) as (Hwf & _).
  { vm_compute in E1. injection E1 as <-. vm_compute. reflexivity. }
  { apply no_accounts_wf. }
  destruct second_sign_in.1 as [claims|] eqn:E; [|vm_compute in E; discriminate E].
  destruct (sign_in_claims_sound no_clients no_urls (hook_payload "bob" "bob@example.com") first_sign_in.2.1 first_sign_in.2.2 claims
              second_sign_in.2.1 second_sign_in.2.2) as (_ & _ & (news & Hm & _ & Ha) & Hc).
  { vm_compute in E. injection E as <-. vm_compute. reflexivity. }
  { exact Hwf. }
  destruct Hc as (active & ms & _ & Hms & Hp); [vm_compute; by repeat constructor|]. by exists claims, active, ms, news.
Defined.

(** A tenant whose last member was removed is taken over by the next user without a
    tenant. *)
Definition deserted : accounts_db :=
  {| tenants := [{| tn_id := "plat"; tn_name := "Platform"; tn_kind := "platform"; tn_created_at := 0 |};
                 {| tn_id := "acme"; tn_name := "Acme"; tn_kind := "customer"; tn_created_at := 1 |}];
     ac_memberships := [{| mb_id := "m"; mb_tenant_id := "plat"; mb_user_id := "root"; mb_role := "owner" |}];
     ac_entitlements := []; ac_policies := no_tables |}.

Lemma deserted_tenant_claimed :
  user_memberships "mallory"
    (buildTokenHookClaims no_clients no_urls (hook_payload "mallory" "mallory@evil.example") (9%nat, deserted)).2.2
  = [{| mr_tenant_id := "acme"; mr_role := "owner"; mr_tenant_name := "Acme"; mr_tenant_kind := "customer" |}].
Proof. vm_compute. reflexivity. Qed.
