(* ===== verification/Usage.v ===== *)
(** * Usage recording (services/api/src/connect/record-usage-service.ts,
    services/api/src/features/packages/usage-aggregation.ts, and
    rebuildProjectPackages of services/api/src/features/packages/shared.ts)

    A proxy reports the requests it served in batches.  [handleRecordUsage] finds
    the project of each, by its token or by the hints of the proxy, catalogues the
    packages, stores the events and adds them to the usage counters, and hands them
    to the dashboards.  The counters can be rebuilt from the stored events.

    A requested time may be unreadable: a JavaScript [Date] that is no date, which
    the database driver refuses to send.  Timings and logs are left out. *)

From S2P Require Import Prelude JsString Sql Effects JsDate Constants Identity Schema Tenancy Catalog Evaluation CheckService.
Local Open Scope string_scope.
Local Open Scope list_scope.
Local Open Scope Z_scope.

(** ** Tables *)

Record usage_row := {
  pu_id : string; pu_tenant_id : string; pu_project_id : string; pu_package_version_id : string;
  pu_request_count : Z; pu_allow_count : Z; pu_block_count : Z; pu_created_at : timestamp; pu_updated_at : timestamp
}.

Record usage_db := { gateway : gateway_db; package_usage : list usage_row }.

Definition set_gateway (g : gateway_db) (db : usage_db) : usage_db := {| gateway := g; package_usage := package_usage db |}.
Definition set_usage (l : list usage_row) (db : usage_db) : usage_db := {| gateway := gateway db; package_usage := l |}.

Definition UM : Type -> Type := M usage_db.

Definition on_gateway {A} : GM A -> UM A := zoom gateway set_gateway.
Definition on_usage_catalog {A} (e : M catalog_db A) : UM A := on_gateway (on_check (on_catalog e)).

(** An [integer] column refuses what does not fit. *)
Definition int4 (z : Z) : bool := (- 2 ^ 31 <=? z) && (z <? 2 ^ 31).

(** ** usage-aggregation.ts *)

Record PackageUsageEventRow := {
  uw_tenant_id : string; uw_project_id : option string; uw_package_version_id : option string; uw_decision : string;
  uw_source : string; uw_event_type : string; uw_requested_ref : option string; uw_resolved_ref : option string;
  uw_requested_at : option timestamp
}.

Record PackageUsageDelta := {
  ud_tenant_id : string; ud_project_id : string; ud_package_version_id : string; ud_request_count : Z;
  ud_allow_count : Z; ud_block_count : Z; ud_first_seen_at : timestamp; ud_last_seen_at : timestamp
}.

Definition trimRef (value : option string) : string := default EmptyString (trim <$> value).

Definition is_usage_row (r : PackageUsageEventRow) : bool :=
  bool_decide (is_Some (present (uw_project_id r))) && String.eqb (uw_source r) REQUEST_EVENT_SOURCE.PROXY
  && (String.eqb (uw_event_type r) REQUEST_EVENT_TYPE.ARTIFACT || String.eqb (uw_event_type r) REQUEST_EVENT_TYPE.UPSTREAM_ERROR).

(** Both references are there, and differ or are the same. *)
Definition human_ref (r : PackageUsageEventRow) : bool :=
  nonempty (trimRef (uw_requested_ref r)) && nonempty (trimRef (uw_resolved_ref r))
  && negb (String.eqb (trimRef (uw_requested_ref r)) (trimRef (uw_resolved_ref r))).

Definition repeated_ref (r : PackageUsageEventRow) : bool :=
  nonempty (trimRef (uw_requested_ref r)) && nonempty (trimRef (uw_resolved_ref r))
  && String.eqb (trimRef (uw_requested_ref r)) (trimRef (uw_resolved_ref r)).

Definition usage_key (project version : string) : string := project +:+ "|" +:+ version.

(** The key of a row of a primary version. *)
Definition primary_key (role : string -> option string) (r : PackageUsageEventRow) : option string :=
  match present (uw_package_version_id r), present (uw_project_id r) with
  | Some v, Some p => if bool_decide (role v = Some DISPLAY_ROLE.PRIMARY) then Some (usage_key p v) else None
  | _, _ => None
  end.

Definition humanRefKeys (role : string -> option string) (rows : list PackageUsageEventRow) : list string :=
  omap (primary_key role) (List.filter human_ref rows).

Definition new_delta (r : PackageUsageEventRow) (project version : string) (isAllow : bool) (at_ : timestamp) : PackageUsageDelta :=
  {| ud_tenant_id := uw_tenant_id r; ud_project_id := project; ud_package_version_id := version; ud_request_count := 1;
     ud_allow_count := if isAllow then 1 else 0; ud_block_count := if isAllow then 0 else 1;
     ud_first_seen_at := at_; ud_last_seen_at := at_ |}.

Definition counted_delta (isAllow : bool) (at_ : timestamp) (d : PackageUsageDelta) : PackageUsageDelta :=
  {| ud_tenant_id := ud_tenant_id d; ud_project_id := ud_project_id d; ud_package_version_id := ud_package_version_id d;
     ud_request_count := ud_request_count d + 1;
     ud_allow_count := if isAllow then ud_allow_count d + 1 else ud_allow_count d;
     ud_block_count := if isAllow then ud_block_count d else ud_block_count d + 1;
     ud_first_seen_at := if at_ <? ud_first_seen_at d then at_ else ud_first_seen_at d;
     ud_last_seen_at := if ud_last_seen_at d <? at_ then at_ else ud_last_seen_at d |}.

Definition delta_key (d : PackageUsageDelta) : string := usage_key (ud_project_id d) (ud_package_version_id d).

Section usage.
Context `{Env}.

(** The loop body: one row into the map of deltas, in insertion order. *)
Definition count_row (role : string -> option string) (humanKeys : list string) (deltas : list PackageUsageDelta)
    (r : PackageUsageEventRow) : M catalog_db (list PackageUsageDelta) :=
  match present (uw_package_version_id r), present (uw_project_id r) with
  | Some v, Some p =>
      if negb (bool_decide (role v = Some DISPLAY_ROLE.PRIMARY)) then mret deltas
      else if repeated_ref r && existsb (String.eqb (usage_key p v)) humanKeys then mret deltas
      else
        requestedAt ← match uw_requested_at r with Some t => mret t | None => now_ end;
        let isAllow := String.eqb (uw_decision r) DECISION.ALLOW in
        mret (upsert (fun d => String.eqb (delta_key d) (usage_key p v)) (counted_delta isAllow requestedAt)
                (new_delta r p v isAllow requestedAt) deltas).1
  | _, _ => mret deltas
  end.

Fixpoint count_rows (role : string -> option string) (humanKeys : list string) (deltas : list PackageUsageDelta)
    (rows : list PackageUsageEventRow) : M catalog_db (list PackageUsageDelta) :=
  match rows with
  | [] => mret deltas
  | r :: rows => deltas ← count_row role humanKeys deltas r; count_rows role humanKeys deltas rows
  end.

(** The display roles of some versions. *)
Definition display_roles (ids : list string) (db : catalog_db) (id : string) : option string :=
  pv_display_role <$> index_by pv_id (List.filter (fun v => existsb (String.eqb (pv_id v)) ids) (package_versions db)) !! id.

Definition buildPackageUsageDeltas (rows : list PackageUsageEventRow) : M catalog_db (list PackageUsageDelta) :=
  match List.filter is_usage_row rows with
  | [] => mret []
  | usageRows =>
      match omap (fun r => present (uw_package_version_id r)) usageRows with
      | [] => mret []
      | packageVersionIds =>
          role ← gets (display_roles packageVersionIds);
          count_rows role (humanRefKeys role usageRows) [] usageRows
      end
  end.

(** ** Counters *)

Definition of_delta (d : PackageUsageDelta) (id : string) : usage_row :=
  {| pu_id := id; pu_tenant_id := ud_tenant_id d; pu_project_id := ud_project_id d;
     pu_package_version_id := ud_package_version_id d; pu_request_count := ud_request_count d;
     pu_allow_count := ud_allow_count d; pu_block_count := ud_block_count d; pu_created_at := ud_first_seen_at d;
     pu_updated_at := ud_last_seen_at d |}.

Definition add_delta (d : PackageUsageDelta) (r : usage_row) : usage_row :=
  {| pu_id := pu_id r; pu_tenant_id := pu_tenant_id r; pu_project_id := pu_project_id r;
     pu_package_version_id := pu_package_version_id r; pu_request_count := pu_request_count r + ud_request_count d;
     pu_allow_count := pu_allow_count r + ud_allow_count d; pu_block_count := pu_block_count r + ud_block_count d;
     pu_created_at := pu_created_at r; pu_updated_at := Z.max (pu_updated_at r) (ud_last_seen_at d) |}.

(** The unique index on project and version. *)
Definition usage_of (project version : string) (r : usage_row) : bool :=
  String.eqb (pu_project_id r) project && String.eqb (pu_package_version_id r) version.

Definition counts_fit (r : usage_row) : bool := int4 (pu_request_count r) && int4 (pu_allow_count r) && int4 (pu_block_count r).

(** One row of the statement; the deltas of a statement differ in their keys. *)
Definition upsert_delta (d : PackageUsageDelta) : UM unit :=
  id ← fresh;
  rows ← gets (fun db => upsert (usage_of (ud_project_id d) (ud_package_version_id d)) (add_delta d) (of_delta d id) (package_usage db));
  if counts_fit rows.2 then modify (set_usage rows.1) else throw "integer out of range".

Definition updatePackageUsage (rows : list PackageUsageEventRow) : UM unit :=
  deltas ← on_usage_catalog (buildPackageUsageDeltas rows);
  match deltas with
  | [] => mret tt
  | _ => transaction (_ ← mapM_ upsert_delta deltas; mret tt)
  end.

Definition usage_event (r : event_row) : PackageUsageEventRow :=
  {| uw_tenant_id := ev_tenant_id r; uw_project_id := ev_project_id r; uw_package_version_id := ev_package_version_id r;
     uw_decision := ev_decision r; uw_source := ev_source r; uw_event_type := ev_event_type r;
     uw_requested_ref := ev_requested_ref r; uw_resolved_ref := ev_resolved_ref r; uw_requested_at := Some (ev_requested_at r) |}.

(** The events a project's counters are rebuilt from. *)
Definition rebuilt_from (projectId tenantId : string) (r : event_row) : bool :=
  String.eqb (ev_tenant_id r) tenantId && bool_decide (ev_project_id r = Some projectId)
  && String.eqb (ev_source r) REQUEST_EVENT_SOURCE.PROXY
  && (String.eqb (ev_event_type r) REQUEST_EVENT_TYPE.ARTIFACT || String.eqb (ev_event_type r) REQUEST_EVENT_TYPE.UPSTREAM_ERROR)
  && bool_decide (is_Some (ev_package_version_id r)).

(** A plain insert of a counter. *)
Definition insert_delta (d : PackageUsageDelta) : UM unit :=
  id ← fresh;
  let row := of_delta d id in
  if counts_fit row
  then insert_unique package_usage set_usage (fun new r => usage_of (pu_project_id new) (pu_package_version_id new) r) row
  else throw "integer out of range".

Definition rebuildProjectPackages (projectId tenantId : string) : UM Z :=
  transaction
    (eventRows ← gets (fun db => List.filter (rebuilt_from projectId tenantId) (events (gateway db)));
     _ ← modify (fun db => set_usage (List.filter (fun r =>
           negb (String.eqb (pu_project_id r) projectId && String.eqb (pu_tenant_id r) tenantId)) (package_usage db)) db);
     match eventRows with
     | [] => mret 0
     | _ =>
         deltas ← on_usage_catalog (buildPackageUsageDeltas (map usage_event eventRows));
         _ ← mapM_ insert_delta deltas;
         mret (Z.of_nat (length deltas))
     end).
End usage.
(** ** handleRecordUsage *)

(** A request a proxy served. *)
Record UsageEvent := {
  ue_ecosystem : string; ue_package : string; ue_version : string; ue_decision : Z; ue_event_type : string;
  ue_decision_cache : bool; ue_requested_at : string; ue_project_token_hash : string; ue_trace_id : string;
  ue_request_id : string; ue_tenant_id : string; ue_project_id : string; ue_serve_mode : option string;
  ue_bytes_transferred : Z; ue_client_ip : option string; ue_duration_ms : option Z; ue_decision_path : option string;
  ue_requested_ref : option string; ue_resolved_ref : option string; ue_ref_resolution_source : option string;
  ue_related_versions : option (list PackageVersionRelatedVersionInput)
}.

Definition normalizeDecisionPath (path : option string) : res (option string) :=
  match present path with
  | None => Ok None
  | Some p => if existsb (String.eqb p) DECISION_PATHS then Ok (Some p) else Throw ("unknown decision path: " +:+ p)
  end.

(** A date that is no date is at or before none. *)
Definition dateIsUnsetOrAtOrAfter (value : option timestamp) (at_ : date) : bool :=
  match value, at_ with
  | None, _ => true
  | Some v, Some t => t <=? v
  | Some _, None => false
  end.

Definition shouldRecordObservedPackageVersionRef (requested_ref resolved_ref : option string) (canonical_version : string) : bool :=
  let requestedRef := trimRef requested_ref in
  let canonicalVersion := trim canonical_version in
  let resolvedRef := trimRef resolved_ref in
  if negb (nonempty requestedRef) then false
  else if negb (nonempty canonicalVersion) then true
  else negb (String.eqb requestedRef canonicalVersion
             && (negb (nonempty resolvedRef) || String.eqb resolvedRef requestedRef || String.eqb resolvedRef canonicalVersion)).

(** The rows of [project_tokens] with their projects' ends, where there is one. *)
Definition tokens_with_projects (db : tenancy_db) : list (project_token_row * option timestamp) :=
  project_tokens db ≫= fun t =>
    match List.filter (fun p => String.eqb (pj_id p) (tk_project_id t)) (projects db) with
    | [] => [(t, None)]
    | ps => map (fun p => (t, Some (pj_effective_to p))) ps
    end.

(** [tokenResolutionMap]: the last row of a hash. *)
Definition resolved_token (db : tenancy_db) (hash : string) : option (project_token_row * option timestamp) :=
  if nonempty hash then last (List.filter (fun r => String.eqb (tk_token_hash r.1) hash) (tokens_with_projects db)) else None.

(** [fallbackProjectTenantMap] *)
Definition project_tenant (db : tenancy_db) (projectId : string) : option string :=
  pj_tenant_id <$> last (List.filter (fun p => String.eqb (pj_id p) projectId) (projects db)).

Definition tokenWasValidAtRequest (resolved : project_token_row * option timestamp) (requestedAt : date) : bool :=
  dateIsUnsetOrAtOrAfter (tk_revoked_at resolved.1) requestedAt && dateIsUnsetOrAtOrAfter (tk_expires_at resolved.1) requestedAt
  && dateIsUnsetOrAtOrAfter resolved.2 requestedAt.

(** The tenant, the project and the token an event is recorded for. *)
Definition attributed : Type := string * option string * option string.

Definition token_attribution (resolved : project_token_row * option timestamp) (requestedAt : date) : option attributed :=
  if tokenWasValidAtRequest resolved requestedAt
  then Some (tk_tenant_id resolved.1, present (Some (tk_project_id resolved.1)), Some (tk_id resolved.1)) else None.

(** The hints of the proxy, for a token that is not known. *)
Definition hinted_attribution (proxy : VerifiedProxyContext) (db : tenancy_db) (event : UsageEvent) : option attributed :=
  if negb (nonempty (ue_tenant_id event)) || negb (proxyAllowsTenant proxy (ue_tenant_id event)) then None
  else if negb (nonempty (ue_project_id event))
          || negb (bool_decide (project_tenant db (ue_project_id event) = Some (ue_tenant_id event))) then None
  else Some (ue_tenant_id event, Some (ue_project_id event), None).

Definition attribution (proxy : VerifiedProxyContext) (db : tenancy_db) (event : UsageEvent) : option attributed :=
  a ← match resolved_token db (ue_project_token_hash event) with
      | Some resolved => token_attribution resolved (date_parse (ue_requested_at event))
      | None => hinted_attribution proxy db event
      end;
  if proxyAllowsTenant proxy a.1.1 then Some a else None.

(** An attributed event. *)
Record usage_record := {
  ur_id : string; ur_tenant_id : string; ur_project_id : option string; ur_project_token_id : option string;
  ur_decision_path : option string; ur_event : UsageEvent
}.

Definition ur_requested_at (r : usage_record) : date := date_parse (ue_requested_at (ur_event r)).

(** A record with the identity of its package. *)
Definition identified : Type := usage_record * option ArtifactIdentity.

Definition record_ecosystem (p : identified) : string := from_option (fun a => id_ecosystem (identity a)) (ue_ecosystem (ur_event p.1)) p.2.
Definition record_package (p : identified) : string := from_option (fun a => id_package (identity a)) (ue_package (ur_event p.1)) p.2.
Definition record_version (p : identified) : string := default (ue_version (ur_event p.1)) (p.2 ≫= fun a => id_version (identity a)).
Definition record_package_id (p : identified) : option string := p.2 ≫= fun a => package_id (catalog a).
Definition record_version_id (p : identified) : option string := p.2 ≫= fun a => package_version_id (catalog a).

Definition decision_text (e : UsageEvent) : string := if ue_decision e =? DECISION_ALLOW then DECISION.ALLOW else DECISION.BLOCK.

(** The stored event, if its time is a date. *)
Definition usage_event_row (proxy : VerifiedProxyContext) (createdAt : timestamp) (p : identified) : option event_row :=
  match ur_requested_at p.1 with
  | None => None
  | Some requestedAt =>
      let r := p.1 in let e := ur_event r in
      Some {| ev_id := ur_id r; ev_tenant_id := ur_tenant_id r; ev_project_id := ur_project_id r; ev_proxy_id := px_proxyId proxy;
              ev_package_id := record_package_id p; ev_package_version_id := record_version_id p; ev_decision := decision_text e;
              ev_reason := None; ev_source := REQUEST_EVENT_SOURCE.PROXY; ev_event_type := ue_event_type e;
              ev_trace_id := present (Some (ue_trace_id e)); ev_span_id := None; ev_request_id := present (Some (ue_request_id e));
              ev_serve_mode := present (ue_serve_mode e); ev_project_token_id := ur_project_token_id r;
              ev_client_ip := ue_client_ip e; ev_proxy_ip := px_proxyIp proxy; ev_raw_identity := raw <$> p.2;
              ev_requested_ref := present (ue_requested_ref e); ev_resolved_ref := present (ue_resolved_ref e);
              ev_ref_resolution_source := present (ue_ref_resolution_source e); ev_decision_cache := Some (ue_decision_cache e);
              ev_bytes_transferred := Some (ue_bytes_transferred e); ev_duration_ms := ue_duration_ms e;
              ev_decision_path := ur_decision_path r; ev_requested_at := requestedAt; ev_created_at := createdAt |}
  end.

(** What dashboards are sent; the requested time of a stored event is a date. *)
Definition usage_payload (proxy : VerifiedProxyContext) (createdAt : timestamp) (p : identified) : EventPayload :=
  let r := p.1 in let e := ur_event r in
  {| ep_id := ur_id r; ep_tenant_id := ur_tenant_id r; ep_project_id := ur_project_id r;
     ep_source := REQUEST_EVENT_SOURCE.PROXY; ep_event_type := ue_event_type e; ep_proxy_id := px_proxyId proxy;
     ep_ecosystem := record_ecosystem p; ep_package := record_package p; ep_version := record_version p;
     ep_decision := decision_text e; ep_reason := None; ep_serve_mode := present (ue_serve_mode e);
     ep_decision_cache := Some (ue_decision_cache e); ep_bytes_transferred := Some (ue_bytes_transferred e);
     ep_trace_id := present (Some (ue_trace_id e)); ep_span_id := None; ep_request_id := present (Some (ue_request_id e));
     ep_requested_ref := present (ue_requested_ref e); ep_resolved_ref := present (ue_resolved_ref e);
     ep_ref_resolution_source := present (ue_ref_resolution_source e); ep_project_token_id := ur_project_token_id r;
     ep_client_ip := ue_client_ip e; ep_proxy_ip := px_proxyIp proxy;
     ep_requested_at := from_option toISOString EmptyString (ur_requested_at r); ep_created_at := toISOString createdAt;
     ep_cve_severity := None; ep_fix_version := None |}.

Section recording.
Context `{Env}.

Definition record_of (proxy : VerifiedProxyContext) (db : tenancy_db) (event : UsageEvent) : UM (option usage_record) :=
  match attribution proxy db event with
  | None => mret None
  | Some (tenant_id, project_id, token_id) =>
      id ← fresh;
      path ← of_res (normalizeDecisionPath (ue_decision_path event));
      mret (Some {| ur_id := id; ur_tenant_id := tenant_id; ur_project_id := project_id; ur_project_token_id := token_id;
                    ur_decision_path := path; ur_event := event |})
  end.

Definition usage_identity (r : usage_record) : ArtifactIdentityInput :=
  {| ai_input := {| i_ecosystem := ue_ecosystem (ur_event r); i_package := ue_package (ur_event r);
                    i_version := Some (ue_version (ur_event r)) |};
     ai_source := Some "record_usage"; ai_parser_version := None |}.

(** What the driver says to a date that is no date. *)
Definition invalid_time {A} : UM A := throw "Invalid time value".

(** [recordObservedPackageVersionRefs] at the requested time; its first write has
    that time. *)
Definition record_observed (p : identified) : UM unit :=
  let e := ur_event p.1 in
  match ur_requested_at p.1 with
  | Some observedAt =>
      on_usage_catalog (recordObservedPackageVersionRefs
        {| or_ecosystem := record_ecosystem p; or_package_id := record_package_id p; or_package_version_id := record_version_id p;
           or_version := Some (record_version p); or_requested_ref := present (ue_requested_ref e);
           or_resolved_ref := present (ue_resolved_ref e);
           or_ref_resolution_source := present (ue_ref_resolution_source e); or_observed_at := Some observedAt |})
  | None =>
      match present (record_package_id p), present (record_version_id p) with
      | Some _, Some _ => invalid_time
      | _, _ => mret tt
      end
  end.

(** [recordPackageVersionRelatedVersions] at a time that is no date: a related
    version is catalogued before the first write of that time. *)
Definition related_without_time (input : RelatedVersionsInput) (related : PackageVersionRelatedVersionInput) : UM unit :=
  if negb (nonempty (trim (rv_version related))) || negb (nonempty (rv_relationship_type related)) then mret tt
  else
    refs ← on_usage_catalog (resolvePackageCatalogReferences [related_input input related]);
    let child := default no_reference (head refs) in
    match present (package_id child), present (package_version_id child) with
    | Some _, Some _ => invalid_time
    | _, _ => mret tt
    end.

Definition related_versions_input (p : identified) (at_ : option timestamp) : RelatedVersionsInput :=
  {| rl_ecosystem := record_ecosystem p; rl_package := record_package p; rl_package_id := record_package_id p;
     rl_package_version_id := record_version_id p; rl_related_versions := ue_related_versions (ur_event p.1);
     rl_observed_at := at_ |}.

Definition record_related_versions (p : identified) : UM unit :=
  match ur_requested_at p.1 with
  | Some observedAt => on_usage_catalog (recordPackageVersionRelatedVersions (related_versions_input p (Some observedAt)))
  | None =>
      match present (record_package_id p), present (record_version_id p) with
      | Some _, Some _ =>
          _ ← mapM_ (related_without_time (related_versions_input p None)) (default [] (ue_related_versions (ur_event p.1)));
          mret tt
      | _, _ => mret tt
      end
  end.

Definition record_refs (p : identified) : UM unit :=
  _ ← (if shouldRecordObservedPackageVersionRef (present (ue_requested_ref (ur_event p.1))) (present (ue_resolved_ref (ur_event p.1)))
            (record_version p)
       then record_observed p else mret tt);
  match default [] (ue_related_versions (ur_event p.1)) with
  | [] => mret tt
  | _ => record_related_versions p
  end.

(** The insert of all events, in one statement. *)
Definition insert_usage_events (proxy : VerifiedProxyContext) (pairs : list identified) : UM (list event_row) :=
  createdAt ← now_;
  match mapM (usage_event_row proxy createdAt) pairs with
  | None => invalid_time
  | Some rows =>
      if negb (forallb (fun r => from_option int4 true (ev_duration_ms r)) rows) then throw "integer out of range"
      else
        taken ← gets (fun db => map ev_id (events (gateway db)) ++ map ev_id rows);
        if bool_decide (NoDup taken)
        then _ ← on_gateway (modify (fun db => set_events (events db ++ rows) db)); mret rows
        else throw "duplicate key value violates unique constraint"
  end.

Definition publish_usage (proxy : VerifiedProxyContext) (p : identified) : UM unit :=
  createdAt ← now_;
  on_gateway (modify (fun db => set_published (published db ++ [(ur_tenant_id p.1, usage_payload proxy createdAt p)]) db)).

(** What follows for the events that are attributed. *)
Definition record_valid (proxy : VerifiedProxyContext) (validRows : list usage_record) : UM unit :=
  identities ← on_usage_catalog (resolveArtifactIdentities (map usage_identity validRows));
  let pairs := imap (fun i r => (r, identities !! i)) validRows in
  _ ← mapM_ record_refs pairs;
  eventRows ← insert_usage_events proxy pairs;
  _ ← updatePackageUsage (map usage_event eventRows);
  _ ← mapM_ (publish_usage proxy) pairs;
  mret tt.

Definition handleRecordUsage (proxy : VerifiedProxyContext) (usageEvents : list UsageEvent) : UM Z :=
  match usageEvents with
  | [] => mret 0
  | _ =>
      db ← gets (fun db => tenancy_tables (gateway db));
      rows ← mapM_ (record_of proxy db) usageEvents;
      match List.filter (fun r => nonempty (ur_tenant_id r)) (omap id rows) with
      | [] => mret (Z.of_nat (length usageEvents))
      | validRows => _ ← record_valid proxy validRows; mret (Z.of_nat (length usageEvents))
      end
  end.
End recording.
