(* ===== verification/UsageCorrect.v ===== *)
(** * Lemmas on usage recording

    The deltas of a batch count its rows; the counters grow by the deltas; what a
    batch leaves alone. *)

From Stdlib Require Import Ascii.
From S2P Require Import Prelude JsString Sql Effects JsDate Constants Identity Schema Tenancy Catalog CatalogCorrect Evaluation CheckService Usage.
Local Open Scope string_scope.
Local Open Scope list_scope.
Local Open Scope Z_scope.

(** ** Counted rows *)

(** The rows a batch counts for a version of a project: those of a primary
    version, except repetitions of a reference that another row of the batch, for
    the same version, reached by another name. *)
Definition row_of (p v : string) (r : PackageUsageEventRow) : bool :=
  bool_decide (present (uw_project_id r) = Some p) && bool_decide (present (uw_package_version_id r) = Some v).

Definition is_primary (role : string -> option string) (v : string) : bool := bool_decide (role v = Some DISPLAY_ROLE.PRIMARY).

Definition counted (role : string -> option string) (rows : list PackageUsageEventRow) (p v : string) : list PackageUsageEventRow :=
  let own := List.filter (fun r => is_usage_row r && row_of p v r) rows in
  if is_primary role v
  then List.filter (fun r => negb (repeated_ref r && existsb human_ref own)) own
  else [].

Definition is_allow (r : PackageUsageEventRow) : bool := String.eqb (uw_decision r) DECISION.ALLOW.

Definition tally (l : list PackageUsageEventRow) : Z := Z.of_nat (length l).

(** Rows whose project identifiers have no bar, as identifiers of the database. *)
Definition plain_project (r : PackageUsageEventRow) : bool := from_option (no_char "|"%char) true (uw_project_id r).

Definition delta_of (p v : string) (d : PackageUsageDelta) : bool :=
  String.eqb (ud_project_id d) p && String.eqb (ud_package_version_id d) v.

(** ** The map of deltas *)

Lemma usage_key_inj p v p' v' :
  no_char "|"%char p = true -> no_char "|"%char p' = true -> usage_key p v = usage_key p' v' -> p = p' /\ v = v'.
Proof. apply bar_key_inj. Qed.

Section deltas.
Context (role : string -> option string) (rows : list PackageUsageEventRow).

Definition step_counts (r : PackageUsageEventRow) : bool :=
  match present (uw_package_version_id r), present (uw_project_id r) with
  | Some v, Some p => is_primary role v && negb (repeated_ref r && existsb (String.eqb (usage_key p v)) (humanRefKeys role rows))
  | _, _ => false
  end.

Definition counts_of (p v : string) (l : list PackageUsageEventRow) : list PackageUsageEventRow :=
  List.filter (fun r => step_counts r && row_of p v r) l.

(** A delta that counts the rows [c]. *)
Definition counts_ok (d : PackageUsageDelta) (c : list PackageUsageEventRow) : Prop :=
  ud_request_count d = tally c /\ ud_allow_count d = tally (List.filter is_allow c) /\
  ud_block_count d = tally (List.filter (fun r => negb (is_allow r)) c) /\
  (forall r t, r ∈ c -> uw_requested_at r = Some t -> ud_first_seen_at d <= t <= ud_last_seen_at d) /\
  (exists r, r ∈ c /\ uw_tenant_id r = ud_tenant_id d).

(** What is known of the deltas of the rows that were seen. *)
Record deltas_ok (seen : list PackageUsageEventRow) (ds : list PackageUsageDelta) : Prop := {
  dk_plain d : d ∈ ds -> no_char "|"%char (ud_project_id d) = true;
  dk_one p v : (length (List.filter (delta_of p v) ds) <= 1)%nat;
  dk_none p v : List.filter (delta_of p v) ds = [] -> counts_of p v seen = [];
  dk_count d : d ∈ ds -> counts_ok d (counts_of (ud_project_id d) (ud_package_version_id d) seen)
}.

Lemma deltas_ok_nil : deltas_ok [] [].
Proof. split; cbn; [intros d []%not_elem_of_nil|lia|done|intros d []%not_elem_of_nil]. Qed.

(** A row into the deltas. *)
Definition count_step (ds : list PackageUsageDelta) (r : PackageUsageEventRow) (t : timestamp) : list PackageUsageDelta :=
  match present (uw_package_version_id r), present (uw_project_id r) with
  | Some v, Some p =>
      if step_counts r
      then (upsert (fun d => String.eqb (delta_key d) (usage_key p v)) (counted_delta (is_allow r) t) (new_delta r p v (is_allow r) t) ds).1
      else ds
  | _, _ => ds
  end.

Lemma count_row_run `{Env} ds r t s :
  uw_requested_at r = Some t -> returns (count_row role (humanRefKeys role rows) ds r) s (count_step ds r t) s.
Proof.
  intros Ht. unfold count_row, count_step, step_counts, is_primary. rewrite Ht.
  destruct (present (uw_package_version_id r)) as [v|]; [|by apply returns_ret].
  destruct (present (uw_project_id r)) as [p|]; [|by apply returns_ret].
  destruct (bool_decide _); cbn; [|by apply returns_ret].
  destruct (repeated_ref r && _); cbn; [by apply returns_ret|]. run_forward.
Qed.

Lemma filter_seen (q : PackageUsageEventRow -> bool) seen r : List.filter q (seen ++ [r]) = List.filter q seen ++ if q r then [r] else [].
Proof. rewrite List.filter_app. cbn. by destruct (q r). Qed.

Lemma step_counts_key r :
  step_counts r = true -> exists p v, present (uw_project_id r) = Some p /\ present (uw_package_version_id r) = Some v.
Proof.
  unfold step_counts. destruct (present (uw_package_version_id r)) as [v|]; [|done]. destruct (present (uw_project_id r)) as [p|]; [|done].
  intros _. by exists p, v.
Qed.

Lemma row_of_spec p v r : row_of p v r = true <-> present (uw_project_id r) = Some p /\ present (uw_package_version_id r) = Some v.
Proof. unfold row_of. by rewrite andb_true_iff, !bool_decide_eq_true. Qed.

Lemma delta_of_spec p v d : delta_of p v d = true <-> ud_project_id d = p /\ ud_package_version_id d = v.
Proof. unfold delta_of. by rewrite andb_true_iff, !String.eqb_eq. Qed.

(** A counted row, for the version [v] of the project [p]. *)
Section counting.
Context (seen : list PackageUsageEventRow) (ds : list PackageUsageDelta) (r : PackageUsageEventRow) (t : timestamp) (p v : string).
Hypothesis Hok : deltas_ok seen ds.
Hypothesis Hp : present (uw_project_id r) = Some p.
Hypothesis Hv : present (uw_package_version_id r) = Some v.
Hypothesis Hplain : no_char "|"%char p = true.
Hypothesis Hc : step_counts r = true.
Hypothesis Ht : uw_requested_at r = Some t.

Let ds' := (upsert (delta_of p v) (counted_delta (is_allow r) t) (new_delta r p v (is_allow r) t) ds).1.
Let x := (upsert (delta_of p v) (counted_delta (is_allow r) t) (new_delta r p v (is_allow r) t) ds).2.

Lemma counted_step : count_step ds r t = ds'.
Proof.
  unfold count_step, ds'. rewrite Hv, Hp, Hc. f_equal. apply upsert_ext. intros d Hd.
  apply eq_iff_eq_true. rewrite String.eqb_eq, delta_of_spec. split; [|by intros [<- <-]].
  intros He. apply usage_key_inj in He; [done|by eapply dk_plain|done].
Qed.

Lemma own_delta : List.filter (delta_of p v) ds' = [x].
Proof.
  apply upsert_same.
  - done.
  - by apply delta_of_spec.
  - intros d Hd. apply delta_of_spec in Hd. by apply delta_of_spec.
  - eapply dk_one, Hok.
Qed.

Lemma other_deltas p' v' : (p', v') <> (p, v) -> List.filter (delta_of p' v') ds' = List.filter (delta_of p' v') ds.
Proof.
  intros Hne.
  assert (Hd : forall d, ud_project_id d = p -> ud_package_version_id d = v -> delta_of p' v' d = false).
  { intros d E1 E2. apply not_true_iff_false. intros [E3 E4]%delta_of_spec. congruence. }
  apply upsert_apart; [|by apply Hd]. intros d [E1 E2]%delta_of_spec. split; by apply Hd.
Qed.

Lemma counts_own : counts_of p v (seen ++ [r]) = counts_of p v seen ++ [r].
Proof.
  unfold counts_of. rewrite filter_seen, Hc. by rewrite (proj2 (row_of_spec p v r) (conj Hp Hv)).
Qed.

Lemma counts_other p' v' : (p', v') <> (p, v) -> counts_of p' v' (seen ++ [r]) = counts_of p' v' seen.
Proof.
  intros Hne. unfold counts_of. rewrite filter_seen. destruct (row_of p' v' r) eqn:E; [|by rewrite andb_false_r, app_nil_r].
  apply row_of_spec in E as [E1 E2]. congruence.
Qed.

Lemma tally_app l k : tally (l ++ k) = tally l + tally k.
Proof. unfold tally. rewrite length_app. lia. Qed.

Lemma new_counts : counts_ok (new_delta r p v (is_allow r) t) [r].
Proof.
  unfold counts_ok. cbn. destruct (is_allow r) eqn:E; cbn; split_and!; try done.
  1, 3: intros r' t' ->%list_elem_of_singleton; rewrite Ht; intros [= <-]; lia.
  all: exists r; split; [apply list_elem_of_here|done].
Qed.

Lemma more_counts d c : counts_ok d c -> counts_ok (counted_delta (is_allow r) t d) (c ++ [r]).
Proof.
  intros (E1 & E2 & E3 & E4 & r0 & Hr0 & E5). unfold counts_ok. rewrite !List.filter_app, !tally_app, <- E1.
  destruct (is_allow r) eqn:E; cbn; rewrite E; cbn; rewrite <- E2, <- E3; split_and!; try (unfold tally; cbn; lia).
  1, 3: intros r' t' [Hr'|Hr']%elem_of_app Ht';
    [specialize (E4 r' t' Hr' Ht')|apply list_elem_of_singleton in Hr' as ->; rewrite Ht in Ht'; injection Ht' as <-];
    destruct (Z.ltb_spec t (ud_first_seen_at d)), (Z.ltb_spec (ud_last_seen_at d) t); lia.
  all: exists r0; split; [set_solver|done].
Qed.

Lemma own_counts : counts_ok x (counts_of p v (seen ++ [r])) /\ no_char "|"%char (ud_project_id x) = true /\ delta_of p v x = true.
Proof.
  rewrite counts_own. unfold x.
  destruct (upsert_row (delta_of p v) (counted_delta (is_allow r) t) (new_delta r p v (is_allow r) t) ds) as [[-> Hn]|(d & Hd & Hc' & ->)].
  - rewrite (dk_none _ _ Hok p v) by by apply filter_b_nil. split; [apply new_counts|]. split; [done|by apply delta_of_spec].
  - destruct (proj1 (delta_of_spec p v d) Hc') as [E1 E2]. split; [|split; [exact (dk_plain _ _ Hok d Hd)|by apply delta_of_spec]].
    apply more_counts. pose proof (dk_count _ _ Hok d Hd) as Hd'. by rewrite E1, E2 in Hd'.
Qed.

Lemma delta_split d : d ∈ ds' -> d = x \/ (ud_project_id d, ud_package_version_id d) <> (p, v) /\ d ∈ ds.
Proof.
  intros Hd. destruct (decide ((ud_project_id d, ud_package_version_id d) = (p, v))) as [E|E].
  - left. apply list_elem_of_singleton. rewrite <- own_delta. apply elem_of_filter_b. split; [done|]. apply delta_of_spec. split; congruence.
  - right. split; [done|].
    assert (Hf : d ∈ List.filter (delta_of (ud_project_id d) (ud_package_version_id d)) ds').
    { apply elem_of_filter_b. split; [done|]. by apply delta_of_spec. }
    rewrite other_deltas in Hf by done. by apply elem_of_filter_b in Hf as [? _].
Qed.

Lemma counting_ok : deltas_ok (seen ++ [r]) ds'.
Proof.
  destruct own_counts as (Hx & Hxp & Hxk). split.
  - intros d [->|[_ Hd]]%delta_split; [done|]. by eapply dk_plain.
  - intros p' v'. destruct (decide ((p', v') = (p, v))) as [E|E].
    + injection E as -> ->. by rewrite own_delta.
    + rewrite other_deltas by done. by eapply dk_one.
  - intros p' v' Hn. destruct (decide ((p', v') = (p, v))) as [E|E].
    + injection E as -> ->. by rewrite own_delta in Hn.
    + rewrite counts_other by done. rewrite other_deltas in Hn by done. by eapply dk_none.
  - intros d [->|[E Hd]]%delta_split.
    + apply delta_of_spec in Hxk as [E1 E2]. by rewrite E1, E2.
    + rewrite counts_other by done. by eapply dk_count.
Qed.
End counting.

Lemma count_step_ok seen ds r t :
  deltas_ok seen ds -> plain_project r = true -> uw_requested_at r = Some t -> deltas_ok (seen ++ [r]) (count_step ds r t).
Proof.
  intros Hok Hpl Ht. destruct (step_counts r) eqn:Hc.
  - destruct (step_counts_key r Hc) as (p & v & Hp & Hv).
    assert (Hplain : no_char "|"%char p = true).
    { unfold plain_project in Hpl. apply present_some in Hp as [Hp _]. by rewrite Hp in Hpl. }
    rewrite (counted_step seen ds r t p v Hok Hp Hv Hplain Hc). by apply counting_ok.
  - assert (Hs : count_step ds r t = ds) by (unfold count_step; rewrite Hc; by repeat case_match).
    rewrite Hs. assert (Hf : forall p v, counts_of p v (seen ++ [r]) = counts_of p v seen).
    { intros p v. unfold counts_of. by rewrite filter_seen, Hc, app_nil_r. }
    split; [by eapply dk_plain|by eapply dk_one| |]; intros; rewrite Hf; [by eapply dk_none|by eapply dk_count].
Qed.

Lemma count_rows_ok `{Env} todo seen ds s :
  deltas_ok seen ds -> Forall (fun r => plain_project r = true /\ is_Some (uw_requested_at r)) todo ->
  exists ds', returns (count_rows role (humanRefKeys role rows) ds todo) s ds' s /\ deltas_ok (seen ++ todo) ds'.
Proof.
  intros Hok Htodo. revert seen ds Hok. induction Htodo as [|r todo [Hpl [t Ht]] _ IH]; intros seen ds Hok.
  - exists ds. rewrite app_nil_r. split; [by apply returns_ret|done].
  - destruct (IH (seen ++ [r]) (count_step ds r t)) as (ds' & Hr & Hok'); [by apply count_step_ok|].
    exists ds'. rewrite <- app_assoc in Hok'. split; [|done]. cbn [count_rows]. apply returns_bind.
    exists (count_step ds r t), s. split; [by apply count_row_run|done].
Qed.
End deltas.

(** ** A batch's deltas *)

(** The display role of a version. *)
Definition version_role (db : catalog_db) (id : string) : option string := pv_display_role <$> index_by pv_id (package_versions db) !! id.

Lemma index_by_filter {R} (key : R -> string) (q : R -> bool) rows k :
  (forall r, key r = k -> q r = true) -> index_by key (List.filter q rows) !! k = index_by key rows !! k.
Proof.
  intros Hq. unfold index_by.
  enough (H : forall m1 m2 : gmap string R, m1 !! k = m2 !! k ->
            foldl (fun m r => <[key r := r]> m) m1 (List.filter q rows) !! k = foldl (fun m r => <[key r := r]> m) m2 rows !! k) by by apply H.
  induction rows as [|r rows IH]; intros m1 m2 Hm; [done|]. cbn. destruct (q r) eqn:E; cbn.
  - apply IH. destruct (decide (key r = k)) as [<-|Hne]; [by rewrite !lookup_insert_eq|by rewrite !lookup_insert_ne].
  - apply IH. rewrite lookup_insert_ne; [done|]. intros Hk. rewrite Hq in E by done. done.
Qed.

Lemma display_roles_in ids db v : v ∈ ids -> display_roles ids db v = version_role db v.
Proof.
  intros Hv. unfold display_roles, version_role. rewrite index_by_filter; [done|]. intros r ->.
  apply existsb_exists. exists v. by rewrite <- list_elem_of_In, String.eqb_refl.
Qed.

Lemma filter_filter {A} (q1 q2 : A -> bool) l : List.filter q1 (List.filter q2 l) = List.filter (fun x => q2 x && q1 x) l.
Proof. induction l as [|x l IH]; [done|]. cbn. destruct (q2 x); cbn; [|done]. by rewrite IH. Qed.

Lemma filter_ext_elem {A} (q1 q2 : A -> bool) l : (forall x, x ∈ l -> q1 x = q2 x) -> List.filter q1 l = List.filter q2 l.
Proof.
  induction l as [|x l IH]; [done|]. intros Hq. cbn. rewrite (Hq x) by apply list_elem_of_here.
  by rewrite IH by (intros; by apply Hq, list_elem_of_further).
Qed.

(** The human references of a version, by their keys and by their rows. *)
Lemma human_keys_of role rows p v :
  forallb plain_project rows = true -> no_char "|"%char p = true -> is_primary role v = true ->
  existsb (String.eqb (usage_key p v)) (humanRefKeys role rows) = existsb human_ref (List.filter (row_of p v) rows).
Proof.
  intros Hpl Hp Hv. apply eq_iff_eq_true. rewrite !existsb_exists. split.
  - intros (k & Hk & <-%String.eqb_eq). apply list_elem_of_In, list_elem_of_omap in Hk as (r & Hr & Hk).
    apply elem_of_filter_b in Hr as [Hr Hh]. exists r. split; [|done]. apply filter_In. split; [by apply list_elem_of_In|].
    apply forallb_forall with (x := r) in Hpl; [|by apply list_elem_of_In]. unfold plain_project in Hpl.
    unfold primary_key in Hk. destruct (present (uw_package_version_id r)) as [v'|] eqn:Ev; [|done].
    destruct (present (uw_project_id r)) as [p'|] eqn:Ep; [|done]. destruct (bool_decide _); [|done]. injection Hk as Hk.
    assert (Hp' : uw_project_id r = Some p') by by apply present_some in Ep as [? _]. rewrite Hp' in Hpl. cbn in Hpl.
    destruct (usage_key_inj p' v' p v Hpl Hp Hk) as [-> ->]. by apply row_of_spec.
  - intros (r & [Hr [Ep Ev]%row_of_spec]%filter_In & Hh). exists (usage_key p v). split; [|apply String.eqb_refl].
    apply list_elem_of_In, list_elem_of_omap. exists r. split; [apply elem_of_filter_b; split; [by apply list_elem_of_In|done]|].
    unfold primary_key. rewrite Ep, Ev. unfold is_primary in Hv. by rewrite Hv.
Qed.

Lemma counts_of_counted role db rows p v :
  forallb plain_project rows = true ->
  (forall r v, r ∈ rows -> is_usage_row r = true -> present (uw_package_version_id r) = Some v -> role v = version_role db v) ->
  counts_of role (List.filter is_usage_row rows) p v (List.filter is_usage_row rows) = counted (version_role db) rows p v.
Proof.
  intros Hpl Hrole. unfold counts_of, counted. rewrite filter_filter.
  set (own := List.filter (fun r => is_usage_row r && row_of p v r) rows).
  assert (Hown : forall r, r ∈ rows -> is_usage_row r = true -> row_of p v r = true ->
            no_char "|"%char p = true /\ is_primary role v = is_primary (version_role db) v).
  { intros r Hr Hu Ho. pose proof Ho as [Ep Ev]%row_of_spec. unfold is_primary. rewrite (Hrole r v Hr Hu Ev). split; [|done].
    apply forallb_forall with (x := r) in Hpl; [|by apply list_elem_of_In]. unfold plain_project in Hpl.
    apply present_some in Ep as [Ep _]. by rewrite Ep in Hpl. }
  assert (Hstep : forall r, r ∈ rows -> is_usage_row r = true -> row_of p v r = true ->
            step_counts role (List.filter is_usage_row rows) r
            = is_primary (version_role db) v && negb (repeated_ref r && existsb human_ref own)).
  { intros r Hr Hu Ho. destruct (Hown r Hr Hu Ho) as [Hp He]. pose proof Ho as [Ep Ev]%row_of_spec.
    unfold step_counts. rewrite Ep, Ev, He. destruct (is_primary (version_role db) v) eqn:E; [|done]. cbn. do 2 f_equal.
    rewrite human_keys_of; [by rewrite filter_filter| |done|by rewrite He]. apply forallb_forall. intros x [Hx _]%filter_In.
    by apply forallb_forall with (x := x) in Hpl. }
  destruct (is_primary (version_role db) v) eqn:E.
  - subst own. rewrite filter_filter. apply filter_ext_elem. intros r Hr. destruct (is_usage_row r) eqn:Hu; [|done]. cbn.
    destruct (row_of p v r) eqn:Ho; [|by rewrite andb_false_r]. by rewrite andb_true_r, (Hstep r Hr Hu Ho).
  - apply filter_b_nil, not_true_iff_false. intros (r & Hr & Hq)%existsb_exists. apply andb_prop in Hq as [Hu [Hs Ho]%andb_prop].
    apply list_elem_of_In in Hr. by rewrite (Hstep r Hr Hu Ho) in Hs.
Qed.

(** What the deltas of a batch say. *)
Definition deltas_of (db : catalog_db) (rows : list PackageUsageEventRow) (ds : list PackageUsageDelta) : Prop :=
  forall p v, match List.filter (delta_of p v) ds with
              | [] => counted (version_role db) rows p v = []
              | [d] => counts_ok d (counted (version_role db) rows p v)
              | _ => False
              end.

Lemma counted_usage role rows p v r : r ∈ counted role rows p v -> r ∈ rows /\ is_usage_row r = true /\ row_of p v r = true.
Proof.
  unfold counted. destruct (is_primary role v); [|intros []%not_elem_of_nil].
  intros [[Hr Hq%andb_prop]%elem_of_filter_b _]%elem_of_filter_b. tauto.
Qed.

Lemma deltas_of_ok role db rows ds :
  forallb plain_project rows = true ->
  (forall r v, r ∈ rows -> is_usage_row r = true -> present (uw_package_version_id r) = Some v -> role v = version_role db v) ->
  deltas_ok role (List.filter is_usage_row rows) (List.filter is_usage_row rows) ds -> deltas_of db rows ds.
Proof.
  intros Hpl Hrole Hok p v. pose proof (dk_one _ _ _ _ Hok p v) as Hone.
  destruct (List.filter (delta_of p v) ds) as [|d [|d' l]] eqn:E; [| |cbn in Hone; lia].
  - rewrite <- (counts_of_counted role) by done. by eapply dk_none.
  - assert (Hd : d ∈ List.filter (delta_of p v) ds) by (rewrite E; apply list_elem_of_here).
    apply elem_of_filter_b in Hd as [Hd [E1 E2]%delta_of_spec]. rewrite <- (counts_of_counted role) by done.
    pose proof (dk_count _ _ _ _ Hok d Hd) as Hc. by rewrite E1, E2 in Hc.
Qed.

Lemma build_run `{Env} rows n db :
  forallb plain_project rows = true -> Forall (fun r => is_Some (uw_requested_at r)) rows ->
  exists ds, returns (buildPackageUsageDeltas rows) (n, db) ds (n, db) /\ deltas_of db rows ds.
Proof.
  intros Hpl Ht.
  assert (Hempty : (forall r v, r ∈ rows -> is_usage_row r = true -> present (uw_package_version_id r) = Some v -> False) -> deltas_of db rows []).
  { intros Hno p v. cbn. destruct (counted (version_role db) rows p v) as [|r l] eqn:E; [done|].
    destruct (counted_usage (version_role db) rows p v r) as (Hr & Hu & [_ Hv]%row_of_spec); [rewrite E; apply list_elem_of_here|].
    destruct (Hno r v Hr Hu Hv). }
  unfold buildPackageUsageDeltas. destruct (List.filter is_usage_row rows) as [|r0 l0] eqn:Eu.
  - exists []. split; [by apply returns_ret|]. apply Hempty. intros r v Hr Hu _.
    assert (Hin : r ∈ List.filter is_usage_row rows) by by apply elem_of_filter_b. rewrite Eu in Hin. by apply not_elem_of_nil in Hin.
  - rewrite <- Eu. destruct (omap _ (List.filter is_usage_row rows)) as [|i0 is0] eqn:Ei.
    + exists []. split; [by apply returns_ret|]. apply Hempty. intros r v Hr Hu Hv.
      assert (Hin : v ∈ omap (fun r => present (uw_package_version_id r)) (List.filter is_usage_row rows)).
      { apply list_elem_of_omap. exists r. split; [by apply elem_of_filter_b|done]. }
      rewrite Ei in Hin. by apply not_elem_of_nil in Hin.
    + rewrite <- Ei. set (ids := omap _ _). set (role := display_roles ids db).
      destruct (count_rows_ok role (List.filter is_usage_row rows) (List.filter is_usage_row rows) [] [] (n, db)) as (ds & Hr & Hok).
      * apply deltas_ok_nil.
      * apply Forall_forall. intros r [Hr _]%elem_of_filter_b. split.
        -- apply forallb_forall with (x := r) in Hpl; [done|by apply list_elem_of_In].
        -- by apply (proj1 (Forall_forall _ _) Ht).
      * exists ds. split; [apply returns_bind; exists role, (n, db); split; [by apply returns_gets|done]|].
        apply (deltas_of_ok role); [done| |done]. intros r v Hrr Hu Hv. apply display_roles_in. apply list_elem_of_omap.
        exists r. split; [by apply elem_of_filter_b|done].
Qed.

(** ** The counters *)

Definition usage_single (rows : list usage_row) : Prop := forall p v, (length (List.filter (usage_of p v) rows) <= 1)%nat.

Definition usage_sums (rows : list usage_row) : Prop := forall r, r ∈ rows -> pu_request_count r = pu_allow_count r + pu_block_count r.

(** A counter of a version in a project; without a row it is 0. *)
Definition counter (f : usage_row -> Z) (p v : string) (rows : list usage_row) : Z := from_option f 0 (head (List.filter (usage_of p v) rows)).

Lemma usage_of_spec p v r : usage_of p v r = true <-> pu_project_id r = p /\ pu_package_version_id r = v.
Proof. unfold usage_of. by rewrite andb_true_iff, !String.eqb_eq. Qed.

(** A column of counters and the column of deltas it grows by. *)
Record grows_by (f : usage_row -> Z) (g : PackageUsageDelta -> Z) : Prop := {
  gb_add d r : f (add_delta d r) = f r + g d;
  gb_new d id : f (of_delta d id) = g d
}.

Lemma requests_grow : grows_by pu_request_count ud_request_count.
Proof. done. Qed.
Lemma allows_grow : grows_by pu_allow_count ud_allow_count.
Proof. done. Qed.
Lemma blocks_grow : grows_by pu_block_count ud_block_count.
Proof. done. Qed.

Definition contribution (g : PackageUsageDelta -> Z) (p v : string) (ds : list PackageUsageDelta) : Z :=
  foldr Z.add 0 (map g (List.filter (delta_of p v) ds)).

Section growth.
Context (d : PackageUsageDelta) (id : string) (rows : list usage_row).

Let p := ud_project_id d.
Let v := ud_package_version_id d.
Let rows' := (upsert (usage_of p v) (add_delta d) (of_delta d id) rows).1.

Lemma rows_apart p' v' : delta_of p' v' d = false -> List.filter (usage_of p' v') rows' = List.filter (usage_of p' v') rows.
Proof.
  intros Hd.
  assert (Hr : forall r, pu_project_id r = p -> pu_package_version_id r = v -> usage_of p' v' r = false).
  { intros r E1 E2. apply not_true_iff_false. intros [E3 E4]%usage_of_spec.
    rewrite (proj2 (delta_of_spec p' v' d)) in Hd; [done|]. by rewrite <- E3, <- E4. }
  apply upsert_apart; [|by apply Hr]. intros r [E1 E2]%usage_of_spec. split; by apply Hr.
Qed.

Lemma counter_grows f g p' v' : grows_by f g -> counter f p' v' rows' = counter f p' v' rows + contribution g p' v' [d].
Proof.
  intros Hg. unfold counter, contribution. cbn. destruct (delta_of p' v' d) eqn:Ed; cbn.
  - apply delta_of_spec in Ed as [E1 E2]. subst p' v'. fold p v. unfold rows'.
    rewrite upsert_first; [|by apply usage_of_spec|intros r Hr; apply usage_of_spec in Hr; by apply usage_of_spec].
    destruct (head _); cbn; [rewrite (gb_add _ _ Hg); lia|rewrite (gb_new _ _ Hg); lia].
  - rewrite rows_apart by done. lia.
Qed.

Lemma growth_single : usage_single rows -> usage_single rows'.
Proof.
  intros Hs p' v'. destruct (delta_of p' v' d) eqn:Ed; [|by rewrite rows_apart].
  apply delta_of_spec in Ed as [<- <-]. fold p v. unfold rows'. rewrite upsert_same; [done|done|by apply usage_of_spec| |apply Hs].
  intros r Hr. apply usage_of_spec in Hr. by apply usage_of_spec.
Qed.

Lemma growth_sums : ud_request_count d = ud_allow_count d + ud_block_count d -> usage_sums rows -> usage_sums rows'.
Proof.
  intros Hd Hs r [->|[(r0 & Hr0 & _ & ->)|Hr]]%upsert_elem; cbn; [lia|specialize (Hs r0 Hr0); lia|by apply Hs].
Qed.
End growth.

Lemma contribution_app g p v ds d : contribution g p v (ds ++ [d]) = contribution g p v ds + contribution g p v [d].
Proof.
  unfold contribution. rewrite List.filter_app, map_app, foldr_app. set (k := map g (List.filter (delta_of p v) [d])).
  assert (H : forall l z, foldr Z.add z l = foldr Z.add 0 l + z).
  { induction l as [|x l IH]; intros z; cbn; [lia|]. rewrite (IH z). lia. }
  rewrite H. cbn. lia.
Qed.

(** The counters after the deltas of one statement. *)
Definition counters_grow (ds : list PackageUsageDelta) (rows rows' : list usage_row) : Prop :=
  (forall f g p v, grows_by f g -> counter f p v rows' = counter f p v rows + contribution g p v ds) /\
  (usage_single rows -> usage_single rows') /\
  (Forall (fun d => ud_request_count d = ud_allow_count d + ud_block_count d) ds -> usage_sums rows -> usage_sums rows').

Lemma counters_grow_nil rows : counters_grow [] rows rows.
Proof. split_and!; [|done..]. intros f g p v _. cbn. lia. Qed.

Lemma counters_grow_snoc ds d id rows rows' :
  counters_grow ds rows rows' ->
  counters_grow (ds ++ [d]) rows (upsert (usage_of (ud_project_id d) (ud_package_version_id d)) (add_delta d) (of_delta d id) rows').1.
Proof.
  intros (H1 & H2 & H3). split_and!.
  - intros f g p v Hg. rewrite (counter_grows d id rows' f g p v Hg), (H1 f g p v Hg), contribution_app. lia.
  - intros Hs. by apply growth_single, H2.
  - intros [Hds [Hd _]%Forall_cons_1]%Forall_app Hs. apply growth_sums; [done|]. by apply H3.
Qed.

Lemma upsert_delta_inv `{Env} d n db u s' :
  returns (upsert_delta d) (n, db) u s' ->
  s' = (S n, set_usage (upsert (usage_of (ud_project_id d) (ud_package_version_id d)) (add_delta d) (of_delta d (uuid n)) (package_usage db)).1 db).
Proof. unfold upsert_delta. intros Hr. run_inv. destruct (counts_fit _); by run_inv. Qed.

(** The deltas are only read. *)
Lemma count_rows_reads `{Env} role keys rows ds s ds' s' : returns (count_rows role keys ds rows) s ds' s' -> s'.2 = s.2.
Proof.
  revert ds s. induction rows as [|r rows IH]; intros ds s Hr; cbn [count_rows] in Hr; [by run_inv|].
  apply returns_bind in Hr as (ds1 & s1 & Hc & Hr). rewrite (IH _ _ Hr). clear IH Hr. unfold count_row in Hc.
  destruct (present (uw_package_version_id r)); [|by run_inv]. destruct (present (uw_project_id r)); [|by run_inv].
  destruct (negb _); [by run_inv|]. destruct (repeated_ref r && _); [by run_inv|]. destruct (uw_requested_at r); by run_inv.
Qed.

Lemma build_reads `{Env} rows s ds s' : returns (buildPackageUsageDeltas rows) s ds s' -> s'.2 = s.2.
Proof.
  unfold buildPackageUsageDeltas. intros Hr. destruct (List.filter is_usage_row rows); [by run_inv|].
  destruct (omap _ _); [by run_inv|]. apply returns_bind in Hr as (role & s1 & Hg & Hr). apply returns_gets in Hg as [_ ->].
  by apply count_rows_reads in Hr.
Qed.

Lemma zoom_reads {A} (e : M catalog_db A) s a s' :
  (forall s a s', returns e s a s' -> s'.2 = s.2) -> returns (on_usage_catalog e) s a s' -> s'.2 = s.2.
Proof.
  intros He Hr. unfold on_usage_catalog, on_gateway, on_check, on_catalog in Hr.
  apply returns_zoom in Hr as (t & Hr & ->). apply returns_zoom in Hr as (t' & Hr & ->). apply returns_zoom in Hr as (t'' & Hr & ->).
  apply He in Hr. cbn in *. rewrite Hr. by destruct s as [? [[? ? [] ? ? ?] ?]].
Qed.

(** A reading of the catalogue. *)
Lemma on_catalog_returns {A} (e : M catalog_db A) n db a :
  returns e (n, catalog_tables (check_tables (gateway db))) a (n, catalog_tables (check_tables (gateway db))) ->
  returns (on_usage_catalog e) (n, db) a (n, db).
Proof.
  intros He. unfold returns, on_usage_catalog, on_gateway, on_check, on_catalog, zoom in *. cbn [fst snd] in *. rewrite He. cbn.
  by destruct db as [[? ? [] ? ? ?] ?].
Qed.

Lemma updatePackageUsage_gateway `{Env} rows s u s' : returns (updatePackageUsage rows) s u s' -> gateway s'.2 = gateway s.2.
Proof.
  unfold updatePackageUsage. intros Hr. apply returns_bind in Hr as (ds & s1 & Hb & Hr).
  apply zoom_reads in Hb as <-; [|apply build_reads]. destruct ds as [|d ds]; [by run_inv|].
  apply returns_transaction, returns_bind in Hr as (us & s2 & Hl & Hr). apply returns_ret in Hr as [_ <-].
  apply (returns_mapM upsert_delta (fun _ _ s => gateway s.2 = gateway s1.2) _ _ _ _ Hl); [|done].
  intros dn ys x y [m dm] s3 Hg Hd%upsert_delta_inv. by subst s3.
Qed.

Lemma updatePackageUsage_inv `{Env} rows n db u n' db' :
  forallb plain_project rows = true -> Forall (fun r => is_Some (uw_requested_at r)) rows ->
  returns (updatePackageUsage rows) (n, db) u (n', db') ->
  exists ds, deltas_of (catalog_tables (check_tables (gateway db))) rows ds /\ counters_grow ds (package_usage db) (package_usage db').
Proof.
  intros Hpl Ht Hr. unfold updatePackageUsage in Hr. apply returns_bind in Hr as (ds & s1 & Hb & Hr).
  destruct (build_run rows n (catalog_tables (check_tables (gateway db))) Hpl Ht) as (ds' & Hb' & Hds).
  apply (on_catalog_returns _ _ db) in Hb'. unfold returns in Hb, Hb'. rewrite Hb' in Hb. injection Hb as <- <-. clear Hb'.
  destruct ds' as [|d0 ds0].
  - run_inv. exists []. split; [done|apply counters_grow_nil].
  - apply returns_transaction, returns_bind in Hr as (us & s2 & Hl & Hr). apply returns_ret in Hr as [_ <-].
    exists (d0 :: ds0). split; [done|].
    apply (returns_mapM upsert_delta (fun ds _ s => counters_grow ds (package_usage db) (package_usage s.2)) _ _ _ _ Hl); [|apply counters_grow_nil].
    intros dn ys d y [m dm] s' Hc Hd%upsert_delta_inv. subst s'. by apply counters_grow_snoc.
Qed.

Lemma tally_split q c : tally c = tally (List.filter q c) + tally (List.filter (fun r => negb (q r)) c).
Proof. unfold tally. induction c as [|r c IH]; [done|]. cbn. destruct (q r); cbn; lia. Qed.

Lemma contribution_counted db rows ds p v :
  deltas_of db rows ds ->
  let c := counted (version_role db) rows p v in
  contribution ud_request_count p v ds = tally c /\ contribution ud_allow_count p v ds = tally (List.filter is_allow c) /\
  contribution ud_block_count p v ds = tally (List.filter (fun r => negb (is_allow r)) c).
Proof.
  intros Hds c. specialize (Hds p v). unfold contribution. fold c in Hds.
  destruct (List.filter (delta_of p v) ds) as [|d [|]]; [by rewrite Hds| |done]. destruct Hds as (E1 & E2 & E3 & _). cbn. lia.
Qed.

Lemma deltas_sums db rows ds :
  deltas_of db rows ds -> Forall (fun d => ud_request_count d = ud_allow_count d + ud_block_count d) ds.
Proof.
  intros Hds. apply Forall_forall. intros d Hd. specialize (Hds (ud_project_id d) (ud_package_version_id d)).
  assert (Hin : d ∈ List.filter (delta_of (ud_project_id d) (ud_package_version_id d)) ds).
  { apply elem_of_filter_b. split; [done|]. by apply delta_of_spec. }
  destruct (List.filter _ ds) as [|d' [|]]; [by apply not_elem_of_nil in Hin| |done]. apply list_elem_of_singleton in Hin as ->.
  destruct Hds as (-> & -> & -> & _). apply tally_split.
Qed.

(** ** What recording leaves alone *)

Definition same_tables (db db' : usage_db) : Prop :=
  package_usage db' = package_usage db /\ events (gateway db') = events (gateway db) /\
  published (gateway db') = published (gateway db) /\ tenancy_tables (gateway db') = tenancy_tables (gateway db).

Lemma same_tables_trans a b c : same_tables a b -> same_tables b c -> same_tables a c.
Proof. intros (E1 & E2 & E3 & E4) (F1 & F2 & F3 & F4). split_and!; congruence. Qed.

Definition quiet {A} (e : UM A) : Prop := forall s a s', returns e s a s' -> same_tables s.2 s'.2.

Lemma quiet_ret {A} (a : A) : quiet (mret a).
Proof. intros s b s' [_ ->]%returns_ret. done. Qed.

Lemma quiet_throw {A} m : quiet (@throw usage_db A m).
Proof. intros s b s' []%returns_throw. Qed.

Lemma quiet_bind {A B} (e : UM A) (f : A -> UM B) : quiet e -> (forall a, quiet (f a)) -> quiet (e ≫= f).
Proof.
  intros He Hf s b s' (a & s1 & H1 & H2)%returns_bind. eapply same_tables_trans; [by eapply He|by eapply Hf].
Qed.

Lemma quiet_catalog {A} (e : M catalog_db A) : quiet (on_usage_catalog e).
Proof.
  intros s a s' Hr. unfold on_usage_catalog, on_gateway, on_check, on_catalog in Hr.
  apply returns_zoom in Hr as (t & Hr & ->). apply returns_zoom in Hr as (t' & Hr & ->). done.
Qed.

Lemma quiet_mapM {A B} (f : A -> UM B) l : (forall x, quiet (f x)) -> quiet (mapM_ f l).
Proof.
  intros Hf. induction l as [|x l IH]; [apply quiet_ret|]. apply quiet_bind; [done|]. intros b. apply quiet_bind; [done|].
  intros bs. apply quiet_ret.
Qed.

Ltac quiet_step :=
  first [apply quiet_ret | apply quiet_throw | apply quiet_catalog
        | apply quiet_bind; [|intros ?] | apply quiet_mapM; intros ?].

Section records.
Context `{Env}.

Lemma quiet_refs p : quiet (record_refs p).
Proof.
  unfold record_refs, record_observed, record_related_versions, related_without_time, invalid_time.
  repeat (quiet_step || case_match).
Qed.

(** The records of a batch, one per event that is attributed. *)
Definition record_for (proxy : VerifiedProxyContext) (db : tenancy_db) (e : UsageEvent) (o : option usage_record) : Prop :=
  match o with
  | Some r => ur_event r = e /\ attribution proxy db e = Some (ur_tenant_id r, ur_project_id r, ur_project_token_id r)
              /\ normalizeDecisionPath (ue_decision_path e) = Ok (ur_decision_path r)
  | None => attribution proxy db e = None
  end.

Lemma record_of_inv proxy db e s o s' : returns (record_of proxy db e) s o s' -> s'.2 = s.2 /\ record_for proxy db e o.
Proof.
  unfold record_of, record_for. destruct (attribution proxy db e) as [[[t p] k]|] eqn:Ea; intros Hr; [|by run_inv].
  apply returns_bind in Hr as (id & s1 & Hf & Hr). apply returns_fresh in Hf as [-> ->].
  apply returns_bind in Hr as (path & s2 & Hp & Hr). apply returns_of_res in Hp as [Hp ->]. by run_inv.
Qed.

Lemma records_inv proxy db es s os s' :
  returns (mapM_ (record_of proxy db) es) s os s' -> s'.2 = s.2 /\ Forall2 (record_for proxy db) es os.
Proof.
  intros Hr. apply (returns_mapM _ (fun es os s1 => s1.2 = s.2 /\ Forall2 (record_for proxy db) es os) _ _ _ _ Hr); [|done].
  intros dn ys x y s1 s2 [E1 K1] [E2 K2]%record_of_inv. split; [congruence|]. apply Forall2_app; [done|]. by constructor.
Qed.

(** The events the insert stores. *)
Lemma insert_usage_events_inv proxy pairs n db rows s' :
  returns (insert_usage_events proxy pairs) (n, db) rows s' ->
  mapM (usage_event_row proxy (clock n)) pairs = Some rows /\
  s' = (S n, set_gateway (set_events (events (gateway db) ++ rows) (gateway db)) db).
Proof.
  intros Hr. unfold insert_usage_events in Hr. apply returns_bind in Hr as (t & s1 & Hn & Hr). apply returns_now in Hn as [-> ->].
  cbn [fst snd] in Hr. destruct (mapM _ pairs) as [rows'|]; [|by apply returns_throw in Hr].
  destruct (negb _); [by apply returns_throw in Hr|].
  apply returns_bind in Hr as (taken & s2 & Hg & Hr). apply returns_gets in Hg as [-> ->].
  destruct (bool_decide _); [|by apply returns_throw in Hr]. apply returns_bind in Hr as (u & s3 & Hm & Hr). apply returns_ret in Hr as [-> ->].
  split; [done|]. apply returns_zoom in Hm as (g & Hm & ->). apply returns_modify in Hm as [_ ->]. done.
Qed.

Lemma publish_inv proxy pairs s us s' :
  returns (mapM_ (publish_usage proxy) pairs) s us s' ->
  package_usage s'.2 = package_usage s.2 /\ events (gateway s'.2) = events (gateway s.2) /\
  check_tables (gateway s'.2) = check_tables (gateway s.2) /\
  exists posts, published (gateway s'.2) = published (gateway s.2) ++ posts /\
    Forall2 (fun p post => post.1 = ur_tenant_id p.1 /\ exists t, post.2 = usage_payload proxy t p) pairs posts.
Proof.
  intros Hr. apply (returns_mapM _ (fun pairs _ s1 => package_usage s1.2 = package_usage s.2 /\ events (gateway s1.2) = events (gateway s.2) /\
    check_tables (gateway s1.2) = check_tables (gateway s.2) /\
    exists posts, published (gateway s1.2) = published (gateway s.2) ++ posts /\
      Forall2 (fun p post => post.1 = ur_tenant_id p.1 /\ exists t, post.2 = usage_payload proxy t p) pairs posts) _ _ _ _ Hr);
    [|split_and!; try done; exists []; by rewrite app_nil_r].
  intros dn ys x y [n1 s1] s2 (E1 & E2 & E3 & posts & E4 & Hf) Hp. unfold publish_usage in Hp.
  apply returns_bind in Hp as (t & s3 & Hn & Hp). apply returns_now in Hn as [-> ->].
  apply returns_zoom in Hp as (g & Hm & ->). apply returns_modify in Hm as [_ ->]. cbn in *. split_and!; try done.
  exists (posts ++ [(ur_tenant_id x.1, usage_payload proxy (clock n1) x)]). rewrite E4, app_assoc. split; [done|].
  apply Forall2_app; [done|]. constructor; [|done]. split; [done|]. by exists (clock n1).
Qed.
End records.
