(* ===== verification/Ticks.v ===== *)
(** * The operations of a check only read the oracles forward *)

From S2P Require Import Prelude JsString JsNum JsValue Sql Effects Identity Schema Tenancy Catalog ConnectorTypes Jsonb Cache Findings Snapshots Resolver Evaluation Violations CheckService.
Local Open Scope list_scope.

Section ticks.
Context `{Env} `{SqlOrder} `{TextDriver} {C : Type} `{PackageIntelligenceConnector C}.
Context (handleEvent : C -> ConnectorEvent -> check_db -> timestamp -> fetch_outcome).

(** ** Tables *)

Lemma insert_unique_ticks {S R} get put conflict new : ticks (@insert_unique S R get put conflict new).
Proof. unfold insert_unique. ticks_walk. Qed.

Lemma insert_or_nothing_ticks {S R V} get put conflict new v : ticks (@insert_or_nothing _ S R V get put conflict new v).
Proof. unfold insert_or_nothing. ticks_walk. Qed.

Hint Resolve insert_unique_ticks insert_or_nothing_ticks : ticksdb.

(** ** The connectors *)

Lemma findFreshCacheRow_ticks (c : C) e : ticks (findFreshCacheRow c e).
Proof. unfold findFreshCacheRow. ticks_walk. Qed.

Lemma interpretCacheRow_ticks r a b : ticks (interpretCacheRow r a b).
Proof. unfold interpretCacheRow. ticks_walk. Qed.

Hint Resolve findFreshCacheRow_ticks interpretCacheRow_ticks : ticksdb.

Lemma buildCachedSnapshot_ticks (c : C) e name : ticks (buildCachedSnapshot c e name).
Proof. unfold buildCachedSnapshot. ticks_walk. Qed.

Lemma getPackageScopedCachedResult_ticks (c : C) e : ticks (getPackageScopedCachedResult c e).
Proof. unfold getPackageScopedCachedResult. ticks_walk. Qed.

Lemma upsertCachedResult_ticks (c : C) e r ttl : ticks (upsertCachedResult c e r ttl).
Proof. unfold upsertCachedResult. ticks_walk. Qed.

Lemma upsertConnectorSnapshot_ticks tenant project s : ticks (upsertConnectorSnapshot tenant project s).
Proof. unfold upsertConnectorSnapshot. ticks_walk. Qed.

Lemma loadSnapshots_ticks project artifact t : ticks (loadSnapshots project artifact t).
Proof. unfold loadSnapshots. ticks_walk. Qed.

Lemma upsertProjectFindingsForEntity_ticks input : ticks (upsertProjectFindingsForEntity input).
Proof.
  unfold upsertProjectFindingsForEntity, upsertProjectFindingsForEntityTx, observe_finding, upsert_finding, upsert_version,
    insert_version, insert_project_finding, close_unobserved, dateAfterNowAnd.
  ticks_walk.
Qed.

Hint Resolve buildCachedSnapshot_ticks getPackageScopedCachedResult_ticks upsertCachedResult_ticks
  upsertConnectorSnapshot_ticks loadSnapshots_ticks upsertProjectFindingsForEntity_ticks : ticksdb.

Lemma persistConnectorResult_ticks (ev : @evaluation C) r ms : ticks (persistConnectorResult ev r ms).
Proof. unfold persistConnectorResult, snapshot_now, store_snapshot, on_cache, on_snapshots, on_findings. ticks_walk. Qed.

Lemma answerFromCache_ticks (ev : @evaluation C) a ctx : ticks (answerFromCache ev a ctx).
Proof. unfold answerFromCache, store_snapshot, metadata_event, on_cache, on_snapshots, on_findings. ticks_walk. Qed.

Lemma evaluationFailed_ticks (ev : @evaluation C) start f m : ticks (evaluationFailed ev start f m).
Proof. unfold evaluationFailed, snapshot_now, store_snapshot, on_snapshots. ticks_walk. Qed.

Hint Resolve persistConnectorResult_ticks answerFromCache_ticks evaluationFailed_ticks : ticksdb.

Lemma evaluateConnectorForRequest_ticks req a t p (c : C) : ticks (evaluateConnectorForRequest handleEvent req a t p c).
Proof. unfold evaluateConnectorForRequest, artifact_event. ticks_walk. Qed.

Lemma evaluateCachedConnectorForRequest_ticks req a t p (c : C) : ticks (evaluateCachedConnectorForRequest req a t p c).
Proof. unfold evaluateCachedConnectorForRequest, artifact_event. ticks_walk. Qed.

Lemma filter_supported_ticks (f : C -> EM bool) cs : (forall c, ticks (f c)) -> ticks (filter_supported f cs).
Proof. intros Hf. induction cs as [|c cs IH]; cbn [filter_supported]; ticks_walk; auto. Qed.

Lemma complete_snapshots_ticks (cs : list C) ss meta : ticks (complete_snapshots cs ss meta).
Proof. revert ss meta. induction cs as [|c cs IH]; intros ss meta; cbn [complete_snapshots]; ticks_walk; auto. Qed.

Lemma loadPackageReleaseContext_ticks req : ticks (loadPackageReleaseContext req).
Proof. unfold loadPackageReleaseContext, ageDays. ticks_walk. Qed.

Hint Resolve evaluateConnectorForRequest_ticks evaluateCachedConnectorForRequest_ticks complete_snapshots_ticks
  loadPackageReleaseContext_ticks : ticksdb.

Lemma collectConnectorEvaluationFields_ticks prefetch req cs t p a :
  ticks prefetch -> ticks (collectConnectorEvaluationFields handleEvent prefetch req cs t p a).
Proof.
  intros Hp. unfold collectConnectorEvaluationFields, on_snapshots.
  apply keeps_bind; [apply filter_supported_ticks; intros c; unfold connectorSupportsArtifactRequest, artifact_event; ticks_walk|].
  intros supported. apply keeps_bind; [exact Hp|]. intros _. ticks_walk.
Qed.

(** ** Events *)

Lemma recordCheckEvent_ticks proxy t p tok req a d r m eid sse : ticks (recordCheckEvent proxy t p tok req a d r m eid sse).
Proof. unfold recordCheckEvent. ticks_walk. Qed.

(** ** The catalogue and the records *)

Lemma insert_package_ticks v : ticks (insert_package v).
Proof. apply insert_or_nothing_ticks. Qed.

Lemma insert_package_version_ticks v : ticks (insert_package_version v).
Proof. apply insert_or_nothing_ticks. Qed.

Hint Resolve insert_package_ticks insert_package_version_ticks : ticksdb.

Lemma resolvePackageCatalogReferences_ticks inputs : ticks (resolvePackageCatalogReferences inputs).
Proof.
  unfold resolvePackageCatalogReferences, package_id_map, package_version_id_map, update_existing, updatePackageVersionCatalogRow.
  ticks_walk.
Qed.

Hint Resolve resolvePackageCatalogReferences_ticks : ticksdb.

Lemma resolveArtifactIdentity_ticks input : ticks (resolveArtifactIdentity input).
Proof. unfold resolveArtifactIdentity, resolveArtifactIdentities. ticks_walk. Qed.

Lemma upsertPackageVersionRef_ticks input : ticks (upsertPackageVersionRef input).
Proof. unfold upsertPackageVersionRef. ticks_walk. Qed.

Hint Resolve resolveArtifactIdentity_ticks upsertPackageVersionRef_ticks : ticksdb.

Lemma recordObservedPackageVersionRefs_ticks input : ticks (recordObservedPackageVersionRefs input).
Proof. unfold recordObservedPackageVersionRefs, upsertPackageVersionMetadata. ticks_walk. Qed.

Lemma recordPackageVersionRelatedVersions_ticks input : ticks (recordPackageVersionRelatedVersions input).
Proof.
  unfold recordPackageVersionRelatedVersions, record_related, upsertPackageVersionRelationship, upsertPackageVersionMetadata. ticks_walk.
Qed.

Hint Resolve recordObservedPackageVersionRefs_ticks recordPackageVersionRelatedVersions_ticks : ticksdb.

Lemma recordReferences_ticks req artifact : ticks (recordReferences req artifact).
Proof. unfold recordReferences, on_catalog. ticks_walk. Qed.

Lemma warmPackageScopedConnectors_ticks a (cs : list C) ctx : ticks (warmPackageScopedConnectors handleEvent a cs ctx).
Proof. unfold warmPackageScopedConnectors, warm_connector, metadata_event, on_cache. ticks_walk. Qed.

Lemma recordPolicyEvaluationWithViolations_ticks findings e : ticks (recordPolicyEvaluationWithViolations findings e).
Proof.
  unfold recordPolicyEvaluationWithViolations, recordEvaluationTx, insert_evaluation, record_violation, write_violation, update_violation,
    insert_violation, insert_occurrence, add_evidence. ticks_walk.
Qed.

Lemma insert_evaluation_ticks row : ticks (insert_evaluation row).
Proof. unfold insert_evaluation. ticks_walk. Qed.
End ticks.

#[export] Hint Resolve insert_unique_ticks collectConnectorEvaluationFields_ticks recordCheckEvent_ticks resolveArtifactIdentity_ticks recordReferences_ticks
  warmPackageScopedConnectors_ticks recordPolicyEvaluationWithViolations_ticks insert_evaluation_ticks : ticksdb.
