(* ===== verification/IngestionSpec.v ===== *)
(** * What the ingestion of contributor metadata guarantees

    The stored facts of a release say where it stands in the package's history;
    the facts of a package only get better; and a slice that adds no older release
    to a known package is not stored. *)

From S2P Require Import Prelude JsString JsNum JsValue Json Jsonb Sql Effects JsDate Identity Schema Catalog ConnectorTypes Cache Scorer Contributor Findings FindingsCorrect Snapshots Effective Evaluation Ingestion IngestionCorrect.
Local Open Scope string_scope.
Local Open Scope list_scope.
Local Open Scope Z_scope.

(** ** The history of a package, by sets *)

Definition members (l : list string) : gset string := list_to_set l.

(** A release as the ingestion normalises it. *)
Record plain_release (v : UpsertedVersion) : Prop := {
  pl_publisher : uv_publisher v <> Some EmptyString;
  pl_distinct : NoDup (uv_maintainers v);
  pl_sorted : js_sort str_leb (uv_maintainers v) = uv_maintainers v
}.

(** The signals of the release at a place in the order of publication. *)
Definition reference_signals (all : list UpsertedVersion) (complete : bool) (trusted : option bool) (i : nat)
    (v : UpsertedVersion) : ContributorSignals :=
  let before := take i all in
  let prior := last before in
  let old := members (from_option uv_maintainers [] prior) in
  let new := members (uv_maintainers v) in
  {| cs_version := uv_version v; cs_publishedAt := uv_publishedAt v; publisher := uv_publisher v;
     publisherSeenBeforePackage := (fun p => existsb (fun x => bool_decide (uv_publisher x = Some p)) before) <$> uv_publisher v;
     publisherSeenCountBefore := (fun p => Z.of_nat (published_by p before)) <$> uv_publisher v;
     publisherMatchesPriorVersion := p ← (prior ≫= uv_publisher); q ← uv_publisher v; Some (bool_decide (p = q));
     priorVersionPublisher := prior ≫= uv_publisher;
     maintainerSetChanged := (fun _ => bool_decide (new <> old)) <$> prior;
     newMaintainerCount := Some (Z.of_nat (size (new ∖ old))); removedMaintainerCount := Some (Z.of_nat (size (old ∖ new)));
     maintainerCount := Some (Z.of_nat (size new));
     hasInstallScripts := Some (uv_hasInstallScripts v); hasProvenance := Some (uv_hasAttestation v);
     hasTrustedPublisher := trusted;
     releaseVelocity7d := Some (countVersionsInWindow all (uv_publishedAt v) 7);
     releaseVelocity30d := Some (countVersionsInWindow all (uv_publishedAt v) 30);
     historyComplete := Some complete |}.

Lemma sameMembers_eq l k : sameMembers l k = bool_decide (l = k).
Proof.
  unfold sameMembers. apply eq_bool_prop_intro. rewrite bool_decide_spec. split.
  - intros [Hl%Nat.eqb_eq Hf]%Is_true_true%andb_prop. rewrite forallb_elem_of in Hf.
    apply list_eq_same_length with (length l); [done..|]. intros i x y Hi Hx Hy.
    specialize (Hf (i, x)). cbn in Hf. rewrite bool_decide_eq_true, Hy in Hf. symmetry. apply (inj Some), Hf.
    apply list_elem_of_lookup. exists i. by rewrite list_lookup_imap, Hx.
  - intros ->. apply Is_true_true, andb_true_intro. split; [apply Nat.eqb_refl|]. rewrite forallb_elem_of.
    intros [i x] (j & Hj)%list_elem_of_lookup. rewrite list_lookup_imap in Hj. destruct (k !! j) eqn:E; [|done].
    cbn in Hj. injection Hj as <- <-. by apply bool_decide_eq_true.
Qed.

Lemma same_members_set v w : plain_release v -> plain_release w ->
  uv_maintainers v = uv_maintainers w <-> members (uv_maintainers v) = members (uv_maintainers w).
Proof.
  intros [_ Hv Sv] [_ Hw Sw]. split; [by intros ->|]. intros He. rewrite <- Sv, <- Sw. apply js_sort_strings, NoDup_Permutation; [done..|].
  intros x. rewrite <- !(elem_of_list_to_set (C:=gset string)). unfold members in He. by rewrite He.
Qed.

Lemma difference_size a b : NoDup a -> length (difference a b) = size (members a ∖ members b).
Proof.
  intros Ha. assert (Hd : NoDup (difference a b)).
  { unfold difference. rewrite <- (List.map_id (List.filter _ _)). apply NoDup_map_filter. by rewrite List.map_id. }
  unfold members. rewrite <- (size_list_to_set (C:=gset string) (difference a b)) by done. f_equal.
  apply leibniz_equiv. intros x. rewrite elem_of_difference, !elem_of_list_to_set. unfold difference.
  rewrite elem_of_filter_b, negb_true_iff, <- not_true_iff_false, existsb_eqb. done.
Qed.

Lemma published_by_positive p l :
  existsb (fun x => bool_decide (uv_publisher x = Some p)) l = (0 <? Z.of_nat (published_by p l)).
Proof.
  unfold published_by. destruct (existsb _ l) eqn:E.
  - symmetry. apply Z.ltb_lt. destruct (List.filter _ l) eqn:Ef; [|cbn; lia]. apply filter_b_nil in Ef. congruence.
  - apply filter_b_nil in E. by rewrite E.
Qed.

(** The signals the loop computes are those of the history. *)
Lemma stored_signals_reference all hc i v :
  Forall plain_release all -> all !! i = Some v ->
  storedSignals all hc (history all i) i v = reference_signals all hc None i v.
Proof.
  intros Hall Hv. assert (Hpv : plain_release v) by (by eapply Forall_lookup_1).
  destruct (history_prior all i) as [Hp Hm]. unfold prior_release in *.
  assert (Hpub : present (uv_publisher v) = uv_publisher v).
  { destruct (uv_publisher v) as [p|] eqn:E; [|done]. apply present_some. split; [done|]. intros ->. by apply (pl_publisher v Hpv). }
  assert (Hseen : forall p, uv_publisher v = Some p -> default 0 (map_get p (seenPublishers (history all i)))
     = Z.of_nat (published_by p (take i all))).
  { intros p Hpe. apply history_seen. intros ->. by apply (pl_publisher v Hpv). }
  assert (Hprior : forall w, last (take i all) = Some w -> plain_release w).
  { intros w Hw. rewrite Forall_forall in Hall. apply Hall. apply last_Some_elem_of in Hw. by eapply subseteq_take. }
  assert (Hold : NoDup (from_option uv_maintainers [] (last (take i all)))).
  { destruct (last (take i all)) as [w|]; [by apply (pl_distinct w), Hprior|apply NoDup_nil_2]. }
  unfold storedSignals, reference_signals. rewrite Hpub, Hp, Hm.
  rewrite !difference_size by (done || apply (pl_distinct v Hpv)).
  assert (Hlen : length (uv_maintainers v) = size (members (uv_maintainers v))).
  { unfold members. by rewrite size_list_to_set by apply (pl_distinct v Hpv). }
  rewrite Hlen. f_equal.
  - destruct (uv_publisher v) as [p|] eqn:E; [|done]. cbn. by rewrite (Hseen p), published_by_positive.
  - destruct (uv_publisher v) as [p|] eqn:E; [|done]. cbn. by rewrite (Hseen p).
  - destruct (last (take i all)) as [w|]; cbn; [|done]. destruct (uv_publisher w) as [s|], (uv_publisher v) as [s0|]; cbn; try done.
    f_equal. by destruct (String.eqb_spec s s0) as [->|Hn]; [rewrite bool_decide_eq_true_2|rewrite bool_decide_eq_false_2].
  - destruct (last (take i all)) as [w|] eqn:E; cbn.
    + assert (Hi : Nat.eqb i 0 = false) by (destruct i; [discriminate E|done]). rewrite Hi, sameMembers_eq. f_equal.
      rewrite <- bool_decide_not. apply bool_decide_ext. by rewrite (same_members_set v w Hpv (Hprior w eq_refl)).
    + apply last_None in E. destruct i; [done|]. destruct all; [done|discriminate E].
Qed.

(** ** The quality of a package's facts *)

(** [q] is at least as good as [q0]: a complete history is better than another, then
    one that reaches further back, then one observed later. *)
Definition at_least (q q0 : ContributorFactQuality) : Prop :=
  let complete x := is_true (q_historyComplete x) in
  (complete q0 = true -> complete q = true) /\
  (complete q = complete q0 ->
   match q_oldestIncludedPublishedAt q, q_oldestIncludedPublishedAt q0 with
   | None, Some _ => False
   | Some a, Some b => a <= b
   | _, None => True
   end /\
   (q_oldestIncludedPublishedAt q = q_oldestIncludedPublishedAt q0 ->
    match q_observedAt q, q_observedAt q0 with
    | None, Some _ => False
    | Some a, Some b => b <= a
    | _, None => True
    end)).

(** The code's test is that order. *)
Definition as_good (q q0 : ContributorFactQuality) : Prop := shouldReplaceContributorFacts q q0 = true.

Lemma as_good_spec q q0 : as_good q q0 <-> at_least q q0.
Proof.
  unfold as_good, at_least, shouldReplaceContributorFacts. destruct q as [c o t], q0 as [c0 o0 t0]. cbn.
  destruct (is_true c), (is_true c0); cbn; try (intuition congruence).
  all: destruct o as [a|], o0 as [a0|]; cbn; try (intuition congruence).
  all: destruct t as [s|], t0 as [s0|]; cbn; try (destruct (Z.eqb_spec a a0) as [->|]); cbn; rewrite ?Z.leb_le, ?Z.ltb_lt.
  all: try (intuition congruence); intuition (congruence || lia).
Qed.

Ltac quality_cases :=
  unfold as_good, shouldReplaceContributorFacts in *;
  repeat match goal with q : ContributorFactQuality |- _ => destruct q as [? ? ?] end; cbn in *;
  repeat match goal with |- context [is_true ?c] => destruct (is_true c) | H : context [is_true ?c] |- _ => destruct (is_true c) end;
  cbn in *; try done;
  repeat match goal with o : option timestamp |- _ => destruct o end; cbn in *; try done;
  repeat match goal with
         | H : context [Z.eqb ?a ?b] |- _ => destruct (Z.eqb_spec a b)
         | |- context [Z.eqb ?a ?b] => destruct (Z.eqb_spec a b)
         end; cbn in *; rewrite ?Z.leb_le, ?Z.ltb_lt in *; try lia.

Lemma as_good_refl q : as_good q q.
Proof. quality_cases. Qed.

Lemma as_good_trans q1 q2 q3 : as_good q1 q2 -> as_good q2 q3 -> as_good q1 q3.
Proof. intros H12 H23. quality_cases. Qed.

Lemma as_good_total q q0 : as_good q q0 \/ as_good q0 q.
Proof. quality_cases. Qed.

(** ** What an ingestion keeps *)

(** The package of a name has an identifier. *)
Definition has_package (k : string * string) (id : string) (db : catalog_db) : Prop :=
  exists p, p ∈ packages db /\ package_is k p = true /\ pk_id p = id.

Definition facts_unique (rows : list package_facts_row) : Prop :=
  forall id, (length (List.filter (of_package id) rows) <= 1)%nat.

Definition package_facts_of (id : string) (rows : list package_facts_row) : option package_facts_row :=
  head (List.filter (of_package id) rows).

(** The facts of a package are at least of some quality. *)
Definition good_facts (id : string) (q : ContributorFactQuality) (rows : list package_facts_row) : Prop :=
  exists r, package_facts_of id rows = Some r /\ as_good (package_quality r) q.

Section keeps.
Context `{Env}.

Lemma update_packages_keeps k id (p : package_row -> bool) (f : package_row -> package_row) :
  (forall r, pk_id (f r) = pk_id r /\ pk_ecosystem (f r) = pk_ecosystem r /\ pk_package (f r) = pk_package r) ->
  keeps (fun _ db => has_package k id db) (modify (set_packages (update_where p f))).
Proof.
  intros Hf. apply keeps_modify. intros _ db (r & Hr & Hk & Hid). unfold has_package. cbn [packages set_packages].
  exists (if p r then f r else r). split; [unfold update_where; by apply (list_elem_of_fmap_2 (fun r => if p r then f r else r))|].
  destruct (p r); [|done]. destruct (Hf r) as (E1 & E2 & E3). unfold package_is. by rewrite E1, E2, E3.
Qed.

Lemma upsertPackageIdentity_keeps k id eco name t : keeps (fun _ db => has_package k id db) (upsertPackageIdentity eco name t).
Proof.
  unfold upsertPackageIdentity, insert_or_nothing. keeps_walk. match goal with Hp : has_package _ _ _ |- _ => destruct Hp as (r & Hr & Hk) end. exists r.
  split; [|done]. cbn. apply elem_of_app. by left.
Qed.

Lemma upsertPackageVersion_keeps k id p v t t' : keeps (fun _ db => has_package k id db) (upsertPackageVersion p v t t').
Proof. unfold upsertPackageVersion. keeps_walk. done. Qed.

Lemma updatePackageMetadata_keeps k id p v t t' : keeps (fun _ db => has_package k id db) (updatePackageMetadata p v t t').
Proof. unfold updatePackageMetadata. apply keeps_bind; [apply keeps_gets|]. intros c. by apply update_packages_keeps. Qed.

Lemma unique_upsert id values rows :
  cf_package_id values = id -> facts_unique rows -> facts_unique (upsert (of_package id) (fun _ => values) values rows).1.
Proof.
  intros Hid Hu k. destruct (String.eqb_spec k id) as [->|Hk].
  - destruct (existsb (of_package id) rows) eqn:E; [|by apply upsert_filter_one].
    rewrite (upsert_same _ _ _ (of_package id)); [cbn; lia|done|by apply String.eqb_eq| |apply Hu].
    intros _ _. by apply String.eqb_eq.
  - rewrite upsert_others; [apply Hu|..].
    + intros r _ Hr%String.eqb_eq. apply String.eqb_neq. congruence.
    + intros _. apply String.eqb_neq. congruence.
    + apply String.eqb_neq. congruence.
Qed.

(** The facts an upsert leaves: those of the package are the given ones, unless the
    stored ones are better. *)
Lemma upsert_package_facts_run id fp hc oldest t n rows :
  let values := {| cf_package_id := id; cf_fingerprint := fp; cf_history_complete := hc;
                   cf_oldest_included_published_at := oldest; cf_observed_at := Some t |} in
  facts_unique rows ->
  exists rows', returns (upsertContributorPackageFacts id fp hc oldest t) (n, rows) tt (n, rows') /\ facts_unique rows' /\
    good_facts id (package_quality values) rows' /\
    forall k q, good_facts k q rows -> good_facts k q rows'.
Proof.
  intros values Hu. unfold upsertContributorPackageFacts. fold values.
  assert (Hwrite : facts_unique (upsert (of_package id) (fun _ => values) values rows).1 /\
    good_facts id (package_quality values) (upsert (of_package id) (fun _ => values) values rows).1 /\
    ((forall e, package_facts_of id rows = Some e -> as_good (package_quality values) (package_quality e)) ->
     forall k q, good_facts k q rows -> good_facts k q (upsert (of_package id) (fun _ => values) values rows).1)).
  { assert (Hp : package_facts_of id (upsert (of_package id) (fun _ => values) values rows).1 = Some values).
    { unfold package_facts_of. rewrite upsert_head; [by destruct (head _)|..]; intros; apply String.eqb_refl. }
    split; [by apply unique_upsert|]. split; [exists values; split; [done|apply as_good_refl]|].
    intros He k q (r & Hr & Hq). destruct (String.eqb_spec k id) as [->|Hk].
    - exists values. split; [done|]. eapply as_good_trans; [by apply He|done].
    - exists r. split; [|done]. unfold package_facts_of in *. rewrite upsert_others; [done|..].
      + intros x _ Hx%String.eqb_eq. apply String.eqb_neq. congruence.
      + intros _. apply String.eqb_neq. unfold values. cbn. congruence.
      + apply String.eqb_neq. unfold values. cbn. congruence. }
  destruct Hwrite as (Hw1 & Hw2 & Hw3). unfold returns, mbind, eff_bind, gets. cbn [fst snd].
  fold (package_facts_of id rows). destruct (package_facts_of id rows) as [e|] eqn:Ee.
  - destruct (shouldReplaceContributorFacts _ _) eqn:Er; cbn [negb].
    + eexists. split; [reflexivity|]. split; [done|]. split; [done|]. apply Hw3. by intros ? [= <-].
    + exists rows. split; [done|]. split; [done|]. split; [|done]. exists e. split; [done|].
      destruct (as_good_total (package_quality e) (package_quality values)) as [|Hc]; [done|].
      unfold as_good in Hc. congruence.
  - eexists. split; [reflexivity|]. split; [done|]. split; [done|]. by apply Hw3.
Qed.
End keeps.

Section ingest.
Context `{Env}.

(** What every ingestion keeps: the identifier of a package, that packages have one
    row of facts, and how good its facts are. *)
Definition kept_package (k : string * string) (id : string) : nat -> check_db -> Prop :=
  fun _ db => has_package k id (catalog_tables db).
Definition kept_facts (id : string) (q : ContributorFactQuality) : nat -> check_db -> Prop :=
  fun _ db => facts_unique (package_facts db) /\ good_facts id q (package_facts db).
Definition kept_unique : nat -> check_db -> Prop := fun _ db => facts_unique (package_facts db).

(** An invariant of the package and its facts only. *)
Definition about_packages (I : nat -> check_db -> Prop) : Prop :=
  exists P : catalog_db * list package_facts_row -> Prop, I = fun _ db => P (catalog_tables db, package_facts db).

Lemma kept_package_about k id : about_packages (kept_package k id).
Proof. by exists (fun x => has_package k id x.1). Qed.
Lemma kept_facts_about id q : about_packages (kept_facts id q).
Proof. by exists (fun x => facts_unique x.2 /\ good_facts id q x.2). Qed.
Lemma kept_unique_about : about_packages kept_unique.
Proof. by exists (fun x => facts_unique x.2). Qed.

Lemma about_monotone I : about_packages I -> monotone I.
Proof. intros [P ->] n m s _ Hp. exact Hp. Qed.

Lemma releases_keep I b : about_packages I -> keeps I (upsertContributorReleaseFacts b).
Proof.
  intros [P ->] n db Hp. unfold upsertContributorReleaseFacts.
  destruct (upsert_releases_run b no_history 0 (rb_upsertedVersions b) n db) as (n' & cache & Hn & Hr).
  rewrite Hr. by split.
Qed.

Lemma catalog_keeps_package {A} k id (e : CM A) :
  keeps (fun _ c => has_package k id c) e -> keeps (kept_package k id) (on_catalog e).
Proof. intros He. by apply (keeps_zoom (fun _ c => has_package k id c) catalog_tables set_catalog). Qed.

Lemma catalog_keeps_facts {A} (P : list package_facts_row -> Prop) (e : CM A) :
  ticks e -> keeps (fun _ db => P (package_facts db)) (on_catalog e).
Proof. intros He. by apply (keeps_zoom_other P package_facts). Qed.

(** What the catalogue's operations keep, the steps of the transaction keep. *)
Section steps.
Context (I : nat -> check_db -> Prop) (HI : about_packages I).
Hypothesis Hcat : forall A (e : CM A), (forall k id, keeps (fun _ c => has_package k id c) e) -> ticks e -> keeps I (on_catalog e).

Lemma identity_step eco name t : keeps I (on_catalog (upsertPackageIdentity eco name t)).
Proof using Hcat.
  apply Hcat; [intros k id; apply upsertPackageIdentity_keeps|unfold upsertPackageIdentity, insert_or_nothing; ticks_walk].
Qed.

Lemma version_step p v t t' : keeps I (on_catalog (upsertPackageVersion p v t t')).
Proof using Hcat. apply Hcat; [intros k id; apply upsertPackageVersion_keeps|unfold upsertPackageVersion; ticks_walk]. Qed.

Lemma metadata_step p v t t' : keeps I (on_catalog (updatePackageMetadata p v t t')).
Proof using Hcat. apply Hcat; [intros k id; apply updatePackageMetadata_keeps|unfold updatePackageMetadata; ticks_walk]. Qed.

Lemma versions_step p t l : keeps I (mapM_ (upsert_manifest_version p t) l).
Proof using Hcat.
  apply keeps_mapM. intros x. unfold upsert_manifest_version. apply keeps_bind; [apply version_step|]. intros id. apply keeps_ret.
Qed.

Lemma latest_step m p upserted : keeps I (upsert_latest m p upserted).
Proof using Hcat.
  unfold upsert_latest. repeat case_match; try apply keeps_ret.
  apply keeps_bind; [apply version_step|]. intros id. apply metadata_step.
Qed.

Lemma ingestTx_keeps m :
  (forall id fp hc oldest t, keeps I (on_package_facts (upsertContributorPackageFacts id fp hc oldest t))) -> keeps I (ingestTx m).
Proof using All.
  intros Hfacts. unfold ingestTx. apply keeps_bind; [apply identity_step|]. intros packageId.
  apply keeps_bind; [apply versions_step|]. intros upserted. apply keeps_bind; [apply metadata_step|]. intros _.
  apply keeps_bind; [apply Hfacts|]. intros _. apply keeps_bind; [by apply releases_keep|]. intros _. apply latest_step.
Qed.
End steps.

Lemma facts_step_keeps (P : list package_facts_row -> Prop) id fp hc oldest t :
  (forall rows, P rows -> facts_unique rows) ->
  (forall rows rows', P rows -> facts_unique rows' -> (forall k q, good_facts k q rows -> good_facts k q rows') -> P rows') ->
  keeps (fun _ db => P (package_facts db)) (on_package_facts (upsertContributorPackageFacts id fp hc oldest t)).
Proof.
  intros Hu Hstep. apply (keeps_zoom (fun _ rows => P rows) package_facts set_package_facts); [done|].
  intros n rows Hp. destruct (upsert_package_facts_run id fp hc oldest t n rows (Hu _ Hp)) as (rows' & Hr & Hu' & _ & Hk).
  rewrite Hr. split; [done|]. by eapply Hstep.
Qed.

Lemma ingestTx_keeps_package k id m : keeps (kept_package k id) (ingestTx m).
Proof.
  apply ingestTx_keeps; [apply kept_package_about|intros A e He _; by apply catalog_keeps_package|].
  intros. apply (keeps_zoom_other (has_package k id) catalog_tables); [done|]. unfold upsertContributorPackageFacts. ticks_walk.
Qed.

Lemma ingestTx_keeps_facts id q m : keeps (kept_facts id q) (ingestTx m).
Proof.
  apply ingestTx_keeps; [apply kept_facts_about|intros A e _ He|intros].
  - by apply (catalog_keeps_facts (fun rows => facts_unique rows /\ good_facts id q rows)).
  - apply (facts_step_keeps (fun rows => facts_unique rows /\ good_facts id q rows)); naive_solver.
Qed.

Lemma ingestTx_keeps_unique m : keeps kept_unique (ingestTx m).
Proof.
  apply ingestTx_keeps; [apply kept_unique_about|intros A e _ He|intros].
  - by apply (catalog_keeps_facts facts_unique).
  - apply (facts_step_keeps facts_unique); naive_solver.
Qed.
End ingest.

(** ** The two ways an ingestion ends *)

Section outcome.
Context `{Env}.

(** The quality an event claims. *)
Definition event_quality (event : ContributorManifestEvent) (observedAt : timestamp) : ContributorFactQuality :=
  {| q_historyComplete := Some (me_historyComplete event);
     q_oldestIncludedPublishedAt := parseNullableDate (me_oldestIncludedPublishedAt event);
     q_observedAt := Some observedAt |}.

(** A package has facts of some quality. *)
Definition known (k : string * string) (q : ContributorFactQuality) (db : check_db) : Prop :=
  exists id, has_package k id (catalog_tables db) /\ good_facts id q (package_facts db).

Lemma upsertPackageIdentity_has eco name t n db id n' db' :
  canonicalizeEcosystem eco = eco -> canonicalizePackageName eco name = name ->
  returns (upsertPackageIdentity eco name t) (n, db) id (n', db') -> has_package (eco, name) id db'.
Proof.
  intros He Hn Hr. unfold upsertPackageIdentity in Hr. rewrite He, Hn in Hr. set (k := (eco, name)) in *. apply returns_bind in Hr as (ins & [n1 db1] & Hi & Hr).
  unfold returns in Hi. rewrite insert_run in Hi. destruct (existsb _ _) eqn:E; injection Hi as <- <- <-.
  - run_inv. destruct (head _) as [row|] eqn:Eh; run_inv. exists row. apply head_Some_elem_of, elem_of_filter_b in Eh. naive_solver.
  - run_inv. eexists. split; [cbn; apply elem_of_app; right; apply list_elem_of_here|]. split; [|done].
    unfold package_is. cbn. by rewrite !String.eqb_refl.
Qed.

Lemma catalog_keeps_both {A} k id (P : list package_facts_row -> Prop) (e : CM A) :
  (forall k id, keeps (fun _ c => has_package k id c) e) -> ticks e ->
  keeps (fun n db => kept_package k id n db /\ P (package_facts db)) (on_catalog e).
Proof. intros Hk Ht. apply keeps_and; [by apply catalog_keeps_package|by apply catalog_keeps_facts]. Qed.

Lemma quality_claimed id fp event oldest t :
  let values := {| cf_package_id := id; cf_fingerprint := fp; cf_history_complete := me_historyComplete event;
                   cf_oldest_included_published_at :=
                     match parseNullableDate (me_oldestIncludedPublishedAt event) with Some t => Some t | None => oldest end;
                   cf_observed_at := Some t |} in
  as_good (package_quality values) (event_quality event t).
Proof.
  apply as_good_spec. unfold at_least. cbn. split; [done|]. intros _. destruct (parseNullableDate _); cbn; [lia|].
  by destruct oldest.
Qed.

Lemma ingestTx_known m s s' :
  returns (ingestTx m) s tt s' -> facts_unique (package_facts s.2) ->
  canonicalizeEcosystem (mf_ecosystem m) = mf_ecosystem m ->
  canonicalizePackageName (mf_ecosystem m) (mf_packageName m) = mf_packageName m ->
  known (mf_ecosystem m, mf_packageName m) (event_quality (mf_event m) (mf_observedAt m)) s'.2.
Proof.
  intros Hr Hu He Hn. unfold ingestTx in Hr. destruct s as [n db].
  apply returns_bind in Hr as (id & [n1 db1] & Hid & Hr).
  apply returns_zoom in Hid as ([n1' c1] & Hid & [= -> ->]). apply (upsertPackageIdentity_has _ _ _ _ _ _ _ _ He Hn) in Hid.
  set (k := (mf_ecosystem m, mf_packageName m)) in *. cbn [fst snd] in *.
  set (I1 := fun n db => kept_package k id n db /\ facts_unique (package_facts db)).
  apply returns_bind in Hr as (us & s2 & Hs & Hr). apply (returns_keeps I1) in Hs as [_ H2]; cbn [fst snd];
    [|apply versions_step; intros; by apply (catalog_keeps_both k id facts_unique)|by split].
  apply returns_bind in Hr as ([] & s3 & Hs & Hr). apply (returns_keeps I1) in Hs as [_ [H3 Hu3]];
    [|apply metadata_step; intros; by apply (catalog_keeps_both k id facts_unique)|done]. clear H2.
  apply returns_bind in Hr as ([] & s4 & Hs & Hr). apply returns_zoom in Hs as ([n4 rows] & Hs & ->). cbn [fst snd] in Hs.
  destruct (upsert_package_facts_run id (fingerprint_of (mf_event m)) (me_historyComplete (mf_event m))
    (match parseNullableDate (me_oldestIncludedPublishedAt (mf_event m)) with
     | Some t => Some t | None => uv_publishedAt <$> head us end) (mf_observedAt m) s3.1 _ Hu3) as (rows' & Hrun & Hu4 & (r & Hr4 & Hg4) & _).
  unfold returns in Hs, Hrun. rewrite Hs in Hrun. injection Hrun as -> ->.
  set (q := event_quality (mf_event m) (mf_observedAt m)).
  assert (Hq : good_facts id q rows'). { exists r. split; [done|]. eapply as_good_trans; [exact Hg4|]. apply quality_claimed. }
  set (I2 := fun n db => kept_package k id n db /\ good_facts id q (package_facts db)).
  assert (HI2 : about_packages I2) by by exists (fun x => has_package k id x.1 /\ good_facts id q x.2).
  apply returns_bind in Hr as ([] & s5 & Hs5 & Hr). apply (returns_keeps I2) in Hs5 as [_ H5]; [|by apply releases_keep|by split].
  apply (returns_keeps I2) in Hr as [_ [H6 Hg6]]; [|apply latest_step; intros; by apply (catalog_keeps_both k id (good_facts id q))|done].
  by exists id.
Qed.

(** ** The unchanged manifest *)

Lemma update_facts_keeps (p : package_facts_row -> bool) (f : package_facts_row -> package_facts_row) rows :
  (forall r, cf_package_id (f r) = cf_package_id r) -> (forall r, as_good (package_quality (f r)) (package_quality r)) ->
  (facts_unique rows -> facts_unique (update_where p f rows)) /\
  (forall id r, package_facts_of id rows = Some r ->
     package_facts_of id (update_where p f rows) = Some (if p r then f r else r)) /\
  (forall id q, good_facts id q rows -> good_facts id q (update_where p f rows)).
Proof.
  intros Hid Hf.
  assert (Hfilter : forall id, List.filter (of_package id) (update_where p f rows) = update_where p f (List.filter (of_package id) rows)).
  { intros id. apply filter_update_where. intros r. unfold of_package. by rewrite Hid. }
  assert (Hhead : forall id r, package_facts_of id rows = Some r ->
     package_facts_of id (update_where p f rows) = Some (if p r then f r else r)).
  { intros id r Hr. unfold package_facts_of in *. rewrite Hfilter. destruct (List.filter _ rows); [done|]. by injection Hr as ->. }
  split; [|split; [exact Hhead|]].
  - intros Hu id. rewrite Hfilter. unfold update_where. rewrite length_map. apply Hu.
  - intros id q (r & Hr & Hq). exists (if p r then f r else r). split; [by apply Hhead|].
    destruct (p r); [|done]. eapply as_good_trans; [apply Hf|done].
Qed.

Lemma seen_at_good t r : as_good (package_quality (seen_at t r)) (package_quality r).
Proof.
  apply as_good_spec. unfold at_least. cbn. split; [done|]. intros _. destruct (cf_oldest_included_published_at r), (cf_observed_at r); cbn; lia.
Qed.

(** Facts the event does not extend are at least as good as it, once seen. *)
Lemma unprocessed_good event t r :
  shouldProcessMatchingContributorFingerprint (me_historyComplete event)
    (parseNullableDate (me_oldestIncludedPublishedAt event)) r = false ->
  as_good (package_quality (if from_option (fun s => s <? t) true (cf_observed_at r) then seen_at t r else r)) (event_quality event t).
Proof.
  unfold shouldProcessMatchingContributorFingerprint. intros Hp.
  assert (Hc : is_true (Some (cf_history_complete r)) = cf_history_complete r /\
    is_true (Some (me_historyComplete event)) = me_historyComplete event).
  { by destruct (cf_history_complete r), (me_historyComplete event). }
  destruct Hc as [Hc1 Hc2]. apply as_good_spec. unfold at_least.
  replace (q_historyComplete (package_quality (if from_option (fun s => s <? t) true (cf_observed_at r) then seen_at t r else r)))
    with (Some (cf_history_complete r)) by (by destruct (from_option _ _ _)).
  replace (q_oldestIncludedPublishedAt (package_quality (if from_option (fun s => s <? t) true (cf_observed_at r) then seen_at t r else r)))
    with (cf_oldest_included_published_at r) by (by destruct (from_option _ _ _)).
  cbn [event_quality q_historyComplete q_oldestIncludedPublishedAt q_observedAt]. rewrite Hc1, Hc2.
  destruct (negb (cf_history_complete r) && me_historyComplete event) eqn:E; [done|].
  split; [intros Hm; rewrite Hm in E; by destruct (cf_history_complete r)|]. intros _. split.
  - destruct (parseNullableDate _), (cf_oldest_included_published_at r); try done. by apply Z.ltb_ge.
  - intros _. destruct (cf_observed_at r) as [s|] eqn:Es; cbn; [|rewrite Es; cbn; lia].
    destruct (Z.ltb_spec s t); cbn; rewrite Es; cbn; lia.
Qed.

Lemma touch_keeps I eco name fp hc oldest t :
  (forall p (f : package_row -> package_row), (forall r, pk_id (f r) = pk_id r /\ pk_ecosystem (f r) = pk_ecosystem r /\ pk_package (f r) = pk_package r) ->
     keeps I (on_catalog (modify (set_packages (update_where p f))))) ->
  (forall id, keeps I (on_package_facts (modify (update_where (of_package id) (seen_at t))))) ->
  keeps I (touchUnchangedContributorManifest eco name fp hc oldest t).
Proof.
  intros Hp Hf. unfold touchUnchangedContributorManifest. destruct (present fp); [|apply keeps_ret].
  apply keeps_bind; [apply keeps_gets|]. intros [[p c]|]; [|apply keeps_ret].
  destruct (shouldProcessMatchingContributorFingerprint _ _ _); [apply keeps_ret|].
  apply keeps_bind; [|intros _; apply keeps_bind; [|intros _; apply keeps_ret]].
  - destruct (from_option _ _ _); [|apply keeps_ret]. by apply Hp.
  - destruct (from_option _ _ _); [|apply keeps_ret]. apply Hf.
Qed.

Lemma touch_keeps_package k id eco name fp hc oldest t :
  keeps (kept_package k id) (touchUnchangedContributorManifest eco name fp hc oldest t).
Proof.
  apply touch_keeps; intros; [apply catalog_keeps_package; by apply update_packages_keeps|].
  apply (keeps_zoom_other (has_package k id) catalog_tables); [done|]. ticks_walk.
Qed.

Lemma touch_keeps_facts (P : list package_facts_row -> Prop) eco name fp hc oldest t :
  (forall rows id, P rows -> P (update_where (of_package id) (seen_at t) rows)) ->
  keeps (fun _ db => P (package_facts db)) (touchUnchangedContributorManifest eco name fp hc oldest t).
Proof.
  intros HP. apply touch_keeps; intros; [apply catalog_keeps_facts; ticks_walk|].
  apply (keeps_zoom (fun _ rows => P rows) package_facts set_package_facts); [done|]. apply keeps_modify. auto.
Qed.

Lemma touched_facts id t rows :
  (facts_unique rows -> facts_unique (update_where (of_package id) (seen_at t) rows)) /\
  (forall k r, package_facts_of k rows = Some r ->
     package_facts_of k (update_where (of_package id) (seen_at t) rows) = Some (if of_package id r then seen_at t r else r)) /\
  (forall k q, good_facts k q rows -> good_facts k q (update_where (of_package id) (seen_at t) rows)).
Proof. apply update_facts_keeps; [done|apply seen_at_good]. Qed.

(** An event reported as unchanged is known. *)
Lemma touch_known eco name fp event t s s' :
  returns (touchUnchangedContributorManifest eco name fp (me_historyComplete event)
             (parseNullableDate (me_oldestIncludedPublishedAt event)) t) s true s' ->
  facts_unique (package_facts s.2) -> known (eco, name) (event_quality event t) s'.2.
Proof.
  intros Hr Hu. unfold touchUnchangedContributorManifest in Hr. destruct (present fp) as [f|]; [|run_inv].
  apply returns_bind in Hr as (existing & s0 & Hg & Hr). apply returns_gets in Hg as [-> ->].
  destruct (head _) as [[p c]|] eqn:Eh; [|run_inv]. apply head_Some_elem_of, elem_of_filter_b in Eh as [Hin Hk].
  apply inner_join_elem_of in Hin as (Hp & Hc & Hj). cbn [fst snd] in *. apply andb_prop in Hk as [Hk _].
  destruct (shouldProcessMatchingContributorFingerprint _ _ _) eqn:Es; [run_inv|].
  assert (Hc' : package_facts_of (pk_id p) (package_facts s.2) = Some c).
  { unfold package_facts_of. specialize (Hu (pk_id p)).
    assert (Hin : c ∈ List.filter (of_package (pk_id p)) (package_facts s.2)) by (by apply elem_of_filter_b).
    destruct (List.filter _ _) as [|x [|y l]]; [by apply not_elem_of_nil in Hin|by apply list_elem_of_singleton in Hin; subst|cbn in Hu; lia]. }
  apply unprocessed_good with (t := t) in Es. set (I := kept_package (eco, name) (pk_id p)).
  assert (HI : I s.1 s.2) by (by exists p).
  apply returns_bind in Hr as ([] & s1 & Hr1 & Hr). apply returns_bind in Hr as ([] & s2 & Hr2 & Hr).
  assert (Hs1 : I s1.1 s1.2 /\ package_facts s1.2 = package_facts s.2).
  { revert Hr1. destruct (from_option (fun t0 => t0 <? t) true (pk_last_metadata_seen_at p)); intros Hr1; [|by apply returns_ret in Hr1 as [_ ->]].
    split; [eapply (returns_keeps I); [|exact Hr1|exact HI]; apply catalog_keeps_package; by apply update_packages_keeps|].
    apply returns_zoom in Hr1 as (c1 & _ & ->). done. }
  apply returns_ret in Hr as [_ ->]. exists (pk_id p). destruct Hs1 as [Hs1 Hf1]. revert Hr2. rewrite <- Hf1 in Hc'.
  destruct (from_option (fun t0 => t0 <? t) true (cf_observed_at c)); intros Hr2.
  - apply returns_zoom in Hr2 as ([n2 rows] & Hm & ->). apply returns_modify in Hm as [_ Hm]. injection Hm as -> ->. cbn.
    split; [exact Hs1|]. exists (seen_at t c). split; [|exact Es].
    rewrite (proj1 (proj2 (touched_facts (pk_id p) t (package_facts s1.2))) (pk_id p) c Hc').
    unfold of_package. by rewrite Hj.
  - apply returns_ret in Hr2 as [_ ->]. split; [exact Hs1|]. by exists c.
Qed.

(** ** Whole ingestions *)

(** An event the ingestion takes up, and when it was observed. *)
Definition accepted (event : ContributorManifestEvent) (config : ContributorConnector) (observedAt : timestamp) : bool :=
  contributor_enabled config && existsb (String.eqb (canonicalizeEcosystem (me_ecosystem event))) SUPPORTED_ECOSYSTEMS
  && bool_decide (parseRequiredDate (me_extractedAt event) = Some observedAt)
  && existsb (fun v => bool_decide (is_Some (parseRequiredDate (mv_publishedAt v)))) (me_versions event).

Definition event_key (event : ContributorManifestEvent) : string * string :=
  let ecosystem := canonicalizeEcosystem (me_ecosystem event) in
  (ecosystem, canonicalizePackageName ecosystem (me_package event)).

Lemma ingest_keeps I event config :
  monotone I ->
  (forall eco name fp hc oldest t, keeps I (touchUnchangedContributorManifest eco name fp hc oldest t)) ->
  (forall m, keeps I (ingestTx m)) -> keeps I (ingestContributorMetadata event config).
Proof.
  intros Hm Ht Hi. unfold ingestContributorMetadata. destruct (negb _); [apply keeps_ret|].
  destruct (negb _); [apply keeps_ret|]. destruct (parseRequiredDate _); [|apply keeps_ret].
  destruct (normalizeManifestVersions _) eqn:E; [apply keeps_ret|]. rewrite <- E.
  apply keeps_bind; [apply Ht|]. intros [|]; [apply keeps_ret|]. by apply keeps_rolled_back.
Qed.

Lemma ingest_keeps_facts event config k id q :
  keeps (fun n db => kept_package k id n db /\ kept_facts id q n db) (ingestContributorMetadata event config).
Proof.
  apply keeps_and; apply ingest_keeps; intros.
  - by apply about_monotone, kept_package_about.
  - apply touch_keeps_package.
  - apply ingestTx_keeps_package.
  - by apply about_monotone, kept_facts_about.
  - apply (touch_keeps_facts (fun rows => facts_unique rows /\ good_facts id q rows)).
    intros rows pid [Hu Hg]. split; by apply touched_facts.
  - apply ingestTx_keeps_facts.
Qed.

Lemma ingest_keeps_unique event config : keeps kept_unique (ingestContributorMetadata event config).
Proof.
  apply ingest_keeps; intros.
  - by apply about_monotone, kept_unique_about.
  - apply (touch_keeps_facts facts_unique). intros rows pid Hu. by apply touched_facts.
  - apply ingestTx_keeps_unique.
Qed.

Lemma ingest_known event config observedAt s s' :
  returns (ingestContributorMetadata event config) s tt s' -> accepted event config observedAt = true ->
  facts_unique (package_facts s.2) -> known (event_key event) (event_quality event observedAt) s'.2.
Proof.
  intros Hr Ha Hu. unfold accepted in Ha. apply andb_prop in Ha as [[[Hen Heco]%andb_prop Ht]%andb_prop Hv].
  apply bool_decide_eq_true in Ht. unfold ingestContributorMetadata in Hr. rewrite Hen, Heco, Ht in Hr. cbn [negb] in Hr.
  destruct (normalizeManifestVersions (me_versions event)) as [|v vs] eqn:En.
  { exfalso. apply existsb_elem_of in Hv as (v & Hv & [t Hd]%bool_decide_eq_true).
    assert (Hin : (v, t) ∈ normalizeManifestVersions (me_versions event)).
    { unfold normalizeManifestVersions. apply js_sort_elem_of, list_elem_of_omap. exists v. by rewrite Hd. }
    rewrite En in Hin. by apply not_elem_of_nil in Hin. }
  apply returns_bind in Hr as ([|] & s1 & Hr1 & Hr).
  - apply returns_ret in Hr as [_ ->]. by apply (touch_known _ _ (fingerprint_of event)) in Hr1.
  - apply (proj1 (returns_transaction _ _ _ _)) in Hr. apply (returns_keeps kept_unique) in Hr1 as [_ Hu1]; [| |exact Hu].
    + apply (ingestTx_known _ _ _ Hr Hu1); cbn; [apply canonicalizeEcosystem_idem|apply canonicalizePackageName_idem].
    + apply (touch_keeps_facts facts_unique). intros rows pid Hu'. by apply touched_facts.
Qed.

(** A sequence of ingestions, with the events of those that succeeded; one that
    fails may have happened anywhere. *)
Inductive ingestions : list (ContributorManifestEvent * ContributorConnector) -> nat * check_db -> nat * check_db -> Prop :=
| ingestions_none s : ingestions [] s s
| ingestions_succeeded event config es s s1 s' :
    returns (ingestContributorMetadata event config) s tt s1 -> ingestions es s1 s' ->
    ingestions ((event, config) :: es) s s'
| ingestions_failed event config m es s s1 s' :
    ingestContributorMetadata event config s = (Throw m, s1) -> ingestions es s1 s' -> ingestions es s s'.

Lemma ingestions_keep I es s s' :
  (forall event config, keeps I (ingestContributorMetadata event config)) -> ingestions es s s' -> I s.1 s.2 -> I s'.1 s'.2.
Proof.
  intros HI. induction 1 as [s|event config es s s1 s' Hr _ IH|event config m es s s1 s' Hr _ IH]; intros Hs; [done| |];
    apply IH; destruct s as [n db]; specialize (HI event config n db Hs); unfold returns in Hr; rewrite Hr in HI; destruct s1; apply HI.
Qed.
End outcome.

Section spec.
Context `{Env}.

(** C29: the facts of a release say where it stands in the history: the loop over
    the releases of a manifest always succeeds; a release whose stored facts are of
    better quality keeps them; every other one ends with facts that are observed
    now and whose signals are those of its place in the order of publication
    (earlier releases of its publisher, maintainers gained and lost as sets,
    releases in the windows before it), whatever was skipped before it; and no
    other release is touched. *)
Theorem release_facts_exact b n db :
  NoDup (map uv_packageVersionId (rb_upsertedVersions b)) -> Forall plain_release (rb_upsertedVersions b) ->
  exists n' db', returns (upsertContributorReleaseFacts b) (n, db) tt (n', db') /\
    (forall i v, rb_upsertedVersions b !! i = Some v ->
       let old := facts_of (uv_packageVersionId v) (release_facts db) in
       let new := facts_of (uv_packageVersionId v) (release_facts db') in
       if kept b old then new = old
       else exists row, new = Some row /\ rf_observed_at row = Some (rb_observedAt b) /\
              rf_published_at row = Some (uv_publishedAt v) /\
              signals_of_row (uv_version v) (uv_publishedAt v) row =
              reference_signals (rb_upsertedVersions b) (me_historyComplete (rb_event b)) (old ≫= rf_has_trusted_publisher) i v) /\
    (forall id, id ∉ map uv_packageVersionId (rb_upsertedVersions b) ->
       facts_of id (release_facts db') = facts_of id (release_facts db)).
Proof.
  intros Hnd Hpl. unfold upsertContributorReleaseFacts.
  destruct (upsert_releases_run b no_history 0 (rb_upsertedVersions b) n db) as (n' & cache & _ & Hr).
  exists n', (set_facts_and_cache (with_releases b no_history 0 (rb_upsertedVersions b) (release_facts db)) cache db).
  split; [exact Hr|]. split.
  - intros i v Hv. set (old := facts_of _ (release_facts db)). cbn [release_facts set_facts_and_cache set_cache set_release_facts].
    rewrite (with_releases_at b no_history 0 _ _ i v Hnd Hv). fold old. unfold release_after.
    destruct (kept b old); [done|]. eexists. split; [done|]. split; [done|]. split; [done|].
    change (foldl next_history no_history (take i (rb_upsertedVersions b))) with (history (rb_upsertedVersions b) i).
    assert (Hs := stored_signals_reference _ (me_historyComplete (rb_event b)) i v Hpl Hv).
    unfold signals_of_row, releaseValues. cbn - [storedSignals Nat.eqb]. rewrite Hs. done.
  - intros id Hid. by apply with_releases_other.
Qed.

(** C30: the stored facts of a package only get better, in whatever order manifests
    arrive: after any sequence of ingestions, failed ones included, every package
    of an accepted event has one row of facts, and its quality (a complete history,
    how far back it reaches, when it was observed) is at least that of the event,
    and of the facts it had at the start. *)
Theorem package_facts_best es s s' :
  facts_unique (package_facts s.2) -> ingestions es s s' ->
  facts_unique (package_facts s'.2) /\
  (forall event config observedAt, (event, config) ∈ es -> accepted event config observedAt = true ->
     exists id r, has_package (event_key event) id (catalog_tables s'.2) /\
       package_facts_of id (package_facts s'.2) = Some r /\ at_least (package_quality r) (event_quality event observedAt)) /\
  (forall k id r, has_package k id (catalog_tables s.2) -> package_facts_of id (package_facts s.2) = Some r ->
     exists r', has_package k id (catalog_tables s'.2) /\
       package_facts_of id (package_facts s'.2) = Some r' /\ at_least (package_quality r') (package_quality r)).
Proof.
  intros Hu Hi. split; [by eapply (ingestions_keep kept_unique); [apply ingest_keeps_unique|..]|]. split.
  - induction Hi as [s|event config es s s1 s' Hr Hi IH|event config m es s s1 s' Hr Hi IH]; intros event' config' t Hin Ha.
    + by apply not_elem_of_nil in Hin.
    + assert (Hu1 : kept_unique s1.1 s1.2) by (by eapply returns_keeps; [apply ingest_keeps_unique|exact Hr|]).
      apply elem_of_cons in Hin as [[= -> ->]|Hin]; [|by eapply (IH Hu1)].
      destruct (ingest_known _ _ _ _ _ Hr Ha Hu) as (id & Hp & Hg).
      destruct (ingestions_keep (fun n db => kept_package (event_key event) id n db /\ kept_facts id (event_quality event t) n db) es s1 s')
        as [Hp' [_ (r & Hr' & Hq)]]; [intros; apply ingest_keeps_facts|exact Hi|by split|].
      exists id, r. split; [exact Hp'|]. split; [done|]. by apply as_good_spec.
    + assert (Hu1 : kept_unique s1.1 s1.2).
      { destruct s as [n db]. assert (HK := ingest_keeps_unique event config n db Hu). rewrite Hr in HK. destruct s1; apply HK. }
      by eapply (IH Hu1).
  - intros k id r Hp Hr.
    destruct (ingestions_keep (fun n db => kept_package k id n db /\ kept_facts id (package_quality r) n db) es s s')
      as [Hp' [_ (r' & Hr' & Hq)]]; [intros; apply ingest_keeps_facts|exact Hi| |].
    + split; [exact Hp|]. split; [done|]. exists r. split; [done|apply as_good_refl].
    + exists r'. split; [done|]. split; [done|]. by apply as_good_spec.
Qed.

(** The facts of the event's package that come from a manifest with its fingerprint. *)
Definition same_manifest (event : ContributorManifestEvent) (f : string) (db : check_db) (p : package_row)
    (c : package_facts_row) : Prop :=
  p ∈ packages (catalog_tables db) /\ c ∈ package_facts db /\ cf_package_id c = pk_id p /\
  package_is (event_key event) p = true /\ cf_fingerprint c = Some f.

(** The event's history is not newly complete and reaches no further back. *)
Definition not_extended (event : ContributorManifestEvent) (c : package_facts_row) : Prop :=
  (me_historyComplete event = true -> cf_history_complete c = true) /\
  match parseNullableDate (me_oldestIncludedPublishedAt event), cf_oldest_included_published_at c with
  | Some i, Some e => e <= i
  | Some _, None => False
  | None, _ => True
  end.

Lemma not_extended_skipped event c :
  not_extended event c ->
  shouldProcessMatchingContributorFingerprint (me_historyComplete event)
    (parseNullableDate (me_oldestIncludedPublishedAt event)) c = false.
Proof.
  intros [He1 He2]. unfold shouldProcessMatchingContributorFingerprint.
  destruct (cf_history_complete c), (me_historyComplete event); cbn; try (by discriminate (He1 eq_refl));
    destruct (parseNullableDate _), (cf_oldest_included_published_at c); try done; by apply Z.ltb_ge.
Qed.

(** A slice of a known manifest is dropped, whatever releases it has: when the
    package's facts carry the event's fingerprint and reach back as far, nothing is
    stored of the releases, so a version requested for the first time whose slice
    starts later than the one of an older version never gets facts. *)
Theorem known_manifest_dropped event config f n db :
  present (fingerprint_of event) = Some f -> (exists p c, same_manifest event f db p c) ->
  (forall p c, same_manifest event f db p c -> not_extended event c) ->
  exists db', returns (ingestContributorMetadata event config) (n, db) tt (n, db') /\
    release_facts db' = release_facts db /\ connector_cache db' = connector_cache db /\
    package_versions (catalog_tables db') = package_versions (catalog_tables db).
Proof.
  intros Hf (p0 & c0 & H0) Hext. unfold ingestContributorMetadata.
  destruct (negb _); [by exists db|]. destruct (negb _); [by exists db|]. destruct (parseRequiredDate _) as [t|]; [|by exists db].
  destruct (normalizeManifestVersions _) as [|x xs]; [by exists db|].
  set (rows := List.filter (fun r => package_is (event_key event) r.1 && opt_eq (cf_fingerprint r.2) f)
    (inner_join (fun p c => String.eqb (cf_package_id c) (pk_id p)) (packages (catalog_tables db)) (package_facts db))).
  assert (Hrows : forall p c, (p, c) ∈ rows <-> same_manifest event f db p c).
  { intros p c. unfold rows, same_manifest. rewrite elem_of_filter_b, inner_join_elem_of, String.eqb_eq, andb_true_iff, opt_eq_spec. naive_solver. }
  destruct (head rows) as [[p c]|] eqn:Eh.
  2:{ exfalso. apply head_None in Eh. apply Hrows in H0. rewrite Eh in H0. by apply not_elem_of_nil in H0. }
  assert (Hpc : (p, c) ∈ rows) by (by apply head_Some_elem_of). apply Hrows in Hpc. specialize (not_extended_skipped _ _ (Hext p c Hpc)) as Hskip.
  assert (Htouch : exists db', returns (touchUnchangedContributorManifest (event_key event).1 (event_key event).2 (fingerprint_of event)
    (me_historyComplete event) (parseNullableDate (me_oldestIncludedPublishedAt event)) t) (n, db) true (n, db') /\
    release_facts db' = release_facts db /\ connector_cache db' = connector_cache db /\
    package_versions (catalog_tables db') = package_versions (catalog_tables db)).
  { unfold touchUnchangedContributorManifest, returns, mbind, eff_bind, gets. rewrite Hf. cbn [fst snd].
    match goal with |- context [head ?l] => change (head l) with (head rows) end. rewrite Eh, Hskip.
    destruct (from_option (fun t0 => t0 <? t) true (pk_last_metadata_seen_at p)), (from_option (fun t0 => t0 <? t) true (cf_observed_at c));
      cbn; by eexists. }
  destruct Htouch as (db' & Hr & Hrest). exists db'. split; [|exact Hrest].
  apply returns_bind. eexists _, _. split; [exact Hr|]. by apply returns_ret.
Qed.
End spec.

(** ** Witnesses *)

Definition ingestion_example_release (id version : string) (publishedAt : timestamp) (publisher : string) : UpsertedVersion :=
  {| uv_packageVersionId := id; uv_version := version; uv_publishedAt := publishedAt; uv_publisher := Some publisher;
     uv_maintainers := ["alice"]; uv_hasInstallScripts := false; uv_hasAttestation := true; uv_rawPayloadJson := None |}.

Definition ingestion_example_version (version publishedAt : string) : ContributorManifestVersion :=
  {| mv_version := version; mv_publishedAt := publishedAt; mv_publisher := Some "alice"; mv_maintainers := ["alice"];
     mv_hasInstallScripts := false; mv_hasAttestation := true; mv_rawPayloadJson := None |}.

(** The slice a proxy sends with a check of one version. *)
Definition ingestion_example_slice (version publishedAt : string) : ContributorManifestEvent :=
  {| me_ecosystem := "npm"; me_package := "left-pad"; me_extractedAt := "2026-04-20T00:00:00Z";
     me_fingerprint := Some "F"; me_packageMetadataFingerprint := Some "F"; me_sliceFingerprint := Some version;
     me_requestedVersion := Some version; me_latestVersion := None; me_latestPublishedAt := None;
     me_historyComplete := false; me_oldestIncludedPublishedAt := Some publishedAt;
     me_versions := [ingestion_example_version version publishedAt] |}.

Definition ingestion_example_config : ContributorConnector :=
  {| contributor_enabled := true; contributor_cacheTtlSeconds := 3600; cacheTtlOverrideSeconds := None |}.

Definition ingestion_example_db : check_db :=
  {| connector_cache := []; connector_snapshots := [];
     finding_tables := {| t_findings := []; finding_versions := []; project_findings := [] |};
     catalog_tables := {| packages := []; package_versions := []; package_version_refs := [];
                          package_version_metadata := []; package_version_relationships := [] |};
     release_facts := []; package_facts := [] |}.

Definition ingestion_example_batch : release_batch :=
  {| rb_event := ingestion_example_slice "1.1.0" "2020-01-01"; rb_ecosystem := "npm"; rb_packageName := "left-pad";
     rb_packageId := "P"; rb_observedAt := 0; rb_requestedVersion := Some "1.1.0";
     rb_upsertedVersions := [ingestion_example_release "A" "1.0.0" 0 "alice"; ingestion_example_release "B" "1.1.0" 5 "alice"];
     rb_config := ingestion_example_config |}.

Lemma release_facts_exact_witness :
  exists n' db' row, @returns check_db _ (@upsertContributorReleaseFacts example_env ingestion_example_batch)
    (0%nat, ingestion_example_db) tt (n', db') /\
    facts_of "B" (release_facts db') = Some row /\ rf_publisher_seen_count_before row = Some 1.
Proof.
  destruct (@release_facts_exact example_env ingestion_example_batch 0 ingestion_example_db) as (n' & db' & Hr & Hat & _).
  - apply (bool_decide_unpack _). vm_compute. exact I.
  - repeat (apply Forall_cons_2; [split; [discriminate|apply NoDup_singleton|reflexivity]|]). apply Forall_nil_2.
  - destruct (Hat 1%nat _ eq_refl) as (row & Hrow & _ & _ & Hs). exists n', db', row. split; [exact Hr|]. split; [exact Hrow|].
    apply (f_equal publisherSeenCountBefore) in Hs. exact Hs.
Defined.

Lemma ingestion_example_unique : facts_unique (package_facts (0%nat, ingestion_example_db).2).
Proof. intros id. cbn. lia. Qed.

Lemma package_facts_best_witness :
  exists id r s', @ingestions example_env [(ingestion_example_slice "1.0.0" "2020-01-01", ingestion_example_config)]
      (0%nat, ingestion_example_db) s' /\
    has_package ("npm", "left-pad") id (catalog_tables s'.2) /\ package_facts_of id (package_facts s'.2) = Some r.
Proof.
  destruct (@ingestContributorMetadata example_env (ingestion_example_slice "1.0.0" "2020-01-01") ingestion_example_config
    (0%nat, ingestion_example_db)) as [[[]|m] s'] eqn:E; [|vm_compute in E; discriminate E].
  assert (Hi : @ingestions example_env [(ingestion_example_slice "1.0.0" "2020-01-01", ingestion_example_config)]
    (0%nat, ingestion_example_db) s').
  { eapply ingestions_succeeded; [exact E|apply ingestions_none]. }
  destruct (@package_facts_best example_env _ _ _ ingestion_example_unique Hi) as (_ & Hall & _).
  destruct (Hall _ _ 1776643200000 (list_elem_of_here _ _)) as (id & r & Hp & Hr & _); [vm_compute; reflexivity|].
  exists id, r, s'. split; [exact Hi|]. split; [exact Hp|exact Hr].
Defined.

(** The slice of 2.0.0, asked for after that of 1.0.0 was stored. *)
Definition ingestion_example_known : check_db :=
  {| connector_cache := []; connector_snapshots := [];
     finding_tables := {| t_findings := []; finding_versions := []; project_findings := [] |};
     catalog_tables := {| packages := [{| pk_id := "P"; pk_ecosystem := "npm"; pk_package := "left-pad";
                                          pk_latest_package_version_id := None; pk_last_metadata_seen_at := None |}];
                          package_versions := []; package_version_refs := [];
                          package_version_metadata := []; package_version_relationships := [] |};
     release_facts := [];
     package_facts := [{| cf_package_id := "P"; cf_fingerprint := Some "F"; cf_history_complete := false;
                          cf_oldest_included_published_at := Some 1577836800000; cf_observed_at := Some 0 |}] |}.

Lemma known_manifest_dropped_witness :
  exists db', @returns check_db _ (@ingestContributorMetadata example_env (ingestion_example_slice "2.0.0" "2024-01-01")
      ingestion_example_config) (0%nat, ingestion_example_known) tt (0%nat, db') /\ release_facts db' = [].
Proof.
  destruct (@known_manifest_dropped example_env (ingestion_example_slice "2.0.0" "2024-01-01") ingestion_example_config "F"
    0 ingestion_example_known) as (db' & Hr & Hf & _).
  - reflexivity.
  - eexists _, _. split; [apply list_elem_of_here|]. split; [apply list_elem_of_here|]. repeat split.
  - intros p c (_ & Hc & _). apply list_elem_of_singleton in Hc. subst c. split; [discriminate|]. vm_compute. discriminate.
  - exists db'. split; [exact Hr|exact Hf].
Defined.
