(* ===== verification/CheckSpec.v ===== *)
(** * What a check guarantees

    An allowed request is authorised, entitled and either names no version or
    passes the rules of its project; the records of a check explain its answer. *)

From S2P Require Import Prelude JsString JsNum JsValue Sql Effects JsDate Constants Identity Schema Tenancy Catalog ConnectorTypes Jsonb Cache Findings Snapshots Effective Decision Resolver Evaluation Violations ViolationsCorrect ViolationsSpec CheckService.
Local Open Scope string_scope.
Local Open Scope list_scope.
Local Open Scope Z_scope.

Section spec.
Context `{Env} `{SqlOrder} `{TextDriver} {C : Type} `{PackageIntelligenceConnector C}.
Context (handleEvent : C -> ConnectorEvent -> check_db -> timestamp -> fetch_outcome).
Context (hashProjectToken : string -> string) (prefetch : CheckRequest -> list C -> EM unit).

(** The token a check that begins in a state is authorised by: one with its hash, of a
    current project, for a tenant the proxy serves, not revoked and, by the first reading
    of the clock, not expired. *)
Record authorised (proxy : VerifiedProxyContext) (req : CheckRequest) (s : nat * gateway_db) (t : project_token_row) : Prop := {
  au_token : t ∈ project_tokens (tenancy_tables s.2) /\ tk_token_hash t = hashProjectToken (cq_project_token req);
  au_project : exists p, p ∈ projects (tenancy_tables s.2) /\ pj_id p = tk_project_id t /\ pj_effective_to p = VALID_TO_INFINITY;
  au_tenant : proxyAllowsTenant proxy (tk_tenant_id t) = true;
  au_revoked : tk_revoked_at t = None;
  au_expires at_ : tk_expires_at t = Some at_ -> clock s.1 < at_
}.

Lemma token_rows_head hash db t :
  head (token_rows hash db) = Some t ->
  (t ∈ project_tokens db /\ tk_token_hash t = hash) /\
  exists p, p ∈ projects db /\ pj_id p = tk_project_id t /\ pj_effective_to p = VALID_TO_INFINITY.
Proof using Type.
  intros Ht. assert (Hin : t ∈ token_rows hash db) by (destruct (token_rows hash db); [done|injection Ht as ->; apply list_elem_of_here]).
  unfold token_rows in Hin. apply list_elem_of_fmap in Hin as ([t' p] & -> & Hin). apply elem_of_filter_b in Hin as [Hin Hf].
  apply inner_join_elem_of in Hin as (Hti & Hpi & Hj%String.eqb_eq). cbn [fst snd] in *.
  apply andb_prop in Hf as [Hh%String.eqb_eq He%Z.eqb_eq]. split; [done|]. by exists p.
Qed.

Lemma loadAuthorizedProjectToken_inv proxy req s t s' :
  returns (loadAuthorizedProjectToken hashProjectToken proxy (cq_project_token req)) s (Some t) s' ->
  authorised proxy req s t /\ s'.2 = s.2 /\ (s.1 <= s'.1 <= S s.1)%nat.
Proof.
  intros Hr. unfold loadAuthorizedProjectToken in Hr. run_inv. destruct (head _) as [x|] eqn:Eh; [|run_inv].
  run_if Ep; [run_inv|]. apply negb_false_iff in Ep. apply token_rows_head in Eh as [Eh Epj].
  destruct (tk_revoked_at x) eqn:Er; [run_inv|]. destruct (tk_expires_at x) as [at_|] eqn:Ee; run_inv.
  - case_match; simplify_eq. split; [|cbn; split; [done|lia]]. split; try done. intros ? He. rewrite Ee in He. injection He as <-. by apply Z.leb_gt.
  - split; [|cbn; split; [done|lia]]. split; try done. congruence.
Qed.

(** The plan's row of a tenant. *)
Definition plan (tenantId : string) (db : gateway_db) : option entitlement_row :=
  head (List.filter (fun e => String.eqb (te_tenant_id e) tenantId) (tenant_entitlements (tenancy_tables db))).

Lemma loadCheckContext_inv proxy req s cc s' :
  returns (loadCheckContext hashProjectToken proxy req) s (Some cc) s' ->
  authorised proxy req s (cc_tokenRow cc) /\ cc_tenantId cc = tk_tenant_id (cc_tokenRow cc) /\
  cc_projectId cc = tk_project_id (cc_tokenRow cc) /\
  cc_entitledEcosystems cc = plan (cc_tenantId cc) s.2 ≫= te_allowed_ecosystems /\
  policy_tables s'.2 = policy_tables s.2 /\ check_tables s'.2 = check_tables s.2 /\ (s.1 < s'.1 <= S (S s.1))%nat.
Proof.
  intros Hr. unfold loadCheckContext in Hr. apply returns_bind in Hr as (t & s1 & Ht & Hr).
  destruct t as [t|]; [|run_inv]. apply loadAuthorizedProjectToken_inv in Ht as (Ha & Hs & Hn).
  unfold scheduleProjectTokenLastUsedUpdate, on_tenancy in Hr. run_inv.
  match goal with H : returns (zoom _ _ _) _ _ _ |- _ => apply returns_zoom in H as (? & ? & ->) end. run_inv.
  destruct s, s1. cbn in *. subst. split_and!; (done || lia).
Qed.

Lemma on_check_frame {A} (e : EM A) s a s' :
  returns (on_check e) s a s' ->
  policy_tables s'.2 = policy_tables s.2 /\ record_tables s'.2 = record_tables s.2 /\ events s'.2 = events s.2.
Proof. unfold on_check. intros (t & _ & ->)%returns_zoom. done. Qed.

Lemma resolveArtifactIdentity_identity input s artifact s' :
  returns (resolveArtifactIdentity input) s artifact s' -> identity artifact = canonicalizePackageIdentity (ai_input input).
Proof.
  unfold resolveArtifactIdentity, resolveArtifactIdentities. intros Hr. run_inv. case_match; by simplify_eq.
Qed.

Lemma recordReferences_frame req artifact s a s' :
  returns (recordReferences req artifact) s a s' -> exists t, s'.2 = set_catalog t s.2.
Proof.
  intros Hr. apply returns_bind in Hr as ([] & s1 & Hobs & Hr). apply returns_zoom in Hr as (t2 & _ & ->). exists t2.2. cbn [snd].
  destruct (present _); [apply returns_zoom in Hobs as (t1 & _ & ->)|apply returns_ret in Hobs as [_ ->]]; done.
Qed.

(** The reading and the tables with which a check that began in [s] looks up its rules:
    its artifact is resolved, the references it shows are recorded, and of the tables of
    the connectors only the catalogue has changed. *)
Record prepared (req : CheckRequest) (s : nat * gateway_db) (artifact : ArtifactIdentity) (n : nat) (tables : check_db) : Prop := {
  pr_run : exists n0 s1, (s.1 < n0 <= S (S s.1))%nat /\
    returns (on_catalog (resolveArtifactIdentity {| ai_input := request_identity req; ai_source := Some "check"; ai_parser_version := None |}))
      (n0, check_tables s.2) artifact s1 /\
    returns (recordReferences req artifact) s1 tt (n, tables);
  pr_identity : identity artifact = canonicalizePackageIdentity (request_identity req);
  pr_catalog : exists t, tables = set_catalog t (check_tables s.2)
}.

(** A check that gets past the plan: which branch it takes, and on what. *)
Inductive answered (proxy : VerifiedProxyContext) (req : CheckRequest) (connectors : list C) (cc : CheckContext)
    (artifact : ArtifactIdentity) (s : nat * gateway_db) (answer : @checked C) (s' : nat * gateway_db) : Prop :=
| answered_metadata :
    cq_version req = EmptyString ->
    returns (answerMetadataRequest handleEvent proxy cc req artifact connectors) s answer s' ->
    answered proxy req connectors cc artifact s answer s'
| answered_by_policy snapshot :
    loadEffectivePolicy (policy_tables s.2) (cc_tenantId cc) (cc_projectId cc) (clock (S s.1)) = Ok snapshot ->
    allRules snapshot <> [] ->
    returns (answerByPolicy handleEvent prefetch proxy cc req artifact connectors (clock s.1) snapshot) (S (S s.1), s.2) answer s' ->
    answered proxy req connectors cc artifact s answer s'.

Lemma handleCheck_allow proxy req connectors s oc late s' :
  returns (handleCheck handleEvent hashProjectToken prefetch proxy req connectors) s (oc, late) s' ->
  oc_decision oc = DECISION_ALLOW ->
  exists cc artifact s1,
    authorised proxy req s (cc_tokenRow cc) /\ cc_tenantId cc = tk_tenant_id (cc_tokenRow cc) /\
    cc_projectId cc = tk_project_id (cc_tokenRow cc) /\
    cc_entitledEcosystems cc = plan (cc_tenantId cc) s.2 ≫= te_allowed_ecosystems /\
    policy_tables s1.2 = policy_tables s.2 /\ prepared req s artifact s1.1 (check_tables s1.2) /\
    entitled cc (id_ecosystem (identity artifact)) = true /\
    answered proxy (normalized_request req artifact) connectors cc artifact s1 (oc, late) s'.
Proof.
  intros Hr Ha. unfold handleCheck in Hr. apply returns_bind in Hr as (cc & s1 & Hcc & Hr).
  destruct cc as [cc|]; [|run_inv; discriminate Ha].
  apply loadCheckContext_inv in Hcc as (Hau & Ht & Hp & He & Hpol & Hct & Hn).
  apply returns_bind in Hr as (artifact & s2 & Hart & Hr). destruct (on_check_frame _ _ _ _ Hart) as (Hpol2 & _).
  apply returns_zoom in Hart as (u & Hart & Hs2).
  apply returns_bind in Hr as ([] & s3 & Href & Hr). destruct (on_check_frame _ _ _ _ Href) as (Hpol3 & _).
  apply returns_zoom in Href as (v & Href & Hs3). subst s2 s3.
  cbn zeta in Hr. run_if Een; [run_inv; discriminate Ha|]. apply negb_false_iff in Een.
  exists cc, artifact, (v.1, set_check_tables v.2 (set_check_tables u.2 s1.2)). repeat (split; [first [done|congruence]|]).
  cbn [fst snd] in *. split.
  { rewrite Hct in Hart. assert (Hu : u = (u.1, u.2)) by (by destruct u). split.
    - exists s1.1, u. split; [done|]. split; [exact Hart|]. rewrite Hu at 1. by destruct v.
    - apply returns_zoom in Hart as (w & Hart & _). by apply resolveArtifactIdentity_identity in Hart.
    - apply returns_zoom in Hart as (w & _ & Hw). apply recordReferences_frame in Href as [t Htab]. cbn [fst snd] in Htab.
      exists t. cbn. rewrite Htab, Hw. done. }
  split; [done|]. run_if Ev.
  - apply answered_metadata; [|exact Hr]. apply negb_true_iff in Ev. unfold nonempty in Ev.
    apply negb_false_iff in Ev. by apply String.eqb_eq.
  - apply returns_bind in Hr as (st & s4 & Hn' & Hr). apply returns_now in Hn' as [-> ->].
    apply returns_bind in Hr as (at_ & s4 & Hn' & Hr). apply returns_now in Hn' as [-> ->]. cbn [fst snd] in Hr.
    apply returns_bind in Hr as (sn & s4 & Hg & Hr). apply returns_gets in Hg as [-> ->]. cbn [fst snd] in Hr.
    apply returns_bind in Hr as (snapshot & s4 & Hg & Hr). apply returns_of_res in Hg as [Hsn ->].
    destruct (allRules snapshot) as [|rule rules] eqn:Er.
    + unfold answerWithoutPolicy in Hr. by run_inv.
    + apply (answered_by_policy _ _ _ _ _ _ _ _ snapshot); [done|congruence|exact Hr].
Qed.

(** C2: an allowed request is authorised and entitled, and the rules allow it: when
    a check answers allow, its token is one of a current project, not revoked, not
    expired by the check's first reading of the clock, and of a tenant the proxy serves;
    the plan includes the package's ecosystem; and either the request names no version,
    or the project has rules in force at the instant the check looks them up, after
    resolving its artifact, and none that blocks matches the fields its connectors gave
    from then on, on the tables the check found but for the catalogue. *)
Theorem allowed_requests_pass proxy req connectors s oc late s' :
  returns (handleCheck handleEvent hashProjectToken prefetch proxy req connectors) s (oc, late) s' ->
  oc_decision oc = DECISION_ALLOW ->
  let id := canonicalizePackageIdentity (request_identity req) in
  exists t, authorised proxy req s t /\ oc_tenant_id oc = tk_tenant_id t /\ oc_project_id oc = tk_project_id t /\
    (forall allowed, plan (tk_tenant_id t) s.2 ≫= te_allowed_ecosystems = Some allowed -> id_ecosystem id ∈ allowed) /\
    (present (id_version id) = None \/
     exists n tables snapshot artifact collected s2,
       prepared req s artifact n tables /\
       loadEffectivePolicy (policy_tables s.2) (tk_tenant_id t) (tk_project_id t) (clock (S n)) = Ok snapshot /\
       allRules snapshot <> [] /\
       returns (collectConnectorEvaluationFields handleEvent (prefetch (normalized_request req artifact) connectors)
                  (evaluation_request (normalized_request req artifact)) connectors (tk_tenant_id t) (tk_project_id t) artifact)
         (S (S n), tables) collected s2 /\
       forall rule, rule ∈ allRules snapshot -> rule_matches (ef_fields collected) rule = true -> rule_blocks rule = false).
Proof.
  intros Hr Ha id. destruct (handleCheck_allow _ _ _ _ _ _ _ Hr Ha)
    as (cc & artifact & s1 & Hau & Ht & Hp & He & Hpol & Hprep & Hen & Hans).
  assert (Hid := pr_identity _ _ _ _ _ Hprep). fold id in Hid. clearbody id. exists (cc_tokenRow cc). split; [done|].
  assert (Hplan : forall allowed, plan (tk_tenant_id (cc_tokenRow cc)) s.2 ≫= te_allowed_ecosystems = Some allowed -> id_ecosystem id ∈ allowed).
  { intros allowed Hal. unfold entitled in Hen. rewrite He, Ht, Hal, Hid in Hen.
    apply existsb_exists in Hen as (x & Hx & Heq%String.eqb_eq). rewrite Heq. by apply list_elem_of_In. }
  destruct Hans as [Hv Hr2|snapshot Hload Hne Hr2].
  - unfold answerMetadataRequest in Hr2. apply returns_bind in Hr2 as (? & ? & _ & Hr2).
    apply returns_bind in Hr2 as (? & ? & _ & Hr2). run_inv. split; [congruence|]. split; [congruence|]. split; [done|].
    left. by destruct (id_version (identity artifact)) as [[|]|].
  - unfold answerByPolicy in Hr2. apply returns_bind in Hr2 as (collected & s2 & Hc & Hr2).
    apply returns_bind in Hr2 as (d & s3 & Hd & Hr2). apply returns_of_res in Hd as [Hd ->].
    run_inv. split; [congruence|]. split; [congruence|]. split; [done|]. right.
    apply returns_zoom in Hc as (u & Hc & _). cbn [fst snd] in Hc.
    exists s1.1, (check_tables s1.2), snapshot, artifact, collected, u. rewrite <- Hpol, <- Ht, <- Hp.
    split; [done|]. split; [done|]. split; [done|]. split; [done|].
    apply evaluatePolicyDecision_verdict in Hd. subst d. intros rule Hin Hm. apply not_true_iff_false. intros Hb.
    assert (Hblock : decision (verdict (allRules snapshot) (ef_fields collected) (cc_defaultCacheTtl cc) (cc_serveMode cc)) = DECISION_BLOCK).
    { apply verdict_blocks. by exists rule. }
    rewrite Hblock in Ha. discriminate Ha.
Qed.
End spec.

(** ** Witness *)

Definition check_example_proxy : VerifiedProxyContext :=
  {| px_proxyId := "proxy"; px_tenantId := "ten"; px_tenantScope := None; px_proxyIp := None |}.

Definition check_example_request : CheckRequest :=
  {| cq_project_token := "secret"; cq_ecosystem := "npm"; cq_package := "left-pad"; cq_version := "1.3.0";
     cq_trace_id := "t"; cq_request_id := "r"; cq_span_id := "s"; cq_client_ip := None; cq_proxy_ip := None;
     cq_requested_ref := None; cq_resolved_ref := None; cq_ref_resolution_source := None;
     cq_related_versions := None; cq_contributor_context := None |}.

Definition check_example_artifact : ArtifactIdentity :=
  buildArtifactIdentity {| ai_input := request_identity check_example_request; ai_source := None; ai_parser_version := None |}
    {| package_id := Some "P"; package_version_id := Some "V" |}.

Definition check_example_token : project_token_row :=
  {| tk_id := "token"; tk_project_id := "proj"; tk_tenant_id := "ten"; tk_name := "ci"; tk_owner_user_id := "user";
     tk_created_by_user_id := "user"; tk_token_hash := "secret"; tk_token_prefix := "secret"; tk_last_used_at := None;
     tk_expires_at := Some 900000; tk_revoked_at := None; tk_revoked_by_user_id := None |}.

(** A project of the plan "npm" with the one rule of [example_db]. *)
Definition check_example_db (enforcement : string) : gateway_db :=
  {| tenancy_tables := {| memberships := []; project_members := []; project_tokens := [check_example_token];
     projects := [{| pj_id := "proj"; pj_tenant_id := "ten"; pj_name := "app"; pj_effective_to := VALID_TO_INFINITY |}];
     tenant_entitlements := [{| te_tenant_id := "ten"; te_allowed_ecosystems := Some ["npm"]; te_serve_mode := "pull";
                                te_cache_ttl_seconds := 60 |}] |};
     policy_tables := example_db enforcement JNull None;
     check_tables :=
       {| connector_cache := []; connector_snapshots := [];
          finding_tables := {| t_findings := []; finding_versions := []; project_findings := [] |};
          catalog_tables := {| packages := []; package_versions := []; package_version_refs := [];
                               package_version_metadata := []; package_version_relationships := [] |};
          release_facts := []; package_facts := [] |};
     record_tables :=
       {| policy_evaluations := []; policy_evaluation_policies := []; policy_evaluation_rules := [];
          violations := []; violation_occurrences := []; violation_findings := []; violation_suppressions := [] |};
     events := []; published := [] |}.

(** The check of a project that has no connectors. *)
Definition check_example_run (enforcement : string) :=
  @handleCheck example_env _ example_driver _ plain_interface (fun _ _ _ _ => {| settles := Ok None; in_time := true |})
    (fun token => token) (fun _ _ => mret tt) check_example_proxy check_example_request [] (0%nat, check_example_db enforcement).

Lemma allowed_requests_pass_witness :
  exists oc late s', check_example_run "advisory" = (Ok (oc, late), s') /\ oc_decision oc = DECISION_ALLOW /\
    oc_tenant_id oc = "ten".
Proof.
  destruct (check_example_run "advisory") as [[[oc late]|m] s'] eqn:E; [|vm_compute in E; discriminate E].
  assert (Hd : oc_decision oc = DECISION_ALLOW) by (vm_compute in E; injection E as <- _ _; reflexivity).
  exists oc, late, s'. split; [reflexivity|]. split; [exact Hd|].
  destruct (@allowed_requests_pass _ _ _ _ _ _ _ _ _ _ _ _ _ _ _ E Hd) as (t & [[Ht _] _ _ _ _] & -> & _).
  apply list_elem_of_singleton in Ht as ->. reflexivity.
Defined.
