(* ===== verification/CheckRecords.v ===== *)
(** * The records of a check explain its answer

    A check answered by the rules appends one evaluation, with its decision, and
    the stored violations of that evaluation tell whether it was blocked. *)

From S2P Require Import Prelude JsString JsNum JsValue Sql Effects JsDate Constants Identity Schema Tenancy Catalog ConnectorTypes Jsonb Cache Findings Snapshots Effective Decision Resolver Evaluation Violations ViolationsCorrect ViolationsSpec CheckService Ticks CheckSpec.
Local Open Scope string_scope.
Local Open Scope list_scope.
Local Open Scope Z_scope.

Section records.
Context `{Env} `{SqlOrder} `{TextDriver} {C : Type} `{PackageIntelligenceConnector C}.
Context (handleEvent : C -> ConnectorEvent -> check_db -> timestamp -> fetch_outcome).
Context (prefetch : CheckRequest -> list C -> EM unit).

Lemma record_ok_mono n m db : (n <= m)%nat -> record_ok n db -> record_ok m db.
Proof. intros Hn [H1' H2' H3' H4' H5']. split; try done. intros k Hk. apply H1'. lia. Qed.

(** ** The violations handed to the recording *)

(** A violation with what the check knows of it. *)
Definition of_violation (cc : CheckContext) (evaluationId : string) (v : violation) (w : CollectedViolationForWrite) : Prop :=
  w_violation w = v /\ w_evaluation_id w = evaluationId.

Lemma collected_for_writes cc evaluationId vs s ws s' :
  returns (mapM_ (collected_for_write cc evaluationId) vs) s ws s' ->
  Forall2 (of_violation cc evaluationId) vs ws /\ (s.1 <= s'.1)%nat /\ s'.2 = s.2.
Proof.
  intros Hr. apply (returns_mapM _ (fun vs ws s' => Forall2 (of_violation cc evaluationId) vs ws /\ (s.1 <= s'.1)%nat /\ s'.2 = s.2))
    in Hr; [done| |done].
  intros dn ys v w s1 s2 (Hf & Hn & Hs) Hw. unfold collected_for_write in Hw. run_inv.
  split; [|split; [lia|done]]. apply Forall2_app; [done|]. by repeat constructor.
Qed.

Lemma required_text_some `{!LawfulTextDriver} v : is_nullish v = false -> exists s, required_text v = Ok s.
Proof. unfold required_text. destruct (text_column v) eqn:E; [by eexists|]. apply text_null in E. congruence. Qed.

Lemma collected_key_some `{!LawfulTextDriver} ids w :
  is_nullish (severity (w_violation w)) = false -> is_nullish (code (w_violation w)) = false ->
  is_nullish (enforcement_mode (w_violation w)) = false -> is_Some (collected_key ids w).
Proof.
  intros Hs Hc Hm. unfold collected_key, violation_columns.
  destruct (required_text_some _ Hs) as [? ->], (required_text_some _ Hc) as [? ->], (required_text_some _ Hm) as [? ->].
  by eexists.
Qed.

(** The violations of a decision differ in their rule bindings. *)
Lemma recorded_bindings_distinct rules fields ttl mode :
  NoDup (map policyRuleBindingId rules) ->
  NoDup (map policy_rule_binding_id (collectedViolations (verdict rules fields ttl mode))).
Proof.
  intros Hnd. assert (Hv : collectedViolations (verdict rules fields ttl mode)
    = map (fun r => make_violation r (rule_type r) (rule_text fields r)) (recorded_matches fields rules)).
  { unfold verdict. by case_match. }
  rewrite Hv, map_map. cbn. rewrite <- (map_map policyRuleBindingId Some). apply NoDup_fmap_2; [apply _|].
  by apply NoDup_map_filter, NoDup_map_filter.
Qed.

Lemma violation_fields rules fields ttl mode v :
  (forall r, r ∈ rules -> is_nullish (effectiveEnforcementMode r) = false) ->
  v ∈ collectedViolations (verdict rules fields ttl mode) ->
  is_nullish (severity v) = false /\ is_nullish (code v) = false /\ is_nullish (enforcement_mode v) = false.
Proof.
  intros Hm (r & -> & Hr)%collected_of_match. cbn. split; [by apply nullish_default|]. split; [by apply nullish_default|].
  apply Hm. unfold recorded_matches in Hr. rewrite !elem_of_filter_b in Hr. tauto.
Qed.

(** What the rules of a loaded policy collect can be recorded. *)
Lemma collected_recordable `{!LawfulTextDriver} db tenantId projectId at_ snapshot fields ttl mode cc e :
  policy_keys db -> loadEffectivePolicy db tenantId projectId at_ = Ok snapshot ->
  re_policySnapshot e = snapshot ->
  Forall2 (of_violation cc (re_evaluationId e)) (collectedViolations (verdict (allRules snapshot) fields ttl mode)) (re_violations e) ->
  recordable e.
Proof.
  intros Hkeys Hload Hsnap Hws. destruct (loaded_modes _ _ _ _ _ Hload) as [Hp Hr].
  assert (Hall : forall w, w ∈ re_violations e -> w_evaluation_id w = re_evaluationId e /\
    is_Some (collected_key (catalog (re_artifact e)) w)).
  { intros w Hw. destruct (Forall2_elem_of_r _ _ _ _ Hws Hw) as (v & Hv & Hw1 & Hw2). split; [done|].
    destruct (violation_fields _ _ _ _ _ Hr Hv) as (? & ? & ?). apply collected_key_some; by rewrite Hw1. }
  split; [intros w Hw; by apply Hall|intros w Hw; by apply Hall| |].
  - assert (Hb : NoDup (map (fun w => policy_rule_binding_id (w_violation w)) (re_violations e))).
    { assert (Hm : map (fun w => policy_rule_binding_id (w_violation w)) (re_violations e)
        = map policy_rule_binding_id (collectedViolations (verdict (allRules snapshot) fields ttl mode))).
      { clear -Hws. induction Hws as [|v w vs ws [<- _] _ IH]; [done|]. cbn. by f_equal. }
      rewrite Hm. apply recorded_bindings_distinct. by eapply loaded_bindings_distinct. }
    apply NoDup_fmap_2_strong; [|by eapply NoDup_fmap_1]. intros w w' Hw Hw' Hk.
    destruct (Hall w Hw) as [_ [k Hk1]]. eapply (NoDup_map_inj _ _ w w' Hb); [done..|].
    eapply collected_key_binding; [exact Hk1|by rewrite <- Hk].
  - intros p. rewrite Hsnap. intros Hin. by destruct (required_text_some _ (Hp p Hin)) as [? ->].
Qed.

(** ** What the tables say of an evaluation *)

(** No row is of an evaluation whose identifier is still to be drawn. *)
Definition undrawn (n : nat) (db : record_db) : Prop :=
  forall m, (n <= m)%nat -> (uuid m ∉ map pe_id (policy_evaluations db)) /\
    forall o, o ∈ violation_occurrences db -> vo_evaluation_id o <> uuid m.

Lemma undrawn_unrecorded n m e db : undrawn n db -> (n <= m)%nat -> re_evaluationId e = uuid m -> unrecorded e db.
Proof.
  intros Hu Hm He. destruct (Hu m Hm) as [Hp Ho]. unfold unrecorded. rewrite He. split; [|done].
  apply not_true_iff_false. intros (r & Hr & Heq%String.eqb_eq)%existsb_exists. apply Hp. rewrite <- Heq.
  apply list_elem_of_fmap_2. by apply list_elem_of_In.
Qed.

(** A violation of the evaluation is stored as one that blocked. *)
Definition blocked_by (evaluationId : string) (db : record_db) : Prop :=
  exists o r, o ∈ violation_occurrences db /\ vo_evaluation_id o = evaluationId /\
    r ∈ violations db /\ vi_id r = vo_violation_id o /\ vi_blocked r = true.

Lemma recorded_as_blocked ids w s before r : recorded_as ids w s before r -> vi_blocked r = blocked (w_violation w).
Proof.
  intros (new & Hn & Hr). destruct (violation_columns_shape _ _ _ _ _ Hn) as (_ & _ & _ & _ & _ & _ & <- & _).
  by destruct Hr as [[_ ->]|(old & _ & ->)].
Qed.

Lemma recorded_row e suppressed found db db' w o :
  recorded e suppressed found db db' w o ->
  vo_evaluation_id o = w_evaluation_id w /\
  exists r, r ∈ violations db' /\ vi_id r = vo_violation_id o /\ vi_blocked r = blocked (w_violation w).
Proof.
  intros (k & r & _ & Hf & Hr & (i & ->) & _). split; [done|]. exists r. split; [|split; [done|by eapply recorded_as_blocked]].
  assert (Hin : r ∈ [r]) by apply list_elem_of_here. rewrite <- Hf in Hin. by apply elem_of_filter_b in Hin as [? _].
Qed.

Lemma recorded_blocked_by e suppressed found db n' db' occs :
  unrecorded e db -> (forall w, w ∈ re_violations e -> w_evaluation_id w = re_evaluationId e) ->
  record_ok n' db' -> violation_occurrences db' = violation_occurrences db ++ occs ->
  Forall2 (recorded e suppressed found db db') (re_violations e) occs ->
  blocked_by (re_evaluationId e) db' <-> exists w, w ∈ re_violations e /\ blocked (w_violation w) = true.
Proof.
  intros [_ Hun] Hev Hok Hocc Hrec. split.
  - intros (o & r & Ho & Hid & Hr & Hvi & Hb). rewrite Hocc in Ho. apply elem_of_app in Ho as [Ho|Ho]; [by destruct (Hun o Ho)|].
    destruct (Forall2_elem_of_r _ _ _ _ Hrec Ho) as (w & Hw & Hwo). exists w. split; [done|].
    apply recorded_row in Hwo as (_ & r' & Hr' & Hvi' & <-). by rewrite <- (NoDup_map_inj vi_id _ r r' (rk_ids _ _ Hok)) by congruence.
  - intros (w & Hw & Hb). destruct (Forall2_elem_of_l _ _ _ _ Hrec Hw) as (o & Ho & Hwo).
    apply recorded_row in Hwo as (Hid & r & Hr & Hvi & Hbl). exists o, r. rewrite Hocc, elem_of_app, Hid, Hbl. auto.
Qed.

(** ** The check *)

Lemma recordCheckEvent_frame rt proxy t p tok req a d r m eid sse :
  keeps (fun _ db => record_tables db = rt) (recordCheckEvent proxy t p tok req a d r m eid sse).
Proof.
  unfold recordCheckEvent, insert_unique. apply keeps_bind; [keeps_walk|]. intros i. keeps_step; [keeps_step|].
  apply keeps_try; [|intros ?]; keeps_walk; done.
Qed.

(** C3: the records of a check explain its answer: when the rules of a loaded
    policy answer a check, one evaluation with the answer's decision is appended,
    whatever the connectors gave; the stored violations stay consistent; and the
    answer is a block exactly when one of the violations recorded for that
    evaluation is stored as blocking. *)
Theorem answer_explained_by_records `{!LawfulTextDriver} proxy cc req artifact connectors evalStart at_ snapshot s oc late s' :
  (forall m n, uuid m = uuid n -> m = n) -> (forall n, uuid n <> EmptyString) -> ticks (prefetch req connectors) ->
  policy_keys (policy_tables s.2) ->
  loadEffectivePolicy (policy_tables s.2) (cc_tenantId cc) (cc_projectId cc) at_ = Ok snapshot ->
  record_ok s.1 (record_tables s.2) -> undrawn s.1 (record_tables s.2) ->
  returns (answerByPolicy handleEvent prefetch proxy cc req artifact connectors evalStart snapshot) s (oc, late) s' ->
  exists row, policy_evaluations (record_tables s'.2) = policy_evaluations (record_tables s.2) ++ [row] /\
    pe_decision row = decision_name (oc_decision oc) /\
    (oc_decision oc = DECISION_BLOCK <-> blocked_by (pe_id row) (record_tables s'.2)) /\
    record_ok s'.1 (record_tables s'.2).
Proof.
  intros Hinj Hne Hpre Hkeys Hload Hok Hun Hr. unfold answerByPolicy in Hr.
  apply returns_bind in Hr as (collected & s1 & Hc & Hr). apply returns_zoom in Hc as ([n1 ct] & Hc & ->).
  apply (returns_keeps _ _ _ _ _ (collectConnectorEvaluationFields_ticks _ _ _ _ _ _ _ Hpre)) in Hc as [Hn1 _]; [|done].
  apply returns_bind in Hr as (d & s2 & Hd & Hr). apply returns_of_res in Hd as [Hd ->].
  apply returns_bind in Hr as (evaluationId & s2 & Hf & Hr). apply returns_fresh in Hf as [-> ->].
  apply returns_bind in Hr as (eventId & s2 & Hf & Hr). apply returns_fresh in Hf as [-> ->].
  apply returns_bind in Hr as (now & s2 & Hf & Hr). apply returns_now in Hf as [-> ->]. cbn [fst snd] in *.
  apply returns_bind in Hr as (ins & s2 & He & Hr).
  apply (returns_keeps _ _ _ _ _ (recordCheckEvent_frame (record_tables s.2) _ _ _ _ _ _ _ _ _ _ _)) in He as [Hn2 Hrt]; [|done].
  apply returns_bind in Hr as (ws & s3 & Hws & Hr). apply collected_for_writes in Hws as (Hws & Hn3 & Hs3).
  apply returns_bind in Hr as (findings & s4 & Hg & Hr). apply returns_gets in Hg as [-> ->].
  apply returns_bind in Hr as ([] & s4 & Hrec & Hr). apply returns_zoom in Hrec as ([n4 rt] & Hrec & ->).
  apply returns_ret in Hr as [[= -> ->] ->]. cbn [fst snd] in *. rewrite Hs3, Hrt in Hrec.
  assert (Hdv := evaluatePolicyDecision_verdict _ _ _ _ _ Hd).
  set (e := {| re_evaluationId := uuid n1 |}) in Hrec.
  assert (Hrc : recordable e) by (eapply (collected_recordable _ _ _ _ _ _ _ _ cc e Hkeys Hload eq_refl); by rewrite <- Hdv).
  assert (Hunr : unrecorded e (record_tables s.2)) by (eapply (undrawn_unrecorded _ n1); done).
  destruct (record_run Hinj Hne (finding_tables (check_tables s2.2)) e s3.1 (record_tables s.2)) as (n' & db' & occs & Hrun & Hok' & Hev & Hocc & Hfr & _);
    [eapply record_ok_mono; [|done]; cbn in *; lia|done|done|].
  unfold returns in Hrec, Hrun. rewrite Hrun in Hrec. injection Hrec as <- <-.
  exists (evaluation_columns e (clock s3.1)). split; [exact Hev|]. split; [done|]. split; [|exact Hok'].
  change (pe_id _) with (re_evaluationId e). rewrite (recorded_blocked_by _ _ _ _ _ _ _ Hunr (rc_evaluation _ Hrc) Hok' Hocc Hfr).
  cbn [oc_decision buildCheckOutcome]. rewrite (blocked_by_recorded _ _ _ _ _ Hd). split.
  - intros (v & Hv & Hb). destruct (Forall2_elem_of_l _ _ _ _ Hws Hv) as (w & Hw & <- & _). by exists w.
  - intros (w & Hw & Hb). destruct (Forall2_elem_of_r _ _ _ _ Hws Hw) as (v & Hv & Hwv & _). rewrite Hwv in Hb. by exists v.
Qed.
End records.

(** ** Witness *)

Lemma check_example_keys enforcement : policy_keys (policy_tables (check_example_db enforcement)).
Proof. split; apply NoDup_singleton. Qed.

Lemma check_example_ok enforcement n : @record_ok example_env n (record_tables (check_example_db enforcement)).
Proof.
  split; cbn.
  - intros m _. split; apply not_elem_of_nil.
  - apply NoDup_nil_2.
  - intros r Hr. by apply not_elem_of_nil in Hr.
  - intros k. lia.
  - intros o Ho. by apply not_elem_of_nil in Ho.
Qed.

Lemma check_example_undrawn enforcement n : @undrawn example_env n (record_tables (check_example_db enforcement)).
Proof. intros m _. split; [apply not_elem_of_nil|]. intros o Ho. by apply not_elem_of_nil in Ho. Qed.

Definition check_example_context : CheckContext :=
  {| cc_tokenRow := check_example_token; cc_tenantId := "ten"; cc_projectId := "proj"; cc_defaultCacheTtl := 60;
     cc_serveMode := PULL_MODE; cc_entitledEcosystems := None |}.

Lemma answer_explained_by_records_witness :
  exists snapshot oc late s',
    loadEffectivePolicy (policy_tables (check_example_db "enforcing")) "ten" "proj" 5 = Ok snapshot /\
    @answerByPolicy example_env example_driver _ plain_interface (fun _ _ _ _ => {| settles := Ok None; in_time := true |})
      (fun _ _ => mret tt) check_example_proxy check_example_context check_example_request check_example_artifact [] 0
      snapshot (0%nat, check_example_db "enforcing") = (Ok (oc, late), s') /\
    exists row, blocked_by (pe_id row) (record_tables s'.2).
Proof.
  destruct (loadEffectivePolicy (policy_tables (check_example_db "enforcing")) "ten" "proj" 5) as [snapshot|] eqn:Hs;
    [|vm_compute in Hs; discriminate Hs].
  exists snapshot.
  destruct (@answerByPolicy example_env example_driver _ plain_interface (fun _ _ _ _ => {| settles := Ok None; in_time := true |})
      (fun _ _ => mret tt) check_example_proxy check_example_context check_example_request check_example_artifact [] 0
      snapshot (0%nat, check_example_db "enforcing")) as [[[oc late]|m] s'] eqn:E;
    [|vm_compute in Hs; injection Hs as <-; vm_compute in E; discriminate E].
  exists oc, late, s'. split; [reflexivity|]. split; [reflexivity|].
  assert (Hp : @ticks check_db unit (mret tt)) by apply keeps_ret.
  destruct (@answer_explained_by_records example_env storage_order example_driver _ plain_interface
    (fun _ _ _ _ => {| settles := Ok None; in_time := true |}) (fun _ _ => mret tt) example_driver_lawful
    _ check_example_context _ _ _ _ 5 _ (0%nat, check_example_db "enforcing") _ _ _ example_uuid_inj example_uuid_nonempty Hp (check_example_keys _) Hs
    (check_example_ok _ _) (check_example_undrawn _ _) E) as (row & _ & _ & Hb & _).
  exists row. apply Hb. vm_compute in Hs. injection Hs as <-. vm_compute in E. injection E as <- _ _. reflexivity.
Defined.
