(* ===== verification/UsageSpec.v ===== *)
(** * What usage recording guarantees

    Events are recorded for the project their token or their proxy's hints name;
    the counters count them; rebuilding counts the stored events anew. *)

From Stdlib Require Import Ascii.
From S2P Require Import Prelude JsString Sql Effects JsDate Constants Identity Schema Tenancy Catalog CatalogCorrect Evaluation CheckService Usage UsageCorrect CheckSpec.
Local Open Scope string_scope.
Local Open Scope list_scope.
Local Open Scope Z_scope.

(** ** A run *)

Section usage.
Context `{Env}.

(** An event that is recorded. *)
Definition recordable (proxy : VerifiedProxyContext) (db : tenancy_db) (e : UsageEvent) : bool :=
  match attribution proxy db e with Some a => nonempty a.1.1 | None => false end.

(** The record of an event and the row and the message made of it. *)
Definition recorded_as (proxy : VerifiedProxyContext) (db : tenancy_db) (e : UsageEvent) (row : event_row) (post : string * EventPayload) : Prop :=
  attribution proxy db e = Some (ev_tenant_id row, ev_project_id row, ev_project_token_id row) /\
  date_parse (ue_requested_at e) = Some (ev_requested_at row) /\
  normalizeDecisionPath (ue_decision_path e) = Ok (ev_decision_path row) /\
  ev_source row = REQUEST_EVENT_SOURCE.PROXY /\ ev_event_type row = ue_event_type e /\ ev_decision row = decision_text e /\
  ev_requested_ref row = present (ue_requested_ref e) /\ ev_resolved_ref row = present (ue_resolved_ref e) /\
  post.1 = ev_tenant_id row /\ ep_id post.2 = ev_id row /\ ep_project_id post.2 = ev_project_id row.

Lemma valid_records proxy db es os :
  Forall2 (record_for proxy db) es os ->
  Forall2 (fun e r => record_for proxy db e (Some r)) (List.filter (recordable proxy db) es)
    (List.filter (fun r => nonempty (ur_tenant_id r)) (omap id os)).
Proof.
  induction 1 as [|e o es os Ho _ IH]; [constructor|]. cbn. unfold recordable at 1. destruct o as [r|]; cbn in Ho |- *.
  - destruct Ho as (He & Ha & Hp). rewrite Ha. cbn. destruct (nonempty (ur_tenant_id r)) eqn:E; [|done]. by constructor.
  - by rewrite Ho.
Qed.

(** What a batch with recordable events does. *)
Lemma record_valid_inv proxy valid n db u n' db' :
  returns (record_valid proxy valid) (n, db) u (n', db') ->
  exists pairs t rows posts db1,
    pairs.*1 = valid /\ mapM (usage_event_row proxy t) pairs = Some rows /\ same_tables db db1 /\
    events (gateway db') = events (gateway db) ++ rows /\ published (gateway db') = published (gateway db) ++ posts /\
    Forall2 (fun p post => post.1 = ur_tenant_id p.1 /\ exists t, post.2 = usage_payload proxy t p) pairs posts /\
    (forallb plain_project (map usage_event rows) = true ->
     exists ds, deltas_of (catalog_tables (check_tables (gateway db'))) (map usage_event rows) ds /\
                counters_grow ds (package_usage db) (package_usage db')).
Proof.
  intros Hr. unfold record_valid in Hr.
  apply returns_bind in Hr as (ids & s1 & Hids & Hr). apply quiet_catalog in Hids.
  set (pairs := imap (fun i r => (r, ids !! i)) valid) in Hr.
  apply returns_bind in Hr as (us & [n2 db2] & Hrefs & Hr). apply (quiet_mapM _ _ quiet_refs) in Hrefs.
  pose proof (same_tables_trans _ _ _ Hids Hrefs) as (E1 & E2 & E3 & E4). cbn [fst snd] in *.
  apply returns_bind in Hr as (rows & s3 & Hins & Hr). apply insert_usage_events_inv in Hins as [Hrows ->].
  apply returns_bind in Hr as (u' & [n4 db4] & Hupd & Hr). apply returns_bind in Hr as (us' & s5 & Hpub & Hr).
  apply returns_ret in Hr as [_ <-]. apply publish_inv in Hpub as (F1 & F2 & F3 & posts & F4 & Hposts). cbn [fst snd] in *.
  pose proof (updatePackageUsage_gateway _ _ _ _ Hupd) as Hg. cbn [snd] in Hg.
  exists pairs, (clock n2), rows, posts, db2. split_and!; try done.
  - unfold pairs. apply list_eq. intros i. rewrite list_lookup_fmap, list_lookup_imap. by destruct (valid !! i).
  - rewrite F2, Hg. cbn. by rewrite E2.
  - rewrite F4, Hg. cbn. by rewrite E3.
  - intros Hpl. rewrite F1, F3, Hg, <- E1. apply updatePackageUsage_inv in Hupd; [done|done|].
    apply Forall_forall. intros r (row & <- & _)%list_elem_of_In%in_map_iff. by eexists.
Qed.

Lemma combine_pairs {A B C} (R : A -> usage_record -> Prop) (P : identified -> B -> Prop) (Q : identified -> C -> Prop)
    (T : A -> B * C -> Prop) (es : list A) (pairs : list identified) (rows : list B) (posts : list C) :
  (forall e p row post, R e p.1 -> P p row -> Q p post -> T e (row, post)) ->
  Forall2 R es pairs.*1 -> Forall2 P pairs rows -> Forall2 Q pairs posts -> Forall2 T es (zip rows posts) /\ length rows = length posts.
Proof.
  intros HT. revert es rows posts. induction pairs as [|p pairs IH]; intros es rows posts HR HP HQ; cbn in HR.
  - inversion HP; inversion HQ; inversion HR; subst. done.
  - inversion HR as [|e ? es' ? Hr HR']; inversion HP as [|? row ? rows' Hp HP']; inversion HQ as [|? post ? posts' Hq HQ']; subst.
    destruct (IH es' rows' posts' HR' HP' HQ') as [HF Hl]. cbn. split; [|by rewrite Hl]. constructor; [by eapply HT|done].
Qed.

Lemma usage_recorded_row proxy tables t e p row post :
  record_for proxy tables e (Some p.1) -> usage_event_row proxy t p = Some row ->
  post.1 = ur_tenant_id p.1 /\ (exists t, post.2 = usage_payload proxy t p) -> recorded_as proxy tables e row post.
Proof.
  intros (He & Ha & Hp) Hrow [Ht [t' Hpost]]. unfold usage_event_row in Hrow. destruct (ur_requested_at p.1) as [at_|] eqn:Eat; [|done].
  injection Hrow as <-. unfold recorded_as. cbn. unfold ur_requested_at in Eat. rewrite He in *. rewrite Hpost. done.
Qed.

(** What a run adds to the events and the messages. *)
Lemma handleRecordUsage_inv proxy es n db r n' db' :
  returns (handleRecordUsage proxy es) (n, db) r (n', db') ->
  let tables := tenancy_tables (gateway db) in
  r = Z.of_nat (length es) /\
  exists new posts,
    events (gateway db') = events (gateway db) ++ new /\ published (gateway db') = published (gateway db) ++ posts /\
    length new = length posts /\
    Forall2 (fun e rp => recorded_as proxy tables e rp.1 rp.2) (List.filter (recordable proxy tables) es) (zip new posts) /\
    (forallb plain_project (map usage_event new) = true ->
     exists ds, deltas_of (catalog_tables (check_tables (gateway db'))) (map usage_event new) ds /\
                counters_grow ds (package_usage db) (package_usage db')).
Proof.
  intros Hr tables.
  assert (Hnone : forall ds, counters_grow [] (package_usage db) (package_usage db) /\ deltas_of ds (map usage_event []) []).
  { intros ds. split; [apply counters_grow_nil|]. intros p v. unfold counted. cbn. by case_match. }
  unfold handleRecordUsage in Hr. destruct es as [|e es]; [|set (es0 := e :: es) in *].
  - apply returns_ret in Hr as [-> [= -> ->]]. split; [done|]. exists [], []. rewrite !app_nil_r. split_and!; try done.
    intros _. exists []. split; apply (Hnone (catalog_tables (check_tables (gateway db)))).
  - apply returns_bind in Hr as (tb & s1 & Hg & Hr). apply returns_gets in Hg as [-> ->].
    apply returns_bind in Hr as (os & [n2 db2] & Hl & Hr). apply records_inv in Hl as [Hdb Hos]. cbn in Hdb. subst db2.
    cbn [snd] in Hos. fold tables in Hos. apply valid_records in Hos.
    destruct (List.filter _ (omap id os)) as [|v0 vs] eqn:Ev; [|set (valid := v0 :: vs) in *].
    + apply returns_ret in Hr as [-> [= -> ->]]. split; [done|]. exists [], []. rewrite !app_nil_r. split_and!; try done.
      * apply Forall2_nil_inv_r in Hos as ->. constructor.
      * intros _. exists []. split; apply (Hnone (catalog_tables (check_tables (gateway db)))).
    + apply returns_bind in Hr as (u & s3 & Hv & Hr). apply returns_ret in Hr as [-> <-]. split; [done|].
      apply record_valid_inv in Hv as (pairs & t & rows & posts & db1 & Hpairs & Hrows & _ & He & Hp & Hposts & Hds).
      rewrite <- Hpairs in Hos. apply mapM_Some in Hrows.
      pose proof (combine_pairs _ _ _ (fun e rp => recorded_as proxy tables e rp.1 rp.2) _ _ _ _
        (usage_recorded_row proxy tables t) Hos Hrows Hposts) as [HF Hlen].
      exists rows, posts. done.
Qed.

(** ** Attribution *)

(** The event of a token: of its tenant and project, and made while the token and
    the project were in force. *)
Definition by_token (db : tenancy_db) (e : UsageEvent) (row : event_row) : Prop :=
  exists t, t ∈ project_tokens db /\ tk_token_hash t = ue_project_token_hash e /\ ue_project_token_hash e <> EmptyString /\
    ev_project_token_id row = Some (tk_id t) /\ ev_tenant_id row = tk_tenant_id t /\
    ev_project_id row = present (Some (tk_project_id t)) /\
    (forall at_, tk_revoked_at t = Some at_ \/ tk_expires_at t = Some at_ -> ev_requested_at row <= at_) /\
    (forall p, p ∈ projects db -> pj_id p = tk_project_id t -> ev_requested_at row <= pj_effective_to p).

(** The event of a token nobody knows: of a project of a tenant, as the proxy says. *)
Definition by_hint (db : tenancy_db) (e : UsageEvent) (row : event_row) : Prop :=
  (forall t, t ∈ project_tokens db -> tk_token_hash t = ue_project_token_hash e -> ue_project_token_hash e = EmptyString) /\
  ev_project_token_id row = None /\ ev_tenant_id row = ue_tenant_id e /\ ev_project_id row = Some (ue_project_id e) /\
  exists p, p ∈ projects db /\ pj_id p = ue_project_id e /\ pj_tenant_id p = ue_tenant_id e.

Lemma last_elem {A} (l : list A) x : last l = Some x -> x ∈ l.
Proof. intros Hl. apply last_Some in Hl as [l' ->]. set_solver. Qed.

Lemma token_row_in (db : tenancy_db) t o :
  (t, o) ∈ tokens_with_projects db ->
  t ∈ project_tokens db /\
  match o with
  | Some at_ => exists p, p ∈ projects db /\ pj_id p = tk_project_id t /\ pj_effective_to p = at_
  | None => forall p, p ∈ projects db -> pj_id p <> tk_project_id t
  end.
Proof.
  intros (t' & Hin & Ht)%list_elem_of_bind. destruct (List.filter _ (projects db)) as [|p0 ps] eqn:E.
  - apply list_elem_of_singleton in Hin as [= -> ->]. split; [done|]. intros p Hp Hid.
    assert (Hf : p ∈ List.filter (fun p => String.eqb (pj_id p) (tk_project_id t')) (projects db)).
    { apply elem_of_filter_b. split; [done|]. by apply String.eqb_eq. }
    rewrite E in Hf. by apply not_elem_of_nil in Hf.
  - rewrite <- E in Hin. apply list_elem_of_In, in_map_iff in Hin as (p & [= <- <-] & Hp).
    apply list_elem_of_In, elem_of_filter_b in Hp as [Hp Hid%String.eqb_eq]. split; [done|]. by exists p.
Qed.

Lemma unset_or_after value at_ : dateIsUnsetOrAtOrAfter value (Some at_) = true -> forall v, value = Some v -> at_ <= v.
Proof. intros Hv v ->. by apply Z.leb_le in Hv. Qed.

Lemma resolved_none db hash :
  resolved_token db hash = None -> forall t, t ∈ project_tokens db -> tk_token_hash t = hash -> hash = EmptyString.
Proof.
  unfold resolved_token. destruct (nonempty hash) eqn:En; [|intros _ t _ _; by destruct hash].
  intros Hl t Ht Hh. exfalso.
  assert (Hin : exists o, (t, o) ∈ tokens_with_projects db).
  { unfold tokens_with_projects. destruct (List.filter (fun p => String.eqb (pj_id p) (tk_project_id t)) (projects db)) as [|p ps] eqn:E.
    - exists None. apply list_elem_of_bind. exists t. rewrite E. split; [apply list_elem_of_here|done].
    - exists (Some (pj_effective_to p)). apply list_elem_of_bind. exists t. rewrite E. split; [apply list_elem_of_here|done]. }
  destruct Hin as [o Hin].
  assert (Hf : (t, o) ∈ List.filter (fun r => String.eqb (tk_token_hash r.1) hash) (tokens_with_projects db)).
  { apply elem_of_filter_b. split; [done|]. by apply String.eqb_eq. }
  apply last_None in Hl. rewrite Hl in Hf. by apply not_elem_of_nil in Hf.
Qed.

Lemma recorded_attributed proxy db e row post :
  NoDup (map pj_id (projects db)) -> recorded_as proxy db e row post ->
  proxyAllowsTenant proxy (ev_tenant_id row) = true /\ (by_token db e row \/ by_hint db e row).
Proof.
  intros Hnd (Ha & Ht & _). unfold attribution in Ha. rewrite Ht in Ha.
  destruct (resolved_token db (ue_project_token_hash e)) as [[t o]|] eqn:Er.
  - unfold token_attribution in Ha. destruct (tokenWasValidAtRequest (t, o) (Some (ev_requested_at row))) eqn:Ev; [|done]. cbn in Ha.
    destruct (proxyAllowsTenant proxy (tk_tenant_id t)) eqn:Ep; [|done]. injection Ha as E1 E2 E3.
    rewrite <- E1. split; [done|]. left. unfold resolved_token in Er. destruct (nonempty (ue_project_token_hash e)) eqn:En; [|done].
    apply last_elem, elem_of_filter_b in Er as [Hin Hh%String.eqb_eq]. apply token_row_in in Hin as [Hin Ho].
    unfold tokenWasValidAtRequest in Ev. cbn [fst snd] in Ev, Hh. apply andb_prop in Ev as [[Ev1 Ev2]%andb_prop Ev3].
    exists t. split_and!; try done.
    + by destruct (ue_project_token_hash e).
    + intros at_ [Hat|Hat]; [exact (unset_or_after _ _ Ev1 at_ Hat)|exact (unset_or_after _ _ Ev2 at_ Hat)].
    + intros p Hp Hid. destruct o as [at_|]; [|by destruct (Ho p Hp)]. destruct Ho as (p' & Hp' & Hid' & <-).
      assert (p' = p) as ->; [|exact (unset_or_after _ _ Ev3 _ eq_refl)]. eapply (NoDup_map_inj pj_id (projects db)); [done..|congruence].
  - unfold hinted_attribution in Ha. destruct (negb (nonempty (ue_tenant_id e)) || _); [done|].
    destruct (negb (nonempty (ue_project_id e)) || _) eqn:Eh; [done|]. cbn in Ha.
    destruct (proxyAllowsTenant proxy (ue_tenant_id e)) eqn:Ep; [|done]. injection Ha as E1 E2 E3.
    rewrite <- E1. split; [done|]. right. split; [by apply resolved_none|]. split_and!; try done.
    apply orb_false_iff in Eh as [_ Eh%negb_false_iff%bool_decide_eq_true].
    unfold project_tenant in Eh. apply fmap_Some in Eh as (p & Hp & ->). apply last_elem, elem_of_filter_b in Hp as [Hp Hid%String.eqb_eq].
    by exists p.
Qed.

(** C10: Usage is recorded for whom it belongs to: the events a batch adds are its
    recordable events in order, each of a tenant the proxy serves, and of the
    project and tenant of its token, with a requested time at which neither token
    nor project had ended, or, when no token has its hash, of the project that the
    proxy names, which is one of the tenant it names; and the dashboards of
    exactly those tenants are sent exactly these events. *)
Theorem usage_events_attributed (proxy : VerifiedProxyContext) (es : list UsageEvent) (n : nat) (db : usage_db) (r : Z) (n' : nat) (db' : usage_db)
  (Hprojects : NoDup (map pj_id (projects (tenancy_tables (gateway db)))))
  (Hrun : returns (handleRecordUsage proxy es) (n, db) r (n', db')) :
  exists new posts,
    events (gateway db') = events (gateway db) ++ new /\ published (gateway db') = published (gateway db) ++ posts /\
    map (fun p => (p.1, ep_id p.2)) posts = map (fun row => (ev_tenant_id row, ev_id row)) new /\
    Forall2 (fun e row =>
      proxyAllowsTenant proxy (ev_tenant_id row) = true /\
      (by_token (tenancy_tables (gateway db)) e row \/ by_hint (tenancy_tables (gateway db)) e row))
      (List.filter (recordable proxy (tenancy_tables (gateway db))) es) new.
Proof.
  apply handleRecordUsage_inv in Hrun as (_ & new & posts & He & Hp & Hlen & HF & _). exists new, posts. split_and!; [done|done| |].
  all: clear He Hp; revert posts Hlen HF; generalize (List.filter (recordable proxy (tenancy_tables (gateway db))) es);
    induction new as [|row new IH]; intros es' [|post posts] Hlen HF; try done; inversion HF as [|e ? es'' ? Hr HF']; subst; cbn.
  - f_equal; [|by eapply IH; [injection Hlen|]]. destruct Hr as (_ & _ & _ & _ & _ & _ & _ & _ & E1 & E2 & _). cbn in *. by rewrite E1, E2.
  - constructor.
  - constructor; [by eapply recorded_attributed|]. eapply IH; [by injection Hlen|done].
Qed.

(** ** Counters *)

(** Identifiers of projects have no bar: they are UUIDs. *)
Definition plain_ids (db : tenancy_db) : Prop :=
  (forall t, t ∈ project_tokens db -> no_char "|"%char (tk_project_id t) = true) /\
  (forall p, p ∈ projects db -> no_char "|"%char (pj_id p) = true).

Lemma recorded_plain proxy db e row post : plain_ids db -> recorded_as proxy db e row post -> plain_project (usage_event row) = true.
Proof.
  intros [Ht Hp] (Ha & Hat & _). unfold attribution in Ha. unfold plain_project. cbn. rewrite Hat in Ha.
  destruct (resolved_token db (ue_project_token_hash e)) as [[t o]|] eqn:Er.
  - unfold token_attribution in Ha. destruct (tokenWasValidAtRequest (t, o) _); [|done]. cbn [mbind option_bind fst snd] in Ha.
    destruct (proxyAllowsTenant _ _); [|done]. injection Ha as _ <- _.
    unfold resolved_token in Er. destruct (nonempty (ue_project_token_hash e)); [|done].
    apply last_elem, elem_of_filter_b in Er as [[Hin _]%token_row_in _]. cbn. destruct (String.eqb _ _); [done|by apply Ht].
  - unfold hinted_attribution in Ha. destruct (negb (nonempty (ue_tenant_id e)) || _); [done|].
    destruct (negb (nonempty (ue_project_id e)) || _) eqn:Eh; [done|]. cbn [mbind option_bind fst snd] in Ha.
    destruct (proxyAllowsTenant _ _); [|done]. injection Ha as _ <- _. cbn.
    apply orb_false_iff in Eh as [_ Eh%negb_false_iff%bool_decide_eq_true].
    unfold project_tenant in Eh. apply fmap_Some in Eh as (p & Hpj & _). apply last_elem, elem_of_filter_b in Hpj as [Hpj Hid%String.eqb_eq].
    rewrite <- Hid. by apply Hp.
Qed.

(** How the counters of a table compare with those before, for the rows counted. *)
Definition counters_add (before after : list usage_row) (c : string -> string -> list PackageUsageEventRow) : Prop :=
  forall p v,
    counter pu_request_count p v after = counter pu_request_count p v before + tally (c p v) /\
    counter pu_allow_count p v after = counter pu_allow_count p v before + tally (List.filter is_allow (c p v)) /\
    counter pu_block_count p v after = counter pu_block_count p v before + tally (List.filter (fun r => negb (is_allow r)) (c p v)).

Lemma grow_add db rows ds before after :
  deltas_of db rows ds -> counters_grow ds before after -> counters_add before after (counted (version_role db) rows).
Proof.
  intros Hds (Hg & _) p v. destruct (contribution_counted db rows ds p v Hds) as (<- & <- & <-). split_and!; by apply Hg.
Qed.

(** C11: The usage counters count exactly the recorded events: a batch adds to each
    version of each project the number of its counted events, allowed and blocked
    (of the downloads and upstream errors of primary versions, but for those
    repeating a reference the batch reached by another name); there stays one row
    per version and project, and its requests are its allowed and blocked ones. *)
Theorem usage_counts_exact (proxy : VerifiedProxyContext) (es : list UsageEvent) (n : nat) (db : usage_db) (r : Z) (n' : nat) (db' : usage_db)
  (Hids : plain_ids (tenancy_tables (gateway db)))
  (Hsingle : usage_single (package_usage db)) (Hsums : usage_sums (package_usage db))
  (Hrun : returns (handleRecordUsage proxy es) (n, db) r (n', db')) :
  usage_single (package_usage db') /\ usage_sums (package_usage db') /\
  exists new, events (gateway db') = events (gateway db) ++ new /\
    counters_add (package_usage db) (package_usage db')
      (counted (version_role (catalog_tables (check_tables (gateway db')))) (map usage_event new)).
Proof.
  apply handleRecordUsage_inv in Hrun as (_ & new & posts & He & _ & Hlen & HF & Hds).
  assert (Hpl : forallb plain_project (map usage_event new) = true).
  { clear He Hds. revert posts Hlen HF. generalize (List.filter (recordable proxy (tenancy_tables (gateway db))) es).
    induction new as [|row new IH]; intros es' [|post posts] Hlen HF; try done. inversion HF as [|e ? es'' ? Hr HF']; subst; cbn.
    apply andb_true_intro. split; [by eapply recorded_plain|]. eapply IH; [by injection Hlen|done]. }
  destruct (Hds Hpl) as (ds & Hdo & Hg). pose proof Hg as (_ & H1' & H2'). split; [by apply H1'|].
  split; [apply H2'; [by eapply deltas_sums|done]|]. exists new. split; [done|]. by eapply grow_add.
Qed.

(** ** Rebuilding *)

Lemma insert_delta_inv d n db u s' :
  returns (insert_delta d) (n, db) u s' ->
  s' = (S n, set_usage (upsert (usage_of (ud_project_id d) (ud_package_version_id d)) (add_delta d) (of_delta d (uuid n)) (package_usage db)).1 db).
Proof.
  unfold insert_delta, insert_unique. intros Hr. apply returns_bind in Hr as (id & s1 & Hf & Hr). apply returns_fresh in Hf as [-> ->].
  destruct (counts_fit _); [|by apply returns_throw in Hr]. apply returns_bind in Hr as (taken & s2 & Hg & Hr).
  apply returns_gets in Hg as [-> ->]. cbn [snd] in Hr. destruct (existsb _ _) eqn:E; [by apply returns_throw in Hr|].
  apply returns_modify in Hr as [_ ->]. cbn. by rewrite upsert_insert.
Qed.

(** Deltas of one project, inserted. *)
Lemma insert_deltas p ds s us s' :
  Forall (fun d => ud_project_id d = p) ds -> returns (mapM_ insert_delta ds) s us s' ->
  counters_grow ds (package_usage s.2) (package_usage s'.2) /\ gateway s'.2 = gateway s.2 /\
  forall p' v, p' <> p -> List.filter (usage_of p' v) (package_usage s'.2) = List.filter (usage_of p' v) (package_usage s.2).
Proof.
  intros Hp Hr.
  enough (Hi : Forall (fun d => ud_project_id d = p) ds -> counters_grow ds (package_usage s.2) (package_usage s'.2) /\ gateway s'.2 = gateway s.2 /\
    forall p' v, p' <> p -> List.filter (usage_of p' v) (package_usage s'.2) = List.filter (usage_of p' v) (package_usage s.2)) by by apply Hi.
  clear Hp. apply (returns_mapM insert_delta (fun ds _ s1 => Forall (fun d => ud_project_id d = p) ds ->
    counters_grow ds (package_usage s.2) (package_usage s1.2) /\ gateway s1.2 = gateway s.2 /\
    forall p' v, p' <> p -> List.filter (usage_of p' v) (package_usage s1.2) = List.filter (usage_of p' v) (package_usage s.2)) _ _ _ _ Hr).
  - intros dn ys d y [m dm] s2 IH Hd%insert_delta_inv [Hdn [Hdp _]%Forall_cons_1]%Forall_app. destruct (IH Hdn) as (Hc & Hg & Ho).
    subst s2. cbn [fst snd] in *. split; [by apply counters_grow_snoc|]. split; [done|]. intros p' v Hne. rewrite <- (Ho p' v Hne).
    apply rows_apart. apply not_true_iff_false. intros [E _]%delta_of_spec. congruence.
  - intros _. split; [apply counters_grow_nil|done].
Qed.

Lemma deltas_project db rows ds p :
  (forall r, r ∈ rows -> uw_project_id r = Some p) -> deltas_of db rows ds -> Forall (fun d => ud_project_id d = p) ds.
Proof.
  intros Hrows Hds. apply Forall_forall. intros d Hd. specialize (Hds (ud_project_id d) (ud_package_version_id d)).
  assert (Hin : d ∈ List.filter (delta_of (ud_project_id d) (ud_package_version_id d)) ds).
  { apply elem_of_filter_b. split; [done|]. by apply delta_of_spec. }
  destruct (List.filter _ ds) as [|d' [|]]; [by apply not_elem_of_nil in Hin| |done]. apply list_elem_of_singleton in Hin as ->.
  destruct Hds as (_ & _ & _ & _ & r & (Hr & _ & [Hp _]%row_of_spec)%counted_usage & _).
  apply present_some in Hp as [Hp _]. rewrite (Hrows r Hr) in Hp. by injection Hp.
Qed.

(** The deltas of the stored events, and their rows. *)
Lemma rebuild_loop p t k db n n' db' rows0 :
  no_char "|"%char p = true ->
  let evs := List.filter (rebuilt_from p t) (events (gateway db)) in
  returns match evs with
          | [] => mret 0
          | _ => deltas ← on_usage_catalog (buildPackageUsageDeltas (map usage_event evs));
                 _ ← mapM_ insert_delta deltas; mret (Z.of_nat (length deltas))
          end (n, set_usage rows0 db) k (n', db') ->
  exists ds, deltas_of (catalog_tables (check_tables (gateway db))) (map usage_event evs) ds /\
    counters_grow ds rows0 (package_usage db') /\ gateway db' = gateway db /\
    forall p' v, p' <> p -> List.filter (usage_of p' v) (package_usage db') = List.filter (usage_of p' v) rows0.
Proof.
  intros Hplain evs Hr.
  assert (Hproject : forall r, r ∈ map usage_event evs -> uw_project_id r = Some p).
  { intros r (e & <- & He)%list_elem_of_In%in_map_iff. apply filter_In in He as [_ He]. unfold rebuilt_from in He.
    rewrite !andb_true_iff, !bool_decide_eq_true in He. apply He. }
  clearbody evs. destruct evs as [|e0 es0]; [|set (evs := e0 :: es0) in *].
  - apply returns_ret in Hr as [_ Hs]. injection Hs as _ ->. exists []. split; [|split; [apply counters_grow_nil|done]].
    intros p' v. unfold counted. cbn. by case_match.
  - apply returns_bind in Hr as (ds & s1 & Hb & Hr). apply returns_bind in Hr as (us & s2 & Hl & Hr).
    apply returns_ret in Hr as [_ <-].
    destruct (build_run (map usage_event evs) n (catalog_tables (check_tables (gateway db)))) as (ds' & Hb' & Hds).
    { apply forallb_forall. intros r Hin%list_elem_of_In. unfold plain_project. by rewrite (Hproject r Hin). }
    { apply Forall_forall. intros r (row & <- & _)%list_elem_of_In%in_map_iff. by eexists. }
    apply (on_catalog_returns _ _ (set_usage rows0 db)) in Hb' as Hb''. unfold returns in Hb, Hb''. rewrite Hb'' in Hb. injection Hb as <- <-.
    apply (insert_deltas p) in Hl as (Hc & Hg & Ho); [|by eapply deltas_project]. exists ds'. split_and!; done.
Qed.

Definition of_tenant (t : string) (row : event_row) : bool := String.eqb (ev_tenant_id row) t.

Lemma counted_rebuilt role p t v evs :
  p <> EmptyString ->
  counted role (map usage_event (List.filter (rebuilt_from p t) evs)) p v = counted role (map usage_event (List.filter (of_tenant t) evs)) p v.
Proof.
  intros Hp. unfold counted.
  assert (Hown : forall q, List.filter q (map usage_event evs) = map usage_event (List.filter (fun e => q (usage_event e)) evs)).
  { intros q. induction evs as [|e l IH]; [done|]. cbn. rewrite IH. by destruct (q (usage_event e)). }
  assert (Hm : forall q, List.filter (fun r => is_usage_row r && row_of p v r) (map usage_event (List.filter q evs))
                  = map usage_event (List.filter (fun e => q e && (is_usage_row (usage_event e) && row_of p v (usage_event e))) evs)).
  { intros q. clear Hown. induction evs as [|e l IH]; [done|]. cbn. destruct (q e); cbn; [|done].
    rewrite IH. by destruct (is_usage_row _ && _). }
  rewrite !Hm. erewrite (List.filter_ext _ (fun e => of_tenant t e && (is_usage_row (usage_event e) && row_of p v (usage_event e)))); [done|].
  intros e. apply eq_iff_eq_true. unfold rebuilt_from, of_tenant, is_usage_row. cbn.
  rewrite !andb_true_iff, row_of_spec, !bool_decide_eq_true, !present_some. cbn. naive_solver.
Qed.

(** A rebuild: the counters of the project are gone, and the deltas inserted. *)
Lemma rebuild_run p t n db k n' db' :
  no_char "|"%char p = true ->
  (forall r, r ∈ package_usage db -> pu_project_id r = p -> pu_tenant_id r = t) ->
  returns (rebuildProjectPackages p t) (n, db) k (n', db') ->
  gateway db' = gateway db /\
  exists rows0,
    (forall v, List.filter (usage_of p v) rows0 = []) /\
    (forall p' v, p' <> p -> List.filter (usage_of p' v) rows0 = List.filter (usage_of p' v) (package_usage db)) /\
    (forall p' v, p' <> p -> List.filter (usage_of p' v) (package_usage db') = List.filter (usage_of p' v) rows0) /\
    (usage_single rows0 -> usage_single (package_usage db')) /\
    counters_add rows0 (package_usage db')
      (counted (version_role (catalog_tables (check_tables (gateway db)))) (map usage_event (List.filter (rebuilt_from p t) (events (gateway db))))).
Proof.
  intros Hplain Htenant Hrun.
  unfold rebuildProjectPackages in Hrun. apply returns_transaction, returns_bind in Hrun as (evs & s1 & Hg & Hrun).
  apply returns_gets in Hg as [-> ->]. apply returns_bind in Hrun as (u & s2 & Hm & Hrun). apply returns_modify in Hm as [_ ->].
  cbn [fst snd] in Hrun. set (rows0 := List.filter _ (package_usage db)) in *.
  destruct (rebuild_loop p t k db n n' db' rows0 Hplain Hrun) as (ds & Hdo & Hgrow & Hgw & Hother).
  split; [done|]. exists rows0. split_and!; [| |done|by destruct Hgrow as (_ & Hs & _)|by eapply grow_add].
  - intros v. apply filter_b_nil, not_true_iff_false. intros (r & [Hr Hk]%filter_In & [E1 _]%usage_of_spec)%existsb_exists.
    apply list_elem_of_In in Hr. by rewrite E1, (Htenant r Hr E1), !String.eqb_refl in Hk.
  - intros p' v Hne. unfold rows0. rewrite filter_filter. apply List.filter_ext. intros r.
    destruct (usage_of p' v r) eqn:E; [|by rewrite andb_false_r]. apply usage_of_spec in E as [E _]. rewrite E.
    by rewrite (proj2 (String.eqb_neq p' p)).
Qed.

(** Rebuilding a project's packages replaces its counters by those of all the
    stored events of its tenant, counted as one batch, and leaves the counters of
    the other projects, and the events, as they are. *)
Theorem rebuild_counts_events (p t : string) (n : nat) (db : usage_db) (k : Z) (n' : nat) (db' : usage_db)
  (Hp : p <> EmptyString) (Hplain : no_char "|"%char p = true)
  (Hsingle : usage_single (package_usage db))
  (Htenant : forall r, r ∈ package_usage db -> pu_project_id r = p -> pu_tenant_id r = t)
  (Hrun : returns (rebuildProjectPackages p t) (n, db) k (n', db')) :
  gateway db' = gateway db /\ usage_single (package_usage db') /\
  (forall p' v, p' <> p -> List.filter (usage_of p' v) (package_usage db') = List.filter (usage_of p' v) (package_usage db)) /\
  forall v, let c := counted (version_role (catalog_tables (check_tables (gateway db)))) (map usage_event (List.filter (of_tenant t) (events (gateway db)))) p v in
    counter pu_request_count p v (package_usage db') = tally c /\
    counter pu_allow_count p v (package_usage db') = tally (List.filter is_allow c) /\
    counter pu_block_count p v (package_usage db') = tally (List.filter (fun r => negb (is_allow r)) c).
Proof.
  apply (rebuild_run _ _ _ _ _ _ _ Hplain Htenant) in Hrun as (Hg & rows0 & Hgone & Hkept & Hother & Hs & Hadd). split_and!.
  - done.
  - apply Hs. intros p' v. destruct (decide (p' = p)) as [->|Hne]; [rewrite Hgone; cbn; lia|]. by rewrite Hkept.
  - intros p' v Hne. by rewrite Hother, Hkept.
  - intros v c. destruct (Hadd p v) as (E1 & E2 & E3). rewrite E1, E2, E3. unfold counter. rewrite Hgone. cbn.
    by rewrite counted_rebuilt.
Qed.

(** ** Batches *)

Lemma counted_one role r p v : is_primary role v = true -> is_usage_row r = true -> row_of p v r = true ->
  repeated_ref r && human_ref r = false -> counted role [r] p v = [r].
Proof. intros Hv Hu Ho Hr. unfold counted. cbn. rewrite Hv, Hu, Ho. cbn. by rewrite orb_false_r, Hr. Qed.

Lemma repeated_not_human r : repeated_ref r && human_ref r = false.
Proof.
  unfold repeated_ref, human_ref. destruct (nonempty _), (nonempty _); cbn; try done. by destruct (String.eqb _ _).
Qed.

Lemma rebuilt_row p t v e :
  no_char "|"%char p = true -> p <> EmptyString -> v <> EmptyString -> rebuilt_from p t e = true -> ev_package_version_id e = Some v ->
  plain_project (usage_event e) = true /\ is_usage_row (usage_event e) = true /\ row_of p v (usage_event e) = true.
Proof.
  intros Hplain Hp Hv Hr He. unfold rebuilt_from in Hr. rewrite !andb_true_iff, !bool_decide_eq_true in Hr.
  destruct Hr as ((((_ & Hpr) & Hs) & Ht) & _). split_and!.
  - unfold plain_project. cbn. by rewrite Hpr.
  - unfold is_usage_row. cbn. rewrite Hpr, Hs, Ht. by destruct p.
  - apply row_of_spec. cbn. rewrite Hpr, He. by split; apply present_some.
Qed.

Lemma update_counters row s u s' p v :
  plain_project (usage_event row) = true -> is_usage_row (usage_event row) = true -> row_of p v (usage_event row) = true ->
  is_primary (version_role (catalog_tables (check_tables (gateway s.2)))) v = true ->
  returns (updatePackageUsage [usage_event row]) s u s' ->
  counter pu_request_count p v (package_usage s'.2) = counter pu_request_count p v (package_usage s.2) + 1.
Proof.
  destruct s as [n db], s' as [n' db']. cbn [snd]. intros Hpl Hu Ho Hv Hr.
  apply updatePackageUsage_inv in Hr as (ds & Hds & Hg); [|by cbn [map forallb]; rewrite Hpl|by constructor; [eexists|]].
  destruct (grow_add _ _ _ _ _ Hds Hg p v) as [-> _]. rewrite counted_one; [done|done..|]. apply repeated_not_human.
Qed.

(** The counters depend on how a proxy divides its events into batches: a
    download by tag and then one of the reference the tag resolved to are one
    request when they come in one batch, and two when they come in two; so
    rebuilding a project's packages takes back what recording counted. *)
Theorem batches_count_differently (p t v : string) (e1 e2 : event_row) (n : nat) (db : usage_db) (u1 u2 : unit) (s1 s2 : nat * usage_db)
  (k : Z) (n3 : nat) (db3 : usage_db)
  (Hp : p <> EmptyString) (Hplain : no_char "|"%char p = true) (Hv : v <> EmptyString)
  (Hprimary : version_role (catalog_tables (check_tables (gateway db))) v = Some DISPLAY_ROLE.PRIMARY)
  (Hevents : events (gateway db) = [e1; e2]) (Husage : package_usage db = [])
  (Hrows : forall e, e ∈ [e1; e2] -> rebuilt_from p t e = true /\ ev_package_version_id e = Some v)
  (Htag : human_ref (usage_event e1) = true) (Hdigest : repeated_ref (usage_event e2) = true)
  (Hfirst : returns (updatePackageUsage [usage_event e1]) (n, db) u1 s1)
  (Hsecond : returns (updatePackageUsage [usage_event e2]) s1 u2 s2)
  (Htenant : forall r, r ∈ package_usage s2.2 -> pu_project_id r = p -> pu_tenant_id r = t)
  (Hrebuild : returns (rebuildProjectPackages p t) s2 k (n3, db3)) :
  counter pu_request_count p v (package_usage s2.2) = 2 /\ counter pu_request_count p v (package_usage db3) = 1.
Proof.
  assert (Hrow : forall e, e ∈ [e1; e2] -> plain_project (usage_event e) = true /\ is_usage_row (usage_event e) = true /\ row_of p v (usage_event e) = true).
  { intros e [He Hev]%Hrows. by eapply (rebuilt_row p t v). }
  destruct (Hrow e1) as (A1 & A2 & A3); [set_solver|]. destruct (Hrow e2) as (B1 & B2 & B3); [set_solver|].
  destruct s1 as [n1 db1], s2 as [n2 db2]. pose proof (updatePackageUsage_gateway _ _ _ _ Hfirst) as G1.
  pose proof (updatePackageUsage_gateway _ _ _ _ Hsecond) as G2. cbn [snd] in *.
  assert (Hrole : is_primary (version_role (catalog_tables (check_tables (gateway db)))) v = true).
  { unfold is_primary. by rewrite Hprimary. }
  split.
  - assert (C2 := fun Hrole => update_counters e2 (n1, db1) u2 (n2, db2) p v B1 B2 B3 Hrole Hsecond).
    assert (C1 := fun Hrole => update_counters e1 (n, db) u1 (n1, db1) p v A1 A2 A3 Hrole Hfirst). cbn [snd] in C1, C2.
    rewrite C2 by by rewrite G1. rewrite C1 by done. by rewrite Husage.
  - apply rebuild_run in Hrebuild as (_ & rows0 & Hgone & _ & _ & _ & Hadd); [|done..]. destruct (Hadd p v) as [-> _].
    destruct (Hrows e1) as [R1 _]; [set_solver|]. destruct (Hrows e2) as [R2 _]; [set_solver|].
    unfold counter. rewrite Hgone, G2, G1, Hevents. cbn [List.filter]. rewrite R1, R2.
    unfold counted. rewrite Hrole. cbn [map List.filter]. rewrite A2, A3, B2, B3. cbn [andb List.filter existsb].
    rewrite Htag, Hdigest. pose proof (repeated_not_human (usage_event e1)) as R. rewrite Htag, andb_true_r in R. by rewrite R.
Qed.

(** ** Unknown paths *)

Lemma record_of_db proxy db e s : (record_of proxy db e s).2.2 = s.2.
Proof.
  unfold record_of. destruct (attribution proxy db e) as [[[t p] k]|]; [|done]. cbn -[normalizeDecisionPath].
  by destruct (normalizeDecisionPath (ue_decision_path e)).
Qed.

Lemma records_throw proxy db es s e :
  e ∈ es -> is_Some (attribution proxy db e) -> (forall path, normalizeDecisionPath (ue_decision_path e) <> Ok path) ->
  exists m s', mapM_ (record_of proxy db) es s = (Throw m, s') /\ s'.2 = s.2.
Proof.
  revert s. induction es as [|e0 es IH]; intros s He Ha Hp; [by apply not_elem_of_nil in He|].
  assert (Hone : forall s, (exists m s', record_of proxy db e0 s = (Throw m, s') /\ s'.2 = s.2) \/
            exists o s', record_of proxy db e0 s = (Ok o, s') /\ s'.2 = s.2 /\ record_for proxy db e0 o).
  { intros s0. destruct (record_of proxy db e0 s0) as [[o|m] s'] eqn:Er.
    - right. exists o, s'. by destruct (record_of_inv _ _ _ _ _ _ Er).
    - left. exists m, s'. split; [done|]. rewrite <- (record_of_db proxy db e0 s0). by rewrite Er. }
  cbn [mapM_]. destruct (Hone s) as [(m & s' & Er & Es)|(o & s' & Er & Es & Ho)].
  - exists m, s'. unfold mbind, eff_bind. by rewrite Er.
  - unfold mbind at 1, eff_bind at 1. rewrite Er. apply elem_of_cons in He as [->|He].
    + destruct o as [r|]; cbn in Ho; [|by rewrite Ho in Ha; destruct Ha]. destruct Ho as (_ & _ & Ho). by destruct (Hp _ Ho).
    + destruct (IH s' He Ha Hp) as (m & s2 & E2 & Es2). exists m, s2. unfold mbind, eff_bind. rewrite E2. split; [done|congruence].
Qed.

(** A batch with an attributed event of an unknown decision path fails whole:
    nothing of it is recorded, of none of its events. *)
Theorem unknown_path_rejects_batch (proxy : VerifiedProxyContext) (es : list UsageEvent) (s : nat * usage_db) (e : UsageEvent)
  (He : e ∈ es) (Hattributed : is_Some (attribution proxy (tenancy_tables (gateway s.2)) e))
  (Hpath : forall path, normalizeDecisionPath (ue_decision_path e) <> Ok path) :
  exists m s', handleRecordUsage proxy es s = (Throw m, s') /\ s'.2 = s.2.
Proof.
  destruct (records_throw proxy (tenancy_tables (gateway s.2)) es s e He Hattributed Hpath) as (m & s' & Hr & Hs).
  exists m, s'. destruct es as [|e0 es]; [by apply not_elem_of_nil in He|]. split; [|done].
  unfold handleRecordUsage, mbind at 1 2, eff_bind at 1 2, gets. by rewrite Hr.
Qed.
End usage.

(** ** Witnesses *)

Definition usage_example_event (requested_ref resolved_ref path : string) : UsageEvent :=
  {| ue_ecosystem := "npm"; ue_package := "left-pad"; ue_version := "1.3.0"; ue_decision := DECISION_ALLOW;
     ue_event_type := REQUEST_EVENT_TYPE.ARTIFACT; ue_decision_cache := false; ue_requested_at := "1970-01-01T00:00:01.000Z";
     ue_project_token_hash := "secret"; ue_trace_id := "t"; ue_request_id := "r"; ue_tenant_id := EmptyString;
     ue_project_id := EmptyString; ue_serve_mode := None; ue_bytes_transferred := 10; ue_client_ip := None;
     ue_duration_ms := Some 3; ue_decision_path := Some path; ue_requested_ref := Some requested_ref;
     ue_resolved_ref := Some resolved_ref; ue_ref_resolution_source := None; ue_related_versions := None |}.

Definition usage_example_db : usage_db := {| gateway := check_example_db "advisory"; package_usage := [] |}.

(** A download of the tag [latest] and one of the version it named. *)
Definition usage_example_batch : list UsageEvent :=
  [usage_example_event "latest" "1.3.0" "check"; usage_example_event "1.3.0" "1.3.0" "check"].

Definition usage_example_run := @handleRecordUsage example_env check_example_proxy usage_example_batch (0%nat, usage_example_db).

Lemma usage_events_attributed_witness :
  exists s' new, usage_example_run = (Ok 2, s') /\ events (gateway s'.2) = new /\ length new = 2%nat /\
    forall row, row ∈ new -> proxyAllowsTenant check_example_proxy (ev_tenant_id row) = true.
Proof.
  destruct usage_example_run as [r [n' db']] eqn:E. assert (Hr : r = Ok 2) by (vm_compute in E; congruence). subst r.
  destruct (@usage_events_attributed example_env check_example_proxy usage_example_batch 0%nat usage_example_db 2 n' db') as (new & posts & He & _ & _ & HF).
  - cbn. apply NoDup_singleton.
  - exact E.
  - exists (n', db'), new. split; [reflexivity|]. split; [exact He|]. split.
    + rewrite <- (Forall2_length _ _ _ HF). vm_compute. reflexivity.
    + intros row Hrow. apply list_elem_of_lookup in Hrow as [i Hi]. destruct (Forall2_lookup_r _ _ _ _ _ HF Hi) as (e & _ & Ha & _). exact Ha.
Defined.

Lemma usage_counts_exact_witness :
  exists s' new, usage_example_run = (Ok 2, s') /\ events (gateway s'.2) = new /\
    counters_add [] (package_usage s'.2) (counted (version_role (catalog_tables (check_tables (gateway s'.2)))) (map usage_event new)).
Proof.
  destruct usage_example_run as [r [n' db']] eqn:E. assert (Hr : r = Ok 2) by (vm_compute in E; congruence). subst r.
  destruct (@usage_counts_exact example_env check_example_proxy usage_example_batch 0%nat usage_example_db 2 n' db') as (_ & _ & new & He & Hadd).
  - split; intros x Hx; apply list_elem_of_singleton in Hx; subst x; reflexivity.
  - intros p v. cbn. lia.
  - intros r Hr. apply not_elem_of_nil in Hr. destruct Hr.
  - exact E.
  - exists (n', db'), new. split; [reflexivity|]. split; [exact He|]. exact Hadd.
Defined.

Definition usage_example_rebuild := @rebuildProjectPackages example_env "proj" "ten" (usage_example_run.2.1, usage_example_run.2.2).

(** Two events in one batch count once, and so they do when rebuilt. *)
Lemma rebuild_counts_events_witness :
  exists k s', usage_example_rebuild = (Ok k, s') /\ counter pu_request_count "proj" "3" (package_usage s'.2) = 1.
Proof.
  destruct usage_example_rebuild as [r [n' db']] eqn:E. assert (Hr : r = Ok 1) by (vm_compute in E; congruence). subst r.
  destruct (@rebuild_counts_events example_env "proj" "ten" usage_example_run.2.1 usage_example_run.2.2 1 n' db') as (_ & _ & _ & Hc).
  - discriminate.
  - reflexivity.
  - intros p v. etransitivity; [apply List.filter_length_le|]. vm_compute. reflexivity.
  - intros r Hr. vm_compute in Hr. apply list_elem_of_singleton in Hr. subst r. reflexivity.
  - exact E.
  - exists 1, (n', db'). split; [reflexivity|]. cbn [snd]. destruct (Hc "3") as [E1 _]. rewrite E1. vm_compute. reflexivity.
Defined.

(** The stored events of the example, each counted in a batch of its own. *)
Definition usage_example_events : usage_db := {| gateway := gateway usage_example_run.2.2; package_usage := [] |}.

Definition usage_example_update (e : option event_row) (s : nat * usage_db) : res unit * (nat * usage_db) :=
  match e with Some e => @updatePackageUsage example_env [usage_event e] s | None => (Ok tt, s) end.

Definition usage_example_first := usage_example_update (events (gateway usage_example_events) !! 0%nat) (0%nat, usage_example_events).
Definition usage_example_second := usage_example_update (events (gateway usage_example_events) !! 1%nat) usage_example_first.2.

Lemma batches_count_differently_witness :
  counter pu_request_count "proj" "3" (package_usage usage_example_second.2.2) = 2 /\
  exists k s3, @rebuildProjectPackages example_env "proj" "ten" usage_example_second.2 = (Ok k, s3) /\
    counter pu_request_count "proj" "3" (package_usage s3.2) = 1.
Proof.
  destruct (events (gateway usage_example_events)) as [|e1 [|e2 [|]]] eqn:Ee; try (vm_compute in Ee; discriminate Ee).
  destruct (@rebuildProjectPackages example_env "proj" "ten" usage_example_second.2) as [r [n3 db3]] eqn:E.
  assert (Hr : r = Ok 1) by (vm_compute in E; congruence). subst r.
  assert (E1 : Some e1 = events (gateway usage_example_events) !! 0%nat) by (rewrite Ee; reflexivity).
  assert (E2 : Some e2 = events (gateway usage_example_events) !! 1%nat) by (rewrite Ee; reflexivity).
  destruct (@batches_count_differently example_env "proj" "ten" "3" e1 e2 0%nat usage_example_events tt tt
    usage_example_first.2 usage_example_second.2 1 n3 db3) as [C1 C2].
  - discriminate.
  - reflexivity.
  - discriminate.
  - vm_compute. reflexivity.
  - exact Ee.
  - reflexivity.
  - intros e He. apply elem_of_cons in He as [->|He]; [|apply list_elem_of_singleton in He as ->].
    + vm_compute in E1. injection E1 as ->. split; reflexivity.
    + vm_compute in E2. injection E2 as ->. split; reflexivity.
  - vm_compute in E1. injection E1 as ->. reflexivity.
  - vm_compute in E2. injection E2 as ->. reflexivity.
  - assert (Hb : usage_example_update (Some e1) (0%nat, usage_example_events) = usage_example_first) by (rewrite E1; reflexivity).
    unfold returns. cbn in Hb. rewrite Hb. vm_compute. reflexivity.
  - assert (Hb : usage_example_update (Some e2) usage_example_first.2 = usage_example_second) by (rewrite E2; reflexivity).
    unfold returns. cbn in Hb. rewrite Hb. vm_compute. reflexivity.
  - intros r Hr. vm_compute in Hr. apply list_elem_of_singleton in Hr. subst r. reflexivity.
  - exact E.
  - split; [exact C1|]. exists 1, (n3, db3). split; [reflexivity|exact C2].
Defined.

Lemma unknown_path_rejects_batch_witness :
  exists m s', @handleRecordUsage example_env check_example_proxy
    [usage_example_event "latest" "1.3.0" "check"; usage_example_event "1.3.0" "1.3.0" "fast"] (0%nat, usage_example_db) = (Throw m, s') /\
    s'.2 = usage_example_db.
Proof.
  apply (@unknown_path_rejects_batch example_env check_example_proxy _ (0%nat, usage_example_db) (usage_example_event "1.3.0" "1.3.0" "fast")).
  - apply elem_of_cons. right. apply list_elem_of_singleton. reflexivity.
  - vm_compute. eexists. reflexivity.
  - intros path. vm_compute. discriminate.
Defined.
