(* ===== verification/TokenSpec.v ===== *)
(** * What revoking a token achieves

    Once a token is revoked (by itself, by its rotation or with its project) no check accepts it, whatever requests and
    checks come in between; but a rotation that was under way still hands out a
    successor. *)

From S2P Require Import Prelude JsString JsNum JsValue Sql Effects JsDate Constants Identity Schema Tenancy Rbac Members Tokens AccessCorrect AccessSpec Catalog ConnectorTypes Jsonb Cache Findings Snapshots Effective Decision Resolver Evaluation Violations CheckService Ticks CheckSpec.
Local Open Scope string_scope.
Local Open Scope list_scope.
Local Open Scope Z_scope.

(** ** Revoked for good *)

(** No two tokens have one hash, and the token of this one is revoked. *)
Record dead (h : string) (db : tenancy_db) : Prop := {
  dead_unique : NoDup (map tk_token_hash (project_tokens db));
  dead_token : exists t, t ∈ project_tokens db /\ tk_token_hash t = h /\ tk_revoked_at t <> None
}.

Section dead.
Context `{Env} `{Formats} `{AuthService} (randomBytesHex : nat -> string) (hashProjectToken : string -> string) (h : string).

Let D (_ : nat) (db : tenancy_db) : Prop := dead h db.

Lemma dead_monotone : monotone D.
Proof. by intros n m db _. Qed.

Lemma dead_untouched db db' : project_tokens db' = project_tokens db -> dead h db -> dead h db'.
Proof. intros He [K1 K2]. by split; rewrite He. Qed.

(** An update of tokens that revives none. *)
Lemma dead_updated db q g :
  (forall t, tk_token_hash (g t) = tk_token_hash t) -> (forall t, tk_revoked_at t <> None -> tk_revoked_at (g t) <> None) ->
  dead h db -> dead h (set_tokens (update_where q g (project_tokens db)) db).
Proof.
  intros Hh Hr [K1 (t & Ht & He & Hd)]. split; cbn [project_tokens set_tokens]; [by rewrite update_where_map|].
  exists (if q t then g t else t). split; [apply elem_of_update_where; by exists t|]. destruct (q t); [|done]. by rewrite Hh; auto.
Qed.

Lemma dead_inserted row : keeps D (insert_unique project_tokens set_tokens same_hash row).
Proof.
  intros n db [K1 (t & Ht & He & Hd)]. unfold insert_unique, mbind, eff_bind, gets. cbn [fst snd].
  destruct (existsb _ _) eqn:E; cbn; (split; [lia|]).
  - split; [done|by exists t].
  - split; cbn [project_tokens set_tokens].
    + rewrite map_app. apply NoDup_app. split; [done|]. split; [|apply NoDup_singleton].
      intros k (x & -> & Hx)%list_elem_of_fmap Hk%list_elem_of_singleton. apply not_true_iff_false in E. apply E, existsb_exists.
      exists x. split; [by apply list_elem_of_In|]. unfold same_hash. rewrite Hk. apply String.eqb_refl.
    + exists t. split; [apply elem_of_app; by left|done].
Qed.

Ltac dead_walk :=
  repeat lazymatch goal with
         | |- keeps _ (transaction _) => apply keeps_rolled_back; [apply dead_monotone|]
         | |- keeps _ now_ => apply keeps_now, dead_monotone
         | |- keeps _ fresh => apply keeps_fresh, dead_monotone
         | |- keeps _ (draw _) => apply keeps_draw, dead_monotone
         | |- keeps _ (insert_unique project_tokens _ _ _) => apply dead_inserted
         | |- keeps _ (insert_unique _ _ _ _) => unfold insert_unique
         | |- keeps _ (http_bind _ _) => unfold http_bind
         | |- _ => keeps_step
         end;
  try (eapply dead_untouched; [|eassumption]; done);
  try (apply dead_updated; [done|intros; done|assumption]).

Lemma dead_routes c :
  (forall name, keeps D (create_project_route c name)) /\ keeps D (delete_project_route c) /\
  (forall pid body, keeps D (create_token_route randomBytesHex hashProjectToken c pid body)) /\
  (forall pid tokenId, keeps D (revoke_token_route c pid tokenId)) /\
  (forall pid tokenId, keeps D (rotate_token_route randomBytesHex hashProjectToken c pid tokenId)).
Proof.
  unfold create_project_route, createProject, insert_project_member, delete_project_route, deleteProject, requireProjectAccess,
    requireResolvedProjectAccess, create_token_route, createProjectToken, revoke_token_route, revokeProjectToken, rotate_token_route,
    rotateProjectToken, manageable_token, visible_project, resolveProjectWithAccess, checkProjectAccess, load_token.
  split; [|split; [|split; [|split]]]; intros; dead_walk.
Qed.

Lemma dead_memberships tenantId user role scoped : keeps D (record_membership tenantId user role scoped).
Proof. unfold record_membership, insert_membership, insert_project_member. dead_walk. Qed.

Lemma dead_patch c role : keeps (fun _ db => dead h (tenancy db)) (patch_route c role).
Proof.
  unfold patch_route. destruct (isManageableTenantRole role); [|apply keeps_ret]. unfold patch_member, http_bind.
  repeat lazymatch goal with |- keeps _ (on_tenancy_of _) => apply (keeps_tenancy D) | |- _ => keeps_step end.
  eapply dead_untouched; [|eassumption]; done.
Qed.

Lemma dead_member tenantId v : keeps D (insert_or_nothing project_members set_project_members
  (fun v => same_project_member (new_project_member v.1 tenantId v.2 EmptyString)) (fun v => new_project_member v.1 tenantId v.2) v).
Proof. unfold insert_or_nothing. dead_walk. Qed.

Lemma dead_perform c r : keeps (fun _ db => dead h (tenancy db)) (perform randomBytesHex hashProjectToken c r).
Proof.
  destruct (dead_routes c) as (Hp & Hd & Hct & Hrt & Hot).
  destruct r as [body|body|role|password|name| |pid body|pid tid|pid tid]; cbn [perform]; try apply keeps_discard;
    try (apply (keeps_tenancy D); auto).
  - apply (keeps_grant D); [|intros pid user; apply dead_member]. intros user role scoped _. apply dead_memberships.
  - apply (keeps_create D). intros user role scoped _. apply dead_memberships.
  - apply dead_patch.
  - apply (keeps_reset D).
Qed.
End dead.

(** ** Checks *)

Section checks.
Context `{Env} `{SqlOrder} `{TextDriver} {C : Type} `{PackageIntelligenceConnector C}.
Context (handleEvent : C -> ConnectorEvent -> check_db -> timestamp -> fetch_outcome).
Context (hashProjectToken : string -> string) (prefetch : CheckRequest -> list C -> EM unit).
Context (prefetch_ticks : forall req cs, ticks (prefetch req cs)).

Section tenancy.
Context (P : tenancy_db -> Prop).
Context (P_used : forall q at_ db, P db -> P (set_tokens (update_where q (used_token at_) (project_tokens db)) db)).

Let I (_ : nat) (db : gateway_db) : Prop := P (tenancy_tables db).

Lemma tenancy_on_check {A} (e : EM A) : ticks e -> keeps I (on_check e).
Proof. intros He. by apply (keeps_zoom_other P tenancy_tables check_tables set_check_tables). Qed.

Lemma tenancy_on_records {A} (e : M record_db A) : ticks e -> keeps I (on_records e).
Proof. intros He. by apply (keeps_zoom_other P tenancy_tables record_tables set_record_tables). Qed.

Lemma tenancy_used t : keeps I (scheduleProjectTokenLastUsedUpdate t).
Proof using P_used.
  apply keeps_bind; [apply keeps_now; by intros ? ? ? ?|]. intros now.
  apply (keeps_zoom (fun _ => P) tenancy_tables set_tenancy); [done|]. apply keeps_modify. intros n db. apply P_used.
Qed.

Ltac tenancy_walk :=
  repeat lazymatch goal with
         | |- keeps _ (on_check _) => apply tenancy_on_check
         | |- keeps _ (on_records _) => apply tenancy_on_records
         | |- keeps _ (scheduleProjectTokenLastUsedUpdate _) => apply tenancy_used
         | |- keeps _ (attempt _) => apply keeps_attempt
         | |- keeps _ (try_catch _ _) => apply keeps_try; [|intros ?]
         | |- keeps _ (insert_unique _ _ _ _) => unfold insert_unique
         | |- ticks (on_catalog _) => apply ticks_zoom
         | |- ticks _ => solve [eauto 3 with ticksdb nocore]
         | |- _ => keeps_step
         end; try done.

Lemma handleCheck_tenancy proxy req connectors : keeps I (handleCheck handleEvent hashProjectToken prefetch proxy req connectors).
Proof using P_used prefetch_ticks.
  unfold handleCheck, loadCheckContext, loadAuthorizedProjectToken, answerMetadataRequest, answerWithoutPolicy, answerByPolicy,
    recordPolicyEvaluation, collected_for_write, recordCheckEvent.
  tenancy_walk.
Qed.
End tenancy.
End checks.

(** ** The life of a token *)

Section spec.
Context `{Env} `{Formats} `{AuthService} `{SqlOrder} `{TextDriver} {C : Type} `{PackageIntelligenceConnector C}.
Context (handleEvent : C -> ConnectorEvent -> check_db -> timestamp -> fetch_outcome).
Context (randomBytesHex : nat -> string) (hashProjectToken : string -> string) (prefetch : CheckRequest -> list C -> EM unit).

(** What goes on between a token's revocation and a check: requests of any caller
    and checks of any proxy, with whatever outcome; anything else may happen to the
    other tables and to the accounts. *)
Inductive activity : nat * tenancy_db -> nat * tenancy_db -> Prop :=
| activity_none s : activity s s
| activity_request c r s a x s' s2 :
    perform randomBytesHex hashProjectToken c r (s.1, {| tenancy := s.2; auth := a |}) = (x, s') ->
    activity (s'.1, tenancy s'.2) s2 -> activity s s2
| activity_check proxy req connectors s db x s' s2 :
    handleCheck handleEvent hashProjectToken prefetch proxy req connectors (s.1, set_tenancy s.2 db) = (x, s') ->
    activity (s'.1, tenancy_tables s'.2) s2 -> activity s s2.

Lemma activity_keeps (P : tenancy_db -> Prop) s s2 :
  (forall req cs, ticks (prefetch req cs)) ->
  (forall q at_ db, P db -> P (set_tokens (update_where q (used_token at_) (project_tokens db)) db)) ->
  (forall c r, keeps (fun _ db => P (tenancy db)) (perform randomBytesHex hashProjectToken c r)) ->
  activity s s2 -> P s.2 -> P s2.2.
Proof.
  intros Ht Hu Hp. induction 1 as [s|c r s a x s' s2 Hx _ IH|proxy req connectors s db x s' s2 Hx _ IH]; intros HP; [done| |]; apply IH; cbn.
  - specialize (Hp c r s.1 {| tenancy := s.2; auth := a |} HP). rewrite Hx in Hp. destruct s'. apply Hp.
  - assert (Hk := handleCheck_tenancy handleEvent hashProjectToken prefetch Ht P Hu proxy req connectors s.1 (set_tenancy s.2 db) HP).
    rewrite Hx in Hk. destruct s'. apply Hk.
Qed.

(** The requests that revoke a token: its revocation, its rotation, and the
    deletion of its project. *)
Definition revokes (c : AuthContext) (r : access_request) (t : project_token_row) : Prop :=
  match r with
  | revoke_token pid tid | rotate_token pid tid => tk_id t = tid /\ tk_project_id t = pid
  | delete_project => au_param c "project_id" = Some (tk_project_id t)
  | _ => False
  end.

Lemma dead_after_update h db q at_ by_ t :
  NoDup (map tk_token_hash (project_tokens db)) -> t ∈ project_tokens db -> tk_token_hash t = h ->
  (tk_revoked_at t = None -> q t = true) ->
  dead h (set_tokens (update_where q (revoked_token at_ by_) (project_tokens db)) db).
Proof.
  intros Hnd Ht Hh Hq. split; cbn [project_tokens set_tokens]; [by rewrite update_where_map|].
  exists (if q t then revoked_token at_ by_ t else t). split; [apply elem_of_update_where; by exists t|].
  destruct (q t) eqn:E; [done|]. split; [done|]. intros Hn. by specialize (Hq Hn).
Qed.

Lemma performed {A} (e : M tenancy_db (HttpResult A)) s s' :
  returns (discard (on_tenancy_of e)) s (inl tt) s' -> exists a, returns e (s.1, tenancy s.2) (inl a) (s'.1, tenancy s'.2).
Proof.
  intros (a & s1 & He & Hr)%http_bind_inl. apply returns_ret in Hr as [_ ->].
  apply returns_zoom in He as ([n t] & He & ->). by exists a.
Qed.

Lemma manageable_same c pid tid action s a s1 :
  returns (manageable_token c pid tid action) s (inl a) s1 -> s1 = s.
Proof. destruct s as [n db]. destruct (manageable_read c pid tid action n db) as (r & Hr & _). unfold returns. rewrite Hr. congruence. Qed.

Lemma requireProject_param c hide s p s1 :
  returns (requireProjectAccess c hide) s (inl p) s1 -> s1 = s /\ au_param c "project_id" = Some p.1.
Proof.
  intros (pid & s0 & Hp & Hr)%http_bind_inl. apply returns_ret in Hp as [Hp ->]. destruct s as [n db].
  destruct (requireResolved_read c pid hide n db) as (r & Hr' & Ho). unfold returns in Hr. rewrite Hr' in Hr. injection Hr as -> ->.
  split; [done|]. destruct (Ho p eq_refl) as [-> _]. unfold validateUuidParam in Hp.
  destruct (au_param c "project_id") as [v|]; [|done]. destruct (is_uuid v); [|done]. by injection Hp as ->.
Qed.

Lemma deleteProject_inv pid user s id s' :
  returns (deleteProject pid user) s (Some id) s' ->
  exists l, s'.2 = set_tokens (update_where (unrevoked pid) (revoked_token (clock s.1) user) (project_tokens s.2)) (set_projects l s.2).
Proof.
  intros (now & s1 & [-> ->]%returns_now & Hr)%returns_bind. apply (proj1 (returns_transaction _ _ _ _)) in Hr. cbv zeta in Hr.
  apply returns_bind in Hr as (deleted & s2 & [-> ->]%returns_gets & Hr). apply returns_bind in Hr as ([] & s2 & [_ ->]%returns_modify & Hr).
  destruct (head _); [|by apply returns_ret in Hr as [? _]].
  apply returns_bind in Hr as ([] & s2 & [_ ->]%returns_modify & Hr). apply returns_ret in Hr as [_ ->]. by eexists.
Qed.

(** The successor a rotation inserts. *)
Definition successor (pid tenantId user : string) (existing : project_token_row) (n : nat) : project_token_row :=
  token_columns hashProjectToken pid tenantId (tk_name existing) (tk_owner_user_id existing) user (randomBytesHex n)
    (tk_expires_at existing) (uuid (S (S n))).

Definition rotated (tid pid user : string) (row : project_token_row) (n : nat) (db : tenancy_db) : tenancy_db :=
  set_tokens (update_where (unrevoked_token tid pid) (revoked_token (clock (S n)) user) (project_tokens db ++ [row])) db.

Lemma rotateProjectToken_run tid pid tenantId user existing n db :
  let row := successor pid tenantId user existing n in
  rotateProjectToken randomBytesHex hashProjectToken tid pid tenantId user existing (n, db) =
  if existsb (same_hash row) (project_tokens db) then (Throw "unique_violation", (S (S (S n)), db))
  else (Ok (shown (randomBytesHex n) row), (S (S (S n)), rotated tid pid user row n db)).
Proof.
  cbv zeta. unfold rotateProjectToken, insert_unique, transaction, mbind, eff_bind, draw, now_, fresh, gets. cbn [fst snd].
  fold (successor pid tenantId user existing n). by destruct (existsb _ _).
Qed.

(** A request that revokes a token leaves it dead. *)
Lemma revoked_dead c r t s s' :
  NoDup (map tk_token_hash (project_tokens (tenancy s.2))) -> t ∈ project_tokens (tenancy s.2) -> revokes c r t ->
  returns (perform randomBytesHex hashProjectToken c r) s (inl tt) s' -> dead (tk_token_hash t) (tenancy s'.2).
Proof.
  intros Hnd Ht Hrev Hr. destruct r as [| | | | | | |pid tid|pid tid]; cbn [revokes perform] in *; try done;
    apply performed in Hr as (a & Hr); destruct s as [n [db acc]]; destruct s' as [n' [db' acc']]; cbn [fst snd tenancy] in *.
  - apply http_bind_inl in Hr as (p & s1 & Hg & Hr). apply requireProject_param in Hg as [-> Hp].
    assert (Hpid : p.1 = tk_project_id t) by congruence.
    apply http_bind_inl in Hr as (u & s2 & Hc & Hr). apply returns_ret in Hc as [_ ->].
    apply returns_bind in Hr as ([id|] & s2 & Hd & Hr); [|by apply returns_ret in Hr as [? _]].
    apply returns_ret in Hr as [_ <-]. apply deleteProject_inv in Hd as [l Hl]. cbn [fst snd] in Hl. rewrite Hl.
    apply (dead_after_update _ (set_projects l db) _ _ _ t); [done..|]. intros Hn. unfold unrevoked.
    by rewrite Hpid, String.eqb_refl, Hn.
  - destruct Hrev as [Hid Hpid]. apply http_bind_inl in Hr as (x & s1 & Hg & Hr). apply manageable_same in Hg as ->.
    apply returns_bind in Hr as (revoked & s2 & Hd & Hr). unfold revokeProjectToken in Hd. run_inv. case_match; run_inv.
    apply (dead_after_update _ _ _ _ _ t); [done..|]. intros Hn. unfold unrevoked_token, unrevoked. by rewrite !String.eqb_refl, Hn.
  - destruct Hrev as [Hid Hpid]. apply http_bind_inl in Hr as (x & s1 & Hg & Hr). apply manageable_same in Hg as ->.
    apply returns_bind in Hr as (nt & s1 & Hd & Hr). apply returns_ret in Hr as [_ <-]. unfold returns in Hd.
    rewrite rotateProjectToken_run in Hd. cbv zeta in Hd. set (row := successor _ _ _ _ _) in Hd.
    destruct (existsb _ _) eqn:E; [discriminate Hd|]. injection Hd as _ _ <-.
    apply (dead_after_update _ (set_tokens (project_tokens db ++ [row]) db) _ _ _ t).
    + cbn. rewrite map_app. apply NoDup_app. split; [done|]. split; [|apply NoDup_singleton].
      intros k (y & -> & Hy)%list_elem_of_fmap Hk%list_elem_of_singleton. apply not_true_iff_false in E. apply E, existsb_exists.
      exists y. split; [by apply list_elem_of_In|]. unfold same_hash. rewrite Hk. apply String.eqb_refl.
    + cbn. apply elem_of_app. by left.
    + done.
    + intros Hn. unfold unrevoked_token, unrevoked. by rewrite Hid, Hpid, !String.eqb_refl, Hn.
Qed.

(** C6: a revoked token is refused for good: once a token is revoked, by a
    request of its own, by its rotation or with the deletion of its project, every
    check that presents it is answered "invalid token", whatever requests and checks
    of anyone happen in between. *)
Theorem revoked_token_refused c r t s s' s2 proxy req connectors db :
  (forall req cs, ticks (prefetch req cs)) ->
  NoDup (map tk_token_hash (project_tokens (tenancy s.2))) -> t ∈ project_tokens (tenancy s.2) -> revokes c r t ->
  returns (perform randomBytesHex hashProjectToken c r) s (inl tt) s' ->
  activity (s'.1, tenancy s'.2) s2 ->
  hashProjectToken (cq_project_token req) = tk_token_hash t ->
  returns (handleCheck handleEvent hashProjectToken prefetch proxy req connectors) (s2.1, set_tenancy s2.2 db) (invalidToken, [])
    (s2.1, set_tenancy s2.2 db).
Proof.
  intros Hticks Hnd Ht Hrev Hr Hact Hhash. assert (Hd : dead (tk_token_hash t) s2.2).
  { apply (activity_keeps (dead (tk_token_hash t)) (s'.1, tenancy s'.2) s2); [done| | |done|by eapply revoked_dead].
    - intros q at_ db' Hdead. by apply dead_updated.
    - intros c' r'. apply dead_perform. }
  assert (Hload : returns (loadAuthorizedProjectToken hashProjectToken proxy (cq_project_token req)) (s2.1, set_tenancy s2.2 db) None
    (s2.1, set_tenancy s2.2 db)).
  { unfold loadAuthorizedProjectToken. apply returns_bind. eexists _, _. split; [reflexivity|]. cbn [fst snd tenancy_tables set_tenancy].
    rewrite Hhash. destruct (head _) as [x|] eqn:Eh; [|by apply returns_ret]. destruct (negb _); [by apply returns_ret|].
    destruct Hd as [Hu (y & Hy & Hyh & Hyr)]. apply head_Some_elem_of in Eh. unfold token_rows in Eh.
    apply list_elem_of_fmap in Eh as ([x' p] & -> & Hx). apply elem_of_filter_b in Hx as [Hx [Hxh%String.eqb_eq _]%andb_prop].
    apply inner_join_elem_of in Hx as (Hx & _ & _). cbn [fst] in *.
    rewrite (NoDup_map_inj tk_token_hash (project_tokens s2.2) x' y) by (done || congruence).
    destruct (tk_revoked_at y); [by apply returns_ret|done]. }
  unfold handleCheck, loadCheckContext. apply returns_bind. eexists None, _. split; [|by apply returns_ret].
  apply returns_bind. eexists None, _. split; [exact Hload|by apply returns_ret].
Qed.

(** A rotation outlives the revocation of its token: it acts on the token as it
    was read.  If a request of anyone revokes the token between the reading and the
    writing, the rotation still succeeds and hands out a token of the same project,
    owner and expiry that is not revoked; so two rotations at a time leave two
    tokens for one. *)
Theorem rotation_outlives_revocation c pid tid existing s a s0 c' r s' s1 user tenantId :
  (forall req cs, ticks (prefetch req cs)) -> NoDup (map tk_token_hash (project_tokens s.2)) ->
  returns (manageable_token c pid tid rotate) s (inl existing) s0 ->
  revokes c' r existing -> returns (perform randomBytesHex hashProjectToken c' r) (s0.1, {| tenancy := s0.2; auth := a |}) (inl tt) s' ->
  activity (s'.1, tenancy s'.2) s1 ->
  (forall t, t ∈ project_tokens s1.2 -> tk_token_hash t <> hashProjectToken (randomBytesHex s1.1)) ->
  tid <> uuid (S (S s1.1)) ->
  exists nt s2 row,
    returns (rotateProjectToken randomBytesHex hashProjectToken tid pid tenantId user existing) s1 nt s2 /\
    row ∈ project_tokens s2.2 /\ tk_token_hash row = hashProjectToken (nt_token nt) /\ tk_revoked_at row = None /\
    tk_project_id row = pid /\ tk_owner_user_id row = tk_owner_user_id existing /\ tk_expires_at row = tk_expires_at existing /\
    dead (tk_token_hash existing) s2.2.
Proof.
  intros Hticks Hnd Hread Hrev Hr Hact Hfresh Hid. assert (Hd : dead (tk_token_hash existing) s1.2).
  { assert (Hs := manageable_same _ _ _ _ _ _ _ Hread). subst s0. destruct s as [m db0].
    destruct (manageable_read c pid tid rotate m db0) as (x & Hx & Hin). unfold returns in Hread. rewrite Hx in Hread. injection Hread as ->.
    apply (activity_keeps (dead (tk_token_hash existing)) (s'.1, tenancy s'.2) s1); [done| | |done|].
    - intros q at_ db' Hdead. by apply dead_updated.
    - intros c0 r0. apply dead_perform.
    - apply (revoked_dead c' r existing (m, {| tenancy := db0; auth := a |}) s'); [exact Hnd|by apply Hin|exact Hrev|exact Hr]. }
  clear Hact Hr Hread. destruct s1 as [n db]. cbn [fst snd] in *. set (row := successor pid tenantId user existing n).
  assert (E : existsb (same_hash row) (project_tokens db) = false).
  { apply not_true_iff_false. intros (x & Hx & He%String.eqb_eq)%existsb_elem_of. by apply (Hfresh x Hx). }
  assert (Hins := dead_inserted (tk_token_hash existing) row n db Hd). unfold insert_unique, mbind, eff_bind, gets in Hins. cbn [fst snd] in Hins.
  rewrite E in Hins. destruct Hins as [_ Hins]. cbn in Hins.
  exists (shown (randomBytesHex n) row), (S (S (S n)), rotated tid pid user row n db), row.
  split; [unfold returns; rewrite rotateProjectToken_run; cbv zeta; fold row; by rewrite E|].
  split.
  { apply elem_of_update_where. exists row. split; [apply elem_of_app; right; apply list_elem_of_here|].
    unfold unrevoked_token. destruct (String.eqb_spec (tk_id row) tid) as [He|]; [|done]. by destruct Hid. }
  split; [done|]. split; [done|]. split; [done|]. split; [done|]. split; [done|].
  by apply (dead_updated _ (set_tokens (project_tokens db ++ [row]) db)).
Qed.
End spec.

(** ** Witnesses *)

Definition token_example_token : project_token_row :=
  {| tk_id := "T"; tk_project_id := "P"; tk_tenant_id := "A"; tk_name := "ci"; tk_owner_user_id := "alice";
     tk_created_by_user_id := "alice"; tk_token_hash := "secret"; tk_token_prefix := "secret"; tk_last_used_at := None;
     tk_expires_at := None; tk_revoked_at := None; tk_revoked_by_user_id := None |}.

Definition token_example_tables : tenancy_db :=
  {| memberships := [{| mb_id := "m1"; mb_tenant_id := "A"; mb_user_id := "alice"; mb_role := "admin" |}];
     projects := [{| pj_id := "P"; pj_tenant_id := "A"; pj_name := "a"; pj_effective_to := VALID_TO_INFINITY |}];
     project_members := []; project_tokens := [token_example_token]; tenant_entitlements := [] |}.

(** The random bytes of a reading. *)
Definition example_bytes (n : nat) : string := "bytes" +:+ @uuid example_env n.

Definition token_example_revoked :=
  @perform example_env any_format example_service example_bytes (fun token => token) (access_example_caller "admin" "alice")
    (revoke_token "P" "T") (0%nat, @Build_access_db example_service token_example_tables []).

(** The request of a check that presents the token, after its project was used for
    another one. *)
Lemma revoked_token_refused_witness :
  exists s', token_example_revoked = (Ok (inl tt), s') /\
    @handleCheck example_env _ example_driver _ plain_interface (fun _ _ _ _ => {| settles := Ok None; in_time := true |})
      (fun token => token) (fun _ _ => mret tt) check_example_proxy check_example_request []
      (s'.1, set_tenancy (@tenancy example_service s'.2) (check_example_db "advisory"))
    = (Ok (invalidToken, []), (s'.1, set_tenancy (@tenancy example_service s'.2) (check_example_db "advisory"))).
Proof.
  destruct token_example_revoked as [r s'] eqn:E. assert (Hr : r = Ok (inl tt)) by (vm_compute in E; congruence). subst r.
  exists s'. split; [reflexivity|].
  apply (@revoked_token_refused example_env any_format example_service _ example_driver _ plain_interface _ example_bytes
    (fun token => token) (fun _ _ => mret tt) (access_example_caller "admin" "alice") (revoke_token "P" "T") token_example_token
    (0%nat, @Build_access_db example_service token_example_tables []) s' (s'.1, @tenancy example_service s'.2)).
  - intros req cs. apply keeps_ret.
  - cbn. apply NoDup_singleton.
  - cbn. apply list_elem_of_here.
  - split; reflexivity.
  - exact E.
  - apply activity_none.
  - reflexivity.
Defined.

(** The token is revoked by another request of its owner while it is rotated. *)
Lemma rotation_outlives_revocation_witness :
  exists nt s2 row,
    @rotateProjectToken example_env example_bytes (fun token => token) "T" "P" "A" "alice" token_example_token
      (token_example_revoked.2.1, @tenancy example_service token_example_revoked.2.2) = (Ok nt, s2) /\
    row ∈ project_tokens s2.2 /\ tk_revoked_at row = None /\ dead "secret" s2.2.
Proof.
  destruct (@rotation_outlives_revocation example_env any_format example_service _ example_driver _ plain_interface
    (fun _ _ _ _ => {| settles := Ok None; in_time := true |}) example_bytes (fun token => token) (fun _ _ => mret tt)
    (access_example_caller "admin" "alice") "P" "T" token_example_token (0%nat, token_example_tables) (@nil (AuthAdminUser * string))
    (0%nat, token_example_tables) (access_example_caller "admin" "alice") (revoke_token "P" "T") token_example_revoked.2
    (token_example_revoked.2.1, @tenancy example_service token_example_revoked.2.2) "alice" "A")
    as (nt & s2 & row & Hr & Hin & _ & Hrev & _ & _ & _ & Hd).
  - intros req cs. apply keeps_ret.
  - cbn. apply NoDup_singleton.
  - vm_compute. reflexivity.
  - split; reflexivity.
  - vm_compute. reflexivity.
  - apply activity_none.
  - intros t Ht. vm_compute in Ht. apply list_elem_of_singleton in Ht. subst t. vm_compute. discriminate.
  - vm_compute. discriminate.
  - exists nt, s2, row. exact (conj Hr (conj Hin (conj Hrev Hd))).
Defined.
