(* ===== verification/Streams.v ===== *)
(** * Event streams (services/api/src/sse/subscription-manager.ts,
    services/api/src/features/sse/stream-service.ts, stream-replay.ts,
    services/api/src/routes/sse.ts)

    A dashboard opens a stream, is sent the events it missed, and is subscribed to
    those that follow.  The subscription manager keeps, per tenant, a set of
    clients that the closures handed out by [subscribe] share: a set is a
    reference into [hub_sets], and [hub_clients] maps a tenant to the reference in
    use.  Timers, broken connections and closed windows are operations of the
    world, in any order; what runs between two awaits is one operation.

    The text of the chunks is left out: a chunk is what it shows. *)

From S2P Require Import Prelude JsString Sql Effects Constants Tenancy Rbac CheckService.
Local Open Scope string_scope.
Local Open Scope list_scope.

(** ** Clients *)

Record SSEClient := {
  sc_tenantId : string; sc_hasTenantEventAccess : bool; sc_allowedProjects : option (list string);
  sc_projectFilter : option string
}.

(** What a member may see of its tenant's events. *)
Definition resolveAllowedProjects (c : AuthContext) : M tenancy_db (bool * option (list string)) :=
  if with_role (au_role c) (fun r => canPerform r "events.read_tenant" no_context) then mret (true, None)
  else gets (fun db => (false, Some (map pmb_project_id
         (List.filter (fun m => String.eqb (pmb_user_id m) (au_userId c) && String.eqb (pmb_tenant_id m) (au_tenantId c))
            (project_members db))))).

(** The client of a stream the caller may open (routes/sse.ts). *)
Definition stream_client (c : AuthContext) (projectFilter : option string) : M tenancy_db SSEClient :=
  access ← resolveAllowedProjects c;
  mret {| sc_tenantId := au_tenantId c; sc_hasTenantEventAccess := access.1; sc_allowedProjects := access.2;
          sc_projectFilter := projectFilter |}.

Definition tenant_stream_route (c : AuthContext) : M tenancy_db (HttpResult SSEClient) :=
  if with_role (au_role c) (fun r => canPerform r "events.read_tenant" no_context || canPerform r "events.read_project" no_context)
  then client ← stream_client c None; mret (okResult client)
  else mret (errorResult 403 "FORBIDDEN" "You do not have access to open the event stream" None).

Definition project_stream_route `{Formats} (c : AuthContext) : M tenancy_db (HttpResult SSEClient) :=
  if with_role (au_role c) (fun r => canPerform r "events.read_project" no_context) then
    let? access := requireProjectAccess c true in
    client ← stream_client c (Some access.1);
    mret (okResult client)
  else mret (errorResult 403 "FORBIDDEN" "You do not have access to open the project event stream" None).

Definition clientShouldReceive (client : SSEClient) (event : EventPayload) : bool :=
  match sc_projectFilter client with
  | Some p => bool_decide (ep_project_id event = Some p)
  | None =>
      if sc_hasTenantEventAccess client then true
      else match sc_allowedProjects client with
           | None => true
           | Some allowed => match ep_project_id event with
                             | Some p => existsb (String.eqb p) allowed
                             | None => false
                             end
           end
  end.

(** ** The missed events *)

(** The rows a reconnecting client is sent: after its cursor, at most a hundred. *)
Definition missed_events `{SqlOrder} (client : SSEClient) (cursor : option timestamp) (rows : list event_row) : list event_row :=
  match cursor with
  | None => []
  | Some at_ =>
      if bool_decide (sc_hasTenantEventAccess client = false /\ sc_allowedProjects client = Some []) then []
      else take 100 (order_by ev_created_at (List.filter (fun r =>
             String.eqb (ev_tenant_id r) (sc_tenantId client) && (at_ <? ev_created_at r)%Z
             && match present (sc_projectFilter client) with
                | Some p => bool_decide (ev_project_id r = Some p)
                | None =>
                    match sc_allowedProjects client with
                    | Some allowed =>
                        sc_hasTenantEventAccess client || existsb (fun p => bool_decide (ev_project_id r = Some p)) allowed
                    | None => true
                    end
                end) rows))
  end.

(** ** Streams *)

Inductive chunk : Type := connected | ping | auth_expired | replayed (row : event_row) | message (event : EventPayload).

(** A stream's [closed] flag, the set its [unsubscribeFn] works on once it is
    subscribed, whether its connection takes chunks, and the chunks it took. *)
Record stream := {
  st_client : SSEClient; st_closed : bool; st_unsubscribe : option nat; st_broken : bool; st_written : list chunk
}.

Record world := { hub_sets : list (list nat); hub_clients : gmap string nat; streams : list stream }.

Definition empty_world : world := {| hub_sets := []; hub_clients := ∅; streams := [] |}.

Definition set_closed (s : stream) : stream :=
  {| st_client := st_client s; st_closed := true; st_unsubscribe := st_unsubscribe s; st_broken := st_broken s; st_written := st_written s |}.
Definition set_unsubscribe (ref : nat) (s : stream) : stream :=
  {| st_client := st_client s; st_closed := st_closed s; st_unsubscribe := Some ref; st_broken := st_broken s; st_written := st_written s |}.
Definition set_broken (s : stream) : stream :=
  {| st_client := st_client s; st_closed := st_closed s; st_unsubscribe := st_unsubscribe s; st_broken := true; st_written := st_written s |}.
Definition add_chunk (k : chunk) (s : stream) : stream :=
  {| st_client := st_client s; st_closed := st_closed s; st_unsubscribe := st_unsubscribe s; st_broken := st_broken s;
     st_written := st_written s ++ [k] |}.

Definition update_stream (i : nat) (f : stream -> stream) (w : world) : world :=
  {| hub_sets := hub_sets w; hub_clients := hub_clients w; streams := alter f i (streams w) |}.

(** [subscribe]: the tenant's set, or a new one, with the client; the reference its
    closure keeps. *)
Definition subscribe (tenantId : string) (i : nat) (w : world) : nat * world :=
  match hub_clients w !! tenantId with
  | Some ref =>
      (ref, {| hub_sets := alter (fun l => if existsb (Nat.eqb i) l then l else l ++ [i]) ref (hub_sets w);
               hub_clients := hub_clients w; streams := streams w |})
  | None =>
      let ref := length (hub_sets w) in
      (ref, {| hub_sets := hub_sets w ++ [[i]]; hub_clients := <[tenantId := ref]> (hub_clients w); streams := streams w |})
  end.

(** The closure: the client leaves the set; an empty set leaves the map. *)
Definition unsubscribe (tenantId : string) (ref i : nat) (w : world) : world :=
  let members := List.filter (fun j => negb (Nat.eqb i j)) (default [] (hub_sets w !! ref)) in
  {| hub_sets := <[ref := members]> (hub_sets w);
     hub_clients := if bool_decide (members = []) then delete tenantId (hub_clients w) else hub_clients w;
     streams := streams w |}.

Definition doCleanup (i : nat) (w : world) : world :=
  match streams w !! i with
  | Some s =>
      if st_closed s then w
      else
        let w := update_stream i set_closed w in
        match st_unsubscribe s with
        | Some ref => unsubscribe (sc_tenantId (st_client s)) ref i w
        | None => w
        end
  | None => w
  end.

Definition write (i : nat) (k : chunk) (w : world) : world :=
  match streams w !! i with
  | Some s => if st_closed s then w else if st_broken s then doCleanup i w else update_stream i (add_chunk k) w
  | None => w
  end.

(** [publish]: the clients of the tenant's set in turn; one whose connection broke
    leaves the set while it is walked, which skips no other. *)
Definition send_to (event : EventPayload) (w : world) (i : nat) : world :=
  match streams w !! i with
  | Some s => if clientShouldReceive (st_client s) event then write i (message event) w else w
  | None => w
  end.

Definition publish (tenantId : string) (event : EventPayload) (w : world) : world :=
  match hub_clients w !! tenantId with
  | Some ref => foldl (send_to event) w (default [] (hub_sets w !! ref))
  | None => w
  end.

Definition clientCount (tenantId : string) (w : world) : nat :=
  match hub_clients w !! tenantId with
  | Some ref => length (default [] (hub_sets w !! ref))
  | None => 0
  end.

(** ** What happens to streams *)

Inductive operation : Type :=
| open_stream (client : SSEClient)
| replay (i : nat) (rows : list event_row)
| start (i : nat)
| publish_event (tenantId : string) (event : EventPayload)
| send_ping (i : nat)
| expire (i : nat)
| cancel (i : nat)
| break_connection (i : nat).

Definition new_stream (client : SSEClient) : stream :=
  {| st_client := client; st_closed := false; st_unsubscribe := None; st_broken := false; st_written := [connected] |}.

(** A stream that is still being replayed. *)
Definition not_started (s : stream) : bool := bool_decide (st_unsubscribe s = None).

(** [openEventStream] up to its first await, the writes after the query of the
    missed events, the subscription that follows; then the timers and the
    connection.  The timers of a stream run once it is subscribed. *)
Definition exec (w : world) (o : operation) : world :=
  match o with
  | open_stream client => {| hub_sets := hub_sets w; hub_clients := hub_clients w; streams := streams w ++ [new_stream client] |}
  | replay i rows =>
      match streams w !! i with
      | Some s => if not_started s then foldl (fun w r => write i (replayed r) w) w rows else w
      | None => w
      end
  | start i =>
      match streams w !! i with
      | Some s =>
          if not_started s then
            let '(ref, w) := subscribe (sc_tenantId (st_client s)) i w in update_stream i (set_unsubscribe ref) w
          else w
      | None => w
      end
  | publish_event tenantId event => publish tenantId event w
  | send_ping i =>
      match streams w !! i with
      | Some s => if not_started s then w else write i ping w
      | None => w
      end
  | expire i =>
      match streams w !! i with
      | Some s => if not_started s then w else doCleanup i (write i auth_expired w)
      | None => w
      end
  | cancel i => doCleanup i w
  | break_connection i => update_stream i set_broken w
  end.

Definition exec_all (w : world) (os : list operation) : world := foldl exec w os.
