(* ===== verification/StreamSpec.v ===== *)
(** * What event streams guarantee

    The hub of shared sets is a refinement of streams that know nothing of each
    other; and a stream cancelled during its replay is never forgotten. *)

From S2P Require Import Prelude JsString Sql Effects Constants Tenancy Rbac CheckService Streams.
Local Open Scope string_scope.
Local Open Scope list_scope.

(** ** Streams on their own *)

(** What a stream is when the hub is left out: started or not, with no set. *)
Record view := { vw_client : SSEClient; vw_closed : bool; vw_started : bool; vw_broken : bool; vw_written : list chunk }.

Definition observe (s : stream) : view :=
  {| vw_client := st_client s; vw_closed := st_closed s; vw_started := negb (not_started s); vw_broken := st_broken s;
     vw_written := st_written s |}.

Definition close_view (v : view) : view :=
  {| vw_client := vw_client v; vw_closed := true; vw_started := vw_started v; vw_broken := vw_broken v; vw_written := vw_written v |}.
Definition start_view (v : view) : view :=
  {| vw_client := vw_client v; vw_closed := vw_closed v; vw_started := true; vw_broken := vw_broken v; vw_written := vw_written v |}.
Definition break_view (v : view) : view :=
  {| vw_client := vw_client v; vw_closed := vw_closed v; vw_started := vw_started v; vw_broken := true; vw_written := vw_written v |}.

(** A chunk reaches an open stream, and closes one whose connection broke. *)
Definition take_chunk (v : view) (k : chunk) : view :=
  if vw_closed v then v
  else if vw_broken v then close_view v
  else {| vw_client := vw_client v; vw_closed := false; vw_started := vw_started v; vw_broken := false;
          vw_written := vw_written v ++ [k] |}.

(** The step of the stream [i]: an event of its tenant reaches it, once it has
    started, exactly when its client may see it. *)
Definition view_step (o : operation) (i : nat) (v : view) : view :=
  match o with
  | open_stream _ => v
  | replay j rows => if Nat.eqb i j && negb (vw_started v) then foldl take_chunk v (map replayed rows) else v
  | start j => if Nat.eqb i j then start_view v else v
  | publish_event t e =>
      if vw_started v && String.eqb (sc_tenantId (vw_client v)) t && clientShouldReceive (vw_client v) e
      then take_chunk v (message e) else v
  | send_ping j => if Nat.eqb i j && vw_started v then take_chunk v ping else v
  | expire j => if Nat.eqb i j && vw_started v then close_view (take_chunk v auth_expired) else v
  | cancel j => if Nat.eqb i j then close_view v else v
  | break_connection j => if Nat.eqb i j then break_view v else v
  end.

Definition views_step (vs : list view) (o : operation) : list view :=
  match o with
  | open_stream c => vs ++ [observe (new_stream c)]
  | _ => imap (view_step o) vs
  end.

(** ** The effect of the hub's functions on streams *)

Definition taken (k : chunk) (s : stream) : stream :=
  if st_closed s then s else if st_broken s then set_closed s else add_chunk k s.

Definition delivered (event : EventPayload) (s : stream) : stream :=
  if clientShouldReceive (st_client s) event then taken (message event) s else s.

Lemma observe_taken k s : observe (taken k s) = take_chunk (observe s) k.
Proof. destruct s as [c [] u [] l]; reflexivity. Qed.

Lemma alter_fixed {A} (f : A -> A) i (l : list A) : (forall x, l !! i = Some x -> f x = x) -> alter f i l = l.
Proof.
  intros Hf. apply list_eq. intros j. destruct (decide (i = j)) as [<-|Hij].
  - rewrite list_lookup_alter_eq. destruct (l !! i) as [x|] eqn:E; [|done]. cbn. by rewrite Hf.
  - rewrite list_lookup_alter_ne by done. done.
Qed.

Lemma set_closed_closed s : st_closed s = true -> set_closed s = s.
Proof. destruct s; cbn. by intros ->. Qed.

Lemma streams_doCleanup i w : streams (doCleanup i w) = alter set_closed i (streams w).
Proof.
  unfold doCleanup. destruct (streams w !! i) as [s|] eqn:E.
  - destruct (st_closed s) eqn:Ec; [symmetry; apply alter_fixed; intros x; rewrite E; intros [= <-]; by apply set_closed_closed|].
    destruct (st_unsubscribe s); done.
  - symmetry. apply alter_fixed. by rewrite E.
Qed.

Lemma alter_at {A} (f g : A -> A) i (l : list A) x : l !! i = Some x -> f x = g x -> alter f i l = alter g i l.
Proof.
  intros Hl Hf. apply list_eq. intros j. destruct (decide (i = j)) as [<-|Hij].
  - rewrite !list_lookup_alter_eq, Hl. cbn. by rewrite Hf.
  - by rewrite !list_lookup_alter_ne.
Qed.

Lemma streams_write i k w : streams (write i k w) = alter (taken k) i (streams w).
Proof.
  unfold write. destruct (streams w !! i) as [s|] eqn:E; [|symmetry; apply alter_fixed; by rewrite E].
  destruct (st_closed s) eqn:Ec; [symmetry; apply alter_fixed; intros x; rewrite E; intros [= <-]; unfold taken; by rewrite Ec|].
  destruct (st_broken s) eqn:Eb; [rewrite streams_doCleanup|]; apply (alter_at _ _ _ _ _ E); unfold taken; by rewrite Ec, Eb.
Qed.

Lemma streams_send_to e w i : streams (send_to e w i) = alter (delivered e) i (streams w).
Proof.
  unfold send_to. destruct (streams w !! i) as [s|] eqn:E; [|symmetry; apply alter_fixed; by rewrite E].
  destruct (clientShouldReceive (st_client s) e) eqn:Er.
  - rewrite streams_write. apply (alter_at _ _ _ _ _ E). unfold delivered. by rewrite Er.
  - symmetry. apply alter_fixed. rewrite E. intros x [= <-]. unfold delivered. by rewrite Er.
Qed.

(** ** The invariant of the hub *)

(** The tenant's set holds started streams of that tenant, each once. *)
Definition holds_streams (w : world) (t : string) (ref : nat) : Prop :=
  exists l, hub_sets w !! ref = Some l /\ l <> [] /\ NoDup l /\
    forall i, i ∈ l -> exists s, streams w !! i = Some s /\ st_unsubscribe s = Some ref /\ sc_tenantId (st_client s) = t.

(** A stream that started and is open is in its tenant's set. *)
Definition is_listed (w : world) (i : nat) (s : stream) : Prop :=
  forall ref, st_unsubscribe s = Some ref ->
    hub_clients w !! sc_tenantId (st_client s) = Some ref /\ exists l, hub_sets w !! ref = Some l /\ i ∈ l.

Record hub_ok (w : world) : Prop := {
  ok_sets : forall t ref, hub_clients w !! t = Some ref -> holds_streams w t ref;
  ok_listed : forall i s, streams w !! i = Some s -> st_closed s = false -> is_listed w i s
}.

Lemma empty_world_ok : hub_ok empty_world.
Proof. split; cbn; [intros t ref; by rewrite lookup_empty|intros i s; by rewrite lookup_nil]. Qed.

(** Two tenants never share a set. *)
Lemma sets_apart w t t' ref : hub_ok w -> hub_clients w !! t = Some ref -> hub_clients w !! t' = Some ref -> t = t'.
Proof.
  intros Hok (l & Hl & Hne & _ & Hi)%(ok_sets _ Hok) (l' & Hl' & _ & _ & Hi')%(ok_sets _ Hok).
  assert (l' = l) as -> by congruence. destruct l as [|i l]; [done|].
  destruct (Hi i) as (s & Es & _ & <-); [left|]. destruct (Hi' i) as (s' & Es' & _ & <-); [left|]. by simplify_eq.
Qed.

(** A change of streams alone which keeps their place in the hub. *)
Lemma hub_ok_streams w f i :
  (forall s, st_client (f s) = st_client s) -> (forall s, st_unsubscribe (f s) = st_unsubscribe s) ->
  (forall s, st_closed (f s) = false -> st_closed s = false) ->
  hub_ok w -> hub_ok (update_stream i f w).
Proof.
  intros Hc Hu Hcl Hok. split.
  - intros t ref (l & Hl & Hne & Hnd & Hi)%(ok_sets _ Hok). exists l. split_and!; try done.
    intros j (s & Es & Eu & Et)%Hi. cbn. destruct (decide (i = j)) as [<-|].
    + exists (f s). rewrite list_lookup_alter_eq, Es, Hu, Hc. done.
    + exists s. by rewrite list_lookup_alter_ne.
  - intros j s'. cbn. destruct (decide (i = j)) as [<-|].
    + rewrite list_lookup_alter_eq. intros (s & Es & ->)%fmap_Some Ho ref.
      rewrite Hu, Hc. by apply (ok_listed _ Hok i s Es), Hcl.
    + rewrite list_lookup_alter_ne by done. apply (ok_listed _ Hok).
Qed.

Lemma members_without i l : NoDup l -> NoDup (List.filter (fun j => negb (Nat.eqb i j)) l).
Proof.
  intros Hnd. induction Hnd as [|j l Hj Hnd IH]; cbn; [constructor|].
  destruct (negb _); [|done]. constructor; [|done]. rewrite list_elem_of_In, filter_In, <- list_elem_of_In. tauto.
Qed.

Lemma elem_of_without i j l : j ∈ List.filter (fun j => negb (Nat.eqb i j)) l <-> j ∈ l /\ i <> j.
Proof. rewrite !list_elem_of_In, filter_In, negb_true_iff, Nat.eqb_neq. done. Qed.

(** Closing a started stream takes it out of its tenant's set. *)
Lemma doCleanup_ok i w : hub_ok w -> hub_ok (doCleanup i w).
Proof.
  intros Hok. unfold doCleanup. destruct (streams w !! i) as [s|] eqn:Es; [|done].
  destruct (st_closed s) eqn:Ec; [done|].
  assert (Hok' : hub_ok (update_stream i set_closed w)) by by apply hub_ok_streams.
  destruct (st_unsubscribe s) as [ref|] eqn:Eu; [|done].
  destruct (ok_listed _ Hok i s Es Ec ref Eu) as [Hm (l & Hl & Hil)].
  unfold unsubscribe. cbn. rewrite Hl. cbn. set (l' := List.filter _ l). split.
  - intros t ref'. cbn. intros Ht.
    assert (Ht' : hub_clients w !! t = Some ref').
    { case_bool_decide; [|done]. by apply lookup_delete_Some in Ht as [_ ?]. }
    destruct (ok_sets _ Hok' t ref' Ht') as (l0 & Hl0 & Hne & Hnd & Hi). cbn in Hl0, Hi.
    destruct (decide (ref' = ref)) as [->|Hr].
    + simplify_eq. assert (t = sc_tenantId (st_client s)) as -> by by eapply sets_apart.
      exists l'. cbn. rewrite list_lookup_insert_eq by by eapply lookup_lt_Some.
      split_and!; [done|..].
      * intros E. rewrite bool_decide_true in Ht by done. by rewrite lookup_delete_eq in Ht.
      * by apply members_without.
      * intros j [Hj _]%elem_of_without. by apply Hi.
    + exists l0. cbn. rewrite list_lookup_insert_ne by done. done.
  - intros j s'. cbn. intros Es' Ec' ref' Eu'.
    destruct (ok_listed _ Hok' j s' Es' Ec' ref' Eu') as [Hm' (l0 & Hl0 & Hj)]. cbn in Hm', Hl0.
    assert (Hij : i <> j).
    { intros <-. cbn in Es'. rewrite list_lookup_alter_eq, Es in Es'. cbn in Es'. by simplify_eq. }
    destruct (decide (ref' = ref)) as [->|Hr].
    + simplify_eq. assert (Hj' : j ∈ l') by by apply elem_of_without. split.
      * rewrite bool_decide_false; [done|]. intros E. rewrite E in Hj'. by apply not_elem_of_nil in Hj'.
      * exists l'. cbn. by rewrite list_lookup_insert_eq by by eapply lookup_lt_Some.
    + split.
      * cbn. case_bool_decide; [|done]. rewrite lookup_delete_ne; [done|]. intros E. rewrite E in Hm. congruence.
      * exists l0. cbn. by rewrite list_lookup_insert_ne.
Qed.

Lemma write_ok i k w : hub_ok w -> hub_ok (write i k w).
Proof.
  intros Hok. unfold write. destruct (streams w !! i) as [s|]; [|done]. destruct (st_closed s); [done|].
  destruct (st_broken s); [by apply doCleanup_ok|by apply hub_ok_streams].
Qed.

Lemma send_to_ok e i w : hub_ok w -> hub_ok (send_to e w i).
Proof. intros Hok. unfold send_to. destruct (streams w !! i); [|done]. case_match; [by apply write_ok|done]. Qed.

Lemma foldl_ok {A} (f : world -> A -> world) l w : (forall w a, hub_ok w -> hub_ok (f w a)) -> hub_ok w -> hub_ok (foldl f w l).
Proof. intros Hf. revert w. induction l as [|a l IH]; intros w Hok; [done|]. by apply IH, Hf. Qed.

(** Starting a stream puts it in its tenant's set. *)
Section starting.
Context (w : world) (i : nat) (s : stream).
Hypothesis Hok : hub_ok w.
Hypothesis Es : streams w !! i = Some s.
Hypothesis En : st_unsubscribe s = None.

Definition with_unsubscribe (ref : nat) : list stream := alter (set_unsubscribe ref) i (streams w).

Lemma started_stream ref : with_unsubscribe ref !! i = Some (set_unsubscribe ref s).
Proof using Es. unfold with_unsubscribe. by rewrite list_lookup_alter_eq, Es. Qed.

Lemma others_held ref ref' t (l : list nat) :
  (forall j, j ∈ l -> exists s, streams w !! j = Some s /\ st_unsubscribe s = Some ref' /\ sc_tenantId (st_client s) = t) ->
  forall j, j ∈ l -> exists s', with_unsubscribe ref !! j = Some s' /\ st_unsubscribe s' = Some ref' /\ sc_tenantId (st_client s') = t.
Proof using Es En.
  intros Hl j (s' & Es' & Eu' & Et')%Hl. exists s'. unfold with_unsubscribe. rewrite list_lookup_alter_ne; [done|].
  intros <-. congruence.
Qed.

Lemma start_known_set ref :
  hub_clients w !! sc_tenantId (st_client s) = Some ref ->
  hub_ok {| hub_sets := alter (fun l => if existsb (Nat.eqb i) l then l else l ++ [i]) ref (hub_sets w);
            hub_clients := hub_clients w; streams := with_unsubscribe ref |}.
Proof using Hok Es En.
  intros Em. destruct (ok_sets _ Hok _ _ Em) as (l & Hl & Hne & Hnd & Hi).
  assert (Hil : i ∉ l). { intros (s' & Es' & Eu' & _)%Hi. congruence. }
  assert (Eb : existsb (Nat.eqb i) l = false).
  { apply not_true_iff_false. intros (j & Hj & <-%Nat.eqb_eq)%existsb_exists. by apply Hil, list_elem_of_In. }
  assert (Hnew : alter (fun l => if existsb (Nat.eqb i) l then l else l ++ [i]) ref (hub_sets w) !! ref = Some (l ++ [i])).
  { rewrite list_lookup_alter_eq, Hl. cbn. by rewrite Eb. }
  split.
  - intros t ref'. cbn. intros Ht. destruct (decide (ref' = ref)) as [->|Hr].
    + assert (t = sc_tenantId (st_client s)) as -> by by eapply sets_apart.
      exists (l ++ [i]). cbn. split_and!; [done|by destruct l|..].
      * apply NoDup_app. split_and!; [done|by intros j Hj ->%list_elem_of_singleton|apply NoDup_singleton].
      * intros j [Hj| ->%list_elem_of_singleton]%elem_of_app; [by eapply others_held|].
        exists (set_unsubscribe ref s). by rewrite started_stream.
    + destruct (ok_sets _ Hok _ _ Ht) as (l0 & Hl0 & Hne0 & Hnd0 & Hi0). exists l0. cbn.
      rewrite list_lookup_alter_ne by done. split_and!; [done..|]. by apply others_held.
  - intros j s'. cbn. destruct (decide (i = j)) as [<-|Hij].
    + rewrite started_stream. intros [= <-] Ho ref' [= <-]. split; [done|]. exists (l ++ [i]). split; [done|set_solver].
    + unfold with_unsubscribe. rewrite list_lookup_alter_ne by done. intros Es' Ho ref' Eu'. cbn.
      destruct (ok_listed _ Hok j s' Es' Ho ref' Eu') as [Hm' (l0 & Hl0 & Hj)]. split; [done|].
      destruct (decide (ref' = ref)) as [->|Hr]; [|exists l0; by rewrite list_lookup_alter_ne by done].
      assert (l0 = l) as -> by congruence. exists (l ++ [i]). split; [done|set_solver].
Qed.

Lemma start_new_set :
  hub_clients w !! sc_tenantId (st_client s) = None ->
  let ref := length (hub_sets w) in
  hub_ok {| hub_sets := hub_sets w ++ [[i]]; hub_clients := <[sc_tenantId (st_client s) := ref]> (hub_clients w);
            streams := with_unsubscribe ref |}.
Proof using Hok Es En.
  intros Em ref. split.
  - intros t ref'. cbn. destruct (decide (t = sc_tenantId (st_client s))) as [->|Ht].
    + rewrite lookup_insert_eq. intros [= <-]. exists [i]. cbn. split_and!.
      * by apply list_lookup_middle.
      * done.
      * apply NoDup_singleton.
      * intros j ->%list_elem_of_singleton. exists (set_unsubscribe ref s). by rewrite started_stream.
    + rewrite lookup_insert_ne by done. intros Hm. destruct (ok_sets _ Hok _ _ Hm) as (l0 & Hl0 & Hne0 & Hnd0 & Hi0).
      exists l0. cbn. split_and!; [by apply lookup_app_l_Some|done..|]. by apply others_held.
  - intros j s'. cbn. destruct (decide (i = j)) as [<-|Hij].
    + rewrite started_stream. intros [= <-] Ho ref' [= <-]. cbn. rewrite lookup_insert_eq. split; [done|].
      exists [i]. split; [by apply list_lookup_middle|left].
    + unfold with_unsubscribe. rewrite list_lookup_alter_ne by done. intros Es' Ho ref' Eu'. cbn.
      destruct (ok_listed _ Hok j s' Es' Ho ref' Eu') as [Hm' (l0 & Hl0 & Hj)]. split.
      * rewrite lookup_insert_ne; [done|]. intros E. rewrite E in Em. congruence.
      * exists l0. split; [by apply lookup_app_l_Some|done].
Qed.
End starting.

Lemma start_ok i w : hub_ok w -> hub_ok (exec w (start i)).
Proof.
  intros Hok. cbn. destruct (streams w !! i) as [s|] eqn:Es; [|done].
  destruct (not_started s) eqn:En; [|done]. apply bool_decide_eq_true in En.
  unfold subscribe. destruct (hub_clients w !! sc_tenantId (st_client s)) as [ref|] eqn:Em;
    [exact (start_known_set w i s Hok Es En ref Em)|exact (start_new_set w i s Hok Es En Em)].
Qed.

Lemma exec_ok w o : hub_ok w -> hub_ok (exec w o).
Proof.
  intros Hok. destruct o as [c|i rows|i|t e|i|i|i|i]; [|..|by apply start_ok| | | | |]; cbn.
  - split.
    + intros t ref (l & Hl & Hne & Hnd & Hi)%(ok_sets _ Hok). exists l. split_and!; try done.
      intros j (s & Es & Hs)%Hi. exists s. by split; [apply lookup_app_l_Some|].
    + intros j s. cbn. rewrite lookup_app. destruct (streams w !! j) eqn:E.
      * intros [= <-]. by apply (ok_listed _ Hok).
      * intros Es%list_lookup_singleton_Some Hc ref. destruct Es as [_ <-]. done.
  - destruct (streams w !! i); [|done]. destruct (not_started _); [|done]. apply foldl_ok; [|done]. intros. by apply write_ok.
  - unfold publish. destruct (hub_clients w !! t); [|done]. apply foldl_ok; [|done]. intros. by apply send_to_ok.
  - destruct (streams w !! i); [|done]. destruct (not_started _); [done|]. by apply write_ok.
  - destruct (streams w !! i); [|done]. destruct (not_started _); [done|]. by apply doCleanup_ok, write_ok.
  - by apply doCleanup_ok.
  - by apply hub_ok_streams.
Qed.

Lemma exec_all_ok os w : hub_ok w -> hub_ok (exec_all w os).
Proof. apply foldl_ok. intros. by apply exec_ok. Qed.

(** ** Streams and views *)

Lemma streams_foldl {A} (f : world -> A -> world) (g : A -> list stream -> list stream) l w :
  (forall w a, streams (f w a) = g a (streams w)) -> streams (foldl f w l) = foldl (fun ss a => g a ss) (streams w) l.
Proof. intros Hf. revert w. induction l as [|a l IH]; intros w; [done|]. cbn. by rewrite IH, Hf. Qed.

Lemma alter_alter {A} (f g : A -> A) i (l : list A) : alter f i (alter g i l) = alter (fun x => f (g x)) i l.
Proof.
  apply list_eq. intros j. destruct (decide (i = j)) as [<-|Hij]; [|by rewrite !list_lookup_alter_ne].
  rewrite !list_lookup_alter_eq. by destruct (l !! i).
Qed.

Lemma taken_all (ks : list chunk) i (ss : list stream) :
  foldl (fun ss k => alter (taken k) i ss) ss ks = alter (fun s => foldl (fun s k => taken k s) s ks) i ss.
Proof.
  revert ss. induction ks as [|k ks IH]; intros ss; cbn; [symmetry; by apply alter_fixed|]. by rewrite IH, alter_alter.
Qed.

Lemma observe_taken_all ks s : observe (foldl (fun s k => taken k s) s ks) = foldl take_chunk (observe s) ks.
Proof. revert s. induction ks as [|k ks IH]; intros s; cbn; [done|]. by rewrite IH, observe_taken. Qed.

(** An alteration of one stream and the view's step. *)
Lemma observe_alter (f : stream -> stream) (g : nat -> view -> view) i (ss : list stream) :
  (forall j v, i <> j -> g j v = v) -> (forall s, ss !! i = Some s -> observe (f s) = g i (observe s)) ->
  observe <$> alter f i ss = imap g (observe <$> ss).
Proof.
  intros Hne Hi. apply list_eq. intros j. rewrite list_lookup_imap, !list_lookup_fmap. destruct (decide (i = j)) as [<-|Hij].
  - rewrite list_lookup_alter_eq. destruct (ss !! i) as [s|] eqn:E; [|done]. cbn. by rewrite Hi.
  - rewrite list_lookup_alter_ne by done. destruct (ss !! j) as [s|]; [|done]. cbn. by rewrite Hne.
Qed.

Lemma observe_still (g : nat -> view -> view) (ss : list stream) :
  (forall j s, ss !! j = Some s -> g j (observe s) = observe s) -> observe <$> ss = imap g (observe <$> ss).
Proof.
  intros Hg. apply list_eq. intros j. rewrite list_lookup_imap, list_lookup_fmap.
  destruct (ss !! j) as [s|] eqn:E; [|done]. cbn. by rewrite (Hg j s E).
Qed.

(** An alteration of the streams of a set, each once. *)
Lemma lookup_alter_all (f : stream -> stream) (l : list nat) (ss : list stream) j :
  NoDup l -> foldl (fun ss i => alter f i ss) ss l !! j = if decide (j ∈ l) then f <$> (ss !! j) else ss !! j.
Proof.
  intros Hnd. revert ss. induction Hnd as [|i l Hi Hnd IH]; intros ss; cbn [foldl]; [by rewrite decide_False by apply not_elem_of_nil|].
  rewrite IH. destruct (decide (i = j)) as [<-|Hij].
  - rewrite decide_False by done. rewrite decide_True by left. by rewrite list_lookup_alter_eq.
  - rewrite list_lookup_alter_ne by done. destruct (decide (j ∈ l)), (decide (j ∈ i :: l)); set_solver.
Qed.

(** An event reaches the streams of its tenant's set, so every started stream of
    that tenant which is open. *)
Lemma lookup_publish t e w j s :
  hub_ok w -> streams w !! j = Some s ->
  observe <$> (streams (publish t e w) !! j) = Some (view_step (publish_event t e) j (observe s)).
Proof.
  intros Hok Es.
  assert (Hstay : (st_unsubscribe s <> None -> sc_tenantId (st_client s) = t -> st_closed s = true) ->
                  view_step (publish_event t e) j (observe s) = observe s).
  { intros Hs. cbn. unfold not_started. case_bool_decide as Eu; cbn; [done|].
    destruct (String.eqb_spec (sc_tenantId (st_client s)) t) as [Et|]; cbn; [|done].
    destruct (clientShouldReceive _ _); [|done]. unfold take_chunk. cbn. by rewrite Hs. }
  unfold publish. destruct (hub_clients w !! t) as [ref|] eqn:Em.
  - destruct (ok_sets _ Hok _ _ Em) as (l & Hl & Hne & Hnd & Hi). rewrite Hl. cbn [default].
    rewrite (streams_foldl _ (fun i => alter (delivered e) i)) by (intros; apply streams_send_to).
    unfold default, id. rewrite lookup_alter_all by done. rewrite Es. case_decide as Hj.
    + destruct (Hi j Hj) as (s' & Es' & Eu & Et). simplify_eq. cbn. unfold not_started. rewrite Eu, bool_decide_false by done.
      cbn. rewrite String.eqb_refl. cbn. unfold delivered. destruct (clientShouldReceive _ _); [|done]. by rewrite observe_taken.
    + cbn [fmap option_fmap option_map]. rewrite Hstay; [done|]. intros Hu Et. apply not_false_is_true. intros Ec.
      destruct (st_unsubscribe s) as [ref'|] eqn:Eu; [|done]. subst t.
      destruct (ok_listed _ Hok j s Es Ec ref' Eu) as [Hm (l' & Hl' & Hj')]. apply Hj. congruence.
  - rewrite Es. cbn [fmap option_fmap option_map]. rewrite Hstay; [done|]. intros Hu Et. apply not_false_is_true. intros Ec.
    destruct (st_unsubscribe s) as [ref'|] eqn:Eu; [|done]. subst t.
    destruct (ok_listed _ Hok j s Es Ec ref' Eu) as [Hm _]. congruence.
Qed.

Lemma foldl_replayed rows i w :
  streams (foldl (fun w r => write i (replayed r) w) w rows) = alter (fun s => foldl (fun s k => taken k s) s (map replayed rows)) i (streams w).
Proof.
  rewrite (streams_foldl _ (fun r => alter (taken (replayed r)) i)) by (intros; apply streams_write).
  rewrite <- taken_all. generalize (streams w). induction rows as [|r rows IH]; intros ss; [done|]. apply IH.
Qed.

Lemma neqb_ne i j : j <> i -> Nat.eqb i j = false.
Proof. intros Hij. by apply Nat.eqb_neq. Qed.

Lemma started_view s : vw_started (observe s) = negb (not_started s).
Proof. done. Qed.

(** An operation on the stream [i], if [b] allows it. *)
Lemma observe_guarded w w' i o (b : stream -> bool) (f : stream -> stream) :
  (forall j v, j <> i -> view_step o j v = v) ->
  (forall s, streams w !! i = Some s -> observe (if b s then f s else s) = view_step o i (observe s)) ->
  (forall s, streams w !! i = Some s -> streams w' = if b s then alter f i (streams w) else streams w) ->
  (streams w !! i = None -> w' = w) ->
  observe <$> streams w' = imap (view_step o) (observe <$> streams w).
Proof.
  intros Hne Hi Hsome Hnone. destruct (streams w !! i) as [s|] eqn:Es.
  - rewrite (Hsome s eq_refl). specialize (Hi s eq_refl). destruct (b s).
    + apply observe_alter; [intros j v ?; by apply Hne|]. intros s' Es'. by simplify_eq.
    + apply observe_still. intros j s' Es'. destruct (decide (j = i)) as [->|]; [by simplify_eq|by apply Hne].
  - rewrite (Hnone eq_refl). apply observe_still. intros j s' Es'. apply Hne. congruence.
Qed.

Lemma length_publish t e w : length (streams (publish t e w)) = length (streams w).
Proof.
  unfold publish. destruct (hub_clients w !! t) as [ref|]; [|done].
  rewrite (streams_foldl _ (fun i => alter (delivered e) i)) by (intros; apply streams_send_to).
  generalize (streams w), (default [] (hub_sets w !! ref)). intros ss l. revert ss.
  induction l as [|i l IH]; intros ss; [done|]. cbn. by rewrite IH, length_alter.
Qed.

Lemma publish_views t e w :
  hub_ok w -> observe <$> streams (publish t e w) = imap (view_step (publish_event t e)) (observe <$> streams w).
Proof.
  intros Hok. apply list_eq. intros j. rewrite list_lookup_imap, !list_lookup_fmap. destruct (streams w !! j) as [s|] eqn:Es.
  - by rewrite (lookup_publish t e w j s Hok Es).
  - apply lookup_ge_None in Es. rewrite <- (length_publish t e) in Es. apply lookup_ge_None in Es. by rewrite Es.
Qed.

Lemma streams_start i w s :
  streams w !! i = Some s -> not_started s = true ->
  exists ref, streams (exec w (start i)) = alter (set_unsubscribe ref) i (streams w).
Proof. intros Es En. cbn. rewrite Es, En. unfold subscribe. destruct (hub_clients w !! _); by eexists. Qed.

(** A step of the world is that of each view. *)
Lemma exec_views w o : hub_ok w -> observe <$> streams (exec w o) = views_step (observe <$> streams w) o.
Proof.
  intros Hok.
  destruct o as [c|i rows|i|t e|i|i|i|i]; cbn [views_step].
  - cbn. by rewrite fmap_app.
  - apply (observe_guarded _ _ i _ not_started (fun s => foldl (fun s k => taken k s) s (map replayed rows)));
      [intros j v ?; cbn; by rewrite neqb_ne|intros s _; cbn -[observe]|intros s Es; cbn; rewrite Es|cbn; by intros ->].
    + rewrite Nat.eqb_refl, started_view. destruct (not_started s); [apply observe_taken_all|done].
    + destruct (not_started s); [apply foldl_replayed|done].
  - destruct (streams w !! i) as [s|] eqn:Es; [|cbn; rewrite Es; apply observe_still; intros j s' Es'; cbn; by rewrite neqb_ne by congruence].
    destruct (not_started s) eqn:En.
    + destruct (streams_start i w s Es En) as [ref ->]. apply observe_alter; [intros j v ?; cbn; by rewrite neqb_ne|].
      intros s' Es'. cbn -[observe]. by rewrite Nat.eqb_refl.
    + cbn. rewrite Es, En. apply observe_still. intros j s' Es'. cbn -[observe]. destruct (Nat.eqb_spec j i) as [->|]; [|done].
      simplify_eq. unfold start_view, observe. cbn. by rewrite En.
  - by apply publish_views.
  - apply (observe_guarded _ _ i _ (fun s => negb (not_started s)) (taken ping));
      [intros j v ?; cbn; by rewrite neqb_ne|intros s _; cbn -[observe]|intros s Es; cbn; rewrite Es|cbn; by intros ->].
    + rewrite Nat.eqb_refl, started_view. destruct (not_started s); [done|apply observe_taken].
    + destruct (not_started s); [done|apply streams_write].
  - apply (observe_guarded _ _ i _ (fun s => negb (not_started s)) (fun s => set_closed (taken auth_expired s)));
      [intros j v ?; cbn; by rewrite neqb_ne|intros s _; cbn -[observe]|intros s Es; cbn; rewrite Es|cbn; by intros ->].
    + rewrite Nat.eqb_refl, started_view. destruct (not_started s); [done|]. cbn [negb andb]. by rewrite <- observe_taken.
    + destruct (not_started s); [done|]. by rewrite streams_doCleanup, streams_write, alter_alter.
  - apply (observe_guarded _ _ i _ (fun _ => true) set_closed);
      [intros j v ?; cbn; by rewrite neqb_ne|intros s _; cbn -[observe]; by rewrite Nat.eqb_refl|intros; apply streams_doCleanup|].
    cbn. unfold doCleanup. by intros ->.
  - apply observe_alter; [intros j v ?; cbn; by rewrite neqb_ne|]. intros s' _. cbn -[observe]. by rewrite Nat.eqb_refl.
Qed.

(** ** A stream left behind *)

(** The stream [i] of the tenant [t] has ended and is in its tenant's set. *)
Definition left_behind (i : nat) (t : string) (w : world) : Prop :=
  exists ref s l, streams w !! i = Some s /\ st_closed s = true /\ sc_tenantId (st_client s) = t /\ st_unsubscribe s = Some ref /\
    hub_clients w !! t = Some ref /\ hub_sets w !! ref = Some l /\ i ∈ l.

Lemma left_streams i t w f j :
  (forall s, st_client (f s) = st_client s) -> (forall s, st_unsubscribe (f s) = st_unsubscribe s) ->
  (forall s, st_closed s = true -> st_closed (f s) = true) ->
  left_behind i t w -> left_behind i t (update_stream j f w).
Proof.
  intros Hc Hu Hcl (ref & s & l & Es & Ec & Et & Eu & Em & El & Hi). destruct (decide (i = j)) as [<-|Hij].
  - exists ref, (f s), l. cbn. rewrite list_lookup_alter_eq, Es, Hc, Hu, Hcl by done. done.
  - exists ref, s, l. cbn. by rewrite list_lookup_alter_ne.
Qed.

Lemma left_doCleanup i t j w : hub_ok w -> left_behind i t w -> left_behind i t (doCleanup j w).
Proof.
  intros Hok Hleft. unfold doCleanup. destruct (streams w !! j) as [s'|] eqn:Es'; [|done].
  destruct (st_closed s') eqn:Ec'; [done|].
  assert (Hleft' : left_behind i t (update_stream j set_closed w)) by by apply left_streams.
  destruct (st_unsubscribe s') as [ref'|] eqn:Eu'; [|done].
  destruct (ok_listed _ Hok j s' Es' Ec' ref' Eu') as [Hm (l' & Hl' & Hj)].
  assert (Hij : j <> i). { destruct Hleft as (? & s & ? & Es & Ec & _). intros ->. congruence. }
  destruct Hleft' as (ref & s & l & Es & Ec & Et & Eu & Em & El & Hi). cbn in Em, El.
  unfold unsubscribe. cbn. rewrite Hl'. cbn. set (l'' := List.filter _ l').
  destruct (decide (ref' = ref)) as [->|Hr].
  - assert (l' = l) as -> by congruence. assert (Hi' : i ∈ l'') by by apply elem_of_without.
    exists ref, s, l''. cbn. rewrite list_lookup_insert_eq by by eapply lookup_lt_Some. split_and!; try done.
    rewrite bool_decide_false; [done|]. intros E. rewrite E in Hi'. by apply not_elem_of_nil in Hi'.
  - exists ref, s, l. cbn. rewrite list_lookup_insert_ne by done. split_and!; try done.
    case_bool_decide; [|done]. rewrite lookup_delete_ne; [done|]. intros E. congruence.
Qed.

Lemma left_write i t j k w : hub_ok w -> left_behind i t w -> left_behind i t (write j k w).
Proof.
  intros Hok Hleft. unfold write. destruct (streams w !! j) as [s|]; [|done]. destruct (st_closed s); [done|].
  destruct (st_broken s); [by apply left_doCleanup|by apply left_streams].
Qed.

Lemma left_foldl {A} i t (f : world -> A -> world) l w :
  (forall w a, hub_ok w -> hub_ok (f w a)) -> (forall w a, hub_ok w -> left_behind i t w -> left_behind i t (f w a)) ->
  hub_ok w -> left_behind i t w -> left_behind i t (foldl f w l).
Proof.
  intros Hf Hg. revert w. induction l as [|a l IH]; intros w Hok Hleft; [done|]. apply IH; [by apply Hf|by apply Hg].
Qed.

Lemma left_exec i t w o : hub_ok w -> left_behind i t w -> left_behind i t (exec w o).
Proof.
  intros Hok Hleft. destruct o as [c|j rows|j|t' e|j|j|j|j]; cbn.
  - destruct Hleft as (ref & s & l & Es & ?). exists ref, s, l. split; [by apply lookup_app_l_Some|done].
  - destruct (streams w !! j); [|done]. destruct (not_started _); [|done].
    apply left_foldl; [intros; by apply write_ok|intros; by apply left_write|done..].
  - destruct (streams w !! j) as [s'|] eqn:Es'; [|done]. destruct (not_started s') eqn:En; [|done].
    apply bool_decide_eq_true in En. destruct Hleft as (ref & s & l & Es & Ec & Et & Eu & Em & El & Hi).
    assert (Hij : j <> i) by congruence. unfold subscribe.
    destruct (hub_clients w !! sc_tenantId (st_client s')) as [ref'|] eqn:Em'; cbn.
    + destruct (decide (ref' = ref)) as [->|Hr].
      * exists ref, s, (if existsb (Nat.eqb j) l then l else l ++ [j]). cbn.
        rewrite list_lookup_alter_ne, list_lookup_alter_eq, El by done. split_and!; try done. destruct (existsb _ l); set_solver.
      * exists ref, s, l. cbn. by rewrite !list_lookup_alter_ne.
    + exists ref, s, l. cbn. rewrite list_lookup_alter_ne by done. split_and!; try done; [|by apply lookup_app_l_Some].
      rewrite lookup_insert_ne; [done|]. congruence.
  - unfold publish. destruct (hub_clients w !! t'); [|done].
    apply left_foldl; [intros; by apply send_to_ok|intros w0 a Hok0 Hleft0|done..].
    unfold send_to. destruct (streams w0 !! a); [|done]. case_match; [by apply left_write|done].
  - destruct (streams w !! j); [|done]. destruct (not_started _); [done|by apply left_write].
  - destruct (streams w !! j); [|done]. destruct (not_started _); [done|]. by apply left_doCleanup, left_write; [apply write_ok|..].
  - by apply left_doCleanup.
  - by apply left_streams.
Qed.

Lemma left_count i t w : left_behind i t w -> (0 < clientCount t w)%nat.
Proof.
  intros (ref & s & l & _ & _ & _ & _ & Em & El & Hi). unfold clientCount. rewrite Em, El. cbn.
  destruct l; [by apply not_elem_of_nil in Hi|cbn; lia].
Qed.

Lemma left_exec_all i t os w : hub_ok w -> left_behind i t w -> left_behind i t (exec_all w os).
Proof. intros Hok Hleft. apply left_foldl; [intros; by apply exec_ok|intros; by apply left_exec|done..]. Qed.

(** A client that started is in its tenant's set right after. *)
Lemma start_left i s w :
  hub_ok w -> streams w !! i = Some s -> st_closed s = true -> st_unsubscribe s = None ->
  left_behind i (sc_tenantId (st_client s)) (exec w (start i)).
Proof.
  intros Hok Es Ec Eu. cbn. rewrite Es. unfold not_started. rewrite bool_decide_true by done. unfold subscribe.
  destruct (hub_clients w !! sc_tenantId (st_client s)) as [ref|] eqn:Em; cbn.
  - destruct (ok_sets _ Hok _ _ Em) as (l & Hl & _).
    exists ref, (set_unsubscribe ref s), (if existsb (Nat.eqb i) l then l else l ++ [i]). cbn.
    rewrite !list_lookup_alter_eq, Es, Hl. split_and!; try done.
    destruct (existsb (Nat.eqb i) l) eqn:E; [|set_solver]. apply existsb_exists in E as (j & Hj & ->%Nat.eqb_eq). by apply list_elem_of_In.
  - set (n := length (hub_sets w)). exists n, (set_unsubscribe n s), [i]. cbn. rewrite list_lookup_alter_eq, Es, lookup_insert_eq.
    split_and!; try done; [by apply list_lookup_middle|left].
Qed.

(** A client that disconnects while the events it missed are still being read
    is subscribed all the same when they have been: its stream has ended already,
    so its clean-up never runs again, and whatever happens from then on, the hub
    goes on counting it among the tenant's connected clients. *)
Theorem cancelled_replay_leaks (os later : list operation) (i : nat) (s : stream)
  (Hstream : streams (exec_all empty_world os) !! i = Some s)
  (Hreplaying : not_started s = true) :
  (0 < clientCount (sc_tenantId (st_client s)) (exec_all empty_world (os ++ [cancel i; start i] ++ later)))%nat.
Proof.
  unfold exec_all. rewrite !foldl_app. fold (exec_all empty_world os).
  pose proof (exec_all_ok os _ empty_world_ok) as Hok. set (w := exec_all empty_world os) in *.
  apply (left_count i), left_exec_all; [by apply exec_ok, exec_ok|]. cbn [foldl].
  apply (start_left i (set_closed s) (exec w (cancel i))).
  - by apply exec_ok.
  - cbn. by rewrite streams_doCleanup, list_lookup_alter_eq, Hstream.
  - done.
  - by apply bool_decide_eq_true in Hreplaying.
Qed.

(** ** What a member is sent *)

(** What a stream's caller may see: all of its tenant, or its own projects. *)
Definition own_project (c : AuthContext) (db : tenancy_db) (p : string) : Prop :=
  exists m, m ∈ project_members db /\ pmb_project_id m = p /\ pmb_user_id m = au_userId c /\ pmb_tenant_id m = au_tenantId c.

Definition reads_tenant (c : AuthContext) : bool := with_role (au_role c) (fun r => canPerform r "events.read_tenant" no_context).

Definition member_projects (c : AuthContext) (db : tenancy_db) : list string :=
  map pmb_project_id (List.filter (fun m => String.eqb (pmb_user_id m) (au_userId c) && String.eqb (pmb_tenant_id m) (au_tenantId c))
    (project_members db)).

Lemma member_projects_own c db p : p ∈ member_projects c db -> own_project c db p.
Proof.
  unfold member_projects, own_project. rewrite list_elem_of_In, in_map_iff.
  intros (m & <- & [Hm [Hu%String.eqb_eq Ht%String.eqb_eq]%andb_prop]%filter_In).
  exists m. by rewrite list_elem_of_In.
Qed.

Lemma stream_client_run c f s client s' :
  returns (stream_client c f) s client s' ->
  s' = s /\ client = {| sc_tenantId := au_tenantId c; sc_hasTenantEventAccess := reads_tenant c;
                        sc_allowedProjects := if reads_tenant c then None else Some (member_projects c s.2); sc_projectFilter := f |}.
Proof.
  unfold stream_client, resolveAllowedProjects. fold (reads_tenant c). destruct (reads_tenant c) eqn:E; intros Hr; by run_inv.
Qed.

Section routes.
Context `{Formats}.

Lemma project_access_param c s r s' :
  returns (requireProjectAccess c true) s (inl r) s' -> s' = s /\ is_uuid r.1 = true.
Proof.
  unfold requireProjectAccess, requireResolvedProjectAccess, resolveProjectWithAccess, checkProjectAccess, http_bind.
  unfold validateUuidParam. intros Hr. destruct (au_param c "project_id") as [p|]; [|by run_inv].
  destruct (is_uuid p) eqn:Eu; unfold okResult, errorResult in Hr; run_inv.
  destruct (head _); [|by run_inv]. destruct (hasImplicitProjectAccess _); run_inv; [done|].
  destruct (existsb _ _) eqn:E; by run_inv.
Qed.

(** A member that opens the stream of a project belongs to it. *)
Lemma project_access_own c s r s' :
  hasImplicitProjectAccess (au_role c) = false -> returns (requireProjectAccess c true) s (inl r) s' ->
  s' = s /\ own_project c s.2 r.1 /\ au_param c "project_id" = Some r.1.
Proof.
  intros Hi. unfold requireProjectAccess, requireResolvedProjectAccess, resolveProjectWithAccess, checkProjectAccess, http_bind.
  rewrite Hi. unfold validateUuidParam. intros Hr. destruct (au_param c "project_id") as [p|]; [|by run_inv].
  destruct (is_uuid p); unfold okResult, errorResult in Hr; run_inv.
  destruct (head _); run_inv. destruct (existsb _ _) eqn:E; run_inv.
  split_and!; try done. apply existsb_exists in E as (m & Hm & [[Hp%String.eqb_eq Ht%String.eqb_eq]%andb_prop Hu%String.eqb_eq]%andb_prop).
  exists m. by rewrite list_elem_of_In.
Qed.

(** The client of a stream the caller may open. *)
Definition may_open (c : AuthContext) (s : nat * tenancy_db) (client : SSEClient) : Prop :=
  exists s', returns (tenant_stream_route c) s (inl client) s' \/ returns (project_stream_route c) s (inl client) s'.

Lemma restricted_is_member c : reads_tenant c = false -> hasImplicitProjectAccess (au_role c) = false.
Proof. unfold reads_tenant, hasImplicitProjectAccess, with_role. destruct (tenant_role _) as [[]|]; done. Qed.

Lemma may_open_client c s client :
  may_open c s client ->
  exists f, client = {| sc_tenantId := au_tenantId c; sc_hasTenantEventAccess := reads_tenant c;
                        sc_allowedProjects := if reads_tenant c then None else Some (member_projects c s.2); sc_projectFilter := f |}
    /\ forall p, f = Some p -> is_uuid p = true /\ (reads_tenant c = false -> own_project c s.2 p).
Proof.
  intros [s' [Hr|Hr]].
  - unfold tenant_stream_route, okResult, errorResult in Hr. destruct (with_role _ _); [|by run_inv].
    apply returns_bind in Hr as (cl & s1 & Hc & Hr). apply stream_client_run in Hc as [-> ->]. run_inv. by exists None.
  - unfold project_stream_route, http_bind, okResult, errorResult in Hr. destruct (with_role _ _); [|by run_inv].
    apply returns_bind in Hr as ([a|err] & s1 & Ha & Hr); [|by run_inv].
    apply returns_bind in Hr as (cl & s2 & Hc & Hr). apply stream_client_run in Hc as [-> ->]. run_inv.
    destruct (project_access_param c s a s1 Ha) as [-> Hu]. exists (Some a.1). split; [done|]. intros p [= <-]. split; [done|].
    intros Ht. by destruct (project_access_own c s a s (restricted_is_member c Ht) Ha) as (_ & Ho & _).
Qed.

(** What a route's client receives. *)
Lemma received_own c s client e :
  may_open c s client -> reads_tenant c = false -> clientShouldReceive client e = true ->
  exists p, ep_project_id e = Some p /\ own_project c s.2 p.
Proof.
  intros (f & -> & Hf)%may_open_client Ht. unfold clientShouldReceive. cbn -[reads_tenant]. destruct f as [p|].
  - intros He%bool_decide_eq_true. exists p. split; [done|]. by apply (Hf p).
  - rewrite Ht. destruct (ep_project_id e) as [p|]; [|done]. intros (q & Hq & <-%String.eqb_eq)%existsb_exists.
    exists p. split; [done|]. by apply member_projects_own, list_elem_of_In.
Qed.
End routes.

(** ** The messages of a view *)

(** Where a chunk of the i-th stream comes from. *)
Definition chunk_sourced (os : list operation) (i : nat) (client : SSEClient) (k : chunk) : Prop :=
  match k with
  | message e => publish_event (sc_tenantId client) e ∈ os /\ clientShouldReceive client e = true
  | replayed r => exists rows, replay i rows ∈ os /\ r ∈ rows
  | _ => True
  end.

Definition chunks_sourced (os : list operation) (i : nat) (v : view) : Prop :=
  forall k, k ∈ vw_written v -> chunk_sourced os i (vw_client v) k.

Lemma take_chunk_client v k : vw_client (take_chunk v k) = vw_client v.
Proof. unfold take_chunk. by destruct (vw_closed v), (vw_broken v). Qed.

Lemma take_chunk_sourced os i v k : chunk_sourced os i (vw_client v) k -> chunks_sourced os i v -> chunks_sourced os i (take_chunk v k).
Proof.
  intros Hk Hv k'. rewrite take_chunk_client. unfold take_chunk. destruct (vw_closed v); [apply Hv|].
  destruct (vw_broken v); [apply Hv|]. cbn. intros [Hk'| ->%list_elem_of_singleton]%elem_of_app; [by apply Hv|done].
Qed.

Lemma replayed_sourced os i rows v :
  (forall r, r ∈ rows -> exists rows, replay i rows ∈ os /\ r ∈ rows) -> chunks_sourced os i v ->
  chunks_sourced os i (foldl take_chunk v (map replayed rows)).
Proof.
  revert v. induction rows as [|r rows IH]; intros v Hr Hv; [done|]. cbn. apply IH; [intros; apply Hr; by apply list_elem_of_further|].
  apply take_chunk_sourced; [|done]. apply Hr, list_elem_of_here.
Qed.

Lemma view_step_sourced os o i v : o ∈ os -> chunks_sourced os i v -> chunks_sourced os i (view_step o i v).
Proof.
  intros Ho Hv. destruct o as [c|j rows|j|t e|j|j|j|j]; cbn; try case_match; try done;
    repeat match goal with K : _ && _ = true |- _ => apply andb_prop in K as [? ?] end.
  - match goal with K : Nat.eqb _ _ = true |- _ => apply Nat.eqb_eq in K as -> end. apply replayed_sourced; [|done]. intros r Hr. by exists rows.
  - apply take_chunk_sourced; [|done]. match goal with K : String.eqb _ _ = true |- _ => apply String.eqb_eq in K as <- end. done.
  - by apply take_chunk_sourced.
  - change (chunks_sourced os i (take_chunk v auth_expired)). by apply take_chunk_sourced.
Qed.

Lemma views_sourced os i v : foldl views_step [] os !! i = Some v -> chunks_sourced os i v.
Proof.
  revert i v. induction os as [|o os IH] using rev_ind; intros i v; [cbn; by rewrite lookup_nil|]. rewrite foldl_snoc.
  assert (Hmore : forall i v, chunks_sourced os i v -> chunks_sourced (os ++ [o]) i v).
  { intros i0 v0 Hv0 k Hk. specialize (Hv0 k Hk). destruct k; cbn in *; try done.
    - destruct Hv0 as (rows & ? & ?). exists rows. split; [set_solver|done].
    - destruct Hv0. split; [set_solver|done]. }
  assert (Himap : imap (view_step o) (foldl views_step [] os) !! i = Some v -> chunks_sourced (os ++ [o]) i v).
  { rewrite list_lookup_imap. intros (v0 & Hv0 & ->)%fmap_Some. apply view_step_sourced; [set_solver|]. by eapply Hmore, IH. }
  destruct o; try exact Himap. cbn. rewrite lookup_app. destruct (foldl views_step [] os !! i) as [v0|] eqn:E.
  - intros [= <-]. by eapply Hmore, IH.
  - intros [_ <-]%list_lookup_singleton_Some k. cbn. by intros ->%list_elem_of_singleton.
Qed.

Lemma exec_all_views os w : hub_ok w -> observe <$> streams (exec_all w os) = foldl views_step (observe <$> streams w) os.
Proof.
  revert w. induction os as [|o os IH]; intros w Hok; [done|]. cbn. rewrite IH by by apply exec_ok. by rewrite exec_views.
Qed.

(** C7: Streams share one hub, in which a client whose connection broke leaves a
    set while an event is sent to that set; yet after any operations, in any
    order, each stream is what it would be on its own: it took the chunks that
    were replayed to it, the pings, and of the events published to any tenant
    exactly those of its own tenant which its client may see and which came
    between its subscription and its end. *)
Theorem streams_refine_views (os : list operation) :
  observe <$> streams (exec_all empty_world os) = foldl views_step [] os.
Proof. exact (exec_all_views os empty_world empty_world_ok). Qed.

Section confined.
Context `{Formats}.

(** A row of the missed events is of the client's tenant, and of a project of a caller
    without tenant access. *)
Lemma missed_own `{SqlOrder} c s client cursor table r :
  may_open c s client -> r ∈ missed_events client cursor table ->
  r ∈ table /\ ev_tenant_id r = au_tenantId c /\
  (reads_tenant c = false -> exists p, ev_project_id r = Some p /\ own_project c s.2 p).
Proof.
  intros (f & -> & Hf)%may_open_client Hr. unfold missed_events in Hr. destruct cursor as [at_|]; [|by apply not_elem_of_nil in Hr].
  case_bool_decide; [by apply not_elem_of_nil in Hr|].
  apply elem_of_take in Hr as (j & Hj%list_elem_of_lookup_2 & _). apply order_by_elem_of, elem_of_filter_b in Hj as [Hin Hp].
  apply andb_prop in Hp as [[Ht%String.eqb_eq _]%andb_prop Hp]. cbn [sc_tenantId sc_projectFilter sc_allowedProjects sc_hasTenantEventAccess] in *.
  split; [done|]. split; [done|]. intros Hno. rewrite Hno in Hp. destruct (present f) as [p|] eqn:Ef.
  - apply bool_decide_eq_true in Hp. exists p. split; [done|]. apply present_some in Ef as [-> _]. by apply Hf.
  - cbn in Hp. apply existsb_exists in Hp as (p & Hin' & Hp%bool_decide_eq_true). exists p. split; [done|].
    by apply member_projects_own, list_elem_of_In.
Qed.

(** C8: A stream shows its caller only events of its own tenant: those it is sent live
    were published to the tenant, and those replayed to it, when the rows its opening
    replays are the missed events of some cursor, are stored events of the tenant.  And
    a caller that may not read all events of the tenant is sent, live or replayed, only
    events of the projects it belonged to when the stream was opened, whichever of the
    two routes it came by and whatever else happens to this stream and the others. *)
Theorem member_streams_confined `{SqlOrder} (c : AuthContext) (s : nat * tenancy_db) (client : SSEClient) (os : list operation) (i : nat) (st : stream)
  (Hopened : may_open c s client)
  (Hstream : streams (exec_all empty_world os) !! i = Some st)
  (Hclient : st_client st = client)
  (Hreplays : forall rows, replay i rows ∈ os -> exists cursor table, rows = missed_events client cursor table) :
  (forall e, message e ∈ st_written st ->
     publish_event (au_tenantId c) e ∈ os /\ (reads_tenant c = false -> exists p, ep_project_id e = Some p /\ own_project c s.2 p)) /\
  (forall r, replayed r ∈ st_written st ->
     ev_tenant_id r = au_tenantId c /\ (reads_tenant c = false -> exists p, ev_project_id r = Some p /\ own_project c s.2 p)).
Proof.
  assert (Hs : chunks_sourced os i (observe st)).
  { apply views_sourced. change [] with (observe <$> streams empty_world).
    by rewrite <- exec_all_views, list_lookup_fmap, Hstream by exact empty_world_ok. }
  split.
  - intros e He. destruct (Hs _ He) as [Hp Hr]. cbn in Hp, Hr. rewrite Hclient in Hp, Hr. split; [|intros Ht; by eapply received_own].
    by destruct (may_open_client c s client Hopened) as (f & -> & _).
  - intros r Hr. destruct (Hs _ Hr) as (rows & Hin & Hrow). destruct (Hreplays rows Hin) as (cursor & table & ->).
    destruct (missed_own c s client cursor table r Hopened Hrow) as (_ & Ht & Hown). by split.
Qed.

(** ** Replay and live events *)

Lemma own_member_project c db p : own_project c db p -> p ∈ member_projects c db.
Proof.
  intros (m & Hm & <- & Hu & Ht). unfold member_projects. apply list_elem_of_In, in_map, filter_In.
  by rewrite <- list_elem_of_In, Hu, Ht, !String.eqb_refl.
Qed.

Lemma order_by_nil `{SqlOrder} {A} (key : A -> Z) : order_by key [] = [].
Proof. apply Permutation_nil_r, order_by_perm. Qed.

Lemma existsb_some_project (o : option string) l :
  existsb (fun p => bool_decide (o = Some p)) l = match o with Some p => existsb (String.eqb p) l | None => false end.
Proof.
  induction l as [|q l IH]; cbn; [by destruct o|]. rewrite IH. destruct o as [p|]; [|by rewrite bool_decide_false].
  f_equal. destruct (String.eqb_spec p q) as [->|]; [by rewrite bool_decide_true|]. rewrite bool_decide_false; [done|]. congruence.
Qed.

(** C9: The events a reconnecting client is sent from the tables are, oldest first
    and a hundred at most, exactly those after its cursor that it would have been
    sent live: the condition of the query and the hub's own are the same. *)
Theorem replay_agrees_with_live `{SqlOrder} (payload : event_row -> EventPayload) (c : AuthContext) (s : nat * tenancy_db)
  (client : SSEClient) (at_ : timestamp) (rows : list event_row)
  (Huuid : is_uuid EmptyString = false)
  (Hpayload : forall r, ep_project_id (payload r) = ev_project_id r)
  (Hopened : may_open c s client) :
  missed_events client (Some at_) rows =
  take 100 (order_by ev_created_at (List.filter (fun r => String.eqb (ev_tenant_id r) (au_tenantId c) && (at_ <? ev_created_at r)%Z
    && clientShouldReceive client (payload r)) rows)).
Proof.
  destruct (may_open_client c s client Hopened) as (f & -> & Hf). unfold missed_events, clientShouldReceive.
  cbn [sc_tenantId sc_hasTenantEventAccess sc_allowedProjects sc_projectFilter]. case_bool_decide as Hnone.
  - destruct Hnone as [Ht Ha]. rewrite Ht in Ha |- *. injection Ha as Ha. destruct f as [p|].
    + destruct (Hf p eq_refl) as [_ Ho]. apply Ho, own_member_project in Ht. rewrite Ha in Ht. by apply not_elem_of_nil in Ht.
    + rewrite (filter_ext _ (fun _ => false)), filter_false, order_by_nil; [done|]. intros r. rewrite Ha, andb_false_iff. right.
      by destruct (ep_project_id _).
  - do 2 f_equal. apply filter_ext. intros r. f_equal. rewrite Hpayload. destruct f as [p|].
    + rewrite (proj2 (present_some (Some p) p)); [done|]. split; [done|]. intros ->. destruct (Hf EmptyString eq_refl). congruence.
    + cbn [present]. destruct (reads_tenant c); [done|]. cbn.
      apply existsb_some_project.
Qed.
End confined.

(** ** Concrete streams *)

Definition stream_example_formats : Formats := {| is_uuid s := negb (String.eqb s EmptyString); is_email _ := true |}.

(** A member of the tenant "T", which belongs to the project "P". *)
Definition stream_example_caller : AuthContext :=
  {| au_tenantId := "T"; au_tenantKind := "customer"; au_userId := "u"; au_role := "member";
     au_param := fun name => if String.eqb name "project_id" then Some "P" else None |}.

Definition stream_example_tables : tenancy_db :=
  {| memberships := []; projects := [{| pj_id := "P"; pj_tenant_id := "T"; pj_name := "p"; pj_effective_to := VALID_TO_INFINITY |}];
     project_members := [{| pmb_id := "pm"; pmb_project_id := "P"; pmb_tenant_id := "T"; pmb_user_id := "u" |}];
     project_tokens := []; tenant_entitlements := [] |}.

Definition stream_example_client : SSEClient :=
  {| sc_tenantId := "T"; sc_hasTenantEventAccess := false; sc_allowedProjects := Some ["P"]; sc_projectFilter := None |}.

Definition stream_example_event (project : option string) : EventPayload :=
  {| ep_id := "e"; ep_tenant_id := "T"; ep_project_id := project; ep_source := "policy_engine"; ep_event_type := "proxy_request";
     ep_proxy_id := "px"; ep_ecosystem := "npm"; ep_package := "left-pad"; ep_version := "1.0.0"; ep_decision := "allow";
     ep_reason := None; ep_serve_mode := None; ep_decision_cache := None; ep_bytes_transferred := None; ep_trace_id := None; ep_span_id := None; ep_request_id := None;
     ep_requested_ref := None; ep_resolved_ref := None; ep_ref_resolution_source := None; ep_project_token_id := None;
     ep_client_ip := None; ep_proxy_ip := None; ep_requested_at := "t"; ep_created_at := "t";
     ep_cve_severity := None; ep_fix_version := None |}.

(** An event of the project [project], stored at the time [at_]. *)
Definition stream_example_row (project : option string) (at_ : Z) : event_row :=
  {| ev_id := "e"; ev_tenant_id := "T"; ev_project_id := project; ev_proxy_id := "px"; ev_package_id := None;
     ev_package_version_id := None; ev_decision := "allow"; ev_reason := None; ev_source := "policy_engine";
     ev_event_type := "proxy_request"; ev_trace_id := None; ev_span_id := None; ev_request_id := None; ev_serve_mode := None;
     ev_project_token_id := None; ev_client_ip := None; ev_proxy_ip := None;
     ev_raw_identity := None; ev_decision_cache := None; ev_bytes_transferred := None; ev_duration_ms := None; ev_decision_path := None;
     ev_requested_ref := None; ev_resolved_ref := None; ev_ref_resolution_source := None; ev_requested_at := at_; ev_created_at := at_ |}.

Definition stream_example_rows : list event_row :=
  [stream_example_row (Some "P") 9; stream_example_row None 7; stream_example_row (Some "P") 3; stream_example_row (Some "P") 6].

(** The stream misses events, is sent those since the time 5, and then live ones. *)
Definition stream_example_run : list operation :=
  [open_stream stream_example_client; replay 0 (missed_events stream_example_client (Some 5%Z) stream_example_rows); start 0;
   publish_event "T" (stream_example_event None); publish_event "T" (stream_example_event (Some "P"));
   publish_event "U" (stream_example_event (Some "P"))].

Definition stream_example_end : stream :=
  {| st_client := stream_example_client; st_closed := false; st_unsubscribe := Some 0%nat; st_broken := false;
     st_written := [connected; replayed (stream_example_row (Some "P") 6); replayed (stream_example_row (Some "P") 9);
                    message (stream_example_event (Some "P"))] |}.

Lemma stream_example_opened : @may_open stream_example_formats stream_example_caller (0%nat, stream_example_tables) stream_example_client.
Proof. exists (0%nat, stream_example_tables). left. vm_compute. reflexivity. Qed.

Lemma member_streams_confined_witness :
  publish_event "T" (stream_example_event (Some "P")) ∈ stream_example_run /\
  (exists p, ep_project_id (stream_example_event (Some "P")) = Some p /\ own_project stream_example_caller stream_example_tables p) /\
  exists p, ev_project_id (stream_example_row (Some "P") 9) = Some p /\ own_project stream_example_caller stream_example_tables p.
Proof.
  destruct (@member_streams_confined stream_example_formats _ stream_example_caller (0%nat, stream_example_tables) stream_example_client
    stream_example_run 0%nat stream_example_end stream_example_opened) as [Hlive Hreplayed].
  - vm_compute. reflexivity.
  - reflexivity.
  - intros rows Hin. unfold stream_example_run in Hin.
    repeat (apply elem_of_cons in Hin as [Hin|Hin]; [first [discriminate Hin|injection Hin as Hin; exists (Some 5%Z), stream_example_rows; exact Hin]|]). by apply not_elem_of_nil in Hin.
  - destruct (Hlive (stream_example_event (Some "P"))) as [Hp Hown]; [do 3 apply list_elem_of_further; apply list_elem_of_here|].
    destruct (Hreplayed (stream_example_row (Some "P") 9)) as [_ Hown']; [do 2 apply list_elem_of_further; apply list_elem_of_here|].
    split; [exact Hp|]. split; [apply Hown; reflexivity|apply Hown'; reflexivity].
Defined.

Lemma replay_agrees_with_live_witness :
  [stream_example_row (Some "P") 6; stream_example_row (Some "P") 9] =
  take 100 (order_by ev_created_at (List.filter (fun r => String.eqb (ev_tenant_id r) "T" && (5 <? ev_created_at r)%Z
    && clientShouldReceive stream_example_client (stream_example_event (ev_project_id r))) stream_example_rows)).
Proof.
  rewrite <- (@replay_agrees_with_live stream_example_formats _ (fun r => stream_example_event (ev_project_id r)) stream_example_caller
    (0%nat, stream_example_tables) stream_example_client 5%Z stream_example_rows).
  - vm_compute. reflexivity.
  - reflexivity.
  - reflexivity.
  - apply stream_example_opened.
Defined.

Lemma cancelled_replay_leaks_witness :
  (0 < clientCount "T" (exec_all empty_world ([open_stream stream_example_client] ++ [cancel 0; start 0] ++ [expire 0; cancel 0])))%nat.
Proof.
  apply (cancelled_replay_leaks [open_stream stream_example_client] [expire 0; cancel 0] 0%nat (new_stream stream_example_client)).
  - reflexivity.
  - reflexivity.
Defined.
