(* ===== verification/Registry.v ===== *)
(** * The connector registry (services/api/src/connectors/registry.ts)

    The connectors an installation runs, as one type that implements the
    connector interface by dispatch, and the registration of their field
    catalogues in the connector_fields table at startup. *)

From S2P Require Import Prelude JsString JsNum JsValue Sql ConnectorTypes Resolver Osv Contributor Intelligence.
Local Open Scope string_scope.
Local Open Scope list_scope.

Inductive connector : Type :=
| an_osv (c : OsvConnector)
| a_contributor (c : ContributorConnector)
| an_intelligence (c : IntelligenceConnector).

#[export] Instance connector_interface : PackageIntelligenceConnector connector := {
  connector_id c := match c with
    | an_osv c => connector_id c | a_contributor c => connector_id c | an_intelligence c => connector_id c end;
  cacheTtlSeconds c := match c with
    | an_osv c => cacheTtlSeconds c | a_contributor c => cacheTtlSeconds c
    | an_intelligence c => cacheTtlSeconds c end;
  supportedEcosystems c := match c with
    | an_osv c => supportedEcosystems c | a_contributor c => supportedEcosystems c
    | an_intelligence c => supportedEcosystems c end;
  subscribedEvents c := match c with
    | an_osv c => subscribedEvents c | a_contributor c => subscribedEvents c
    | an_intelligence c => subscribedEvents c end;
  readSnapshots c := match c with
    | an_osv c => readSnapshots c | a_contributor c => readSnapshots c
    | an_intelligence c => readSnapshots c end;
  supportsEvent c := match c with
    | an_osv c => supportsEvent c | a_contributor c => supportsEvent c
    | an_intelligence c => supportsEvent c end;
  normalizeToSnapshot c := match c with
    | an_osv c => normalizeToSnapshot c | a_contributor c => normalizeToSnapshot c
    | an_intelligence c => normalizeToSnapshot c end;
  getFieldCatalog c := match c with
    | an_osv c => getFieldCatalog c | a_contributor c => getFieldCatalog c
    | an_intelligence c => getFieldCatalog c end
}.

#[export] Instance connector_lawful : LawfulConnector connector.
Proof.
  constructor; intros [c|c|c].
  1-3: apply (snapshot_key c).
  1-3: apply (snapshot_identity c).
  1-3: apply (snapshot_status c).
  1-3: apply (snapshot_no_result c).
  1-3: apply (snapshot_fields_declared c).
  1-3: apply (snapshot_fields_NoDup c).
Qed.

(** The enabled flags of the three configurations. *)
Record connector_config := {
  osvConfig : option OsvConnector; contributorConfig : option ContributorConnector;
  intelligenceConfig : option IntelligenceConnector
}.

Definition buildConnectors (config : connector_config) : list connector :=
  from_option (fun c => [an_osv c]) [] (osvConfig config)
  ++ from_option (fun c => [a_contributor c]) [] (contributorConfig config)
  ++ from_option (fun c => [an_intelligence c]) [] (intelligenceConfig config).

(** ** The table connector_fields *)

Record connector_fields_row := { field : ConnectorField; deprecated : bool }.

Definition row_ref (r : connector_fields_row) : string := canonicalRef (field r).

(** [insert ... on conflict (canonical_ref) do update]: an existing row keeps its
    key, name and data type. *)
Definition updated_field (old new : ConnectorField) : ConnectorField :=
  {| cf_connectorKey := cf_connectorKey old; fieldKey := fieldKey old; canonicalRef := canonicalRef old;
     label := label new; cf_description := cf_description new; dataType := dataType old;
     cf_entityType := cf_entityType old; operators := operators new; enumValues := enumValues new |}.

Fixpoint upsert_field (rows : list connector_fields_row) (f : ConnectorField) : list connector_fields_row :=
  match rows with
  | [] => [{| field := f; deprecated := false |}]
  | r :: rows =>
      if String.eqb (row_ref r) (canonicalRef f)
      then {| field := updated_field (field r) f; deprecated := false |} :: rows
      else r :: upsert_field rows f
  end.

Definition activeCatalogRefs (connectors : list connector) : list string :=
  canonicalRef <$> (c ← connectors; getFieldCatalog c).

Definition deprecate_row (active : list string) (r : connector_fields_row) : connector_fields_row :=
  if negb (existsb (String.eqb (row_ref r)) active) && negb (deprecated r)
  then {| field := field r; deprecated := true |} else r.

Definition deprecateRemovedFields (connectors : list connector) (rows : list connector_fields_row)
  : list connector_fields_row :=
  let active := activeCatalogRefs connectors in
  match active with
  | [] => rows
  | _ => deprecate_row active <$> rows
  end.

Definition registerAllFields (connectors : list connector) (rows : list connector_fields_row)
  : list connector_fields_row :=
  deprecateRemovedFields connectors
    (foldl (fun rows c => foldl upsert_field rows (getFieldCatalog c)) rows connectors).

(** ** Lemmas *)

Lemma upsert_field_refs rows f ref :
  ref ∈ row_ref <$> upsert_field rows f <-> ref ∈ row_ref <$> rows \/ ref = canonicalRef f.
Proof.
  induction rows as [|r rows IH]; cbn [upsert_field]; [set_solver|].
  destruct (String.eqb_spec (row_ref r) (canonicalRef f)) as [E|E]; cbn; [|set_solver].
  unfold row_ref at 1. cbn. fold (row_ref r). rewrite E. set_solver.
Qed.

(** Which rows an upsert leaves active: the active ones and the upserted one. *)
Definition active_refs (rows : list connector_fields_row) : list string :=
  row_ref <$> List.filter (fun r => negb (deprecated r)) rows.

Lemma upsert_field_nodup rows f :
  NoDup (row_ref <$> rows) -> NoDup (row_ref <$> upsert_field rows f).
Proof.
  induction rows as [|r rows IH]; cbn [upsert_field]; [intros _; apply NoDup_singleton|].
  intros [Hr Hn]%NoDup_cons. destruct (String.eqb_spec (row_ref r) (canonicalRef f)) as [E|E]; cbn.
  - by constructor.
  - constructor; [|auto]. intros [H|H]%upsert_field_refs; done.
Qed.

Lemma upsert_field_active rows f ref :
  NoDup (row_ref <$> rows) ->
  ref ∈ active_refs (upsert_field rows f) <-> ref ∈ active_refs rows \/ ref = canonicalRef f.
Proof.
  unfold active_refs. induction rows as [|r rows IH]; cbn [upsert_field]; [set_solver|].
  intros [Hr Hn]%NoDup_cons. destruct (String.eqb_spec (row_ref r) (canonicalRef f)) as [E|E]; cbn.
  - unfold row_ref at 1. cbn. fold (row_ref r). rewrite E. destruct (deprecated r); cbn; rewrite ?E; set_solver.
  - destruct (deprecated r); cbn; rewrite ?elem_of_cons, IH by done; tauto.
Qed.

Lemma upsert_fields_active fs rows ref :
  NoDup (row_ref <$> rows) ->
  NoDup (row_ref <$> foldl upsert_field rows fs) /\
  (ref ∈ active_refs (foldl upsert_field rows fs) <->
   ref ∈ active_refs rows \/ ref ∈ canonicalRef <$> fs) /\
  (ref ∈ row_ref <$> foldl upsert_field rows fs <->
   ref ∈ row_ref <$> rows \/ ref ∈ canonicalRef <$> fs).
Proof.
  revert rows; induction fs as [|f fs IH]; intros rows Hn; cbn [foldl]; [set_solver|].
  destruct (IH (upsert_field rows f)) as (H1 & H2 & H3); [by apply upsert_field_nodup|].
  split; [done|]. rewrite H2, H3, upsert_field_active, upsert_field_refs by done. set_solver.
Qed.

Lemma register_fold connectors rows :
  foldl (fun rows c => foldl upsert_field rows (getFieldCatalog c)) rows connectors
  = foldl upsert_field rows (c ← connectors; getFieldCatalog c).
Proof.
  revert rows; induction connectors as [|c connectors IH]; intros rows; [done|].
  cbn [foldl mbind list_bind]. rewrite IH, foldl_app. done.
Qed.

(** ** Properties *)

(** Registration makes the table's active fields exactly the catalogues': after
    it, a field reference is active if and only if a connector declares it, every
    reference that was in the table is still there, and references stay unique. *)
Theorem registration_activates_catalog connectors rows ref :
  NoDup (row_ref <$> rows) -> activeCatalogRefs connectors <> [] ->
  let rows' := registerAllFields connectors rows in
  (ref ∈ active_refs rows' <-> ref ∈ activeCatalogRefs connectors) /\
  (ref ∈ row_ref <$> rows -> ref ∈ row_ref <$> rows') /\
  NoDup (row_ref <$> rows').
Proof.
  intros Hn Hne. unfold registerAllFields, deprecateRemovedFields. rewrite register_fold.
  destruct (upsert_fields_active (c ← connectors; getFieldCatalog c) rows ref Hn) as (H1 & H2 & H3).
  fold (activeCatalogRefs connectors) in H2, H3. revert H1 H2 H3.
  generalize (foldl upsert_field rows (c ← connectors; getFieldCatalog c)). intros rows2 H1 H2 H3.
  destruct (activeCatalogRefs connectors) as [|a active] eqn:Ha; [done|].
  set (act := a :: active) in *. clearbody act. cbv zeta.
  assert (Hrefs : row_ref <$> (deprecate_row act <$> rows2) = row_ref <$> rows2).
  { rewrite <- list_fmap_compose. apply list_fmap_ext. intros i r _. cbn. unfold deprecate_row. by case_match. }
  rewrite Hrefs. split; [|split; [intros ?; apply H3; by left|done]].
  assert (Hact : forall ref', ref' ∈ active_refs (deprecate_row act <$> rows2) <->
            ref' ∈ active_refs rows2 /\ ref' ∈ act).
  { intros ref'. unfold active_refs. rewrite !list_elem_of_fmap. setoid_rewrite elem_of_filter_b.
    setoid_rewrite list_elem_of_fmap. unfold deprecate_row. split.
    - intros (r & -> & (r0 & -> & Hr0) & Hd). destruct (existsb _ act) eqn:E; cbn in *.
      + split; [by exists r0|]. apply existsb_elem_of in E as (x & Hx & ->%String.eqb_eq). done.
      + by destruct (deprecated r0) eqn:Ed; cbn in *; rewrite ?Ed in Hd.
    - intros ((r & -> & Hr & Hd) & Hin). exists r. split; [done|]. split; [|done]. exists r. split; [|done].
      assert (E : existsb (String.eqb (row_ref r)) act = true).
      { apply existsb_elem_of. exists (row_ref r). split; [done|apply String.eqb_refl]. }
      by rewrite E. }
  rewrite Hact, H2. tauto.
Qed.

Lemma registration_activates_catalog_witness :
  let old := {| field := catalog_field "osv" "old" "source.osv.old" "Old" None "integer" [] None;
                deprecated := false |} in
  let rows := registerAllFields [an_osv {| osv_cacheTtlSeconds := 60 |}] [old] in
  ~ "source.osv.old" ∈ active_refs rows.
Proof.
  intros old rows Hin.
  assert (H := proj1 (proj1 (registration_activates_catalog [an_osv {| osv_cacheTtlSeconds := 60 |}] [old]
                "source.osv.old" (NoDup_singleton _) ltac:(discriminate))) Hin).
  revert H. apply (bool_decide_unpack _). vm_compute. exact I.
Defined.

(** The data fields the intelligence connector emits without declaring them. *)
Definition undeclared (c : connector) : list string :=
  match c with an_intelligence _ => ["llm_verdict"; "source"; "latency_ms"] | _ => [] end.

Definition declared_keys (c : connector) : list string := fieldKey <$> getFieldCatalog c.

(** The catalogue describes the snapshots: each entry's canonical reference is
    source.<connector>.<field>, keys are unique, and every data field a connector
    puts in a snapshot is declared in its catalogue, except the verdict, source and
    latency of the intelligence connector, which no rule builder can offer. *)
Theorem catalog_describes_snapshots c result ctx failure err now k v :
  (forall f, f ∈ getFieldCatalog c -> canonicalRef f = source_key (connector_id c) (fieldKey f)) /\
  NoDup (declared_keys c) /\
  ((k, v) ∈ fields (normalizeToSnapshot c result ctx failure err now) ->
   k ∈ declared_keys c \/ k ∈ undeclared c) /\
  (k ∈ undeclared c -> ~ k ∈ declared_keys c).
Proof.
  split; [|split; [|split]].
  - assert (H : forallb (fun f => String.eqb (canonicalRef f) (source_key (connector_id c) (fieldKey f)))
                  (getFieldCatalog c) = true) by (destruct c; vm_compute; reflexivity).
    rewrite forallb_elem_of in H. intros f Hf. by apply String.eqb_eq, H.
  - destruct c; apply (bool_decide_unpack _); vm_compute; exact I.
  - assert (Hall : forall fs, forallb (fun kv => existsb (String.eqb kv.1) (declared_keys c ++ undeclared c)) fs = true ->
              (k, v) ∈ fs -> k ∈ declared_keys c \/ k ∈ undeclared c).
    { intros fs H Hin. rewrite forallb_elem_of in H. specialize (H _ Hin). apply existsb_elem_of in H as (x & Hx & E).
      apply String.eqb_eq in E as <-. by apply elem_of_app. }
    apply Hall. destruct c, result, failure; reflexivity.
  - assert (H : forallb (fun u => negb (existsb (String.eqb u) (declared_keys c))) (undeclared c) = true)
      by (destruct c; reflexivity).
    rewrite forallb_elem_of in H. intros Hu Hd. specialize (H _ Hu). apply negb_true_iff in H.
    assert (Ht : existsb (String.eqb k) (declared_keys c) = true); [|congruence].
    apply existsb_elem_of. exists k. split; [done|apply String.eqb_refl].
Qed.
