(* ===== verification/Gateway.v ===== *)
(** * The check service with its connectors

    [handleCheck] with the connectors of the registry and the ingestion of the
    contributor slice a request carries (connect/check-service.ts,
    [maybePrefetchContributorSlice]); the guarantees of a check without the
    assumption on that ingestion. *)

From S2P Require Import Prelude JsString JsNum JsValue Sql Effects JsDate Identity Schema Tenancy Catalog ConnectorTypes Jsonb Cache Findings Snapshots Effective Decision Resolver Contributor Evaluation Ingestion Violations ViolationsCorrect CheckService Ticks IngestionSpec CheckSpec CheckRecords Osv Intelligence Registry.
Local Open Scope string_scope.
Local Open Scope list_scope.
Local Open Scope Z_scope.

(** The configuration of the registered contributor connector; only that connector
    has its identifier. *)
Definition contributorIngestionConfigFromConnectors (connectors : list connector) : option ContributorConnector :=
  match js_find (fun c => String.eqb (connector_id c) CONTRIBUTOR_ID) connectors with
  | Some (a_contributor c) => Some c
  | _ => None
  end.

Section gateway.
Context `{Env}.

(** The slice fingerprint stored with the facts of a version. *)
Definition existing_slice (identity : CanonicalPackageIdentity) (db : check_db) : option string :=
  '(v, _) ← head (List.filter
       (fun r => String.eqb (pk_ecosystem r.2) (id_ecosystem identity)
                 && String.eqb (pk_package r.2) (id_package identity) && opt_eq (id_version identity) (pv_version r.1))
       (inner_join (fun v p => String.eqb (pk_id p) (pv_package_id v))
          (package_versions (catalog_tables db)) (packages (catalog_tables db))));
  f ← head (List.filter (of_release (pv_id v)) (release_facts db));
  rf_contributor_slice_fingerprint f.

(** The slice as a manifest event. *)
Definition slice_event (identity : CanonicalPackageIdentity) (context : ContributorContext) : ContributorManifestEvent :=
  {| me_ecosystem := id_ecosystem identity; me_package := id_package identity;
     me_extractedAt := cx_slice_extracted_at context; me_fingerprint := cx_package_metadata_fingerprint context;
     me_packageMetadataFingerprint := cx_package_metadata_fingerprint context;
     me_sliceFingerprint := cx_slice_fingerprint context; me_requestedVersion := id_version identity;
     me_latestVersion := None; me_latestPublishedAt := None; me_historyComplete := cx_slice_history_complete context;
     me_oldestIncludedPublishedAt := cx_slice_oldest_included_published_at context;
     me_versions := map (fun v =>
       {| mv_version := cx_version v; mv_publishedAt := cx_published_at v; mv_publisher := cx_publisher v;
          mv_maintainers := cx_maintainers v; mv_hasInstallScripts := cx_has_install_scripts v;
          mv_hasAttestation := cx_has_attestation v; mv_rawPayloadJson := cx_raw_payload_json v |}) (cx_versions context) |}.

Definition maybePrefetchContributorSlice (req : CheckRequest) (connectors : list connector) : EM unit :=
  match cq_contributor_context req, contributorIngestionConfigFromConnectors connectors with
  | Some context, Some config =>
      let identity := canonicalizePackageIdentity (request_identity req) in
      match present (id_version identity) with
      | None => mret tt
      | Some _ =>
          existing ← gets (existing_slice identity);
          if bool_decide (is_Some (present (cx_slice_fingerprint context)))
             && bool_decide (existing = cx_slice_fingerprint context) then mret tt
          else
            _ ← attempt (ingestContributorMetadata (slice_event identity context) config);
            mret tt
      end
  | _, _ => mret tt
  end.

(** ** The slice never fails a check *)

Lemma prefetch_returns req connectors s : exists s', returns (maybePrefetchContributorSlice req connectors) s tt s'.
Proof.
  unfold maybePrefetchContributorSlice. destruct (cq_contributor_context req) as [context|]; [|by exists s].
  destruct (contributorIngestionConfigFromConnectors connectors) as [config|]; [|by exists s].
  destruct (present _); [|by exists s]. unfold returns, mbind, eff_bind, gets. cbn [fst snd].
  destruct (_ && _); [by exists s|]. unfold attempt. destruct (ingestContributorMetadata _ _ s) as [r s']. by exists s'.
Qed.

Lemma ingest_ticks event config : ticks (ingestContributorMetadata event config).
Proof.
  assert (Hcat : forall A (e : CM A), ticks e -> ticks (on_catalog e)) by (intros A e He; by apply ticks_zoom).
  apply ingest_keeps; [done| |].
  - intros. apply touch_keeps; intros; [apply Hcat|unfold on_package_facts]; ticks_walk.
  - intros m. apply ingestTx_keeps; [by exists (fun _ => True)|intros A e _ He; by apply Hcat|].
    intros. unfold on_package_facts, upsertContributorPackageFacts. ticks_walk.
Qed.

Lemma prefetch_ticks req connectors : ticks (maybePrefetchContributorSlice req connectors).
Proof.
  unfold maybePrefetchContributorSlice. destruct (cq_contributor_context req); [|ticks_walk].
  destruct (contributorIngestionConfigFromConnectors connectors); [|ticks_walk]. destruct (present _); [|ticks_walk].
  apply keeps_bind; [ticks_walk|]. intros existing. destruct (_ && _); [ticks_walk|].
  apply keeps_bind; [apply keeps_attempt, ingest_ticks|]. intros _. apply keeps_ret.
Qed.
End gateway.
