(* ===== verification/Preview.v ===== *)
(** * Policy previews (services/api/src/features/policy-preview/,
    features/mcp/services/package-guidance-service.ts, features/field-catalog/builtin-fields.ts)

    What a policy would decide of a package version, without a proxy asking: the
    preview of a project for the dashboard, the preview the MCP tools build on, the
    preview of a single condition, and the check of a condition's fields.  Bodies have
    passed their schemas. *)

From S2P Require Import Prelude JsString JsNum JsValue Jsonb Sql Effects Constants Identity Schema Tenancy Catalog Rbac RuleSchema Expression Effective Decision ConnectorTypes Cache Snapshots Resolver Evaluation Violations CheckService Registry.
Local Open Scope string_scope.
Local Open Scope list_scope.
Local Open Scope Z_scope.

Section previews.
Context `{Env} `{SqlOrder} `{Formats}.

(** ** The fields of a preview *)

(** The connectors the rules read, each once. *)
Definition rule_connectors (rules : list ResolvedRule) : res (list string) :=
  let! keys := map_res (fun rule => extractConnectorKeys (condition rule)) rules in Ok (set_of (concat keys)).

(** A snapshot made up for each connector without a stored one. *)
Fixpoint with_unavailable (storedSnapshots : list ConnectorSnapshot) (keys : list string) : GM (list ConnectorSnapshot) :=
  match keys with
  | [] => mret []
  | key :: keys =>
      if existsb (fun s => String.eqb (connectorKey s) key) storedSnapshots then with_unavailable storedSnapshots keys
      else now ← now_; rest ← with_unavailable storedSnapshots keys; mret (unavailableSnapshot key now :: rest)
  end.

(** The asset a preview is about: nothing is said of its release. *)
Definition preview_asset (ecosystem package version : string) : AssetContext :=
  {| a_ecosystem := ecosystem; a_pkg := package; a_version := version; versionPublishedAt := None; versionAgeDays := None;
     latestVersionPublishedAt := None |}.

Definition preview_input (ecosystem package version source : string) : ArtifactIdentityInput :=
  {| ai_input := {| i_ecosystem := ecosystem; i_package := package; i_version := Some version |}; ai_source := Some source;
     ai_parser_version := None |}.

Record preview_fields := { pf_stored : list ConnectorSnapshot; pf_all : list ConnectorSnapshot; pf_fields : fields_t }.

(** From the stored snapshots of the artifact to the fields of its rules. *)
Definition collect_preview_fields (projectId ecosystem package version : string) (artifact : ArtifactIdentity)
    (rules : list ResolvedRule) : GM preview_fields :=
  storedSnapshots ← on_check (on_snapshots (loadSnapshots projectId artifact "artifact"));
  connectorKeys ← of_res (rule_connectors rules);
  unavailable ← with_unavailable storedSnapshots connectorKeys;
  now ← now_;
  let allSnapshots := storedSnapshots ++ unavailable in
  mret {| pf_stored := storedSnapshots; pf_all := allSnapshots;
          pf_fields := resolveFields allSnapshots (preview_asset ecosystem package version) now |}.

Definition load_policy (tenantId projectId : string) : GM PolicySnapshot :=
  resolvedAt ← now_;
  snapshot ← gets (fun db => loadEffectivePolicy (policy_tables db) tenantId projectId resolvedAt);
  of_res snapshot.

(** ** The preview of a project (project-routes.ts) *)

Record RuleTrace := {
  rt_rule_id : string; rt_rule_name : string; rt_matched : bool; rt_action : jsval; rt_enforcement_mode : jsval;
  rt_trace : trace; rt_message : option string
}.

(** The loop's local variables. *)
Record preview_state := {
  ps_decision : string; ps_reason : jsval; ps_detail : jsval; ps_blockedBy : option string; ps_ruleTraces : list RuleTrace
}.

Definition preview_init : preview_state :=
  {| ps_decision := DECISION.ALLOW; ps_reason := JStr "no_match"; ps_detail := JStr EmptyString; ps_blockedBy := None;
     ps_ruleTraces := [] |}.

Definition default_message (rule : ResolvedRule) : string :=
  "Rule " +:+ String quote (name rule +:+ String quote " matched").

(** [result && action.message_template], rendered. *)
Definition preview_message (fields : fields_t) (rule : ResolvedRule) (result : bool) : res (option string) :=
  if negb result then Ok None
  else
    let! template := get_prop (action rule) "message_template" in
    if negb (truthy template) then Ok None
    else match template with JStr s => Ok (Some (renderTemplate s fields)) | _ => type_error end.

(** [message ?? action.message_template ?? "Rule ... matched"] *)
Definition preview_detail (rule : ResolvedRule) (message : option string) : jsval :=
  match message with
  | Some m => JStr m
  | None => nullish (action_field rule "message_template") (JStr (default_message rule))
  end.

Definition preview_rule (fields : fields_t) (st : preview_state) (rule : ResolvedRule) : res preview_state :=
  let! (result, trace) := evaluateConditionWithTrace (condition rule) fields in
  let! message := preview_message fields rule result in
  let traced := {| rt_rule_id := id rule; rt_rule_name := name rule; rt_matched := result; rt_action := action rule;
                   rt_enforcement_mode := effectiveEnforcementMode rule; rt_trace := trace; rt_message := message |} in
  let traces := ps_ruleTraces st ++ [traced] in
  if result && is_blocking (action_field rule "type") (effectiveEnforcementMode rule) && String.eqb (ps_decision st) DECISION.ALLOW
  then Ok {| ps_decision := DECISION.BLOCK; ps_reason := nullish (action_field rule "code") (JStr "violation");
             ps_detail := preview_detail rule message; ps_blockedBy := Some (id rule); ps_ruleTraces := traces |}
  else Ok {| ps_decision := ps_decision st; ps_reason := ps_reason st; ps_detail := ps_detail st;
             ps_blockedBy := ps_blockedBy st; ps_ruleTraces := traces |}.

Fixpoint preview_rules (fields : fields_t) (st : preview_state) (rules : list ResolvedRule) : res preview_state :=
  match rules with
  | [] => Ok st
  | rule :: rules => let! st := preview_rule fields st rule in preview_rules fields st rules
  end.

Record ProjectPreview := {
  pp_decision : string; pp_reason : jsval; pp_detail : jsval; pp_blocked_by_rule_id : option string;
  pp_policies_evaluated : nat; pp_rules_evaluated : nat; pp_rules_matched : nat; pp_field_map : fields_t;
  pp_rule_traces : list RuleTrace
}.

Record ProjectPreviewBody := {
  pb_ecosystem : string; pb_package : string; pb_version : string; pb_field_overrides : option (list (string * jsval))
}.

(** The answer for a project without rules. *)
Definition no_rules_preview : ProjectPreview :=
  {| pp_decision := DECISION.ALLOW; pp_reason := JStr "no_rules"; pp_detail := JStr "No active rules configured";
     pp_blocked_by_rule_id := None; pp_policies_evaluated := 0; pp_rules_evaluated := 0; pp_rules_matched := 0;
     pp_field_map := []; pp_rule_traces := [] |}.

Definition policy_preview (projectId tenantId : string) (body : ProjectPreviewBody) : GM ProjectPreview :=
  snapshot ← load_policy tenantId projectId;
  match allRules snapshot with
  | [] => mret no_rules_preview
  | rules =>
      let artifactIdentity :=
        buildArtifactIdentity (preview_input (pb_ecosystem body) (pb_package body) (pb_version body) "policy_preview") no_reference in
      collected ← collect_preview_fields projectId (pb_ecosystem body) (pb_package body) (pb_version body) artifactIdentity rules;
      let fields := match pb_field_overrides body with
                    | Some overrides => spread (pf_fields collected) overrides
                    | None => pf_fields collected
                    end in
      st ← of_res (preview_rules fields preview_init rules);
      mret {| pp_decision := ps_decision st; pp_reason := ps_reason st; pp_detail := ps_detail st;
              pp_blocked_by_rule_id := ps_blockedBy st; pp_policies_evaluated := length (snap_policies snapshot);
              pp_rules_evaluated := length rules; pp_rules_matched := length (List.filter rt_matched (ps_ruleTraces st));
              pp_field_map := fields; pp_rule_traces := ps_ruleTraces st |}
  end.

Definition project_preview_route (c : AuthContext) (body : ProjectPreviewBody) : GM (HttpResult ProjectPreview) :=
  let? _ := mret (requireTenantCapability c "policy_preview.read" "You do not have access to preview policies") in
  let? access := on_tenancy (requireProjectAccess c true) in
  preview ← policy_preview access.1 (au_tenantId c) body;
  mret (okResult preview).

(** ** The preview of the MCP tools (previewPackageDecision) *)

Record PolicyPreviewSummary := {
  sm_decision : string; sm_reason_code : jsval; sm_reason_summary : string; sm_matched_rule : option string;
  sm_enforcement_mode : jsval; sm_blocked_by_rule_id : option string; sm_policies_evaluated : nat;
  sm_rules_evaluated : nat; sm_rules_matched : nat; sm_snapshot_statuses : list (string * connector_status);
  sm_used_snapshot_count : nat
}.

Record summary_state := {
  ss_decision : string; ss_reasonCode : jsval; ss_reasonSummary : string; ss_matchedRule : option string;
  ss_enforcementMode : jsval; ss_blockedByRuleId : option string; ss_rulesMatched : nat
}.

Definition summary_init : summary_state :=
  {| ss_decision := DECISION.ALLOW; ss_reasonCode := JStr "allowed"; ss_reasonSummary := "No policy rules matched";
     ss_matchedRule := None; ss_enforcementMode := JNull; ss_blockedByRuleId := None; ss_rulesMatched := 0 |}.

Definition summary_rule (fields : fields_t) (st : summary_state) (rule : ResolvedRule) : res summary_state :=
  let! (result, _) := evaluateConditionWithTrace (condition rule) fields in
  if negb result then Ok st
  else
    let! message := rule_message rule fields in
    let allowed := String.eqb (ss_decision st) DECISION.ALLOW in
    let is_violation := strict_eq (action_field rule "type") (JStr "violation") in
    if is_blocking (action_field rule "type") (effectiveEnforcementMode rule) && allowed
    then Ok {| ss_decision := DECISION.BLOCK; ss_reasonCode := nullish (action_field rule "code") (JStr "policy_violation");
               ss_reasonSummary := message; ss_matchedRule := Some (name rule);
               ss_enforcementMode := effectiveEnforcementMode rule; ss_blockedByRuleId := Some (id rule);
               ss_rulesMatched := S (ss_rulesMatched st) |}
    else if allowed && bool_decide (ss_matchedRule st = None)
    then Ok {| ss_decision := ss_decision st;
               ss_reasonCode := if is_violation then JStr "advisory_only" else nullish (action_field rule "code") (JStr "matched");
               ss_reasonSummary := message; ss_matchedRule := Some (name rule);
               ss_enforcementMode := effectiveEnforcementMode rule; ss_blockedByRuleId := ss_blockedByRuleId st;
               ss_rulesMatched := S (ss_rulesMatched st) |}
    else Ok {| ss_decision := ss_decision st; ss_reasonCode := ss_reasonCode st; ss_reasonSummary := ss_reasonSummary st;
               ss_matchedRule := ss_matchedRule st; ss_enforcementMode := ss_enforcementMode st;
               ss_blockedByRuleId := ss_blockedByRuleId st; ss_rulesMatched := S (ss_rulesMatched st) |}.

Fixpoint summary_rules (fields : fields_t) (st : summary_state) (rules : list ResolvedRule) : res summary_state :=
  match rules with
  | [] => Ok st
  | rule :: rules => let! st := summary_rule fields st rule in summary_rules fields st rules
  end.

(** The reset after the loop. *)
Definition summary_reset (st : summary_state) : summary_state :=
  if String.eqb (ss_decision st) DECISION.ALLOW && Nat.eqb (ss_rulesMatched st) 0
  then {| ss_decision := ss_decision st; ss_reasonCode := JStr "allowed"; ss_reasonSummary := "No policy rules matched";
          ss_matchedRule := ss_matchedRule st; ss_enforcementMode := ss_enforcementMode st;
          ss_blockedByRuleId := ss_blockedByRuleId st; ss_rulesMatched := ss_rulesMatched st |}
  else st.

Definition no_rules_summary : PolicyPreviewSummary :=
  {| sm_decision := DECISION.ALLOW; sm_reason_code := JStr "no_rules"; sm_reason_summary := "No active rules configured";
     sm_matched_rule := None; sm_enforcement_mode := JNull; sm_blocked_by_rule_id := None; sm_policies_evaluated := 0;
     sm_rules_evaluated := 0; sm_rules_matched := 0; sm_snapshot_statuses := []; sm_used_snapshot_count := 0 |}.

Definition previewPackageDecision (projectId tenantId ecosystem packageName version : string) : GM PolicyPreviewSummary :=
  policySnapshot ← load_policy tenantId projectId;
  match allRules policySnapshot with
  | [] => mret no_rules_summary
  | rules =>
      artifactIdentity ← on_check (on_catalog (resolveArtifactIdentity (preview_input ecosystem packageName version "mcp_policy_preview")));
      collected ← collect_preview_fields projectId ecosystem packageName version artifactIdentity rules;
      st ← of_res (summary_rules (pf_fields collected) summary_init rules);
      let st := summary_reset st in
      mret {| sm_decision := ss_decision st; sm_reason_code := ss_reasonCode st; sm_reason_summary := ss_reasonSummary st;
              sm_matched_rule := ss_matchedRule st; sm_enforcement_mode := ss_enforcementMode st;
              sm_blocked_by_rule_id := ss_blockedByRuleId st; sm_policies_evaluated := length (snap_policies policySnapshot);
              sm_rules_evaluated := length rules; sm_rules_matched := ss_rulesMatched st;
              sm_snapshot_statuses := map_entries (map (fun s => (connectorKey s, m_status (meta s))) (pf_all collected));
              sm_used_snapshot_count := length (pf_stored collected) |}
  end.

(** ** Conditions (policy-routes.ts) *)

Definition policy_of_tenant (policyId tenantId : string) (p : policy_row) : bool :=
  String.eqb (p_id p) policyId && String.eqb (p_tenant_id p) tenantId.

Definition require_policy (c : AuthContext) : GM (HttpResult string) :=
  let? policyId := mret (validateUuidParam c "policy_id" "Policy ID") in
  let? _ := mret (requireTenantCapability c "policy_preview.read" "You do not have access to preview policies") in
  policy ← gets (fun db => existsb (policy_of_tenant policyId (au_tenantId c)) (policies (policy_tables db)));
  mret (if policy : bool then okResult policyId else errorResult 404 "NOT_FOUND" "Policy not found" (Some policyId)).

(** *** Validation *)

Definition BUILTIN_FIELD_REFS : list string :=
  ["asset.ecosystem"; "asset.package"; "asset.version"; "asset.version_published_at"; "asset.version_age_days";
   "asset.latest_version_published_at"; "runtime.request_timestamp"].

Record validation := { va_errors : list string; va_warnings : list string }.

Definition no_complaints : validation := {| va_errors := []; va_warnings := [] |}.
Definition join_validations (l : list validation) : validation :=
  {| va_errors := concat (map va_errors l); va_warnings := concat (map va_warnings l) |}.

Definition quoted_field (field : string) : string := "Field " +:+ String quote (field +:+ String quote EmptyString).

Definition field_warnings (knownRefs deprecatedRefs : list string) (field : string) : list string :=
  (if negb (existsb (String.eqb field) knownRefs) && negb (existsb (String.eqb field) BUILTIN_FIELD_REFS)
      && negb (startsWith field "source.")
   then [quoted_field field +:+ " is not in the connector field catalog - it may resolve to null"] else [])
  ++ (if existsb (String.eqb field) deprecatedRefs
      then [quoted_field field +:+ " is deprecated and may be removed in a future version"] else []).

Definition unrecognized (cond : jsval) : validation :=
  {| va_errors := ["Unrecognized condition node: " +:+ default "undefined" (stringify cond)]; va_warnings := [] |}.

Fixpoint validateConditionNode (knownRefs deprecatedRefs : list string) (cond : jsval) : validation :=
  match cond with
  | JObj kvs =>
      let leaf :=
        match own "field" kvs with
        | Some (JStr field) => {| va_errors := []; va_warnings := field_warnings knownRefs deprecatedRefs field |}
        | _ => unrecognized cond
        end in
      let not_ := node_key "not" (fun v => validateConditionNode knownRefs deprecatedRefs v) leaf kvs in
      let any := node_key "any"
        (fun v => match v with JArr l => join_validations (map (validateConditionNode knownRefs deprecatedRefs) l) | _ => not_ end)
        not_ kvs in
      node_key "all"
        (fun v => match v with JArr l => join_validations (map (validateConditionNode knownRefs deprecatedRefs) l) | _ => any end)
        any kvs
  | JArr _ => unrecognized cond
  | _ => {| va_errors := ["Invalid condition node"]; va_warnings := [] |}
  end.

Record validate_response := { vr_valid : bool; vr_errors : list string; vr_warnings : list string }.

Definition validate_response_of (knownFields : list connector_fields_row) (condition : jsval) : validate_response :=
  let knownRefs := map row_ref knownFields in
  let deprecatedRefs := map row_ref (List.filter deprecated knownFields) in
  let v := validateConditionNode knownRefs deprecatedRefs condition in
  {| vr_valid := match va_errors v with [] => true | _ => false end; vr_errors := va_errors v; vr_warnings := va_warnings v |}.

Definition validate_route (knownFields : list connector_fields_row) (c : AuthContext) (condition : jsval)
  : GM (HttpResult validate_response) :=
  let? _ := require_policy c in
  mret (okResult (validate_response_of knownFields condition)).

(** *** The preview of a condition *)

Record RulePreviewBody := { rvb_condition : jsval; rvb_ecosystem : string; rvb_package : string; rvb_version : string }.

Record RulePreview := {
  rp_matched : bool; rp_display_name : string; rp_connector_statuses : list (string * (connector_status * option num));
  rp_field_values : fields_t; rp_trace : trace
}.

Context {C : Type} `{PackageIntelligenceConnector C}.

Definition manual_context (tenantId : string) : ConnectorEventContext :=
  {| ctx_tenantId := Some tenantId; ctx_projectId := None; ctx_requestId := None; ctx_traceId := None; ctx_proxyId := None |}.

(** The cached snapshot of a connector, or none. *)
Definition cached_or_unavailable (event : ConnectorEvent) (displayName : string) (connector : C) : EM ConnectorSnapshot :=
  if negb (connectorSupportsEvent connector event) then now ← now_; mret (unavailableSnapshot (connector_id connector) now)
  else
    cached ← on_cache (buildCachedSnapshot connector event displayName);
    match cached with
    | Some c => mret (snapshot c)
    | None => now ← now_; mret (unavailableSnapshot (connector_id connector) now)
    end.

Definition rule_preview_route (connectors : list C) (c : AuthContext) (body : RulePreviewBody) : GM (HttpResult RulePreview) :=
  let? _ := require_policy c in
  artifactIdentity ← on_check (on_catalog (resolveArtifactIdentity
    (preview_input (rvb_ecosystem body) (rvb_package body) (rvb_version body) "policy_preview")));
  eventId ← fresh;
  observedAt ← now_;
  event ← of_res (buildArtifactRequestEvent (event_identity_of artifactIdentity) "manual" (Some (manual_context (au_tenantId c))) eventId observedAt);
  connectorKeys ← of_res (extractConnectorKeys (rvb_condition body));
  let read := List.filter (fun connector => match connectorKeys with [] => true | _ => existsb (String.eqb (connector_id connector)) connectorKeys end)
                connectors in
  snapshots ← on_check (mapM_ (cached_or_unavailable event (display_name artifactIdentity)) read);
  now ← now_;
  let fields := resolveFields snapshots (preview_asset (rvb_ecosystem body) (rvb_package body) (rvb_version body)) now in
  evaluated ← of_res (evaluateConditionWithTrace (rvb_condition body) fields);
  mret (okResult
    {| rp_matched := evaluated.1; rp_display_name := display_name artifactIdentity;
       rp_connector_statuses := map_entries (map (fun s => (connectorKey s, (m_status (meta s), cacheAgeHours (meta s)))) snapshots);
       rp_field_values := fields; rp_trace := evaluated.2 |}).
End previews.
