(* ===== verification/PreviewSpec.v ===== *)
(** * What previews promise

    A preview says what the gate would decide on its fields.  Its fields are not the
    gate's: a preview knows nothing of the release, the preview of a project nothing of
    what connectors found, and a project without rules is allowed in previews and
    blocked at the gate. *)

From S2P Require Import Prelude JsString JsNum JsValue Jsonb Sql Effects Constants Identity Schema Tenancy Catalog Rbac RuleSchema Expression Effective Decision ConnectorTypes Snapshots Resolver Evaluation Violations CheckService Ticks Provision ProvisionSpec Registry Preview CheckSpec PolicySpec.
Local Open Scope string_scope.
Local Open Scope list_scope.

(** ** The loops *)

(** A rule whose action says what it does. *)
Definition typed_rule (r : ResolvedRule) : Prop := is_nullish (action_field r "type") = false.

Definition preview_blocks (r : ResolvedRule) : bool := is_blocking (action_field r "type") (effectiveEnforcementMode r).

Definition preview_blocking (fields : fields_t) (rules : list ResolvedRule) : list ResolvedRule :=
  List.filter preview_blocks (List.filter (rule_matches fields) rules).

Lemma typed_blocks r : typed_rule r -> preview_blocks r = rule_blocks r.
Proof. intros Ht. unfold preview_blocks, rule_blocks, rule_type. by rewrite nullish_some. Qed.

Lemma typed_blocking fields rules : Forall typed_rule rules -> preview_blocking fields rules = blocking_matches fields rules.
Proof.
  intros Hall. unfold preview_blocking, blocking_matches. induction Hall as [|r rules Hr _ IH]; [done|]. cbn [List.filter].
  destruct (rule_matches fields r); [|done]. cbn [List.filter]. by rewrite typed_blocks, IH.
Qed.

Lemma accepted_typed r : accepted_rule r -> typed_rule r.
Proof. intros (s & Ht & _)%accepted_rule_type. unfold typed_rule. by rewrite Ht. Qed.

Lemma trace_matches fields rule b t :
  evaluateConditionWithTrace (condition rule) fields = Ok (b, t) ->
  evaluateCondition (condition rule) fields = Ok b /\ rule_matches fields rule = b.
Proof.
  intros He. unfold evaluateConditionWithTrace in He. apply evaluateWithTrace_agrees in He as [He _].
  unfold rule_matches, evaluateCondition. by rewrite He.
Qed.

(** A rule that ran in a preview runs at the gate. *)
Lemma gate_runs fields rule b msg :
  evaluateCondition (condition rule) fields = Ok b -> (b = true -> rule_message rule fields = Ok msg) ->
  forall st, is_ok (eval_rule fields st rule) = true.
Proof.
  intros He Hm st. unfold eval_rule. rewrite He. cbn [mbind res_bind]. destruct b; [|done]. cbn [negb].
  specialize (Hm eq_refl). unfold rule_message in *. destruct (action rule); try done; cbn [get_prop mbind res_bind] in *;
    by rewrite Hm.
Qed.

Lemma preview_message_gate fields rule b message :
  preview_message fields rule b = Ok message -> b = true -> exists msg, rule_message rule fields = Ok msg.
Proof.
  unfold preview_message, rule_message. intros Hm ->. cbn [negb] in Hm.
  apply res_bind_ok in Hm as (template & Ht & Hm). rewrite Ht. cbn [mbind res_bind].
  destruct (truthy template); [|by eexists]. destruct template; try done. by eexists.
Qed.

Lemma preview_rule_step fields st rule st' :
  preview_rule fields st rule = Ok st' ->
  let m := rule_matches fields rule in
  let b := m && preview_blocks rule && String.eqb (ps_decision st) DECISION.ALLOW in
  ps_decision st' = (if b then DECISION.BLOCK else ps_decision st) /\
  ps_blockedBy st' = (if b then Some (id rule) else ps_blockedBy st) /\
  (exists t, ps_ruleTraces st' = ps_ruleTraces st ++ [t] /\ rt_rule_id t = id rule /\ rt_matched t = m) /\
  forall st0, is_ok (eval_rule fields st0 rule) = true.
Proof.
  unfold preview_rule. intros ([b t] & He & Hr)%res_bind_ok. apply res_bind_ok in Hr as (message & Hm & Hr).
  apply trace_matches in He as [He Hb]. cbn zeta. rewrite Hb.
  assert (Hg : forall st0, is_ok (eval_rule fields st0 rule) = true).
  { destruct b; [|by apply (gate_runs _ _ false EmptyString)].
    destruct (preview_message_gate _ _ _ _ Hm eq_refl) as [msg Hmsg]. by apply (gate_runs _ _ true msg). }
  change (is_blocking (action_field rule "type") (effectiveEnforcementMode rule)) with (preview_blocks rule) in Hr.
  destruct (b && preview_blocks rule && String.eqb (ps_decision st) DECISION.ALLOW); injection Hr as <-; cbn; eauto 10.
Qed.

Lemma preview_rules_spec fields st rules st' :
  preview_rules fields st rules = Ok st' ->
  ps_decision st = DECISION.ALLOW \/ ps_decision st = DECISION.BLOCK ->
  let bs := preview_blocking fields rules in
  ps_decision st' = (match bs with [] => ps_decision st | _ => DECISION.BLOCK end) /\
  ps_blockedBy st' = (if String.eqb (ps_decision st) DECISION.ALLOW then match head bs with Some r => Some (id r) | None => ps_blockedBy st end
                      else ps_blockedBy st) /\
  map (fun t => (rt_rule_id t, rt_matched t)) (ps_ruleTraces st') =
    map (fun t => (rt_rule_id t, rt_matched t)) (ps_ruleTraces st) ++ map (fun r => (id r, rule_matches fields r)) rules /\
  forall rule st0, rule ∈ rules -> is_ok (eval_rule fields st0 rule) = true.
Proof.
  revert st. induction rules as [|rule rules IH]; intros st Hr Hd.
  { cbn in Hr. injection Hr as <-. cbn. rewrite app_nil_r. split_and!; [done|by destruct (String.eqb _ _)|done|].
    intros r st0 Hin. by apply not_elem_of_nil in Hin. }
  cbn [preview_rules] in Hr. apply res_bind_ok in Hr as (st1 & H1 & Hr).
  apply preview_rule_step in H1 as (D & B & (t & T & Ti & Tm) & G).
  assert (Hd1 : ps_decision st1 = DECISION.ALLOW \/ ps_decision st1 = DECISION.BLOCK)
    by (rewrite D; destruct (_ && _); [by right|done]).
  destruct (IH st1 Hr Hd1) as (D' & B' & T' & G'). split_and!.
  - rewrite D', D. unfold preview_blocking. cbn [List.filter]. destruct (rule_matches fields rule); [|done]. cbn [List.filter andb].
    destruct (preview_blocks rule); [|done]. destruct Hd as [-> | ->]; cbn; by destruct (List.filter _ _).
  - rewrite B', B, D. unfold preview_blocking. cbn [List.filter]. destruct (rule_matches fields rule); cbn [andb]; [|done]. cbn [List.filter].
    destruct (preview_blocks rule); cbn [andb]; [|done]. destruct Hd as [-> | ->]; cbn; by destruct (head _).
  - rewrite T', T, map_app, <- app_assoc. cbn [map app]. by rewrite Ti, Tm.
  - intros r st0 [->|Hin]%elem_of_cons; [apply G|by apply G'].
Qed.

Lemma matched_count fields ts rules :
  map (fun t => (rt_rule_id t, rt_matched t)) ts = map (fun r => (id r, rule_matches fields r)) rules ->
  length (List.filter rt_matched ts) = length (List.filter (rule_matches fields) rules).
Proof.
  revert ts. induction rules as [|r rules IH]; intros [|t ts]; try done. cbn. intros [= _ Hm Hr]. rewrite Hm.
  destruct (rule_matches fields r); cbn; by rewrite (IH ts Hr).
Qed.

(** What the gate decides on fields a loop ran on. *)
Lemma gate_of_fields fields rules ttl mode :
  Forall typed_rule rules -> (forall rule st0, rule ∈ rules -> is_ok (eval_rule fields st0 rule) = true) ->
  exists d, evaluatePolicyDecision rules fields ttl mode = Ok d /\
    decision_name (decision d) = (match preview_blocking fields rules with [] => DECISION.ALLOW | _ => DECISION.BLOCK end) /\
    rulesEvaluated d = length rules /\ rulesMatched d = length (List.filter (rule_matches fields) rules) /\
    (decision d = DECISION_BLOCK -> exists r, head (blocking_matches fields rules) = Some r /\ detail d = rule_text fields r).
Proof.
  intros Ht Hruns. destruct (decision_exists rules fields ttl mode Hruns) as [d Hd]. exists d. split; [done|].
  apply evaluatePolicyDecision_verdict in Hd as ->. rewrite typed_blocking by done. unfold verdict.
  destruct (blocking_matches fields rules) as [|r bs]; [by split_and!|]. split_and!; [done..|]. intros _. by exists r.
Qed.

Lemma summary_rule_step fields st rule st' :
  summary_rule fields st rule = Ok st' ->
  let m := rule_matches fields rule in
  let b := m && preview_blocks rule && String.eqb (ss_decision st) DECISION.ALLOW in
  ss_decision st' = (if b then DECISION.BLOCK else ss_decision st) /\
  ss_rulesMatched st' = ((if m then 1 else 0) + ss_rulesMatched st)%nat /\
  (b = true -> ss_blockedByRuleId st' = Some (id rule) /\ ss_reasonSummary st' = rule_text fields rule /\ ss_reasonCode st' = rule_code rule) /\
  (ss_decision st = DECISION.BLOCK -> ss_blockedByRuleId st' = ss_blockedByRuleId st /\ ss_reasonSummary st' = ss_reasonSummary st /\
     ss_reasonCode st' = ss_reasonCode st) /\
  (b = false -> ss_blockedByRuleId st' = ss_blockedByRuleId st) /\
  forall st0, is_ok (eval_rule fields st0 rule) = true.
Proof.
  unfold summary_rule. intros ([b t] & He & Hr)%res_bind_ok. apply trace_matches in He as [He Hb]. cbn zeta. rewrite Hb. destruct b; cbn [negb] in Hr.
  2:{ injection Hr as <-. cbn. split_and!; try done. by apply (gate_runs _ _ false EmptyString). }
  apply res_bind_ok in Hr as (message & Hm & Hr). assert (Hg := gate_runs fields rule true message He (fun _ => Hm)).
  assert (Htext : rule_text fields rule = message) by (unfold rule_text; by rewrite Hm). rewrite Htext. cbn [andb].
  change (is_blocking (action_field rule "type") (effectiveEnforcementMode rule)) with (preview_blocks rule) in Hr.
  destruct (String.eqb_spec (ss_decision st) DECISION.ALLOW) as [Hd|Hd]; rewrite ?andb_true_r, ?andb_false_r in *.
  - destruct (preview_blocks rule); [|destruct (_ && _)]; injection Hr as <-; cbn; split_and!; try done; by rewrite Hd.
  - cbn [andb] in Hr. injection Hr as <-. cbn. by split_and!.
Qed.

Lemma summary_rules_spec fields st rules st' :
  summary_rules fields st rules = Ok st' ->
  ss_decision st = DECISION.ALLOW \/ ss_decision st = DECISION.BLOCK ->
  let bs := preview_blocking fields rules in
  ss_decision st' = (match bs with [] => ss_decision st | _ => DECISION.BLOCK end) /\
  ss_rulesMatched st' = (length (List.filter (rule_matches fields) rules) + ss_rulesMatched st)%nat /\
  (ss_decision st = DECISION.BLOCK -> ss_blockedByRuleId st' = ss_blockedByRuleId st /\ ss_reasonSummary st' = ss_reasonSummary st /\
     ss_reasonCode st' = ss_reasonCode st) /\
  (ss_decision st = DECISION.ALLOW ->
   match head bs with
   | Some r => ss_blockedByRuleId st' = Some (id r) /\ ss_reasonSummary st' = rule_text fields r /\ ss_reasonCode st' = rule_code r
   | None => ss_blockedByRuleId st' = ss_blockedByRuleId st
   end) /\
  forall rule st0, rule ∈ rules -> is_ok (eval_rule fields st0 rule) = true.
Proof.
  revert st. induction rules as [|rule rules IH]; intros st Hr Hd.
  { cbn in Hr. injection Hr as <-. cbn. split_and!; try done. intros r st0 Hin. by apply not_elem_of_nil in Hin. }
  cbn [summary_rules] in Hr. apply res_bind_ok in Hr as (st1 & H1 & Hr).
  apply summary_rule_step in H1 as (D & K & Bk & Bs & Bn & G).
  assert (Hd1 : ss_decision st1 = DECISION.ALLOW \/ ss_decision st1 = DECISION.BLOCK)
    by (rewrite D; destruct (_ && _); [by right|done]).
  destruct (IH st1 Hr Hd1) as (D' & K' & Bs' & Bh' & G'). clear IH Hr.
  unfold preview_blocking in *. cbn [List.filter]. split_and!.
  - rewrite D', D. destruct (rule_matches fields rule); [|done]. cbn [List.filter andb].
    destruct (preview_blocks rule); [|done]. destruct Hd as [-> | ->]; cbn; by destruct (List.filter _ _).
  - rewrite K', K. destruct (rule_matches fields rule); cbn [length]; lia.
  - intros Hb. assert (Hb1 : ss_decision st1 = DECISION.BLOCK) by (rewrite D, Hb, andb_false_r; done).
    destruct (Bs' Hb1) as (-> & -> & ->). exact (Bs Hb).
  - intros Ha. rewrite Ha, andb_true_r in *. destruct (rule_matches fields rule); cbn [andb List.filter] in *.
    + destruct (preview_blocks rule); cbn [head].
      * destruct (Bs' D) as (-> & -> & ->). by apply Bk.
      * specialize (Bh' D). destruct (head _); [exact Bh'|by rewrite Bh', (Bn eq_refl)].
    + specialize (Bh' D). destruct (head _); [exact Bh'|by rewrite Bh', (Bn eq_refl)].
  - intros r st0 [->|Hin]%elem_of_cons; [apply G|by apply G'].
Qed.

(** ** The handlers *)

Section spec.
Context `{Env} `{SqlOrder}.

Lemma load_policy_inv tenantId projectId s snap s' :
  returns (load_policy tenantId projectId) s snap s' ->
  s'.2 = s.2 /\ loadEffectivePolicy (policy_tables s.2) tenantId projectId (clock s.1) = Ok snap.
Proof using Type. unfold load_policy. intros Hr. by run_inv. Qed.

Lemma policy_tables_check {A} (e : EM A) s a s' : returns (on_check e) s a s' -> policy_tables s'.2 = policy_tables s.2.
Proof using Type. intros (t & _ & ->)%returns_zoom. done. Qed.

(** The stored rows of an artifact: those of its version, or of its package when the
    catalogue has no version of it. *)
Definition artifact_snapshot (projectId : string) (ids : PackageCatalogReference) (r : snapshot_row) : Prop :=
  sn_project_id r = projectId /\ sn_entity_type r = "artifact" /\
  exists pid, present (package_id ids) = Some pid /\
    match present (package_version_id ids) with
    | Some vid => sn_package_version_id r = Some vid
    | None => sn_package_id r = Some pid
    end.

Definition reads_row (r : snapshot_row) (s : ConnectorSnapshot) : Prop :=
  connectorKey s = sn_connector_key r /\ ConnectorTypes.fields s = sn_fields r /\ meta s = sn_meta r.

(** The fields a preview of a version that looks its artifact up at reading [n] of these
    tables gives some rules: those of the project's stored snapshots of the version, with
    every other connector the rules read unavailable and nothing known of the release. *)
Definition previewed_fields (n : nat) (tables : check_db) (projectId ecosystem package version : string)
    (rules : list ResolvedRule) (fs : fields_t) : Prop :=
  exists artifact found rows stored keys unavailable k,
    returns (resolveArtifactIdentity {| ai_input := {| i_ecosystem := ecosystem; i_package := package; i_version := Some version |};
                                        ai_source := Some "mcp_policy_preview"; ai_parser_version := None |})
      (n, catalog_tables tables) artifact found /\
    identity artifact = canonicalizePackageIdentity {| i_ecosystem := ecosystem; i_package := package; i_version := Some version |} /\
    rows `sublist_of` connector_snapshots tables /\
    (forall r, r ∈ connector_snapshots tables -> r ∈ rows <-> artifact_snapshot projectId (Identity.catalog artifact) r) /\
    Forall2 reads_row rows stored /\
    rule_connectors rules = Ok keys /\
    map connectorKey unavailable = List.filter (fun key => negb (existsb (String.eqb key) (map sn_connector_key rows))) keys /\
    Forall (fun s => ConnectorTypes.fields s = [] /\ m_status (meta s) = st_unavailable) unavailable /\ (n <= k)%nat /\
    fs = resolveFields (stored ++ unavailable)
           {| a_ecosystem := ecosystem; a_pkg := package; a_version := version; versionPublishedAt := None; versionAgeDays := None;
              latestVersionPublishedAt := None |} (clock k).

Lemma with_unavailable_run stored keys s l s' :
  returns (with_unavailable stored keys) s l s' ->
  map connectorKey l = List.filter (fun key => negb (existsb (String.eqb key) (map connectorKey stored))) keys /\
  Forall (fun s => ConnectorTypes.fields s = [] /\ m_status (meta s) = st_unavailable) l /\ (s.1 <= s'.1)%nat /\ s'.2 = s.2.
Proof using Type.
  revert s l. induction keys as [|key keys IH]; intros s l Hr; cbn [with_unavailable] in Hr; [by apply returns_ret in Hr as [-> ->]|].
  assert (Hk : existsb (fun s => String.eqb (connectorKey s) key) stored = existsb (String.eqb key) (map connectorKey stored)).
  { clear. induction stored as [|x stored IH]; [done|]. cbn. by rewrite IH, String.eqb_sym. }
  rewrite Hk in Hr. cbn [List.filter]. destruct (existsb _ _); cbn [negb]; [by apply IH|].
  apply returns_bind in Hr as (now & s1 & Hn & Hr). apply returns_now in Hn as [-> ->].
  apply returns_bind in Hr as (rest & s2 & Hrest & Hr). apply returns_ret in Hr as [-> ->].
  destruct (IH _ _ Hrest) as (E & F & G & D). cbn [fst snd] in *. split; [cbn [map]; by rewrite E|]. split; [by constructor|]. split; [lia|done].
Qed.

Lemma artifact_rows_iff projectId ids r : artifact_rows projectId ids "artifact" r = true <-> artifact_snapshot projectId ids r.
Proof using Type.
  unfold artifact_rows, artifact_snapshot. destruct (present (package_id ids)) as [pid|].
  - rewrite !andb_true_iff, !String.eqb_eq. destruct (present (package_version_id ids)); rewrite opt_eq_spec; naive_solver.
  - naive_solver.
Qed.

Lemma collect_run ecosystem package version projectId rules db n artifact found collected s' :
  returns (on_check (on_catalog (resolveArtifactIdentity (preview_input ecosystem package version "mcp_policy_preview")))) (n, db) artifact found ->
  returns (collect_preview_fields projectId ecosystem package version artifact rules) found collected s' ->
  previewed_fields n (check_tables db) projectId ecosystem package version rules (pf_fields collected).
Proof using Type.
  intros Ha Hr. apply returns_zoom in Ha as (c & Ha & ->). apply returns_zoom in Ha as (t & Ha & ->). cbn [fst snd] in Ha.
  assert (Hticks := proj1 (ticks_spec _) (resolveArtifactIdentity_ticks (preview_input ecosystem package version "mcp_policy_preview")) n (catalog_tables (check_tables db))).
  unfold returns in Ha. rewrite Ha in Hticks. cbn [fst snd] in Hticks.
  unfold collect_preview_fields in Hr. apply returns_bind in Hr as (stored & s1 & Hst & Hr).
  apply returns_zoom in Hst as (c1 & Hst & ->). apply returns_zoom in Hst as (t1 & Hst & ->). apply returns_gets in Hst as [-> ->]. cbn [fst snd] in *.
  apply returns_bind in Hr as (keys & s2 & Hkeys & Hr). apply returns_of_res in Hkeys as [Hkeys ->].
  apply returns_bind in Hr as (unavailable & s3 & Hun & Hr). apply with_unavailable_run in Hun as (Hu & Hf & Hn & _). cbn [fst] in Hn.
  apply returns_bind in Hr as (now & s4 & Hnow & Hr). apply returns_now in Hnow as [-> _]. apply returns_ret in Hr as [-> _].
  set (rows := List.filter (artifact_rows projectId (Identity.catalog artifact) "artifact") (connector_snapshots (check_tables db))) in *.
  exists artifact, t, rows, (map (snapshot_of_row artifact) rows), keys, unavailable, s3.1.
  split; [exact Ha|]. split; [by apply resolveArtifactIdentity_identity in Ha|]. split; [apply filter_b_sublist|].
  split. { intros r Hin. unfold rows. rewrite elem_of_filter_b, artifact_rows_iff. naive_solver. }
  split. { clear. induction rows; by constructor. }
  split; [exact Hkeys|]. split; [|split; [exact Hf|split; [lia|reflexivity]]].
  rewrite Hu, map_map. done.
Qed.

(** Whatever the connectors found, a preview's fields say nothing of the release. *)
Lemma preview_release_unknown n tables projectId ecosystem package version rules fs key :
  previewed_fields n tables projectId ecosystem package version rules fs ->
  key ∈ ["asset.version_published_at"; "asset.version_age_days"; "asset.latest_version_published_at"] -> field_get fs key = JNull.
Proof using Type.
  intros (artifact & found & rows & stored & keys & unavailable & k & _ & _ & _ & _ & _ & _ & _ & _ & _ & ->) Hk.
  unfold field_get, resolveFields. rewrite put_snapshots_other.
  - repeat (apply elem_of_cons in Hk as [->|Hk]; [reflexivity|]). by apply not_elem_of_nil in Hk.
  - intros snap g _ ->. repeat (apply elem_of_cons in Hk as [Hk|Hk]; [discriminate Hk|]). by apply not_elem_of_nil in Hk.
Qed.

(** So the first starter rule, which blocks young versions, matches in no preview. *)
Lemma cooling_never_previewed n tables projectId ecosystem package version rules fs :
  previewed_fields n tables projectId ecosystem package version rules fs ->
  evaluateCondition (jsonb (spr_condition cooling_rule)) fs = Ok false.
Proof using Type.
  intros Hf. unfold cooling_rule. cbn [spr_condition]. rewrite leaf_stored by reflexivity.
  rewrite (preview_release_unknown _ _ _ _ _ _ _ _ "asset.version_age_days" Hf) by set_solver.
  unfold DEFAULT_VERSION_COOLING_PERIOD_DAYS. rewrite jsonb_int by (unfold exact_int; lia).
  rewrite (proj1 (leaf_order_field _ _)). done.
Qed.

(** A project without rules is blocked at the gate. *)
Lemma gate_without_policy_blocks `{TextDriver} {C : Type} `{PackageIntelligenceConnector C} proxy cc req artifact at_ s answer s' :
  returns (answerWithoutPolicy (C := C) proxy cc req artifact at_) s answer s' -> oc_decision answer.1 = DECISION_BLOCK.
Proof using Type. unfold answerWithoutPolicy. intros Hr. run_inv. done. Qed.

(** ** Properties *)

(** What a preview of a package runs: the rules in force at its first reading of the
    clock, on the fields it collects from then on. *)
Lemma preview_runs projectId tenantId ecosystem package version n db sm s' :
  returns (previewPackageDecision projectId tenantId ecosystem package version) (n, db) sm s' ->
  exists snap, loadEffectivePolicy (policy_tables db) tenantId projectId (clock n) = Ok snap /\
    (allRules snap = [] /\ sm = no_rules_summary \/
     allRules snap <> [] /\ exists fs st, previewed_fields (S n) (check_tables db) projectId ecosystem package version (allRules snap) fs /\
       summary_rules fs summary_init (allRules snap) = Ok st /\ sm_decision sm = ss_decision (summary_reset st) /\
       sm_rules_evaluated sm = length (allRules snap) /\ sm_rules_matched sm = ss_rulesMatched (summary_reset st) /\
       sm_blocked_by_rule_id sm = ss_blockedByRuleId (summary_reset st) /\ sm_reason_summary sm = ss_reasonSummary (summary_reset st) /\
       sm_reason_code sm = ss_reasonCode (summary_reset st)).
Proof using Type.
  intros Hr. unfold previewPackageDecision in Hr. apply returns_bind in Hr as (snap & s1 & Hl & Hr).
  assert (Hs1 : s1 = (S n, db)) by (unfold load_policy in Hl; by run_inv).
  apply load_policy_inv in Hl as [_ Hl]. subst s1. exists snap. split; [exact Hl|].
  destruct (allRules snap) as [|rule0 rules0]; [left; by apply returns_ret in Hr as [-> _]|right]. split; [done|].
  set (rules := rule0 :: rules0) in *. apply returns_bind in Hr as (artifact & s2 & Ha & Hr).
  apply returns_bind in Hr as (collected & s3 & Hc & Hr). apply returns_bind in Hr as (st & s4 & Hs & Hr).
  apply returns_of_res in Hs as [Hs _]. apply returns_ret in Hr as [-> _]. exists (pf_fields collected), st.
  split; [by eapply collect_run|]. by split_and!.
Qed.

Lemma summary_reset_run fs st rules :
  summary_rules fs summary_init rules = Ok st ->
  ss_decision (summary_reset st) = ss_decision st /\ ss_rulesMatched (summary_reset st) = ss_rulesMatched st /\
  (ss_decision st = DECISION.BLOCK -> summary_reset st = st).
Proof using Type. intros _. unfold summary_reset. destruct (_ && _) eqn:E; [|done]. split_and!; [done..|]. intros Hb. by rewrite Hb in E. Qed.

(** C25: the preview of the MCP tools is the gate's verdict on its fields: for a
    project without rules it says so; otherwise, when the rules say what they do, the
    gate's evaluation of the same rules on the fields the preview collected, those of the
    project's stored snapshots of this very version and no others, returns, with the same
    decision and counters, and what blocks is the same: the rule, its code first and its
    message. *)
Theorem package_preview_is_verdict projectId tenantId ecosystem package version n db sm s' ttl mode :
  returns (previewPackageDecision projectId tenantId ecosystem package version) (n, db) sm s' ->
  exists snap, loadEffectivePolicy (policy_tables db) tenantId projectId (clock n) = Ok snap /\
    match allRules snap with
    | [] => sm = no_rules_summary
    | rules =>
        Forall typed_rule rules ->
        exists fs d, previewed_fields (S n) (check_tables db) projectId ecosystem package version rules fs /\
          evaluatePolicyDecision rules fs ttl mode = Ok d /\ sm_decision sm = decision_name (decision d) /\
          sm_rules_evaluated sm = rulesEvaluated d /\ sm_rules_matched sm = rulesMatched d /\
          (decision d = DECISION_BLOCK ->
             sm_blocked_by_rule_id sm = id <$> head (blocking_matches fs rules) /\ sm_reason_summary sm = detail d /\
             Some (sm_reason_code sm) = rule_code <$> head (blocking_matches fs rules))
    end.
Proof using Type.
  intros (snap & Hl & Hr)%preview_runs. exists snap. split; [exact Hl|].
  destruct Hr as [[-> ->]|(Hne & fs & st & Hf & Hs & Ed & Ee & Em & Eb & Es & Ec)]; [done|].
  destruct (allRules snap) as [|rule0 rules0]; [done|]. cbv zeta. set (rules := rule0 :: rules0) in *. intros Ht.
  destruct (summary_reset_run fs st rules Hs) as (Rd & Rm & Rb).
  apply summary_rules_spec in Hs as (Hd & Hk & _ & Ha & Hruns); [|by left]. specialize (Ha eq_refl).
  destruct (gate_of_fields fs rules ttl mode Ht Hruns) as (d & He & Hdec & Hn & Hm & Hb).
  exists fs, d. split; [exact Hf|]. split; [exact He|].
  rewrite Ed, Rd, Hd, Hdec, Ee, Hn, Em, Rm, Hk, Hm. cbn [summary_init ss_rulesMatched]. rewrite Nat.add_0_r.
  split; [done|]. split; [done|]. split; [done|]. intros Hblock. destruct (Hb Hblock) as (r & Hr & Hdet).
  rewrite typed_blocking in Ha, Hd by done. rewrite Hr in Ha |- *. destruct Ha as (Ha1 & Ha2 & Ha3).
  assert (Hsame : summary_reset st = st) by (apply Rb; rewrite Hd; by destruct (blocking_matches fs rules)).
  rewrite Eb, Es, Ec, Hsame, Ha1, Ha2, Ha3, Hdet. done.
Qed.

Section routes.
Context `{Formats}.

(** The guard of a project changes nothing and reads no clock. *)
Lemma project_access_inv c hide s access s' :
  returns (requireProjectAccess c hide) s (inl access) s' -> au_param c "project_id" = Some access.1 /\ s' = s.
Proof using Type.
  intros Hr. unfold requireProjectAccess in Hr. apply returns_bind in Hr as (v & s1 & Hv & Hr). apply returns_ret in Hv as [-> ->].
  unfold validateUuidParam in Hr. destruct (au_param c "project_id") as [v|]; [|by run_inv]. destruct (is_uuid v); [|by run_inv].
  cbn [okResult] in Hr. apply returns_bind in Hr as (pr & s2 & Hp & Hr).
  assert (Hs : s2 = s).
  { unfold resolveProjectWithAccess in Hp. apply returns_bind in Hp as (p & s3 & Hg & Hp). apply returns_gets in Hg as [-> ->].
    destruct (head _); [|by run_inv]. apply returns_bind in Hp as (b & s3 & Hc & Hp). apply returns_ret in Hp as [_ ->].
    unfold checkProjectAccess in Hc. destruct (hasImplicitProjectAccess _); by run_inv. }
  subst s2. destruct pr; apply returns_ret in Hr as [Hr ->]; [by injection Hr as ->|discriminate Hr].
Qed.

(** C24: the preview of a project is the gate's verdict on the field map it shows: for
    a project without rules it says so; otherwise, when the rules say what they do, the
    gate's evaluation on that map returns, with the same decision and counters, the
    rule that blocks is the same, and the traces say of every rule, in order, whether
    it matches. *)
Theorem project_preview_is_verdict c body n db p s' ttl mode :
  returns (project_preview_route c body) (n, db) (okResult p) s' ->
  exists projectId snap, au_param c "project_id" = Some projectId /\
    loadEffectivePolicy (policy_tables db) (au_tenantId c) projectId (clock n) = Ok snap /\
    match allRules snap with
    | [] => p = no_rules_preview
    | rules =>
        Forall typed_rule rules ->
        exists d, evaluatePolicyDecision rules (pp_field_map p) ttl mode = Ok d /\ pp_decision p = decision_name (decision d) /\
          pp_rules_evaluated p = rulesEvaluated d /\ pp_rules_matched p = rulesMatched d /\
          pp_blocked_by_rule_id p = id <$> head (blocking_matches (pp_field_map p) rules) /\
          map (fun t => (rt_rule_id t, rt_matched t)) (pp_rule_traces p) = map (fun r => (id r, rule_matches (pp_field_map p) r)) rules
    end.
Proof using Type.
  intros Hr. apply returns_bind in Hr as (cap & s1 & Hcap & Hr). apply returns_ret in Hcap as [-> ->].
  destruct (requireTenantCapability c "policy_preview.read" _) as [[]|]; [|by run_inv].
  apply returns_bind in Hr as (access & s2 & Hacc & Hr). destruct access as [[projectId project]|]; [|by run_inv].
  apply returns_zoom in Hacc as (t & Hacc & ->). apply project_access_inv in Hacc as [Hparam ->].
  apply returns_bind in Hr as (preview & s3 & Hp & Hr). apply returns_ret in Hr as [[= ->] _]. cbn [fst] in Hp.
  unfold policy_preview in Hp. apply returns_bind in Hp as (snap & s4 & Hl & Hp). apply load_policy_inv in Hl as [_ Hl].
  exists projectId, snap. split; [exact Hparam|]. split; [exact Hl|].
  destruct (allRules snap) as [|rule0 rules0]; [by apply returns_ret in Hp as [-> _]|]. cbv zeta. set (rules := rule0 :: rules0) in *. intros Ht.
  apply returns_bind in Hp as (collected & s5 & _ & Hp). set (fields := match pb_field_overrides body with Some _ => _ | None => _ end) in *.
  apply returns_bind in Hp as (st & s6 & Hs & Hp). apply returns_of_res in Hs as [Hs _]. apply returns_ret in Hp as [-> _].
  apply preview_rules_spec in Hs as (Hd & Hb & Htr & Hruns); [|by left].
  destruct (gate_of_fields fields rules ttl mode Ht Hruns) as (d & He & Hdec & Hn & Hm & _). exists d.
  cbn [pp_field_map pp_decision pp_rules_evaluated pp_rules_matched pp_blocked_by_rule_id pp_rule_traces].
  cbn [preview_init ps_ruleTraces map app] in Htr. rewrite Htr, (matched_count _ _ _ Htr), Hd, Hb, Hdec, Hn, Hm. rewrite typed_blocking by done.
  by split_and!.
Qed.

(** ** What the preview of a project does not see *)

(** An operation whose answer does not depend on the tables of the connectors. *)
Definition blind {A} (e : GM A) : Prop :=
  forall n db t, e (n, set_check_tables t db) = ((e (n, db)).1, ((e (n, db)).2.1, set_check_tables t (e (n, db)).2.2)).

Lemma blind_ret {A} (a : A) : blind (mret a).
Proof using Type. done. Qed.

Lemma blind_of_res {A} (r : res A) : blind (of_res r).
Proof using Type. done. Qed.

Lemma blind_now : blind now_.
Proof using Type. done. Qed.

Lemma blind_bind {A B} (e : GM A) (f : A -> GM B) : blind e -> (forall a, blind (f a)) -> blind (e ≫= f).
Proof using Type.
  intros He Hf n db t. unfold mbind, eff_bind. rewrite He. destruct (e (n, db)) as [[a|m] [n' db']]; [|done]. apply Hf.
Qed.

Lemma blind_http {A B} (e : GM (HttpResult A)) (f : A -> GM (HttpResult B)) :
  blind e -> (forall a, blind (f a)) -> blind (http_bind e f).
Proof using Type. intros He Hf. apply blind_bind; [done|]. intros [a|err]; [apply Hf|apply blind_ret]. Qed.

Lemma blind_tenancy {A} (e : M tenancy_db A) : blind (on_tenancy e).
Proof using Type. intros n db t. unfold on_tenancy, zoom. cbn. by destruct (e (n, tenancy_tables db)). Qed.

Lemma blind_policy tenantId projectId : blind (load_policy tenantId projectId).
Proof using Type. apply blind_bind; [apply blind_now|]. intros at_. apply blind_bind; [done|]. intros r. apply blind_of_res. Qed.

Lemma blind_unavailable stored keys : blind (with_unavailable stored keys).
Proof using Type.
  induction keys as [|key keys IH]; [apply blind_ret|]. cbn [with_unavailable]. destruct (existsb _ stored); [apply IH|].
  apply blind_bind; [apply blind_now|]. intros now. apply blind_bind; [apply IH|]. intros rest. apply blind_ret.
Qed.

(** Without the catalogue's identifiers no stored snapshot is loaded. *)
Lemma blind_snapshots projectId ecosystem package version source :
  blind (on_check (on_snapshots (loadSnapshots projectId
    (buildArtifactIdentity (preview_input ecosystem package version source) no_reference) "artifact"))).
Proof using Type.
  assert (Hnone : forall rows, List.filter (artifact_rows projectId no_reference "artifact") rows = []) by (by induction rows).
  intros n db t. unfold on_check, on_snapshots, zoom, loadSnapshots, gets. cbn [snd fst buildArtifactIdentity catalog].
  rewrite !Hnone. by destruct t, (check_tables db).
Qed.

(** The preview of a project does not depend on what its connectors found: its answer
    is the same whatever snapshots are stored. *)
Theorem project_preview_blind c body n db t :
  (project_preview_route c body (n, set_check_tables t db)).1 = (project_preview_route c body (n, db)).1.
Proof using Type.
  assert (Hb : blind (project_preview_route c body)); [|by rewrite Hb].
  apply blind_http; [apply blind_ret|]. intros _. apply blind_http; [apply blind_tenancy|]. intros access.
  apply blind_bind; [|intros p; apply blind_ret]. apply blind_bind; [apply blind_policy|]. intros snap.
  destruct (allRules snap); [apply blind_ret|]. apply blind_bind.
  - apply blind_bind; [apply blind_snapshots|]. intros stored. apply blind_bind; [apply blind_of_res|]. intros keys.
    apply blind_bind; [apply blind_unavailable|]. intros unavailable. apply blind_bind; [apply blind_now|]. intros now. apply blind_ret.
  - intros collected. apply blind_bind; [apply blind_of_res|]. intros st. apply blind_ret.
Qed.
End routes.

(** ** Conditions *)

Lemma node_of_group knownRefs deprecatedRefs key cs :
  key = "all" \/ key = "any" -> Forall (fun c => va_errors (validateConditionNode knownRefs deprecatedRefs c) = []) cs ->
  va_errors (validateConditionNode knownRefs deprecatedRefs (JObj [(key, JArr cs)])) = [].
Proof using Type.
  intros Hk Hcs. assert (Hj : va_errors (join_validations (map (validateConditionNode knownRefs deprecatedRefs) cs)) = []).
  { unfold join_validations. cbn [va_errors]. induction Hcs as [|c cs Hc _ IH]; [done|]. cbn [map concat]. by rewrite Hc, IH. }
  by destruct Hk as [-> | ->].
Qed.

(** The validation of a condition never finds an error: the schema of its body has
    already refused every condition it would refuse. *)
Theorem validation_always_valid knownFields v c : conditionSchema v = Some c -> vr_valid (validate_response_of knownFields c) = true.
Proof using Type.
  intros Hc. unfold validate_response_of. cbn [vr_valid].
  enough (He : forall known deprecated_, va_errors (validateConditionNode known deprecated_ c) = []) by (by rewrite He).
  intros known deprecated_. revert c Hc. induction v as [v Hv|kvs IHv IHl] using jsval_node_ind; intros c Hc;
    apply conditionSchema_inv in Hc as (kvs' & Heq & Hcase); [by destruct (Hv kvs')|injection Heq as <-].
  assert (Hchildren : forall key l cs, own key kvs = Some (JArr l) -> map_option conditionSchema l = Some cs ->
    Forall (fun c => va_errors (validateConditionNode known deprecated_ c) = []) cs).
  { intros key l cs Ho Hm. apply map_option_Forall2 in Hm. apply Forall_forall. intros d Hd. apply list_elem_of_lookup in Hd as [i Hi].
    destruct (Forall2_lookup_r _ _ _ _ _ Hm Hi) as (w & Hw & Hd). eapply (IHl key l); [by apply own_elem_of|by eapply list_elem_of_lookup_2|exact Hd]. }
  destruct Hcase as [(l & cs & Ho & Hm & ->)|[(l & cs & Ho & Hm & ->)|[(w & d & Ho & Hd & ->)|Hleaf]]].
  - apply node_of_group; [by left|by eapply Hchildren].
  - apply node_of_group; [by right|by eapply Hchildren].
  - change (va_errors (validateConditionNode known deprecated_ d) = []). eapply IHv; [by apply own_elem_of|done].
  - apply leafSchema_inv in Hleaf as (f & o & rest & -> & _ & _ & [-> | [x ->]]); done.
Qed.
End spec.

(** ** Instances *)

#[local] Existing Instances policy_formats example_env.

Definition preview_caller : AuthContext :=
  {| au_tenantId := "ten"; au_tenantKind := "customer"; au_userId := "user"; au_role := "owner";
     au_param := fun name => if String.eqb name "project_id" then Some "proj" else None |}.

Definition preview_body : ProjectPreviewBody :=
  {| pb_ecosystem := "npm"; pb_package := "left-pad"; pb_version := "1.3.0"; pb_field_overrides := None |}.

Definition preview_run : res (HttpResult ProjectPreview) * (nat * gateway_db) :=
  project_preview_route preview_caller preview_body (0%nat, check_example_db "enforcing").

Lemma project_preview_is_verdict_witness :
  exists p s', preview_run = (Ok (okResult p), s') /\ pp_decision p = "block" /\
    exists rules d, evaluatePolicyDecision rules (pp_field_map p) 300%Z PULL_MODE = Ok d /\ rulesMatched d = 1%nat /\
      decision_name (decision d) = "block".
Proof.
  destruct preview_run as [[[p|err]|m] s'] eqn:E; [|vm_compute in E; discriminate E..].
  exists p, s'. split; [reflexivity|].
  assert (Hd : pp_decision p = "block" /\ pp_rules_matched p = 1%nat) by (vm_compute in E; injection E as <- _; done). split; [apply Hd|].
  destruct (project_preview_is_verdict preview_caller preview_body 0 (check_example_db "enforcing") p s' 300%Z PULL_MODE E)
    as (projectId & snap & Hp & Hl & Hm).
  injection Hp as <-. vm_compute in Hl. injection Hl as <-. destruct Hm as (d & He & Hdec & _ & Hk & _); [by repeat constructor|].
  eexists _, d. split; [exact He|]. destruct Hd as [Hd1 Hd2]. by rewrite <- Hk, <- Hdec, Hd1, Hd2.
Defined.

Definition package_preview_run : res PolicyPreviewSummary * (nat * gateway_db) :=
  previewPackageDecision "proj" "ten" "npm" "left-pad" "1.3.0" (0%nat, check_example_db "enforcing").

Lemma package_preview_is_verdict_witness :
  exists sm s', package_preview_run = (Ok sm, s') /\ sm_decision sm = "block" /\ sm_reason_code sm = JStr "CRIT" /\
    exists rules fields d, evaluatePolicyDecision rules fields 300%Z PULL_MODE = Ok d /\ decision_name (decision d) = "block".
Proof.
  destruct package_preview_run as [[sm|m] s'] eqn:E; [|vm_compute in E; discriminate E].
  exists sm, s'. split; [reflexivity|].
  assert (Hd : sm_decision sm = "block" /\ sm_reason_code sm = JStr "CRIT") by (vm_compute in E; injection E as <- _; done).
  split; [apply Hd|]. split; [apply Hd|].
  destruct (package_preview_is_verdict "proj" "ten" "npm" "left-pad" "1.3.0" 0 (check_example_db "enforcing") sm s' 300%Z PULL_MODE E)
    as (snap & Hl & Hm).
  vm_compute in Hl. injection Hl as <-. destruct Hm as (fields & d & _ & He & Hdec & _); [by repeat constructor|].
  eexists _, fields, d. split; [exact He|]. destruct Hd as [Hd _]. by rewrite <- Hdec, Hd.
Defined.
