(* ===== verification/Guidance.v ===== *)
(** * Guidance on packages (services/api/src/features/mcp/services/:
    project-access.ts, package-guidance-service.ts, explain-package-decision-service.ts,
    preview-dependency-change-service.ts, suggest-allowed-versions-service.ts)

    What the MCP tools tell an agent about a version of a package: what is stored of it,
    what the policy would decide, how a change of version compares, and which version
    to use.  An error of a tool is a throw with its message.

    Queries that run at the same time run in their order here.  The collation of the
    database, by which projects are ordered by name, and [localeCompare] are
    parameters. *)

From S2P Require Import Prelude JsString JsNum JsValue Sql Effects Constants Identity Schema Tenancy Catalog Rbac Effective Decision ConnectorTypes JsDate Cache Findings Snapshots Evaluation Violations CheckService Usage Ticks Preview CheckSpec PolicySpec PreviewSpec.
Local Open Scope string_scope.
Local Open Scope list_scope.
Local Open Scope Z_scope.

(** ** Access to projects (project-access.ts) *)

Record McpPrincipal := { mp_userId : string; mp_tenantId : string; mp_role : TenantRole }.

Section guidance.
Context `{Env} `{SqlOrder} `{Formats}.

(** [ORDER BY projects.name] *)
Context (by_name : list project_row -> list project_row).

(** [left.localeCompare(right)] *)
Context (localeCompare : string -> string -> Z).

Definition on_tenants {A} (e : M tenancy_db A) : UM A := on_gateway (on_tenancy e).

Definition current_project (tenantId : string) (p : project_row) : bool :=
  String.eqb (pj_tenant_id p) tenantId && (pj_effective_to p =? VALID_TO_INFINITY).

(** [listAccessibleProjectSummaries] without search and limit. *)
Definition listAccessibleProjectSummaries (tenantId userId role : string) : M tenancy_db (list project_row) :=
  if hasImplicitProjectAccess role
  then gets (fun db => by_name (List.filter (current_project tenantId) (projects db)))
  else
    memberRows ← gets (fun db => map pmb_project_id
      (List.filter (fun m => String.eqb (pmb_user_id m) userId && String.eqb (pmb_tenant_id m) tenantId) (project_members db)));
    match memberRows with
    | [] => mret []
    | projectIds =>
        gets (fun db => by_name
          (List.filter (fun p => current_project tenantId p && existsb (String.eqb (pj_id p)) projectIds) (projects db)))
    end.

Definition mcp_uses_projects (principal : McpPrincipal) : bool := canPerform (mp_role principal) "mcp.use_project" no_context.

Definition listAccessibleMcpProjects (principal : McpPrincipal) : M tenancy_db (list project_row) :=
  if mcp_uses_projects principal
  then listAccessibleProjectSummaries (mp_tenantId principal) (mp_userId principal) (role_name (mp_role principal))
  else mret [].

(** [x?.trim() || null] *)
Definition trimmed (s : option string) : option string := present (trim <$> s).

Definition only_project (principal : McpPrincipal) : M tenancy_db project_row :=
  accessibleProjects ← listAccessibleMcpProjects principal;
  match accessibleProjects with
  | [] => throw "No accessible projects are available for MCP project tools"
  | [project] => mret project
  | ps => throw ("project_name or project_id is required. Available projects: " +:+ join ", " (map pj_name ps))
  end.

(** The project named, when the caller may use it. *)
Definition named_project (principal : McpPrincipal) (byId : bool) (rows : list project_row) : M tenancy_db project_row :=
  match rows with
  | [] => throw "Project not found"
  | project :: others =>
      if negb byId && match others with [] => false | _ => true end
      then throw "Project name is ambiguous in this tenant; use project_id instead"
      else if negb (mcp_uses_projects principal) then throw "Access denied to MCP project tools"
      else if hasImplicitProjectAccess (role_name (mp_role principal)) then mret project
      else
        hasAccess ← checkProjectAccess (mp_userId principal) (pj_id project) (mp_tenantId principal) (role_name (mp_role principal));
        if hasAccess : bool then mret project else throw "Access denied to this project"
  end.

Definition resolveMcpProject (principal : McpPrincipal) (projectId projectName : option string) : M tenancy_db project_row :=
  match trimmed projectId, trimmed projectName with
  | None, None => only_project principal
  | Some id, _ =>
      rows ← gets (fun db => firstn 1 (List.filter (is_current id (mp_tenantId principal)) (projects db)));
      named_project principal true rows
  | None, Some name =>
      rows ← gets (fun db => firstn 2 (List.filter (fun p => String.eqb (pj_name p) name && current_project (mp_tenantId principal) p) (projects db)));
      named_project principal false rows
  end.

Definition requireMcpProjectAccess (principal : McpPrincipal) (projectId : string) : UM unit :=
  _ ← on_tenants (resolveMcpProject principal (Some projectId) None); mret tt.

(** ** What is stored of a version (package-guidance-service.ts) *)

Definition severityRank (severity : option VulnSeverity) : Z :=
  match severity with
  | Some CRITICAL => 4 | Some HIGH => 3 | Some MEDIUM => 2 | Some LOW => 1 | Some NONE | None => 0
  end.

Record ContributorContextSummary := {
  cc_risk_score : num; cc_score_tier : option VulnSeverity; cc_publisher : option string;
  cc_publisher_seen_before_package : option bool; cc_publisher_seen_count_before : option Z;
  cc_publisher_matches_prior_version : option bool; cc_maintainer_set_changed : option bool; cc_new_maintainer_count : option Z;
  cc_removed_maintainer_count : option Z; cc_maintainer_count : option Z; cc_has_install_scripts : option bool;
  cc_has_provenance : option bool; cc_has_trusted_publisher : option bool; cc_release_velocity_7d : option Z;
  cc_release_velocity_30d : option Z; cc_history_complete : option bool; cc_raw_factors : jsval; cc_last_scored_at : option string
}.

Record PackageVersionContext := {
  vc_package_id : option string; vc_used_version_published_at : option string; vc_latest_version : option string;
  vc_latest_version_published_at : option string; vc_is_latest : option bool; vc_latest_package_version_id : option string;
  vc_remediation_available : bool; vc_fix_version : option string; vc_finding_count : Z; vc_risk_tier : option VulnSeverity;
  vc_recently_observed : bool; vc_request_count : Z; vc_allow_count : Z; vc_block_count : Z; vc_first_seen_at : option string;
  vc_last_seen_at : option string; vc_observed_findings_count : nat; vc_finding_summary : option string;
  vc_historical_blocks_count : nat; vc_last_blocked_at : option string; vc_last_block_reason_code : option string;
  vc_last_block_reason_summary : option string; vc_last_block_matched_rule : option string;
  vc_last_block_enforcement_mode : option string; vc_contributor_context : option ContributorContextSummary
}.

Definition find_version (id : string) (t : catalog_db) : option package_version_row :=
  js_find (fun v => String.eqb (pv_id v) id) (package_versions t).

(** The rows of a package, and those of one of its versions. *)
Definition package_rows (ecosystem packageName : string) (t : catalog_db) : list (package_version_row * package_row) :=
  List.filter (fun r => String.eqb (pk_ecosystem r.2) ecosystem && String.eqb (pk_package r.2) packageName)
    (inner_join (fun v p => String.eqb (pv_package_id v) (pk_id p)) (package_versions t) (packages t)).

Definition version_rows (ecosystem packageName version : string) (t : catalog_db) : list (package_version_row * package_row) :=
  List.filter (fun r => String.eqb (pv_version r.1) version) (package_rows ecosystem packageName t).

(** Joins: the latest version, the cached results of a connector, the release facts. *)
Definition latest_of (p : package_row) (t : catalog_db) : option package_version_row :=
  id ← pk_latest_package_version_id p; find_version id t.

Definition cached_for (connector : string) (v : package_version_row) (db : check_db) : option CacheRow :=
  js_find (fun r => String.eqb (cr_connector_id r) connector && opt_eq (cr_package_version_id r) (pv_id v)) (connector_cache db).

Definition facts_of (v : package_version_row) (db : check_db) : option release_facts_row :=
  js_find (fun r => String.eqb (rf_package_version_id r) (pv_id v)) (release_facts db).

(** [packages.latest_package_version_id = package_versions.id] *)
Definition is_latest_of (r : package_version_row * package_row) : option bool :=
  (fun id => String.eqb id (pv_id r.1)) <$> pk_latest_package_version_id r.2.

(** [data->'findings'->0->'attributes'->'raw_factors'] *)
Definition raw_factors_of (r : option CacheRow) : jsval :=
  default JNull (r ← r; d ← data r; fs ← cd_findings d; f ← head fs; own "raw_factors" (ch_attributes f)).

Definition buildContributorContext (cached : option CacheRow) (facts : option release_facts_row) : option ContributorContextSummary :=
  let riskScore := default num_zero (r ← cached; risk_score r) in
  match cached with
  | None => None
  | Some r =>
      Some
        {| cc_risk_score := riskScore; cc_score_tier := Some (risk_tier r); cc_publisher := f ← facts; rf_publish_actor f;
           cc_publisher_seen_before_package := f ← facts; rf_publisher_seen_before_package f;
           cc_publisher_seen_count_before := f ← facts; rf_publisher_seen_count_before f;
           cc_publisher_matches_prior_version := f ← facts; rf_publisher_matches_prior_version f;
           cc_maintainer_set_changed := f ← facts; rf_maintainer_set_changed f;
           cc_new_maintainer_count := f ← facts; rf_new_maintainer_count f;
           cc_removed_maintainer_count := f ← facts; rf_removed_maintainer_count f;
           cc_maintainer_count := f ← facts; rf_maintainer_count f;
           cc_has_install_scripts := f ← facts; rf_has_install_scripts f; cc_has_provenance := f ← facts; rf_has_provenance f;
           cc_has_trusted_publisher := f ← facts; rf_has_trusted_publisher f;
           cc_release_velocity_7d := f ← facts; rf_release_velocity_7d f; cc_release_velocity_30d := f ← facts; rf_release_velocity_30d f;
           cc_history_complete := f ← facts; rf_history_complete f; cc_raw_factors := raw_factors_of (Some r);
           cc_last_scored_at := Some (toISOString (queried_at r)) |}
  end.

(** *** The context of a version *)

Definition catalog_of (u : usage_db) : catalog_db := catalog_tables (check_tables (gateway u)).

(** The findings of the version observed in the project at [now]. *)
Definition findingRows (projectId tenantId : string) (versions : list (package_version_row * package_row)) (now : timestamp) (u : usage_db)
  : list finding_version_row :=
  let ft := finding_tables (check_tables (gateway u)) in
  let own p := String.eqb (pf_project_id p) projectId && String.eqb (pf_tenant_id p) tenantId && (now <? pf_observed_to p) in
  let current := inner_join (fun p fv => String.eqb (pf_current_finding_version_id p) (fv_id fv)) (List.filter own (project_findings ft)) (finding_versions ft) in
  map (fun r => r.1.2) (inner_join (fun r v => opt_eq (pf_package_version_id r.1) (pv_id v.1)) current versions).

(** The usage of the version in the project. *)
Definition usageRows (projectId tenantId : string) (versions : list (package_version_row * package_row)) (u : usage_db)
  : list (usage_row * (package_version_row * package_row)) :=
  let own r := String.eqb (pu_project_id r) projectId && String.eqb (pu_tenant_id r) tenantId in
  inner_join (fun r v => String.eqb (pu_package_version_id r) (pv_id v.1)) (List.filter own (package_usage u)) versions.

(** The violations of the version in the project that block. *)
Definition blockedRows (projectId tenantId : string) (versions : list (package_version_row * package_row)) (u : usage_db)
  : list violation_row :=
  let own r := String.eqb (vi_project_id r) projectId && String.eqb (vi_tenant_id r) tenantId && vi_blocked r in
  map fst (inner_join (fun r v => opt_eq (vi_package_version_id r) (pv_id v.1)) (List.filter own (violations (record_tables (gateway u)))) versions).

Definition maxSeverity (stored : option VulnSeverity) (observed : list finding_version_row) : option VulnSeverity :=
  foldl (fun current row =>
    match current with
    | None => Some (mt_severity (fv_material row))
    | Some _ => if severityRank current <? severityRank (Some (mt_severity (fv_material row))) then Some (mt_severity (fv_material row)) else current
    end) stored observed.

Definition iso_date (t : option timestamp) : option string := toISOString <$> t.

Definition version_context (projectId tenantId ecosystem packageName version : string) (now : timestamp) (u : usage_db) : PackageVersionContext :=
  let catalog_ := catalog_of u in
  let versions := version_rows ecosystem packageName version catalog_ in
  let packageRow := head versions in
  let latestOfRow := r ← packageRow; latest_of r.2 catalog_ in
  let osv := r ← packageRow; cached_for "osv" r.1 (check_tables (gateway u)) in
  let contributor := r ← packageRow; cached_for "contributor" r.1 (check_tables (gateway u)) in
  let latestPackageRow := r ← head (List.filter (fun p => String.eqb (pk_ecosystem p) ecosystem && String.eqb (pk_package p) packageName
                                       && bool_decide (is_Some (latest_of p catalog_))) (packages catalog_)); latest_of r catalog_ in
  let observedFindings := findingRows projectId tenantId versions now u in
  let usageRow := fst <$> head (usageRows projectId tenantId versions u) in
  let blocked := blockedRows projectId tenantId versions u in
  let latestBlockedRow := head (order_by (fun r => - vi_last_seen_at r) blocked) in
  {| vc_package_id := (fun r => pk_id r.2) <$> packageRow;
     vc_used_version_published_at := iso_date (r ← packageRow; pv_published_at r.1);
     vc_latest_version := match latestOfRow with Some l => Some (pv_version l) | None => pv_version <$> latestPackageRow end;
     vc_latest_version_published_at :=
       match iso_date (l ← latestOfRow; pv_published_at l) with Some t => Some t | None => iso_date (l ← latestPackageRow; pv_published_at l) end;
     vc_is_latest := r ← packageRow; is_latest_of r;
     vc_latest_package_version_id := r ← packageRow; pk_latest_package_version_id r.2;
     vc_remediation_available := from_option remediation_available false osv; vc_fix_version := r ← osv; best_remediation r;
     vc_finding_count := from_option finding_count 0 osv; vc_risk_tier := maxSeverity (risk_tier <$> osv) observedFindings;
     vc_recently_observed := bool_decide (is_Some usageRow); vc_request_count := from_option pu_request_count 0 usageRow;
     vc_allow_count := from_option pu_allow_count 0 usageRow; vc_block_count := from_option pu_block_count 0 usageRow;
     vc_first_seen_at := iso_date (pu_created_at <$> usageRow); vc_last_seen_at := iso_date (pu_updated_at <$> usageRow);
     vc_observed_findings_count := length observedFindings;
     vc_finding_summary := r ← head observedFindings; mt_title (fv_material r);
     vc_historical_blocks_count := length blocked; vc_last_blocked_at := iso_date (vi_last_seen_at <$> latestBlockedRow);
     vc_last_block_reason_code := vi_code <$> latestBlockedRow; vc_last_block_reason_summary := vi_message <$> latestBlockedRow;
     vc_last_block_matched_rule := (fun _ => EmptyString) <$> latestBlockedRow;
     vc_last_block_enforcement_mode := vi_enforcement_mode <$> latestBlockedRow;
     vc_contributor_context := r ← packageRow; buildContributorContext contributor (facts_of r.1 (check_tables (gateway u))) |}.

Definition loadPackageVersionContext (projectId tenantId ecosystem packageName version : string) : UM PackageVersionContext :=
  now ← now_; gets (version_context projectId tenantId ecosystem packageName version now).

(** ** The versions of a package seen in a project *)

(** The columns its caller reads; those of the contributor are left out. *)
Record ObservedVersion := {
  ov_version : string; ov_is_latest : option bool; ov_latest_version : option string; ov_fix_version : option string;
  ov_last_seen_at : timestamp
}.

Definition observed_version (u : usage_db) (r : usage_row * (package_version_row * package_row)) : ObservedVersion :=
  {| ov_version := pv_version r.2.1; ov_is_latest := is_latest_of r.2; ov_latest_version := pv_version <$> latest_of r.2.2 (catalog_of u);
     ov_fix_version := c ← cached_for "osv" r.2.1 (check_tables (gateway u)); best_remediation c;
     ov_last_seen_at := pu_updated_at r.1 |}.

Definition listObservedProjectPackageVersions (projectId tenantId ecosystem packageName : string) : UM (list ObservedVersion) :=
  gets (fun u => order_by (fun o => - ov_last_seen_at o)
                   (map (observed_version u) (usageRows projectId tenantId (package_rows ecosystem packageName (catalog_of u)) u))).

Definition loadLatestKnownPackageVersion (ecosystem packageName : string) : UM (option string) :=
  gets (fun u => pv_version <$> head (omap (fun p => latest_of p (catalog_of u))
    (List.filter (fun p => String.eqb (pk_ecosystem p) ecosystem && String.eqb (pk_package p) packageName) (packages (catalog_of u))))).

(** What a tool gathers of a version: what is stored and what the policy would decide. *)
Definition package_guidance (projectId tenantId ecosystem packageName version : string) : UM (PackageVersionContext * PolicyPreviewSummary) :=
  context ← loadPackageVersionContext projectId tenantId ecosystem packageName version;
  preview ← on_gateway (previewPackageDecision projectId tenantId ecosystem packageName version);
  mret (context, preview).

(** ** Suggesting a version (suggest-allowed-versions-service.ts) *)

Record SuggestAllowedVersionsInput := {
  si_projectId : string; si_ecosystem : string; si_packageName : string; si_currentVersion : option string
}.

Record Candidate := {
  ca_version : string; ca_decision : string; ca_reason_code : jsval; ca_reason_summary : string; ca_matched_rule : option string;
  ca_enforcement_mode : jsval; ca_context : PackageVersionContext; ca_recommendation_score : Z; ca_why_preferred : list string
}.

Record SuggestedVersions := { sv_current_version : option string; sv_suggested_version : option string; sv_candidates : list Candidate }.

Definition listed {A} (o : option A) : list A := match o with Some a => [a] | None => [] end.

Definition row_candidates (row : ObservedVersion) : list string :=
  ov_version row :: listed (present (ov_latest_version row)) ++ listed (present (ov_fix_version row)).

Definition hasLatestCandidate (observedRows : list ObservedVersion) : bool :=
  existsb (fun row => default false (ov_is_latest row) || bool_decide (is_Some (present (ov_latest_version row)))) observedRows.

Definition candidateVersions (currentVersion : option string) (observedRows : list ObservedVersion) (latestKnown : option string) : list string :=
  set_of (listed (present currentVersion) ++ concat (map row_candidates observedRows) ++ listed (present latestKnown)).

Definition currentRow (currentVersion : option string) (observedRows : list ObservedVersion) : option ObservedVersion :=
  match present currentVersion with
  | Some v => js_find (fun row => String.eqb (ov_version row) v) observedRows
  | None => head observedRows
  end.

Definition is_version (known : option string) (version : string) : bool := bool_decide (present known = Some version).

Definition recommendation_score (current currentFixVersion : option string) (version : string) (context : PackageVersionContext) (allowed : bool) : Z :=
  (if allowed then 1000 else 0)
  + (if default false (vc_is_latest context) then 250 else 0)
  + (if is_version currentFixVersion version then 180 else 0)
  + (if is_version (vc_fix_version context) version then 120 else 0)
  + (match vc_observed_findings_count context with O => 90 | n => - (Z.of_nat n * 20) end)
  - severityRank (vc_risk_tier context) * 15
  + (if vc_recently_observed context then 35 else 0)
  - (if is_version current version then 10 else 0).

Definition why_preferred (currentFixVersion : option string) (version : string) (context : PackageVersionContext) (preview : PolicyPreviewSummary) : list string :=
  [if String.eqb (sm_decision preview) DECISION.ALLOW then "currently allowed by effective policy" else sm_reason_summary preview]
  ++ (if default false (vc_is_latest context) then ["matches the latest known version"]
      else match present (vc_latest_version context) with Some l => ["latest known version is " +:+ l] | None => [] end)
  ++ (if is_version currentFixVersion version then ["matches the known fix version"] else [])
  ++ (match vc_observed_findings_count context with
      | O => ["no observed findings recorded for this version"]
      | n => [digits (Z.of_nat n) +:+ " observed findings recorded"]
      end)
  ++ (if vc_recently_observed context then ["already observed in this project"] else []).

Definition evaluated_candidate (current currentFixVersion : option string) (version : string)
    (guidance : PackageVersionContext * PolicyPreviewSummary) : Candidate :=
  let context := guidance.1 in
  let preview := guidance.2 in
  {| ca_version := version; ca_decision := sm_decision preview; ca_reason_code := sm_reason_code preview;
     ca_reason_summary := sm_reason_summary preview; ca_matched_rule := sm_matched_rule preview;
     ca_enforcement_mode := sm_enforcement_mode preview; ca_context := context;
     ca_recommendation_score :=
       recommendation_score current currentFixVersion version context (String.eqb (sm_decision preview) DECISION.ALLOW);
     ca_why_preferred := why_preferred currentFixVersion version context preview |}.

Definition evaluate_candidate (projectId tenantId ecosystem packageName : string) (current currentFixVersion : option string) (version : string) : UM Candidate :=
  guidance ← package_guidance projectId tenantId ecosystem packageName version;
  mret (evaluated_candidate current currentFixVersion version guidance).

(** The comparator of the sort, as an order. *)
Definition candidate_before (left_ right_ : Candidate) : bool :=
  if ca_recommendation_score left_ =? ca_recommendation_score right_ then localeCompare (ca_version left_) (ca_version right_) <=? 0
  else ca_recommendation_score right_ - ca_recommendation_score left_ <=? 0.

Definition is_allowed (c : Candidate) : bool := String.eqb (ca_decision c) DECISION.ALLOW.

Definition suggestAllowedVersionsForMcp (principal : McpPrincipal) (input : SuggestAllowedVersionsInput) : UM SuggestedVersions :=
  let current := si_currentVersion input in
  _ ← requireMcpProjectAccess principal (si_projectId input);
  observedRows ← listObservedProjectPackageVersions (si_projectId input) (mp_tenantId principal) (si_ecosystem input) (si_packageName input);
  latestKnown ← (if hasLatestCandidate observedRows then mret None else loadLatestKnownPackageVersion (si_ecosystem input) (si_packageName input));
  let currentFixVersion := row ← currentRow current observedRows; ov_fix_version row in
  evaluatedCandidates ←
    mapM_ (evaluate_candidate (si_projectId input) (mp_tenantId principal) (si_ecosystem input) (si_packageName input) current currentFixVersion)
      (candidateVersions current observedRows latestKnown);
  let candidates := js_sort candidate_before evaluatedCandidates in
  mret {| sv_current_version := current; sv_suggested_version := ca_version <$> head (List.filter is_allowed candidates);
          sv_candidates := candidates |}.

(** ** Comparing two versions (preview-dependency-change-service.ts) *)

Record PreviewDependencyChangeInput := {
  ci_projectId : string; ci_ecosystem : string; ci_packageName : string; ci_fromVersion : string; ci_toVersion : string
}.

Definition classifyOutcome (fromDecision toDecision : string) (fromFindings toFindings : nat) : string :=
  if String.eqb fromDecision "block" && String.eqb toDecision "allow" then "improves"
  else if String.eqb fromDecision "allow" && String.eqb toDecision "block" then "regresses"
  else if (toFindings <? fromFindings)%nat then "improves"
  else if (fromFindings <? toFindings)%nat then "regresses"
  else "neutral".

(** [snapshot_status: statuses.contributor ?? null] beside the contributor's context. *)
Definition contributor_of (guidance : PackageVersionContext * PolicyPreviewSummary) : option (ContributorContextSummary * option connector_status) :=
  (fun c => (c, map_get "contributor" (sm_snapshot_statuses guidance.2))) <$> vc_contributor_context guidance.1.

Record DependencySide := {
  ds_version : string; ds_context : PackageVersionContext; ds_preview : PolicyPreviewSummary;
  ds_contributor_context : option (ContributorContextSummary * option connector_status)
}.

Record DependencyChange := {
  dc_from : DependencySide; dc_to : DependencySide; dc_policy_status_change : string; dc_outcome : string; dc_findings_delta : Z;
  dc_moves_to_latest : bool; dc_matches_known_fix_version : bool
}.

Definition dependency_side (version : string) (guidance : PackageVersionContext * PolicyPreviewSummary) : DependencySide :=
  {| ds_version := version; ds_context := guidance.1; ds_preview := guidance.2; ds_contributor_context := contributor_of guidance |}.

Definition previewDependencyChangeForMcp (principal : McpPrincipal) (input : PreviewDependencyChangeInput) : UM DependencyChange :=
  let guidance := package_guidance (ci_projectId input) (mp_tenantId principal) (ci_ecosystem input) (ci_packageName input) in
  _ ← requireMcpProjectAccess principal (ci_projectId input);
  from_ ← guidance (ci_fromVersion input);
  to_ ← guidance (ci_toVersion input);
  mret {| dc_from := dependency_side (ci_fromVersion input) from_; dc_to := dependency_side (ci_toVersion input) to_;
          dc_policy_status_change := sm_decision from_.2 +:+ "_to_" +:+ sm_decision to_.2;
          dc_outcome := classifyOutcome (sm_decision from_.2) (sm_decision to_.2)
                          (vc_observed_findings_count from_.1) (vc_observed_findings_count to_.1);
          dc_findings_delta := Z.of_nat (vc_observed_findings_count to_.1) - Z.of_nat (vc_observed_findings_count from_.1);
          dc_moves_to_latest := default false (vc_is_latest to_.1);
          dc_matches_known_fix_version := is_version (vc_fix_version from_.1) (ci_toVersion input) |}.

(** ** Explaining a decision (explain-package-decision-service.ts) *)

Record ExplainPackageDecisionInput := { ei_projectId : string; ei_ecosystem : string; ei_packageName : string; ei_version : string }.

Record PackageExplanation := {
  pe_decision : string; pe_reason_code : jsval; pe_reason_summary : string; pe_matched_rule : option string; pe_enforcement_mode : jsval;
  pe_context : PackageVersionContext; pe_preview : PolicyPreviewSummary;
  pe_contributor_context : option (ContributorContextSummary * option connector_status)
}.

(** The first text that is not empty. *)
Definition explained_reason (input : ExplainPackageDecisionInput) (context : PackageVersionContext) (preview : PolicyPreviewSummary) : string :=
  match present (Some (sm_reason_summary preview)), present (vc_last_block_reason_summary context) with
  | Some s, _ => s
  | None, Some s => s
  | None, None =>
      if (0 <? vc_observed_findings_count context)%nat
      then "Observed findings detected for " +:+ ei_packageName input +:+ "@" +:+ ei_version input
      else "No blocking policy match found"
  end.

Definition explainPackageDecisionForMcp (principal : McpPrincipal) (input : ExplainPackageDecisionInput) : UM PackageExplanation :=
  _ ← requireMcpProjectAccess principal (ei_projectId input);
  guidance ← package_guidance (ei_projectId input) (mp_tenantId principal) (ei_ecosystem input) (ei_packageName input) (ei_version input);
  let context := guidance.1 in
  let preview := guidance.2 in
  mret {| pe_decision := sm_decision preview; pe_reason_code := sm_reason_code preview;
          pe_reason_summary := explained_reason input context preview;
          pe_matched_rule := match sm_matched_rule preview with Some r => Some r | None => vc_last_block_matched_rule context end;
          pe_enforcement_mode := nullish (sm_enforcement_mode preview) (from_option JStr JNull (vc_last_block_enforcement_mode context));
          pe_context := context; pe_preview := preview; pe_contributor_context := contributor_of guidance |}.
End guidance.

(** ** What the tools change

    The lookup of an artifact inserts the rows the catalogue misses, for the names a
    caller types, so the tools write the catalogue; they write nothing else. *)

Definition put_catalog (t : catalog_db) (g : gateway_db) : gateway_db := set_check_tables (set_catalog t (check_tables g)) g.
Definition with_catalog (t : catalog_db) (u : usage_db) : usage_db := set_gateway (put_catalog t (gateway u)) u.

Definition writes_catalog {A} (e : GM A) : Prop := forall g, keeps (fun _ g' => exists t, g' = put_catalog t g) e.

(** An operation that leaves its state as it is. *)
Definition reads {S A} (e : M S A) : Prop := forall s, keeps (fun _ s' => s' = s) e.

Lemma reads_keeps {S A} (P : S -> Prop) (e : M S A) : reads e -> keeps (fun _ s => P s) e.
Proof. intros He n s Hp. specialize (He s n s eq_refl). destruct (e (n, s)) as [r [n' s']]. destruct He as [? ->]. done. Qed.

Lemma reads_zoom {S T A} (get : S -> T) (set : T -> S -> S) (e : M T A) :
  (forall s, set (get s) s = s) -> reads e -> reads (zoom get set e).
Proof.
  intros Hset He s n s1 ->. specialize (He (get s) n (get s) eq_refl). unfold zoom. cbn [fst snd].
  destruct (e (n, get s)) as [r [n' t]]. destruct He as [? ->]. cbn. by rewrite Hset.
Qed.

Lemma reads_returns {S A} (e : M S A) s a s' : reads e -> returns e s a s' -> s'.2 = s.2.
Proof. intros He Hr. by destruct (returns_keeps _ _ _ _ _ (He s.2) Hr eq_refl). Qed.

Lemma filter_and {A} (p q : A -> bool) l : List.filter (fun x => p x && q x) l = List.filter q (List.filter p l).
Proof. induction l as [|x l IH]; [done|]. cbn [List.filter]. destruct (p x); cbn [andb List.filter]; by rewrite IH. Qed.

Section spec.
Context `{Env} `{SqlOrder} `{Formats}.

Lemma lookup_writes_catalog {A} (e : M catalog_db A) : ticks e -> writes_catalog (on_check (on_catalog e)).
Proof using Type.
  rewrite ticks_spec. intros He g n g1 [t ->]. specialize (He n t). unfold on_check, on_catalog, zoom. cbn.
  destruct (e (n, t)) as [r [n' t']]. cbn in *. split; [done|]. by exists t'.
Qed.

Lemma snapshots_read {A} (e : M (list snapshot_row) A) : reads e -> reads (on_check (on_snapshots e)).
Proof using Type. intros He. apply reads_zoom; [by intros []|]. apply reads_zoom; [by intros []|done]. Qed.

Lemma load_policy_reads tenantId projectId : reads (load_policy tenantId projectId).
Proof using Type. intros g. unfold load_policy. keeps_walk. Qed.

Lemma with_unavailable_reads stored keys : reads (with_unavailable stored keys).
Proof using Type. intros g. induction keys; cbn [with_unavailable]; keeps_walk; done. Qed.

Lemma collect_preview_fields_reads projectId ecosystem package version artifact rules :
  reads (collect_preview_fields projectId ecosystem package version artifact rules).
Proof using Type.
  intros g. unfold collect_preview_fields. apply keeps_bind; [|intros stored; apply keeps_bind; [apply keeps_of_res|intros keys; apply keeps_bind]].
  - apply snapshots_read. intros s. apply keeps_gets.
  - apply with_unavailable_reads.
  - intros rest. keeps_walk.
Qed.

Lemma preview_writes_catalog projectId tenantId ecosystem package version :
  writes_catalog (previewPackageDecision projectId tenantId ecosystem package version).
Proof using Type.
  intros g. unfold previewPackageDecision. apply keeps_bind; [apply reads_keeps, load_policy_reads|]. intros snap.
  destruct (allRules snap); [apply keeps_ret|]. apply keeps_bind; [apply lookup_writes_catalog, resolveArtifactIdentity_ticks|].
  intros artifact. apply keeps_bind; [apply reads_keeps, collect_preview_fields_reads|]. intros collected. keeps_walk.
Qed.

Context (by_name : list project_row -> list project_row).

Lemma listAccessible_reads principal : reads (listAccessibleMcpProjects by_name principal).
Proof using Type. intros t. unfold listAccessibleMcpProjects, listAccessibleProjectSummaries. keeps_walk. Qed.

Lemma named_project_reads principal byId rows : reads (named_project principal byId rows).
Proof using Type. intros t. unfold named_project, checkProjectAccess. keeps_walk. Qed.

Lemma resolveMcpProject_reads principal projectId projectName : reads (resolveMcpProject by_name principal projectId projectName).
Proof using Type.
  intros t. unfold resolveMcpProject, only_project. destruct (trimmed projectId), (trimmed projectName);
    (apply keeps_bind; [first [apply keeps_gets|apply listAccessible_reads]|intros rows]); first [apply named_project_reads|keeps_walk].
Qed.

Lemma access_reads principal projectId : reads (requireMcpProjectAccess by_name principal projectId).
Proof using Type.
  intros u. unfold requireMcpProjectAccess. apply keeps_bind; [|intros; apply keeps_ret].
  apply reads_zoom; [by intros []|]. apply reads_zoom; [by intros []|]. apply resolveMcpProject_reads.
Qed.

Lemma guidance_writes_catalog projectId tenantId ecosystem package version u :
  keeps (fun _ u' => exists t, u' = with_catalog t u) (package_guidance projectId tenantId ecosystem package version).
Proof using Type.
  unfold package_guidance, loadPackageVersionContext. apply keeps_bind; [keeps_walk|]. intros context. apply keeps_bind; [|intros; apply keeps_ret].
  intros n u1 [t ->]. assert (Hk := preview_writes_catalog projectId tenantId ecosystem package version (gateway u) n (put_catalog t (gateway u)) (ex_intro _ t eq_refl)).
  unfold on_gateway, zoom. cbn. destruct (previewPackageDecision _ _ _ _ _ _) as [r [n' g']]. destruct Hk as [Hn [t' ->]]. split; [done|]. by exists t'.
Qed.

(** *** What a context shows *)

(** Two states that differ at most in the rows of other projects. *)
Record same_project (projectId tenantId : string) (u u' : usage_db) : Prop := {
  sp_catalog : catalog_of u' = catalog_of u;
  sp_cache : connector_cache (check_tables (gateway u')) = connector_cache (check_tables (gateway u));
  sp_facts : release_facts (check_tables (gateway u')) = release_facts (check_tables (gateway u));
  sp_versions : finding_versions (finding_tables (check_tables (gateway u'))) = finding_versions (finding_tables (check_tables (gateway u)));
  sp_findings :
    let own p := String.eqb (pf_project_id p) projectId && String.eqb (pf_tenant_id p) tenantId in
    List.filter own (project_findings (finding_tables (check_tables (gateway u')))) =
    List.filter own (project_findings (finding_tables (check_tables (gateway u))));
  sp_usage :
    let own r := String.eqb (pu_project_id r) projectId && String.eqb (pu_tenant_id r) tenantId in
    List.filter own (package_usage u') = List.filter own (package_usage u);
  sp_violations :
    let own r := String.eqb (vi_project_id r) projectId && String.eqb (vi_tenant_id r) tenantId in
    List.filter own (violations (record_tables (gateway u'))) = List.filter own (violations (record_tables (gateway u)))
}.

(** What a tool tells of a version does not depend on what other projects did. *)
Lemma version_context_confined projectId tenantId ecosystem package version now u u' :
  same_project projectId tenantId u u' ->
  version_context projectId tenantId ecosystem package version now u' = version_context projectId tenantId ecosystem package version now u.
Proof using Type.
  intros [Hc Hk Hf Hv Hfind Huse Hvio]. cbv zeta in *. assert (Hsplit : forall {A} (p q : A -> bool) l l',
    List.filter p l' = List.filter p l -> List.filter (fun x => p x && q x) l' = List.filter (fun x => p x && q x) l).
  { intros A p q l l' He. rewrite !filter_and, He. done. }
  assert (Hfr : forall versions, findingRows projectId tenantId versions now u' = findingRows projectId tenantId versions now u).
  { intros versions. unfold findingRows. cbv zeta. rewrite Hv, (Hsplit _ _ _ _ _ Hfind). done. }
  assert (Hur : forall versions, usageRows projectId tenantId versions u' = usageRows projectId tenantId versions u).
  { intros versions. unfold usageRows. cbv zeta. by rewrite Huse. }
  assert (Hbr : forall versions, blockedRows projectId tenantId versions u' = blockedRows projectId tenantId versions u).
  { intros versions. unfold blockedRows. cbv zeta. rewrite (Hsplit _ _ _ _ _ Hvio). done. }
  unfold version_context. rewrite Hc, Hfr, Hur, Hbr. unfold cached_for, facts_of. by rewrite Hk, Hf.
Qed.

(** ** What a suggestion is worth *)

(** The caller may use the project: it is one of its tenant in force, and its role has
    all projects or it is a member. *)
Definition may_use_project (principal : McpPrincipal) (projectId : string) (t : tenancy_db) : Prop :=
  mcp_uses_projects principal = true /\ existsb (is_current projectId (mp_tenantId principal)) (projects t) = true /\
  (hasImplicitProjectAccess (role_name (mp_role principal)) = true \/
   existsb (is_member (mp_userId principal) projectId (mp_tenantId principal)) (project_members t) = true).

Lemma access_may_use principal projectId s r s' :
  trimmed (Some projectId) = Some projectId ->
  returns (requireMcpProjectAccess by_name principal projectId) s r s' ->
  may_use_project principal projectId (tenancy_tables (gateway s.2)).
Proof using Type.
  intros Ht Hr. unfold requireMcpProjectAccess in Hr. apply returns_bind in Hr as (p & s1 & Hr & _).
  apply returns_zoom in Hr as (g & Hr & _). apply returns_zoom in Hr as (t & Hr & _). cbn [snd fst] in Hr.
  unfold resolveMcpProject in Hr. rewrite Ht in Hr. apply returns_bind in Hr as (rows & s2 & Hrows & Hr).
  apply returns_gets in Hrows as [-> ->]. cbn [snd] in Hr. set (t0 := tenancy_tables (gateway s.2)) in *.
  destruct (List.filter (is_current projectId (mp_tenantId principal)) (projects t0)) as [|q l] eqn:E; [by apply returns_throw in Hr|].
  assert (Hq : q ∈ List.filter (is_current projectId (mp_tenantId principal)) (projects t0)) by (rewrite E; set_solver).
  apply elem_of_filter_b in Hq as [Hq Hcur]. assert (Hid : pj_id q = projectId).
  { unfold is_current in Hcur. apply andb_prop in Hcur as [Hcur _]. apply andb_prop in Hcur as [Hcur _]. by apply String.eqb_eq in Hcur. }
  cbn [firstn named_project negb andb] in Hr. destruct (mcp_uses_projects principal) eqn:Hu; [|by apply returns_throw in Hr].
  cbn [negb] in Hr. split; [done|]. split; [apply existsb_exists; exists q; split; [by apply list_elem_of_In|done]|].
  destruct (hasImplicitProjectAccess _) eqn:Hi; [by left|]. right. apply returns_bind in Hr as (b & s3 & Hb & Hr).
  unfold checkProjectAccess in Hb. rewrite Hi in Hb. apply returns_gets in Hb as [-> _]. cbn [snd] in Hr. rewrite Hid in Hr. fold t0 in Hr.
  destruct (existsb _ (project_members t0)); [done|by apply returns_throw in Hr].
Qed.

(** How an agent's tool looks a version up in the catalogue. *)
Definition looks_up (ecosystem package version : string) (t t' : catalog_db) : Prop :=
  exists n artifact n',
    returns (resolveArtifactIdentity {| ai_input := {| i_ecosystem := ecosystem; i_package := package; i_version := Some version |};
                                        ai_source := Some "mcp_policy_preview"; ai_parser_version := None |}) (n, t) artifact (n', t').

(** What lookups of these versions, one after another, make of the catalogue. *)
Inductive looked_up (ecosystem package : string) (versions : list string) (t : catalog_db) : catalog_db -> Prop :=
| looked_up_none : looked_up ecosystem package versions t t
| looked_up_more t1 t2 version :
    looked_up ecosystem package versions t t1 -> version ∈ versions -> looks_up ecosystem package version t1 t2 ->
    looked_up ecosystem package versions t t2.

(** At a reading of the clock in this window, with the catalogue as earlier lookups left
    it, the rules in force for the project block nothing on the fields of a preview of
    this version. *)
Definition passes_policy (window : nat * nat) (principal : McpPrincipal) (projectId ecosystem package version : string)
    (earlier : list string) (u : usage_db) : Prop :=
  exists k t snap, (window.1 <= k < window.2)%nat /\ looked_up ecosystem package earlier (catalog_of u) t /\
    loadEffectivePolicy (policy_tables (gateway u)) (mp_tenantId principal) projectId (clock k) = Ok snap /\
    (allRules snap = [] \/ (Forall typed_rule (allRules snap) ->
       exists fs, previewed_fields (S k) (set_catalog t (check_tables (gateway u))) projectId ecosystem package version (allRules snap) fs /\
         blocking_matches fs (allRules snap) = [])).

Lemma allowed_preview_passes projectId tenantId ecosystem package version n db sm s' :
  returns (previewPackageDecision projectId tenantId ecosystem package version) (n, db) sm s' -> sm_decision sm = DECISION.ALLOW ->
  exists snap, loadEffectivePolicy (policy_tables db) tenantId projectId (clock n) = Ok snap /\
    (allRules snap = [] \/ (Forall typed_rule (allRules snap) ->
       exists fs, previewed_fields (S n) (check_tables db) projectId ecosystem package version (allRules snap) fs /\
         blocking_matches fs (allRules snap) = [])).
Proof using Type.
  intros (snap & Hl & Hr)%preview_runs Hd. exists snap. split; [exact Hl|].
  destruct Hr as [[Hnil _]|(_ & fs & st & Hf & Hs & Ed & _)]; [by left|right]. intros Ht. exists fs. split; [exact Hf|].
  destruct (summary_reset_run fs st _ Hs) as (Rd & _). apply summary_rules_spec in Hs as (Hd' & _); [|by left].
  rewrite <- typed_blocking by done. rewrite Ed, Rd, Hd' in Hd. by destruct (preview_blocking fs (allRules snap)).
Qed.

(** A preview reads the clock, looks its version up, and writes nothing else. *)
Lemma preview_looks_up projectId tenantId ecosystem package version n db sm s' :
  returns (previewPackageDecision projectId tenantId ecosystem package version) (n, db) sm s' ->
  (n < s'.1)%nat /\ exists t, s'.2 = put_catalog t db /\
    (t = catalog_tables (check_tables db) \/ looks_up ecosystem package version (catalog_tables (check_tables db)) t).
Proof using Type.
  intros Hr. unfold previewPackageDecision in Hr. apply returns_bind in Hr as (snap & s1 & Hl & Hr).
  assert (Hs1 : s1 = (S n, db)) by (unfold load_policy in Hl; by run_inv). subst s1.
  destruct (allRules snap) as [|rule0 rules0].
  { apply returns_ret in Hr as [_ ->]. split; [cbn; lia|]. exists (catalog_tables (check_tables db)). split; [by destruct db as [? ? [] ? ? ?]|by left]. }
  apply returns_bind in Hr as (artifact & s2 & Ha & Hr). apply returns_zoom in Ha as (c & Ha & ->). apply returns_zoom in Ha as (t & Ha & ->).
  cbn [fst snd] in *. assert (Ht := proj1 (ticks_spec _) (resolveArtifactIdentity_ticks (preview_input ecosystem package version "mcp_policy_preview")) (S n) (catalog_tables (check_tables db))).
  assert (Hrun := Ha). unfold returns in Hrun. rewrite Hrun in Ht. cbn [fst snd] in Ht. clear Hrun.
  apply returns_bind in Hr as (collected & s3 & Hc & Hr).
  destruct (returns_keeps _ _ _ _ _ (collect_preview_fields_reads _ _ _ _ _ _ _) Hc eq_refl) as [Hn Hdb].
  apply returns_bind in Hr as (st & s4 & Hs & Hr). apply returns_of_res in Hs as [_ ->]. apply returns_ret in Hr as [_ ->].
  cbn [fst snd] in *. split; [lia|]. exists t.2. split; [exact Hdb|]. right. exists (S n), artifact, t.1. destruct t. exact Ha.
Qed.

Lemma looked_up_incl ecosystem package versions versions' t t' :
  (forall v, v ∈ versions -> v ∈ versions') -> looked_up ecosystem package versions t t' -> looked_up ecosystem package versions' t t'.
Proof using Type. intros Hv. induction 1; [constructor|]. eapply looked_up_more; eauto. Qed.

Lemma passes_policy_incl n n' m principal projectId ecosystem package version earlier earlier' u :
  (n' <= n)%nat -> (forall v, v ∈ earlier -> v ∈ earlier') ->
  passes_policy (n, m) principal projectId ecosystem package version earlier u ->
  passes_policy (n', m) principal projectId ecosystem package version earlier' u.
Proof using Type.
  intros Hn He (k & t & snap & Hk & Ht & Hrest). exists k, t, snap. split; [cbn in *; lia|]. split; [by eapply looked_up_incl|exact Hrest].
Qed.

(** *** The order of candidates *)

Context (localeCompare : string -> string -> Z)
        (localeCompare_total : forall a b, localeCompare a b <= 0 \/ localeCompare b a <= 0)
        (localeCompare_trans : forall a b c, localeCompare a b <= 0 -> localeCompare b c <= 0 -> localeCompare a c <= 0).

(** Better than: by score, equals by their version. *)
Definition no_worse (a b : Candidate) : Prop :=
  ca_recommendation_score b < ca_recommendation_score a \/
  ca_recommendation_score a = ca_recommendation_score b /\ localeCompare (ca_version a) (ca_version b) <= 0.

Lemma candidate_before_iff a b : candidate_before localeCompare a b = true <-> no_worse a b.
Proof using Type. unfold candidate_before, no_worse. destruct (Z.eqb_spec (ca_recommendation_score a) (ca_recommendation_score b)); rewrite Z.leb_le; lia. Qed.

Lemma candidates_sorted l : StronglySorted no_worse (js_sort (candidate_before localeCompare) l).
Proof using localeCompare_total localeCompare_trans.
  assert (Hs : StronglySorted (fun a b => candidate_before localeCompare a b = true) (js_sort (candidate_before localeCompare) l)).
  { apply js_sort_sorted; intros; rewrite ?candidate_before_iff in *; unfold no_worse in *.
    - destruct (localeCompare_total (ca_version x) (ca_version y)); lia.
    - assert (Ht := localeCompare_trans (ca_version x) (ca_version y) (ca_version z)). lia. }
  induction Hs as [|c l' _ IH Hc]; constructor; [done|]. eapply Forall_impl; [exact Hc|]. intros d. apply candidate_before_iff.
Qed.

Lemma no_worse_refl a : no_worse a a.
Proof using localeCompare_total. right. split; [done|]. by destruct (localeCompare_total (ca_version a) (ca_version a)). Qed.

Lemma first_allowed_best l c :
  StronglySorted no_worse l -> head (List.filter is_allowed l) = Some c ->
  c ∈ l /\ is_allowed c = true /\ forall d, d ∈ l -> is_allowed d = true -> no_worse c d.
Proof using localeCompare_total.
  induction 1 as [|a l _ IH Ha]; [done|]. cbn [List.filter]. destruct (is_allowed a) eqn:E.
  - intros [= <-]. split; [apply list_elem_of_here|]. split; [done|]. rewrite Forall_forall in Ha.
    intros d [->|Hd]%elem_of_cons _; [apply no_worse_refl|by apply Ha].
  - intros Hc. destruct (IH Hc) as (Hin & Hall & Hbest). split; [by apply list_elem_of_further|]. split; [done|].
    intros d [->|Hd]%elem_of_cons Hd'; [by rewrite E in Hd'|by apply Hbest].
Qed.

(** *** The candidates *)

(** What is known of a candidate evaluated in a window, after some others. *)
Definition sound_candidate (window : nat * nat) (principal : McpPrincipal) (input : SuggestAllowedVersionsInput) (u : usage_db)
    (versions : list string) (version : string) (c : Candidate) : Prop :=
  ca_version c = version /\
  (is_allowed c = true ->
   passes_policy window principal (si_projectId input) (si_ecosystem input) (si_packageName input) version versions u).

(** The states between the evaluations of candidates. *)
Definition evaluating (n : nat) (input : SuggestAllowedVersionsInput) (versions : list string) (u : usage_db) (s : nat * usage_db) : Prop :=
  (n <= s.1)%nat /\ exists t, s.2 = with_catalog t u /\ looked_up (si_ecosystem input) (si_packageName input) versions (catalog_of u) t.

Lemma evaluate_sound n principal input current fix_ versions version u s c s' :
  evaluating n input versions u s -> version ∈ versions ->
  returns (evaluate_candidate (si_projectId input) (mp_tenantId principal) (si_ecosystem input) (si_packageName input) current fix_ version) s c s' ->
  (s.1 <= s'.1)%nat /\ sound_candidate (n, s'.1) principal input u versions version c /\ evaluating n input versions u s'.
Proof using Type.
  intros (Hn & t & Hs & Ht) Hin Hr. apply returns_bind in Hr as (g & s1 & Hg & Hr). apply returns_ret in Hr as [-> ->].
  unfold package_guidance, loadPackageVersionContext in Hg. apply returns_bind in Hg as (context & s2 & Hc & Hg).
  apply returns_bind in Hc as (now & s3 & Hnow & Hc). apply returns_now in Hnow as [_ ->]. apply returns_gets in Hc as [_ ->].
  apply returns_bind in Hg as (preview & s4 & Hp & Hg). apply returns_ret in Hg as [-> ->]. apply returns_zoom in Hp as (g' & Hp & ->).
  cbn [fst snd] in *. rewrite Hs in Hp. destruct (preview_looks_up _ _ _ _ _ _ _ _ _ Hp) as (Hlt & t' & Hg' & Ht'). split; [lia|]. split.
  - split; [done|]. unfold is_allowed. cbn [evaluated_candidate ca_decision snd]. intros Hd%String.eqb_eq.
    destruct (allowed_preview_passes _ _ _ _ _ _ _ _ _ Hp Hd) as (snap & Hl & Hpass). exists (S s.1), t, snap. split; [cbn; lia|].
    split; [exact Ht|]. split; [exact Hl|exact Hpass].
  - split; [cbn; lia|]. exists t'. split; [cbn [snd]; by rewrite Hs, Hg'|]. cbn in Ht'. destruct Ht' as [->|Hstep]; [exact Ht|]. by eapply looked_up_more.
Qed.

Lemma evaluate_all_sound principal input current fix_ versions u s cs s' :
  s.2 = u ->
  returns (mapM_ (evaluate_candidate (si_projectId input) (mp_tenantId principal) (si_ecosystem input) (si_packageName input) current fix_) versions) s cs s' ->
  Forall2 (sound_candidate (s.1, s'.1) principal input u versions) versions cs /\ exists t, s'.2 = with_catalog t u.
Proof using Type.
  intros Hu Hr. assert (Hstart : evaluating s.1 input versions u s).
  { split; [done|]. exists (catalog_of u). split; [rewrite Hu; by destruct u as [[? ? [] ? ? ?] ?]|constructor]. }
  clear Hu. enough (Hall : forall l s1 cs1, (forall v, v ∈ l -> v ∈ versions) -> evaluating s.1 input versions u s1 ->
    returns (mapM_ (evaluate_candidate (si_projectId input) (mp_tenantId principal) (si_ecosystem input) (si_packageName input) current fix_) l) s1 cs1 s' ->
    (s1.1 <= s'.1)%nat /\ Forall2 (sound_candidate (s.1, s'.1) principal input u versions) l cs1 /\ exists t, s'.2 = with_catalog t u).
  { by destruct (Hall versions s cs (fun _ Hv => Hv) Hstart Hr) as (_ & Hf & Ht). }
  clear. intros l. induction l as [|v l IH]; intros s1 cs1 Hl He Hr; cbn [mapM_] in Hr.
  { apply returns_ret in Hr as [-> ->]. split; [done|]. split; [constructor|]. destruct He as (_ & t & -> & _). by exists t. }
  apply returns_bind in Hr as (c & s2 & Hc & Hr). apply returns_bind in Hr as (cs2 & s3 & Hcs & Hr). apply returns_ret in Hr as [-> ->].
  destruct (evaluate_sound _ _ _ _ _ _ _ _ _ _ _ He (Hl v (list_elem_of_here _ _)) Hc) as (Hn & [Hv Hp] & He2).
  destruct (IH s2 cs2 (fun w Hw => Hl w (list_elem_of_further _ _ _ Hw)) He2 Hcs) as (Hn2 & Hf & Ht). split; [lia|]. split; [|exact Ht].
  constructor; [|exact Hf]. split; [done|]. intros Hal. destruct (Hp Hal) as (k & t & snap & Hk & Hrest). exists k, t, snap. split; [cbn in *; lia|exact Hrest].
Qed.

(** C27: a suggested version is worth following: a suggestion is made only to a caller
    who may use the project, and changes nothing but the catalogue; the version named
    first and every version of the package the project has used are among its
    candidates, each once; the suggested version is a candidate that is allowed, and
    none that is allowed is better; at an instant of this run no rule then in force for
    the project blocks on the fields of a preview of that version, those of the project's
    stored snapshots of it; and when none is suggested, no candidate is allowed. *)
Theorem suggested_version_allowed principal input n u out s' :
  trimmed (Some (si_projectId input)) = Some (si_projectId input) ->
  returns (suggestAllowedVersionsForMcp by_name localeCompare principal input) (n, u) out s' ->
  let versions := map ca_version (sv_candidates out) in
  may_use_project principal (si_projectId input) (tenancy_tables (gateway u)) /\ (exists t, s'.2 = with_catalog t u) /\
  NoDup versions /\ (forall v, present (si_currentVersion input) = Some v -> v ∈ versions) /\
  (forall r, r ∈ usageRows (si_projectId input) (mp_tenantId principal) (package_rows (si_ecosystem input) (si_packageName input) (catalog_of u)) u ->
     pv_version r.2.1 ∈ versions) /\
  match sv_suggested_version out with
  | None => forall c, c ∈ sv_candidates out -> is_allowed c = false
  | Some v =>
      (exists c, c ∈ sv_candidates out /\ ca_version c = v /\ is_allowed c = true /\
         forall d, d ∈ sv_candidates out -> is_allowed d = true -> no_worse c d) /\
      passes_policy (n, s'.1) principal (si_projectId input) (si_ecosystem input) (si_packageName input) v versions u
  end.
Proof using localeCompare_total localeCompare_trans.
  intros Htrim Hr. unfold suggestAllowedVersionsForMcp in Hr. apply returns_bind in Hr as ([] & s1 & Ha & Hr).
  destruct (returns_keeps _ _ _ _ _ (access_reads _ _ _) Ha eq_refl) as [Hn1 Hu1]. cbn [fst snd] in Hn1, Hu1. apply (access_may_use _ _ _ _ _ Htrim) in Ha.
  apply returns_bind in Hr as (observed & s2 & Ho & Hr). apply returns_gets in Ho as [Ho ->].
  apply returns_bind in Hr as (latestKnown & s3 & Hk & Hr).
  assert (Hu3 : s3.2 = u /\ s3.1 = s1.1) by (by destruct (hasLatestCandidate observed); [apply returns_ret in Hk as [_ ->]|apply returns_gets in Hk as [_ ->]]).
  clear Hk. destruct Hu3 as [Hu3 Hn3].
  apply returns_bind in Hr as (cs & s4 & Hcs & Hr). apply returns_ret in Hr as [-> ->].
  apply (evaluate_all_sound _ _ _ _ _ u _ _ _ Hu3) in Hcs as [Hcs Hdb]. cbn [sv_candidates sv_suggested_version sv_current_version].
  set (versions := candidateVersions _ _ _) in *. set (sorted := js_sort _ cs).
  assert (Hperm : map ca_version sorted ≡ₚ versions).
  { unfold sorted. rewrite js_sort_perm. clear -Hcs. induction Hcs as [|v c vs cs [Hv _] _ IH]; [done|]. cbn [map]. by rewrite Hv, IH. }
  cbv zeta. split; [done|]. split; [done|]. split; [rewrite Hperm; apply NoDup_set_of|]. split; [|split].
  - intros v Hv. rewrite Hperm. unfold versions, candidateVersions. rewrite elem_of_set_of, Hv. cbn. set_solver.
  - intros r Hu. rewrite Hperm. unfold versions, candidateVersions. rewrite elem_of_set_of, !elem_of_app. right. left.
    apply list_elem_of_In, in_concat. exists (row_candidates (observed_version u r)). split; [|cbn; by left]. apply in_map, list_elem_of_In.
    rewrite Ho, Hu1. apply order_by_elem_of. by apply (list_elem_of_fmap_2 (observed_version u)).
  - assert (Hsorted := candidates_sorted cs). fold sorted in Hsorted.
    destruct (head (List.filter is_allowed sorted)) as [c|] eqn:E; cbn [fmap option_fmap option_map].
    + destruct (first_allowed_best _ _ Hsorted E) as (Hin & Hall & Hbest). split; [by exists c|].
      unfold sorted in Hin. rewrite js_sort_elem_of in Hin. apply list_elem_of_lookup in Hin as [i Hi].
      destruct (Forall2_lookup_r _ _ _ _ _ Hcs Hi) as (v & _ & <- & Hp). rewrite Hn3 in Hp.
      eapply passes_policy_incl; [exact Hn1| |by apply Hp]. intros v Hv. by rewrite Hperm.
    + intros c Hc. destruct (List.filter is_allowed sorted) eqn:F; [|done].
      destruct (is_allowed c) eqn:G; [|done]. assert (Hx : c ∈ List.filter is_allowed sorted) by (by apply elem_of_filter_b). rewrite F in Hx.
      by apply not_elem_of_nil in Hx.
Qed.
End spec.


(** ** Instances *)

#[local] Existing Instances policy_formats example_env.

(** Code unit order, one collation. *)
Definition unit_order (a b : string) : Z := if decide (String.le a b) then (if decide (String.le b a) then 0 else -1) else 1.

Lemma unit_order_le a b : unit_order a b <= 0 <-> String.le a b.
Proof. unfold unit_order. destruct (decide (String.le a b)); [|split; [lia|done]]. by destruct (decide _); split. Qed.

Lemma unit_order_total a b : unit_order a b <= 0 \/ unit_order b a <= 0.
Proof. rewrite !unit_order_le. apply (total String.le). Qed.

Lemma unit_order_trans a b c : unit_order a b <= 0 -> unit_order b c <= 0 -> unit_order a c <= 0.
Proof. rewrite !unit_order_le. apply (transitivity (R := String.le)). Qed.

(** A policy that blocks the version 1.3.0 of any package. *)
Definition guidance_rule : rule_row :=
  {| r_id := "rule"; r_rule_key := "rk"; r_name := "no 1.3.0"; r_description := None; r_target_entity := "artifact";
     r_condition := JObj [("field", JStr "asset.version"); ("operator", JStr "eq"); ("value", JStr "1.3.0")];
     r_action := JObj [("type", JStr "violation"); ("code", JStr "OLD")]; r_effective_from := 0; r_effective_to := VALID_TO_INFINITY |}.

Definition guidance_policies : policy_db :=
  let db := example_db "enforcing" JNull None in
  {| policies := policies db; policy_project_bindings := policy_project_bindings db; policy_rule_bindings := policy_rule_bindings db;
     rules := [guidance_rule] |}.

Definition guidance_version (id version : string) : package_version_row :=
  {| pv_id := id; pv_package_id := "pkg"; pv_version := version; pv_version_kind := "version"; pv_artifact_kind := "package";
     pv_display_role := "primary"; pv_published_at := None; pv_last_metadata_seen_at := None; pv_last_used_at := None |}.

Definition guidance_catalog : catalog_db :=
  {| packages := [{| pk_id := "pkg"; pk_ecosystem := "npm"; pk_package := "left-pad"; pk_latest_package_version_id := Some "new";
                     pk_last_metadata_seen_at := None |}];
     package_versions := [guidance_version "old" "1.3.0"; guidance_version "new" "1.4.0"];
     package_version_refs := []; package_version_metadata := []; package_version_relationships := [] |}.

Definition guidance_gateway : gateway_db :=
  let db := check_example_db "enforcing" in
  {| tenancy_tables := tenancy_tables db; policy_tables := guidance_policies; check_tables := set_catalog guidance_catalog (check_tables db);
     record_tables := record_tables db; events := events db; published := published db |}.

Definition guidance_example_db : usage_db :=
  {| gateway := guidance_gateway;
     package_usage := [{| pu_id := "u"; pu_tenant_id := "ten"; pu_project_id := "proj"; pu_package_version_id := "old"; pu_request_count := 3;
                          pu_allow_count := 1; pu_block_count := 2; pu_created_at := 1; pu_updated_at := 2 |}] |}.

Definition guidance_principal : McpPrincipal := {| mp_userId := "user"; mp_tenantId := "ten"; mp_role := owner |}.

(** What to use instead of 1.3.0. *)
Definition guidance_input : SuggestAllowedVersionsInput :=
  {| si_projectId := "proj"; si_ecosystem := "npm"; si_packageName := "left-pad"; si_currentVersion := Some "1.3.0" |}.

Definition guidance_run : res SuggestedVersions * (nat * usage_db) :=
  suggestAllowedVersionsForMcp (fun ps => ps) unit_order guidance_principal guidance_input (0%nat, guidance_example_db).

Lemma suggested_version_allowed_witness :
  exists out s', guidance_run = (Ok out, s') /\ sv_suggested_version out = Some "1.4.0" /\
    may_use_project guidance_principal "proj" (tenancy_tables guidance_gateway) /\
    passes_policy (0%nat, s'.1) guidance_principal "proj" "npm" "left-pad" "1.4.0" (map ca_version (sv_candidates out)) guidance_example_db /\
    exists d, d ∈ sv_candidates out /\ ca_version d = "1.3.0".
Proof.
  destruct guidance_run as [[out|m] s'] eqn:E; [|vm_compute in E; discriminate E]. exists out, s'. split; [reflexivity|].
  assert (Hv : sv_suggested_version out = Some "1.4.0") by (vm_compute in E; injection E as <- _; reflexivity). split; [exact Hv|].
  destruct (suggested_version_allowed (fun ps => ps) unit_order unit_order_total unit_order_trans
              guidance_principal guidance_input 0 guidance_example_db out s' eq_refl E) as (Hu & _ & _ & Hc & _ & Hs).
  rewrite Hv in Hs. destruct Hs as [_ Hs]. split; [exact Hu|]. split; [exact Hs|].
  specialize (Hc "1.3.0" eq_refl). apply list_elem_of_fmap in Hc as (d & Hv1 & Hd). exists d. split; [exact Hd|symmetry; exact Hv1].
Defined.
