(* ===== verification/IngestQueue.v ===== *)
(** * The queue of contributor manifests
    (services/api/src/connect/record-package-contributor-metadata-service.ts)

    Manifests a proxy reports are ingested in the background, one at a time.  A manifest
    is dropped while one with its key waits or is being ingested.  The state is that of
    the module's variables, with the ingestions begun and not yet settled and the tables
    they write; an ingestion takes effect when its promise settles, and its errors are
    caught.  Messages arrive, ingestions settle and tests wait for the queue to be idle
    in any order. *)

From S2P Require Import Prelude JsString JsNum Effects Ingestion Contributor CheckService ConnectorTypes Evaluation Registry Gateway.
Local Open Scope string_scope.
Local Open Scope list_scope.
Local Open Scope Z_scope.

(** ** Messages and jobs *)

Record PackageContributorVersionInput := {
  vi_version : string; vi_published_at : string; vi_publisher : option string; vi_maintainers : list string;
  vi_has_install_scripts : bool; vi_has_attestation : bool; vi_raw_payload_json : option string
}.

Record PackageContributorMetadataInput := {
  mi_ecosystem : string; mi_package : string; mi_extracted_at : string; mi_fingerprint : option string;
  mi_latest_version : option string; mi_latest_published_at : option string; mi_history_complete : bool;
  mi_oldest_included_published_at : option string; mi_versions : list PackageContributorVersionInput
}.

Record ContributorMetadataIngestJob := {
  jb_key : string; jb_event : ContributorManifestEvent; jb_config : ContributorConnector
}.

Definition CONTRIBUTOR_METADATA_INGEST_CONCURRENCY : nat := 1.

Definition manifest_version (v : PackageContributorVersionInput) : ContributorManifestVersion :=
  {| mv_version := vi_version v; mv_publishedAt := vi_published_at v; mv_publisher := present (vi_publisher v);
     mv_maintainers := vi_maintainers v; mv_hasInstallScripts := vi_has_install_scripts v;
     mv_hasAttestation := vi_has_attestation v; mv_rawPayloadJson := vi_raw_payload_json v |}.

Definition manifest_event (msg : PackageContributorMetadataInput) : ContributorManifestEvent :=
  {| me_ecosystem := mi_ecosystem msg; me_package := mi_package msg; me_extractedAt := mi_extracted_at msg;
     me_fingerprint := mi_fingerprint msg; me_packageMetadataFingerprint := None; me_sliceFingerprint := None;
     me_requestedVersion := None; me_latestVersion := mi_latest_version msg; me_latestPublishedAt := mi_latest_published_at msg;
     me_historyComplete := mi_history_complete msg; me_oldestIncludedPublishedAt := mi_oldest_included_published_at msg;
     me_versions := map manifest_version (mi_versions msg) |}.

Definition contributorMetadataIngestKey (event : ContributorManifestEvent) : string :=
  join "|"
    [me_ecosystem event; me_package event;
     default (join ":" [me_extractedAt event; default EmptyString (me_latestVersion event);
                        default EmptyString (me_latestPublishedAt event);
                        string_of_Z (Z.of_nat (length (me_versions event)))])
       (fingerprint_of event)].

(** ** State *)

Record queue_state := {
  q_queue : list (string * ContributorMetadataIngestJob); q_inFlight : list string; q_active : nat; q_idleResolvers : list nat;
  q_resolved : list nat; q_running : list ContributorMetadataIngestJob; q_store : nat * check_db
}.

Definition started (key : string) (job : ContributorMetadataIngestJob) (rest : list (string * ContributorMetadataIngestJob))
    (st : queue_state) : queue_state :=
  {| q_queue := rest; q_inFlight := if existsb (String.eqb key) (q_inFlight st) then q_inFlight st else q_inFlight st ++ [key];
     q_active := S (q_active st); q_idleResolvers := q_idleResolvers st; q_resolved := q_resolved st;
     q_running := q_running st ++ [job]; q_store := q_store st |}.

Definition contributorMetadataIngestIsIdle (st : queue_state) : bool :=
  Nat.eqb (q_active st) 0 && match q_queue st with [] => true | _ => false end.

Definition resolveContributorMetadataIdleWaiters (st : queue_state) : queue_state :=
  if negb (contributorMetadataIngestIsIdle st) then st
  else {| q_queue := q_queue st; q_inFlight := q_inFlight st; q_active := q_active st; q_idleResolvers := [];
          q_resolved := q_resolved st ++ q_idleResolvers st; q_running := q_running st; q_store := q_store st |}.

(** The loop; an iteration adds an active ingestion, so there are at most
    [CONTRIBUTOR_METADATA_INGEST_CONCURRENCY]. *)
Fixpoint drain_loop (fuel : nat) (st : queue_state) : queue_state :=
  match fuel with
  | O => st
  | S fuel =>
      if (q_active st <? CONTRIBUTOR_METADATA_INGEST_CONCURRENCY)%nat
      then match q_queue st with
           | [] => st
           | (key, job) :: rest => drain_loop fuel (started key job rest st)
           end
      else st
  end.

Definition drainContributorMetadataIngestQueue (st : queue_state) : queue_state :=
  resolveContributorMetadataIdleWaiters (drain_loop CONTRIBUTOR_METADATA_INGEST_CONCURRENCY st).

Definition pending (key : string) (st : queue_state) : bool :=
  existsb (String.eqb key) (q_inFlight st) || bool_decide (is_Some (map_get key (q_queue st))).

Definition with_queue (queue : list (string * ContributorMetadataIngestJob)) (st : queue_state) : queue_state :=
  {| q_queue := queue; q_inFlight := q_inFlight st; q_active := q_active st; q_idleResolvers := q_idleResolvers st;
     q_resolved := q_resolved st; q_running := q_running st; q_store := q_store st |}.

Definition enqueueContributorMetadataIngest (job : ContributorMetadataIngestJob) (st : queue_state) : queue_state :=
  if pending (jb_key job) st then st
  else drainContributorMetadataIngestQueue (with_queue (map_set (jb_key job) job (q_queue st)) st).

Section queue.
Context `{Env} (connectors : list connector).

Definition message_job (msg : PackageContributorMetadataInput) : option ContributorMetadataIngestJob :=
  (fun config => {| jb_key := contributorMetadataIngestKey (manifest_event msg); jb_event := manifest_event msg; jb_config := config |})
    <$> contributorIngestionConfigFromConnectors connectors.

Definition handleRecordPackageContributorMetadata (msg : PackageContributorMetadataInput) (st : queue_state) : queue_state :=
  match message_job msg with
  | None => st
  | Some job => enqueueContributorMetadataIngest job st
  end.

(** [runContributorMetadataIngestJob]: what it leaves of the tables. *)
Definition run_job (job : ContributorMetadataIngestJob) (store : nat * check_db) : nat * check_db :=
  (try_catch (ingestContributorMetadata (jb_event job) (jb_config job)) (fun _ => mret tt) store).2.

Definition running_job (key : string) (st : queue_state) : option ContributorMetadataIngestJob :=
  js_find (fun job => String.eqb (jb_key job) key) (q_running st).

(** The [finally] of an ingestion. *)
Definition finished (job : ContributorMetadataIngestJob) (st : queue_state) : queue_state :=
  {| q_queue := q_queue st; q_inFlight := List.filter (fun k => negb (String.eqb k (jb_key job))) (q_inFlight st);
     q_active := pred (q_active st); q_idleResolvers := q_idleResolvers st; q_resolved := q_resolved st;
     q_running := List.filter (fun j => negb (String.eqb (jb_key j) (jb_key job))) (q_running st);
     q_store := run_job job (q_store st) |}.

Definition settle (key : string) (st : queue_state) : queue_state :=
  match running_job key st with
  | None => st
  | Some job => resolveContributorMetadataIdleWaiters (drainContributorMetadataIngestQueue (finished job st))
  end.

Definition waitForContributorMetadataIngestQueueForTests (waiter : nat) (st : queue_state) : queue_state :=
  if contributorMetadataIngestIsIdle st
  then {| q_queue := q_queue st; q_inFlight := q_inFlight st; q_active := q_active st; q_idleResolvers := q_idleResolvers st;
          q_resolved := q_resolved st ++ [waiter]; q_running := q_running st; q_store := q_store st |}
  else {| q_queue := q_queue st; q_inFlight := q_inFlight st; q_active := q_active st; q_idleResolvers := q_idleResolvers st ++ [waiter];
          q_resolved := q_resolved st; q_running := q_running st; q_store := q_store st |}.

(** ** Steps *)

Inductive queue_event : Type :=
| reported (msg : PackageContributorMetadataInput)
| ingested (key : string)
| awaited (waiter : nat).

Definition queue_step (st : queue_state) (e : queue_event) : queue_state :=
  match e with
  | reported msg => handleRecordPackageContributorMetadata msg st
  | ingested key => settle key st
  | awaited waiter => waitForContributorMetadataIngestQueueForTests waiter st
  end.

Definition queue_run (st : queue_state) (es : list queue_event) : queue_state := foldl queue_step st es.

Definition empty_queue (store : nat * check_db) : queue_state :=
  {| q_queue := []; q_inFlight := []; q_active := 0; q_idleResolvers := []; q_resolved := []; q_running := []; q_store := store |}.
End queue.

(** ** What the queue promises

    It is a first-in first-out queue without two manifests of one key, served one at a
    time and never idle while a manifest waits; and whatever was reported, it empties. *)

Local Close Scope Z_scope.

(** *** Specification: a queue whose first manifest is being ingested *)

Section spec.
Context `{Env} (connectors : list connector).

Definition fifo : Type := list ContributorMetadataIngestJob * list ContributorMetadataIngestJob.

Definition has_key (key : string) (jobs : list ContributorMetadataIngestJob) : bool :=
  existsb (fun j => String.eqb key (jb_key j)) jobs.

Definition fifo_step (s : fifo) (e : queue_event) : fifo :=
  match e with
  | reported msg =>
      match message_job connectors msg with
      | Some job => if has_key (jb_key job) s.1 then s else (s.1 ++ [job], s.2)
      | None => s
      end
  | ingested key =>
      match s.1 with
      | job :: rest => if String.eqb (jb_key job) key then (rest, s.2 ++ [job]) else s
      | [] => s
      end
  | awaited _ => s
  end.

Definition fifo_run (es : list queue_event) : fifo := foldl fifo_step ([], []) es.

(** The jobs the code has, in the order they were accepted. *)
Definition jobs (st : queue_state) : list ContributorMetadataIngestJob := q_running st ++ (q_queue st).*2.

Definition waiter_of (e : queue_event) : option nat := match e with awaited w => Some w | _ => None end.

(** ** The invariant *)

Record queue_inv (st : queue_state) : Prop := {
  qi_active : q_active st = length (q_running st);
  qi_one : (length (q_running st) <= CONTRIBUTOR_METADATA_INGEST_CONCURRENCY)%nat;
  qi_inFlight : q_inFlight st = map jb_key (q_running st);
  qi_keys : Forall (fun e => e.1 = jb_key e.2) (q_queue st);
  qi_nodup : NoDup (map jb_key (jobs st));
  qi_busy : q_running st = [] -> q_queue st = [];
  qi_waiters : q_running st = [] -> q_idleResolvers st = []
}.

Lemma map_get_none {A} k (m : list (string * A)) : k ∉ m.*1 -> map_get k m = None.
Proof using Type.
  induction m as [|[j w] m IH]; [done|]. cbn. rewrite not_elem_of_cons. intros [Hj Hm].
  rewrite (proj2 (String.eqb_neq _ _) Hj). by apply IH.
Qed.

Lemma map_set_new {A} k (v : A) m : map_get k m = None -> map_set k v m = m ++ [(k, v)].
Proof using Type. induction m as [|[j w] m IH]; cbn; [done|]. destruct (String.eqb k j); [done|]. intros Hm. by rewrite IH. Qed.

Lemma queue_keys st : queue_inv st -> (q_queue st).*1 = map jb_key (q_queue st).*2.
Proof using Type.
  intros Hi. rewrite map_map. assert (Hk := qi_keys st Hi). induction (q_queue st) as [|[k j] q IH]; [done|].
  apply Forall_cons in Hk as [Hk Hq]. cbn in *. by rewrite Hk, IH.
Qed.

Lemma pending_key key st : queue_inv st -> pending key st = has_key key (jobs st).
Proof using Type.
  intros Hi. unfold pending, has_key, jobs. rewrite existsb_app. f_equal.
  - rewrite (qi_inFlight st Hi). induction (q_running st) as [|j l IH]; [done|]. cbn. by rewrite IH.
  - assert (Hk := qi_keys st Hi). induction (q_queue st) as [|[k j] q IH]; [done|]. apply Forall_cons in Hk as [Hk Hq]. cbn in *.
    rewrite Hk. destruct (String.eqb key (jb_key j)); [done|]. by apply IH.
Qed.

(** Whatever happens, the code does what the queue it stands for does. *)
Lemma queue_step_inv st e done_ :
  queue_inv st ->
  queue_inv (queue_step connectors st e) /\
  (jobs (queue_step connectors st e), (fifo_step (jobs st, done_) e).2) = fifo_step (jobs st, done_) e /\
  q_store (queue_step connectors st e) =
    match e with
    | ingested key => match jobs st with job :: _ => if String.eqb (jb_key job) key then run_job job (q_store st) else q_store st | [] => q_store st end
    | _ => q_store st
    end /\
  q_resolved (queue_step connectors st e) ++ q_idleResolvers (queue_step connectors st e) ≡ₚ
    q_resolved st ++ q_idleResolvers st ++ from_option (fun w => [w]) [] (waiter_of e).
Proof using Type.
  intros Hi. assert (Hi' := Hi). destruct Hi as [Ha Ho Hf Hk Hn Hb Hw].
  destruct st as [queue inFlight active resolvers resolved running store]. cbn in Ha, Ho, Hf, Hk, Hn, Hb, Hw. subst active inFlight.
  destruct running as [|job [|]]; cbn in Ho, Hn; [|clear Hb Hw|unfold CONTRIBUTOR_METADATA_INGEST_CONCURRENCY in Ho; lia].
  - specialize (Hb eq_refl) as ->. specialize (Hw eq_refl) as ->.
    destruct e as [msg|key|w]; cbn [queue_step fifo_step fst snd waiter_of from_option].
    + unfold handleRecordPackageContributorMetadata. destruct (message_job connectors msg) as [job|];
        [|by split_and!; [split|..]; rewrite ?app_nil_r].
      cbn. split_and!; [split; cbn; try done; try apply NoDup_singleton; try lia|done|done|by rewrite ?app_nil_r].
    + cbn. by split_and!; [split|..]; rewrite ?app_nil_r.
    + cbn. by split_and!; [split|..]; rewrite ?app_nil_r.
  - destruct e as [msg|key|w]; cbn [queue_step fifo_step fst snd waiter_of from_option].
    + unfold handleRecordPackageContributorMetadata. destruct (message_job connectors msg) as [new|];
        [|by split_and!; [split|..]; rewrite ?app_nil_r].
      unfold enqueueContributorMetadataIngest. rewrite (pending_key _ _ Hi').
      destruct (has_key (jb_key new) (jobs _)) eqn:E; [by split_and!; [split|..]; rewrite ?app_nil_r|].
      unfold jobs, has_key in E. cbn in E. apply orb_false_iff in E as [E1 E2].
      assert (Hnew : jb_key new ∉ map jb_key queue.*2).
      { intros (j & Hj & Hin)%list_elem_of_fmap. assert (has_key (jb_key new) queue.*2 = false) as Hno by exact E2.
        unfold has_key in Hno. rewrite existsb_none in Hno. specialize (Hno j Hin). rewrite Hj in Hno. by rewrite String.eqb_refl in Hno. }
      assert (Hks : queue.*1 = map jb_key queue.*2).
      { clear -Hk. induction queue as [|[k j] q IH]; [done|]. apply Forall_cons in Hk as [Hk Hq]. cbn in *. by rewrite Hk, IH. }
      assert (Hnone : map_get (jb_key new) queue = None) by (apply map_get_none; by rewrite Hks). cbn [q_queue].
      rewrite (map_set_new _ _ _ Hnone).
      cbn. split_and!; [split; cbn; try done| |done|by rewrite app_nil_r].
      * apply Forall_app. split; [done|]. by repeat constructor.
      * unfold jobs in *. cbn in *. rewrite fmap_app, map_app. cbn. rewrite app_comm_cons. apply NoDup_app. split; [done|]. split; [|apply NoDup_singleton].
        intros k Hin ->%list_elem_of_singleton. apply elem_of_cons in Hin as [Hin|Hin]; [|done]. by apply String.eqb_neq in E1.
      * unfold jobs. cbn. rewrite fmap_app. done.
    + unfold settle, running_job. cbn [q_running js_find List.find]. unfold jobs. cbn [q_running q_queue app].
      destruct (String.eqb (jb_key job) key) eqn:E; [apply String.eqb_eq in E; subst key|by split_and!; [split|..]; rewrite ?app_nil_r].
      unfold finished. cbn. rewrite String.eqb_refl. cbn. destruct queue as [|[k next] queue]; cbn.
      * split_and!; [split; cbn; try done; try constructor; lia|done|done|by rewrite ?app_nil_r].
      * apply Forall_cons in Hk as [Hk Hq]. cbn in Hk. subst k. unfold jobs in Hn. cbn in Hn. apply NoDup_cons in Hn as [_ Hn].
        split_and!; [split; cbn; try done; lia|done|done|by rewrite ?app_nil_r].
    + cbn. split_and!; [split; cbn; try done|done|done|done].
Qed.

(** A run, step by step. *)
Lemma queue_run_inv st es done_ :
  queue_inv st ->
  queue_inv (queue_run connectors st es) /\
  let s := foldl fifo_step (jobs st, done_) es in
  jobs (queue_run connectors st es) = s.1 /\
  (exists more, s.2 = done_ ++ more /\ q_store (queue_run connectors st es) = foldl (fun store job => run_job job store) (q_store st) more) /\
  q_resolved (queue_run connectors st es) ++ q_idleResolvers (queue_run connectors st es) ≡ₚ
    q_resolved st ++ q_idleResolvers st ++ omap waiter_of es.
Proof using Type.
  revert st done_. induction es as [|e es IH]; intros st done_ Hi; cbn [queue_run foldl].
  { split; [done|]. split; [done|]. split; [exists []; by rewrite app_nil_r|]. cbn. by rewrite app_nil_r. }
  destruct (queue_step_inv st e done_ Hi) as (Hi' & Hf & Hs & Hw). destruct (IH _ (fifo_step (jobs st, done_) e).2 Hi') as (Hi2 & Hj & Hm & Hr).
  rewrite Hf in Hj, Hm. split; [exact Hi2|]. split; [exact Hj|]. split.
  - destruct Hm as (more & Hm & Hst). rewrite Hm.
    unfold queue_run in Hst |- *. rewrite Hst, Hs. destruct e as [msg|key|w]; cbn [fifo_step fst snd].
    + exists more. split; [|done]. destruct (message_job connectors msg); [|done]. by destruct (has_key _ _).
    + destruct (jobs st) as [|job rest]; [by exists more|]. destruct (String.eqb (jb_key job) key); [|by exists more].
      exists (job :: more). cbn [snd]. by rewrite <- app_assoc.
    + by exists more.
  - unfold queue_run in Hr |- *. rewrite Hr, app_assoc, Hw. cbn [omap list_omap]. destruct (waiter_of e); cbn [from_option];
      rewrite ?app_nil_r, <- ?app_assoc; done.
Qed.

Lemma settling_waits_none l : omap waiter_of (map (fun job => ingested (jb_key job)) l) = [].
Proof using Type. by induction l. Qed.

Lemma empty_inv store : queue_inv (empty_queue store).
Proof using Type. split; cbn; try done; try constructor. unfold CONTRIBUTOR_METADATA_INGEST_CONCURRENCY. lia. Qed.

Lemma fifo_drain l done_ :
  foldl fifo_step (l, done_) (map (fun j => ingested (jb_key j)) l) = ([], done_ ++ l).
Proof using Type.
  revert done_. induction l as [|j l IH]; intros done_; cbn [map foldl]; [by rewrite app_nil_r|].
  cbn [fifo_step fst snd]. rewrite String.eqb_refl, IH, <- app_assoc. done.
Qed.

(** ** Properties *)

(** C22: whatever manifests are reported, ingestions settle and waits are made, in
    any order, the queue is a first-in first-out queue that refuses a manifest only
    while one with its key is in it: the manifests the code holds are those of that
    queue, in its order, each once; at most one is being ingested, and one is
    whenever there are any, the first; and the tables are those the settled
    ingestions leave, in the order their manifests were accepted. *)
Theorem queue_refines_fifo es store :
  let st := queue_run connectors (empty_queue store) es in
  jobs st = (fifo_run es).1 /\ NoDup (map jb_key (jobs st)) /\
  q_running st = firstn CONTRIBUTOR_METADATA_INGEST_CONCURRENCY (jobs st) /\
  q_store st = foldl (fun store job => run_job job store) store (fifo_run es).2.
Proof using Type.
  cbn zeta. destruct (queue_run_inv (empty_queue store) es [] (empty_inv store)) as (Hi & Hj & (more & Hm & Hs) & _).
  change (foldl fifo_step (jobs (empty_queue store), []) es) with (fifo_run es) in Hj, Hm. cbn [app] in Hm. rewrite <- Hm in Hs.
  split; [exact Hj|]. split; [apply Hi|]. split; [|exact Hs].
  assert (Ho := qi_one _ Hi). assert (Hb := qi_busy _ Hi). unfold jobs, CONTRIBUTOR_METADATA_INGEST_CONCURRENCY in *.
  destruct (q_running _) as [|j [|]]; cbn in *; [by rewrite Hb|done|lia].
Qed.

(** C23: the queue always empties: after any events, when the ingestions it holds
    have settled one after the other, nothing waits and nothing is being ingested,
    every one of the manifests it held has been ingested, in order, and everyone
    who waited for the queue to be idle has been told, once. *)
Theorem queue_drains es store :
  let st := queue_run connectors (empty_queue store) es in
  let st' := queue_run connectors st (map (fun job => ingested (jb_key job)) (jobs st)) in
  contributorMetadataIngestIsIdle st' = true /\ q_running st' = [] /\
  q_store st' = foldl (fun store job => run_job job store) (q_store st) (jobs st) /\
  q_idleResolvers st' = [] /\ q_resolved st' ≡ₚ omap waiter_of es.
Proof using Type.
  cbn zeta. destruct (queue_run_inv (empty_queue store) es [] (empty_inv store)) as (Hi & _ & _ & Hw).
  set (st := queue_run connectors (empty_queue store) es) in *.
  destruct (queue_run_inv st (map (fun job => ingested (jb_key job)) (jobs st)) [] Hi) as (Hi' & Hj & (more & Hm & Hs) & Hw').
  rewrite fifo_drain in Hj, Hm. cbn [fst snd app] in Hj, Hm. subst more. unfold jobs in Hj at 1. apply app_eq_nil in Hj as [Hr Hq].
  assert (Hqueue : q_queue (queue_run connectors st (map (fun job => ingested (jb_key job)) (jobs st))) = []) by (by destruct (q_queue _)).
  assert (Hidle := qi_waiters _ Hi' Hr). split; [|split; [exact Hr|split; [exact Hs|split; [exact Hidle|]]]].
  - unfold contributorMetadataIngestIsIdle. by rewrite (qi_active _ Hi'), Hr, Hqueue.
  - rewrite Hidle, app_nil_r in Hw'. rewrite Hw', app_assoc, Hw. cbn.
    by rewrite settling_waits_none, app_nil_r.
Qed.
End spec.
